(* ===== verification/_CoqProject ===== *)
-Q . S2P
Prelude.v
RtList.v
SList.v
KService.v
Mem.v
Heap.v
HeapExamples.v
KString.v
KPrintf.v
KPrintfSpec.v
ServiceExamples.v
Libc.v
Console.v
Bme280.v
Bme280Spec.v
BoardExamples.v
Msh.v
Shell.v
ShellSpec.v
ShellExamples.v
History.v
HistorySpec.v
Complete.v
CompleteSpec.v
ListPrefix.v
ListPrefixSpec.v
HistoryExamples.v
CpuPort.v
Kernel.v
Sched.v
Object.v
Timer.v
Thread.v
Ipc.v
Mutex.v
Event.v
Mailbox.v
MsgQueue.v
MemPool.v
Idle.v
Sleep.v
MemHeap.v
MemHeapRep.v
MemHeapSpec.v
MemHeapFree.v
MemHeapResize.v
MemHeapInit.v
MemHeapExamples.v
Slab.v
SlabPages.v
SlabZones.v
SlabSpec.v
SlabFree.v
SlabRealloc.v
SlabInit.v
SlabExamples.v
ListCmd.v
App.v
System.v
Typing.v
ListCmdSpec.v
Scenario.v
Examples.v
ListCmdExamples.v
