(* ===== verification/Prelude.v ===== *)
(** Verification of the C software of the RISC-V board: the RT-Thread Nano
    3.1.5 kernel (src/rt-thread/kernel), the FinSH shell (components/finsh) and
    the board support of this CPU (bsp/mycpu).

    * The program

    The kernel schedules threads by 32 priorities, round-robin among equals;
    threads block on timers and on IPC objects (semaphores, mutexes, events,
    mailboxes, message queues, memory pools) and are woken by other threads, by
    interrupts or by the tick.  The CPU has no interrupts: the tick comes from
    the idle thread, which polls a millisecond counter.  Above the kernel run a
    shell on the serial line and a driver for a BME280 sensor.  The
    configuration is that of bsp/mycpu/rtconfig.h (no SMP, no devices, no hooks,
    no soft timers, RT_DEBUG off), with the IPC classes that this BSP switches
    off (events, mailboxes, message queues, memory pools) on.

    * The model

    The C code is embedded shallowly in a state-and-fault monad [M S A]
    (this file): an operation returns a value and a new state, or stops at a
    fault.  Faults are a failed RT_ASSERT, an access to memory or an object that
    is not there, linking a node that is linked, undefined arithmetic, and
    exhausted fuel.  A theorem of the form [m s = Ok (a, s')] or [wp m Q s]
    therefore also says that no fault happens.  Integers are [Z] with their
    wrap-around written out (u8, u16, u32, s8, s16, s32, this file; i32 and i64
    of Bme280 fault when signed arithmetic overflows); plain char is unsigned,
    as on this target.  Bytes are a finite map from addresses, [mem].

    - Prelude: integers, monad, the logics [preserves] and [wp], list lemmas.
    - RtList, SList: the circular doubly linked lists and the singly linked
      lists of kernel/include/rtservice.h, at pointer level, and the refinement
      to the abstract lists on which Kernel and its clients are written.
    - KService, KString, KPrintf, KPrintfSpec: kernel/src/kservice.c: memory
      functions, string functions, aligned allocation, formatted output;
      ServiceExamples has concrete runs.
    - Mem, Heap, HeapExamples: kernel/src/mem.c, the first-fit allocator.
    - Libc, Console: bsp/mycpu/board.c: the C library functions, the UART
      console, with rt_kprintf and rt_kputs of kservice.c.
    - Msh, Shell, ShellSpec, ShellExamples: components/finsh/msh.c and shell.c.
      History, HistorySpec: the command history of shell.c; Complete, CompleteSpec:
      completion of command names, msh_auto_complete of msh.c; ListPrefix,
      ListPrefixSpec: list and list_prefix of cmd.c; HistoryExamples has them on
      a concrete memory.  The class TabKey (HistorySpec) is what the
      history promises to work with: the plain tab key, and completion.
    - Bme280, Bme280Spec, BoardExamples: bsp/mycpu/bme280.c, and a concrete
      board for it and for the console.
    - Kernel: the structs of kernel/include/rtdef.h as records, all static
      variables of the kernel as one state [kstate], the lists as abstract
      lists, interrupt nesting (irq.c).  CpuPort: the initial stack
      (libcpu/risc-v/common/cpuport.c).
    - Sched (scheduler.c), Object (object.c), Timer (timer.c, clock.c), Thread
      (thread.c), Ipc (semaphores and waiter lists of ipc.c), Mutex, Event,
      Mailbox, MsgQueue (ipc.c), MemPool (mempool.c), Idle (idle.c, the tick
      hook of board.c, start-up of components.c): one file per component, with
      its operations, its invariant and its theorems.
    - Sleep: rt_thread_sleep of Thread together with the tick of Timer.
    - MemHeap: kernel/src/memheap.c, the allocator with several heaps, with the
      errno functions of kservice.c; MemHeapRep (blocks and free list),
      MemHeapSpec (allocation), MemHeapFree, MemHeapResize, MemHeapInit and
      MemHeapExamples have its theorems.
    - Slab: kernel/src/slab.c, a page allocator with zones of equal chunks on
      top; SlabPages, SlabZones, SlabSpec, SlabFree, SlabRealloc, SlabInit and
      SlabExamples have its theorems.
    - ListCmd, ListCmdSpec, ListCmdExamples: the list commands of
      components/finsh/cmd.c and rt_show_version of kservice.c.
    - App: the sampling thread and the bme command of bsp/mycpu/main.c as a
      transition system of its own, over the results of the driver.
    - System: the kernel as a transition system; Typing: its object store;
      Scenario and Examples: a
      concrete system built by running the model, to which the theorems apply.

    Operations keep the names of the C functions; a loop of a function is a
    Fixpoint named after the function.  A call that blocks is modelled in two
    parts, split where rt_schedule switches away: up to there, returning
    [Pending] or a result, and a [_resumed] part that runs when the thread is
    current again.  What application code does in callbacks, thread entries and
    shell commands is a parameter (UserCode, [call]); the hypotheses on it are
    named classes (UserCodeOk, QuietCallbacks, commands_return).  Devices are
    behind a bus (classes Bus, Uart, Sensor), with concrete instances in
    BoardExamples.

    * What is proved

    - System: every reachable state satisfies [sched_ok]: the ready table, the
      bitmap, the waiter lists and the states of the threads fit together; each
      operation of Sched to MemPool preserves it.  Typing: in every reachable
      state the class of an object is that of its struct.  Sched: rt_schedule picks the
      first READY thread of the highest priority.  Thread: priorities,
      suspending and resuming, yielding.
    - Timer: the list stays sorted by timeout across tick wrap-around;
      rt_timer_check fires exactly the expired timers, in order.
    - Sleep: a thread that sleeps for n ticks is suspended until the nth tick
      and READY after it, whatever the other timers do.
    - Ipc, Mutex, Event, Mailbox, MsgQueue, MemPool: each take, release, send
      and receive on every branch, as operations on abstract queues, flags and
      pools; waking order; priority inheritance.
    - Heap: the heap is a list of blocks, rt_malloc is first fit on it, rt_free
      merges, rt_realloc keeps contents, allocation followed by free restores
      the list; where sizes wrap around.
    - MemHeapSpec, MemHeapFree, MemHeapResize, MemHeapInit: a memheap is a list
      of blocks and a free list of exactly the free ones; allocation is first
      fit on the free list, release joins all free neighbours, reallocation
      moves the end of a block in place or falls back to copying.
    - SlabPages: the free pages are sorted runs that do not touch; allocation is
      first fit and fails only if no run is long enough; release joins runs.
      SlabZones, SlabSpec, SlabFree, SlabRealloc, SlabInit: the invariant of
      pages, zones, class lists and page table; the live blocks never overlap,
      rt_malloc adds one, rt_free removes one, rt_realloc keeps the contents.
    - KService, KString, KPrintfSpec: word-wise memory functions equal their
      byte-wise meaning; string functions; rt_vsnprintf prints the reference
      text of its format, inside of the buffer; numbers are read back.
    - Console: rt_kprintf on the serial line.  Libc: the strncpy overrun.
    - HistorySpec: the shell with history refines an editor with a list of the
      last five lines.  CompleteSpec, ListPrefixSpec: tab
      completes to the longest common prefix of the commands or symbols.
    - Msh, ShellSpec: the line is split into words and executed; editing keys
      change the line and a terminal's picture as an abstract editor does.
    - ListCmdSpec: each list command prints a head and a row for every object of
      its class, in order; list_mutex faults at a mutex without an owner.
    - App: no start command is lost and a stopped thread does not enter the
      driver; two threads can be inside of the driver at once.
    - Bme280Spec: initialisation decodes the sensor's calibration; a measurement
      does not overflow and is within a hundredth of a degree of the formula.

    * Fuel and bounds

    Loops over data have structural fuel that the theorems show to be enough:
    the size of the memory for strings (a string fits into it), the number of
    timers plus one for rt_timer_check, the number of blocks for the heap, the
    number of items for the free list of a memheap, the number of page heads
    and zones for the lists of slab.c, the
    number of waiters for rt_event_send.  Polling loops without a bound in the
    source (UART) take the number of polls as an argument; the theorem asks for
    more than the device's longest busy time.  The limit of 2000000 polls of
    i2c_wait_done is the source's own.

    * Simplifications

    Interrupts happen between operations, not inside of them: the source
    disables them around its critical sections.  On this board the tick runs in
    the idle thread, so a rt_schedule inside of rt_timer_check switches at once,
    and the rest of that loop runs when idle is current again; the model runs
    the rest first.  The heap semaphore is a counter.  Contents of memory that
    the kernel does not give out are not in [ram].  The shell's position fields
    are not part of its byte memory, so an access behind the line buffer
    faults.  Output of shell commands is not recorded.

    * Not modelled

    kernel/src/device.c and cpu.c are not compiled in this configuration.
    Context switching and start-up are assembly.  Of cmd.c, list_device needs
    the devices.  coremark_cmd.c starts an external program.  The password of the
    shell and the C-expression shell (whose parser is not in the tree) are not
    compiled in.  The CPU itself (SystemVerilog) is the platform.  The list
    commands, the history and completion of the shell, memheap.c and slab.c are
    not switched on for this board, but modelled. *)
From stdpp Require Export base tactics list gmap.
From Stdlib Require Export ZArith Lia.

#[global] Open Scope Z_scope.

(** * Machine-width integers (ilp32: [int], [long] and pointers have 32 bits) *)

Definition u8 (x : Z) : Z := x mod 256.
Definition u16 (x : Z) : Z := x mod 65536.
Definition u32 (x : Z) : Z := x mod 4294967296.
(** reinterpretation of a 32-bit pattern as a signed [int] *)
Definition s32 (x : Z) : Z := (x + 2147483648) mod 4294967296 - 2147483648.

(** reinterpretation of 16 bits as an [rt_int16_t] *)
Definition s16 (x : Z) : Z := (x + 32768) mod 65536 - 32768.
(** reinterpretation of a byte as a [signed char] *)
Definition s8 (x : Z) : Z := (x + 128) mod 256 - 128.

(** a non-negative number is below [2^n] when no bit from [n] on is set *)
Lemma bits_lt n g :
  0 <= n -> 0 <= g -> (forall i, n <= i -> Z.testbit g i = false) -> g < 2 ^ n.
Proof.
  intros Hn Hg Hb. destruct (decide (g = 0)) as [->|]; [lia|].
  apply Z.log2_lt_pow2; [lia|]. destruct (decide (n <= Z.log2 g)) as [Hle|]; [|lia].
  pose proof (Z.bit_log2 g ltac:(lia)). by rewrite Hb in *.
Qed.
Lemma lt_bits n g i : 0 <= g < 2 ^ n -> n <= i -> Z.testbit g i = false.
Proof.
  intros Hg Hi. destruct (decide (g = 0)) as [->|]; [apply Z.bits_0|].
  apply Z.bits_above_log2; [lia|].
  enough (Z.log2 g < n) by lia. apply Z.log2_lt_pow2; lia.
Qed.

(** C truth value of an integer expression *)
Definition truthy (x : Z) : bool := negb (x =? 0).

Lemma u8_range x : 0 <= u8 x < 256.
Proof. apply Z.mod_pos_bound; lia. Qed.
Lemma u16_range x : 0 <= u16 x < 65536.
Proof. apply Z.mod_pos_bound; lia. Qed.
Lemma u32_range x : 0 <= u32 x < 4294967296.
Proof. apply Z.mod_pos_bound; lia. Qed.
Lemma s32_range x : -2147483648 <= s32 x < 2147483648.
Proof.
  unfold s32. pose proof (Z.mod_pos_bound (x + 2147483648) 4294967296). lia.
Qed.
Lemma u8_small x : 0 <= x < 256 -> u8 x = x.
Proof. apply Z.mod_small. Qed.
Lemma u16_small x : 0 <= x < 65536 -> u16 x = x.
Proof. apply Z.mod_small. Qed.
Lemma u32_small x : 0 <= x < 4294967296 -> u32 x = x.
Proof. apply Z.mod_small. Qed.
Lemma s32_small x : -2147483648 <= x < 2147483648 -> s32 x = x.
Proof. intros. unfold s32. rewrite Z.mod_small; lia. Qed.
Lemma truthy_true x : truthy x = true <-> x <> 0.
Proof. unfold truthy. destruct (Z.eqb_spec x 0); naive_solver. Qed.
Lemma truthy_false x : truthy x = false <-> x = 0.
Proof. unfold truthy. destruct (Z.eqb_spec x 0); naive_solver. Qed.

(** * Faults and results

    A run of an operation either returns a value and a new state or stops at
    a fault: a violated [RT_ASSERT] (whose handler never returns), a
    dereference the code has no right to make, the linking of a node that is
    already on a list, a wait that the model's caller excludes, exhausted fuel
    of a modelled loop, or an operation C leaves undefined (a shift by the
    width of the type). *)
Inductive fault :=
  | AssertFailed
  | BadPointer
  | ListCorrupt
  | WouldBlock
  | OutOfFuel
  | Undefined.

Inductive result (A : Type) :=
  | Ok (a : A)
  | Fault (f : fault).
Arguments Ok {A} a.
Arguments Fault {A} f.

#[export] Instance fault_eq_dec : EqDecision fault.
Proof. solve_decision. Defined.

(** * The state-and-fault monad *)
Definition M (S A : Type) : Type := S -> result (A * S).

Section monad.
Context {S : Type}.

Definition ret {A} (a : A) : M S A := fun s => Ok (a, s).
Definition bind {A B} (m : M S A) (k : A -> M S B) : M S B := fun s =>
  match m s with
  | Ok (a, s') => k a s'
  | Fault f => Fault f
  end.
Definition raise {A} (f : fault) : M S A := fun _ => Fault f.
Definition get : M S S := fun s => Ok (s, s).
Definition gets {A} (f : S -> A) : M S A := fun s => Ok (f s, s).
Definition modify (f : S -> S) : M S unit := fun s => Ok (tt, f s).
(** RT_ASSERT: rt_assert_handler does not return *)
Definition rt_assert (b : bool) : M S unit :=
  if b then ret tt else raise AssertFailed.
Definition the {A} (o : option A) : M S A :=
  match o with Some a => ret a | None => raise BadPointer end.
(** run [f] on each element in turn *)
Fixpoint for_each {A} (f : A -> M S unit) (l : list A) : M S unit :=
  match l with
  | [] => ret tt
  | x :: l => bind (f x) (fun _ => for_each f l)
  end.
Definition when (b : bool) (m : M S unit) : M S unit :=
  if b then m else ret tt.
End monad.

Declare Scope kernel_scope.
Delimit Scope kernel_scope with K.
Notation "'let*' x := m 'in' k" := (bind m (fun x => k))
  (at level 10, x name, m at level 200, k at level 200,
   format "'[v' 'let*'  x  :=  m  'in' '/' k ']'") : kernel_scope.
Notation "m ;; k" := (bind m (fun _ => k))
  (at level 100, right associativity) : kernel_scope.
#[global] Open Scope kernel_scope.

(** * Program logics *)
Section logic.
Context {S : Type}.

(** [I] survives every successful run of [m]. *)
Definition preserves {A} (I : S -> Prop) (m : M S A) : Prop :=
  forall s a s', I s -> m s = Ok (a, s') -> I s'.

(** [m] started in [s] does not fault and ends in [Q]. *)
Definition wp {A} (m : M S A) (Q : A -> S -> Prop) (s : S) : Prop :=
  match m s with
  | Ok (a, s') => Q a s'
  | Fault _ => False
  end.

Lemma bind_ok {A B} (m : M S A) (k : A -> M S B) s r :
  bind m k s = Ok r ->
  exists a s', m s = Ok (a, s') /\ k a s' = Ok r.
Proof. unfold bind. destruct (m s) as [[a s']|f]; [eauto|discriminate]. Qed.

Lemma bind_run {A B} (m : M S A) (k : A -> M S B) s a s' :
  m s = Ok (a, s') -> bind m k s = k a s'.
Proof. unfold bind. by intros ->. Qed.

Lemma bind_assoc {A B C} (m : M S A) (f : A -> M S B) (g : B -> M S C) s :
  bind (bind m f) g s = bind m (fun a => bind (f a) g) s.
Proof. unfold bind. by destruct (m s) as [[a s']|]. Qed.
Lemma bind_ext {A B} (m : M S A) (f g : A -> M S B) s :
  (forall a s', f a s' = g a s') -> bind m f s = bind m g s.
Proof. intros H. unfold bind. by destruct (m s) as [[a s']|]. Qed.

Lemma pres_ret {A} (I : S -> Prop) (a : A) : preserves I (ret a).
Proof. intros s b s' HI [= <- <-]. done. Qed.
Lemma pres_raise {A} (I : S -> Prop) f : preserves I (@raise S A f).
Proof. intros s b s' HI [=]. Qed.
Lemma pres_get (I : S -> Prop) : preserves I get.
Proof. intros s b s' HI [= <- <-]. done. Qed.
Lemma pres_gets {A} (I : S -> Prop) (f : S -> A) : preserves I (gets f).
Proof. intros s b s' HI [= <- <-]. done. Qed.
Lemma pres_the {A} (I : S -> Prop) (o : option A) : preserves I (the o).
Proof. destruct o; [apply pres_ret|apply pres_raise]. Qed.
Lemma pres_assert (I : S -> Prop) b : preserves I (rt_assert b).
Proof. destruct b; [apply pres_ret|apply pres_raise]. Qed.
Lemma pres_bind {A B} (I : S -> Prop) (m : M S A) (k : A -> M S B) :
  preserves I m -> (forall a, preserves I (k a)) -> preserves I (bind m k).
Proof.
  intros Hm Hk s b s' HI Hb. apply bind_ok in Hb as (a & s1 & H1 & H2).
  eapply Hk; [|exact H2]. by eapply Hm.
Qed.
Lemma pres_modify (I : S -> Prop) f :
  (forall s, I s -> I (f s)) -> preserves I (modify f).
Proof. intros Hf s b s' HI [= <- <-]. auto. Qed.
Lemma pres_when (I : S -> Prop) b m :
  (b = true -> preserves I m) -> preserves I (when b m).
Proof. destruct b; intros H; [by apply H|apply pres_ret]. Qed.

Lemma pres_for_each {A} (I : S -> Prop) (f : A -> M S unit) l :
  (forall x, preserves I (f x)) -> preserves I (for_each f l).
Proof. intros Hf. induction l; cbn; [apply pres_ret|by apply pres_bind]. Qed.

Lemma wp_intro {A} (m : M S A) Q s a s' :
  m s = Ok (a, s') -> Q a s' -> wp m Q s.
Proof. unfold wp. by intros ->. Qed.
Lemma wp_run {A} (m : M S A) Q s :
  wp m Q s -> exists a s', m s = Ok (a, s') /\ Q a s'.
Proof. unfold wp. destruct (m s) as [[a s']|]; naive_solver. Qed.
Lemma wp_bind {A B} (m : M S A) (k : A -> M S B) Q s :
  wp m (fun a s' => wp (k a) Q s') s -> wp (bind m k) Q s.
Proof. unfold wp, bind. destruct (m s) as [[a s']|]; done. Qed.
Lemma wp_mono {A} (m : M S A) (Q R : A -> S -> Prop) s :
  wp m Q s -> (forall a s', Q a s' -> R a s') -> wp m R s.
Proof. unfold wp. destruct (m s) as [[a s']|]; auto. Qed.
Lemma wp_ret {A} (a : A) (Q : A -> S -> Prop) s : Q a s -> wp (ret a) Q s.
Proof. done. Qed.
Lemma wp_gets {A} (f : S -> A) (Q : A -> S -> Prop) s :
  Q (f s) s -> wp (gets f) Q s.
Proof. done. Qed.
Lemma wp_get (Q : S -> S -> Prop) s : Q s s -> wp get Q s.
Proof. done. Qed.
Lemma wp_modify f (Q : unit -> S -> Prop) s : Q tt (f s) -> wp (modify f) Q s.
Proof. done. Qed.
Lemma wp_assert b (Q : unit -> S -> Prop) s :
  b = true -> Q tt s -> wp (rt_assert b) Q s.
Proof. by intros ->. Qed.
Lemma wp_the {A} (o : option A) (Q : A -> S -> Prop) s a :
  o = Some a -> Q a s -> wp (the o) Q s.
Proof. by intros ->. Qed.
End logic.

Create HintDb pres discriminated.
#[export] Hint Constants Opaque : pres.
#[export] Hint Resolve pres_ret pres_raise pres_get pres_gets pres_the
  pres_assert : pres.

(** [pres] decomposes a [preserves] goal along the monadic structure; the
    leaves are closed by the lemmas of the [pres] database. *)
Ltac pres1 :=
  match goal with
  | |- preserves _ (bind _ _) => apply pres_bind; [|intros ?]
  | |- preserves _ (when _ _) => apply pres_when; intros ?
  | |- preserves _ (match ?x with _ => _ end) => destruct x eqn:?
  | |- preserves _ (if ?x then _ else _) => destruct x eqn:?
  | |- preserves _ (let _ := _ in _) => cbv zeta
  end.
Ltac pres := repeat (solve [auto with pres nocore] || pres1); auto with pres.

(** [minv H] inverts a hypothesis [m s = Ok (a, s')] along the binds of [m];
    the primitive operations it looks into are the [Hint Unfold]s of the
    database [minv]. *)
Create HintDb minv.
Ltac minv H :=
  lazymatch type of H with
  | bind _ _ _ = Ok _ =>
      let a := fresh "a" in let s := fresh "s" in
      let H1 := fresh "Hm" in
      apply bind_ok in H as (a & s & H1 & H); minv H1; minv H
  | ret _ _ = Ok _ => unfold ret in H; simplify_eq
  | get _ = Ok _ => unfold get in H; simplify_eq
  | gets _ _ = Ok _ => unfold gets in H; simplify_eq
  | modify _ _ = Ok _ => unfold modify in H; simplify_eq
  | raise _ _ = Ok _ => discriminate H
  | rt_assert ?b _ = Ok _ =>
      let E := fresh "Hassert" in
      destruct b eqn:E; [unfold rt_assert, ret in H; simplify_eq|discriminate H]
  | the ?o _ = Ok _ =>
      let E := fresh "Hthe" in
      destruct o eqn:E; [unfold the, ret in H; simplify_eq|discriminate H]
  | when ?b _ _ = Ok _ =>
      let E := fresh "Hwhen" in
      destruct b eqn:E; unfold when in H; minv H
  | (if ?b then _ else _) _ = Ok _ =>
      let E := fresh "Hif" in destruct b eqn:E; minv H
  | (match ?x with _ => _ end) _ = Ok _ =>
      let E := fresh "Hmatch" in destruct x eqn:E; minv H
  | _ => try (progress autounfold with minv in H; minv H)
  end.

(** * Lists *)
Section lists.
Context {A : Type} `{EqDecision A}.

(** insert [x] before the first occurrence of [y] *)
Fixpoint insert_before (y x : A) (l : list A) : list A :=
  match l with
  | [] => []
  | z :: l' => if decide (z = y) then x :: z :: l' else z :: insert_before y x l'
  end.
(** remove every occurrence of [x] *)
Definition lremove (x : A) (l : list A) : list A := filter (fun y => y <> x) l.

Lemma lremove_not_elem x l : x ∉ l -> lremove x l = l.
Proof.
  unfold lremove. induction l as [|y l IH]; intros Hx; [done|].
  rewrite not_elem_of_cons in Hx. destruct Hx as [Hne Hx].
  rewrite filter_cons_True by congruence. by rewrite IH.
Qed.
Lemma elem_of_lremove x y l : y ∈ lremove x l <-> y ∈ l /\ y <> x.
Proof. unfold lremove. rewrite list_elem_of_filter. tauto. Qed.
Lemma NoDup_lremove x l : NoDup l -> NoDup (lremove x l).
Proof. apply NoDup_filter. Qed.
Lemma lremove_idem x l : lremove x (lremove x l) = lremove x l.
Proof. apply lremove_not_elem. rewrite elem_of_lremove. by intros []. Qed.
Lemma lremove_single x : lremove x [x] = [].
Proof. unfold lremove. by rewrite filter_cons_False by naive_solver. Qed.
Lemma lremove_cons_eq x l : x ∉ l -> lremove x (x :: l) = l.
Proof.
  intros. unfold lremove. rewrite filter_cons_False by naive_solver.
  by apply lremove_not_elem.
Qed.
Lemma lremove_cons_ne x y l : y <> x -> lremove x (y :: l) = y :: lremove x l.
Proof. intros. unfold lremove. by rewrite filter_cons_True. Qed.
Lemma lremove_app x l k : lremove x (l ++ k) = lremove x l ++ lremove x k.
Proof. apply filter_app. Qed.
Lemma insert_before_perm y x l : y ∈ l -> insert_before y x l ≡ₚ x :: l.
Proof.
  induction l as [|z l IH]; intros Hy; [by apply elem_of_nil in Hy|].
  cbn. case_decide; [done|]. rewrite IH by set_solver. apply Permutation_swap.
Qed.
End lists.

Lemma head_elem_of {A} (l : list A) x : head l = Some x -> x ∈ l.
Proof. destruct l; cbn; [done|]. intros [= ->]. left. Qed.
