(* ===== verification/RtList.v ===== *)
(** The intrusive circular doubly linked lists of
    rt-thread/kernel/include/rtservice.h at pointer level: a store of nodes
    with [next] and [prev] pointers, the inline operations as sequences of
    loads and stores, and the refinement theorem that they implement the
    abstract lists (a list head with a Rocq [list] of node addresses) on which
    the scheduler, timer and IPC components are modelled.  (The singly
    linked lists are in SList.) *)
From S2P Require Import Prelude.

(** struct rt_list_node *)
Record rt_list_node := { next : Z; prev : Z }.
Abbreviation store := (gmap Z rt_list_node).

(** * The operations of rtservice.h *)
Definition ld_next (a : Z) : M store Z :=
  let* h := get in let* nd := the (h !! a) in ret (next nd).
Definition ld_prev (a : Z) : M store Z :=
  let* h := get in let* nd := the (h !! a) in ret (prev nd).
Definition st_next (a v : Z) : M store unit :=
  let* h := get in let* nd := the (h !! a) in
  modify (<[a := {| next := v; prev := prev nd |}]>).
Definition st_prev (a v : Z) : M store unit :=
  let* h := get in let* nd := the (h !! a) in
  modify (<[a := {| next := next nd; prev := v |}]>).

Definition rt_list_init (l : Z) : M store unit :=
  st_prev l l;; st_next l l.

Definition rt_list_insert_after (l n : Z) : M store unit :=
  let* a := ld_next l in st_prev a n;;
  let* b := ld_next l in st_next n b;;
  st_next l n;;
  st_prev n l.

Definition rt_list_insert_before (l n : Z) : M store unit :=
  let* a := ld_prev l in st_next a n;;
  let* b := ld_prev l in st_prev n b;;
  st_prev l n;;
  st_next n l.

Definition rt_list_remove (n : Z) : M store unit :=
  let* a := ld_next n in let* b := ld_prev n in st_prev a b;;
  let* c := ld_prev n in let* d := ld_next n in st_next c d;;
  st_prev n n;; st_next n n.

Definition rt_list_isempty (l : Z) : M store bool :=
  let* a := ld_next l in ret (a =? l).

(** the walk of rt_list_len, one unit of fuel per node visited *)
Fixpoint rt_list_len_from (fuel : nat) (l p len : Z) : M store Z :=
  match fuel with
  | O => raise OutOfFuel
  | S fuel =>
      let* q := ld_next p in
      if q =? l then ret len else rt_list_len_from fuel l q (u32 (len + 1))
  end.
Definition rt_list_len (fuel : nat) (l : Z) : M store Z :=
  rt_list_len_from fuel l l 0.

(** the traversal of rt_list_for_each, collecting the visited nodes *)
Fixpoint rt_list_walk (fuel : nat) (l pos : Z) : M store (list Z) :=
  match fuel with
  | O => raise OutOfFuel
  | S fuel =>
      if pos =? l then ret []
      else let* q := ld_next pos in
           let* r := rt_list_walk fuel l q in ret (pos :: r)
  end.
Definition rt_list_for_each (fuel : nat) (l : Z) : M store (list Z) :=
  let* p := ld_next l in rt_list_walk fuel l p.

(** * Rings *)
Definition nxt (h : store) (a : Z) : option Z := next <$> h !! a.
Definition prv (h : store) (a : Z) : option Z := prev <$> h !! a.

Fixpoint links (h : store) (xs : list Z) : Prop :=
  match xs with
  | a :: (b :: _) as r => nxt h a = Some b /\ prv h b = Some a /\ links h r
  | _ => True
  end.

(** head [l] carries exactly the nodes [ns], in this order *)
Definition ring (h : store) (l : Z) (ns : list Z) : Prop :=
  NoDup (l :: ns) /\ links h (l :: ns ++ [l]).

Lemma links_cons h a b r :
  links h (a :: b :: r) <-> nxt h a = Some b /\ prv h b = Some a /\ links h (b :: r).
Proof. done. Qed.

Lemma links_split h xs y ys :
  links h (xs ++ y :: ys) <-> links h (xs ++ [y]) /\ links h (y :: ys).
Proof.
  induction xs as [|a xs IH]; [cbn; naive_solver|].
  destruct xs as [|b xs]; cbn [app] in *.
  - rewrite links_cons, (links_cons _ a y []). cbn. tauto.
  - rewrite !links_cons, IH. tauto.
Qed.

Lemma links_frame h h' xs a :
  links h (xs ++ [a]) ->
  (forall x, x ∈ xs -> nxt h' x = nxt h x) ->
  (forall x, x ∈ tail (xs ++ [a]) -> prv h' x = prv h x) ->
  links h' (xs ++ [a]).
Proof.
  induction xs as [|x xs IH]; [done|]. intros Hl Hn Hp.
  destruct xs as [|y xs]; cbn [app] in *.
  - rewrite links_cons in Hl. destruct Hl as (H1 & H2 & _).
    apply links_cons. rewrite Hn, Hp by (cbn; set_solver). done.
  - rewrite links_cons in Hl. destruct Hl as (H1 & H2 & H3).
    apply links_cons. rewrite Hn, Hp by (cbn; set_solver).
    split_and!; [done..|]. apply IH; [done|set_solver|cbn in *; set_solver].
Qed.

Lemma ring_rotate h l xs y ys :
  ring h l (xs ++ y :: ys) -> ring h y (ys ++ l :: xs).
Proof.
  intros [Hnd Hl]. split.
  - eapply NoDup_Permutation_proper; [|exact Hnd].
    rewrite (app_comm_cons xs), (Permutation_app_comm ys), Permutation_middle. done.
  - replace (l :: (xs ++ y :: ys) ++ [l]) with ((l :: xs) ++ y :: (ys ++ [l])) in Hl
      by (cbn; by rewrite <- app_assoc).
    apply links_split in Hl as [H1 H2].
    replace (y :: (ys ++ l :: xs) ++ [y]) with ((y :: ys) ++ l :: (xs ++ [y]))
      by (cbn; by rewrite <- app_assoc).
    apply links_split. split; [exact H2|exact H1].
Qed.

(** the adjacent neighbours of a head *)
Lemma ring_first h l ns :
  ring h l ns -> nxt h l = Some (default l (head ns)).
Proof. intros [_ Hl]. destruct ns; cbn in *; tauto. Qed.
Lemma ring_last h l ns :
  ring h l ns -> prv h l = Some (default l (last ns)).
Proof.
  intros [_ Hl]. destruct ns as [|y ns _] using rev_ind; [cbn in *; tauto|].
  replace (l :: (ns ++ [y]) ++ [l]) with ((l :: ns) ++ y :: [l]) in Hl
    by (cbn; by rewrite <- app_assoc).
  apply links_split in Hl. rewrite last_snoc. cbn in *. tauto.
Qed.

Lemma ring_frame h h' l ns :
  ring h l ns ->
  (forall x, x ∈ l :: ns -> h' !! x = h !! x) -> ring h' l ns.
Proof.
  intros [Hnd Hl] Hf. split; [done|].
  rewrite app_comm_cons in *. eapply links_frame; [done| |].
  - intros x Hx. unfold nxt. by rewrite Hf.
  - intros x Hx. unfold prv. rewrite Hf; [done|]. cbn in Hx. set_solver.
Qed.

(** * Running the stores *)
Definition set_next (a v : Z) (h : store) : store :=
  alter (fun nd => {| next := v; prev := prev nd |}) a h.
Definition set_prev (a v : Z) (h : store) : store :=
  alter (fun nd => {| next := next nd; prev := v |}) a h.

Lemma ld_next_run h a v : nxt h a = Some v -> ld_next a h = Ok (v, h).
Proof. unfold nxt, ld_next, bind, get. destruct (h !! a); naive_solver. Qed.
Lemma ld_prev_run h a v : prv h a = Some v -> ld_prev a h = Ok (v, h).
Proof. unfold prv, ld_prev, bind, get. destruct (h !! a); naive_solver. Qed.
Lemma st_next_run h a v : a ∈ dom h -> st_next a v h = Ok (tt, set_next a v h).
Proof.
  intros [nd Hnd]%elem_of_dom. unfold st_next, bind, get, modify.
  rewrite Hnd. cbn. do 2 f_equal. unfold set_next.
  by rewrite alter_insert_lookup || (apply map_eq; intros i; rewrite lookup_alter,
    lookup_insert; case_decide; subst; [by rewrite Hnd|done]).
Qed.
Lemma st_prev_run h a v : a ∈ dom h -> st_prev a v h = Ok (tt, set_prev a v h).
Proof.
  intros [nd Hnd]%elem_of_dom. unfold st_prev, bind, get, modify.
  rewrite Hnd. cbn. do 2 f_equal. apply map_eq; intros i. unfold set_prev.
  rewrite lookup_alter, lookup_insert. case_decide; subst; [by rewrite Hnd|done].
Qed.

Lemma dom_set_next a v h : dom (set_next a v h) = dom h.
Proof. apply dom_alter_L. Qed.
Lemma dom_set_prev a v h : dom (set_prev a v h) = dom h.
Proof. apply dom_alter_L. Qed.
Lemma lookup_set_next_ne a v h x : x <> a -> set_next a v h !! x = h !! x.
Proof. intros. by apply lookup_alter_ne. Qed.
Lemma lookup_set_prev_ne a v h x : x <> a -> set_prev a v h !! x = h !! x.
Proof. intros. by apply lookup_alter_ne. Qed.
Lemma nxt_set_next a v h x :
  a ∈ dom h -> nxt (set_next a v h) x = if decide (x = a) then Some v else nxt h x.
Proof.
  intros [nd Hnd]%elem_of_dom. unfold nxt, set_next. rewrite lookup_alter.
  repeat case_decide; subst; try done. by rewrite Hnd.
Qed.
Lemma prv_set_prev a v h x :
  a ∈ dom h -> prv (set_prev a v h) x = if decide (x = a) then Some v else prv h x.
Proof.
  intros [nd Hnd]%elem_of_dom. unfold prv, set_prev. rewrite lookup_alter.
  repeat case_decide; subst; try done. by rewrite Hnd.
Qed.
Lemma nxt_set_prev a v h x : nxt (set_prev a v h) x = nxt h x.
Proof.
  unfold nxt, set_prev. rewrite lookup_alter. case_decide; [|done].
  subst. by destruct (h !! x).
Qed.
Lemma prv_set_next a v h x : prv (set_next a v h) x = prv h x.
Proof.
  unfold prv, set_next. rewrite lookup_alter. case_decide; [|done].
  subst. by destruct (h !! x).
Qed.
Lemma nxt_dom h a v : nxt h a = Some v -> a ∈ dom h.
Proof. unfold nxt. rewrite elem_of_dom. destruct (h !! a); naive_solver. Qed.
Lemma prv_dom h a v : prv h a = Some v -> a ∈ dom h.
Proof. unfold prv. rewrite elem_of_dom. destruct (h !! a); naive_solver. Qed.

Create HintDb rtlist discriminated.
Create Rewrite HintDb rtlist.
#[export] Hint Resolve nxt_dom prv_dom : rtlist.
#[export] Hint Rewrite dom_set_next dom_set_prev nxt_set_prev prv_set_next : rtlist.
#[export] Hint Rewrite nxt_set_next prv_set_prev
  using (autorewrite with rtlist; eauto with rtlist) : rtlist.

(** execute the loads and stores of an operation whose pointers are known *)
Ltac known := autorewrite with rtlist; eauto with rtlist.
Ltac run1 :=
  cbv beta;
  match goal with
  | |- bind (ld_next _) _ _ = _ => erewrite bind_run; [|by apply ld_next_run; known]
  | |- bind (ld_prev _) _ _ = _ => erewrite bind_run; [|by apply ld_prev_run; known]
  | |- bind (st_next _ _) _ _ = _ => erewrite bind_run; [|by apply st_next_run; known]
  | |- bind (st_prev _ _) _ _ = _ => erewrite bind_run; [|by apply st_prev_run; known]
  | |- st_next _ _ _ = _ => rewrite st_next_run by known
  | |- st_prev _ _ _ = _ => rewrite st_prev_run by known
  end.

Lemma rt_list_insert_after_run h l n q :
  nxt h l = Some q -> q ∈ dom h -> n ∈ dom h -> l <> n ->
  rt_list_insert_after l n h =
    Ok (tt, set_prev n l (set_next l n (set_next n q (set_prev q n h)))).
Proof.
  intros Hq Hqd Hn Hne. unfold rt_list_insert_after. repeat run1. done.
Qed.

Lemma rt_list_insert_before_run h l n p :
  prv h l = Some p -> p ∈ dom h -> n ∈ dom h -> l <> n ->
  rt_list_insert_before l n h =
    Ok (tt, set_next n l (set_prev l n (set_prev n p (set_next p n h)))).
Proof.
  intros Hp Hpd Hn Hne. unfold rt_list_insert_before. repeat run1. done.
Qed.

Lemma rt_list_remove_run h n p q :
  nxt h n = Some q -> prv h n = Some p -> p ∈ dom h -> q ∈ dom h -> q <> n ->
  rt_list_remove n h =
    Ok (tt, set_next n n (set_prev n n (set_next p q (set_prev q p h)))).
Proof.
  intros Hq Hp Hpd Hqd Hne. unfold rt_list_remove. do 3 run1.
  erewrite bind_run; [|by apply ld_prev_run; autorewrite with rtlist;
    rewrite decide_False by done].
  repeat run1. done.
Qed.

Lemma rt_list_init_run h l :
  l ∈ dom h -> rt_list_init l h = Ok (tt, set_next l l (set_prev l l h)).
Proof. intros. unfold rt_list_init. repeat run1. done. Qed.

(** * Each operation on rings *)
Lemma ring_dom h l ns x : ring h l ns -> x ∈ l :: ns -> x ∈ dom h.
Proof.
  intros Hr [->|Hx]%elem_of_cons; [by eapply nxt_dom, ring_first|].
  apply list_elem_of_split in Hx as (xs & ys & ->).
  apply ring_rotate in Hr. by eapply nxt_dom, ring_first.
Qed.

Lemma links_insert h p n ns y :
  NoDup (p :: ns) -> y ∉ ns -> n ∉ p :: ns -> n <> y -> n ∈ dom h -> p ∈ dom h ->
  links h (p :: ns ++ [y]) ->
  let q := default y (head ns) in
  q ∈ dom h ->
  links (set_prev n p (set_next p n (set_next n q (set_prev q n h))))
        (p :: n :: ns ++ [y]).
Proof.
  intros Hnd Hy Hn Hny Hnd' Hpd Hl q Hq. apply not_elem_of_cons in Hn as [Hnp Hns].
  apply NoDup_cons in Hnd as [Hp Hnd].
  set (h' := set_prev n p _).
  assert (Hnx : forall x, x <> p -> x <> n -> nxt h' x = nxt h x).
  { intros. unfold h'. known. rewrite !decide_False by done. done. }
  assert (Hpv : forall x, x <> q -> x <> n -> prv h' x = prv h x).
  { intros. unfold h'. known. rewrite !decide_False by done. done. }
  assert (nxt h' p = Some n) as H1.
  { unfold h'. known. by rewrite decide_True. }
  assert (nxt h' n = Some q) as H2.
  { unfold h'. known. rewrite decide_False by done. by rewrite decide_True. }
  assert (prv h' n = Some p) as H3.
  { unfold h'. known. by rewrite decide_True. }
  assert (prv h' q = Some n) as H4.
  { unfold h'. known. destruct (decide (q = n)) as [Heq|]; [|by rewrite decide_True].
    exfalso. destruct ns; subst q; cbn in *; set_solver. }
  apply links_cons. split_and!; [done..|].
  destruct ns as [|z ns]; [done|]. cbn [app default head] in *. try subst q. cbn in H2, H4.
  apply links_cons. split_and!; [done..|].
  apply links_cons in Hl as (_ & _ & Hl).
  rewrite app_comm_cons in *. apply NoDup_cons in Hnd as [Hz Hnd].
  eapply links_frame; [done| |].
  - intros x Hx. apply Hnx; set_solver.
  - intros x Hx. cbn in Hx. apply Hpv; set_solver.
Qed.

Lemma ring_insert_after h l ns n :
  ring h l ns -> n ∉ l :: ns -> n ∈ dom h ->
  exists h', rt_list_insert_after l n h = Ok (tt, h') /\ ring h' l (n :: ns) /\
    dom h' = dom h /\ forall x, x ∉ l :: n :: ns -> h' !! x = h !! x.
Proof.
  intros Hr Hn Hnd. pose proof (ring_first _ _ _ Hr) as Hq.
  set (q := default l (head ns)) in *.
  assert (Hqr : q ∈ l :: ns) by (subst q; destruct ns; cbn; set_solver).
  assert (q ∈ dom h) by by eapply ring_dom.
  destruct Hr as [Hnodup Hl]. apply NoDup_cons in Hnodup as Hnd2.
  destruct Hnd2 as [Hlns Hnd2].
  eexists. split; [apply (rt_list_insert_after_run _ _ _ q); auto; [set_solver]|].
  split_and!.
  - split; [apply NoDup_cons; split; [set_solver|apply NoDup_cons; set_solver]|].
    cbn [app]. apply links_insert; eauto with rtlist; set_solver.
  - by autorewrite with rtlist.
  - intros x Hx. unfold set_next, set_prev.
    rewrite !lookup_alter_ne; [done|set_solver..].
Qed.


Lemma set_next_prev a v b w h :
  set_next a v (set_prev b w h) = set_prev b w (set_next a v h).
Proof.
  apply map_eq. intros i. unfold set_next, set_prev. rewrite !lookup_alter.
  repeat case_decide; subst; try done. by destruct (h !! i).
Qed.
Lemma set_next_next a v b w h :
  a <> b -> set_next a v (set_next b w h) = set_next b w (set_next a v h).
Proof. apply alter_alter_ne. Qed.
Lemma set_prev_prev a v b w h :
  a <> b -> set_prev a v (set_prev b w h) = set_prev b w (set_prev a v h).
Proof. apply alter_alter_ne. Qed.

(** inserting before [l] is inserting after its predecessor *)
Lemma insert_before_after h l n p :
  nxt h p = Some l -> prv h l = Some p -> n ∈ dom h -> n <> l -> n <> p ->
  rt_list_insert_before l n h = rt_list_insert_after p n h.
Proof.
  intros Hp Hl Hn Hnl Hnp.
  rewrite (rt_list_insert_before_run _ _ _ p), (rt_list_insert_after_run _ _ _ l)
    by eauto with rtlist.
  do 2 f_equal.
  rewrite !set_next_prev, (set_prev_prev l), (set_next_next n) by done.
  done.
Qed.

Lemma ring_insert_before h l ns n :
  ring h l ns -> n ∉ l :: ns -> n ∈ dom h ->
  exists h', rt_list_insert_before l n h = Ok (tt, h') /\ ring h' l (ns ++ [n]) /\
    dom h' = dom h /\ forall x, x ∉ l :: n :: ns -> h' !! x = h !! x.
Proof.
  intros Hr Hn Hd. pose proof (ring_last _ _ _ Hr) as Hp.
  destruct ns as [|p ns _] using rev_ind.
  - rewrite (insert_before_after _ _ _ l); [by apply ring_insert_after|..];
      [by apply (ring_first _ _ _ Hr)|done|done|set_solver..].
  - rewrite last_snoc in Hp. cbn in Hp.
    apply ring_rotate in Hr. cbn [app] in Hr.
    pose proof (ring_first _ _ _ Hr) as Hl. cbn in Hl.
    rewrite (insert_before_after _ _ _ p); [|done|done|done|set_solver..].
    destruct (ring_insert_after _ _ _ n Hr) as (h' & -> & Hr' & Hdom & Hf);
      [set_solver|done|].
    eexists. split; [done|]. split_and!; [|done|intros; apply Hf; set_solver].
    change (n :: l :: ns) with ([n] ++ l :: ns) in Hr'.
    apply ring_rotate in Hr'. by rewrite <- app_assoc.
Qed.

Lemma ring_remove_head h n q m :
  ring h n (q :: m) ->
  exists h', rt_list_remove n h = Ok (tt, h') /\ ring h' q m /\ ring h' n [] /\
    dom h' = dom h /\ forall x, x ∉ n :: q :: m -> h' !! x = h !! x.
Proof.
  intros Hr. pose proof (ring_first _ _ _ Hr) as Hq. cbn in Hq.
  pose proof (ring_last _ _ _ Hr) as Hp. cbn [default] in Hp.
  assert (exists pre p, q :: m = pre ++ [p]) as (pre & p & Heq).
  { destruct (exists_last (l := q :: m)) as (pre & p & ->); [done|eauto]. }
  rewrite Heq, last_snoc in Hp. cbn in Hp.
  assert (p ∈ q :: m) by (rewrite Heq; set_solver).
  assert (p ∈ dom h) by (eapply ring_dom; [done|set_solver]).
  assert (q ∈ dom h) by (eapply ring_dom; [done|set_solver]).
  destruct Hr as [Hnd Hl]. apply NoDup_cons in Hnd as [Hn Hnd].
  assert (n <> p /\ n <> q) as [Hnp Hnq] by (split; intros ->; set_solver).
  assert (n ∈ dom h) by eauto with rtlist.
  eexists. split; [by apply (rt_list_remove_run _ _ p q)|].
  set (h' := set_next n n _). split_and!.
  - split; [done|].
    assert (links h (pre ++ [p])) as Hpre.
    { cbn [app] in Hl. apply links_cons in Hl as (_ & _ & Hl).
      rewrite app_comm_cons, Heq, <- app_assoc in Hl. cbn [app] in Hl.
      by apply links_split in Hl as [Hl _]. }
    rewrite app_comm_cons, Heq, <- app_assoc. cbn [app]. apply links_split. split.
    + assert (p ∉ pre) by (rewrite Heq in Hnd; apply NoDup_app in Hnd; set_solver).
      apply NoDup_cons in Hnd as [Hqm _].
      eapply links_frame; [done| |]; intros x Hx.
      * assert (x ∈ q :: m) by (rewrite Heq; set_solver).
        unfold h'. known. rewrite !decide_False; [done|set_solver..].
      * rewrite <- Heq in Hx. cbn in Hx.
        unfold h'. known. rewrite !decide_False; [done|set_solver..].
    + apply links_cons. unfold h'. known.
      rewrite (decide_False (P := p = n)), (decide_True (P := p = p)) by done.
      rewrite (decide_False (P := q = n)), (decide_True (P := q = q)) by done. done.
  - split; [apply NoDup_singleton|]. cbn [app]. apply links_cons. unfold h'. known.
    rewrite !(decide_True (P := n = n)) by done. done.
  - unfold h'. by autorewrite with rtlist.
  - intros x Hx. unfold h', set_next, set_prev.
    rewrite !lookup_alter_ne; [done|set_solver..].
Qed.

Lemma set_next_id a v h : nxt h a = Some v -> set_next a v h = h.
Proof.
  intros Ha. apply map_eq. intros i. unfold set_next. rewrite lookup_alter.
  case_decide; [subst|done]. unfold nxt in Ha.
  destruct (h !! i) as [[]|]; cbn in *; naive_solver.
Qed.
Lemma set_prev_id a v h : prv h a = Some v -> set_prev a v h = h.
Proof.
  intros Ha. apply map_eq. intros i. unfold set_prev. rewrite lookup_alter.
  case_decide; [subst|done]. unfold prv in Ha.
  destruct (h !! i) as [[]|]; cbn in *; naive_solver.
Qed.

(** removing a self-linked node changes nothing *)
Lemma rt_list_remove_self h n : ring h n [] -> rt_list_remove n h = Ok (tt, h).
Proof.
  intros Hr. pose proof (ring_first _ _ _ Hr) as Hn. pose proof (ring_last _ _ _ Hr) as Hp.
  cbn in Hn, Hp. unfold rt_list_remove.
  repeat first [run1 | rewrite (set_prev_id n n h Hp) | rewrite (set_next_id n n h Hn)].
  done.
Qed.

(** before an arbitrary element: rotate, insert before the head, rotate back *)
Lemma insert_before_split (y x : Z) xs ys :
  y ∉ xs -> insert_before y x (xs ++ y :: ys) = xs ++ x :: y :: ys.
Proof.
  induction xs as [|z xs IH]; intros Hy; cbn.
  - by rewrite decide_True.
  - rewrite decide_False by set_solver. rewrite IH by set_solver. done.
Qed.

Lemma ring_insert_before_elem h l ns y n :
  ring h l ns -> y ∈ ns -> n ∉ l :: ns -> n ∈ dom h ->
  exists h', rt_list_insert_before y n h = Ok (tt, h') /\
    ring h' l (insert_before y n ns) /\
    dom h' = dom h /\ forall x, x ∉ l :: n :: ns -> h' !! x = h !! x.
Proof.
  intros Hr Hy Hn Hd. apply list_elem_of_split in Hy as (xs & ys & ->).
  assert (y ∉ xs).
  { destruct Hr as [Hnd _]. apply NoDup_cons in Hnd as [_ Hnd].
    apply NoDup_app in Hnd as (_ & Hnd & _). set_solver. }
  rewrite insert_before_split by done.
  apply ring_rotate in Hr.
  destruct (ring_insert_before _ _ _ n Hr) as (h' & -> & Hr' & Hdom & Hf);
    [set_solver|done|].
  eexists. split; [done|]. split_and!; [|done|intros; apply Hf; set_solver].
  replace ((ys ++ l :: xs) ++ [n]) with (ys ++ l :: (xs ++ [n])) in Hr'
    by (by rewrite <- app_assoc).
  apply ring_rotate in Hr'. by rewrite <- app_assoc in Hr'.
Qed.

Lemma ring_remove h l ns n :
  ring h l ns -> n ∈ ns ->
  exists h', rt_list_remove n h = Ok (tt, h') /\
    ring h' l (lremove n ns) /\ ring h' n [] /\
    dom h' = dom h /\ forall x, x ∉ l :: ns -> h' !! x = h !! x.
Proof.
  intros Hr Hn. apply list_elem_of_split in Hn as (xs & ys & ->).
  assert ((n ∉ xs) /\ (n ∉ ys)) as [Hx Hy].
  { destruct Hr as [Hnd _]. apply NoDup_cons in Hnd as [_ Hnd].
    apply NoDup_app in Hnd as (_ & Hd & Hnd). apply NoDup_cons in Hnd as [? _].
    split; [set_solver|done]. }
  rewrite lremove_app, lremove_cons_eq, (lremove_not_elem n xs) by done.
  apply ring_rotate in Hr.
  assert (exists q m, ys ++ l :: xs = q :: m) as (q & m & Heq)
    by (destruct ys; cbn; eauto).
  rewrite Heq in Hr.
  destruct (ring_remove_head _ _ _ _ Hr) as (h' & -> & Hr' & Hs & Hdom & Hf).
  eexists. split; [done|]. split_and!; [|done|done|].
  - destruct ys as [|y ys]; cbn in Heq; injection Heq as -> <-.
    + by rewrite app_nil_r.
    + by apply ring_rotate in Hr'.
  - intros x Hxx. apply Hf. rewrite <- Heq. set_solver.
Qed.

(** * Observations *)
Lemma rt_list_isempty_run h l ns :
  ring h l ns -> rt_list_isempty l h = Ok (bool_decide (ns = []), h).
Proof.
  intros Hr. unfold rt_list_isempty.
  rewrite (bind_run _ _ _ _ _ (ld_next_run _ _ _ (ring_first _ _ _ Hr))).
  destruct Hr as [Hnd _]. apply NoDup_cons in Hnd as [Hl _].
  destruct ns as [|q ns]; cbn; unfold ret.
  - by rewrite Z.eqb_refl.
  - replace (q =? l) with false by (symmetry; apply Z.eqb_neq; set_solver). done.
Qed.

(** in a ring, [n->next != n->prev] exactly when two elements are on the list *)
Lemma ring_next_prev h l ns n :
  ring h l ns -> n ∈ ns -> (nxt h n <> prv h n <-> (2 <= length ns)%nat).
Proof.
  intros Hr Hn. apply list_elem_of_split in Hn as (xs & ys & ->).
  apply ring_rotate in Hr. rewrite (ring_first _ _ _ Hr), (ring_last _ _ _ Hr).
  destruct Hr as [Hnd _]. rewrite length_app. cbn [length].
  destruct ys as [|y ys].
  - destruct xs as [|x xs _] using rev_ind; cbn [app head default length].
    + cbn. split; [done|lia].
    + cbn in Hnd. rewrite app_comm_cons, last_snoc, length_app. cbn.
      split; [lia|]. intros _ [= ->]. apply NoDup_cons in Hnd as [_ Hnd].
      apply NoDup_cons in Hnd. set_solver.
  - cbn [app head default length]. split; [lia|]. intros _ [= Heq].
    apply NoDup_cons in Hnd as [_ Hnd]. cbn in Hnd. apply NoDup_cons in Hnd as [Hy _].
    apply Hy. rewrite Heq, app_comm_cons.
    rewrite last_app. destruct (last (l :: xs)) as [z|] eqn:E.
    + cbn. apply last_Some_elem_of in E. set_solver.
    + apply last_None in E. done.
Qed.

Lemma links_walk h l p ns fuel :
  links h (p :: ns ++ [l]) -> l ∉ ns -> (length ns < fuel)%nat ->
  rt_list_walk fuel l (default l (head ns)) h = Ok (ns, h).
Proof.
  revert p fuel. induction ns as [|n ns IH]; intros p fuel Hl Hnl Hf;
    (destruct fuel as [|fuel]; [cbn in Hf; lia|]); cbn.
  - by rewrite Z.eqb_refl.
  - rewrite not_elem_of_cons in Hnl. destruct Hnl as [Hne Hnl].
    replace (n =? l) with false by (symmetry; apply Z.eqb_neq; congruence).
    cbn [app] in Hl. apply links_cons in Hl as (_ & _ & Hl).
    assert (nxt h n = Some (default l (head ns))) as Hnx.
    { destruct ns; cbn in *; tauto. }
    rewrite (bind_run _ _ _ _ _ (ld_next_run _ _ _ Hnx)).
    erewrite bind_run; [|eapply (IH n); [done..|cbn in Hf; lia]]. done.
Qed.

Lemma rt_list_for_each_run h l ns fuel :
  ring h l ns -> (length ns < fuel)%nat ->
  rt_list_for_each fuel l h = Ok (ns, h).
Proof.
  intros Hr Hf. unfold rt_list_for_each.
  rewrite (bind_run _ _ _ _ _ (ld_next_run _ _ _ (ring_first _ _ _ Hr))).
  destruct Hr as [Hnd Hl]. apply NoDup_cons in Hnd as [? _].
  by eapply links_walk.
Qed.

Lemma links_len h l p ns fuel len :
  links h (p :: ns ++ [l]) -> l ∉ ns -> (length ns < fuel)%nat ->
  0 <= len -> len + Z.of_nat (length ns) < 4294967296 ->
  rt_list_len_from fuel l p len h = Ok (len + Z.of_nat (length ns), h).
Proof.
  revert p fuel len. induction ns as [|n ns IH]; intros p fuel len Hl Hnl Hf H0 Hlen;
    (destruct fuel as [|fuel]; [cbn in Hf; lia|]); cbn [rt_list_len_from].
  - cbn [app] in Hl. apply links_cons in Hl as (Hp & _ & _).
    rewrite (bind_run _ _ _ _ _ (ld_next_run _ _ _ Hp)), Z.eqb_refl. unfold ret.
    do 2 f_equal. cbn. lia.
  - cbn [app] in Hl. apply links_cons in Hl as (Hp & _ & Hl).
    rewrite (bind_run _ _ _ _ _ (ld_next_run _ _ _ Hp)).
    rewrite not_elem_of_cons in Hnl. destruct Hnl as [Hne Hnl].
    replace (n =? l) with false by (symmetry; apply Z.eqb_neq; congruence).
    cbn [length] in *. rewrite u32_small by lia.
    rewrite IH; [do 2 f_equal; lia|done|done|lia..].
Qed.

(** * Families of lists and the refinement *)
Abbreviation family := (gmap Z (list Z)).

(** the node [n] belongs to no list of [L], neither as head nor as element *)
Definition detached (L : family) (n : Z) : Prop :=
  forall l ns, L !! l = Some ns -> n ∉ l :: ns.
Definition linked (L : family) (n : Z) : Prop :=
  exists l ns, L !! l = Some ns /\ n ∈ ns.

(** the store carries all lists of the family, on disjoint sets of nodes *)
Definition reps (h : store) (L : family) : Prop :=
  (forall l ns, L !! l = Some ns -> ring h l ns) /\
  (forall l1 ns1 l2 ns2, l1 <> l2 -> L !! l1 = Some ns1 -> L !! l2 = Some ns2 ->
    (l1 :: ns1) ## (l2 :: ns2)).

Inductive list_op :=
  | InsertAfter (l n : Z)     (** rt_list_insert_after on a list head *)
  | InsertBefore (y n : Z)    (** rt_list_insert_before a head or an element *)
  | Remove (n : Z).

Definition run_op (op : list_op) : M store unit :=
  match op with
  | InsertAfter l n => rt_list_insert_after l n
  | InsertBefore y n => rt_list_insert_before y n
  | Remove n => rt_list_remove n
  end.

(** the abstract effect on the family *)
Definition abs_op (op : list_op) (L : family) : family :=
  match op with
  | InsertAfter l n => alter (cons n) l L
  | InsertBefore y n =>
      match L !! y with
      | Some ns => <[y := ns ++ [n]]> L
      | None => insert_before y n <$> L
      end
  | Remove n => lremove n <$> L
  end.

Definition op_ok (h : store) (L : family) (op : list_op) : Prop :=
  match op with
  | InsertAfter l n => l ∈ dom L /\ n ∈ dom h /\ detached L n
  | InsertBefore y n => (y ∈ dom L \/ linked L y) /\ n ∈ dom h /\ detached L n
  | Remove n => linked L n \/ (ring h n [] /\ detached L n)
  end.

Lemma insert_before_not_elem (y x : Z) l : y ∉ l -> insert_before y x l = l.
Proof.
  induction l as [|z l IH]; intros Hy; cbn; [done|].
  rewrite decide_False by set_solver. rewrite IH by set_solver. done.
Qed.
Lemma elem_of_insert_before (y n z : Z) ns : z ∈ insert_before y n ns -> z ∈ n :: ns.
Proof.
  destruct (decide (y ∈ ns)) as [Hy|Hy].
  - by rewrite insert_before_perm.
  - rewrite insert_before_not_elem by done. set_solver.
Qed.

Lemma reps_update h h' L l ns ns' n :
  reps h L -> L !! l = Some ns -> ring h' l ns' ->
  (forall l2 ns2, l2 <> l -> L !! l2 = Some ns2 -> n ∉ l2 :: ns2) ->
  (forall x, x ∈ ns' -> x ∈ n :: ns) ->
  (forall x, x ∉ l :: n :: ns -> h' !! x = h !! x) ->
  reps h' (<[l := ns']> L).
Proof.
  intros [Hring Hdis] Hl Hr' Hn Hsub Hf. split.
  - intros l2 ns2. rewrite lookup_insert. case_decide; [naive_solver|]. intros Hl2.
    eapply ring_frame; [by apply Hring|]. intros x Hx. apply Hf.
    specialize (Hdis l ns l2 ns2 ltac:(done) Hl Hl2). specialize (Hn l2 ns2 ltac:(done) Hl2).
    set_solver.
  - assert (forall l2 ns2, l2 <> l -> L !! l2 = Some ns2 -> (l :: ns') ## (l2 :: ns2)).
    { intros l2 ns2 Hne Hl2. specialize (Hdis l ns l2 ns2 ltac:(done) Hl Hl2).
      specialize (Hn l2 ns2 ltac:(done) Hl2). set_solver. }
    intros l1 ns1 l2 ns2 Hne. rewrite !lookup_insert.
    repeat case_decide; intros ??; simplify_eq; [by eauto| |by eauto].
    assert ((l2 :: ns2) ## (l1 :: ns1)) by eauto. set_solver.
Qed.

Lemma fmap_as_insert (f : list Z -> list Z) (L : family) l ns :
  L !! l = Some ns ->
  (forall l2 ns2, l2 <> l -> L !! l2 = Some ns2 -> f ns2 = ns2) ->
  f <$> L = <[l := f ns]> L.
Proof.
  intros Hl Hf. apply map_eq. intros l2. rewrite lookup_fmap, lookup_insert.
  case_decide; subst; [by rewrite Hl|].
  destruct (L !! l2) eqn:E; [|done]. cbn. f_equal. by apply (Hf l2).
Qed.

Lemma reps_elsewhere h L l ns n :
  reps h L -> L !! l = Some ns -> n ∈ ns ->
  forall l2 ns2, l2 <> l -> L !! l2 = Some ns2 -> n ∉ l2 :: ns2.
Proof.
  intros [_ Hdis] Hl Hn l2 ns2 Hne Hl2.
  specialize (Hdis l ns l2 ns2 ltac:(done) Hl Hl2). set_solver.
Qed.

(** C27: refinement. On every store that carries a family of disjoint lists,
    each pointer operation of rtservice.h whose node is detached (for the
    insertions) or linked or self-linked (for the removal) runs without
    touching an unmapped node and ends in a store that carries the family
    changed by the corresponding list operation. *)
Theorem rt_list_refines (h : store) (L : family) (op : list_op) :
  reps h L -> op_ok h L op ->
  exists h', run_op op h = Ok (tt, h') /\ reps h' (abs_op op L) /\ dom h' = dom h.
Proof.
  intros Hreps Hok. pose proof Hreps as [Hring _].
  destruct op as [l n|y n|n]; cbn in *.
  - destruct Hok as ([ns Hl]%elem_of_dom & Hn & Hd).
    destruct (ring_insert_after _ _ _ n (Hring _ _ Hl)) as (h' & Hrun & Hr' & Hdom & Hf);
      [by eapply Hd|done|].
    exists h'. split_and!; [done| |done].
    replace (alter (cons n) l L) with (<[l := n :: ns]> L).
    + eapply reps_update; eauto; set_solver.
    + apply map_eq. intros i. rewrite lookup_alter, lookup_insert.
      case_decide; subst; [by rewrite Hl|done].
  - destruct Hok as (Hy & Hn & Hd). destruct (L !! y) as [ns|] eqn:Hl.
    + destruct (ring_insert_before _ _ _ n (Hring _ _ Hl)) as (h' & ? & ? & ? & ?);
        [by eapply Hd|done|].
      exists h'. split_and!; [done| |done]. eapply reps_update; eauto; set_solver.
    + destruct Hy as [Hy|(l & ns & Hl2 & Hy)]; [by apply not_elem_of_dom in Hl|].
      destruct (ring_insert_before_elem _ _ _ y n (Hring _ _ Hl2))
        as (h' & ? & ? & ? & ?); [done|by eapply Hd|done|].
      exists h'. split_and!; [done| |done].
      rewrite (fmap_as_insert _ _ l ns); [|done|].
      * eapply reps_update; eauto. intros. by eapply elem_of_insert_before.
      * intros. apply insert_before_not_elem.
        assert (y ∉ l2 :: ns2) by (by eapply (reps_elsewhere _ _ l ns)). set_solver.
  - destruct Hok as [(l & ns & Hl & Hn)|(Hr & Hd)].
    + destruct (ring_remove _ _ _ n (Hring _ _ Hl)) as (h' & ? & ? & _ & ? & Hf); [done|].
      exists h'. split_and!; [done| |done].
      rewrite (fmap_as_insert _ _ l ns); [|done|].
      * eapply (reps_update _ _ _ _ _ _ n); eauto using reps_elsewhere.
        -- intros x [? _]%elem_of_lremove. set_solver.
        -- intros. apply Hf. set_solver.
      * intros. apply lremove_not_elem.
        assert (n ∉ l2 :: ns2) by (by eapply (reps_elsewhere _ _ l ns)). set_solver.
    + exists h. split_and!; [by apply rt_list_remove_self| |done].
      replace (lremove n <$> L) with L; [done|]. symmetry.
      apply map_eq. intros l. rewrite lookup_fmap. destruct (L !! l) as [ns|] eqn:Hl; [|done].
      cbn. f_equal. apply lremove_not_elem. specialize (Hd l ns Hl). set_solver.
Qed.
