(* ===== verification/SList.v ===== *)
(** The singly linked lists of rt-thread/kernel/include/rtservice.h at pointer
    level: a head and nodes with one [next] pointer each, RT_NULL at the end,
    and the proof that the operations are those on lists of node addresses. *)
From S2P Require Import Prelude.

(** struct rt_slist_node: the [next] pointers *)
Abbreviation nexts := (gmap Z Z).
Definition ld (a : Z) : M nexts Z := let* h := get in the (h !! a).
Definition st (a v : Z) : M nexts unit :=
  let* h := get in let* _old := the (h !! a) in modify (<[a := v]>).

Definition rt_slist_init (l : Z) : M nexts unit := st l 0.

(** while (node->next) node = node->next *)
Fixpoint tail_loop (fuel : nat) (node : Z) : M nexts Z :=
  match fuel with
  | O => raise OutOfFuel
  | S fuel => let* n := ld node in if n =? 0 then ret node else tail_loop fuel n
  end.
(** a walk visits at most every node of the store *)
Definition walk_fuel : M nexts nat := gets (fun h => S (base.size h)).
Definition rt_slist_append (l n : Z) : M nexts unit :=
  let* fuel := walk_fuel in
  let* node := tail_loop fuel l in
  st node n;; st n 0.
Definition rt_slist_insert (l n : Z) : M nexts unit :=
  let* a := ld l in st n a;; st l n.
Fixpoint slist_len_loop (fuel : nat) (list len : Z) : M nexts Z :=
  match fuel with
  | O => raise OutOfFuel
  | S fuel => if list =? 0 then ret len else let* n := ld list in slist_len_loop fuel n (u32 (len + 1))
  end.
Definition rt_slist_len (l : Z) : M nexts Z :=
  let* fuel := walk_fuel in
  let* a := ld l in slist_len_loop fuel a 0.
(** while (node->next && node->next != n) *)
Fixpoint slist_find_loop (fuel : nat) (node n : Z) : M nexts Z :=
  match fuel with
  | O => raise OutOfFuel
  | S fuel =>
      let* a := ld node in
      if (negb (a =? 0) && negb (a =? n))%bool then slist_find_loop fuel a n else ret node
  end.
Definition rt_slist_remove (l n : Z) : M nexts Z :=
  let* fuel := walk_fuel in
  let* node := slist_find_loop fuel l n in
  let* a := ld node in
  when (negb (a =? 0)) (let* b := ld a in st node b);;
  ret l.
Definition rt_slist_first (l : Z) : M nexts Z := ld l.
Definition rt_slist_tail (l : Z) : M nexts Z := let* fuel := walk_fuel in tail_loop fuel l.
Definition rt_slist_next (n : Z) : M nexts Z := ld n.
Definition rt_slist_isempty (l : Z) : M nexts bool := let* a := ld l in ret (a =? 0).

(** * The abstract list *)
(** from [p] on, the pointers pass through [ns] *)
Fixpoint slinks (h : nexts) (p : Z) (ns : list Z) : Prop :=
  match ns with
  | [] => h !! p = Some 0
  | n :: ns => h !! p = Some n /\ n <> 0 /\ slinks h n ns
  end.
Definition slist (h : nexts) (l : Z) (ns : list Z) : Prop := NoDup (l :: ns) /\ slinks h l ns.

Lemma slinks_frame h h' p ns : slinks h p ns -> (forall x, x ∈ p :: ns -> h' !! x = h !! x) -> slinks h' p ns.
Proof.
  revert p. induction ns as [|n ns IH]; intros p; cbn [slinks].
  - intros H Hf. by rewrite Hf by set_solver.
  - intros (H1 & H2 & H3) Hf. rewrite Hf by set_solver. split_and!; [done|done|]. apply IH; [done|set_solver].
Qed.
(** the nodes [ns] lead from [p] to [q] *)
Fixpoint seg (h : nexts) (p : Z) (ns : list Z) (q : Z) : Prop :=
  match ns with
  | [] => p = q
  | n :: ns => h !! p = Some n /\ n <> 0 /\ seg h n ns q
  end.
Lemma slinks_split h p ns ms : slinks h p (ns ++ ms) <-> exists q, seg h p ns q /\ slinks h q ms.
Proof.
  revert p. induction ns as [|n ns IH]; intros p; cbn [app slinks seg].
  - split; [by exists p|by intros (q & <- & ?)].
  - rewrite IH. naive_solver.
Qed.
Lemma seg_end h p ns q : seg h p ns q -> q ∈ p :: ns.
Proof.
  revert p. induction ns as [|n ns IH]; intros p; cbn [seg]; [intros ->; set_solver|].
  intros (_ & _ & H). apply IH in H. set_solver.
Qed.
Lemma seg_frame h h' p ns q : NoDup (p :: ns) -> seg h p ns q ->
  (forall x, x ∈ p :: ns -> x <> q -> h' !! x = h !! x) -> seg h' p ns q.
Proof.
  revert p. induction ns as [|n ns IH]; intros p Hnd; cbn [seg]; [done|].
  intros (H1 & H2 & H3) Hf. apply NoDup_cons in Hnd as [Hp Hnd]. pose proof (seg_end _ _ _ _ H3) as Hq.
  rewrite Hf by (set_solver || (intros ->; done)). split_and!; [done|done|]. apply IH; [done|done|].
  intros x Hx. apply Hf. set_solver.
Qed.

Lemma ld_run h a v : h !! a = Some v -> ld a h = Ok (v, h).
Proof. intros E. unfold ld, bind, get. by rewrite E. Qed.
Lemma st_run h a v : is_Some (h !! a) -> st a v h = Ok (tt, <[a := v]> h).
Proof. intros [w E]. unfold st, bind, get. by rewrite E. Qed.
Lemma slinks_head h p ns : slinks h p ns -> h !! p = Some (List.hd 0 ns).
Proof. destruct ns; cbn; tauto. Qed.
Lemma slist_size h l ns : slist h l ns -> (length ns < base.size h)%nat.
Proof.
  intros [Hnd Hl]. change (length ns < base.size h)%nat with (length (l :: ns) <= base.size h)%nat.
  rewrite <- size_dom, <- (size_list_to_set (C := gset Z) (l :: ns)) by done. apply subseteq_size.
  intros x Hx. rewrite elem_of_list_to_set in Hx. apply elem_of_dom.
  clear Hnd. revert l Hl Hx. induction ns as [|n ns IH]; intros l Hl Hx; cbn [slinks] in Hl.
  - apply list_elem_of_singleton in Hx as ->. by eexists.
  - destruct Hl as (H1 & _ & H3). apply elem_of_cons in Hx as [->|Hx]; [by eexists|by eapply IH].
Qed.
Lemma tail_loop_run fuel h p ns : slinks h p ns -> (length ns < fuel)%nat ->
  exists q, tail_loop fuel p h = Ok (q, h) /\ seg h p ns q /\ h !! q = Some 0.
Proof.
  revert p ns. induction fuel as [|fuel IH]; intros p ns Hl Hf; [lia|]. cbn [tail_loop].
  erewrite bind_run; [cbv beta|apply ld_run; by eapply slinks_head]. destruct ns as [|n ns]; cbn [List.hd slinks length] in *.
  - exists p. by split_and!.
  - destruct Hl as (H1 & H2 & H3). rewrite (proj2 (Z.eqb_neq n 0)) by done.
    destruct (IH n ns H3 ltac:(lia)) as (q & E & Hs & Hq). exists q. by split_and!.
Qed.
Lemma find_loop_out fuel h p ns n : slinks h p ns -> n ∉ ns -> (length ns < fuel)%nat ->
  exists q, slist_find_loop fuel p n h = Ok (q, h) /\ h !! q = Some 0.
Proof.
  revert p ns. induction fuel as [|fuel IH]; intros p ns Hl Hn Hf; [lia|]. cbn [slist_find_loop].
  erewrite bind_run; [cbv beta|apply ld_run; by eapply slinks_head]. destruct ns as [|m ns]; cbn [List.hd slinks length] in *.
  - exists p. by split.
  - destruct Hl as (H1 & H2 & H3). rewrite (proj2 (Z.eqb_neq m 0)), (proj2 (Z.eqb_neq m n)) by (done || set_solver).
    apply (IH m ns H3); [set_solver|lia].
Qed.
Lemma find_loop_in fuel h p xs n ys : slinks h p (xs ++ n :: ys) -> n ∉ xs -> (length xs < fuel)%nat ->
  exists q, slist_find_loop fuel p n h = Ok (q, h) /\ seg h p xs q /\ h !! q = Some n /\ n <> 0.
Proof.
  revert p xs. induction fuel as [|fuel IH]; intros p xs Hl Hn Hf; [lia|]. cbn [slist_find_loop].
  erewrite bind_run; [cbv beta|apply ld_run; by eapply slinks_head]. destruct xs as [|m xs]; cbn [List.hd slinks length app] in *.
  - destruct Hl as (H1 & H2 & H3). exists p. rewrite Z.eqb_refl, andb_false_r. by split_and!.
  - destruct Hl as (H1 & H2 & H3). rewrite (proj2 (Z.eqb_neq m 0)), (proj2 (Z.eqb_neq m n)) by (done || set_solver).
    destruct (IH m xs H3) as (q & E & Hs & Hq & Hz); [set_solver|lia|]. exists q. by split_and!.
Qed.
Lemma slist_len_loop_run fuel h p ns k : slinks h p ns -> (length ns < fuel)%nat -> k + Z.of_nat (length ns) < 4294967296 -> 0 <= k ->
  slist_len_loop fuel (List.hd 0 ns) k h = Ok (k + Z.of_nat (length ns), h).
Proof.
  revert p ns k. induction fuel as [|fuel IH]; intros p ns k Hl Hf Hk H0; [lia|]. cbn [slist_len_loop].
  destruct ns as [|n ns]; cbn [List.hd slinks length] in *; [by rewrite Z.add_0_r|].
  destruct Hl as (H1 & H2 & H3). rewrite (proj2 (Z.eqb_neq n 0)) by done.
  erewrite bind_run; [cbv beta|apply ld_run; by eapply slinks_head]. rewrite u32_small by lia.
  rewrite (IH n) by (done || lia). do 2 f_equal. lia.
Qed.

(** The operations do to the list of nodes what their names say; no pointer
    outside of the list and of the new node changes. *)
Theorem rt_slist_refines (h : nexts) (l n : Z) (ns : list Z) :
  slist h l ns -> Z.of_nat (length ns) < 4294967296 ->
  rt_slist_len l h = Ok (Z.of_nat (length ns), h) /\
  rt_slist_isempty l h = Ok (bool_decide (ns = []), h) /\
  (is_Some (h !! n) -> n <> 0 -> n ∉ l :: ns ->
     wp (rt_slist_append l n) (fun _ h' => slist h' l (ns ++ [n]) /\ forall x, x ∉ l :: ns ++ [n] -> h' !! x = h !! x) h /\
     wp (rt_slist_insert l n) (fun _ h' => slist h' l (n :: ns) /\ forall x, x ∉ l :: n :: ns -> h' !! x = h !! x) h) /\
  wp (rt_slist_remove l n) (fun r h' => r = l /\ slist h' l (lremove n ns) /\ forall x, x ∉ l :: ns -> h' !! x = h !! x) h.
Proof.
  intros Hs Hlen. pose proof (slist_size _ _ _ Hs) as Hsize. destruct Hs as [Hnd Hl].
  pose proof (slinks_head _ _ _ Hl) as Hhd. split_and!.
  - unfold rt_slist_len, walk_fuel. erewrite bind_run; [cbv beta|reflexivity].
    erewrite bind_run; [cbv beta|by apply ld_run]. by rewrite (slist_len_loop_run _ _ l) by (done || lia).
  - unfold rt_slist_isempty. erewrite bind_run; [cbv beta|by apply ld_run].
    destruct ns as [|m ns]; [done|]. cbn [List.hd slinks] in *. rewrite (proj2 (Z.eqb_neq m 0)) by apply Hl. done.
  - intros Hn Hn0 Hni. split.
    + destruct (tail_loop_run (S (base.size h)) h l ns Hl ltac:(lia)) as (q & E & Hseg & Hq).
      pose proof (seg_end _ _ _ _ Hseg) as Hqi. assert (Hqn : q <> n) by (intros ->; done).
      eapply wp_intro.
      { unfold rt_slist_append, walk_fuel. erewrite bind_run; [cbv beta|reflexivity].
        erewrite bind_run; [cbv beta|exact E]. erewrite bind_run; [cbv beta|apply st_run; by eexists].
        apply st_run. by rewrite lookup_insert_ne. }
      split; [split|].
      * rewrite app_comm_cons. apply NoDup_app. split; [done|]. split; [|apply NoDup_singleton].
        intros x Hx ->%list_elem_of_singleton. done.
      * apply slinks_split. exists q. split.
        -- eapply seg_frame; [done|exact Hseg|]. intros x Hx Hxq. rewrite !lookup_insert_ne; [done|congruence|]. intros <-. done.
        -- cbn [slinks]. rewrite lookup_insert_ne, !lookup_insert_eq by done. done.
      * intros x Hx. rewrite !lookup_insert_ne; [done| |]; intros <-; set_solver.
    + eapply wp_intro.
      { unfold rt_slist_insert. erewrite bind_run; [cbv beta|by apply ld_run].
        erewrite bind_run; [cbv beta|by apply st_run]. apply st_run. rewrite lookup_insert_ne by set_solver. by eexists. }
      apply NoDup_cons in Hnd as [Hlns Hnd]. split; [split|].
      * apply NoDup_cons. split; [set_solver|]. apply NoDup_cons. split; [set_solver|done].
      * cbn [slinks]. rewrite lookup_insert_eq. split_and!; [done|done|].
        destruct ns as [|m ns]; cbn [slinks List.hd] in *.
        -- rewrite lookup_insert_ne, lookup_insert_eq by set_solver. done.
        -- rewrite lookup_insert_ne, lookup_insert_eq by set_solver. split_and!; [done|tauto|].
           eapply slinks_frame; [apply Hl|]. intros x Hx. rewrite !lookup_insert_ne; [done|set_solver|set_solver].
      * intros x Hx. rewrite !lookup_insert_ne; [done|set_solver|set_solver].
  - unfold rt_slist_remove, walk_fuel. destruct (decide (n ∈ ns)) as [Hin|Hin].
    + apply list_elem_of_split in Hin as (xs & ys & ->).
      assert (Hx : (n ∉ xs) /\ (n ∉ ys) /\ NoDup (l :: xs)).
      { rewrite app_comm_cons in Hnd. apply NoDup_app in Hnd as (H1 & H2 & H3). apply NoDup_cons in H3. set_solver. }
      destruct Hx as (Hx & Hy & Hndx). rewrite length_app in Hsize. cbn [length] in Hsize.
      destruct (find_loop_in (S (base.size h)) h l xs n ys Hl Hx ltac:(lia)) as (q & E & Hseg & Hq & Hn0).
      apply slinks_split in Hl as (q' & Hseg' & Hl'). pose proof (seg_end _ _ _ _ Hseg) as Hqi.
      assert (Hn : slinks h n ys) by (cbn [slinks] in Hl'; tauto). pose proof (slinks_head _ _ _ Hn) as Hnh.
      eapply wp_intro.
      { erewrite bind_run; [cbv beta|reflexivity]. erewrite bind_run; [cbv beta|exact E].
        erewrite bind_run; [cbv beta|by apply ld_run]. rewrite (proj2 (Z.eqb_neq n 0)) by done. cbn [negb when].
        erewrite bind_run; [cbv beta|erewrite bind_run; [cbv beta; apply st_run; by eexists|by apply ld_run]]. reflexivity. }
      assert (El : lremove n (xs ++ n :: ys) = xs ++ ys).
      { unfold lremove. rewrite filter_app, filter_cons_False by (by intros []). 
        f_equal; by apply lremove_not_elem. }
      rewrite El. split_and!; [done|split|].
      * eapply sublist_NoDup; [exact Hnd|]. apply sublist_skip, sublist_app; [done|by apply sublist_cons].
      * assert (Hq' : forall x, x ∈ ys -> x <> q).
        { intros x Hxy ->. rewrite app_comm_cons in Hnd. apply NoDup_app in Hnd as (_ & Hd & _). by apply (Hd q Hqi), list_elem_of_further. }
        apply slinks_split. exists q. split.
        -- eapply seg_frame; [done|exact Hseg|]. intros x _ Hxq. by rewrite lookup_insert_ne.
        -- destruct ys as [|y ys]; cbn [slinks List.hd] in *; rewrite lookup_insert_eq; [done|].
           split_and!; [done|tauto|]. eapply slinks_frame; [apply Hn|]. intros x Hxy. rewrite lookup_insert_ne; [done|].
           intros <-. by apply (Hq' q).
      * intros x Hx0. apply lookup_insert_ne. intros <-. set_solver.
    + destruct (find_loop_out (S (base.size h)) h l ns n Hl Hin ltac:(lia)) as (q & E & Hq).
      eapply wp_intro.
      { erewrite bind_run; [cbv beta|reflexivity]. erewrite bind_run; [cbv beta|exact E].
        erewrite bind_run; [cbv beta|by apply ld_run]. cbn [negb Z.eqb when]. erewrite bind_run; [cbv beta|reflexivity]. reflexivity. }
      rewrite lremove_not_elem by done. done.
Qed.
