(* ===== verification/KService.v ===== *)
(** The kernel service library, rt-thread/kernel/src/kservice.c: the
    word-optimised memory functions and the C string functions on a
    byte-addressed memory, and [__rt_ffs], on which the scheduler's priority
    bitmap relies.  Loads and stores of unmapped bytes fault, so the theorems
    also say which bytes each function touches. *)
From S2P Require Import Prelude.

#[local] Ltac Zify.zify_post_hook ::= Z.div_mod_to_equations.

(** mapped bytes by address; every stored value is in [0, 255] *)
Abbreviation mem := (gmap Z Z).

Definition ld8 (a : Z) : M mem Z :=
  let* m := get in the (m !! u32 a).
Definition st8 (a v : Z) : M mem unit :=
  let* m := get in let* _ := the (m !! u32 a) in
  modify (<[u32 a := u8 v]>).
(** little-endian word access *)
Definition ld32 (a : Z) : M mem Z :=
  let* b0 := ld8 a in let* b1 := ld8 (a + 1) in
  let* b2 := ld8 (a + 2) in let* b3 := ld8 (a + 3) in
  ret (b0 + 256 * b1 + 65536 * b2 + 16777216 * b3).
Definition st32 (a v : Z) : M mem unit :=
  st8 a v;; st8 (a + 1) (Z.shiftr v 8);;
  st8 (a + 2) (Z.shiftr v 16);; st8 (a + 3) (Z.shiftr v 24).

(** * rt_memset *)

(** while (count >= LBLOCKSIZE * 4) *)
Fixpoint memset_big (fuel : nat) (aligned_addr buffer count : Z) : M mem (Z * Z) :=
  match fuel with
  | O => raise OutOfFuel
  | S fuel =>
      if 16 <=? count then
        st32 aligned_addr buffer;; st32 (aligned_addr + 4) buffer;;
        st32 (aligned_addr + 8) buffer;; st32 (aligned_addr + 12) buffer;;
        memset_big fuel (aligned_addr + 16) buffer (count - 16)
      else ret (aligned_addr, count)
  end.
(** while (count >= LBLOCKSIZE) *)
Fixpoint memset_word (fuel : nat) (aligned_addr buffer count : Z) : M mem (Z * Z) :=
  match fuel with
  | O => raise OutOfFuel
  | S fuel =>
      if 4 <=? count then
        st32 aligned_addr buffer;;
        memset_word fuel (aligned_addr + 4) buffer (count - 4)
      else ret (aligned_addr, count)
  end.
(** while (count--) *m++ = (char)d *)
Fixpoint memset_byte (fuel : nat) (m d count : Z) : M mem unit :=
  match fuel with
  | O => raise OutOfFuel
  | S fuel =>
      if count =? 0 then ret tt
      else st8 m d;; memset_byte fuel (m + 1) d (count - 1)
  end.

Definition memset_buffer (d : Z) : Z :=
  let buffer := Z.lor (Z.shiftl d 8) d in
  u32 (Z.lor buffer (Z.shiftl buffer 16)).

Definition rt_memset (s c count : Z) : M mem Z :=
  let fuel := S (Z.to_nat count) in
  let d := Z.land c 255 in
  let* r :=
    (if (negb (count <? 4) && (Z.land s 3 =? 0))%bool then
       let* r1 := memset_big fuel s (memset_buffer d) count in
       memset_word fuel r1.1 (memset_buffer d) r1.2
     else ret (s, count)) in
  memset_byte fuel r.1 d r.2;;
  ret s.

(** * rt_memcpy *)
Fixpoint memcpy_big (fuel : nat) (dst src len : Z) : M mem (Z * Z * Z) :=
  match fuel with
  | O => raise OutOfFuel
  | S fuel =>
      if 16 <=? len then
        (let* w := ld32 src in st32 dst w);;
        (let* w := ld32 (src + 4) in st32 (dst + 4) w);;
        (let* w := ld32 (src + 8) in st32 (dst + 8) w);;
        (let* w := ld32 (src + 12) in st32 (dst + 12) w);;
        memcpy_big fuel (dst + 16) (src + 16) (len - 16)
      else ret (dst, src, len)
  end.
Fixpoint memcpy_word (fuel : nat) (dst src len : Z) : M mem (Z * Z * Z) :=
  match fuel with
  | O => raise OutOfFuel
  | S fuel =>
      if 4 <=? len then
        (let* w := ld32 src in st32 dst w);;
        memcpy_word fuel (dst + 4) (src + 4) (len - 4)
      else ret (dst, src, len)
  end.
(** while (n--) *tmp++ = *s++ *)
Fixpoint memcpy_byte (fuel : nat) (dst src len : Z) : M mem unit :=
  match fuel with
  | O => raise OutOfFuel
  | S fuel =>
      if len =? 0 then ret tt
      else (let* b := ld8 src in st8 dst b);;
           memcpy_byte fuel (dst + 1) (src + 1) (len - 1)
  end.

Definition rt_memcpy (dst src count : Z) : M mem Z :=
  let fuel := S (Z.to_nat count) in
  let* r :=
    (if (negb (count <? 16) && (Z.lor (Z.land src 3) (Z.land dst 3) =? 0))%bool then
       let* r1 := memcpy_big fuel dst src count in
       memcpy_word fuel r1.1.1 r1.1.2 r1.2
     else ret (dst, src, count)) in
  memcpy_byte fuel r.1.1 r.1.2 r.2;;
  ret dst.

(** * rt_memmove *)
(** while (n--) *(--tmp) = *(--s) *)
Fixpoint memmove_down (fuel : nat) (tmp s n : Z) : M mem unit :=
  match fuel with
  | O => raise OutOfFuel
  | S fuel =>
      if n =? 0 then ret tt
      else (let* b := ld8 (s - 1) in st8 (tmp - 1) b);;
           memmove_down fuel (tmp - 1) (s - 1) (n - 1)
  end.
Definition rt_memmove (dest src n : Z) : M mem Z :=
  let fuel := S (Z.to_nat n) in
  (if ((src <? dest) && (dest <? u32 (src + n)))%bool
   then memmove_down fuel (dest + n) (src + n) n
   else memcpy_byte fuel dest src n);;
  ret dest.

(** * rt_memcmp *)
Fixpoint memcmp_loop (fuel : nat) (su1 su2 count res : Z) : M mem Z :=
  match fuel with
  | O => raise OutOfFuel
  | S fuel =>
      if 0 <? count then
        let* b1 := ld8 su1 in let* b2 := ld8 su2 in
        let res := b1 - b2 in
        if negb (res =? 0) then ret res
        else memcmp_loop fuel (su1 + 1) (su2 + 1) (count - 1) res
      else ret res
  end.
Definition rt_memcmp (cs ct count : Z) : M mem Z :=
  memcmp_loop (S (Z.to_nat count)) cs ct count 0.

(** * Reference semantics and the correctness of the memory functions *)

(** the bytes [a .. a+n) of [m] are mapped, without address wrap-around *)
Definition mapped (m : mem) (a n : Z) : Prop :=
  0 <= a /\ a + n <= 4294967296 /\ forall x, a <= x < a + n -> is_Some (m !! x).

(** [m] with [n] bytes set to [v] from [a] on *)
Fixpoint fill (n : nat) (a v : Z) (m : mem) : mem :=
  match n with
  | O => m
  | S n => fill n (a + 1) v (<[a := v]> m)
  end.

Lemma lookup_fill n a v m x :
  fill n a v m !! x = if decide (a <= x < a + Z.of_nat n) then Some v else m !! x.
Proof.
  revert a m. induction n as [|n IH]; intros a m; cbn [fill].
  - by rewrite decide_False by lia.
  - rewrite IH, lookup_insert. repeat case_decide; try lia; done.
Qed.

Lemma mapped_fill n a v m b k : mapped m b k -> mapped (fill n a v m) b k.
Proof.
  intros (H0 & H1 & H2). split_and!; [done..|]. intros x Hx.
  rewrite lookup_fill. case_decide; eauto.
Qed.
Lemma mapped_sub m a n b k :
  mapped m a n -> a <= b -> b + k <= a + n -> mapped m b k.
Proof. intros (H0 & H1 & H2) ??. split_and!; [lia..|]. intros. apply H2. lia. Qed.
Lemma mapped_insert m a n x v : mapped m a n -> mapped (<[x := v]> m) a n.
Proof.
  intros (H0 & H1 & H2). split_and!; [done..|]. intros y Hy.
  rewrite lookup_insert. case_decide; eauto.
Qed.

Lemma fill_app n k a v m :
  fill (n + k) a v m = fill k (a + Z.of_nat n) v (fill n a v m).
Proof.
  revert a m. induction n as [|n IH]; intros a m; cbn [fill Nat.add].
  - by rewrite Z.add_0_r.
  - rewrite IH. f_equal. lia.
Qed.

Lemma ld8_run a m b : 0 <= a < 4294967296 -> m !! a = Some b -> ld8 a m = Ok (b, m).
Proof. intros Ha Hb. unfold ld8, bind, get. rewrite u32_small by done. by rewrite Hb. Qed.
Lemma st8_run a v m :
  mapped m a 1 -> st8 a v m = Ok (tt, <[a := u8 v]> m).
Proof.
  intros (H0 & H1 & H2). unfold st8, bind, get, modify. rewrite !u32_small by lia.
  destruct (H2 a) as [b ->]; [lia|done].
Qed.

Lemma bytes_256 (P : Z -> bool) :
  forallb P (Z.of_nat <$> seq 0 256) = true -> forall d, 0 <= d < 256 -> P d = true.
Proof.
  intros Hall d Hd. rewrite forallb_forall in Hall. apply Hall.
  apply list_elem_of_In, list_elem_of_fmap. exists (Z.to_nat d).
  split; [lia|]. apply elem_of_seq. lia.
Qed.

(** a sub-range of a mapped range is mapped, whatever has been stored since *)
Ltac sub_mapped :=
  repeat first [apply mapped_fill | apply mapped_insert];
  match goal with
  | H : mapped ?m _ _ |- mapped ?m _ _ => solve [eapply (mapped_sub _ _ _ _ _ H); lia]
  end.

Lemma memset_buffer_bytes d :
  0 <= d < 256 ->
  u8 (memset_buffer d) = d /\ u8 (Z.shiftr (memset_buffer d) 8) = d /\
  u8 (Z.shiftr (memset_buffer d) 16) = d /\ u8 (Z.shiftr (memset_buffer d) 24) = d.
Proof.
  intros Hd.
  pose proof (bytes_256 (fun d => let b := memset_buffer d in
    (u8 b =? d) && (u8 (Z.shiftr b 8) =? d) && (u8 (Z.shiftr b 16) =? d)
    && (u8 (Z.shiftr b 24) =? d)) eq_refl d Hd) as H.
  cbv beta zeta in H. rewrite !andb_true_iff, !Z.eqb_eq in H. tauto.
Qed.

Lemma st32_memset a d m :
  0 <= d < 256 -> mapped m a 4 ->
  st32 a (memset_buffer d) m = Ok (tt, fill 4 a d m).
Proof.
  intros Hd Hm. destruct (memset_buffer_bytes d Hd) as (E0 & E1 & E2 & E3).
  unfold st32.
  rewrite (bind_run _ _ _ _ _ (st8_run a _ m ltac:(sub_mapped))).
  erewrite bind_run; [cbv beta|apply st8_run; sub_mapped].
  erewrite bind_run; [cbv beta|apply st8_run; sub_mapped].
  rewrite st8_run by sub_mapped.
  cbn [fill]. rewrite E0, E1, E2, E3.
  replace (a + 1 + 1) with (a + 2) by lia.
  replace (a + 2 + 1) with (a + 3) by lia. done.
Qed.

Lemma memset_byte_run fuel m a d n :
  mapped m a n -> 0 <= n -> (Z.to_nat n < fuel)%nat -> 0 <= d < 256 ->
  memset_byte fuel a d n m = Ok (tt, fill (Z.to_nat n) a d m).
Proof.
  revert m a n. induction fuel as [|fuel IH]; intros m a n Hm Hn Hf Hd; [lia|].
  cbn [memset_byte]. destruct (Z.eqb_spec n 0) as [->|Hne]; [done|].
  erewrite bind_run; [cbv beta|apply st8_run; sub_mapped].
  rewrite u8_small by done.
  rewrite IH; [|sub_mapped|lia..|done].
  replace (Z.to_nat n) with (S (Z.to_nat (n - 1))) by lia. done.
Qed.

Lemma memset_word_run fuel m a d n :
  mapped m a n -> 0 <= n -> (Z.to_nat n < fuel)%nat -> 0 <= d < 256 ->
  memset_word fuel a (memset_buffer d) n m =
    Ok ((a + 4 * (n / 4), n mod 4), fill (Z.to_nat (4 * (n / 4))) a d m).
Proof.
  revert m a n. induction fuel as [|fuel IH]; intros m a n Hm Hn Hf Hd; [lia|].
  cbn [memset_word]. destruct (Z.leb_spec 4 n).
  - erewrite bind_run; [cbv beta|apply st32_memset; [done|sub_mapped]].
    rewrite IH; [|sub_mapped|lia..|done].
    replace ((n - 4) / 4) with (n / 4 - 1) by lia.
    replace ((n - 4) mod 4) with (n mod 4) by lia.
    replace (Z.to_nat (4 * (n / 4))) with (4 + Z.to_nat (4 * (n / 4 - 1)))%nat by lia.
    rewrite fill_app. change (Z.of_nat 4) with 4.
    replace (a + 4 + 4 * (n / 4 - 1)) with (a + 4 * (n / 4)) by lia. done.
  - rewrite Z.div_small, Z.mod_small by lia. by rewrite Z.mul_0_r, Z.add_0_r.
Qed.

Lemma memset_big_run fuel m a d n :
  mapped m a n -> 0 <= n -> (Z.to_nat n < fuel)%nat -> 0 <= d < 256 ->
  memset_big fuel a (memset_buffer d) n m =
    Ok ((a + 16 * (n / 16), n mod 16), fill (Z.to_nat (16 * (n / 16))) a d m).
Proof.
  revert m a n. induction fuel as [|fuel IH]; intros m a n Hm Hn Hf Hd; [lia|].
  cbn [memset_big]. destruct (Z.leb_spec 16 n).
  - do 4 (erewrite bind_run; [cbv beta|apply st32_memset; [done|
      sub_mapped]]).
    rewrite IH; [|sub_mapped|lia..|done].
    replace ((n - 16) / 16) with (n / 16 - 1) by lia.
    replace ((n - 16) mod 16) with (n mod 16) by lia.
    replace (Z.to_nat (16 * (n / 16))) with (4 + (4 + (4 + (4 + Z.to_nat (16 * (n / 16 - 1))))))%nat by lia.
    rewrite !fill_app. change (Z.of_nat 4) with 4. rewrite <- !(Z.add_assoc a).
    change (4 + 4) with 8. change (4 + 8) with 12. change (4 + 12) with 16.
    replace (16 + 16 * (n / 16 - 1)) with (16 * (n / 16)) by lia. done.
  - rewrite Z.div_small, Z.mod_small by lia. by rewrite Z.mul_0_r, Z.add_0_r.
Qed.

(** The aligned, word-wise [rt_memset] is the byte-wise fill. *)
Lemma rt_memset_run (m : mem) (s c count : Z) :
  mapped m s count -> 0 <= count ->
  rt_memset s c count m = Ok (s, fill (Z.to_nat count) s (u8 c) m).
Proof.
  intros Hm Hc. unfold rt_memset.
  assert (Hd : Z.land c 255 = u8 c) by (apply (Z.land_ones c 8); lia).
  rewrite Hd. pose proof (u8_range c) as Hr.
  destruct (negb (count <? 4) && (Z.land s 3 =? 0))%bool.
  - erewrite bind_run.
    2:{ erewrite bind_run; [cbv beta; cbn [fst snd]|apply memset_big_run; [done..|lia|done]].
        cbn [fst snd]. apply memset_word_run; [sub_mapped|lia..|done]. }
    cbn [fst snd].
    erewrite bind_run; [cbv beta|apply memset_byte_run;
      [sub_mapped|lia..|done]].
    unfold ret. do 2 f_equal.
    replace (s + 16 * (count / 16)) with (s + Z.of_nat (Z.to_nat (16 * (count / 16)))) by lia.
    rewrite <- fill_app.
    match goal with |- fill ?k ?b _ _ = _ =>
      replace b with (s + Z.of_nat (Z.to_nat (16 * (count / 16)) + Z.to_nat (4 * (count mod 16 / 4)))) by lia
    end.
    rewrite <- fill_app. f_equal. lia.
  - erewrite bind_run by done; cbv beta; cbn [fst snd].
    erewrite bind_run; [cbv beta|apply memset_byte_run; [done..|lia|done]]. done.
Qed.

(** [m'] is [m] with the [n] bytes at [src] copied (as they were in [m]) to
    [dst]: the reference semantics of a copy. *)
Definition copied (m m' : mem) (dst src n : Z) : Prop :=
  forall x, m' !! x = if decide (dst <= x < dst + n) then m !! (x - dst + src) else m !! x.

Definition byte_mem (m : mem) : Prop := forall x b, m !! x = Some b -> 0 <= b < 256.

Lemma copied_mapped m m' dst src n a k :
  copied m m' dst src n -> mapped m src n -> mapped m a k -> mapped m' a k.
Proof.
  intros Hc (_ & _ & Hs) (H0 & H1 & H2). split_and!; [done..|]. intros x Hx.
  rewrite Hc. case_decide; [apply Hs; lia|eauto].
Qed.
Lemma copied_byte_mem m m' dst src n :
  copied m m' dst src n -> byte_mem m -> byte_mem m'.
Proof. intros Hc Hb x b. rewrite Hc. case_decide; apply Hb. Qed.

(** a copy done in two pieces from the front, when no byte still to be read
    has been overwritten *)
Lemma copied_trans m m1 m2 dst src k n :
  0 <= k -> (dst <= src \/ src + n <= dst) ->
  copied m m1 dst src k -> copied m1 m2 (dst + k) (src + k) (n - k) -> k <= n ->
  copied m m2 dst src n.
Proof.
  intros Hk Hov H1 H2 Hkn x. rewrite H2. case_decide.
  - replace (x - (dst + k) + (src + k)) with (x - dst + src) by lia.
    rewrite H1, decide_False, decide_True by lia. done.
  - rewrite H1. repeat case_decide; try lia; done.
Qed.
Lemma copied_refl m dst src n : n <= 0 -> copied m m dst src n.
Proof. intros Hn x. by rewrite decide_False by lia. Qed.

Lemma copy8_run m dst src :
  mapped m src 1 -> mapped m dst 1 -> byte_mem m ->
  exists m', (let* b := ld8 src in st8 dst b) m = Ok (tt, m') /\ copied m m' dst src 1.
Proof.
  intros (H0 & H1 & H2) Hd Hb. destruct (H2 src) as [b Hsrc]; [lia|].
  eexists. split.
  - erewrite bind_run; [|by apply ld8_run; [lia|]]. by apply st8_run.
  - intros x. rewrite u8_small by by eapply Hb.
    rewrite lookup_insert. repeat case_decide; try lia; subst; [|done].
    replace (x - x + src) with src by lia. done.
Qed.

Lemma word_bytes b0 b1 b2 b3 :
  0 <= b0 < 256 -> 0 <= b1 < 256 -> 0 <= b2 < 256 -> 0 <= b3 < 256 ->
  let w := b0 + 256 * b1 + 65536 * b2 + 16777216 * b3 in
  u8 w = b0 /\ u8 (Z.shiftr w 8) = b1 /\ u8 (Z.shiftr w 16) = b2 /\ u8 (Z.shiftr w 24) = b3.
Proof.
  intros. unfold u8. rewrite !Z.shiftr_div_pow2 by lia.
  change (2 ^ 8) with 256. change (2 ^ 16) with 65536. change (2 ^ 24) with 16777216.
  subst w. lia.
Qed.

Lemma copy32_run m dst src :
  mapped m src 4 -> mapped m dst 4 -> byte_mem m ->
  exists m', (let* w := ld32 src in st32 dst w) m = Ok (tt, m') /\ copied m m' dst src 4.
Proof.
  intros (H0 & H1 & H2) Hd Hb.
  destruct (H2 src) as [b0 E0]; [lia|]. destruct (H2 (src + 1)) as [b1 E1]; [lia|].
  destruct (H2 (src + 2)) as [b2 E2]; [lia|]. destruct (H2 (src + 3)) as [b3 E3]; [lia|].
  destruct (word_bytes b0 b1 b2 b3) as (W0 & W1 & W2 & W3); [by eapply Hb..|].
  eexists. split.
  - erewrite bind_run.
    2:{ unfold ld32. do 4 (erewrite bind_run; [cbv beta|apply ld8_run; [lia|done]]).
        done. }
    unfold st32. do 3 (erewrite bind_run; [cbv beta|apply st8_run; sub_mapped]).
    apply st8_run; sub_mapped.
  - rewrite W0, W1, W2, W3. intros x. rewrite !lookup_insert.
    repeat case_decide; try lia; subst; [..|done].
    all: match goal with |- Some _ = _ !! ?k => first
      [ replace k with src by lia; done | replace k with (src + 1) by lia; done
      | replace k with (src + 2) by lia; done | replace k with (src + 3) by lia; done ] end.
Qed.

Section copying.
(** One iteration of a copying loop: [step] moves [k] bytes. *)
Context (k : Z) (step : Z -> Z -> M mem unit).
Hypothesis k_pos : 0 < k.
Hypothesis step_run : forall m dst src,
  mapped m src k -> mapped m dst k -> byte_mem m -> (dst <= src \/ src + k <= dst) ->
  exists m', step dst src m = Ok (tt, m') /\ copied m m' dst src k.

Fixpoint copy_loop (fuel : nat) (dst src len : Z) : M mem (Z * Z * Z) :=
  match fuel with
  | O => raise OutOfFuel
  | S fuel =>
      if k <=? len then step dst src;; copy_loop fuel (dst + k) (src + k) (len - k)
      else ret (dst, src, len)
  end.

Lemma copy_loop_run fuel m dst src n :
  mapped m src n -> mapped m dst n -> byte_mem m -> 0 <= n ->
  (dst <= src \/ src + n <= dst) -> (Z.to_nat n < fuel)%nat ->
  exists m', copy_loop fuel dst src n m =
      Ok ((dst + k * (n / k), src + k * (n / k), n mod k), m') /\
    copied m m' dst src (k * (n / k)).
Proof.
  revert m dst src n. induction fuel as [|fuel IH]; intros m dst src n Hs Hd Hb Hn Hov Hf;
    [lia|]. cbn [copy_loop]. destruct (Z.leb_spec k n).
  - destruct (step_run m dst src) as (m1 & H1 & Hc1); [sub_mapped|sub_mapped|done|lia|].
    erewrite bind_run by exact H1. cbv beta.
    destruct (IH m1 (dst + k) (src + k) (n - k)) as (m2 & H2 & Hc2);
      [eapply copied_mapped; [done|sub_mapped|sub_mapped]
      |eapply copied_mapped; [done|sub_mapped|sub_mapped]
      |by eapply copied_byte_mem|lia|lia|lia|].
    assert (Hdiv : (n - k) / k = n / k - 1).
    { replace (n - k) with (n + (-1) * k) by lia. rewrite Z.div_add by lia. lia. }
    assert (Hmod : (n - k) mod k = n mod k).
    { replace (n - k) with (n + (-1) * k) by lia. by rewrite Z.mod_add by lia. }
    assert (0 < n / k) by (apply Z.div_str_pos; lia).
    rewrite Hdiv, Hmod in *. exists m2. split.
    + rewrite H2.
      replace (dst + k + k * (n / k - 1)) with (dst + k * (n / k)) by lia.
      replace (src + k + k * (n / k - 1)) with (src + k * (n / k)) by lia. done.
    + eapply copied_trans; [| |exact Hc1| |]; [lia| | |nia].
      * pose proof (Z.mul_div_le n k k_pos). lia.
      * replace (k * (n / k) - k) with (k * (n / k - 1)) by lia. done.
  - exists m. rewrite Z.div_small, Z.mod_small, Z.mul_0_r, !Z.add_0_r by lia.
    split; [done|by apply copied_refl].
Qed.
End copying.

(** the three loops of rt_memcpy are instances of [copy_loop] *)
Lemma memcpy_word_loop fuel dst src len m :
  memcpy_word fuel dst src len m =
  copy_loop 4 (fun d s => let* w := ld32 s in st32 d w) fuel dst src len m.
Proof.
  revert dst src len m. induction fuel as [|fuel IH]; intros; [done|].
  cbn [memcpy_word copy_loop]. destruct (4 <=? len); [|done].
  apply bind_ext; intros _ m1. apply IH.
Qed.

(** sixteen bytes by four word moves *)
Definition move16 (dst src : Z) : M mem unit :=
  (let* w := ld32 src in st32 dst w);;
  (let* w := ld32 (src + 4) in st32 (dst + 4) w);;
  (let* w := ld32 (src + 8) in st32 (dst + 8) w);;
  (let* w := ld32 (src + 12) in st32 (dst + 12) w).

Lemma memcpy_big_loop fuel dst src len m :
  memcpy_big fuel dst src len m = copy_loop 16 move16 fuel dst src len m.
Proof.
  revert dst src len m. induction fuel as [|fuel IH]; intros; [done|].
  cbn [memcpy_big copy_loop]. destruct (16 <=? len); [|done]. unfold move16.
  etransitivity; [|symmetry; apply bind_assoc]. apply bind_ext; intros _ m1.
  etransitivity; [|symmetry; apply bind_assoc]. apply bind_ext; intros _ m2.
  etransitivity; [|symmetry; apply bind_assoc]. apply bind_ext; intros _ m3.
  apply bind_ext; intros _ m4. apply IH.
Qed.

Lemma move16_run m dst src :
  mapped m src 16 -> mapped m dst 16 -> byte_mem m -> (dst <= src \/ src + 16 <= dst) ->
  exists m', move16 dst src m = Ok (tt, m') /\ copied m m' dst src 16.
Proof.
  intros Hs Hd Hb Hov.
  destruct (copy_loop_run 4 (fun d s => let* w := ld32 s in st32 d w)
    ltac:(lia) ltac:(intros; by apply copy32_run) 17 m dst src 16 Hs Hd Hb)
    as (m' & Hrun & Hc); [lia|lia|lia|].
  exists m'. split; [|exact Hc].
  cbn [copy_loop] in Hrun. change (4 <=? 16) with true in Hrun. cbn [Z.leb] in Hrun.
  change (4 <=? 16 - 4) with true in Hrun.
  change (4 <=? 16 - 4 - 4) with true in Hrun.
  change (4 <=? 16 - 4 - 4 - 4) with true in Hrun.
  change (4 <=? 16 - 4 - 4 - 4 - 4) with false in Hrun.
  replace (dst + 4 + 4) with (dst + 8) in Hrun by lia.
  replace (src + 4 + 4) with (src + 8) in Hrun by lia.
  replace (dst + 8 + 4) with (dst + 12) in Hrun by lia.
  replace (src + 8 + 4) with (src + 12) in Hrun by lia.
  apply bind_ok in Hrun as ([] & m1 & H1 & Hrun).
  apply bind_ok in Hrun as ([] & m2 & H2 & Hrun).
  apply bind_ok in Hrun as ([] & m3 & H3 & Hrun).
  apply bind_ok in Hrun as ([] & m4 & H4 & Hrun). unfold ret in Hrun. simplify_eq.
  unfold move16.
  rewrite (bind_run _ _ _ _ _ H1), (bind_run _ _ _ _ _ H2), (bind_run _ _ _ _ _ H3). done.
Qed.

Lemma memcpy_byte_run fuel m dst src n :
  mapped m src n -> mapped m dst n -> byte_mem m -> 0 <= n ->
  (dst <= src \/ src + n <= dst) -> (Z.to_nat n < fuel)%nat ->
  exists m', memcpy_byte fuel dst src n m = Ok (tt, m') /\ copied m m' dst src n.
Proof.
  revert m dst src n. induction fuel as [|fuel IH]; intros m dst src n Hs Hd Hb Hn Hov Hf;
    [lia|]. cbn [memcpy_byte]. destruct (Z.eqb_spec n 0) as [->|Hne].
  - exists m. split; [done|by apply copied_refl].
  - destruct (copy8_run m dst src) as (m1 & H1 & Hc1); [sub_mapped|sub_mapped|done|].
    erewrite bind_run by exact H1. cbv beta.
    destruct (IH m1 (dst + 1) (src + 1) (n - 1)) as (m2 & H2 & Hc2);
      [eapply copied_mapped; [done|sub_mapped|sub_mapped]
      |eapply copied_mapped; [done|sub_mapped|sub_mapped]
      |by eapply copied_byte_mem|lia|lia|lia|].
    exists m2. split; [done|].
    eapply copied_trans; [| |exact Hc1|exact Hc2|]; lia.
Qed.

(** [rt_memcpy], with its word-at-a-time fast paths, copies [count] bytes
    whenever the forward byte-wise copy would: disjoint ranges, or a
    destination that starts before the source. *)
Lemma rt_memcpy_run (m : mem) (dst src count : Z) :
  mapped m src count -> mapped m dst count -> byte_mem m -> 0 <= count ->
  dst <= src \/ src + count <= dst ->
  exists m', rt_memcpy dst src count m = Ok (dst, m') /\ copied m m' dst src count.
Proof.
  intros Hs Hd Hb Hc Hov. unfold rt_memcpy.
  destruct (negb (count <? 16) && _)%bool.
  - set (n1 := count / 16).
    assert (Hn1 : 0 <= n1) by (apply Z.div_pos; lia).
    assert (Hn1' : 16 * n1 <= count) by (apply Z.mul_div_le; lia).
    destruct (copy_loop_run 16 move16 ltac:(lia) move16_run (S (Z.to_nat count))
      m dst src count) as (m1 & H1 & Hc1); [done..|lia|].
    fold n1 in H1, Hc1.
    assert (count mod 16 = count - 16 * n1) as E1
      by (subst n1; rewrite Z.mod_eq by lia; lia).
    rewrite E1 in H1.
    set (c2 := count - 16 * n1) in *. set (n2 := c2 / 4).
    assert (Hn2 : 0 <= n2) by (apply Z.div_pos; lia).
    assert (Hn2' : 4 * n2 <= c2) by (apply Z.mul_div_le; lia).
    destruct (copy_loop_run 4 (fun d s => let* w := ld32 s in st32 d w)
      ltac:(lia) ltac:(intros; by apply copy32_run) (S (Z.to_nat count))
      m1 (dst + 16 * n1) (src + 16 * n1) c2) as (m2 & H2 & Hc2);
      [eapply copied_mapped; [done|sub_mapped|sub_mapped]
      |eapply copied_mapped; [done|sub_mapped|sub_mapped]
      |by eapply copied_byte_mem|lia|lia|lia|].
    fold n2 in H2, Hc2.
    assert (c2 mod 4 = c2 - 4 * n2) as E2 by (subst n2; rewrite Z.mod_eq by lia; lia).
    rewrite E2 in H2.
    erewrite bind_run.
    2:{ erewrite bind_run; [cbv beta|rewrite memcpy_big_loop; exact H1].
        cbn [fst snd]. rewrite memcpy_word_loop. exact H2. }
    cbv beta. cbn [fst snd].
    assert (Hc12 : copied m m2 dst src (16 * n1 + 4 * n2)).
    { eapply copied_trans; [| |exact Hc1| |]; [lia|lia| |lia].
      replace (16 * n1 + 4 * n2 - 16 * n1) with (4 * n2) by lia. exact Hc2. }
    destruct (memcpy_byte_run (S (Z.to_nat count)) m2 (dst + 16 * n1 + 4 * n2)
      (src + 16 * n1 + 4 * n2) (c2 - 4 * n2)) as (m3 & H3 & Hc3);
      [eapply copied_mapped; [done|sub_mapped|sub_mapped]
      |eapply copied_mapped; [done|sub_mapped|sub_mapped]
      |by eapply copied_byte_mem|lia|lia|lia|].
    erewrite bind_run by exact H3. exists m3. split; [done|].
    eapply (copied_trans _ _ _ _ _ (16 * n1 + 4 * n2)); [lia|lia|exact Hc12| |lia].
    rewrite !Z.add_assoc.
    replace (count - (16 * n1 + 4 * n2)) with (c2 - 4 * n2) by lia. exact Hc3.
  - erewrite bind_run by done. cbv beta. cbn [fst snd].
    destruct (memcpy_byte_run (S (Z.to_nat count)) m dst src count)
      as (m1 & H1 & Hc1); [done..|lia|].
    erewrite bind_run by exact H1. by exists m1.
Qed.

(** the backward loop of rt_memmove copies when the destination starts after
    the source *)
Lemma memmove_down_run fuel m dst src n :
  mapped m src n -> mapped m dst n -> byte_mem m -> 0 <= n -> src <= dst ->
  (Z.to_nat n < fuel)%nat ->
  exists m', memmove_down fuel (dst + n) (src + n) n m = Ok (tt, m') /\ copied m m' dst src n.
Proof.
  revert m n. induction fuel as [|fuel IH]; intros m n Hs Hd Hb Hn Hov Hf; [lia|].
  cbn [memmove_down]. destruct (Z.eqb_spec n 0) as [->|Hne].
  - exists m. split; [done|by apply copied_refl].
  - destruct (copy8_run m (dst + n - 1) (src + n - 1)) as (m1 & H1 & Hc1);
      [sub_mapped|sub_mapped|done|].
    erewrite bind_run by exact H1. cbv beta.
    replace (dst + n - 1) with (dst + (n - 1)) by lia.
    replace (src + n - 1) with (src + (n - 1)) by lia.
    destruct (IH m1 (n - 1)) as (m2 & H2 & Hc2);
      [eapply copied_mapped; [done|sub_mapped|sub_mapped]
      |eapply copied_mapped; [done|sub_mapped|sub_mapped]
      |by eapply copied_byte_mem|lia|lia|lia|].
    exists m2. split; [done|]. intros x. rewrite Hc2, (Hc1 (x - dst + src)), (Hc1 x).
    repeat case_decide; try lia; try done. f_equal. lia.
Qed.

(** [rt_memmove] copies correctly for every overlap of the two ranges. *)
Lemma rt_memmove_run (m : mem) (dest src n : Z) :
  mapped m src n -> mapped m dest n -> byte_mem m -> 0 <= n -> src + n < 4294967296 ->
  exists m', rt_memmove dest src n m = Ok (dest, m') /\ copied m m' dest src n.
Proof.
  intros Hs Hd Hb Hn Hw. unfold rt_memmove. pose proof Hs as (? & _ & _).
  rewrite u32_small by lia.
  destruct ((src <? dest) && (dest <? src + n))%bool eqn:E.
  - apply andb_prop in E as [E1%Z.ltb_lt E2%Z.ltb_lt].
    destruct (memmove_down_run (S (Z.to_nat n)) m dest src n) as (m' & Hr & Hc);
      [done..|lia|lia|]. erewrite bind_run by exact Hr. by exists m'.
  - assert (dest <= src \/ src + n <= dest) by
      (apply andb_false_iff in E as [E%Z.ltb_ge|E%Z.ltb_ge]; lia).
    destruct (memcpy_byte_run (S (Z.to_nat n)) m dest src n) as (m' & Hr & Hc);
      [done..|lia|]. erewrite bind_run by exact Hr. by exists m'.
Qed.

(** ** Words in memory *)

(** the little-endian word at [a] *)
Definition byte_of (m : mem) (a : Z) : Z := default 0 (m !! a).
Definition word_at (m : mem) (a : Z) : Z :=
  byte_of m a + 256 * byte_of m (a + 1) + 65536 * byte_of m (a + 2) +
  16777216 * byte_of m (a + 3).
Definition store_word (a v : Z) (m : mem) : mem :=
  <[a + 3 := u8 (Z.shiftr v 24)]> (<[a + 2 := u8 (Z.shiftr v 16)]>
    (<[a + 1 := u8 (Z.shiftr v 8)]> (<[a := u8 v]> m))).

Lemma byte_of_run m a : mapped m a 1 -> ld8 a m = Ok (byte_of m a, m).
Proof.
  intros (H0 & H1 & H2). destruct (H2 a) as [b Hb]; [lia|].
  unfold byte_of. rewrite Hb. apply ld8_run; [lia|done].
Qed.
Lemma ld32_run m a : mapped m a 4 -> ld32 a m = Ok (word_at m a, m).
Proof.
  intros Hm. unfold ld32. do 4 (erewrite bind_run; [cbv beta|apply byte_of_run; sub_mapped]).
  done.
Qed.
Lemma st32_run m a v : mapped m a 4 -> st32 a v m = Ok (tt, store_word a v m).
Proof.
  intros Hm. unfold st32. do 3 (erewrite bind_run; [cbv beta|apply st8_run; sub_mapped]).
  apply st8_run. sub_mapped.
Qed.

Lemma lookup_store_word a v m x :
  store_word a v m !! x = if decide (a <= x < a + 4) then Some (byte_of (store_word a v m) x) else m !! x.
Proof.
  unfold byte_of, store_word. case_decide; rewrite !lookup_insert;
    repeat case_decide; try lia; done.
Qed.
Lemma mapped_store_word a v m b n : mapped m b n -> mapped (store_word a v m) b n.
Proof. intros. unfold store_word. by repeat apply mapped_insert. Qed.
Lemma byte_mem_store_word a v m : byte_mem m -> byte_mem (store_word a v m).
Proof.
  intros Hb x b. unfold store_word. rewrite !lookup_insert.
  repeat case_decide; try (intros [= <-]; apply u8_range). apply Hb.
Qed.

Lemma bytes_word v :
  u8 v + 256 * u8 (Z.shiftr v 8) + 65536 * u8 (Z.shiftr v 16) + 16777216 * u8 (Z.shiftr v 24) =
  u32 v.
Proof.
  unfold u8, u32. rewrite !Z.shiftr_div_pow2 by lia.
  change (2 ^ 8) with 256. change (2 ^ 16) with 65536. change (2 ^ 24) with 16777216. lia.
Qed.
Lemma word_at_store a v m : word_at (store_word a v m) a = u32 v.
Proof.
  rewrite <- bytes_word. unfold word_at, byte_of, store_word. rewrite !lookup_insert.
  repeat case_decide; try lia. done.
Qed.
Lemma word_at_store_ne a v m b :
  a + 4 <= b \/ b + 4 <= a -> word_at (store_word a v m) b = word_at m b.
Proof.
  intros Hd. unfold word_at, byte_of. rewrite !lookup_store_word.
  repeat case_decide; solve [lia|done].
Qed.
Lemma word_at_range m a : byte_mem m -> 0 <= word_at m a < 4294967296.
Proof.
  intros Hb. assert (H : forall x, 0 <= byte_of m x < 256).
  { intros x. unfold byte_of. destruct (m !! x) eqn:E; cbn; [by eapply Hb|lia]. }
  unfold word_at. pose proof (H a). pose proof (H (a + 1)). pose proof (H (a + 2)).
  pose proof (H (a + 3)). lia.
Qed.
Lemma word_at_copied m m' dst src n a :
  copied m m' dst src n -> a + 4 <= dst \/ dst + n <= a -> word_at m' a = word_at m a.
Proof.
  intros Hc Hd. unfold word_at, byte_of. rewrite !Hc. repeat case_decide; solve [lia|done].
Qed.

(** ** Chains: singly linked lists whose links are words in memory *)

(** from pointer [p], the links lead through the cells [l] to a null pointer *)
Fixpoint chain (m : mem) (p : Z) (l : list Z) : Prop :=
  match l with
  | [] => p = 0
  | x :: l => p = x /\ x <> 0 /\ chain m (word_at m x) l
  end.
(** the words at [x] and [y] are disjoint *)
Definition apart (x y : Z) : Prop := x + 4 <= y \/ y + 4 <= x.

Lemma chain_ext m m' p l :
  (forall x, x ∈ l -> word_at m' x = word_at m x) -> chain m p l -> chain m' p l.
Proof.
  revert p. induction l as [|x l IH]; intros p Hl; cbn; [done|]. intros (-> & Hx & Hc).
  rewrite Hl by left. split_and!; [done..|]. apply IH; [|done]. intros y Hy. apply Hl. by right.
Qed.
Lemma chain_store m p l a v :
  (forall x, x ∈ l -> apart a x) -> chain m p l -> chain (store_word a v m) p l.
Proof. intros Ha. apply chain_ext. intros x Hx. apply word_at_store_ne, Ha, Hx. Qed.
Lemma chain_null m p l : chain m p l -> p = 0 <-> l = [].
Proof. destruct l as [|x l]; cbn; [naive_solver|]. intros (-> & ? & _). naive_solver. Qed.
(** a new first cell *)
Lemma chain_push m p l a :
  chain m p l -> a <> 0 -> 0 <= p < 4294967296 -> (forall x, x ∈ l -> apart a x) ->
  chain (store_word a p m) a (a :: l).
Proof.
  intros Hc Ha Hp Hl. cbn. split_and!; [done..|]. rewrite word_at_store, u32_small by done.
  by apply chain_store.
Qed.
(** a new last cell behind [y] *)
Lemma chain_append m p l y a :
  chain m p (l ++ [y]) -> a <> 0 -> 0 <= a < 4294967296 -> word_at m a = 0 ->
  (forall x, x ∈ l -> apart y x) -> apart y a ->
  chain (store_word y a m) p (l ++ [y; a]).
Proof.
  revert p. induction l as [|x l IH]; intros p; cbn; intros Hc Ha Hr Hz Hl Hya.
  - destruct Hc as (-> & Hy & _). rewrite word_at_store, u32_small by done.
    split_and!; try done. by rewrite word_at_store_ne.
  - destruct Hc as (-> & Hx & Hc). rewrite word_at_store_ne by (apply Hl; left).
    split_and!; [done..|]. apply IH; try done. intros z Hz'. apply Hl. by right.
Qed.

(** the [n] consecutive cells of [stride] bytes from [start] on *)
Definition cells (start stride n : Z) : list Z := (fun i => start + i * stride) <$> seqZ 0 n.

Lemma elem_of_cells start stride n x :
  x ∈ cells start stride n <-> exists i, x = start + i * stride /\ 0 <= i < n.
Proof. unfold cells. rewrite list_elem_of_fmap. by setoid_rewrite elem_of_seqZ. Qed.
Lemma length_cells start stride n : length (cells start stride n) = Z.to_nat n.
Proof. unfold cells. by rewrite length_fmap, length_seqZ. Qed.
Lemma NoDup_cells start stride n : 0 < stride -> NoDup (cells start stride n).
Proof.
  intros Hs. apply NoDup_fmap_2_strong; [|apply NoDup_seqZ]. intros i j _ _. nia.
Qed.
(** distinct cells do not overlap *)
Lemma cells_sep start stride n x y :
  0 < stride -> x ∈ cells start stride n -> y ∈ cells start stride n -> x <> y ->
  x + stride <= y \/ y + stride <= x.
Proof.
  intros Hs (i & -> & Hi)%elem_of_cells (j & -> & Hj)%elem_of_cells Hne.
  assert (i < j \/ j < i) as [|] by (destruct (Z.lt_trichotomy i j) as [|[->|]]; tauto); nia.
Qed.
Lemma cells_range start stride n x :
  0 < stride -> x ∈ cells start stride n -> start <= x /\ x + stride <= start + n * stride.
Proof. intros Hs (i & -> & Hi)%elem_of_cells. nia. Qed.

(** the [n] bytes at [a] *)
Definition bytes_at (m : mem) (a : Z) (n : nat) : list Z :=
  (fun i => byte_of m (a + i)) <$> seqZ 0 (Z.of_nat n).
Lemma length_bytes_at m a n : length (bytes_at m a n) = n.
Proof. unfold bytes_at. rewrite length_fmap, length_seqZ. lia. Qed.
Lemma bytes_at_ext m m' a a' n :
  (forall i, 0 <= i < Z.of_nat n -> m' !! (a' + i) = m !! (a + i)) -> bytes_at m' a' n = bytes_at m a n.
Proof.
  intros H. apply list_fmap_ext. intros k i [-> Hi]%lookup_seqZ. unfold byte_of. by rewrite H by lia.
Qed.
Lemma bytes_at_copied m m' dst src n k :
  copied m m' dst src n -> Z.of_nat k <= n -> bytes_at m' dst k = bytes_at m src k.
Proof.
  intros Hc Hk. apply bytes_at_ext. intros i Hi. rewrite Hc. rewrite decide_True by lia.
  f_equal. lia.
Qed.
Lemma take_bytes_at m a n k : take k (bytes_at m a n) = bytes_at m a (min k n).
Proof.
  unfold bytes_at. rewrite <- fmap_take. f_equal. apply list_eq. intros i.
  destruct (decide (i < k)%nat).
  - rewrite lookup_take_lt by lia. destruct (decide (i < n)%nat).
    + rewrite !lookup_seqZ_lt by lia. done.
    + rewrite !lookup_seqZ_ge by lia. done.
  - rewrite lookup_take_ge by lia. by rewrite lookup_seqZ_ge by lia.
Qed.

(** ** The memory functions do what their C counterparts promise *)

(** The word-wise rt_memset fills exactly the [count] bytes from [s] on
    with the low byte of [c], whatever the alignment and the length. *)
Theorem rt_memset_correct (m : mem) (s c count : Z) :
  mapped m s count -> 0 <= count ->
  rt_memset s c count m = Ok (s, fill (Z.to_nat count) s (u8 c) m).
Proof. apply rt_memset_run. Qed.

(** C39: rt_memcpy, with its word-at-a-time fast paths, copies [count] bytes
    and touches no other, for disjoint ranges and for a destination that
    starts before the source. *)
Theorem rt_memcpy_correct (m : mem) (dst src count : Z) :
  mapped m src count -> mapped m dst count -> byte_mem m -> 0 <= count ->
  dst <= src \/ src + count <= dst ->
  exists m', rt_memcpy dst src count m = Ok (dst, m') /\ copied m m' dst src count.
Proof. apply rt_memcpy_run. Qed.

(** rt_memmove copies correctly for every overlap of the two ranges. *)
Theorem rt_memmove_correct (m : mem) (dest src n : Z) :
  mapped m src n -> mapped m dest n -> byte_mem m -> 0 <= n -> src + n < 4294967296 ->
  exists m', rt_memmove dest src n m = Ok (dest, m') /\ copied m m' dest src n.
Proof. apply rt_memmove_run. Qed.

(** * __rt_ffs *)
(** the table [__lowest_bit_bitmap], one row of sixteen entries per line *)
Definition lowest_bit_bitmap : list Z := [
  0; 0; 1; 0; 2; 0; 1; 0; 3; 0; 1; 0; 2; 0; 1; 0;
  4; 0; 1; 0; 2; 0; 1; 0; 3; 0; 1; 0; 2; 0; 1; 0;
  5; 0; 1; 0; 2; 0; 1; 0; 3; 0; 1; 0; 2; 0; 1; 0;
  4; 0; 1; 0; 2; 0; 1; 0; 3; 0; 1; 0; 2; 0; 1; 0;
  6; 0; 1; 0; 2; 0; 1; 0; 3; 0; 1; 0; 2; 0; 1; 0;
  4; 0; 1; 0; 2; 0; 1; 0; 3; 0; 1; 0; 2; 0; 1; 0;
  5; 0; 1; 0; 2; 0; 1; 0; 3; 0; 1; 0; 2; 0; 1; 0;
  4; 0; 1; 0; 2; 0; 1; 0; 3; 0; 1; 0; 2; 0; 1; 0;
  7; 0; 1; 0; 2; 0; 1; 0; 3; 0; 1; 0; 2; 0; 1; 0;
  4; 0; 1; 0; 2; 0; 1; 0; 3; 0; 1; 0; 2; 0; 1; 0;
  5; 0; 1; 0; 2; 0; 1; 0; 3; 0; 1; 0; 2; 0; 1; 0;
  4; 0; 1; 0; 2; 0; 1; 0; 3; 0; 1; 0; 2; 0; 1; 0;
  6; 0; 1; 0; 2; 0; 1; 0; 3; 0; 1; 0; 2; 0; 1; 0;
  4; 0; 1; 0; 2; 0; 1; 0; 3; 0; 1; 0; 2; 0; 1; 0;
  5; 0; 1; 0; 2; 0; 1; 0; 3; 0; 1; 0; 2; 0; 1; 0;
  4; 0; 1; 0; 2; 0; 1; 0; 3; 0; 1; 0; 2; 0; 1; 0 ].

Definition lowest_bit (i : Z) : Z := default 0 (lowest_bit_bitmap !! Z.to_nat i).

(** [value] is the 32-bit pattern of the argument *)
Definition __rt_ffs (value : Z) : Z :=
  if value =? 0 then 0
  else if truthy (Z.land value 255) then
    lowest_bit (Z.land value 255) + 1
  else if truthy (Z.land value 65280) then
    lowest_bit (Z.shiftr (Z.land value 65280) 8) + 9
  else if truthy (Z.land value 16711680) then
    lowest_bit (Z.shiftr (Z.land value 16711680) 16) + 17
  else lowest_bit (Z.shiftr (Z.land value 4278190080) 24) + 25.

(** in a non-zero byte the table gives the lowest set bit *)
Lemma lowest_bit_spec b :
  0 < b < 256 ->
  0 <= lowest_bit b < 8 /\ Z.testbit b (lowest_bit b) = true /\
  forall i, 0 <= i < lowest_bit b -> Z.testbit b i = false.
Proof.
  intros Hb.
  pose proof (bytes_256 (fun d => (d =? 0) || ((0 <=? lowest_bit d) && (lowest_bit d <? 8) &&
    Z.testbit d (lowest_bit d) &&
    forallb (fun i => negb (Z.testbit d i)) (Z.of_nat <$> seq 0 (Z.to_nat (lowest_bit d)))))
    eq_refl b ltac:(lia)) as H.
  cbv beta in H. rewrite !orb_true_iff, !andb_true_iff, forallb_forall, Z.eqb_eq, Z.leb_le,
    Z.ltb_lt in H.
  destruct H as [->|[[[? ?] ?] H]]; [lia|]. split_and!; [done..|].
  intros i Hi. apply negb_true_iff. apply H, list_elem_of_In, list_elem_of_fmap.
  exists (Z.to_nat i). split; [lia|]. apply elem_of_seq. lia.
Qed.

(** the byte of [v] selected by a mask, at bit [k] *)
Lemma byte_at v k : 0 <= k -> Z.shiftr (Z.land v (Z.shiftl 255 k)) k = Z.shiftr v k mod 256.
Proof.
  intros Hk. rewrite Z.shiftr_land, Z.shiftr_shiftl_l, Z.sub_diag, Z.shiftl_0_r by lia.
  apply (Z.land_ones _ 8). lia.
Qed.
Lemma byte_testbit v k i :
  0 <= i < 8 -> 0 <= k -> Z.testbit (Z.shiftr v k mod 256) i = Z.testbit v (k + i).
Proof.
  intros Hi Hk. change 256 with (2 ^ 8).
  rewrite Z.mod_pow2_bits_low, Z.shiftr_spec by lia. f_equal. lia.
Qed.
Lemma byte_zero v k :
  0 <= k -> Z.land v (Z.shiftl 255 k) = 0 -> forall i, k <= i < k + 8 -> Z.testbit v i = false.
Proof.
  intros Hk H i Hi. pose proof (byte_at v k Hk) as Hb. rewrite H, Z.shiftr_0_l in Hb.
  replace i with (k + (i - k)) by lia.
  rewrite <- byte_testbit by lia. by rewrite <- Hb, Z.bits_0.
Qed.
Lemma byte_nonzero v k :
  0 <= k -> Z.land v (Z.shiftl 255 k) <> 0 -> 0 < Z.shiftr v k mod 256 < 256.
Proof.
  intros Hk H. pose proof (Z.mod_pos_bound (Z.shiftr v k) 256).
  assert (Z.shiftr v k mod 256 <> 0); [|lia]. intros E. apply H.
  apply Z.bits_inj_0. intros i. rewrite Z.land_spec.
  destruct (decide (i < k)) as [?|?].
  { rewrite Z.shiftl_spec_low by done. by rewrite andb_false_r. }
  destruct (decide (i < k + 8)) as [?|?].
  - replace i with (k + (i - k)) at 1 by lia. rewrite <- byte_testbit by lia.
    rewrite E, Z.bits_0. done.
  - rewrite Z.shiftl_spec by lia. rewrite (Z.bits_above_log2 255), andb_false_r; [done|lia|].
    change (Z.log2 255) with 7. lia.
Qed.

Definition first_bit (v p : Z) : Prop :=
  0 <= p /\ Z.testbit v p = true /\ forall i, 0 <= i < p -> Z.testbit v i = false.

Lemma first_bit_byte v k :
  0 <= k -> Z.land v (Z.shiftl 255 k) <> 0 -> (forall i, 0 <= i < k -> Z.testbit v i = false) ->
  first_bit v (k + lowest_bit (Z.shiftr (Z.land v (Z.shiftl 255 k)) k)).
Proof.
  intros Hk Hnz Hlow. rewrite byte_at by done.
  destruct (lowest_bit_spec _ (byte_nonzero v k Hk Hnz)) as (Hr & Ht & Hf).
  split_and!; [lia| |].
  - by rewrite <- byte_testbit by lia.
  - intros i Hi. destruct (decide (i < k)); [apply Hlow; lia|].
    replace i with (k + (i - k)) by lia. rewrite <- byte_testbit by lia. apply Hf. lia.
Qed.

Lemma rt_ffs_spec (v : Z) :
  0 <= v < 4294967296 ->
  (v = 0 /\ __rt_ffs v = 0) \/
  (v <> 0 /\ 1 <= __rt_ffs v <= 32 /\ first_bit v (__rt_ffs v - 1)).
Proof.
  intros Hv. unfold __rt_ffs. destruct (Z.eqb_spec v 0) as [?|Hne]; [by left|right].
  split; [done|].
  assert (Hone : forall k n, 0 <= k -> n = k + 1 -> k <= 24 ->
    Z.land v (Z.shiftl 255 k) <> 0 -> (forall i, 0 <= i < k -> Z.testbit v i = false) ->
    let r := lowest_bit (Z.shiftr (Z.land v (Z.shiftl 255 k)) k) + n in
    1 <= r <= 32 /\ first_bit v (r - 1)).
  { intros k n Hk -> Hk24 Hnz Hlow r.
    pose proof (first_bit_byte v k Hk Hnz Hlow) as Hfb.
    destruct (lowest_bit_spec _ (byte_nonzero v k Hk Hnz)) as (Hr & _).
    rewrite <- byte_at in Hr by done. subst r. split; [lia|].
    by replace (lowest_bit (Z.shiftr (Z.land v (Z.shiftl 255 k)) k) + (k + 1) - 1)
      with (k + lowest_bit (Z.shiftr (Z.land v (Z.shiftl 255 k)) k)) by lia. }
  destruct (truthy (Z.land v 255)) eqn:E0.
  { apply truthy_true in E0.
    replace (Z.land v 255) with (Z.shiftr (Z.land v (Z.shiftl 255 0)) 0)
      by (by rewrite Z.shiftr_0_r). apply (Hone 0); try lia. done. }
  apply truthy_false in E0. change 255 with (Z.shiftl 255 0) in E0.
  pose proof (byte_zero v 0 ltac:(lia) E0) as B0.
  destruct (truthy (Z.land v 65280)) eqn:E1.
  { apply truthy_true in E1. apply (Hone 8); try lia; [done|]. intros; apply B0; lia. }
  apply truthy_false in E1. pose proof (byte_zero v 8 ltac:(lia) E1) as B1.
  destruct (truthy (Z.land v 16711680)) eqn:E2.
  { apply truthy_true in E2. apply (Hone 16); try lia; [done|].
    intros i ?. destruct (decide (i < 8)); [apply B0|apply B1]; lia. }
  apply truthy_false in E2. pose proof (byte_zero v 16 ltac:(lia) E2) as B2.
  assert (Blow : forall i, 0 <= i < 24 -> Z.testbit v i = false).
  { intros i ?. destruct (decide (i < 8)); [apply B0; lia|].
    destruct (decide (i < 16)); [apply B1|apply B2]; lia. }
  apply (Hone 24); try lia; [|done]. intros E3.
  pose proof (byte_zero v 24 ltac:(lia) E3) as B3. apply Hne, Z.bits_inj_0. intros i.
  destruct (decide (i < 0)); [by apply Z.testbit_neg_r|].
  destruct (decide (i < 24)); [apply Blow; lia|].
  destruct (decide (i < 32)); [apply B3; lia|].
  destruct (decide (v = 0)) as [->|]; [done|].
  apply Z.bits_above_log2; [lia|]. apply Z.log2_lt_pow2; [lia|].
  assert (2 ^ 32 <= 2 ^ i) by (apply Z.pow_le_mono_r; lia). change (2 ^ 32) with 4294967296 in *. lia.
Qed.

(** For a non-zero 32-bit value, [__rt_ffs] minus one is the index of the
    lowest set bit, and for zero the result is 0. *)
Theorem rt_ffs_correct (v : Z) :
  0 <= v < 4294967296 ->
  (v = 0 /\ __rt_ffs v = 0) \/
  (v <> 0 /\ 1 <= __rt_ffs v <= 32 /\ first_bit v (__rt_ffs v - 1)).
Proof. apply rt_ffs_spec. Qed.
