(* ===== verification/Mem.v ===== *)
(** The small-memory allocator, rt-thread/kernel/src/mem.c (RT_USING_SMALL_MEM,
    RT_ALIGN_SIZE = 16 as rtconfig.h sets it).  The heap is a chain of block
    headers keyed by their offset from [heap_ptr]; the pointers [lfree] and
    [heap_end] are kept as such offsets.  The bytes of the blocks live in
    [ram], on which the memory functions of [KService] run.  The proofs are
    in Heap. *)
From S2P Require Import Prelude KService.

Definition RT_ALIGN_SIZE : Z := 16.
Definition RT_ALIGN (size align : Z) : Z :=
  Z.land (u32 (size + align - 1)) (Z.lnot (align - 1)).
Definition RT_ALIGN_DOWN (size align : Z) : Z := Z.land size (Z.lnot (align - 1)).

(** struct heap_mem *)
Record heap_mem := { magic : Z; used : Z; hnext : Z; hprev : Z }.

Definition HEAP_MAGIC : Z := 7840.
Definition MIN_SIZE : Z := 12.
Definition MIN_SIZE_ALIGNED : Z := RT_ALIGN MIN_SIZE RT_ALIGN_SIZE.
Definition SIZEOF_STRUCT_MEM : Z := RT_ALIGN 12 RT_ALIGN_SIZE.

(** the allocator's static variables *)
Record heap := {
  headers : gmap Z heap_mem;
  heap_ptr : Z;
  heap_end : Z;
  lfree : Z;
  heap_sem : Z;
  mem_size_aligned : Z;
  used_mem : Z;
  max_mem : Z;
  ram : mem;
}.

Definition set_headers f h := {| headers := f (headers h); heap_ptr := heap_ptr h;
  heap_end := heap_end h; lfree := lfree h; heap_sem := heap_sem h;
  mem_size_aligned := mem_size_aligned h; used_mem := used_mem h; max_mem := max_mem h;
  ram := ram h |}.
Definition set_lfree v h := {| headers := headers h; heap_ptr := heap_ptr h;
  heap_end := heap_end h; lfree := v; heap_sem := heap_sem h;
  mem_size_aligned := mem_size_aligned h; used_mem := used_mem h; max_mem := max_mem h;
  ram := ram h |}.
Definition set_heap_sem v h := {| headers := headers h; heap_ptr := heap_ptr h;
  heap_end := heap_end h; lfree := lfree h; heap_sem := v;
  mem_size_aligned := mem_size_aligned h; used_mem := used_mem h; max_mem := max_mem h;
  ram := ram h |}.
Definition set_stats u m h := {| headers := headers h; heap_ptr := heap_ptr h;
  heap_end := heap_end h; lfree := lfree h; heap_sem := heap_sem h;
  mem_size_aligned := mem_size_aligned h; used_mem := u; max_mem := m; ram := ram h |}.
Definition set_ram r h := {| headers := headers h; heap_ptr := heap_ptr h;
  heap_end := heap_end h; lfree := lfree h; heap_sem := heap_sem h;
  mem_size_aligned := mem_size_aligned h; used_mem := used_mem h; max_mem := max_mem h;
  ram := r |}.

Abbreviation H := (M heap).

(** the memory functions of kservice.c on the heap's bytes *)
Definition on_ram {A} (m : M mem A) : H A := fun h =>
  match m (ram h) with
  | Ok (a, r) => Ok (a, set_ram r h)
  | Fault f => Fault f
  end.

(** rt_sem_take / rt_sem_release of heap_sem, whose count is [heap_sem]; a
    take of the taken semaphore would suspend the caller *)
Definition heap_sem_take : H unit :=
  let* n := gets heap_sem in
  if 0 <? n then modify (set_heap_sem (n - 1)) else raise WouldBlock.
Definition heap_sem_release : H unit :=
  let* n := gets heap_sem in modify (set_heap_sem (n + 1)).

Definition hdr (off : Z) : H heap_mem := let* h := get in the (headers h !! off).
Definition upd_hdr (off : Z) (f : heap_mem -> heap_mem) : H unit :=
  let* m := hdr off in modify (set_headers (<[off := f m]>)).
Definition new_hdr (off : Z) (m : heap_mem) : H unit :=
  modify (set_headers (<[off := m]>)).
Definition with_next v m := {| magic := magic m; used := used m; hnext := v; hprev := hprev m |}.
Definition with_prev v m := {| magic := magic m; used := used m; hnext := hnext m; hprev := v |}.
Definition with_used v m := {| magic := magic m; used := v; hnext := hnext m; hprev := hprev m |}.
Definition with_magic v m := {| magic := v; used := used m; hnext := hnext m; hprev := hprev m |}.

(** used_mem += d; if (max_mem < used_mem) max_mem = used_mem *)
Definition add_used (d : Z) : H unit :=
  modify (fun h => let u := u32 (used_mem h + d) in
    set_stats u (if max_mem h <? u then u else max_mem h) h).
Definition sub_used (d : Z) : H unit :=
  modify (fun h => set_stats (u32 (used_mem h - d)) (max_mem h) h).

(** * plug_holes *)
(** plug hole forward: combine [mem], with header [m], and the next block *)
Definition plug_forward (mem : Z) (m : heap_mem) : H unit :=
  let nmem := hnext m in
  let* h := get in
  let* n := hdr nmem in
  when (negb (mem =? nmem) && (used n =? 0) && negb (nmem =? heap_end h))%bool
    ((let* lf := gets lfree in when (lf =? nmem) (modify (set_lfree mem)));;
     upd_hdr mem (with_next (hnext n));;
     upd_hdr (hnext n) (with_prev mem)).
(** plug hole backward: combine [mem] and the previous block *)
Definition plug_backward (mem : Z) : H unit :=
  let* m := hdr mem in
  let pmem := hprev m in
  let* p := hdr pmem in
  when (negb (pmem =? mem) && (used p =? 0))%bool
    ((let* lf := gets lfree in when (lf =? mem) (modify (set_lfree pmem)));;
     upd_hdr pmem (with_next (hnext m));;
     upd_hdr (hnext m) (with_prev pmem)).
Definition plug_holes (mem : Z) : H unit :=
  let* h := get in
  rt_assert (0 <=? mem);;
  rt_assert (mem <? heap_end h);;
  let* m := hdr mem in
  rt_assert (used m =? 0);;
  plug_forward mem m;;
  plug_backward mem.

(** * rt_system_heap_init *)
Definition rt_system_heap_init (begin_addr end_addr : Z) : H unit :=
  let begin_align := RT_ALIGN begin_addr RT_ALIGN_SIZE in
  let end_align := RT_ALIGN_DOWN end_addr RT_ALIGN_SIZE in
  if ((2 * SIZEOF_STRUCT_MEM <? end_align) &&
      (begin_align <=? end_align - 2 * SIZEOF_STRUCT_MEM))%bool then
    let msa := end_align - begin_align - 2 * SIZEOF_STRUCT_MEM in
    let fin := msa + SIZEOF_STRUCT_MEM in
    modify (fun h => {|
      headers :=
        <[fin := {| magic := HEAP_MAGIC; used := 1; hnext := fin; hprev := fin |}]>
        (<[0 := {| magic := HEAP_MAGIC; used := 0; hnext := fin; hprev := 0 |}]>
        (headers h));
      heap_ptr := begin_align; heap_end := fin; lfree := 0; heap_sem := 1;
      mem_size_aligned := msa; used_mem := used_mem h; max_mem := max_mem h;
      ram := ram h |})
  else ret tt.

(** * rt_malloc *)
(** while (lfree->used && lfree != heap_end) lfree = &heap_ptr[lfree->next] *)
Fixpoint advance_lfree (fuel : nat) : H unit :=
  match fuel with
  | O => raise OutOfFuel
  | S fuel =>
      let* h := get in
      let* m := hdr (lfree h) in
      if (truthy (used m) && negb (lfree h =? heap_end h))%bool
      then modify (set_lfree (hnext m));; advance_lfree fuel
      else ret tt
  end.

(** the size left in the block at [ptr] behind its header *)
Definition user_size (ptr : Z) (m : heap_mem) : Z := u32 (hnext m - (ptr + SIZEOF_STRUCT_MEM)).

(** the chosen block [mem] at [ptr] is split, or taken whole *)
Definition carve (ptr size : Z) (mem : heap_mem) : H unit :=
  if size + SIZEOF_STRUCT_MEM + MIN_SIZE_ALIGNED <=? user_size ptr mem then
    let ptr2 := ptr + SIZEOF_STRUCT_MEM + size in
    new_hdr ptr2 {| magic := HEAP_MAGIC; used := 0; hnext := hnext mem; hprev := ptr |};;
    upd_hdr ptr (with_next ptr2);;
    upd_hdr ptr (with_used 1);;
    let* h := get in
    when (negb (hnext mem =? mem_size_aligned h + SIZEOF_STRUCT_MEM))
      (upd_hdr (hnext mem) (with_prev ptr2));;
    add_used (size + SIZEOF_STRUCT_MEM)
  else
    upd_hdr ptr (with_used 1);;
    add_used (hnext mem - ptr).

(** the body of the for loop for a block that fits *)
Definition malloc_take (ptr size : Z) (mem : heap_mem) : H Z :=
  carve ptr size mem;;
  upd_hdr ptr (with_magic HEAP_MAGIC);;
  (let* lf := gets lfree in
   when (ptr =? lf)
     ((let* h := get in advance_lfree (S (base.size (headers h))));;
      let* h := get in let* m := hdr (lfree h) in
      rt_assert ((lfree h =? heap_end h) || (used m =? 0))%bool));;
  heap_sem_release;;
  let* h := get in
  rt_assert (ptr + SIZEOF_STRUCT_MEM + size <=? heap_end h);;
  rt_assert ((heap_ptr h + ptr + SIZEOF_STRUCT_MEM) mod RT_ALIGN_SIZE =? 0);;
  rt_assert (Z.land (heap_ptr h + ptr) (RT_ALIGN_SIZE - 1) =? 0);;
  ret (heap_ptr h + ptr + SIZEOF_STRUCT_MEM).

Fixpoint malloc_loop (fuel : nat) (size ptr : Z) : H Z :=
  match fuel with
  | O => raise OutOfFuel
  | S fuel =>
      let* h := get in
      if ptr <? u32 (mem_size_aligned h - size) then
        let* mem := hdr ptr in
        if ((used mem =? 0) && (size <=? user_size ptr mem))%bool
        then malloc_take ptr size mem
        else malloc_loop fuel size (hnext mem)
      else heap_sem_release;; ret 0
  end.

Definition rt_malloc (size : Z) : H Z :=
  if size =? 0 then ret 0
  else
    let size := RT_ALIGN size RT_ALIGN_SIZE in
    let* h := get in
    if mem_size_aligned h <? size then ret 0
    else
      let size := if size <? MIN_SIZE_ALIGNED then MIN_SIZE_ALIGNED else size in
      heap_sem_take;;
      let* h := get in
      malloc_loop (S (base.size (headers h))) size (lfree h).

(** * rt_free *)
Definition rt_free (rmem : Z) : H unit :=
  if rmem =? 0 then ret tt
  else
    let* h := get in
    rt_assert (Z.land rmem (RT_ALIGN_SIZE - 1) =? 0);;
    rt_assert ((heap_ptr h <=? rmem) && (rmem <? heap_ptr h + heap_end h))%bool;;
    let mem := rmem - SIZEOF_STRUCT_MEM - heap_ptr h in
    heap_sem_take;;
    let* m := hdr mem in
    rt_assert (truthy (used m));;
    rt_assert (magic m =? HEAP_MAGIC);;
    upd_hdr mem (with_used 0);;
    upd_hdr mem (with_magic HEAP_MAGIC);;
    (let* lf := gets lfree in when (mem <? lf) (modify (set_lfree mem)));;
    (let* m := hdr mem in sub_used (hnext m - mem));;
    plug_holes mem;;
    heap_sem_release.

(** * rt_realloc *)
Definition rt_realloc (rmem newsize : Z) : H Z :=
  let newsize := RT_ALIGN newsize RT_ALIGN_SIZE in
  let* h := get in
  if mem_size_aligned h <? newsize then ret 0
  else if newsize =? 0 then rt_free rmem;; ret 0
  else if rmem =? 0 then rt_malloc newsize
  else
    heap_sem_take;;
    if ((rmem <? heap_ptr h) || (heap_ptr h + heap_end h <=? rmem))%bool then
      heap_sem_release;; ret rmem
    else
      let ptr := rmem - SIZEOF_STRUCT_MEM - heap_ptr h in
      let* mem := hdr ptr in
      let size := u32 (hnext mem - ptr - SIZEOF_STRUCT_MEM) in
      if size =? newsize then heap_sem_release;; ret rmem
      else if newsize + SIZEOF_STRUCT_MEM + MIN_SIZE <? size then
        (* split memory block *)
        sub_used (size - newsize);;
        let ptr2 := ptr + SIZEOF_STRUCT_MEM + newsize in
        new_hdr ptr2 {| magic := HEAP_MAGIC; used := 0; hnext := hnext mem; hprev := ptr |};;
        upd_hdr ptr (with_next ptr2);;
        when (negb (hnext mem =? mem_size_aligned h + SIZEOF_STRUCT_MEM))
          (upd_hdr (hnext mem) (with_prev ptr2));;
        (let* lf := gets lfree in when (ptr2 <? lf) (modify (set_lfree ptr2)));;
        plug_holes ptr2;;
        heap_sem_release;;
        ret rmem
      else
        heap_sem_release;;
        (* expand memory *)
        let* nmem := rt_malloc newsize in
        when (negb (nmem =? 0))
          (on_ram (rt_memcpy nmem rmem (if size <? newsize then size else newsize));;
           rt_free rmem);;
        ret nmem.

(** * rt_calloc, rt_memory_info *)
Definition rt_calloc (count size : Z) : H Z :=
  let* p := rt_malloc (u32 (count * size)) in
  (if negb (p =? 0) then on_ram (rt_memset p 0 (u32 (count * size)));; ret tt else ret tt);;
  ret p.

Definition rt_memory_info : H (Z * Z * Z) :=
  gets (fun h => (mem_size_aligned h, used_mem h, max_mem h)).

(** * Alignment and its overflow *)

(** the constants of this configuration as numbers *)
Ltac sizes := change SIZEOF_STRUCT_MEM with 16 in *; change MIN_SIZE_ALIGNED with 16 in *;
  change RT_ALIGN_SIZE with 16 in *; change MIN_SIZE with 12 in *.

Lemma land_align x : 0 <= x -> Z.land x (Z.lnot 15) = x / 16 * 16.
Proof.
  intros Hx. change 15 with (Z.ones 4). rewrite <- Z.ldiff_land, Z.ldiff_ones_r by lia.
  rewrite Z.shiftl_mul_pow2, Z.shiftr_div_pow2 by lia. done.
Qed.
Lemma RT_ALIGN_spec size :
  0 <= size <= 4294967280 ->
  size <= RT_ALIGN size RT_ALIGN_SIZE < size + 16 /\ RT_ALIGN size RT_ALIGN_SIZE mod 16 = 0.
Proof.
  intros Hs. unfold RT_ALIGN. sizes. change (16 - 1) with 15. rewrite u32_small by lia.
  rewrite land_align by lia. split; [|by rewrite Z.mod_mul by lia].
  pose proof (Z.div_mod (size + 16 - 1) 16 ltac:(lia)).
  pose proof (Z.mod_pos_bound (size + 16 - 1) 16 ltac:(lia)). lia.
Qed.

(** C40: A request close to 2^32 is wrapped around by RT_ALIGN: it is served
    like a request for one byte instead of being refused. *)
Theorem rt_malloc_wraps (h : heap) (size : Z) :
  4294967280 < size < 4294967296 -> 16 <= mem_size_aligned h -> rt_malloc size h = rt_malloc 1 h.
Proof.
  intros Hs Hm. unfold rt_malloc. rewrite (proj2 (Z.eqb_neq size 0)) by lia.
  assert (E : RT_ALIGN size RT_ALIGN_SIZE = 0).
  { unfold RT_ALIGN. sizes. change (16 - 1) with 15. rewrite land_align by apply u32_range.
    unfold u32. replace (size + 16 - 1) with (size - 4294967281 + 1 * 4294967296) by lia.
    rewrite Z.mod_add, Z.mod_small, Z.div_small by lia. done. }
  rewrite E. change (RT_ALIGN 1 RT_ALIGN_SIZE) with 16. change MIN_SIZE_ALIGNED with 16.
  change (1 =? 0) with false. cbv iota. unfold bind at 1 4, get at 1 3.
  rewrite (proj2 (Z.ltb_ge (mem_size_aligned h) 0)), (proj2 (Z.ltb_ge (mem_size_aligned h) 16)) by lia.
  done.
Qed.
