(* ===== verification/Heap.v ===== *)
(** The allocator of Mem.v is correct: the heap is a list of adjacent blocks,
    free or in use, with no two free blocks in a row; rt_malloc is first fit
    on that list, rt_free joins neighbours, rt_realloc keeps the contents, and
    none of them touches another block that is in use. *)
From S2P Require Import Prelude KService Mem.

(** * The heap as a list of blocks *)

(** a block at the offset [b_off] that ends where the next one starts *)
Record blk := { b_off : Z; b_next : Z; b_used : bool }.
Definition header_of (prev : Z) (b : blk) : heap_mem :=
  {| magic := HEAP_MAGIC; used := Z.b2z (b_used b); hnext := b_next b; hprev := prev |}.

(** from the offset [p] on, the headers describe the adjacent blocks [l] up
    to the offset [fin]; [prev] is the offset of the block before them *)
Fixpoint seg (hs : gmap Z heap_mem) (prev p : Z) (l : list blk) (fin : Z) : Prop :=
  match l with
  | [] => p = fin
  | b :: l => b_off b = p /\ hs !! p = Some (header_of prev b) /\
      p + SIZEOF_STRUCT_MEM + MIN_SIZE_ALIGNED <= b_next b /\ b_next b mod RT_ALIGN_SIZE = 0 /\
      seg hs p (b_next b) l fin
  end.
(** the offset of the lowest free block *)
Fixpoint first_free (l : list blk) (fin : Z) : Z :=
  match l with
  | [] => fin
  | b :: l => if b_used b then first_free l fin else b_off b
  end.
(** no two adjacent blocks are free *)
Fixpoint normal (l : list blk) : Prop :=
  match l with
  | b :: l => match l with
              | n :: _ => (b_used b = true \/ b_used n = true) /\ normal l
              | [] => True
              end
  | [] => True
  end.
(** join adjacent free blocks *)
Definition join (b n : blk) : blk := {| b_off := b_off b; b_next := b_next n; b_used := false |}.
Fixpoint merge (l : list blk) : list blk :=
  match l with
  | [] => []
  | b :: l =>
      match merge l with
      | [] => [b]
      | n :: l' => if (b_used b || b_used n)%bool then b :: n :: l' else join b n :: l'
      end
  end.
Definition set_used (u : bool) (b : blk) : blk :=
  {| b_off := b_off b; b_next := b_next b; b_used := u |}.

(** the bytes in use, headers included, are counted *)
Definition bytes_used (l : list blk) : Z :=
  foldr (fun b n => (if b_used b then b_next b - b_off b else 0) + n) 0 l.

(** the heap [h] consists of the blocks [l] *)
Record heap_rep (h : heap) (l : list blk) : Prop := {
  hr_seg : seg (headers h) 0 0 l (heap_end h);
  hr_end : exists m, headers h !! heap_end h = Some m /\ used m = 1 /\ hnext m = heap_end h;
  hr_size : heap_end h = mem_size_aligned h + SIZEOF_STRUCT_MEM /\ 0 <= mem_size_aligned h;
  hr_base : 0 < heap_ptr h /\ heap_ptr h mod RT_ALIGN_SIZE = 0 /\
    heap_ptr h + heap_end h + SIZEOF_STRUCT_MEM <= 4294967296;
  hr_lfree : lfree h = first_free l (heap_end h);
}.
(** between two operations *)
Record heap_inv (h : heap) (l : list blk) : Prop := {
  hi_rep : heap_rep h l;
  hi_normal : normal l;
  hi_sem : heap_sem h = 1;
  hi_used : used_mem h = bytes_used l;
}.

(** ** Lists of blocks *)
Lemma normal_cons b l : normal (b :: l) -> normal l.
Proof. destruct l as [|n l]; [done|by intros []]. Qed.
Lemma normal_app l k : normal (l ++ k) -> normal l /\ normal k.
Proof.
  induction l as [|b l IH]; cbn; [done|]. destruct l as [|n l]; cbn in *.
  - destruct k; cbn; [done|]. intros []. done.
  - intros [? H]. destruct (IH H). done.
Qed.
Lemma merge_normal l : normal l -> merge l = l.
Proof.
  induction l as [|b l IH]; [done|]. intros Hn. cbn. rewrite IH by (by eapply normal_cons).
  destruct l as [|n l]; [done|]. destruct Hn as [[-> | ->] _]; [done|by rewrite orb_true_r].
Qed.
(** the head of a merged list starts where the list starts *)
Lemma merge_head b l : exists n k, merge (b :: l) = n :: k /\ b_off n = b_off b /\ b_used n = b_used b.
Proof.
  cbn. destruct (merge l) as [|n k]; [by exists b, []|].
  destruct (b_used b) eqn:Eb; cbn; [by exists b, (n :: k)|].
  destruct (b_used n); [by exists b, (n :: k)|]. by exists (join b n), k.
Qed.
Lemma normal_merge l : normal (merge l).
Proof.
  induction l as [|b l IH]; [done|]. cbn. destruct (merge l) as [|n k] eqn:E; [done|].
  destruct (b_used b) eqn:Eb; cbn [orb]; [by split; [left|]|].
  destruct (b_used n) eqn:En; [by split; [right|]|].
  destruct k as [|m k]; [done|]. destruct IH as [[?|Hm] Hk]; [congruence|]. split; [by right|done].
Qed.
Lemma first_free_merge l fin : first_free (merge l) fin = first_free l fin.
Proof.
  induction l as [|b l IH]; [done|]. cbn. rewrite <- IH. destruct (merge l) as [|n k]; [done|].
  destruct (b_used b) eqn:Eb; cbn; [by rewrite Eb|]. destruct (b_used n); cbn; [by rewrite Eb|done].
Qed.
(** merging around a free block in the middle of a normal list *)
Lemma merge_snoc pre p l c k :
  normal (pre ++ [p]) -> merge l = c :: k -> b_used c = false ->
  merge (pre ++ p :: l) = pre ++ (if b_used p then p :: c :: k else join p c :: k).
Proof.
  intros Hn Hm Hc. induction pre as [|x pre IH]; cbn [app].
  - cbn. rewrite Hm, Hc, orb_false_r. by destruct (b_used p).
  - cbn [merge]. rewrite IH by (by eapply normal_cons).
    destruct pre as [|y pre]; cbn in Hn |- *.
    + destruct Hn as [Hxp _]. destruct (b_used p) eqn:Ep; cbn.
      * by rewrite Ep, orb_true_r.
      * destruct Hxp as [-> | ?]; [done|congruence].
    + destruct Hn as [[-> | ->] _]; [done|by rewrite orb_true_r].
Qed.

Lemma first_free_app l k fin : first_free (l ++ k) fin = first_free l (first_free k fin).
Proof. induction l as [|b l IH]; cbn; [done|]. by destruct (b_used b). Qed.
Lemma first_free_used l fin : (forall b, b ∈ l -> b_used b = true) -> first_free l fin = fin.
Proof.
  induction l as [|b l IH]; intros Hl; cbn; [done|]. rewrite (Hl b) by left. apply IH.
  intros x Hx. apply Hl. by right.
Qed.
Lemma bytes_used_app l k : bytes_used (l ++ k) = bytes_used l + bytes_used k.
Proof. induction l as [|b l IH]; cbn; [done|]. unfold bytes_used in *. lia. Qed.
Lemma bytes_used_merge l : bytes_used (merge l) = bytes_used l.
Proof.
  induction l as [|b l IH]; [done|]. unfold bytes_used in *. cbn. rewrite <- IH.
  destruct (merge l) as [|n k]; [done|]. cbn.
  destruct (b_used b) eqn:Eb; cbn; rewrite ?Eb; [done|].
  destruct (b_used n) eqn:En; cbn; rewrite ?Eb, ?En; lia.
Qed.

(** ** Segments *)
Definition last_off (prev : Z) (l : list blk) : Z := default prev (b_off <$> last l).
Lemma last_off_snoc prev l b : last_off prev (l ++ [b]) = b_off b.
Proof. unfold last_off. by rewrite last_snoc. Qed.

Lemma seg_app hs prev p l k fin :
  seg hs prev p (l ++ k) fin <->
  exists mid, seg hs prev p l mid /\ seg hs (last_off prev l) mid k fin.
Proof.
  revert prev p. induction l as [|b l IH]; intros prev p; cbn.
  - split; [by exists p|]. intros (mid & -> & ?). done.
  - rewrite IH. assert (E : last_off p l = last_off prev (b :: l) \/ b_off b <> p).
    { unfold last_off. rewrite last_cons. destruct (decide (b_off b = p)) as [<-|]; [left|by right].
      by destruct (last l). }
    split.
    + intros (H1 & H2 & H3 & H4 & mid & H5 & H6). destruct E as [E|]; [|done].
      rewrite E in H6. eauto 10.
    + intros (mid & (H1 & H2 & H3 & H4 & H5) & H6). destruct E as [E|]; [|done].
      rewrite <- E in H6. eauto 10.
Qed.
Lemma seg_bounds hs prev p l fin b :
  seg hs prev p l fin -> b ∈ l -> p <= b_off b /\ b_off b + 32 <= b_next b /\ b_next b <= fin.
Proof.
  revert prev p. induction l as [|c l IH]; intros prev p Hs Hb; [by apply elem_of_nil in Hb|].
  destruct Hs as (Hc & _ & Hn & _ & Hs). sizes.
  assert (Hle : b_next c <= fin).
  { clear -Hs. revert Hs. generalize (b_next c). generalize p. induction l as [|d l IH]; intros p0 q Hs.
    - cbn in Hs. lia.
    - destruct Hs as (_ & _ & Hn & _ & Hs). sizes. apply IH in Hs. lia. }
  apply elem_of_cons in Hb as [->|Hb]; [lia|].
  destruct (IH _ _ Hs Hb) as (? & ? & ?). lia.
Qed.
Lemma seg_ext hs hs' prev p l fin :
  seg hs prev p l fin -> (forall q, p <= q < fin -> hs' !! q = hs !! q) -> seg hs' prev p l fin.
Proof.
  revert prev p. induction l as [|b l IH]; intros prev p Hs He; [done|].
  pose proof (seg_bounds hs prev p (b :: l) fin b Hs ltac:(left)) as (H1 & H2 & H3).
  destruct Hs as (Hb & Hh & Hn & Ha & Hs). split_and!; [done| |done|done|].
  - rewrite He by lia. done.
  - apply IH; [done|]. intros q Hq. apply He. lia.
Qed.
Lemma seg_length hs prev p l fin : seg hs prev p l fin -> p <= fin /\ Z.of_nat (length l) * 32 <= fin - p.
Proof.
  revert prev p. induction l as [|b l IH]; intros prev p Hs; cbn [length].
  - cbn in Hs. lia.
  - destruct Hs as (_ & _ & Hn & _ & Hs). apply IH in Hs. sizes. lia.
Qed.
(** one header per block *)
Lemma seg_size hs prev p l fin : seg hs prev p l fin -> (length l <= base.size hs)%nat.
Proof.
  revert hs prev p. induction l as [|b l IH]; intros hs prev p Hs; cbn [length]; [lia|].
  pose proof Hs as (Hb & Hh & Hn & _ & Hs'). sizes.
  assert (Hd : seg (delete p hs) p (b_next b) l fin).
  { eapply seg_ext; [exact Hs'|]. intros q Hq. rewrite lookup_delete_ne by lia. done. }
  apply IH in Hd. rewrite map_size_delete_Some in Hd by eauto.
  assert (base.size hs <> 0%nat); [|lia]. intros E. apply map_size_empty_inv in E. subst. by rewrite lookup_empty in Hh.
Qed.
(** the header before a segment is not read by it *)
Lemma seg_aligned hs prev p l fin b :
  seg hs prev p l fin -> p mod RT_ALIGN_SIZE = 0 -> b ∈ l ->
  b_off b mod RT_ALIGN_SIZE = 0 /\ b_next b mod RT_ALIGN_SIZE = 0.
Proof.
  revert prev p. induction l as [|c l IH]; intros prev p Hs Hp Hb; [by apply elem_of_nil in Hb|].
  destruct Hs as (Hc & _ & Hn & Ha & Hs).
  apply elem_of_cons in Hb as [->|Hb]; [by rewrite Hc|]. by eapply IH.
Qed.

(** a segment and the header at its end *)
Definition blocks_ok (hs : gmap Z heap_mem) (prev p : Z) (l : list blk) (fin : Z) : Prop :=
  seg hs prev p l fin /\ exists m, hs !! fin = Some m /\ used m = 1 /\ hnext m = fin.

Lemma blocks_app hs prev p l k fin :
  blocks_ok hs prev p (l ++ k) fin <->
  exists mid, seg hs prev p l mid /\ blocks_ok hs (last_off prev l) mid k fin.
Proof. unfold blocks_ok. rewrite seg_app. naive_solver. Qed.
Lemma blocks_cons hs prev p b l fin :
  b_off b = p -> p + 32 <= b_next b -> b_next b mod 16 = 0 -> blocks_ok hs p (b_next b) l fin ->
  blocks_ok (<[p := header_of prev b]> hs) prev p (b :: l) fin.
Proof.
  intros Hb Hn Ha [Hs (m & Hm & Hu)]. pose proof (seg_length _ _ _ _ _ Hs) as Hl.
  split; [cbn; split_and!|].
  - done.
  - apply lookup_insert_eq.
  - sizes. lia.
  - done.
  - eapply seg_ext; [exact Hs|]. intros q Hq. by rewrite lookup_insert_ne by lia.
  - exists m. by rewrite lookup_insert_ne by lia.
Qed.
(** the header that follows is there, and its prev can be set *)
Lemma blocks_head hs prev p l fin :
  blocks_ok hs prev p l fin -> exists m, hs !! p = Some m /\
    (used m =? 0) = match l with b :: _ => negb (b_used b) | [] => false end /\
    (p =? fin) = match l with _ :: _ => false | [] => true end.
Proof.
  intros [Hs (m & Hm & Hu & Hn)]. destruct l as [|b l].
  - cbn in Hs. subst p. exists m. rewrite Hu, Z.eqb_refl. done.
  - pose proof (seg_bounds hs prev p (b :: l) fin b Hs ltac:(left)) as (? & ? & ?).
    destruct Hs as (Hb & Hh & _). exists (header_of prev b). split_and!; [done| |].
    + cbn. by destruct (b_used b).
    + apply Z.eqb_neq. lia.
Qed.
Lemma blocks_set_prev hs prev p l fin v m :
  blocks_ok hs prev p l fin -> hs !! p = Some m ->
  blocks_ok (<[p := with_prev v m]> hs) v p l fin.
Proof.
  intros [Hs (e & He & Hu & Hn)] Hm. destruct l as [|b l].
  - cbn in Hs. subst p. rewrite Hm in He. injection He as ->. split; [done|].
    exists (with_prev v e). by rewrite lookup_insert_eq.
  - pose proof (seg_bounds hs prev p (b :: l) fin b Hs ltac:(left)) as (? & ? & ?).
    destruct Hs as (Hb & Hh & Hx & Hy & Hs). rewrite Hh in Hm. injection Hm as <-.
    change (with_prev v (header_of prev b)) with (header_of v b).
    apply blocks_cons; [done|sizes; lia|done|]. split; [done|]. by exists e.
Qed.
Lemma blocks_ext hs hs' prev p l fin :
  blocks_ok hs prev p l fin -> (forall q, p <= q -> hs' !! q = hs !! q) -> blocks_ok hs' prev p l fin.
Proof.
  intros [Hs (m & Hm & Hu)] He. pose proof (seg_length _ _ _ _ _ Hs). split.
  - eapply seg_ext; [exact Hs|]. intros q Hq. apply He. lia.
  - exists m. by rewrite He by lia.
Qed.

(** a block is joined with the next one, in the headers *)
Lemma blocks_join hs prev p b n l fin m :
  blocks_ok hs prev p (b :: n :: l) fin -> b_used b = false -> hs !! b_next n = Some m ->
  blocks_ok (<[b_next n := with_prev p m]> (<[p := with_next (b_next n) (header_of prev b)]> hs))
    prev p (join b n :: l) fin.
Proof.
  intros [Hs He] Hb Hm.
  destruct Hs as (Eb & Hh & H1 & H2 & En & Hn & H3 & H4 & Hs). sizes.
  change (with_next (b_next n) (header_of prev b)) with (header_of prev {| b_off := b_off b;
    b_next := b_next n; b_used := b_used b |}).
  replace {| b_off := b_off b; b_next := b_next n; b_used := b_used b |} with (join b n)
    by (unfold join; by rewrite Hb).
  rewrite insert_insert_ne by lia. apply blocks_cons; [done|cbn; lia|done|].
  eapply blocks_set_prev; [split; [exact Hs|exact He]|done].
Qed.

(** ** The primitive operations *)
Lemma hdr_run off m h : headers h !! off = Some m -> hdr off h = Ok (m, h).
Proof. intros H. unfold hdr, bind, get. by rewrite H. Qed.
Lemma upd_hdr_run off f m h :
  headers h !! off = Some m -> upd_hdr off f h = Ok (tt, set_headers (<[off := f m]>) h).
Proof. intros H. unfold upd_hdr. by erewrite bind_run by (by apply hdr_run). Qed.
(** only the headers and the pointer to the lowest free block change *)
Definition headers_only (h h' : heap) : Prop :=
  exists hs lf, h' = set_lfree lf (set_headers (fun _ => hs) h).
Lemma headers_only_trans h1 h2 h3 : headers_only h1 h2 -> headers_only h2 h3 -> headers_only h1 h3.
Proof. intros (a & b & ->) (c & d & ->). by exists c, d. Qed.
Lemma headers_only_refl h : headers_only h h.
Proof. exists (headers h), (lfree h). by destruct h. Qed.
Lemma headers_only_set f h : headers_only h (set_headers f h).
Proof. exists (f (headers h)), (lfree h). by destruct h. Qed.

Lemma first_free_le l fin b : b ∈ l -> (forall c, c ∈ l -> b_off c <= fin) -> first_free l fin <= fin.
Proof.
  intros _ Hl. induction l as [|c l IH]; cbn; [lia|]. destruct (b_used c); [|apply Hl; left].
  apply IH. intros d Hd. apply Hl. by right.
Qed.

(** ** plug_holes joins adjacent free blocks *)
Lemma plug_forward_run h pre b suf :
  blocks_ok (headers h) 0 0 (pre ++ b :: suf) (heap_end h) -> b_used b = false -> normal suf ->
  lfree h <= b_off b ->
  exists h' c k, plug_forward (b_off b) (header_of (last_off 0 pre) b) h = Ok (tt, h') /\
    merge (b :: suf) = c :: k /\ b_off c = b_off b /\ b_used c = false /\ headers_only h h' /\
    lfree h' = lfree h /\ blocks_ok (headers h') 0 0 (pre ++ c :: k) (heap_end h).
Proof.
  intros (mid & Hpre & Hc)%blocks_app Hb Hn Hlf.
  pose proof Hc as [(Eb & Hh & H1 & H2 & Hs) He]. sizes.
  destruct (blocks_head _ _ _ _ _ (conj Hs He)) as (m & Hm & Eu & Ef).
  unfold plug_forward. cbn [header_of hnext].
  erewrite bind_run; [cbv beta|reflexivity]. erewrite bind_run; [cbv beta|by apply hdr_run].
  rewrite Eu, Ef, (proj2 (Z.eqb_neq (b_off b) _)) by lia.
  cbn [merge]. rewrite (merge_normal suf Hn).
  destruct suf as [|n suf]; cbn [negb andb when].
  { exists h, b, []. split_and!; try done; [apply headers_only_refl|]. rewrite blocks_app. by exists mid. }
  destruct (b_used n) eqn:En; cbn [negb andb when]; rewrite Hb; cbn [orb].
  { exists h, b, (n :: suf). split_and!; try done; [apply headers_only_refl|].
    rewrite blocks_app. by exists mid. }
  destruct Hs as (Eo & Hhn & H3 & H4 & Hs). sizes.
  rewrite Hhn in Hm. injection Hm as <-.
  destruct (blocks_head _ _ _ _ _ (conj Hs He)) as (m & Hm & _).
  rewrite bind_assoc. erewrite bind_run; [cbv beta|reflexivity].
  rewrite (proj2 (Z.eqb_neq (lfree h) _)) by lia. cbn [when].
  erewrite bind_run; [cbv beta|reflexivity].
  erewrite bind_run; [cbv beta|apply upd_hdr_run; by rewrite Eb].
  cbn [header_of hnext]. rewrite (upd_hdr_run _ _ m); [|cbn; by rewrite lookup_insert_ne by lia].
  eexists _, (join b n), suf. split_and!; try done.
  - eapply headers_only_trans; apply headers_only_set.
  - rewrite blocks_app. exists mid. cbn [headers set_headers]. split.
    + pose proof (seg_length _ _ _ _ _ Hpre). eapply seg_ext; [exact Hpre|]. intros q Hq.
      rewrite !lookup_insert_ne by lia. done.
    + rewrite Eb. apply blocks_join; done.
Qed.

Lemma plug_backward_run h pre c k :
  blocks_ok (headers h) 0 0 (pre ++ c :: k) (heap_end h) -> b_used c = false -> normal pre ->
  lfree h = first_free pre (b_off c) ->
  exists h', plug_backward (b_off c) h = Ok (tt, h') /\ headers_only h h' /\ lfree h' = lfree h /\
    blocks_ok (headers h') 0 0
      match last pre with
      | Some p => if b_used p then pre ++ c :: k else removelast pre ++ join p c :: k
      | None => c :: k
      end (heap_end h).
Proof.
  intros (mid & Hpre & Hc)%blocks_app Hc0 Hn Hlf.
  pose proof Hc as [(Ec & Hh & H1 & H2 & Hs) He]. sizes.
  unfold plug_backward. erewrite bind_run; [cbv beta|apply hdr_run; rewrite Ec; exact Hh].
  cbn [header_of hprev hnext].
  destruct (last pre) as [p|] eqn:El; [apply last_Some in El as [pre0 ->]|apply last_None in El as ->].
  2: { cbn in Hpre. subst mid. change (last_off 0 []) with 0.
    erewrite bind_run; [cbv beta|by apply hdr_run]. rewrite Ec. cbn [Z.eqb negb andb when].
    exists h. split_and!; try done; apply headers_only_refl. }
  rename pre0 into pre. rewrite last_off_snoc in *.
  pose proof Hpre as Hp. apply seg_app in Hp as (q & Hpre' & (Ep & Hhp & H3 & H4 & Eq)).
  cbn in Eq. sizes. erewrite bind_run; [cbv beta|apply hdr_run; by rewrite Ep].
  cbn [header_of used]. rewrite (proj2 (Z.eqb_neq (b_off p) _)) by lia. cbn [negb andb].
  destruct (b_used p) eqn:Eu; cbn [Z.b2z Z.eqb when].
  { exists h. split_and!; try done; [apply headers_only_refl|]. rewrite blocks_app. exists mid. by rewrite ?last_off_snoc. }
  rewrite bind_assoc. erewrite bind_run; [cbv beta|reflexivity].
  assert (lfree h < b_off c) as Hlt.
  { rewrite Hlf, first_free_app. cbn. rewrite Eu.
    enough (first_free pre (b_off p) <= b_off p) by lia.
    destruct pre as [|x pre]; [cbn; lia|]. apply (first_free_le _ _ x); [left|]. intros d Hd.
    pose proof (seg_bounds _ _ _ _ _ d Hpre' Hd). lia. }
  rewrite (proj2 (Z.eqb_neq (lfree h) _)) by lia. cbn [when].
  erewrite bind_run; [cbv beta|reflexivity].
  destruct (blocks_head _ _ _ _ _ (conj Hs He)) as (m & Hm & _).
  erewrite bind_run; [cbv beta|apply upd_hdr_run; by rewrite Ep].
  rewrite (upd_hdr_run _ _ m); [|cbn; by rewrite lookup_insert_ne by lia].
  eexists. split_and!; [done|eapply headers_only_trans; apply headers_only_set|done|].
  rewrite removelast_last. rewrite blocks_app. exists q. cbn [headers set_headers]. split.
  + eapply seg_ext; [exact Hpre'|]. intros r Hr. by rewrite !lookup_insert_ne by lia.
  + rewrite Ep. apply blocks_join; [|done|done]. split; [|exact He].
  rewrite Eq in H3, H4. cbn [seg]. rewrite Eq. sizes. rewrite Ep in Hh.
    split_and!; done.
Qed.

Lemma heap_rep_chain h l : heap_rep h l -> blocks_ok (headers h) 0 0 l (heap_end h).
Proof. intros [Hs He _ _ _]. by split. Qed.
Lemma heap_rep_bounds h l b : heap_rep h l -> b ∈ l ->
  0 <= b_off b /\ b_off b + 32 <= b_next b /\ b_next b <= heap_end h /\
  b_off b mod 16 = 0 /\ b_next b mod 16 = 0.
Proof.
  intros [Hs _ _ _ _] Hb. destruct (seg_bounds _ _ _ _ _ b Hs Hb) as (? & ? & ?).
  by destruct (seg_aligned _ _ _ _ _ b Hs eq_refl Hb).
Qed.
(** the header of a block in the middle *)
Lemma heap_rep_hdr h pre b suf : heap_rep h (pre ++ b :: suf) ->
  headers h !! b_off b = Some (header_of (last_off 0 pre) b).
Proof.
  intros [(mid & _ & (-> & Hh & _))%seg_app _ _ _ _]. done.
Qed.

Lemma plug_holes_run h pre b suf :
  heap_rep h (pre ++ b :: suf) -> b_used b = false -> normal pre -> normal suf ->
  exists h', plug_holes (b_off b) h = Ok (tt, h') /\ headers_only h h' /\
    heap_rep h' (merge (pre ++ b :: suf)).
Proof.
  intros Hr Hb Hnp Hns. pose proof (heap_rep_bounds _ _ b Hr ltac:(set_solver)) as (Hb1 & Hb2 & Hb3 & _).
  pose proof (heap_rep_hdr _ _ _ _ Hr) as Hh. pose proof Hr as [_ _ Hsz Hbase Hlf].
  rewrite first_free_app in Hlf. cbn in Hlf. rewrite Hb in Hlf.
  assert (Hle : lfree h <= b_off b).
  { rewrite Hlf. destruct pre as [|x pre]; [cbn; lia|]. apply (first_free_le _ _ x); [left|].
    intros d Hd. destruct Hr as [(mid & Hs & (-> & _))%seg_app _ _ _ _].
    pose proof (seg_bounds _ _ _ _ _ d Hs Hd). lia. }
  destruct (plug_forward_run h pre b suf (heap_rep_chain _ _ Hr) Hb Hns Hle)
    as (h1 & c & k & Hrun1 & Hm & Ec & Hc & Ho1 & El1 & Hch1).
  assert (Hend1 : heap_end h1 = heap_end h) by (by destruct Ho1 as (? & ? & ->)).
  rewrite <- Hend1 in Hch1. rewrite <- Ec, <- El1 in Hlf.
  destruct (plug_backward_run h1 pre c k Hch1 Hc Hnp Hlf) as (h2 & Hrun2 & Ho2 & El2 & Hch2).
  exists h2. split_and!.
  - unfold plug_holes. erewrite bind_run; [cbv beta|reflexivity].
    rewrite (proj2 (Z.leb_le _ _)) by lia. erewrite bind_run; [cbv beta|reflexivity].
    rewrite (proj2 (Z.ltb_lt _ _)) by lia. erewrite bind_run; [cbv beta|reflexivity].
    erewrite bind_run; [cbv beta|by apply hdr_run]. cbn [header_of used]. rewrite Hb.
    erewrite bind_run; [cbv beta|reflexivity].
    erewrite bind_run; [cbv beta|exact Hrun1]. by rewrite <- Ec.
  - by eapply headers_only_trans.
  - assert (Hh' : heap_end h2 = heap_end h /\ heap_ptr h2 = heap_ptr h /\
      mem_size_aligned h2 = mem_size_aligned h).
    { destruct Ho1 as (? & ? & ->), Ho2 as (? & ? & ->). done. }
    destruct Hh' as (E1 & E2 & E3).
    assert (El : merge (pre ++ b :: suf) = match last pre with
      | Some p => if b_used p then pre ++ c :: k else removelast pre ++ join p c :: k
      | None => c :: k end).
    { destruct (last pre) as [p|] eqn:Ep.
      - apply last_Some in Ep as [pre0 ->]. rewrite <- app_assoc. cbn [app].
        rewrite (merge_snoc pre0 p (b :: suf) c k Hnp Hm Hc), removelast_last.
        destruct (b_used p); [|done]. by rewrite <- app_assoc.
      - apply last_None in Ep as ->. done. }
    rewrite Hend1 in Hch2. destruct Hch2 as [Hs2 He2].
    split; rewrite ?E1, ?E2, ?E3; try done.
    + by rewrite El.
    + rewrite first_free_merge, first_free_app. cbn. rewrite Hb. rewrite El2, Hlf, Ec. done.
Qed.

(** ** The semaphore and the statistics *)
Lemma heap_sem_take_run h : heap_sem h = 1 -> heap_sem_take h = Ok (tt, set_heap_sem 0 h).
Proof. intros H. unfold heap_sem_take, bind, gets. by rewrite H. Qed.
Lemma heap_sem_release_run h : heap_sem h = 0 -> heap_sem_release h = Ok (tt, set_heap_sem 1 h).
Proof. intros H. unfold heap_sem_release, bind, gets. by rewrite H. Qed.

Lemma bytes_used_bounds hs prev p l fin :
  seg hs prev p l fin -> 0 <= bytes_used l <= fin - p.
Proof.
  revert prev p. induction l as [|b l IH]; intros prev p Hs.
  - cbn in *. lia.
  - pose proof Hs as (Hb & _ & Hn & _ & Hs'). apply IH in Hs'. unfold bytes_used in *. cbn.
    sizes. destruct (b_used b); lia.
Qed.

(** the list of blocks does not depend on the semaphore and statistics *)
Lemma heap_rep_frame h h' l :
  headers h' = headers h -> heap_end h' = heap_end h -> mem_size_aligned h' = mem_size_aligned h ->
  heap_ptr h' = heap_ptr h -> lfree h' = lfree h -> heap_rep h l -> heap_rep h' l.
Proof. intros E1 E2 E3 E4 E5 [H1 H2 H3 H4 H5]. split; by rewrite ?E1, ?E2, ?E3, ?E4, ?E5. Qed.

(** changing the flag of one block *)
Lemma seg_set_used hs prev p pre b suf fin u :
  seg hs prev p (pre ++ b :: suf) fin ->
  seg (<[b_off b := header_of (last_off prev pre) (set_used u b)]> hs) prev p
    (pre ++ set_used u b :: suf) fin.
Proof.
  intros (mid & Hp & (Eb & Hh & H1 & H2 & Hs))%seg_app. rewrite seg_app. exists mid.
  pose proof (seg_length _ _ _ _ _ Hp). sizes. split.
  - eapply seg_ext; [exact Hp|]. intros q Hq. by rewrite lookup_insert_ne by lia.
  - rewrite Eb. split_and!; [done|apply lookup_insert_eq|done|done|].
    eapply seg_ext; [exact Hs|]. intros q Hq. cbn in Hq. by rewrite lookup_insert_ne by lia.
Qed.
Lemma first_free_freed pre b suf fin :
  b_used b = true -> (forall c, c ∈ suf -> b_off b < b_off c) -> b_off b < fin ->
  (forall c, c ∈ pre -> b_off c < b_off b) ->
  first_free (pre ++ set_used false b :: suf) fin =
  if b_off b <? first_free (pre ++ b :: suf) fin then b_off b
  else first_free (pre ++ b :: suf) fin.
Proof.
  intros Hb Hs Hf Hp. rewrite !first_free_app. cbn. rewrite Hb.
  assert (b_off b < first_free suf fin).
  { clear -Hs Hf. induction suf as [|c l IH]; cbn; [done|]. destruct (b_used c); [|apply Hs; left].
    apply IH. intros d Hd. apply Hs. by right. }
  induction pre as [|c pre IH]; cbn; [by rewrite (proj2 (Z.ltb_lt _ _)) by lia|].
  destruct (b_used c) eqn:Ec; [apply IH; intros d Hd; apply Hp; by right|].
  rewrite (proj2 (Z.ltb_ge _ _)); [done|]. specialize (Hp c ltac:(left)). lia.
Qed.

Lemma aligned_land a : a mod 16 = 0 -> Z.land a (RT_ALIGN_SIZE - 1) = 0.
Proof. intros H. sizes. change (16 - 1) with (Z.ones 4). rewrite Z.land_ones by lia. exact H. Qed.
(** the address of the data of the block at [off] *)
Definition data_of (h : heap) (b : blk) : Z := heap_ptr h + b_off b + SIZEOF_STRUCT_MEM.
Lemma data_of_bounds h l b : heap_rep h l -> b ∈ l ->
  data_of h b <> 0 /\ data_of h b mod 16 = 0 /\ heap_ptr h <= data_of h b /\
  data_of h b < heap_ptr h + heap_end h.
Proof.
  intros Hr Hb. destruct (heap_rep_bounds _ _ _ Hr Hb) as (H1 & H2 & H3 & H4 & H5).
  destruct (hr_base _ _ Hr) as (B1 & B2 & B3). unfold data_of. sizes. split_and!; try lia.
  rewrite <- Z.add_assoc, Z.add_mod, B2, (Z.add_mod (b_off b)), H4 by lia. done.
Qed.

Lemma set_lfree_id h : set_lfree (lfree h) h = h.
Proof. by destruct h. Qed.

Lemma rt_free_run h pre b suf :
  heap_inv h (pre ++ b :: suf) -> b_used b = true ->
  exists h', rt_free (data_of h b) h = Ok (tt, h') /\
    heap_inv h' (merge (pre ++ set_used false b :: suf)) /\
    ram h' = ram h /\ heap_ptr h' = heap_ptr h /\ mem_size_aligned h' = mem_size_aligned h /\
    max_mem h' = max_mem h.
Proof.
  intros [Hr Hn Hsem Hus] Hb. assert (Hin : b ∈ pre ++ b :: suf) by set_solver.
  destruct (heap_rep_bounds _ _ _ Hr Hin) as (H1 & H2 & H3 & H4 & H5).
  destruct (data_of_bounds _ _ _ Hr Hin) as (D0 & D1 & D2 & D3).
  pose proof (heap_rep_hdr _ _ _ _ Hr) as Hh.
  apply normal_app in Hn as [Hn1 Hn2]. apply normal_cons in Hn2.
  unfold rt_free. rewrite (proj2 (Z.eqb_neq _ _)) by done.
  erewrite bind_run; [cbv beta|reflexivity].
  rewrite aligned_land by done. erewrite bind_run; [cbv beta|reflexivity].
  rewrite (proj2 (Z.leb_le _ _)), (proj2 (Z.ltb_lt _ _)) by lia.
  erewrite bind_run; [cbv beta|reflexivity].
  replace (data_of h b - SIZEOF_STRUCT_MEM - heap_ptr h) with (b_off b) by (unfold data_of; lia).
  erewrite bind_run; [cbv beta|by apply heap_sem_take_run].
  erewrite bind_run; [cbv beta|by apply hdr_run]. cbn [header_of used magic]. rewrite Hb.
  erewrite bind_run; [cbv beta|reflexivity].
  erewrite bind_run; [cbv beta|reflexivity].
  erewrite bind_run; [cbv beta|by apply upd_hdr_run].
  erewrite bind_run; [cbv beta|apply upd_hdr_run; apply lookup_insert_eq].
  set (b1 := set_used false b). set (l1 := pre ++ b1 :: suf).
  assert (Hs1 : seg (<[b_off b := header_of (last_off 0 pre) b1]> (headers h)) 0 0 l1 (heap_end h)).
  { apply seg_set_used, Hr. }
  change (with_magic HEAP_MAGIC (with_used 0 (header_of (last_off 0 pre) b)))
    with (header_of (last_off 0 pre) b1).
  set (h1 := set_headers _ (set_headers _ (set_heap_sem 0 h))).
  assert (E1 : headers h1 = <[b_off b := header_of (last_off 0 pre) b1]> (headers h))
    by (apply insert_insert_eq).
  set (h2 := set_lfree (if b_off b <? lfree h then b_off b else lfree h) h1).
  erewrite bind_run with (a := tt) (s' := h2); [cbv beta|].
  2: { unfold h2. erewrite bind_run; [cbv beta|reflexivity]. change (lfree h1) with (lfree h).
    destruct (b_off b <? lfree h); [done|]. change (lfree h) with (lfree h1). by rewrite set_lfree_id. }
  erewrite bind_run; [cbv beta|erewrite bind_run; [cbv beta; reflexivity|apply hdr_run; cbn [h2 headers set_lfree]; rewrite E1; apply lookup_insert_eq]].
  set (h3 := set_stats _ _ h2).
  assert (Hr3 : heap_rep h3 l1).
  { destruct Hr as [Hs He Hsz Hbase Hlf]. split; cbn [headers h3 set_stats h2 set_lfree heap_end
      mem_size_aligned heap_ptr lfree]; rewrite ?E1; try done.
    - change (heap_end h1) with (heap_end h). destruct He as (m & Hm & Hx). exists m. rewrite lookup_insert_ne by lia. done.
    - unfold l1, b1. apply seg_app in Hs as (mid & Hp & Hs). pose proof Hs as (Eb & _ & _ & _ & Hs').
      rewrite first_free_freed; [by rewrite Hlf|done|..].
      + intros c Hc. pose proof (seg_bounds _ _ _ _ _ c Hs' Hc). lia.
      + change (heap_end h1) with (heap_end h). lia.
      + intros c Hc. pose proof (seg_bounds _ _ _ _ _ c Hp Hc). lia. }
  destruct (plug_holes_run h3 pre b1 suf Hr3 eq_refl Hn1 Hn2) as (h4 & Hrun & Ho & Hr4).
  erewrite bind_run; [cbv beta|exact Hrun].
  assert (Hf : heap_sem h4 = 0 /\ used_mem h4 = used_mem h3 /\ ram h4 = ram h /\
    heap_ptr h4 = heap_ptr h /\ mem_size_aligned h4 = mem_size_aligned h /\ max_mem h4 = max_mem h)
    by (destruct Ho as (? & ? & ->); done).
  destruct Hf as (F1 & F2 & F3 & F4 & F5 & F6). rewrite heap_sem_release_run by done.
  eexists. split_and!; [reflexivity| |done..]. split; [by apply (heap_rep_frame h4)| |done|].
  - apply normal_merge.
  - cbn. rewrite F2, bytes_used_merge. cbn. rewrite Hus.
    pose proof (bytes_used_bounds _ _ _ _ _ (hr_seg _ _ Hr)) as Hbu.
    destruct (hr_base _ _ Hr) as (B1 & _ & B3). sizes.
    pose proof (bytes_used_bounds _ _ _ _ _ (hr_seg _ _ Hr3)) as Hbu3.
    revert Hbu Hbu3. unfold l1. rewrite !bytes_used_app. cbn. rewrite Hb. cbn in *.
    intros. rewrite u32_small; lia.
Qed.

(** C18: Freeing an allocated block marks it free and joins it with the free
    blocks next to it; all other blocks, and the bytes of memory, stay as they
    are. *)
Theorem rt_free_spec (h : heap) (pre suf : list blk) (b : blk) :
  heap_inv h (pre ++ b :: suf) -> b_used b = true ->
  wp (rt_free (data_of h b)) (fun _ h' =>
    heap_inv h' (merge (pre ++ set_used false b :: suf)) /\
    ram h' = ram h /\ heap_ptr h' = heap_ptr h) h.
Proof.
  intros Hi Hb. destruct (rt_free_run h pre b suf Hi Hb) as (h' & Hrun & ? & ? & ? & _).
  by eapply wp_intro; [exact Hrun|].
Qed.

(** ** Allocation is first fit *)
Definition fits_blk (size : Z) (b : blk) : bool :=
  negb (b_used b) && (size <=? b_next b - (b_off b + SIZEOF_STRUCT_MEM)).
(** the blocks before the first one that fits, that block and the rest; only
    blocks below the offset [limit] are looked at *)
Fixpoint find_fit (limit size : Z) (l : list blk) : option (list blk * blk * list blk) :=
  match l with
  | [] => None
  | b :: l =>
      if negb (b_off b <? limit) then None
      else if fits_blk size b then Some ([], b, l)
      else match find_fit limit size l with
           | Some (pre, c, suf) => Some (b :: pre, c, suf)
           | None => None
           end
  end.
(** a block given out for [size] bytes: its rest stays free if it is big
    enough for a block *)
Definition split_blk (size : Z) (b : blk) : list blk :=
  if size + SIZEOF_STRUCT_MEM + MIN_SIZE_ALIGNED <=? b_next b - (b_off b + SIZEOF_STRUCT_MEM) then
    [{| b_off := b_off b; b_next := b_off b + SIZEOF_STRUCT_MEM + size; b_used := true |};
     {| b_off := b_off b + SIZEOF_STRUCT_MEM + size; b_next := b_next b; b_used := false |}]
  else [set_used true b].

Lemma find_fit_some limit size l pre b suf :
  find_fit limit size l = Some (pre, b, suf) ->
  l = pre ++ b :: suf /\ b_used b = false /\ size <= b_next b - (b_off b + SIZEOF_STRUCT_MEM) /\
  b_off b < limit.
Proof.
  revert pre. induction l as [|c l IH]; intros pre; cbn [find_fit]; [done|].
  destruct (Z.ltb_spec (b_off c) limit); cbn [negb]; [|done].
  destruct (fits_blk size c) eqn:Ef.
  - intros [= <- <- <-]. apply andb_prop in Ef as [E1%negb_true_iff E2%Z.leb_le]. done.
  - destruct (find_fit limit size l) as [[[p x] s]|]; [|done]. intros [= <- <- <-].
    destruct (IH p eq_refl) as (-> & ?). done.
Qed.
Lemma find_fit_skip limit size pre l :
  (forall b, b ∈ pre -> b_used b = true) ->
  (forall b c, b ∈ pre -> c ∈ l -> b_off b < b_off c) ->
  find_fit limit size (pre ++ l) =
  match find_fit limit size l with Some (p, c, suf) => Some (pre ++ p, c, suf) | None => None end.
Proof.
  induction pre as [|b pre IH]; intros Hu Hlt; cbn [app find_fit].
  { by destruct (find_fit limit size l) as [[[p c] s]|]. }
  rewrite IH; [|intros; apply Hu; by right|intros x c Hx; apply Hlt; by right].
  destruct (Z.ltb_spec (b_off b) limit); cbn [negb].
  - unfold fits_blk at 1. rewrite (Hu b) by left. cbn.
    by destruct (find_fit limit size l) as [[[p c] s]|].
  - destruct l as [|c l]; [done|]. cbn [find_fit].
    rewrite (proj2 (Z.ltb_ge (b_off c) limit)); [done|]. specialize (Hlt b c ltac:(left) ltac:(left)). lia.
Qed.

Definition start_of (l : list blk) (fin : Z) : Z := match l with b :: _ => b_off b | [] => fin end.
Lemma blocks_start hs prev p l fin : blocks_ok hs prev p l fin -> start_of l fin = p.
Proof. intros [Hs _]. destruct l; cbn in *; [done|]. by destruct Hs. Qed.

Lemma last_off_cons prev p b l : b_off b = p -> last_off prev (b :: l) = last_off p l.
Proof. intros <-. unfold last_off. rewrite last_cons. by destruct (last l). Qed.

Lemma malloc_loop_run h size rest : forall prev p fuel,
  blocks_ok (headers h) prev p rest (heap_end h) -> 0 <= p -> 0 <= size <= mem_size_aligned h ->
  heap_end h = mem_size_aligned h + SIZEOF_STRUCT_MEM -> heap_end h < 4294967296 ->
  (length rest < fuel)%nat ->
  malloc_loop fuel size p h =
  match find_fit (mem_size_aligned h - size) size rest with
  | Some (pre, b, suf) => malloc_take (b_off b) size (header_of (last_off prev pre) b) h
  | None => (heap_sem_release;; ret 0) h
  end.
Proof.
  induction rest as [|b rest IH]; intros prev p fuel Hc Hp Hsz Hend Hlt Hf;
    (destruct fuel as [|fuel]; cbn [length] in Hf; [lia|]); cbn [malloc_loop find_fit];
    (erewrite bind_run; [cbv beta|reflexivity]); rewrite u32_small by (sizes; lia).
  - destruct Hc as [Hs _]. cbn in Hs. sizes. by rewrite (proj2 (Z.ltb_ge _ _)) by lia.
  - pose proof Hc as [Hs He]. pose proof (seg_bounds _ _ _ _ _ b Hs ltac:(left)) as (? & ? & ?).
    destruct Hs as (Eb & Hh & Hn & Ha & Hs). sizes. rewrite Eb.
    destruct (Z.ltb_spec p (mem_size_aligned h - size)); cbn [negb]; [|done].
    erewrite bind_run; [cbv beta|by apply hdr_run]. unfold fits_blk, user_size.
    cbn [header_of used hnext]. sizes. rewrite u32_small by lia. rewrite Eb.
    destruct (b_used b); cbn [Z.b2z Z.eqb negb andb].
    + rewrite (IH p (b_next b)) by (done || lia || (split; done)).
      destruct (find_fit _ _ rest) as [[[pre c] suf]|]; [|done]. by rewrite (last_off_cons prev p b).
    + destruct (Z.leb_spec size (b_next b - (p + 16))).
      * rewrite Eb. unfold last_off. cbn. done.
      * rewrite (IH p (b_next b)) by (done || lia || (split; done)).
        destruct (find_fit _ _ rest) as [[[pre c] suf]|]; [|done]. by rewrite (last_off_cons prev p b).
Qed.

(** the search for the next free block *)
Lemma advance_lfree_run rest : forall h prev p fuel,
  blocks_ok (headers h) prev p rest (heap_end h) -> lfree h = p -> (length rest < fuel)%nat ->
  advance_lfree fuel h = Ok (tt, set_lfree (first_free rest (heap_end h)) h).
Proof.
  induction rest as [|b rest IH]; intros h prev p fuel Hc Hl Hf;
    (destruct fuel as [|fuel]; cbn [length] in Hf; [lia|]); cbn [advance_lfree first_free];
    (erewrite bind_run; [cbv beta|reflexivity]).
  - destruct Hc as [Hs (m & Hm & Hu & _)]. cbn in Hs. rewrite Hl, Hs.
    erewrite bind_run; [cbv beta|by apply hdr_run]. rewrite Hu, Z.eqb_refl. cbn [truthy Z.eqb negb andb].
    rewrite <- Hs, <- Hl. by rewrite set_lfree_id.
  - pose proof Hc as [Hs He]. pose proof (seg_bounds _ _ _ _ _ b Hs ltac:(left)) as (? & ? & ?).
    destruct Hs as (Eb & Hh & Hn & Ha & Hs). rewrite Hl.
    erewrite bind_run; [cbv beta|by apply hdr_run]. cbn [header_of used hnext].
    rewrite (proj2 (Z.eqb_neq p _)) by lia.
    destruct (b_used b); cbn [Z.b2z truthy Z.eqb negb andb].
    + erewrite bind_run; [cbv beta|reflexivity].
      rewrite (IH _ p (b_next b)); [done|by split|done|lia].
    + rewrite Eb, <- Hl. by rewrite set_lfree_id.
Qed.

Lemma first_free_cases pre : (forall b, b ∈ pre -> b_used b = true) \/
  exists c, c ∈ pre /\ forall k fin, first_free (pre ++ k) fin = b_off c.
Proof.
  induction pre as [|b pre IH]; [left; intros b Hb; by apply elem_of_nil in Hb|].
  destruct (b_used b) eqn:Eb.
  - destruct IH as [Hu|(c & Hc & Hf)].
    + left. intros x [->|Hx]%elem_of_cons; [done|auto].
    + right. exists c. split; [by right|]. intros k fin. cbn. by rewrite Eb.
  - right. exists b. split; [left|]. intros k fin. cbn. by rewrite Eb.
Qed.

(** the headers after a block was split *)
Lemma blocks_split hs prev b suf fin size :
  blocks_ok hs prev (b_off b) (b :: suf) fin -> 16 <= size -> size mod 16 = 0 ->
  b_off b mod 16 = 0 -> size + 16 + 16 <= b_next b - (b_off b + 16) ->
  let off2 := b_off b + 16 + size in
  let b1 := {| b_off := b_off b; b_next := off2; b_used := true |} in
  let b2 := {| b_off := off2; b_next := b_next b; b_used := false |} in
  forall m, hs !! b_next b = Some m ->
  let hs2 := <[b_off b := header_of prev b1]> (<[off2 := header_of (b_off b) b2]> hs) in
  hs2 !! b_next b = Some m /\
  blocks_ok (if b_next b =? fin then hs2 else <[b_next b := with_prev off2 m]> hs2)
    prev (b_off b) (b1 :: b2 :: suf) fin.
Proof.
  intros [(_ & Hh & Hn & Ha & Hs) He] H1 H2 H3 H4 off2 b1 b2 m Hm hs2. sizes.
  assert (Hm2 : hs2 !! b_next b = Some m).
  { unfold hs2. rewrite !lookup_insert_ne by (unfold off2; lia). done. }
  split; [done|].
  assert (Hc : blocks_ok (if b_next b =? fin then hs else <[b_next b := with_prev off2 m]> hs)
    off2 (b_next b) suf fin).
  { destruct (Z.eqb_spec (b_next b) fin) as [E|_].
    - pose proof (seg_length _ _ _ _ _ Hs). destruct suf as [|c suf]; cbn [length] in *; [by split|lia].
    - eapply blocks_set_prev; [split; [exact Hs|exact He]|done]. }
  apply (blocks_cons _ (b_off b) off2 b2) in Hc; [|done|cbn; unfold off2; lia|done].
  apply (blocks_cons _ prev (b_off b) b1) in Hc; [|done|cbn; unfold off2; lia|].
  2: { cbn. unfold off2. rewrite Z.add_mod, (Z.add_mod (b_off b)), H3, H2 by lia. done. }
  eapply blocks_ext; [exact Hc|]. intros q Hq. unfold hs2.
  destruct (b_next b =? fin); rewrite !lookup_insert; repeat case_decide; try done; unfold off2 in *; lia.
Qed.

Lemma carve_run h pre b suf size :
  heap_rep h (pre ++ b :: suf) -> b_used b = false -> 16 <= size -> size mod 16 = 0 ->
  size <= b_next b - (b_off b + 16) ->
  exists hs mx, carve (b_off b) size (header_of (last_off 0 pre) b) h =
      Ok (tt, set_stats (u32 (used_mem h + bytes_used (split_blk size b))) mx
        (set_headers (fun _ => hs) h)) /\
    blocks_ok hs 0 0 (pre ++ split_blk size b ++ suf) (heap_end h).
Proof.
  intros Hr Hb H1 H2 H3. pose proof (heap_rep_bounds _ _ b Hr ltac:(set_solver)) as (B1 & B2 & B3 & B4 & B5).
  pose proof (heap_rep_hdr _ _ _ _ Hr) as Hh.
  destruct (hr_base _ _ Hr) as (B0 & _ & B6). destruct (hr_size _ _ Hr) as [Esz Hsz0].
  pose proof (heap_rep_chain _ _ Hr) as (mid & Hpre & Hc)%blocks_app.
  assert (Em : mid = b_off b) by (by destruct Hc as [(<- & _) _]). subst mid.
  pose proof (seg_length _ _ _ _ _ Hpre) as [Hpl _].
  pose proof Hc as [(_ & _ & _ & _ & Hs) He].
  unfold carve, split_blk, user_size. cbn [header_of hnext]. sizes. rewrite u32_small by lia.
  destruct (Z.leb_spec (size + 16 + 16) (b_next b - (b_off b + 16))).
  - destruct (blocks_head _ _ _ _ _ (conj Hs He)) as (m & Hm & _).
    destruct (blocks_split _ _ _ _ _ size Hc H1 H2 B4 ltac:(lia) m Hm) as [Hm2 Hc2].
    set (off2 := b_off b + 16 + size) in *.
    set (b1 := {| b_off := b_off b; b_next := off2; b_used := true |}) in *.
    set (b2 := {| b_off := off2; b_next := b_next b; b_used := false |}) in *.
    set (hs2 := <[b_off b := _]> _) in *.
    erewrite bind_run; [cbv beta|reflexivity].
    erewrite bind_run; [cbv beta|apply upd_hdr_run; cbn; by rewrite lookup_insert_ne by (unfold off2; lia)].
    erewrite bind_run; [cbv beta|apply upd_hdr_run; apply lookup_insert_eq].
    erewrite bind_run; [cbv beta|reflexivity]. cbn [mem_size_aligned set_headers]. sizes. rewrite <- Esz.
    set (h1 := set_headers _ (set_headers _ _)).
    assert (E1 : h1 = set_headers (fun _ => hs2) h).
    { unfold h1, set_headers. cbn. f_equal. rewrite insert_insert_eq.
      reflexivity. }
    rewrite E1.
    set (hs3 := if b_next b =? heap_end h then hs2 else <[b_next b := with_prev off2 m]> hs2) in *.
    erewrite bind_run with (a := tt) (s' := set_headers (fun _ => hs3) h); [cbv beta|].
    2: { unfold hs3. destruct (b_next b =? heap_end h); [done|]. cbn [negb when].
      by rewrite (upd_hdr_run _ _ m). }
    exists hs3, (if max_mem h <? u32 (used_mem h + (size + 16)) then u32 (used_mem h + (size + 16))
      else max_mem h).
    split.
    + unfold add_used, modify, bytes_used. cbn. unfold off2. do 4 f_equal. lia.
    + rewrite blocks_app. exists (b_off b). split; [|exact Hc2].
      eapply seg_ext; [exact Hpre|]. intros q Hq. unfold hs3, hs2.
      destruct (b_next b =? heap_end h); by rewrite !lookup_insert_ne by (unfold off2; lia).
  - erewrite bind_run; [cbv beta|by apply upd_hdr_run].
    exists (<[b_off b := header_of (last_off 0 pre) (set_used true b)]> (headers h)),
      (if max_mem h <? u32 (used_mem h + (b_next b - b_off b)) then u32 (used_mem h + (b_next b - b_off b))
       else max_mem h).
    split.
    + unfold add_used, modify, bytes_used. cbn. by rewrite Z.add_0_r.
    + split; [apply seg_set_used, Hr|]. destruct He as (m & Hm & Hu). exists m.
      by rewrite lookup_insert_ne by lia.
Qed.

Lemma first_free_head l fin : first_free l fin = fin \/
  exists pre b suf, l = pre ++ b :: suf /\ b_used b = false /\ first_free l fin = b_off b.
Proof.
  induction l as [|b l IH]; cbn; [by left|]. destruct (b_used b) eqn:Eb.
  - destruct IH as [->|(p & c & s & -> & ? & ->)]; [by left|right]. by exists (b :: p), c, s.
  - right. by exists [], b, l.
Qed.
(** a block of a normal list can be split *)
Lemma normal_split size pre b suf :
  normal (pre ++ b :: suf) -> b_used b = false -> normal (pre ++ split_blk size b ++ suf).
Proof.
  intros Hn Hb. assert (Hs : normal (split_blk size b ++ suf) /\
    exists c k, split_blk size b = c :: k /\ b_used c = true).
  { apply normal_app in Hn as [_ Hn]. unfold split_blk. destruct (_ <=? _); cbn [app].
    - split; [|by eexists _, _]. cbn. split; [by left|]. destruct suf as [|d suf]; [done|].
      cbn in Hn. destruct Hn as [[?|Hd] Hn]; [congruence|]. split; [by right|done].
    - split; [|by eexists _, _]. cbn. destruct suf as [|d suf]; [done|]. cbn in Hn. split; [by left|].
      by destruct Hn. }
  destruct Hs as (Hs & c & k & Ek & Hc). rewrite Ek in *.
  apply normal_app in Hn as [Hp _]. clear -Hp Hs Hc. induction pre as [|x pre IH]; [done|].
  cbn [app] in *. pose proof (normal_cons _ _ Hp) as Hp'. specialize (IH Hp').
  destruct pre as [|y pre]; cbn [app] in *; split; try done; [by right|]. by destruct Hp.
Qed.

Lemma malloc_take_run h pre b suf size :
  heap_rep h (pre ++ b :: suf) -> b_used b = false -> 16 <= size -> size mod 16 = 0 ->
  size <= b_next b - (b_off b + 16) -> heap_sem h = 0 -> used_mem h = bytes_used (pre ++ b :: suf) ->
  normal (pre ++ b :: suf) ->
  exists h', malloc_take (b_off b) size (header_of (last_off 0 pre) b) h = Ok (data_of h b, h') /\
    heap_inv h' (pre ++ split_blk size b ++ suf) /\ ram h' = ram h /\ heap_ptr h' = heap_ptr h /\
    mem_size_aligned h' = mem_size_aligned h.
Proof.
  intros Hr Hb H1 H2 H3 Hsem Hus Hn. set (l' := pre ++ split_blk size b ++ suf).
  pose proof (heap_rep_bounds _ _ b Hr ltac:(set_solver)) as (B1 & B2 & B3 & B4 & B5).
  destruct (hr_base _ _ Hr) as (B0 & B6 & B7). destruct (hr_size _ _ Hr) as [Esz Hsz0].
  destruct (carve_run h pre b suf size Hr Hb H1 H2 H3) as (hs & mx & Hrun & Hc).
  set (h1 := set_stats _ mx _) in Hrun. fold l' in Hc.
  (* the block, now used, heads the split *)
  assert (Hhead : exists c k, split_blk size b = c :: k /\ b_off c = b_off b /\ b_used c = true).
  { unfold split_blk. destruct (_ <=? _); [by eexists _, _|by exists (set_used true b), []]. }
  destruct Hhead as (c & k & Ek & Ec & Eu).
  assert (Hch : hs !! b_off b = Some (header_of (last_off 0 pre) c)).
  { unfold l' in Hc. rewrite Ek in Hc. apply blocks_app in Hc as (mid & _ & [(Em & Hh & _) _]).
    by rewrite <- Ec, Em. }
  unfold malloc_take. erewrite bind_run; [cbv beta|exact Hrun].
  erewrite bind_run; [cbv beta|by apply upd_hdr_run].
  change (with_magic HEAP_MAGIC (header_of (last_off 0 pre) c)) with (header_of (last_off 0 pre) c).
  set (h2 := set_headers _ h1).
  assert (E2 : headers h2 = hs) by (cbn; by apply insert_id).
  set (h3 := set_lfree (first_free l' (heap_end h)) h2).
  erewrite bind_run with (a := tt) (s' := h3); [cbv beta|].
  2: { erewrite bind_run; [cbv beta|reflexivity]. change (lfree h2) with (lfree h).
    pose proof (hr_lfree _ _ Hr) as Hlf. destruct (first_free_cases pre) as [Hup|(d & Hd & Hf)].
    - rewrite first_free_app, (first_free_used pre) in Hlf by done. cbn in Hlf. rewrite Hb in Hlf.
      rewrite Hlf, Z.eqb_refl. cbn [when].
      pose proof Hc as (mid & Hp & Hs)%blocks_app.
      pose proof (blocks_start _ _ _ _ _ Hs) as Est. rewrite Ek in Est. cbn in Est.
      assert (Hfuel : (length (split_blk size b ++ suf) <= base.size (headers h2))%nat).
      { rewrite E2. destruct Hs as [Hs _]. by eapply seg_size. }
      erewrite bind_run; [cbv beta|].
      2: { erewrite bind_run; [cbv beta|reflexivity].
        eapply (advance_lfree_run (split_blk size b ++ suf)); [rewrite E2; exact Hs| |lia].
        change (lfree h2) with (lfree h). congruence. }
      change (heap_end h2) with (heap_end h).
      replace (first_free (split_blk size b ++ suf) (heap_end h)) with (first_free l' (heap_end h))
        by (unfold l'; by rewrite first_free_app, (first_free_used pre)).
      fold h3. erewrite bind_run; [cbv beta|reflexivity].
      assert (Hl3 : exists m, headers h3 !! lfree h3 = Some m /\
        ((lfree h3 =? heap_end h3) || (used m =? 0))%bool = true).
      { change (lfree h3) with (first_free l' (heap_end h)). change (headers h3) with (headers h2).
        change (heap_end h3) with (heap_end h). rewrite E2. destruct Hc as [Hcs (me & Hme & _)].
        destruct (first_free_head l' (heap_end h)) as [->|(p1 & x & s1 & -> & Ex & ->)].
        - exists me. by rewrite Z.eqb_refl.
        - apply seg_app in Hcs as (q & _ & (Eq & Hq & _)). rewrite Eq.
          eexists. split; [exact Hq|]. cbn. by rewrite Ex, orb_true_r. }
      destruct Hl3 as (m & Hm & Ha). erewrite bind_run; [cbv beta|by apply hdr_run]. by rewrite Ha.
    - rewrite Hf in Hlf. rewrite (proj2 (Z.eqb_neq _ _)).
      2: { rewrite Hlf. destruct Hr as [(q & Hp & (Eq & _))%seg_app _ _ _ _].
        pose proof (seg_bounds _ _ _ _ _ d Hp Hd). lia. }
      cbn [when ret]. unfold h3, l'. rewrite Hf, <- Hlf. change (lfree h) with (lfree h2).
      by rewrite set_lfree_id. }
  erewrite bind_run; [cbv beta|by apply heap_sem_release_run].
  erewrite bind_run; [cbv beta|reflexivity].
  set (h4 := set_heap_sem 1 h3). change (heap_end h4) with (heap_end h). change (heap_ptr h4) with (heap_ptr h).
  sizes. rewrite (proj2 (Z.leb_le _ _)) by lia. erewrite bind_run; [cbv beta|reflexivity].
  assert (Ha : (heap_ptr h + b_off b + 16) mod 16 = 0).
  { rewrite <- Z.add_assoc, Z.add_mod, B6, (Z.add_mod (b_off b)), B4 by lia. done. }
  rewrite Ha. erewrite bind_run; [cbv beta|reflexivity].
  assert (Hb' : (heap_ptr h + b_off b) mod 16 = 0) by (by rewrite Z.add_mod, B6, B4 by lia).
  apply aligned_land in Hb'. sizes. rewrite Hb'.
  erewrite bind_run; [cbv beta|reflexivity].
  exists h4. split_and!; try done. split; [|by eapply normal_split|done|].
  - destruct Hc as [Hcs Hce]. destruct Hr. split; try done; by change (headers h4) with (headers h2); rewrite E2.
  - change (used_mem h4) with (u32 (used_mem h + bytes_used (split_blk size b))).
    assert (E1 : bytes_used (pre ++ b :: suf) = bytes_used pre + bytes_used suf)
      by (rewrite bytes_used_app; unfold bytes_used; cbn; by rewrite Hb).
    pose proof (bytes_used_bounds _ _ _ _ _ (proj1 Hc)) as Hbb. unfold l' in *.
    rewrite Hus, E1. rewrite !bytes_used_app in Hbb |- *. rewrite u32_small; lia.
Qed.

(** ** The operations *)
Lemma set_heap_sem_id h : heap_sem h = 1 -> set_heap_sem 1 (set_heap_sem 0 h) = h.
Proof. intros H. destruct h. cbn in *. by subst. Qed.

Lemma rt_malloc_run h l size :
  heap_inv h l -> 0 < size <= 4294967280 -> 16 <= mem_size_aligned h ->
  let sz := RT_ALIGN size RT_ALIGN_SIZE in
  exists r h', rt_malloc size h = Ok (r, h') /\
  match find_fit (mem_size_aligned h - sz) sz l with
  | Some (pre, b, suf) => r = data_of h b /\ heap_inv h' (pre ++ split_blk sz b ++ suf) /\
      ram h' = ram h /\ heap_ptr h' = heap_ptr h /\ mem_size_aligned h' = mem_size_aligned h
  | None => r = 0 /\ h' = h
  end.
Proof.
  intros [Hr Hn Hsem Hus] Hsize Hmsa sz. destruct (RT_ALIGN_spec size ltac:(lia)) as [Hsz Hal].
  fold sz in Hsz, Hal. destruct (hr_size _ _ Hr) as [Esz _]. destruct (hr_base _ _ Hr) as (B0 & _ & B7).
  assert (Hszlo : 16 <= sz).
  { pose proof (Z.div_mod sz 16 ltac:(lia)). lia. }
  unfold rt_malloc. rewrite (proj2 (Z.eqb_neq _ _)) by lia. fold sz.
  erewrite bind_run; [cbv beta|reflexivity].
  destruct (Z.ltb_spec (mem_size_aligned h) sz) as [Hbig|Hok].
  { exists 0, h. split; [done|]. destruct l as [|b l]; [done|]. cbn [find_fit].
    destruct (heap_rep_bounds _ _ b Hr ltac:(left)) as (? & _).
    by rewrite (proj2 (Z.ltb_ge _ _)) by lia. }
  change MIN_SIZE_ALIGNED with 16. rewrite (proj2 (Z.ltb_ge _ _)) by lia.
  erewrite bind_run; [cbv beta|by apply heap_sem_take_run].
  erewrite bind_run; [cbv beta|reflexivity].
  set (h1 := set_heap_sem 0 h). change (lfree h1) with (lfree h).
  assert (Hr1 : heap_rep h1 l) by (by apply (heap_rep_frame h)).
  (* the search starts at the lowest free block *)
  assert (Hsplit : exists p rest, l = p ++ rest /\ (forall b, b ∈ p -> b_used b = true) /\
    lfree h = start_of rest (heap_end h)).
  { rewrite (hr_lfree _ _ Hr). clear. induction l as [|b l IH].
    { exists [], []. split_and!; [done|intros b Hb; by apply elem_of_nil in Hb|done]. }
    cbn. destruct (b_used b) eqn:Eb.
    2: { exists [], (b :: l). split_and!; [done|intros c Hc; by apply elem_of_nil in Hc|done]. }
    destruct IH as (p & rest & -> & Hu & ->). exists (b :: p), rest. split_and!; try done.
    intros c [->|Hc]%elem_of_cons; [done|auto]. }
  destruct Hsplit as (p & rest & -> & Hup & Hlf).
  pose proof (heap_rep_chain _ _ Hr1) as (mid & Hp & Hc)%blocks_app.
  pose proof (blocks_start _ _ _ _ _ Hc) as Est. change (heap_end h1) with (heap_end h) in *.
  assert (Hff : find_fit (mem_size_aligned h - sz) sz (p ++ rest) =
    match find_fit (mem_size_aligned h - sz) sz rest with
    | Some (q, c, suf) => Some (p ++ q, c, suf) | None => None end).
  { apply find_fit_skip; [done|]. intros b c Hb Hcr.
    pose proof (seg_bounds _ _ _ _ _ b Hp Hb). pose proof (seg_bounds _ _ _ _ _ c (proj1 Hc) Hcr). lia. }
  pose proof (seg_length _ _ _ _ _ Hp) as [Hp0 _].
  assert (Hfuel : (length rest < S (base.size (headers h1)))%nat).
  { pose proof (seg_size _ _ _ _ _ (proj1 Hc)). lia. }
  assert (Hszr : 0 <= sz <= mem_size_aligned h1) by (cbn; lia).
  rewrite Hlf, Est, (malloc_loop_run h1 sz rest _ _ _ Hc Hp0 Hszr Esz) by (cbn; sizes; lia || done).
  change (mem_size_aligned h1) with (mem_size_aligned h). rewrite Hff.
  destruct (find_fit _ sz rest) as [[[q b] suf]|] eqn:Ef.
  - destruct (find_fit_some _ _ _ _ _ _ Ef) as (-> & Hb & Hfit & _). sizes.
    assert (Elast : last_off (last_off 0 p) q = last_off 0 (p ++ q)).
    { unfold last_off. rewrite last_app. by destruct (last q). }
    rewrite Elast. rewrite app_assoc in Hr1, Hn, Hus.
    destruct (malloc_take_run h1 (p ++ q) b suf sz Hr1 Hb Hszlo Hal ltac:(lia) eq_refl Hus Hn)
      as (h' & Hrun & Hi & F1 & F2 & F3).
    exists (data_of h1 b), h'. split_and!; try done.
  - exists 0, h. split; [|done]. erewrite bind_run; [|by apply heap_sem_release_run].
    cbn. unfold h1. by rewrite set_heap_sem_id.
Qed.

(** C17: rt_malloc is first fit over the blocks of the heap, for every request
    that RT_ALIGN does not wrap around.  It returns NULL and changes nothing
    if no free block below the limit of its loop is big enough; otherwise it
    returns the aligned data of the first such block, which holds the size
    asked for, and leaves the rest of the block free if a block fits in it. *)
Theorem rt_malloc_spec (h : heap) (l : list blk) (size : Z) :
  heap_inv h l -> 0 < size <= 4294967280 -> 16 <= mem_size_aligned h ->
  let sz := RT_ALIGN size RT_ALIGN_SIZE in
  wp (rt_malloc size) (fun r h' =>
    match find_fit (mem_size_aligned h - sz) sz l with
    | Some (pre, b, suf) =>
        l = pre ++ b :: suf /\ b_used b = false /\ r = data_of h b /\ r mod RT_ALIGN_SIZE = 0 /\
        r + size <= heap_ptr h + b_next b /\
        heap_inv h' (pre ++ split_blk sz b ++ suf) /\ ram h' = ram h
    | None => r = 0 /\ h' = h
    end) h.
Proof.
  intros Hi Hsize Hmsa sz. destruct (rt_malloc_run h l size Hi Hsize Hmsa) as (r & h' & Hrun & Hp).
  eapply wp_intro; [exact Hrun|]. fold sz in Hp.
  destruct (find_fit _ sz l) as [[[pre b] suf]|] eqn:Ef; [|done].
  destruct Hp as (-> & Hi' & Hram & _). destruct (find_fit_some _ _ _ _ _ _ Ef) as (-> & Hb & Hfit & _).
  destruct (data_of_bounds h _ b (hi_rep _ _ Hi) ltac:(set_solver)) as (_ & Hal & _).
  destruct (RT_ALIGN_spec size ltac:(lia)) as [Hsz _]. fold sz in Hsz.
  split_and!; try done. unfold data_of. sizes. lia.
Qed.

Lemma merge_eq_app pre l k : merge l = merge k -> merge (pre ++ l) = merge (pre ++ k).
Proof. intros E. induction pre as [|b pre IH]; [done|]. cbn. by rewrite IH. Qed.

(** freeing the block taken out of [b] gives [b] back *)
Lemma split_restores pre b suf size c k :
  normal (pre ++ b :: suf) -> b_used b = false -> split_blk size b = c :: k ->
  b_off c = b_off b /\ b_used c = true /\ merge (pre ++ set_used false c :: k ++ suf) = pre ++ b :: suf.
Proof.
  intros Hn Hb. unfold split_blk. destruct (_ <=? _); intros [= <- <-]; (split_and!; [done..|]).
  - rewrite <- (merge_normal _ Hn). apply merge_eq_app. cbn.
    pose proof (normal_app _ _ Hn) as [_ Hn2]. pose proof (normal_cons _ _ Hn2) as Hn3.
    rewrite (merge_normal _ Hn3). destruct suf as [|d suf]; cbn.
    + unfold join. cbn. by destruct b; cbn in *; subst.
    + destruct Hn2 as [[?|Hd] _]; [congruence|]. rewrite Hd, Hb. cbn. unfold join. cbn.
      by destruct b; cbn in *; subst.
  - rewrite <- (merge_normal _ Hn). do 2 f_equal. unfold set_used. cbn. by destruct b; cbn in *; subst.
Qed.
(** what a caller gets: nothing, or a block of its own that holds the size,
    whose release restores the list *)
Record given (h : heap) (l : list blk) (size r : Z) (h' : heap) (pre : list blk) (c : blk) (suf : list blk) : Prop := {
  gv_addr : r = data_of h' c;
  gv_inv : heap_inv h' (pre ++ c :: suf);
  gv_used : b_used c = true;
  gv_size : data_of h' c + size <= heap_ptr h' + b_next c;
  gv_ram : ram h' = ram h;
  gv_ptr : heap_ptr h' = heap_ptr h;
  gv_end : heap_end h' = heap_end h;
  gv_back : merge (pre ++ set_used false c :: suf) = l;
  gv_from : exists b, b ∈ l /\ b_used b = false /\ data_of h b = r /\ b_next c <= b_next b;
}.
Lemma rt_malloc_given h l size :
  heap_inv h l -> 0 < size <= 4294967280 -> 16 <= mem_size_aligned h ->
  exists r h', rt_malloc size h = Ok (r, h') /\
    (r = 0 /\ h' = h \/ exists pre c suf, given h l size r h' pre c suf).
Proof.
  intros Hi Hsize Hmsa. destruct (rt_malloc_run h l size Hi Hsize Hmsa) as (r & h1 & Hrun & Hp).
  exists r, h1. split; [done|]. set (sz := RT_ALIGN size RT_ALIGN_SIZE) in *.
  destruct (RT_ALIGN_spec size ltac:(lia)) as [Hsz _]. fold sz in Hsz.
  destruct (find_fit _ sz l) as [[[pre b] suf]|] eqn:Ef; [right|by left].
  destruct Hp as (-> & Hi1 & Hram & Eptr & Emsa).
  destruct (find_fit_some _ _ _ _ _ _ Ef) as (-> & Hb & Hfit & _).
  destruct (split_blk sz b) as [|c k] eqn:Ek; [unfold split_blk in Ek; by destruct (_ <=? _)|].
  destruct (split_restores pre b suf sz c k (hi_normal _ _ Hi) Hb Ek) as (Ec & Hcu & Em).
  assert (Hcs : b_off c + SIZEOF_STRUCT_MEM + sz <= b_next c <= b_next b).
  { revert Ek. unfold split_blk. sizes. destruct (Z.leb_spec (sz + 16 + 16) (b_next b - (b_off b + 16)));
      intros [= <- _]; cbn; lia. }
  exists pre, c, (k ++ suf). destruct (hr_size _ _ (hi_rep _ _ Hi)) as [E1 _].
  destruct (hr_size _ _ (hi_rep _ _ Hi1)) as [E2 _].
  split; try done; [by unfold data_of; rewrite Ec, Eptr|unfold data_of; lia|congruence|].
  exists b. split_and!; [set_solver|done|done|lia].
Qed.

(** Freeing what rt_malloc returned restores the list of blocks. *)
Theorem rt_malloc_free (h : heap) (l : list blk) (size : Z) :
  heap_inv h l -> 0 < size <= 4294967280 -> 16 <= mem_size_aligned h ->
  wp (let* p := rt_malloc size in rt_free p) (fun _ h' => heap_inv h' l /\ ram h' = ram h) h.
Proof.
  intros Hi Hsize Hmsa. destruct (rt_malloc_given h l size Hi Hsize Hmsa) as (r & h1 & Hrun & Hp).
  unfold wp. erewrite bind_run; [cbv beta|exact Hrun].
  destruct Hp as [[-> ->]|(pre & c & suf & [-> Hi1 Hcu _ Hram _ _ <- _])]; [done|].
  destruct (rt_free_run h1 pre c suf Hi1 Hcu) as (h2 & -> & Hi2 & Hram2 & _).
  split; [done|congruence].
Qed.

(** After rt_system_heap_init on a region that holds two headers and 16
    bytes, the heap is one free block. *)
Theorem rt_system_heap_init_spec (h : heap) (begin_addr end_addr : Z) :
  0 < begin_addr <= 4294967280 -> end_addr < 4294967296 -> begin_addr + 79 <= end_addr ->
  used_mem h = 0 ->
  wp (rt_system_heap_init begin_addr end_addr) (fun _ h' =>
    heap_inv h' [{| b_off := 0; b_next := heap_end h'; b_used := false |}] /\
    begin_addr <= heap_ptr h' /\ heap_ptr h' + heap_end h' + SIZEOF_STRUCT_MEM <= end_addr /\
    16 <= mem_size_aligned h' /\ ram h' = ram h) h.
Proof.
  intros Hb He Hbe Hu. destruct (RT_ALIGN_spec begin_addr ltac:(lia)) as [Ha Ham].
  assert (Hd : end_addr - 15 <= RT_ALIGN_DOWN end_addr RT_ALIGN_SIZE <= end_addr /\
    RT_ALIGN_DOWN end_addr RT_ALIGN_SIZE mod 16 = 0).
  { unfold RT_ALIGN_DOWN. sizes. change (16 - 1) with 15. rewrite land_align by lia.
    split; [|by rewrite Z.mod_mul by lia]. pose proof (Z.div_mod end_addr 16 ltac:(lia)).
    pose proof (Z.mod_pos_bound end_addr 16 ltac:(lia)). lia. }
  destruct Hd as [Hd Hdm].
  unfold wp, rt_system_heap_init. set (ba := RT_ALIGN _ _) in *. set (ea := RT_ALIGN_DOWN _ _) in *.
  sizes. rewrite (proj2 (Z.ltb_lt _ _)), (proj2 (Z.leb_le _ _)) by lia. cbn [andb modify].
  cbn [heap_end heap_ptr mem_size_aligned ram].
  assert (Hfm : (ea - ba - 2 * 16 + 16) mod 16 = 0).
  { pose proof (Z.div_mod ea 16 ltac:(lia)). pose proof (Z.div_mod ba 16 ltac:(lia)).
    replace (ea - ba - 2 * 16 + 16) with ((ea / 16 - ba / 16 - 1) * 16) by lia.
    apply Z.mod_mul. lia. }
  split_and!; try lia; [|done]. split; [split|..]; cbn [headers heap_end mem_size_aligned heap_ptr lfree
    heap_sem used_mem]; try done.
  - cbn [seg b_off b_next]. rewrite lookup_insert_ne by lia. rewrite lookup_insert_eq.
    sizes. split_and!; try done; lia.
  - eexists. rewrite lookup_insert_eq. done.
  - sizes. lia.
  - sizes. split_and!; try done; lia.
Qed.

(** ** rt_realloc *)
Lemma realloc_split_run {A} (k : H A) h pre b suf size :
  heap_inv h (pre ++ b :: suf) -> b_used b = true -> 0 < size -> size mod 16 = 0 ->
  size + 16 + 12 < b_next b - (b_off b + 16) ->
  let b1 := {| b_off := b_off b; b_next := b_off b + 16 + size; b_used := true |} in
  let b2 := {| b_off := b_off b + 16 + size; b_next := b_next b; b_used := false |} in
  let ptr2 := b_off b + 16 + size in
  let mem := header_of (last_off 0 pre) b in
  exists h', (sub_used (b_next b - (b_off b + 16) - size);;
      new_hdr ptr2 {| magic := HEAP_MAGIC; used := 0; hnext := hnext mem; hprev := b_off b |};;
      upd_hdr (b_off b) (with_next ptr2);;
      when (negb (hnext mem =? mem_size_aligned h + SIZEOF_STRUCT_MEM))
        (upd_hdr (hnext mem) (with_prev ptr2));;
      (let* lf := gets lfree in when (ptr2 <? lf) (modify (set_lfree ptr2)));;
      plug_holes ptr2;; heap_sem_release;; k) (set_heap_sem 0 h) = k h' /\
    heap_inv h' (merge (pre ++ b1 :: b2 :: suf)) /\ ram h' = ram h /\ heap_ptr h' = heap_ptr h.
Proof.
  intros [Hr Hn Hsem Hus] Hb H1 H2 H3 b1 b2 ptr2 mem.
  pose proof (heap_rep_bounds _ _ b Hr ltac:(set_solver)) as (B1 & B2 & B3 & B4 & B5).
  pose proof (heap_rep_hdr _ _ _ _ Hr) as Hh.
  destruct (hr_base _ _ Hr) as (B0 & B6 & B7). destruct (hr_size _ _ Hr) as [Esz Hsz0].
  pose proof (heap_rep_chain _ _ Hr) as (mid & Hpre & Hc)%blocks_app.
  assert (Em : mid = b_off b) by (by destruct Hc as [(<- & _) _]). subst mid.
  pose proof (seg_length _ _ _ _ _ Hpre) as [Hpl _].
  pose proof Hc as [(_ & _ & _ & _ & Hs) He].
  assert (Hsz : 16 <= size /\ size + 16 + 16 <= b_next b - (b_off b + 16)).
  { pose proof (Z.div_mod size 16 ltac:(lia)). pose proof (Z.div_mod (b_off b) 16 ltac:(lia)).
    pose proof (Z.div_mod (b_next b) 16 ltac:(lia)). lia. }
  destruct (blocks_head _ _ _ _ _ (conj Hs He)) as (m & Hm & _).
  destruct (blocks_split _ _ _ _ _ size Hc ltac:(lia) H2 B4 ltac:(lia) m Hm) as [Hm2 Hc2].
  fold ptr2 b1 b2 in Hm2, Hc2. set (hs2 := <[b_off b := _]> _) in *.
  erewrite bind_run; [cbv beta|reflexivity]. erewrite bind_run; [cbv beta|reflexivity].
  erewrite bind_run; [cbv beta|apply upd_hdr_run; cbn; by rewrite lookup_insert_ne by (unfold ptr2; lia)].
  set (h1 := set_headers _ (set_headers _ _)).
  assert (E1 : headers h1 = hs2).
  { cbn. unfold hs2, b1, b2, ptr2, header_of, with_next. cbn. by rewrite Hb. }
  set (hs3 := if b_next b =? heap_end h then hs2 else <[b_next b := with_prev ptr2 m]> hs2) in *.
  set (h2 := set_headers (fun _ => hs3) h1).
  erewrite bind_run with (a := tt) (s' := h2); [cbv beta|].
  2: { cbn [mem header_of hnext]. rewrite <- Esz. unfold h2, hs3. destruct (b_next b =? heap_end h); cbn [negb when].
    - rewrite <- E1. done.
    - rewrite (upd_hdr_run _ _ m) by (by rewrite E1). unfold set_headers at 1 2. by rewrite E1. }
  set (h3 := set_lfree (first_free (pre ++ b1 :: b2 :: suf) (heap_end h)) h2).
  erewrite bind_run with (a := tt) (s' := h3); [cbv beta|].
  2: { erewrite bind_run; [cbv beta|reflexivity]. change (lfree h2) with (lfree h).
    pose proof (hr_lfree _ _ Hr) as Hlf. unfold h3. destruct (first_free_cases pre) as [Hup|(d & Hd & Hf)].
    - rewrite first_free_app, (first_free_used pre) in Hlf |- * by done. cbn in Hlf |- *. rewrite Hb in Hlf.
      assert (ptr2 < lfree h).
      { rewrite Hlf. destruct (first_free_head suf (heap_end h)) as [->|(p1 & x & s1 & -> & _ & ->)]; [unfold ptr2; lia|].
        pose proof (seg_bounds _ _ _ _ _ x Hs ltac:(set_solver)). unfold ptr2. lia. }
      by rewrite (proj2 (Z.ltb_lt _ _)) by lia.
    - rewrite Hf in Hlf |- *. rewrite (proj2 (Z.ltb_ge _ _)).
      2: { pose proof (seg_bounds _ _ _ _ _ d Hpre Hd). unfold ptr2. lia. }
      cbn [when ret]. rewrite <- Hlf. change (lfree h) with (lfree h2). by rewrite set_lfree_id. }
  assert (Hch : blocks_ok hs3 0 0 (pre ++ b1 :: b2 :: suf) (heap_end h)).
  { rewrite blocks_app. exists (b_off b). split; [|exact Hc2].
    eapply seg_ext; [exact Hpre|]. intros q Hq. unfold hs3, hs2.
    destruct (b_next b =? heap_end h); by rewrite !lookup_insert_ne by (unfold ptr2; lia). }
  assert (Hr3 : heap_rep h3 ((pre ++ [b1]) ++ b2 :: suf)).
  { rewrite <- app_assoc. cbn [app]. destruct Hch as [Hcs Hce]. destruct Hr. by split. }
  apply normal_app in Hn as [Hn1 Hn2]. pose proof (normal_cons _ _ Hn2) as Hn3.
  assert (Hnp : normal (pre ++ [b1])).
  { clear -Hn1. induction pre as [|x pre IH]; [done|]. cbn [app]. pose proof (normal_cons _ _ Hn1) as H.
    specialize (IH H). destruct pre as [|y pre]; cbn [app] in *; (split; [|exact IH]); [by right|by destruct Hn1]. }
  destruct (plug_holes_run h3 (pre ++ [b1]) b2 suf Hr3 eq_refl Hnp Hn3) as (h4 & Hrun & Ho & Hr4).
  erewrite bind_run; [cbv beta|exact Hrun].
  assert (Hf : heap_sem h4 = 0 /\ used_mem h4 = used_mem h3 /\ ram h4 = ram h /\ heap_ptr h4 = heap_ptr h)
    by (destruct Ho as (? & ? & ->); done).
  destruct Hf as (F1 & F2 & F3 & F4). erewrite bind_run; [cbv beta|by apply heap_sem_release_run].
  rewrite <- app_assoc in Hr4. cbn [app] in Hr4.
  eexists. split_and!; [reflexivity| |done..]. split; [by apply (heap_rep_frame h4)|apply normal_merge|done|].
  change (used_mem (set_heap_sem 1 h4)) with (used_mem h4). rewrite F2, bytes_used_merge.
  pose proof (bytes_used_bounds _ _ _ _ _ (proj1 Hch)) as Hbb.
  change (used_mem h3) with (u32 (used_mem h - (b_next b - (b_off b + 16) - size))).
  assert (Eb : bytes_used (pre ++ b1 :: b2 :: suf) = bytes_used pre + (16 + size + bytes_used suf)).
  { rewrite bytes_used_app. unfold bytes_used. cbn. lia. }
  assert (Eo : bytes_used (pre ++ b :: suf) = bytes_used pre + (b_next b - b_off b + bytes_used suf)).
  { rewrite bytes_used_app. unfold bytes_used. cbn. rewrite Hb. lia. }
  rewrite Hus, Eo. rewrite Eb in Hbb |- *. sizes. rewrite u32_small; lia.
Qed.

Lemma merge_used l d : d ∈ l -> b_used d = true -> d ∈ merge l.
Proof.
  induction l as [|b l IH]; intros Hd Hu; [by apply elem_of_nil in Hd|]. cbn.
  apply elem_of_cons in Hd as [->|Hd].
  - rewrite Hu. cbn. destruct (merge l); left.
  - specialize (IH Hd Hu). destruct (merge l) as [|n k]; [by apply elem_of_nil in IH|].
    destruct (b_used b || b_used n)%bool eqn:E; [by right|].
    apply orb_false_iff in E as [_ En]. apply elem_of_cons in IH as [->|IH]; [congruence|by right].
Qed.
Lemma seg_disjoint hs prev p l fin b c :
  seg hs prev p l fin -> b ∈ l -> c ∈ l -> b <> c -> b_next b <= b_off c \/ b_next c <= b_off b.
Proof.
  revert prev p. induction l as [|d l IH]; intros prev p Hs Hb Hc Hne; [by apply elem_of_nil in Hb|].
  destruct Hs as (Hd & _ & Hn & _ & Hs).
  apply elem_of_cons in Hb as [->|Hb], Hc as [->|Hc]; [done|..|by eapply IH].
  - left. by destruct (seg_bounds _ _ _ _ _ c Hs Hc).
  - right. by destruct (seg_bounds _ _ _ _ _ b Hs Hb).
Qed.
(** the bytes of the heap are there *)
Definition heap_bytes (h : heap) : Prop :=
  byte_mem (ram h) /\ mapped (ram h) (heap_ptr h) (heap_end h).
Lemma heap_inv_ram h l r : heap_inv h l -> heap_inv (set_ram r h) l.
Proof. intros [Hr ? ? ?]. split; try done. by apply (heap_rep_frame h). Qed.
Lemma heap_bytes_sub h l b a n :
  heap_rep h l -> heap_bytes h -> b ∈ l -> 0 <= n -> data_of h b <= a -> a + n <= heap_ptr h + b_next b ->
  mapped (ram h) a n.
Proof.
  intros Hr [_ Hm] Hb Hn H1 H2. destruct (heap_rep_bounds _ _ _ Hr Hb) as (? & ? & ? & _).
  unfold data_of in *. sizes. eapply mapped_sub; [exact Hm|lia..].
Qed.
Definition blk_size (b : blk) : Z := b_next b - (b_off b + SIZEOF_STRUCT_MEM).
Lemma split_head size b : size <= blk_size b -> exists c k, split_blk size b = c :: k /\
  b_off c = b_off b /\ b_used c = true /\ size <= blk_size c.
Proof.
  intros Hs. unfold split_blk. destruct (_ <=? _).
  - eexists _, _. split; [done|]. unfold blk_size. cbn. split_and!; [done..|lia].
  - by exists (set_used true b), [].
Qed.

(** the block is moved: allocate, copy, free *)
Lemma realloc_move_run h pre b suf newsize :
  heap_inv h (pre ++ b :: suf) -> b_used b = true -> heap_bytes h -> 16 <= mem_size_aligned h ->
  0 < newsize <= 4294967280 -> newsize mod 16 = 0 ->
  let n := if blk_size b <? newsize then blk_size b else newsize in
  exists r h' l', (let* nmem := rt_malloc newsize in
      when (negb (nmem =? 0)) (on_ram (rt_memcpy nmem (data_of h b) n);; rt_free (data_of h b));;
      ret nmem) h = Ok (r, h') /\ heap_inv h' l' /\
    (r = 0 /\ h' = h \/
     (exists c, c ∈ l' /\ b_used c = true /\ r = data_of h' c /\ newsize <= blk_size c) /\
     copied (ram h) (ram h') r (data_of h b) n /\
     (forall d, d ∈ pre ++ suf -> b_used d = true -> d ∈ l')).
Proof.
  intros Hi Hb Hbytes Hmsa Hns Hal n. pose proof (hi_rep _ _ Hi) as Hr.
  destruct (rt_malloc_run h _ newsize Hi Hns Hmsa) as (r & h1 & Hrun & Hp).
  erewrite bind_run; [cbv beta|exact Hrun].
  assert (Esz : RT_ALIGN newsize RT_ALIGN_SIZE = newsize).
  { destruct (RT_ALIGN_spec newsize ltac:(lia)) as [? Hm]. set (z := RT_ALIGN newsize RT_ALIGN_SIZE) in *.
    clearbody z. pose proof (Z.div_mod z 16 ltac:(lia)). pose proof (Z.div_mod newsize 16 ltac:(lia)). lia. }
  rewrite Esz in Hp.
  destruct (find_fit _ newsize _) as [[[p' b'] s']|] eqn:Ef.
  2: { destruct Hp as [-> ->]. exists 0, h, (pre ++ b :: suf). split_and!; [done|done|by left]. }
  destruct Hp as (-> & Hi1 & Hram & Eptr & _).
  destruct (find_fit_some _ _ _ _ _ _ Ef) as (El & Hb' & Hfit & _).
  assert (Hbin : b ∈ pre ++ b :: suf) by set_solver.
  assert (Hbin' : b' ∈ pre ++ b :: suf) by (rewrite El; set_solver).
  assert (Hne : b <> b') by congruence.
  pose proof (seg_disjoint _ _ _ _ _ b b' (hr_seg _ _ Hr) Hbin Hbin' Hne) as Hdis.
  destruct (heap_rep_bounds _ _ b Hr Hbin) as (? & ? & ? & _).
  destruct (heap_rep_bounds _ _ b' Hr Hbin') as (? & ? & ? & _).
  assert (Hn : 0 <= n <= newsize /\ n <= blk_size b).
  { unfold n, blk_size. sizes. destruct (Z.ltb_spec (b_next b - (b_off b + 16)) newsize); lia. }
  unfold blk_size in Hn.
  destruct (rt_memcpy_run (ram h1) (data_of h b') (data_of h b) n) as (rm & Hcp & Hcopy).
  { rewrite Hram. eapply (heap_bytes_sub h); [exact Hr|done|exact Hbin|unfold data_of in *; sizes; lia..]. }
  { rewrite Hram. eapply (heap_bytes_sub h); [exact Hr|done|exact Hbin'|unfold data_of in *; sizes; lia..]. }
  { rewrite Hram. apply Hbytes. } { lia. } { unfold data_of in *. sizes. lia. }
  destruct (data_of_bounds _ _ _ Hr Hbin') as (D0 & _). rewrite (proj2 (Z.eqb_neq _ _)) by done.
  cbn [negb when]. rewrite bind_assoc.
  erewrite bind_run; [cbv beta|unfold on_ram; rewrite Hcp; reflexivity].
  pose proof (heap_inv_ram _ _ rm Hi1) as Hi1'. set (h2 := set_ram rm h1) in *.
  (* the old block is still there *)
  assert (Hold : forall d, d ∈ pre ++ b :: suf -> b_used d = true -> d ∈ p' ++ split_blk newsize b' ++ s').
  { intros d Hd Hu. rewrite El in Hd. rewrite !elem_of_app, elem_of_cons in Hd. rewrite !elem_of_app.
    destruct Hd as [?|[->|?]]; [tauto|congruence|tauto]. }
  destruct (split_head newsize b' Hfit) as (c & k & Ek & Ec & Hcu & Hcs).
  assert (Hc1 : c ∈ p' ++ split_blk newsize b' ++ s') by (rewrite Ek; set_solver).
  pose proof (Hold b Hbin Hb) as Hb1. apply list_elem_of_split in Hb1 as (p1 & s1 & El1).
  rewrite El1 in Hi1', Hc1, Hold.
  destruct (rt_free_run h2 p1 b s1 Hi1' Hb) as (h3 & Hrun3 & Hi3 & Hram3 & Eptr3 & _).
  assert (Eptr2 : heap_ptr h2 = heap_ptr h) by exact Eptr.
  replace (data_of h2 b) with (data_of h b) in Hrun3 by (unfold data_of; by rewrite Eptr2).
  erewrite bind_run; [cbv beta|exact Hrun3].
  assert (Hkeep : forall d, d ∈ p1 ++ b :: s1 -> d <> b -> b_used d = true ->
    d ∈ merge (p1 ++ set_used false b :: s1)).
  { intros d Hd Hdb Hu. apply merge_used; [|done]. rewrite !elem_of_app, !elem_of_cons in Hd |- *. tauto. }
  exists (data_of h b'), h3, (merge (p1 ++ set_used false b :: s1)). split_and!; [done|done|right].
  split_and!.
  - exists c. split_and!; [|done| |done].
    + apply Hkeep; [done| |done]. intros ->. lia.
    + unfold data_of. rewrite Eptr3, Eptr2, Ec. done.
  - rewrite Hram3. change (ram h2) with rm. by rewrite <- Hram.
  - intros d Hd Hu. apply Hkeep; [|intros ->|done].
    + apply Hold; [|done]. rewrite !elem_of_app, !elem_of_cons in *. tauto.
    + pose proof (hr_seg _ _ Hr) as Hs. apply seg_app in Hs as (q & Hs1 & (Eq & _ & _ & _ & Hs2)).
      apply elem_of_app in Hd as [Hd|Hd]; [pose proof (seg_bounds _ _ _ _ _ b Hs1 Hd)|
        pose proof (seg_bounds _ _ _ _ _ b Hs2 Hd)]; lia.
Qed.

