(* ===== verification/HeapExamples.v ===== *)
(** The theorems of Heap.v applied to a concrete heap of 256 bytes. *)
From S2P Require Import Prelude KService Mem Heap.

Definition heap_start : heap := {| headers := ∅; heap_ptr := 0; heap_end := 0; lfree := 0;
  heap_sem := 0; mem_size_aligned := 0; used_mem := 0; max_mem := 0; ram := fill 256 256 7 ∅ |}.
(** the heap after a run that succeeds *)
Definition heap_after {A} (m : H A) (h : heap) : heap :=
  match m h with Ok (_, h') => h' | Fault _ => heap_start end.
(** one free block *)
Definition heap0 : heap := heap_after (rt_system_heap_init 256 512) heap_start.
(** two blocks in use and a free one *)
Definition heap2 : heap := heap_after (rt_malloc 20;; rt_malloc 40) heap0.

Definition block (off next : Z) (u : bool) : blk := {| b_off := off; b_next := next; b_used := u |}.

(** the fields of an invariant of a concrete heap *)
Definition end_header : heap_mem := header_of 240 (block 240 240 true).
Ltac concrete_field :=
  lazymatch goal with
  | |- _ /\ _ => split; concrete_field
  | |- True => exact I
  | |- exists _, _ => exists end_header; concrete_field
  | |- _ \/ _ => first [left; concrete_field; fail | right; concrete_field]
  | |- _ <= _ => vm_compute; discriminate
  | |- _ = _ => vm_compute; reflexivity
  | |- _ => vm_compute; reflexivity
  end.
Ltac concrete_heap := split; [split; cbn [seg block b_off b_next] | cbn [normal block b_used] | ..]; concrete_field.

Lemma heap0_inv : heap_inv heap0 [block 0 240 false].
Proof. concrete_heap. Qed.
Lemma heap2_inv : heap_inv heap2 [block 0 48 true; block 48 112 true; block 112 240 false].
Proof. concrete_heap. Qed.

Lemma mapped_range a n v m : 0 <= a -> a + Z.of_nat n <= 4294967296 -> mapped (fill n a v m) a (Z.of_nat n).
Proof.
  intros Ha Hn. split_and!; [done..|]. intros x Hx. rewrite lookup_fill, decide_True by lia. by eexists.
Qed.
Lemma heap2_bytes : heap_bytes heap2.
Proof.
  unfold heap_bytes. assert (E : ram heap2 = fill 256 256 7 ∅) by (vm_compute; reflexivity). rewrite E.
  split.
  - intros x b. rewrite lookup_fill. case_decide; [|by rewrite lookup_empty]. intros [= <-]. lia.
  - change (heap_ptr heap2) with 256. change (heap_end heap2) with 240.
    apply (mapped_sub _ 256 256); [by apply (mapped_range 256)|lia..].
Qed.

Lemma rt_malloc_wraps_witness : rt_malloc 4294967285 heap2 = rt_malloc 1 heap2.
Proof. apply (rt_malloc_wraps heap2 4294967285); [lia|vm_compute; discriminate]. Defined.

Lemma rt_malloc_spec_witness :
  wp (rt_malloc 50) (fun r h' => r = 384 /\
    heap_inv h' [block 0 48 true; block 48 112 true; block 112 192 true; block 192 240 false]) heap2.
Proof.
  eapply wp_mono; [apply (rt_malloc_spec heap2 _ 50 heap2_inv); [lia|vm_compute; discriminate]|].
  intros r h'. change (find_fit _ _ _) with
    (Some ([block 0 48 true; block 48 112 true], block 112 240 false, @nil blk)).
  intros (_ & _ & -> & _ & _ & Hi & _). split; [vm_compute; reflexivity|exact Hi].
Defined.

(** the first block is freed, and the second one joins its neighbours *)
Lemma rt_free_spec_witness :
  wp (rt_free 320) (fun _ h' => heap_inv h' [block 0 48 true; block 48 240 false]) heap2.
Proof.
  eapply wp_mono; [apply (rt_free_spec heap2 [block 0 48 true] [block 112 240 false]
    (block 48 112 true)); [exact heap2_inv|reflexivity]|].
  intros r h' (Hi & _). exact Hi.
Defined.

Lemma rt_malloc_free_witness :
  wp (let* p := rt_malloc 50 in rt_free p) (fun _ h' =>
    heap_inv h' [block 0 48 true; block 48 112 true; block 112 240 false]) heap2.
Proof.
  eapply wp_mono; [apply (rt_malloc_free heap2 _ 50 heap2_inv); [lia|vm_compute; discriminate]|].
  intros r h' (Hi & _). exact Hi.
Defined.

Lemma rt_system_heap_init_spec_witness :
  wp (rt_system_heap_init 261 509) (fun _ h' =>
    heap_inv h' [block 0 (heap_end h') false] /\ ram h' = ram heap_start) heap_start.
Proof.
  eapply wp_mono; [apply (rt_system_heap_init_spec heap_start 261 509); [lia..|reflexivity]|].
  intros r h' (Hi & _ & _ & _ & Hr). exact (conj Hi Hr).
Defined.

