(* ===== verification/KString.v ===== *)
(** The C string functions of rt-thread/kernel/src/kservice.c on the byte
    memory of [KService], and the aligned allocation that builds on the heap.
    A plain [char] is unsigned on RISC-V, so a loaded byte is the value of a
    character; [int] results are 32-bit. *)
From S2P Require Import Prelude KService Mem Heap.

(** A loop over a string reads a new mapped byte in every turn, so the number
    of mapped bytes is enough fuel. *)
Definition str_fuel : M mem nat := gets (fun m => S (base.size m)).

(** * rt_strlen, rt_strnlen *)
Fixpoint strlen_loop (fuel : nat) (s sc : Z) : M mem Z :=
  match fuel with
  | O => raise OutOfFuel
  | S fuel =>
      let* c := ld8 sc in
      if c =? 0 then ret (u32 (sc - s)) else strlen_loop fuel s (sc + 1)
  end.
Definition rt_strlen (s : Z) : M mem Z :=
  let* fuel := str_fuel in strlen_loop fuel s s.

(** the character is read before the length is checked *)
Fixpoint strnlen_loop (fuel : nat) (s sc maxlen : Z) : M mem Z :=
  match fuel with
  | O => raise OutOfFuel
  | S fuel =>
      let* c := ld8 sc in
      if (negb (c =? 0) && (u32 (sc - s) <? maxlen))%bool
      then strnlen_loop fuel s (sc + 1) maxlen
      else ret (u32 (sc - s))
  end.
Definition rt_strnlen (s maxlen : Z) : M mem Z :=
  let* fuel := str_fuel in strnlen_loop fuel s s maxlen.

(** * rt_strcmp, rt_strncmp, rt_strcasecmp *)
Fixpoint strcmp_loop (fuel : nat) (cs ct : Z) : M mem Z :=
  match fuel with
  | O => raise OutOfFuel
  | S fuel =>
      let* a := ld8 cs in
      let* more := (if negb (a =? 0) then let* b := ld8 ct in ret (a =? b) else ret false) in
      if (more : bool) then strcmp_loop fuel (cs + 1) (ct + 1)
      else let* b := ld8 ct in ret (a - b)
  end.
Definition rt_strcmp (cs ct : Z) : M mem Z :=
  let* fuel := str_fuel in strcmp_loop fuel cs ct.

(** the difference is stored in a [signed char] *)
Fixpoint strncmp_loop (fuel : nat) (cs ct count res : Z) : M mem Z :=
  match fuel with
  | O => raise OutOfFuel
  | S fuel =>
      if count =? 0 then ret res
      else
        let* a := ld8 cs in let* b := ld8 ct in
        let res := s8 (a - b) in
        if (negb (res =? 0) || (a =? 0))%bool then ret res
        else strncmp_loop fuel (cs + 1) (ct + 1) (count - 1) res
  end.
Definition rt_strncmp (cs ct count : Z) : M mem Z :=
  let* fuel := str_fuel in strncmp_loop fuel cs ct count 0.

Definition to_lower (c : Z) : Z := if (65 <=? c) && (c <=? 90) then c + 32 else c.
Fixpoint strcasecmp_loop (fuel : nat) (a b : Z) : M mem Z :=
  match fuel with
  | O => raise OutOfFuel
  | S fuel =>
      let* ca := ld8 a in let* cb := ld8 b in
      let ca := to_lower ca in let cb := to_lower cb in
      if ((ca =? cb) && negb (ca =? 0))%bool then strcasecmp_loop fuel (a + 1) (b + 1)
      else ret (ca - cb)
  end.
Definition rt_strcasecmp (a b : Z) : M mem Z :=
  let* fuel := str_fuel in strcasecmp_loop fuel a b.

(** * rt_strncpy *)
(** while (--n != 0) *d++ = 0 *)
Fixpoint strncpy_pad (fuel : nat) (d n : Z) : M mem unit :=
  match fuel with
  | O => raise OutOfFuel
  | S fuel =>
      let n := u32 (n - 1) in
      if n =? 0 then ret tt else st8 d 0;; strncpy_pad fuel (d + 1) n
  end.
Fixpoint strncpy_loop (fuel : nat) (d s n : Z) : M mem unit :=
  match fuel with
  | O => raise OutOfFuel
  | S fuel =>
      let* c := ld8 s in
      st8 d c;;
      if c =? 0 then strncpy_pad (S fuel) (d + 1) n
      else
        let n := u32 (n - 1) in
        if n =? 0 then ret tt else strncpy_loop fuel (d + 1) (s + 1) n
  end.
Definition rt_strncpy (dst src n : Z) : M mem Z :=
  when (negb (n =? 0)) (strncpy_loop (Z.to_nat n) dst src n);; ret dst.

(** * rt_strstr *)
Fixpoint strstr_loop (fuel : nat) (s1 s2 l1 l2 : Z) : M mem Z :=
  match fuel with
  | O => raise OutOfFuel
  | S fuel =>
      if l2 <=? l1 then
        let l1 := l1 - 1 in
        let* r := rt_memcmp s1 s2 l2 in
        if r =? 0 then ret s1 else strstr_loop fuel (s1 + 1) s2 l1 l2
      else ret 0
  end.
Definition rt_strstr (s1 s2 : Z) : M mem Z :=
  let* l2 := rt_strlen s2 in let l2 := s32 l2 in
  if l2 =? 0 then ret s1
  else
    let* l1 := rt_strlen s1 in let l1 := s32 l1 in
    strstr_loop (S (Z.to_nat l1)) s1 s2 l1 l2.

(** * rt_strdup, rt_malloc_align, rt_free_align *)
Definition rt_strdup (s : Z) : H Z :=
  let* n := on_ram (rt_strlen s) in
  let len := u32 (n + 1) in
  let* tmp := rt_malloc len in
  if tmp =? 0 then ret 0
  else on_ram (rt_memcpy tmp s len);; ret tmp.

Definition rt_malloc_align (size align : Z) : H Z :=
  let uintptr_size := 4 - 1 in
  let align := Z.land (u32 (align + uintptr_size)) (Z.lnot uintptr_size) in
  let align_size := u32 (Z.land (u32 (size + uintptr_size)) (Z.lnot uintptr_size) + align) in
  let* ptr := rt_malloc align_size in
  if negb (ptr =? 0) then
    let align_ptr :=
      if Z.land ptr (align - 1) =? 0 then u32 (ptr + align)
      else Z.land (u32 (ptr + (align - 1))) (Z.lnot (align - 1)) in
    on_ram (st32 (align_ptr - 4) ptr);;
    ret align_ptr
  else ret ptr.

Definition rt_free_align (ptr : Z) : H unit :=
  let* real_ptr := on_ram (ld32 (ptr - 4)) in rt_free real_ptr.

(** * Strings in memory *)

(** the NUL-terminated string [l] starts at [p] *)
Fixpoint cstr (m : mem) (p : Z) (l : list Z) : Prop :=
  0 <= p < 4294967296 /\
  match l with
  | [] => m !! p = Some 0
  | c :: l => 0 < c < 256 /\ m !! p = Some c /\ cstr m (p + 1) l
  end.

Lemma cstr_range m p l : cstr m p l -> 0 <= p < 4294967296.
Proof. destruct l; cbn; tauto. Qed.
Lemma cstr_lookup m p l i c : cstr m p l -> (l ++ [0]) !! i = Some c -> m !! (p + Z.of_nat i) = Some c.
Proof.
  revert p i. induction l as [|d l IH]; intros p i (Hp & H) Hi.
  - destruct i as [|[|i]]; cbn in Hi; [|done..]. rewrite Z.add_0_r. congruence.
  - destruct H as (_ & Hd & Hl). destruct i as [|i]; cbn in Hi.
    + rewrite Z.add_0_r. congruence.
    + replace (p + Z.of_nat (S i)) with (p + 1 + Z.of_nat i) by lia. eauto.
Qed.
Lemma cstr_bytes m p l : cstr m p l -> Forall (fun c => 0 < c < 256) l.
Proof.
  revert p. induction l as [|c l IH]; intros p (_ & H); constructor; [tauto|].
  destruct H as (_ & _ & H). eauto.
Qed.
Lemma cstr_mapped m p l : cstr m p l -> mapped m p (Z.of_nat (length l) + 1).
Proof.
  revert p. induction l as [|c l IH]; intros p (Hp & H).
  - cbn [length]. split_and!; [lia..|]. intros x Hx. replace x with p by lia. eauto.
  - destruct H as (_ & Hc & Hl). destruct (IH _ Hl) as (_ & H2 & H3). cbn [length].
    split_and!; [lia..|]. intros x Hx. destruct (decide (x = p)) as [->|]; [eauto|]. apply H3. lia.
Qed.
Lemma cstr_drop m p l k : cstr m p l -> (k <= length l)%nat -> cstr m (p + Z.of_nat k) (drop k l).
Proof.
  revert p l. induction k as [|k IH]; intros p l H Hk; [by rewrite Z.add_0_r|].
  destruct l as [|c l]; [cbn in Hk; lia|]. destruct H as (_ & _ & _ & Hl). cbn [drop length] in *.
  replace (p + Z.of_nat (S k)) with (p + 1 + Z.of_nat k) by lia. apply IH; [done|lia].
Qed.
(** only the bytes of the string matter *)
Lemma cstr_ext m m' p l :
  (forall x, p <= x <= p + Z.of_nat (length l) -> m' !! x = m !! x) -> cstr m p l -> cstr m' p l.
Proof.
  revert p. induction l as [|c l IH]; intros p He (Hp & H); cbn [length] in He.
  - split; [done|]. rewrite He by lia. done.
  - destruct H as (? & ? & Hl). split_and!; [lia..| |].
    + rewrite He by lia. done.
    + apply IH; [|done]. intros x Hx. apply He. lia.
Qed.
Lemma cstr_intro m p l :
  0 <= p -> p + Z.of_nat (length l) < 4294967296 -> Forall (fun c => 0 < c < 256) l ->
  (forall i c, (l ++ [0]) !! i = Some c -> m !! (p + Z.of_nat i) = Some c) -> cstr m p l.
Proof.
  revert p. induction l as [|c l IH]; intros p Hp He Hf Hl; cbn [length] in He.
  - split; [lia|]. specialize (Hl 0%nat 0 eq_refl). by rewrite Z.add_0_r in Hl.
  - apply Forall_cons in Hf as [Hc Hf]. split_and!; [lia..| |].
    + specialize (Hl 0%nat c eq_refl). by rewrite Z.add_0_r in Hl.
    + apply IH; [lia..|done|]. intros i d Hi. specialize (Hl (S i) d Hi).
      by replace (p + 1 + Z.of_nat i) with (p + Z.of_nat (S i)) by lia.
Qed.

Lemma mapped_size m a n : mapped m a n -> (Z.to_nat n <= base.size m)%nat.
Proof.
  intros (_ & _ & Hm). rewrite <- size_dom. rewrite <- (length_seqZ a n).
  rewrite <- (size_list_to_set (C := gset Z) (seqZ a n)) by apply NoDup_seqZ.
  apply subseteq_size. intros x Hx. rewrite elem_of_list_to_set, elem_of_seqZ in Hx.
  apply elem_of_dom, Hm. lia.
Qed.
Lemma cstr_size m p l : cstr m p l -> (length l < base.size m)%nat.
Proof. intros H%cstr_mapped%mapped_size. lia. Qed.
Lemma cstr_ld8 m p c l : cstr m p (c :: l) -> ld8 p m = Ok (c, m).
Proof. intros (Hp & _ & Hc & _). by apply ld8_run. Qed.
Lemma cstr_ld8_nul m p : cstr m p [] -> ld8 p m = Ok (0, m).
Proof. intros (Hp & Hc). by apply ld8_run. Qed.
Lemma cstr_tail m p c l : cstr m p (c :: l) -> 0 < c < 256 /\ cstr m (p + 1) l.
Proof. intros (_ & ? & _ & ?). done. Qed.
(** the next character of a string, the terminator included *)
Lemma cstr_head m p l : cstr m p l -> ld8 p m = Ok (List.hd 0 l, m).
Proof. destruct l; [apply cstr_ld8_nul|apply cstr_ld8]. Qed.

(** * Lengths *)
Lemma strlen_loop_run fuel m s p l :
  cstr m p l -> (length l < fuel)%nat -> s <= p ->
  p - s + Z.of_nat (length l) < 4294967296 ->
  strlen_loop fuel s p m = Ok (p - s + Z.of_nat (length l), m).
Proof.
  revert p l. induction fuel as [|fuel IH]; intros p l Hl Hf Hs Hb; [lia|]. cbn [strlen_loop].
  erewrite bind_run; [cbv beta|by apply cstr_head]. destruct l as [|c l]; cbn [List.hd length] in *.
  - change (0 =? 0) with true. cbv iota. rewrite u32_small by lia. by rewrite Z.add_0_r.
  - apply cstr_tail in Hl as [Hc Hl]. rewrite (proj2 (Z.eqb_neq c 0)) by lia.
    rewrite (IH _ l); [|done|lia..]. do 2 f_equal. lia.
Qed.
Lemma rt_strlen_run m s l : cstr m s l -> rt_strlen s m = Ok (Z.of_nat (length l), m).
Proof.
  intros Hl. pose proof (cstr_size _ _ _ Hl). destruct (cstr_mapped _ _ _ Hl) as (? & ? & _).
  unfold rt_strlen, str_fuel. erewrite bind_run; [cbv beta|reflexivity].
  rewrite (strlen_loop_run _ _ _ _ l) by (done || lia). do 2 f_equal. lia.
Qed.

Lemma strnlen_loop_run fuel m s p l n :
  cstr m p l -> (length l < fuel)%nat -> s <= p -> p - s <= n ->
  p - s + Z.of_nat (length l) < 4294967296 ->
  strnlen_loop fuel s p n m = Ok (Z.min (p - s + Z.of_nat (length l)) n, m).
Proof.
  revert p l. induction fuel as [|fuel IH]; intros p l Hl Hf Hs Hn Hb; [lia|]. cbn [strnlen_loop].
  erewrite bind_run; [cbv beta|by apply cstr_head]. rewrite u32_small by lia.
  destruct l as [|c l]; cbn [List.hd length] in *.
  - change (negb (0 =? 0)) with false. cbn [andb]. unfold ret. do 2 f_equal. lia.
  - apply cstr_tail in Hl as [Hc Hl]. rewrite (proj2 (Z.eqb_neq c 0)) by lia. cbn [negb andb].
    destruct (Z.ltb_spec (p - s) n).
    + rewrite (IH _ l); [|done|lia..]. do 2 f_equal. lia.
    + unfold ret. do 2 f_equal. lia.
Qed.
(** It is the minimum of the length and the limit. *)
Lemma rt_strnlen_run m s l maxlen :
  cstr m s l -> 0 <= maxlen ->
  rt_strnlen s maxlen m = Ok (Z.min (Z.of_nat (length l)) maxlen, m).
Proof.
  intros Hl Hn. pose proof (cstr_size _ _ _ Hl). destruct (cstr_mapped _ _ _ Hl) as (? & ? & _).
  unfold rt_strnlen, str_fuel. erewrite bind_run; [cbv beta|reflexivity].
  rewrite (strnlen_loop_run _ _ _ _ l) by (done || lia). do 2 f_equal. lia.
Qed.

(** * Comparison *)

(** the difference of the first characters that differ under [f]; the
    terminator counts as a character *)
Fixpoint str_diff (f : Z -> Z) (l k : list Z) : Z :=
  let a := f (List.hd 0 l) in let b := f (List.hd 0 k) in
  match l with
  | [] => a - b
  | _ :: l => if (a =? b) && negb (a =? 0) then str_diff f l (tail k) else a - b
  end.

Lemma strcmp_loop_run fuel m p q l k :
  cstr m p l -> cstr m q k -> (length l < fuel)%nat ->
  strcmp_loop fuel p q m = Ok (str_diff id l k, m).
Proof.
  revert p q l k. induction fuel as [|fuel IH]; intros p q l k Hl Hk Hf; [lia|]. cbn [strcmp_loop].
  pose proof (cstr_head _ _ _ Hl) as E1. pose proof (cstr_head _ _ _ Hk) as E2.
  erewrite bind_run; [cbv beta|exact E1]. destruct l as [|a l]; cbn [List.hd] in *.
  - erewrite bind_run; [cbv beta|reflexivity]. cbv iota.
    erewrite bind_run; [cbv beta|exact E2]. done.
  - apply cstr_tail in Hl as [Ha Hl]. rewrite (proj2 (Z.eqb_neq a 0)) by lia. cbn [negb].
    erewrite bind_run; [cbv beta|erewrite bind_run; [cbv beta|exact E2]; reflexivity].
    cbn [str_diff List.hd]. unfold id. rewrite (proj2 (Z.eqb_neq a 0)), andb_true_r by lia.
    destruct (Z.eqb_spec a (List.hd 0 k)) as [E|_].
    + destruct k as [|b k]; cbn [List.hd] in E; [lia|]. apply cstr_tail in Hk as [_ Hk].
      cbn [length tail] in *. apply IH; [done|done|lia].
    + erewrite bind_run; [cbv beta|exact E2]. done.
Qed.
Lemma rt_strcmp_run m p q l k :
  cstr m p l -> cstr m q k -> rt_strcmp p q m = Ok (str_diff id l k, m).
Proof.
  intros Hl Hk. unfold rt_strcmp, str_fuel. erewrite bind_run; [cbv beta|reflexivity].
  pose proof (cstr_size _ _ _ Hl). apply strcmp_loop_run; [done|done|lia].
Qed.

Lemma to_lower_zero c : 0 <= c -> to_lower c = 0 <-> c = 0.
Proof. intros. unfold to_lower. destruct (Z.leb_spec 65 c), (Z.leb_spec c 90); cbn; lia. Qed.
Lemma strcasecmp_loop_run fuel m p q l k :
  cstr m p l -> cstr m q k -> (length l < fuel)%nat ->
  strcasecmp_loop fuel p q m = Ok (str_diff to_lower l k, m).
Proof.
  revert p q l k. induction fuel as [|fuel IH]; intros p q l k Hl Hk Hf; [lia|]. cbn [strcasecmp_loop].
  erewrite bind_run; [cbv beta|by apply cstr_head]. erewrite bind_run; [cbv beta|by apply cstr_head].
  cbv zeta. destruct l as [|a l].
  - cbn [List.hd str_diff]. change (negb (to_lower 0 =? 0)) with false. rewrite andb_false_r. done.
  - cbn [str_diff List.hd]. apply cstr_tail in Hl as [Ha Hl].
    destruct (Z.eqb_spec (to_lower a) (to_lower (List.hd 0 k))) as [E|_]; [|done].
    rewrite (proj2 (Z.eqb_neq (to_lower a) 0)) by (rewrite to_lower_zero; lia). cbn [andb negb].
    destruct k as [|b k]; cbn [List.hd] in E.
    + change (to_lower 0) with 0 in E. rewrite to_lower_zero in E by lia. lia.
    + apply cstr_tail in Hk as [_ Hk]. cbn [length tail] in *. apply IH; [done|done|lia].
Qed.
Lemma rt_strcasecmp_run m p q l k :
  cstr m p l -> cstr m q k -> rt_strcasecmp p q m = Ok (str_diff to_lower l k, m).
Proof.
  intros Hl Hk. unfold rt_strcasecmp, str_fuel. erewrite bind_run; [cbv beta|reflexivity].
  pose proof (cstr_size _ _ _ Hl). apply strcasecmp_loop_run; [done|done|lia].
Qed.

(** the lexicographic order of strings *)
Definition lex (l k : list Z) : Prop :=
  exists p l' k', l = p ++ l' /\ k = p ++ k' /\ List.hd 0 l' < List.hd 0 k'.
Lemma str_diff_zero f l k :
  Forall (fun c => 0 < c < 256) l -> Forall (fun c => 0 < c < 256) k ->
  (forall c, 0 <= c -> f c = 0 <-> c = 0) -> str_diff f l k = 0 <-> f <$> l = f <$> k.
Proof.
  intros Hl Hk Hf. pose proof (proj2 (Hf 0 ltac:(lia)) eq_refl) as F0. revert k Hk.
  induction Hl as [|a l Ha Hl IH]; intros k Hk; destruct Hk as [|b k Hb Hk];
    cbn [str_diff List.hd tail]; cbn [fmap list_fmap]; cbn beta in *; rewrite ?F0.
  - done.
  - pose proof (Hf b ltac:(lia)). split; [lia|intros [=]].
  - pose proof (Hf a ltac:(lia)). destruct (Z.eqb_spec (f a) 0); cbn [andb negb]; (split; [lia|intros [=]]).
  - pose proof (Hf a ltac:(lia)). rewrite (proj2 (Z.eqb_neq (f a) 0)) by lia. rewrite andb_true_r.
    destruct (Z.eqb_spec (f a) (f b)) as [E|E]; [rewrite IH by done; rewrite E|];
      split; intros; [congruence|congruence|lia|congruence].
Qed.
Lemma str_diff_lex l k :
  Forall (fun c => 0 < c < 256) l -> Forall (fun c => 0 < c < 256) k ->
  str_diff id l k < 0 <-> lex l k.
Proof.
  intros Hl. revert k. induction Hl as [|a l Ha Hl IH]; intros k Hk; destruct Hk as [|b k Hb Hk];
    cbn [str_diff List.hd tail]; cbn beta in *; unfold id.
  - split; [lia|]. intros (p & l' & k' & E1 & E2 & ?). destruct p; [|discriminate]. cbn in *. subst. cbn in *. lia.
  - split; [|lia]. intros _. exists [], [], (b :: k). split_and!; [done..|cbn; lia].
  - rewrite (proj2 (Z.eqb_neq a 0)) by lia. cbn [andb negb]. split; [lia|].
    intros (p & l' & k' & E1 & E2 & ?). destruct p; [|discriminate]. cbn in *. subst. cbn in *. lia.
  - rewrite (proj2 (Z.eqb_neq a 0)) by lia. rewrite andb_true_r. destruct (Z.eqb_spec a b) as [->|Hne].
    + fold (@id Z). rewrite IH by done. split; intros (p & l' & k' & E1 & E2 & Hlt).
      * exists (b :: p), l', k'. by subst.
      * destruct p as [|c p]; cbn in E1, E2; [subst; cbn in Hlt; lia|].
        injection E1 as -> ->. injection E2 as ->. by exists p, l', k'.
    + split; [intros; exists [], (a :: l), (b :: k); cbn; split_and!; [done..|lia]|].
      intros (p & l' & k' & E1 & E2 & Hlt). destruct p as [|c p]; cbn in E1, E2; [subst; cbn in Hlt; lia|].
      injection E1 as -> _. by injection E2 as ->.
Qed.

(** with a limit, and the difference as a [signed char] *)
Fixpoint strn_diff (n : nat) (l k : list Z) : Z :=
  match n with
  | O => 0
  | S n =>
      let a := List.hd 0 l in let b := List.hd 0 k in
      if (negb (s8 (a - b) =? 0) || (a =? 0))%bool then s8 (a - b) else strn_diff n (tail l) (tail k)
  end.
Lemma s8_diff_zero a b : 0 <= a < 256 -> 0 <= b < 256 -> s8 (a - b) = 0 <-> a = b.
Proof.
  intros Ha Hb. unfold s8. pose proof (Z.div_mod (a - b + 128) 256 ltac:(lia)).
  pose proof (Z.mod_pos_bound (a - b + 128) 256 ltac:(lia)). split; [lia|intros ->].
  by rewrite Z.sub_diag.
Qed.
Lemma hd_byte l : Forall (fun c => 0 < c < 256) l -> 0 <= List.hd 0 l < 256.
Proof. intros [|]; cbn in *; lia. Qed.
Lemma strncmp_loop_run fuel m p q l k n r :
  cstr m p l -> cstr m q k -> (length l < fuel)%nat ->
  strncmp_loop fuel p q (Z.of_nat n) r m =
    Ok (match n with O => r | S _ => strn_diff n l k end, m).
Proof.
  revert p q l k n r. induction fuel as [|fuel IH]; intros p q l k n r Hl Hk Hf; [lia|].
  cbn [strncmp_loop]. destruct n as [|n]; [done|]. rewrite (proj2 (Z.eqb_neq (Z.of_nat (S n)) 0)) by lia.
  erewrite bind_run; [cbv beta|by apply cstr_head]. erewrite bind_run; [cbv beta|by apply cstr_head].
  cbv zeta. cbn [strn_diff]. pose proof (hd_byte _ (cstr_bytes _ _ _ Hl)) as Ra.
  pose proof (hd_byte _ (cstr_bytes _ _ _ Hk)) as Rb.
  destruct (Z.eqb_spec (s8 (List.hd 0 l - List.hd 0 k)) 0) as [E|]; [|done].
  destruct (Z.eqb_spec (List.hd 0 l) 0) as [|Hne]; [done|]. cbn [negb orb].
  pose proof (proj1 (s8_diff_zero _ _ Ra Rb) E) as E2.
  destruct l as [|a l], k as [|b k]; cbn [List.hd tail] in *; [lia..|].
  apply cstr_tail in Hl as [_ Hl]. apply cstr_tail in Hk as [_ Hk]. cbn [length] in Hf.
  replace (Z.of_nat (S n) - 1) with (Z.of_nat n) by lia.
  rewrite (IH _ _ l k) by (done || lia). destruct n; [|done]. by rewrite E.
Qed.
Lemma rt_strncmp_run m p q l k n :
  cstr m p l -> cstr m q k -> rt_strncmp p q (Z.of_nat n) m = Ok (strn_diff n l k, m).
Proof.
  intros Hl Hk. unfold rt_strncmp, str_fuel. erewrite bind_run; [cbv beta|reflexivity].
  pose proof (cstr_size _ _ _ Hl). rewrite (strncmp_loop_run _ _ _ _ l k) by (done || lia).
  by destruct n.
Qed.
Lemma strn_diff_zero n l k :
  Forall (fun c => 0 < c < 256) l -> Forall (fun c => 0 < c < 256) k ->
  strn_diff n l k = 0 <-> take n l = take n k.
Proof.
  intros Hl Hk. revert l k Hl Hk. induction n as [|n IH]; intros l k Hl Hk; [done|].
  pose proof (hd_byte _ Hl) as Ra. pose proof (hd_byte _ Hk) as Rb. cbn [strn_diff].
  pose proof (s8_diff_zero _ _ Ra Rb) as Es.
  destruct (Z.eqb_spec (s8 (List.hd 0 l - List.hd 0 k)) 0) as [E|E]; cbn [negb orb].
  - apply Es in E as E2. destruct Hl as [|a l Ha Hl], Hk as [|b k Hb Hk];
      cbn [List.hd tail take] in *; try lia; [done|].
    rewrite (proj2 (Z.eqb_neq a 0)), IH by (done || lia). subst b.
    split; [by intros ->|congruence].
  - split; [done|]. intros Et. destruct E. apply Es.
    destruct l, k; cbn in *; congruence.
Qed.

(** * rt_memcmp and rt_strstr *)
Fixpoint bytes_diff (l k : list Z) : Z :=
  match l, k with
  | a :: l, b :: k => if a - b =? 0 then bytes_diff l k else a - b
  | _, _ => 0
  end.
Lemma bytes_diff_zero l k : length l = length k -> bytes_diff l k = 0 <-> l = k.
Proof.
  revert k. induction l as [|a l IH]; intros [|b k] Hlen; try done. cbn [bytes_diff].
  destruct (Z.eqb_spec (a - b) 0); [rewrite IH by (cbn in Hlen; lia)|];
    split; intros; simplify_eq; try lia; f_equal; lia.
Qed.
Lemma bytes_at_S m a n : bytes_at m a (S n) = byte_of m a :: bytes_at m (a + 1) n.
Proof.
  unfold bytes_at. rewrite Nat2Z.inj_succ, seqZ_cons by lia. rewrite fmap_cons. rewrite Z.add_0_r.
  rewrite Z.pred_succ. f_equal. apply list_eq. intros i. rewrite !list_lookup_fmap.
  destruct (decide (i < n)%nat).
  - rewrite !lookup_seqZ_lt by lia. cbn. do 2 f_equal. lia.
  - by rewrite !lookup_seqZ_ge by lia.
Qed.
Lemma memcmp_loop_run fuel m p q n :
  mapped m p (Z.of_nat n) -> mapped m q (Z.of_nat n) -> (n < fuel)%nat ->
  memcmp_loop fuel p q (Z.of_nat n) 0 m = Ok (bytes_diff (bytes_at m p n) (bytes_at m q n), m).
Proof.
  revert p q n. induction fuel as [|fuel IH]; intros p q n Hp Hq Hf; [lia|]. cbn [memcmp_loop].
  destruct n as [|n]; [done|]. rewrite (proj2 (Z.ltb_lt 0 _)) by lia. rewrite !bytes_at_S.
  erewrite bind_run; [cbv beta|apply byte_of_run; sub_mapped].
  erewrite bind_run; [cbv beta|apply byte_of_run; sub_mapped].
  cbv zeta. cbn [bytes_diff]. destruct (Z.eqb_spec (byte_of m p - byte_of m q) 0) as [E|]; [|done].
  cbn [negb]. rewrite E. replace (Z.of_nat (S n) - 1) with (Z.of_nat n) by lia.
  apply IH; [sub_mapped|sub_mapped|lia].
Qed.
Lemma rt_memcmp_run m p q n :
  mapped m p (Z.of_nat n) -> mapped m q (Z.of_nat n) ->
  rt_memcmp p q (Z.of_nat n) m = Ok (bytes_diff (bytes_at m p n) (bytes_at m q n), m).
Proof. intros. apply memcmp_loop_run; [done|done|lia]. Qed.

Lemma cstr_bytes_at m p l n : cstr m p l -> (n <= length l)%nat -> bytes_at m p n = take n l.
Proof.
  revert p l. induction n as [|n IH]; intros p l Hl Hn; [done|]. rewrite bytes_at_S.
  destruct l as [|c l]; cbn [length] in Hn; [lia|]. pose proof (cstr_tail _ _ _ _ Hl) as [_ Ht].
  cbn [take]. rewrite (IH _ l) by (done || lia). f_equal. unfold byte_of.
  destruct Hl as (_ & _ & -> & _). done.
Qed.

(** the offset of the first occurrence of [k] in [l] *)
Fixpoint find_sub (k l : list Z) : option nat :=
  if decide (take (length k) l = k) then Some 0%nat
  else match l with
       | [] => None
       | _ :: l => S <$> find_sub k l
       end.
Lemma find_sub_some k l i :
  find_sub k l = Some i <->
  take (length k) (drop i l) = k /\ (i <= length l)%nat /\
  forall j, (j < i)%nat -> take (length k) (drop j l) <> k.
Proof.
  revert i. induction l as [|c l IH]; intros i; cbn [find_sub].
  - case_decide as E.
    + split; [intros [= <-]; split_and!; [done|done|lia]|]. intros (_ & Hi & _). cbn in Hi. f_equal. lia.
    + split; [done|]. intros (Ht & Hi & _). cbn in Hi. destruct E. by replace i with 0%nat in Ht by lia.
  - case_decide as E.
    + split; [intros [= <-]; split_and!; [done|lia|lia]|]. intros (_ & _ & H). destruct i; [done|].
      by destruct (H 0%nat ltac:(lia)).
    + rewrite fmap_Some. setoid_rewrite IH. split.
      * intros (j & (H1 & H2 & H3) & ->). cbn [drop length]. split_and!; [done|lia|].
        intros [|j'] Hj; [done|]. apply H3. lia.
      * intros (H1 & H2 & H3). destruct i as [|i]; [done|]. exists i. cbn [length] in H2.
        split_and!; [done|lia| |done]. intros j Hj. apply (H3 (S j)). lia.
Qed.
Lemma find_sub_none k l :
  find_sub k l = None <-> forall i, (i <= length l)%nat -> take (length k) (drop i l) <> k.
Proof.
  induction l as [|c l IH]; cbn [find_sub].
  - case_decide as E; [split; [done|by intros H; destruct (H 0%nat)]|].
    split; [|done]. intros _ i Hi. cbn in Hi. by replace i with 0%nat by lia.
  - case_decide as E; [split; [done|intros H; by destruct (H 0%nat ltac:(cbn; lia))]|].
    rewrite fmap_None, IH. cbn [length]. split.
    + intros H [|i] Hi; [done|]. apply H. lia.
    + intros H i Hi. apply (H (S i)). lia.
Qed.
Lemma strstr_loop_run fuel m s1 s2 l k :
  cstr m s1 l -> cstr m s2 k -> k <> [] -> (length l < fuel)%nat ->
  strstr_loop fuel s1 s2 (Z.of_nat (length l)) (Z.of_nat (length k)) m =
    Ok (match find_sub k l with Some i => s1 + Z.of_nat i | None => 0 end, m).
Proof.
  intros Hl Hk Hne. revert s1 l Hl. induction fuel as [|fuel IH]; intros s1 l Hl Hf; [lia|].
  cbn [strstr_loop]. destruct (Z.leb_spec (Z.of_nat (length k)) (Z.of_nat (length l))).
  - cbv zeta. pose proof (cstr_mapped _ _ _ Hl) as Ml. pose proof (cstr_mapped _ _ _ Hk) as Mk.
    erewrite bind_run; [cbv beta|apply rt_memcmp_run; sub_mapped].
    rewrite (cstr_bytes_at _ _ l), (cstr_bytes_at _ _ k) by (done || lia). rewrite firstn_all.
    pose proof (bytes_diff_zero (take (length k) l) k) as Hd. rewrite length_take in Hd.
    specialize (Hd ltac:(lia)).
    destruct l as [|c l]; [destruct k; [done|cbn in *; lia]|]. cbn [find_sub].
    destruct (Z.eqb_spec (bytes_diff (take (length k) (c :: l)) k) 0) as [E|E].
    + rewrite decide_True by tauto. by rewrite Z.add_0_r.
    + rewrite decide_False by tauto. cbn [length] in *.
      replace (Z.of_nat (S (length l)) - 1) with (Z.of_nat (length l)) by lia.
      apply cstr_tail in Hl as [_ Hl]. rewrite IH by (done || lia).
      destruct (find_sub k l); cbn; [|done]. do 2 f_equal. lia.
  - assert (E : find_sub k l = None); [|by rewrite E].
    apply find_sub_none. intros i Hi Ht. apply (f_equal length) in Ht.
    rewrite length_take, length_drop in Ht. lia.
Qed.
Lemma rt_strstr_run m s1 s2 l k :
  cstr m s1 l -> cstr m s2 k -> Z.of_nat (length l) < 2147483648 -> Z.of_nat (length k) < 2147483648 ->
  rt_strstr s1 s2 m = Ok (match find_sub k l with Some i => s1 + Z.of_nat i | None => 0 end, m).
Proof.
  intros Hl Hk Bl Bk. unfold rt_strstr. erewrite bind_run; [cbv beta|by apply rt_strlen_run].
  cbv zeta. rewrite s32_small by lia. destruct k as [|b k].
  - cbn [length]. change (Z.of_nat 0 =? 0) with true. cbv iota.
    assert (E : find_sub [] l = Some 0%nat) by (destruct l; done). rewrite E. by rewrite Z.add_0_r.
  - rewrite (proj2 (Z.eqb_neq (Z.of_nat (length (b :: k))) 0)) by (cbn [length]; lia).
    erewrite bind_run; [cbv beta|by apply rt_strlen_run]. rewrite s32_small by lia.
    rewrite Nat2Z.id. by apply strstr_loop_run; [..|lia].
Qed.

(** * Storing bytes: rt_strncpy *)
Fixpoint store_bytes (a : Z) (l : list Z) (m : mem) : mem :=
  match l with
  | [] => m
  | c :: l => store_bytes (a + 1) l (<[a := c]> m)
  end.
Lemma lookup_store_bytes a l m x :
  store_bytes a l m !! x =
    if decide (a <= x < a + Z.of_nat (length l)) then l !! Z.to_nat (x - a) else m !! x.
Proof.
  revert a m. induction l as [|c l IH]; intros a m; cbn [store_bytes length].
  - by rewrite decide_False by lia.
  - rewrite IH, lookup_insert. destruct (decide (a = x)) as [->|Hne].
    + rewrite decide_False, decide_True by lia. by rewrite Z.sub_diag.
    + repeat case_decide; try lia; [|done].
      replace (Z.to_nat (x - a)) with (S (Z.to_nat (x - (a + 1)))) by lia. done.
Qed.
Lemma store_bytes_app a l k m :
  store_bytes a (l ++ k) m = store_bytes (a + Z.of_nat (length l)) k (store_bytes a l m).
Proof.
  revert a m. induction l as [|c l IH]; intros a m; cbn [store_bytes length app].
  - by rewrite Z.add_0_r.
  - rewrite IH. f_equal. lia.
Qed.
Lemma mapped_store_bytes a l m b n : mapped m b n -> mapped (store_bytes a l m) b n.
Proof.
  revert a m. induction l as [|c l IH]; intros a m H; [done|]. by apply IH, mapped_insert.
Qed.
Lemma byte_mem_store_bytes a l m :
  Forall (fun c => 0 <= c < 256) l -> byte_mem m -> byte_mem (store_bytes a l m).
Proof.
  intros Hl Hm x c. rewrite lookup_store_bytes. case_decide; [|apply Hm].
  intros Hx. apply Forall_lookup_1 with (1 := Hl) in Hx. exact Hx.
Qed.
Lemma cstr_store_bytes m p l a k :
  cstr m p l -> a + Z.of_nat (length k) <= p \/ p + Z.of_nat (length l) < a -> cstr (store_bytes a k m) p l.
Proof.
  intros Hl Hd. eapply cstr_ext; [|exact Hl]. intros x Hx. rewrite lookup_store_bytes.
  by rewrite decide_False by lia.
Qed.

Definition pad_to (n : nat) (l : list Z) : list Z := take n (l ++ replicate n 0).
Lemma pad_to_cons n c l : pad_to (S n) (c :: l) = c :: pad_to n l.
Proof.
  unfold pad_to. cbn [app take]. f_equal. rewrite !take_app, !take_replicate. do 2 f_equal. lia.
Qed.
Lemma pad_to_nil n : pad_to n [] = replicate n 0.
Proof. unfold pad_to. cbn [app]. rewrite take_replicate. f_equal. lia. Qed.

Lemma strncpy_pad_run fuel m d n :
  mapped m d (Z.of_nat n) -> (n < fuel)%nat -> Z.of_nat n + 1 < 4294967296 ->
  strncpy_pad fuel d (Z.of_nat n + 1) m = Ok (tt, store_bytes d (replicate n 0) m).
Proof.
  revert m d n. induction fuel as [|fuel IH]; intros m d n Hm Hf Hn; [lia|]. cbn [strncpy_pad].
  cbv zeta. replace (u32 (Z.of_nat n + 1 - 1)) with (Z.of_nat n) by (rewrite u32_small; lia).
  destruct n as [|n]; [done|]. rewrite (proj2 (Z.eqb_neq _ _)) by lia.
  erewrite bind_run; [cbv beta|apply st8_run; sub_mapped].
  replace (Z.of_nat (S n)) with (Z.of_nat n + 1) by lia. rewrite IH; [done| |lia..].
  apply mapped_insert. eapply mapped_sub; [exact Hm|lia..].
Qed.
Lemma strncpy_loop_run fuel m d s l n :
  cstr m s l -> mapped m d (Z.of_nat (S n)) -> (n < fuel)%nat -> Z.of_nat (S n) < 4294967296 ->
  d + Z.of_nat (S n) <= s \/ s + Z.of_nat (length l) < d ->
  strncpy_loop fuel d s (Z.of_nat (S n)) m = Ok (tt, store_bytes d (pad_to (S n) l) m).
Proof.
  revert m d s l n. induction fuel as [|fuel IH]; intros m d s l n Hl Hm Hf Hn Hd; [lia|].
  cbn [strncpy_loop]. erewrite bind_run; [cbv beta|by apply cstr_head].
  erewrite bind_run; [cbv beta|apply st8_run; sub_mapped].
  destruct l as [|c l]; cbn [List.hd].
  - change (0 =? 0) with true. cbv iota. rewrite pad_to_nil. cbn [replicate store_bytes].
    replace (Z.of_nat (S n)) with (Z.of_nat n + 1) by lia. rewrite strncpy_pad_run; [done| |lia..].
    apply mapped_insert. eapply mapped_sub; [exact Hm|lia..].
  - pose proof (cstr_tail _ _ _ _ Hl) as [Hc Ht]. rewrite (proj2 (Z.eqb_neq c 0)) by lia. cbv zeta.
    replace (u32 (Z.of_nat (S n) - 1)) with (Z.of_nat n) by (rewrite u32_small; lia).
    rewrite pad_to_cons. cbn [store_bytes]. rewrite u8_small by lia. cbn [length] in Hd.
    destruct n as [|n]; [done|]. rewrite (proj2 (Z.eqb_neq _ _)) by lia. apply IH; [|..|lia|lia|lia].
    + eapply cstr_ext; [|exact Ht]. intros x Hx. rewrite lookup_insert_ne; [done|lia].
    + apply mapped_insert. eapply mapped_sub; [exact Hm|lia..].
Qed.
Lemma rt_strncpy_run m dst src l n :
  cstr m src l -> mapped m dst (Z.of_nat n) -> Z.of_nat n < 4294967296 ->
  dst + Z.of_nat n <= src \/ src + Z.of_nat (length l) < dst ->
  rt_strncpy dst src (Z.of_nat n) m = Ok (dst, store_bytes dst (pad_to n l) m).
Proof.
  intros Hl Hm Hn Hd. unfold rt_strncpy. destruct n as [|n]; [done|].
  rewrite (proj2 (Z.eqb_neq _ _)) by lia. cbn [negb when]. rewrite Nat2Z.id.
  erewrite bind_run; [cbv beta|apply (strncpy_loop_run _ _ _ _ l); (done || lia)]. done.
Qed.

(** * The string functions against their references *)
Lemma map_id_inj (l k : list Z) : id <$> l = id <$> k <-> l = k.
Proof. by rewrite !list_fmap_id. Qed.

(** rt_strcmp decides equality and the lexicographic order of two strings
    and leaves the memory alone. *)
Theorem rt_strcmp_order (m : mem) (cs ct : Z) (l k : list Z) :
  cstr m cs l -> cstr m ct k ->
  wp (rt_strcmp cs ct) (fun r m' => m' = m /\ (r = 0 <-> l = k) /\ (r < 0 <-> lex l k)) m.
Proof.
  intros Hl Hk. eapply wp_intro; [by apply rt_strcmp_run|]. split; [done|].
  pose proof (cstr_bytes _ _ _ Hl). pose proof (cstr_bytes _ _ _ Hk). split; [|by apply str_diff_lex].
  rewrite str_diff_zero by done. apply map_id_inj.
Qed.

(** rt_strncmp compares the prefixes, rt_strcasecmp the strings in lower
    case; only whether the result is 0 is guaranteed for rt_strncmp, whose
    signed char turns the sign around for differences of 128 and more. *)
Theorem rt_strncmp_equal (m : mem) (cs ct : Z) (l k : list Z) (n : nat) :
  cstr m cs l -> cstr m ct k ->
  wp (rt_strncmp cs ct (Z.of_nat n)) (fun r m' => m' = m /\ (r = 0 <-> take n l = take n k)) m.
Proof.
  intros Hl Hk. eapply wp_intro; [by apply rt_strncmp_run|]. split; [done|].
  apply strn_diff_zero; by eapply cstr_bytes.
Qed.
Theorem rt_strncmp_sign (m : mem) (cs ct : Z) :
  cstr m cs [200] -> cstr m ct [10] -> rt_strncmp cs ct 1 m = Ok (-66, m).
Proof. intros Hl Hk. apply (rt_strncmp_run m cs ct [200] [10] 1 Hl Hk). Qed.
Theorem rt_strcasecmp_equal (m : mem) (a b : Z) (l k : list Z) :
  cstr m a l -> cstr m b k ->
  wp (rt_strcasecmp a b) (fun r m' => m' = m /\ (r = 0 <-> to_lower <$> l = to_lower <$> k)) m.
Proof.
  intros Hl Hk. eapply wp_intro; [by apply rt_strcasecmp_run|]. split; [done|].
  apply str_diff_zero; [by eapply cstr_bytes..|]. intros. by apply to_lower_zero.
Qed.

(** rt_strstr finds the first occurrence of a string in another one, or
    returns NULL if there is none. *)
Theorem rt_strstr_first (m : mem) (s1 s2 : Z) (l k : list Z) :
  cstr m s1 l -> cstr m s2 k ->
  Z.of_nat (length l) < 2147483648 -> Z.of_nat (length k) < 2147483648 -> s1 <> 0 ->
  wp (rt_strstr s1 s2) (fun r m' => m' = m /\
    ((exists i, r = s1 + Z.of_nat i /\ (i <= length l)%nat /\ take (length k) (drop i l) = k /\
        forall j, (j < i)%nat -> take (length k) (drop j l) <> k) \/
     r = 0 /\ forall i, (i <= length l)%nat -> take (length k) (drop i l) <> k)) m.
Proof.
  intros Hl Hk Bl Bk H1. eapply wp_intro; [by apply (rt_strstr_run m s1 s2 l k)|]. split; [done|].
  destruct (find_sub k l) as [i|] eqn:E.
  - left. exists i. apply find_sub_some in E. naive_solver.
  - right. split; [done|]. by apply find_sub_none.
Qed.
(** rt_strncpy copies the string, cut off or padded with 0 to [n] bytes. *)
Theorem rt_strncpy_pads (m : mem) (dst src : Z) (l : list Z) (n : nat) :
  cstr m src l -> mapped m dst (Z.of_nat n) -> Z.of_nat n < 4294967296 ->
  dst + Z.of_nat n <= src \/ src + Z.of_nat (length l) < dst ->
  wp (rt_strncpy dst src (Z.of_nat n)) (fun r m' => r = dst /\ forall x, m' !! x =
    if decide (dst <= x < dst + Z.of_nat n) then pad_to n l !! Z.to_nat (x - dst) else m !! x) m.
Proof.
  intros Hl Hm Hn Hd. eapply wp_intro; [by apply (rt_strncpy_run m dst src l)|]. split; [done|].
  intros x. rewrite lookup_store_bytes. unfold pad_to.
  rewrite length_take, length_app, length_replicate. repeat case_decide; (done || lia).
Qed.

(** * Strings and aligned blocks on the heap *)

(** the bytes [a .. a+n) meet no free block *)
Definition not_free (h : heap) (l : list blk) (a n : Z) : Prop :=
  forall b, b ∈ l -> b_used b = false -> a + n <= data_of h b \/ heap_ptr h + b_next b <= a.

Lemma on_ram_run {A} (m : M mem A) a r h :
  m (ram h) = Ok (a, r) -> on_ram m h = Ok (a, set_ram r h).
Proof. intros E. unfold on_ram. by rewrite E. Qed.
Lemma set_ram_id h : set_ram (ram h) h = h.
Proof. by destruct h. Qed.

(** rt_strdup returns NULL without effect, or a block of its own with a copy
    of the string. *)
Theorem rt_strdup_spec (h : heap) (l : list blk) (s : Z) (str : list Z) :
  heap_inv h l -> heap_bytes h -> 16 <= mem_size_aligned h -> cstr (ram h) s str ->
  not_free h l s (Z.of_nat (length str) + 1) -> Z.of_nat (length str) < 4294967280 ->
  wp (rt_strdup s) (fun r h' =>
    r = 0 /\ h' = h \/
    (exists pre c suf, heap_inv h' (pre ++ c :: suf) /\ b_used c = true /\ r = data_of h' c /\
       cstr (ram h') r str /\ cstr (ram h') s str)) h.
Proof.
  intros Hi [Hbm Hm] Hmsa Hs Hnf Hlen. unfold wp, rt_strdup.
  erewrite bind_run; [cbv beta|by apply on_ram_run, rt_strlen_run]. rewrite set_ram_id. cbv zeta.
  rewrite u32_small by lia. set (n := Z.of_nat (length str) + 1) in *.
  destruct (rt_malloc_given h l n Hi ltac:(lia) Hmsa) as (r & h1 & Hrun & Hp).
  erewrite bind_run; [cbv beta|exact Hrun].
  destruct Hp as [[-> ->]|(pre & c & suf & [-> Hi1 Hcu Hsz Hram Eptr Eend _ (b & Hbl & Hbu & Eb & Hbn)])];
    [by left|].
  destruct (data_of_bounds h1 _ c (hi_rep _ _ Hi1) ltac:(set_solver)) as (D0 & _ & D1 & D2).
  destruct (heap_rep_bounds h1 _ c (hi_rep _ _ Hi1) ltac:(set_solver)) as (C1 & C2 & C3 & _).
  rewrite (proj2 (Z.eqb_neq _ _)) by done. specialize (Hnf b Hbl Hbu). rewrite Eb in Hnf.
  destruct (hr_base _ _ (hi_rep _ _ Hi)) as (P0 & _ & P1). sizes.
  destruct (rt_memcpy_run (ram h1) (data_of h1 c) s n) as (rm & Hcp & Hcopy).
  { rewrite Hram. by apply cstr_mapped. }
  { rewrite Hram. eapply mapped_sub; [exact Hm|lia..]. } { by rewrite Hram. } { lia. } { lia. }
  erewrite bind_run; [cbv beta|by apply on_ram_run]. right. exists pre, c, suf.
  split_and!; [by apply heap_inv_ram|done|done|..]; cbn [ram set_ram].
  - apply cstr_intro; [lia|lia|by eapply cstr_bytes|]. intros i d Hd.
    pose proof (lookup_lt_Some _ _ _ Hd) as Hlt. rewrite length_app in Hlt. cbn in Hlt.
    rewrite Hcopy, decide_True by lia. rewrite Hram.
    replace (_ - _ + s) with (s + Z.of_nat i) by lia. by eapply cstr_lookup.
  - eapply cstr_ext; [|exact Hs]. intros x Hx. rewrite Hcopy, decide_False, Hram by lia. done.
Qed.

Lemma land_lnot_pow x k : 0 <= x -> 0 <= k -> Z.land x (Z.lnot (2 ^ k - 1)) = x / 2 ^ k * 2 ^ k.
Proof.
  intros Hx Hk. replace (2 ^ k - 1) with (Z.ones k) by (rewrite Z.ones_equiv; lia).
  rewrite <- Z.ldiff_land, Z.ldiff_ones_r by lia.
  by rewrite Z.shiftl_mul_pow2, Z.shiftr_div_pow2 by lia.
Qed.
Lemma land_pow x k : 0 <= k -> Z.land x (2 ^ k - 1) = x mod 2 ^ k.
Proof. intros Hk. rewrite <- Z.land_ones by done. f_equal. rewrite Z.ones_equiv. lia. Qed.
Lemma round_up_4 x : 0 <= x < 4294967292 -> let y := Z.land (u32 (x + 3)) (Z.lnot 3) in
  x <= y < x + 4 /\ y mod 4 = 0.
Proof.
  intros Hx y. subst y. rewrite u32_small by lia. pose proof (land_lnot_pow (x + 3) 2 ltac:(lia) ltac:(lia)) as E.
  change (2 ^ 2) with 4 in E. change (4 - 1) with 3 in E. rewrite E. rewrite Z.mod_mul by lia.
  pose proof (Z.div_mod (x + 3) 4 ltac:(lia)). pose proof (Z.mod_pos_bound (x + 3) 4 ltac:(lia)). lia.
Qed.

(** the address [p] rounded up strictly, by at least 4 bytes *)
Lemma align_above p k :
  0 <= p -> p mod 16 = 0 -> 2 <= k -> p + 2 ^ k < 4294967296 ->
  let q := if Z.land p (2 ^ k - 1) =? 0 then u32 (p + 2 ^ k)
           else Z.land (u32 (p + (2 ^ k - 1))) (Z.lnot (2 ^ k - 1)) in
  q mod 2 ^ k = 0 /\ p + 4 <= q <= p + 2 ^ k.
Proof.
  intros Hp H16 Hk Hb q. subst q. rewrite land_pow, land_lnot_pow by (try apply u32_range; lia).
  assert (P4 : 2 ^ k = 4 * 2 ^ (k - 2)).
  { change 4 with (2 ^ 2). rewrite <- Z.pow_add_r by lia. f_equal. lia. }
  pose proof (Z.pow_pos_nonneg 2 (k - 2) ltac:(lia) ltac:(lia)). set (a := 2 ^ k) in *.
  rewrite !u32_small by lia. destruct (Z.eqb_spec (p mod a) 0) as [E|E].
  - rewrite <- Z.add_mod_idemp_l, E, Z.add_0_l, Z.mod_same by lia. lia.
  - rewrite Z.mod_mul by lia. split; [done|].
    (* [a] does not divide 16, so it is a multiple of 16 *)
    assert (Ha : a mod 16 = 0).
    { destruct (Z.lt_ge_cases k 4) as [Hlt|Hge].
      - destruct E. apply Z.mod_divide; [lia|]. apply Z.mod_divide in H16; [|lia].
        etrans; [|exact H16]. exists (2 ^ (4 - k)). unfold a. rewrite <- Z.pow_add_r by lia.
        by replace (4 - k + k) with 4 by lia.
      - unfold a. replace k with (k - 4 + 4) by lia. rewrite Z.pow_add_r by lia.
        by rewrite Z.mod_mul. }
    apply Z.mod_divide in Ha as [x Ex]; [|lia]. apply Z.mod_divide in H16 as [y Ey]; [|lia].
    pose proof (Z.div_mod p a ltac:(lia)). pose proof (Z.mod_pos_bound p a ltac:(lia)).
    assert (Eq : (p + (a - 1)) / a = p / a + 1).
    { symmetry. apply (Z.div_unique _ _ _ (p mod a - 1)); lia. }
    rewrite Eq. assert (16 <= a - p mod a); [|lia].
    assert (a - p mod a = 16 * (x + x * (p / a) - y)) by nia. nia.
Qed.

(** rt_malloc_align returns NULL without effect, or an address of that
    alignment inside a block of its own, with the start of the block stored
    before it; rt_free_align gives the block back. *)
Lemma rt_malloc_align_run (h : heap) (l : list blk) (size k : Z) :
  heap_inv h l -> heap_bytes h -> 16 <= mem_size_aligned h ->
  0 <= size -> 2 <= k -> size + 4 + 2 ^ k <= 4294967280 ->
  exists r h', rt_malloc_align size (2 ^ k) h = Ok (r, h') /\
  (r = 0 /\ h' = h \/ exists h1 n p pre c suf, given h l n p h1 pre c suf /\
     r mod 2 ^ k = 0 /\ p + 4 <= r /\ r + size <= p + n /\
     h' = set_ram (store_word (r - 4) p (ram h1)) h1).
Proof.
  intros Hi [Hb Hm] Hmsa Hsize Hk Hbig. unfold rt_malloc_align. change (4 - 1) with 3. cbv zeta.
  assert (P4 : 2 ^ k = 4 * 2 ^ (k - 2)).
  { change 4 with (2 ^ 2). rewrite <- Z.pow_add_r by lia. f_equal. lia. }
  pose proof (Z.pow_pos_nonneg 2 (k - 2) ltac:(lia) ltac:(lia)).
  destruct (round_up_4 (2 ^ k) ltac:(lia)) as [A1 A2]. destruct (round_up_4 size ltac:(lia)) as [S1 S2].
  cbv zeta in *. set (al := Z.land (u32 (2 ^ k + 3)) (Z.lnot 3)) in *.
  assert (Eal : al = 2 ^ k).
  { apply Z.mod_divide in A2 as [x Ex]; [|lia]. lia. }
  rewrite Eal. set (sz := Z.land (u32 (size + 3)) (Z.lnot 3)) in *. rewrite (u32_small (sz + 2 ^ k)) by lia.
  destruct (rt_malloc_given h l (sz + 2 ^ k) Hi ltac:(lia) Hmsa) as (p & h1 & Hrun & Hp).
  erewrite bind_run; [cbv beta|exact Hrun].
  destruct Hp as [[-> ->]|(pre & c & suf & Hg)]; [exists 0, h; by split; [|left]|].
  pose proof Hg as [-> Hi1 Hcu Hsz Hram Eptr Eend _ _].
  destruct (data_of_bounds h1 _ c (hi_rep _ _ Hi1) ltac:(set_solver)) as (D0 & Dm & D1 & D2).
  destruct (heap_rep_bounds h1 _ c (hi_rep _ _ Hi1) ltac:(set_solver)) as (C1 & C2 & C3 & _).
  destruct (hr_base _ _ (hi_rep _ _ Hi)) as (P0 & _ & P1). sizes.
  rewrite (proj2 (Z.eqb_neq _ _)) by done. cbn [negb].
  destruct (align_above (data_of h1 c) k ltac:(lia) Dm Hk ltac:(lia)) as [Q1 Q2]. cbv zeta in Q1, Q2.
  set (q := if Z.land (data_of h1 c) (2 ^ k - 1) =? 0 then _ else _) in *.
  assert (Mq : mapped (ram h1) (q - 4) 4).
  { rewrite Hram. eapply mapped_sub; [exact Hm|lia..]. }
  erewrite bind_run; [cbv beta|by apply on_ram_run, st32_run].
  eexists q, _. split; [reflexivity|right].
  exists h1, (sz + 2 ^ k), (data_of h1 c), pre, c, suf. split_and!; [done|done|lia|lia|done].
Qed.

(** rt_malloc_align returns NULL without effect, or an aligned address
    inside a block of its own with the size asked for; rt_free_align then
    restores the list of blocks. *)
Theorem rt_malloc_align_free (h : heap) (l : list blk) (size k : Z) :
  heap_inv h l -> heap_bytes h -> 16 <= mem_size_aligned h ->
  0 <= size -> 2 <= k -> size + 4 + 2 ^ k <= 4294967280 ->
  wp (rt_malloc_align size (2 ^ k)) (fun r h' =>
    r = 0 /\ h' = h \/
    r mod 2 ^ k = 0 /\
    (exists pre c suf, heap_inv h' (pre ++ c :: suf) /\ b_used c = true /\
       data_of h' c + 4 <= r /\ r + size <= heap_ptr h' + b_next c) /\
    wp (rt_free_align r) (fun _ h2 => heap_inv h2 l /\ ram h2 = ram h') h') h.
Proof.
  intros Hi Hb Hmsa Hsize Hk Hbig.
  destruct (rt_malloc_align_run h l size k Hi Hb Hmsa Hsize Hk Hbig) as (r & h' & Hrun & Hp).
  eapply wp_intro; [exact Hrun|]. destruct Hp as [?|(h1 & n & p & pre & c & suf & Hg & Hr & Hpr & Hrn & ->)];
    [by left|right]. split; [done|]. pose proof Hg as [-> Hi1 Hcu Hsz Hram Eptr Eend <- _].
  split; [exists pre, c, suf; split_and!; [by apply heap_inv_ram|done|done|]|].
  { change (r + size <= heap_ptr h1 + b_next c). lia. }
  pose proof Hb as [_ Hm].
  destruct (data_of_bounds h1 _ c (hi_rep _ _ Hi1) ltac:(set_solver)) as (D0 & Dm & D1 & D2).
  destruct (heap_rep_bounds h1 _ c (hi_rep _ _ Hi1) ltac:(set_solver)) as (C1 & C2 & C3 & _).
  destruct (hr_base _ _ (hi_rep _ _ Hi)) as (P0 & _ & P1). sizes.
  unfold rt_free_align. set (w := store_word _ _ _). set (h2 := set_ram w h1).
  unfold wp. erewrite bind_run; [cbv beta|apply on_ram_run, ld32_run; apply mapped_store_word;
    rewrite Hram; eapply mapped_sub; [exact Hm|lia..]].
  change (ram h2) with w. change (set_ram w h2) with h2. unfold w. rewrite word_at_store, u32_small by lia.
  pose proof (heap_inv_ram _ _ w Hi1) as Hi2. fold h2 in Hi2.
  destruct (rt_free_run h2 pre c suf Hi2 Hcu) as (h3 & Hrun3 & Hi3 & Hram3 & _).
  change (data_of h1 c) with (data_of h2 c). rewrite Hrun3. done.
Qed.
