(* ===== verification/KPrintf.v ===== *)
(** Formatted output of rt-thread/kernel/src/kservice.c: print_number,
    rt_vsnprintf and the functions on top of it, in the configuration of the
    port (RT_PRINTF_PRECISION on, RT_PRINTF_LONGLONG and RT_PRINTF_SPECIAL
    off).  The variable arguments are a list of 32-bit words, one per
    argument; taking one too many is undefined. *)
From S2P Require Import Prelude KService Mem Heap KString.

(** #define ZEROPAD .. LARGE *)
Definition ZEROPAD : Z := 1.
Definition SIGN : Z := 2.
Definition PLUS : Z := 4.
Definition SPACE : Z := 8.
Definition LEFT : Z := 16.
Definition SPECIAL : Z := 32.
Definition LARGE : Z := 64.
Definition has (type flag : Z) : bool := truthy (Z.land type flag).

Definition _ISDIGIT (c : Z) : bool := u32 (c - 48) <? 10.
(** the remainder and the new value of [*n]; every base but 10 counts as 16 *)
Definition divide (n base : Z) : Z * Z :=
  if base =? 10 then (s32 (u32 n mod 10), s32 (u32 n / 10))
  else (s32 (u32 n mod 16), s32 (u32 n / 16)).

Fixpoint skip_atoi_loop (fuel : nat) (s i : Z) : M mem (Z * Z) :=
  match fuel with
  | O => raise OutOfFuel
  | S fuel =>
      let* c := ld8 s in
      if _ISDIGIT c then skip_atoi_loop fuel (s + 1) (s32 (i * 10 + c - 48)) else ret (i, s)
  end.
(** the number, and the position behind it *)
Definition skip_atoi (s : Z) : M mem (Z * Z) :=
  let* fuel := str_fuel in skip_atoi_loop fuel s 0.

(** if (str < end) *str = c; ++ str *)
Definition put_char (str e c : Z) : M mem Z :=
  when (str <? e) (st8 str c);; ret (u32 (str + 1)).

(** * print_number *)
Definition small_digits : list Z := [48; 49; 50; 51; 52; 53; 54; 55; 56; 57; 97; 98; 99; 100; 101; 102].
Definition large_digits : list Z := [48; 49; 50; 51; 52; 53; 54; 55; 56; 57; 65; 66; 67; 68; 69; 70].
Definition TMP_SIZE : nat := 16.

(** while (num != 0) tmp[i++] = digits[divide(&num, base)]; [tmp] holds the
    first [i] elements *)
Fixpoint digits_loop (fuel : nat) (num base : Z) (digits tmp : list Z) : M mem (list Z) :=
  match fuel with
  | O => raise OutOfFuel
  | S fuel =>
      if negb (num =? 0) then
        let r := divide num base in
        let* d := the (digits !! Z.to_nat r.1) in
        if (length tmp <? TMP_SIZE)%nat
        then digits_loop fuel r.2 base digits (tmp ++ [d])
        else raise BadPointer
      else ret tmp
  end.
(** while (size-- > 0) put c; the new [buf] and [size] *)
Fixpoint pad_loop (fuel : nat) (c buf e size : Z) : M mem (Z * Z) :=
  match fuel with
  | O => raise OutOfFuel
  | S fuel =>
      if 0 <? size then
        let* buf := put_char buf e c in pad_loop fuel c buf e (size - 1)
      else ret (buf, size - 1)
  end.
Definition pad (c buf e size : Z) : M mem (Z * Z) := pad_loop (S (Z.to_nat size)) c buf e size.
(** while (i < precision--) put '0' *)
Fixpoint zeros_loop (fuel : nat) (buf e i precision : Z) : M mem Z :=
  match fuel with
  | O => raise OutOfFuel
  | S fuel =>
      if i <? precision then
        let* buf := put_char buf e 48 in zeros_loop fuel buf e i (precision - 1)
      else ret buf
  end.
(** while (i-- > 0 && (precision_bak != 0)) put tmp[i] *)
Fixpoint number_loop (fuel : nat) (buf e i precision_bak : Z) (tmp : list Z) : M mem Z :=
  match fuel with
  | O => raise OutOfFuel
  | S fuel =>
      if ((0 <? i) && negb (precision_bak =? 0))%bool then
        let i := i - 1 in
        let* d := the (tmp !! Z.to_nat i) in
        let* buf := put_char buf e d in number_loop fuel buf e i precision_bak tmp
      else ret buf
  end.

(** the sign character, or 0, and the number without its sign *)
Definition get_sign (num type : Z) : Z * Z :=
  if has type SIGN then
    if num <? 0 then (45, s32 (- num))
    else if has type PLUS then (43, num)
    else if has type SPACE then (32, num)
    else (0, num)
  else (0, num).

Definition print_number (buf e num base s precision type : Z) : M mem Z :=
  let digits := if has type LARGE then large_digits else small_digits in
  let type := if has type LEFT then Z.land type (Z.lnot ZEROPAD) else type in
  let c := if has type ZEROPAD then 48 else 32 in
  let sign := (get_sign num type).1 in
  let num := (get_sign num type).2 in
  let* tmp := (if num =? 0 then ret [48] else digits_loop (S (S TMP_SIZE)) num base digits []) in
  let i := Z.of_nat (length tmp) in
  let precision_bak := precision in
  let precision := if precision <? i then i else precision in
  let size := s - precision in
  let* r :=
    (if negb (has type (Z.lor ZEROPAD LEFT)) then
       pad 32 buf e (if truthy sign && (0 <? size) then size - 1 else size)
     else ret (buf, size)) in
  let* r :=
    (if truthy sign then let* buf := put_char r.1 e sign in ret (buf, r.2 - 1) else ret r) in
  let* r := (if negb (has type LEFT) then pad c r.1 e r.2 else ret r) in
  let* buf := zeros_loop (S (Z.to_nat (precision - i))) r.1 e i precision in
  let* buf := number_loop (S (length tmp)) buf e i precision_bak tmp in
  let* r := pad 32 buf e r.2 in
  ret r.1.

(** * rt_vsnprintf *)
Definition va_arg (args : list Z) : M mem (Z * list Z) :=
  match args with [] => raise Undefined | a :: args => ret (a, args) end.

(** while (1) { ++fmt; ... }: the flags, and the position of the first
    character that is none *)
Fixpoint flags_loop (fuel : nat) (fmt flags : Z) : M mem (Z * Z) :=
  match fuel with
  | O => raise OutOfFuel
  | S fuel =>
      let fmt := fmt + 1 in
      let* c := ld8 fmt in
      if c =? 45 then flags_loop fuel fmt (Z.lor flags LEFT)
      else if c =? 43 then flags_loop fuel fmt (Z.lor flags PLUS)
      else if c =? 32 then flags_loop fuel fmt (Z.lor flags SPACE)
      else if c =? 35 then flags_loop fuel fmt (Z.lor flags SPECIAL)
      else if c =? 48 then flags_loop fuel fmt (Z.lor flags ZEROPAD)
      else ret (flags, fmt)
  end.

(** get field width: the width, the flags, the position and the arguments *)
Definition get_width (fmt flags : Z) (args : list Z) : M mem (Z * Z * Z * list Z) :=
  let* c := ld8 fmt in
  if _ISDIGIT c then let* r := skip_atoi fmt in ret (r.1, flags, r.2, args)
  else if c =? 42 then
    let* a := va_arg args in
    let field_width := s32 a.1 in
    if field_width <? 0 then ret (s32 (- field_width), Z.lor flags LEFT, fmt + 1, a.2)
    else ret (field_width, flags, fmt + 1, a.2)
  else ret (-1, flags, fmt, args).

(** get the precision *)
Definition get_precision (fmt : Z) (args : list Z) : M mem (Z * Z * list Z) :=
  let* c := ld8 fmt in
  if c =? 46 then
    let fmt := fmt + 1 in
    let* c := ld8 fmt in
    let* r :=
      (if _ISDIGIT c then let* r := skip_atoi fmt in ret (r.1, r.2, args)
       else if c =? 42 then let* a := va_arg args in ret (s32 a.1, fmt + 1, a.2)
       else ret (-1, fmt, args)) in
    ret (if r.1.1 <? 0 then 0 else r.1.1, r.1.2, r.2)
  else ret (-1, fmt, args).

(** get the conversion qualifier *)
Definition get_qualifier (fmt : Z) : M mem (Z * Z) :=
  let* c := ld8 fmt in
  if ((c =? 104) || (c =? 108))%bool then ret (c, fmt + 1) else ret (0, fmt).

(** while (--field_width > 0) put ' ' *)
Fixpoint pad_pre_loop (fuel : nat) (str e field_width : Z) : M mem (Z * Z) :=
  match fuel with
  | O => raise OutOfFuel
  | S fuel =>
      let field_width := field_width - 1 in
      if 0 <? field_width then
        let* str := put_char str e 32 in pad_pre_loop fuel str e field_width
      else ret (str, field_width)
  end.
Definition pad_pre (str e field_width : Z) : M mem (Z * Z) :=
  pad_pre_loop (S (Z.to_nat field_width)) str e field_width.
Definition print_char (str e field_width flags arg : Z) : M mem Z :=
  let* r := (if negb (has flags LEFT) then pad_pre str e field_width else ret (str, field_width)) in
  let* str := put_char r.1 e (u8 arg) in
  let* r := pad_pre str e r.2 in
  ret r.1.

(** "(NULL)" *)
Definition null_text : list Z := [40; 78; 85; 76; 76; 41].
Definition str_char (s i : Z) : M mem Z :=
  if s =? 0 then the ((null_text ++ [0]) !! Z.to_nat i) else ld8 (s + i).
(** for (len = 0; (len != field_width) && (s[len] != '\0'); len++) *)
Fixpoint len_loop (fuel : nat) (s len field_width : Z) : M mem Z :=
  match fuel with
  | O => raise OutOfFuel
  | S fuel =>
      if negb (len =? field_width) then
        let* c := str_char s len in
        if negb (c =? 0) then len_loop fuel s (len + 1) field_width else ret len
      else ret len
  end.
(** while (len < field_width--) put ' ' *)
Fixpoint pad_len_loop (fuel : nat) (str e len field_width : Z) : M mem (Z * Z) :=
  match fuel with
  | O => raise OutOfFuel
  | S fuel =>
      if len <? field_width then
        let* str := put_char str e 32 in pad_len_loop fuel str e len (field_width - 1)
      else ret (str, field_width - 1)
  end.
Definition pad_len (str e len field_width : Z) : M mem (Z * Z) :=
  pad_len_loop (S (Z.to_nat (field_width - len))) str e len field_width.
(** for (i = 0; i < len; ++i) put s[i] *)
Fixpoint copy_str_loop (fuel : nat) (str e s i len : Z) : M mem Z :=
  match fuel with
  | O => raise OutOfFuel
  | S fuel =>
      if i <? len then
        let* c := str_char s i in
        let* str := put_char str e c in copy_str_loop fuel str e s (i + 1) len
      else ret str
  end.
Definition print_string (str e field_width precision flags s : Z) : M mem Z :=
  let* fuel := str_fuel in
  let* len := len_loop (length null_text + fuel) s 0 field_width in
  let len := if (0 <? precision) && (precision <? len) then precision else len in
  let* r :=
    (if negb (has flags LEFT) then pad_len str e len field_width else ret (str, field_width)) in
  let* str := copy_str_loop (S (Z.to_nat len)) r.1 e s 0 len in
  let* r := pad_len str e len r.2 in
  ret r.1.

(** the number, as the parameter of print_number reads it *)
Definition get_number (qualifier flags arg : Z) : Z :=
  let num :=
    if qualifier =? 108 then (if has flags SIGN then u32 (s32 arg) else u32 arg)
    else if qualifier =? 104 then
      let num := u16 arg in
      if has flags SIGN then u32 ((num + 32768) mod 65536 - 32768) else num
    else (if has flags SIGN then u32 (s32 arg) else u32 arg) in
  s32 num.

(** the cases of the switch that print an integer: its base and flags *)
Definition int_case (c flags : Z) : option (Z * Z) :=
  if c =? 111 then Some (8, flags)
  else if c =? 88 then Some (16, Z.lor flags LARGE)
  else if c =? 120 then Some (16, flags)
  else if ((c =? 100) || (c =? 105))%bool then Some (10, Z.lor flags SIGN)
  else if c =? 117 then Some (10, flags)
  else None.

(** switch ( *fmt ); the new [str], the position of the last character and
    the remaining arguments *)
Definition convert (str e fmt flags field_width precision qualifier : Z) (args : list Z) :
    M mem (Z * Z * list Z) :=
  let* c := ld8 fmt in
  if c =? 99 then
    let* a := va_arg args in
    let* str := print_char str e field_width flags a.1 in ret (str, fmt, a.2)
  else if c =? 115 then
    let* a := va_arg args in
    let* str := print_string str e field_width precision flags (u32 a.1) in ret (str, fmt, a.2)
  else if c =? 112 then
    let flags' := if field_width =? -1 then Z.lor flags ZEROPAD else flags in
    let field_width := if field_width =? -1 then 8 else field_width in
    let* a := va_arg args in
    let* str := print_number str e (s32 a.1) 16 field_width precision flags' in ret (str, fmt, a.2)
  else if c =? 37 then
    let* str := put_char str e 37 in ret (str, fmt, args)
  else
    match int_case c flags with
    | Some (base, flags) =>
        let* a := va_arg args in
        let* str := print_number str e (get_number qualifier flags a.1) base field_width precision flags in
        ret (str, fmt, a.2)
    | None =>
        let* str := put_char str e 37 in
        if negb (c =? 0) then let* str := put_char str e c in ret (str, fmt, args)
        else ret (str, fmt - 1, args)
    end.

(** the body of the for loop for a '%' at [fmt] *)
Definition directive (str e fmt : Z) (args : list Z) : M mem (Z * Z * list Z) :=
  let* fuel := str_fuel in
  let* f := flags_loop fuel fmt 0 in
  let* w := get_width f.2 f.1 args in
  let* p := get_precision w.1.2 w.2 in
  let* q := get_qualifier p.1.2 in
  convert str e q.2 w.1.1.2 w.1.1.1 p.1.1 q.1 p.2.

(** for (; *fmt ; ++fmt) *)
Fixpoint format_loop (fuel : nat) (str e fmt : Z) (args : list Z) : M mem Z :=
  match fuel with
  | O => raise OutOfFuel
  | S fuel =>
      let* c := ld8 fmt in
      if c =? 0 then ret str
      else if negb (c =? 37) then
        let* str := put_char str e c in format_loop fuel str e (fmt + 1) args
      else
        let* r := directive str e fmt args in
        format_loop fuel r.1.1 e (r.1.2 + 1) r.2
  end.

Definition rt_vsnprintf (buf size fmt : Z) (args : list Z) : M mem Z :=
  let e := u32 (buf + size) in
  let size := if e <? buf then u32 (4294967295 - buf) else size in
  let e := if e <? buf then 4294967295 else e in
  let* fuel := str_fuel in
  let* str := format_loop fuel buf e fmt args in
  when (0 <? size) (if str <? e then st8 str 0 else st8 (e - 1) 0);;
  ret (s32 (str - buf)).

Definition rt_snprintf (buf size fmt : Z) (args : list Z) : M mem Z := rt_vsnprintf buf size fmt args.
Definition rt_vsprintf (buf fmt : Z) (args : list Z) : M mem Z := rt_vsnprintf buf 4294967295 fmt args.
Definition rt_sprintf (buf fmt : Z) (args : list Z) : M mem Z := rt_vsprintf buf fmt args.
