(* ===== verification/KPrintfSpec.v ===== *)
(** What rt_vsnprintf prints: a reference text for numbers, characters,
    strings and whole format strings, and the proof that the code of
    [KPrintf] puts exactly that text into its buffer, as far as it fits. *)
From S2P Require Import Prelude KService Mem Heap KString KPrintf.

(** * The text that is printed *)

(** the value of a list of digits, most significant first *)
Definition value_of (b : Z) (ds : list Z) : Z := fold_left (fun n d => n * b + d) ds 0.
(** the digits of [n], without leading zeros *)
Fixpoint to_digits (fuel : nat) (b n : Z) : list Z :=
  match fuel with
  | O => []
  | S fuel => (if n / b =? 0 then [] else to_digits fuel b (n / b)) ++ [n mod b]
  end.
(** the base print_number works with: 10, or 16 for every other one *)
Definition real_base (base : Z) : Z := if base =? 10 then 10 else 16.
Definition digit_char (large : bool) (d : Z) : Z :=
  if d <? 10 then 48 + d else if large then 55 + d else 87 + d.
Definition spaces (n : Z) : list Z := replicate (Z.to_nat n) 32.
Definition zeros (n : Z) : list Z := replicate (Z.to_nat n) 48.

Definition sign_text (num type : Z) : list Z :=
  if has type SIGN then
    if num <? 0 then [45] else if has type PLUS then [43] else if has type SPACE then [32] else []
  else [].
(** the value without its sign; without SIGN the number is unsigned *)
Definition magnitude (num type : Z) : Z :=
  if has type SIGN && (num <? 0) then - num else u32 num.
Definition digits_text (num base type : Z) : list Z :=
  digit_char (has type LARGE) <$> to_digits TMP_SIZE (real_base base) (magnitude num type).
Definition number_text (num base s precision type : Z) : list Z :=
  let sg := sign_text num type in
  let ds := digits_text num base type in
  let len := Z.of_nat (length ds) in
  let body := zeros (precision - len) ++ (if precision =? 0 then [] else ds) in
  let n := s - Z.max precision len - Z.of_nat (length sg) in
  if has type LEFT then sg ++ body ++ spaces n
  else if has type ZEROPAD then sg ++ zeros n ++ body
  else spaces n ++ sg ++ body.

(** ** Digits *)
Lemma value_of_snoc b ds d : value_of b (ds ++ [d]) = value_of b ds * b + d.
Proof. unfold value_of. by rewrite fold_left_app. Qed.
Lemma to_digits_value fuel b n : 2 <= b -> 0 <= n < b ^ Z.of_nat fuel -> value_of b (to_digits fuel b n) = n.
Proof.
  intros Hb. revert n. induction fuel as [|fuel IH]; intros n Hn; [cbn in *; lia|]. cbn [to_digits].
  rewrite value_of_snoc. pose proof (Z.div_mod n b ltac:(lia)).
  assert (Hq : 0 <= n / b < b ^ Z.of_nat fuel).
  { split; [apply Z.div_pos; lia|]. apply Z.div_lt_upper_bound; [lia|].
    rewrite <- Z.pow_succ_r, <- Nat2Z.inj_succ by lia. lia. }
  destruct (Z.eqb_spec (n / b) 0) as [E|]; [cbn; lia|]. rewrite (IH _ Hq). lia.
Qed.
Lemma to_digits_range fuel b n : 2 <= b -> Forall (fun d => 0 <= d < b) (to_digits fuel b n).
Proof.
  intros Hb. revert n. induction fuel as [|fuel IH]; intros n; [constructor|]. cbn [to_digits].
  apply Forall_app. split; [by destruct (n / b =? 0)|].
  constructor; [apply Z.mod_pos_bound; lia|constructor].
Qed.
Lemma length_to_digits fuel b n : (length (to_digits fuel b n) <= fuel)%nat.
Proof.
  revert n. induction fuel as [|fuel IH]; intros n; cbn [to_digits length]; [lia|].
  rewrite length_app. cbn. destruct (n / b =? 0); cbn [length]; [lia|]. specialize (IH (n / b)). lia.
Qed.
Lemma digits_lookup large d :
  0 <= d < 16 ->
  (if large : bool then large_digits else small_digits) !! Z.to_nat d = Some (digit_char large d).
Proof.
  intros Hd. assert (Hall : forallb (fun d =>
    bool_decide (small_digits !! Z.to_nat d = Some (digit_char false d)) &&
    bool_decide (large_digits !! Z.to_nat d = Some (digit_char true d)))
    (Z.of_nat <$> seq 0 16) = true) by (vm_compute; reflexivity).
  rewrite forallb_forall in Hall. specialize (Hall d).
  rewrite andb_true_iff, !bool_decide_eq_true in Hall.
  destruct large; apply Hall, list_elem_of_In, list_elem_of_fmap; exists (Z.to_nat d);
    rewrite elem_of_seq; lia.
Qed.
Lemma divide_run n base : divide n base = (u32 n mod real_base base, s32 (u32 n / real_base base)).
Proof.
  unfold divide, real_base. pose proof (u32_range n).
  destruct (base =? 10); rewrite (s32_small (_ mod _)); try done;
    [pose proof (Z.mod_pos_bound (u32 n) 10)|pose proof (Z.mod_pos_bound (u32 n) 16)]; lia.
Qed.
Lemma u32_s32 x : u32 (s32 x) = u32 x.
Proof.
  unfold u32, s32. rewrite Zminus_mod_idemp_l. f_equal. lia.
Qed.
Lemma s32_zero x : s32 x = 0 <-> u32 x = 0.
Proof.
  rewrite <- (u32_s32 x). pose proof (s32_range x) as Hr. revert Hr. generalize (s32 x). intros y Hr.
  unfold u32. split; [by intros ->|]. intros E. apply Z.mod_divide in E as [k E]; [|lia]. lia.
Qed.

(** the digits come out least significant first *)
Lemma digits_loop_run fuel k num base large tmp m :
  (length tmp + fuel <= 16)%nat -> 0 < u32 num < real_base base ^ Z.of_nat fuel -> (fuel < k)%nat ->
  -2147483648 <= num < 4294967296 ->
  digits_loop k num base (if large : bool then large_digits else small_digits) tmp m =
    Ok (tmp ++ rev (digit_char large <$> to_digits fuel (real_base base) (u32 num)), m).
Proof.
  assert (Hb : 10 <= real_base base <= 16) by (unfold real_base; destruct (base =? 10); lia).
  revert k num tmp. induction fuel as [|fuel IH]; intros k num tmp Ht Hn Hk Hs; [cbn in *; lia|].
  destruct k as [|k]; [lia|]. cbn [digits_loop]. rewrite divide_run. cbn [fst snd].
  rewrite (proj2 (Z.eqb_neq num 0)) by (intros ->; change (u32 0) with 0 in Hn; lia). cbn [negb].
  set (b := real_base base) in *. set (n := u32 num) in *.
  pose proof (Z.mod_pos_bound n b ltac:(lia)). pose proof (Z.div_mod n b ltac:(lia)).
  rewrite digits_lookup by lia. erewrite bind_run; [cbv beta|reflexivity].
  rewrite (proj2 (Nat.ltb_lt _ _)) by (unfold TMP_SIZE; lia). cbn [to_digits].
  assert (Hq : 0 <= n / b < b ^ Z.of_nat fuel).
  { split; [apply Z.div_pos; lia|]. apply Z.div_lt_upper_bound; [lia|].
    rewrite <- Z.pow_succ_r, <- Nat2Z.inj_succ by lia. lia. }
  pose proof (u32_range num) as Rn. fold n in Rn.
  assert (Hq2 : n / b < 2147483648) by (apply Z.div_lt_upper_bound; lia).
  rewrite s32_small by lia. rewrite fmap_app, rev_app_distr. cbn [fmap list_fmap rev app].
  destruct (Z.eqb_spec (n / b) 0) as [E|E].
  - rewrite E. destruct k as [|k]; [|by cbn [digits_loop]].
    destruct fuel; [|lia]. cbn in Hn. lia.
  - rewrite IH.
    + rewrite u32_small by lia. by rewrite <- app_assoc.
    + rewrite length_app. cbn. lia.
    + rewrite u32_small by lia. lia.
    + lia.
    + lia.
Qed.

(** ** Output with a limit *)
Section output.
Context (m0 : mem) (buf cap lim : Z).
Context (Hbuf : 0 <= buf) (Hcap : 0 <= cap) (Hmap : mapped m0 buf lim).

(** the memory and the position after the text [out]; what is over [cap]
    bytes is dropped *)
Definition printed (out : list Z) : mem := store_bytes buf (take (Z.to_nat cap) out) m0.
Definition pos (out : list Z) : Z := buf + Z.of_nat (length out).
(** [k] characters of output are in range *)
Definition fits (k : nat) : Prop := buf + Z.of_nat k < 4294967296 /\ Z.min cap (Z.of_nat k) <= lim.

(** [code] prints the text [t] *)
Definition prints (t : list Z) (code : Z -> M mem Z) : Prop := forall out,
  fits (length (out ++ t)) -> code (pos out) (printed out) = Ok (pos (out ++ t), printed (out ++ t)).

Lemma fits_le j k : (j <= k)%nat -> fits k -> fits j.
Proof using. unfold fits. lia. Qed.
Lemma fits_app (out t k : list Z) : fits (length (out ++ t ++ k)) -> fits (length (out ++ t)).
Proof using. apply fits_le. rewrite !length_app. lia. Qed.

Lemma prints_char c : prints [u8 c] (fun str => put_char str (buf + cap) c).
Proof using Hbuf Hcap Hmap.
  intros out [F1 F2]. rewrite length_app in F1, F2. cbn [length] in F1, F2. unfold put_char, pos, printed.
  rewrite length_app. cbn [length].
  assert (E : when (buf + Z.of_nat (length out) <? buf + cap) (st8 (buf + Z.of_nat (length out)) c)
      (store_bytes buf (take (Z.to_nat cap) out) m0) =
    Ok (tt, store_bytes buf (take (Z.to_nat cap) (out ++ [u8 c])) m0)).
  { destruct (Z.ltb_spec (buf + Z.of_nat (length out)) (buf + cap)).
    - cbn [when]. rewrite st8_run.
      + rewrite !take_ge by (rewrite ?length_app; cbn [length]; lia).
        by rewrite store_bytes_app.
      + apply mapped_store_bytes. eapply mapped_sub; [exact Hmap|lia..].
    - cbn [when]. by rewrite take_app_le by lia. }
  erewrite bind_run; [cbv beta|exact E]. rewrite u32_small by lia. unfold ret. do 2 f_equal. lia.
Qed.
Lemma prints_nil : prints [] ret.
Proof using. intros out _. by rewrite app_nil_r. Qed.
Lemma prints_bind t k code1 code2 :
  prints t code1 -> prints k code2 -> prints (t ++ k) (fun str => let* str := code1 str in code2 str).
Proof using.
  intros H1 H2 out Hf. erewrite bind_run; [cbv beta|apply H1; by eapply fits_app].
  rewrite app_assoc in Hf |- *. by apply H2.
Qed.
(** the code of the next step may depend on a value *)
Lemma prints_step {A} t k code (r : A) (code2 : Z -> A -> M mem Z) (f : Z * A -> M mem Z) :
  (forall out, fits (length (out ++ t)) ->
     code (pos out) (printed out) = Ok ((pos (out ++ t), r), printed (out ++ t))) ->
  prints k (fun str => f (str, r)) ->
  prints (t ++ k) (fun str => let* r := code str in f r).
Proof using.
  intros H1 H2 out Hf. erewrite bind_run; [cbv beta|apply H1; by eapply fits_app].
  rewrite app_assoc in Hf |- *. by apply H2.
Qed.

(** ** Padding *)
Lemma pad_loop_run fuel c size out :
  u8 c = c -> (Z.to_nat size < fuel)%nat -> fits (length (out ++ replicate (Z.to_nat size) c)) ->
  pad_loop fuel c (pos out) (buf + cap) size (printed out) =
    Ok ((pos (out ++ replicate (Z.to_nat size) c), Z.min (size - 1) (-1)),
        printed (out ++ replicate (Z.to_nat size) c)).
Proof using Hbuf Hcap Hmap.
  intros Hc. revert size out. induction fuel as [|fuel IH]; intros size out Hf Hfit; [lia|].
  cbn [pad_loop]. destruct (Z.ltb_spec 0 size).
  - replace (Z.to_nat size) with (S (Z.to_nat (size - 1))) in * by lia.
    cbn [replicate] in *. rewrite cons_middle, app_assoc in Hfit |- *.
    erewrite bind_run; [cbv beta|apply prints_char; rewrite Hc; eapply fits_le; [|exact Hfit];
      rewrite (length_app _ (replicate _ _)); lia].
    rewrite Hc, IH; [|lia|done]. do 3 f_equal. lia.
  - replace (Z.to_nat size) with 0%nat by lia. cbn [replicate]. rewrite app_nil_r.
    unfold ret. do 3 f_equal. lia.
Qed.
Lemma pad_run c size out :
  u8 c = c -> fits (length (out ++ replicate (Z.to_nat size) c)) ->
  pad c (pos out) (buf + cap) size (printed out) =
    Ok ((pos (out ++ replicate (Z.to_nat size) c), Z.min (size - 1) (-1)),
        printed (out ++ replicate (Z.to_nat size) c)).
Proof using Hbuf Hcap Hmap. intros. apply pad_loop_run; [done|lia|done]. Qed.
Lemma zeros_loop_run fuel i precision out :
  (Z.to_nat (precision - i) < fuel)%nat -> fits (length (out ++ zeros (precision - i))) ->
  zeros_loop fuel (pos out) (buf + cap) i precision (printed out) =
    Ok (pos (out ++ zeros (precision - i)), printed (out ++ zeros (precision - i))).
Proof using Hbuf Hcap Hmap.
  revert precision out. induction fuel as [|fuel IH]; intros precision out Hf Hfit; [lia|].
  cbn [zeros_loop]. unfold zeros in *. destruct (Z.ltb_spec i precision).
  - replace (Z.to_nat (precision - i)) with (S (Z.to_nat (precision - 1 - i))) in * by lia.
    cbn [replicate] in *. rewrite cons_middle, app_assoc in Hfit |- *.
    erewrite bind_run; [cbv beta|apply prints_char; change (u8 48) with 48; eapply fits_le; [|exact Hfit];
      rewrite (length_app _ (replicate _ _)); lia].
    change (u8 48) with 48. by apply IH; [lia|].
  - replace (Z.to_nat (precision - i)) with 0%nat by lia. cbn [replicate]. by rewrite app_nil_r.
Qed.
Lemma number_loop_run fuel i bak tmp out :
  Forall (fun c => 0 <= c < 256) tmp -> (i <= length tmp)%nat -> (i < fuel)%nat ->
  let t := if bak =? 0 then [] else rev (take i tmp) in
  fits (length (out ++ t)) ->
  number_loop fuel (pos out) (buf + cap) (Z.of_nat i) bak tmp (printed out) =
    Ok (pos (out ++ t), printed (out ++ t)).
Proof using Hbuf Hcap Hmap.
  intros Hb. revert i out. induction fuel as [|fuel IH]; intros i out Hi Hf t Hfit; [lia|].
  cbn [number_loop]. subst t. destruct (Z.eqb_spec bak 0) as [->|Hbak].
  { rewrite andb_false_r. by rewrite app_nil_r. }
  rewrite andb_true_r. destruct i as [|i]; [cbn; by rewrite app_nil_r|].
  rewrite (proj2 (Z.ltb_lt 0 _)) by lia. cbv zeta.
  replace (Z.of_nat (S i) - 1) with (Z.of_nat i) by lia. rewrite Nat2Z.id.
  destruct (lookup_lt_is_Some_2 tmp i) as [d Hd]; [lia|]. rewrite Hd.
  assert (Hdb : u8 d = d) by (apply u8_small; by apply (Forall_lookup_1 _ _ _ _ Hb Hd)).
  rewrite (take_S_r _ _ _ Hd), rev_app_distr in Hfit |- *. cbn [rev app] in Hfit |- *.
  rewrite cons_middle, app_assoc in Hfit |- *.
  erewrite bind_run; [cbv beta|reflexivity].
  erewrite bind_run; [cbv beta|apply prints_char; rewrite Hdb; eapply fits_le; [|exact Hfit];
    rewrite (length_app _ (rev _)); lia].
  rewrite Hdb. specialize (IH i (out ++ [d]) ltac:(lia) ltac:(lia)).
  by apply IH.
Qed.

(** ** print_number *)
Lemma has_lor type f g :
  has type (Z.lor f g) = (has type f || has type g)%bool.
Proof using.
  unfold has. rewrite Z.land_lor_distr_r. unfold truthy.
  destruct (Z.eqb_spec (Z.lor (Z.land type f) (Z.land type g)) 0) as [E|E].
  - apply Z.lor_eq_0_iff in E as [-> ->]. done.
  - destruct (Z.eqb_spec (Z.land type f) 0) as [E1|], (Z.eqb_spec (Z.land type g) 0) as [E2|]; try done.
    by rewrite E1, E2 in E.
Qed.
(** type &= ~ZEROPAD leaves the other flags alone *)
Lemma has_clear type f : Z.land f ZEROPAD = 0 -> has (Z.land type (Z.lnot ZEROPAD)) f = has type f.
Proof using.
  intros Hf. unfold has. f_equal. rewrite <- Z.land_assoc. f_equal.
  apply Z.bits_inj'. intros i Hi. rewrite Z.land_spec, Z.lnot_spec by done.
  assert (E : Z.testbit (Z.land f ZEROPAD) i = false) by (rewrite Hf; apply Z.bits_0).
  rewrite Z.land_spec in E. destruct (Z.testbit f i), (Z.testbit ZEROPAD i); done.
Qed.
Lemma has_cleared type : has (Z.land type (Z.lnot ZEROPAD)) ZEROPAD = false.
Proof using.
  unfold has. rewrite <- Z.land_assoc, (Z.land_comm (Z.lnot _)), Z.land_lnot_diag, Z.land_0_r. done.
Qed.

Lemma number_digits_run num base type m :
  -2147483648 <= num < 2147483648 ->
  (if (get_sign num type).2 =? 0 then ret [48]
   else digits_loop (S (S TMP_SIZE)) (get_sign num type).2 base
     (if has type LARGE then large_digits else small_digits) []) m =
  Ok (rev (digits_text num base type), m).
Proof using.
  intros Hn. unfold digits_text.
  assert (Es : (get_sign num type).2 = 0 <-> magnitude num type = 0).
  { unfold get_sign, magnitude. destruct (has type SIGN); cbn [andb].
    - destruct (Z.ltb_spec num 0); cbn [snd].
      + rewrite s32_zero. unfold u32. split; [|lia]. intros E. apply Z.mod_divide in E as [k E]; lia.
      + destruct (has type PLUS), (has type SPACE); cbn [snd]; by rewrite u32_small by lia.
    - cbn [snd]. unfold u32. split; [by intros ->|]. intros E. apply Z.mod_divide in E as [k E]; lia. }
  assert (Em : u32 (get_sign num type).2 = magnitude num type).
  { unfold get_sign, magnitude. destruct (has type SIGN); cbn [andb]; [|done].
    destruct (Z.ltb_spec num 0); cbn [snd].
    - rewrite u32_s32. by rewrite u32_small by lia.
    - by destruct (has type PLUS), (has type SPACE). }
  assert (Hr : -2147483648 <= (get_sign num type).2 < 4294967296).
  { unfold get_sign. pose proof (s32_range (- num)). repeat case_match; cbn [snd]; lia. }
  assert (Hm : 0 <= magnitude num type < 4294967296) by (rewrite <- Em; apply u32_range).
  destruct (Z.eqb_spec (get_sign num type).2 0) as [E|E].
  - apply Es in E. rewrite E. unfold real_base. by destruct (base =? 10), (has type LARGE).
  - rewrite Es in E. rewrite (digits_loop_run TMP_SIZE); [by rewrite Em|unfold TMP_SIZE; cbn; lia| |unfold TMP_SIZE; lia|done].
    rewrite Em. unfold real_base, TMP_SIZE. destruct (base =? 10); lia.
Qed.

Lemma pad_none c size out :
  size <= 0 -> pad c (pos out) (buf + cap) size (printed out) = Ok ((pos out, size - 1), printed out).
Proof using.
  intros Hs. unfold pad. cbn [pad_loop]. by rewrite (proj2 (Z.ltb_ge 0 size)) by lia.
Qed.
Lemma sign_run num type size out :
  fits (length (out ++ sign_text num type)) ->
  (if truthy (get_sign num type).1
   then let* buf := put_char (pos out) (buf + cap) (get_sign num type).1 in ret (buf, size - 1)
   else ret (pos out, size)) (printed out) =
  Ok ((pos (out ++ sign_text num type), size - Z.of_nat (length (sign_text num type))),
      printed (out ++ sign_text num type)).
Proof using Hbuf Hcap Hmap.
  intros Hf. unfold get_sign, sign_text in *.
  repeat case_match; cbn [fst length] in *; try discriminate;
    first [by (erewrite bind_run; [cbv beta; reflexivity|by apply prints_char])
          |rewrite app_nil_r; unfold ret; cbn; by rewrite Z.sub_0_r].
Qed.
(** the digits and the zeros before them *)
Lemma body_run num base type precision :
  let len := Z.of_nat (length (digits_text num base type)) in
  let tmp := rev (digits_text num base type) in
  let p := if precision <? len then len else precision in
  prints (zeros (precision - len) ++ (if precision =? 0 then [] else digits_text num base type))
    (fun str => let* str := zeros_loop (S (Z.to_nat (p - len))) str (buf + cap) len p in
                number_loop (S (length tmp)) str (buf + cap) len precision tmp).
Proof using Hbuf Hcap Hmap.
  intros len tmp p. assert (Ep : zeros (precision - len) = zeros (p - len)).
  { unfold zeros, p. destruct (Z.ltb_spec precision len); [|done]. f_equal. lia. }
  rewrite Ep. apply prints_bind.
  - intros out Hf. apply zeros_loop_run; [lia|done].
  - intros out Hf. pose proof (number_loop_run (S (length tmp)) (length tmp) precision tmp out) as H.
    assert (Er : rev tmp = digits_text num base type) by apply rev_involutive.
    cbv zeta in H. rewrite firstn_all, Er in H.
    replace len with (Z.of_nat (length tmp)) by (unfold tmp; rewrite length_rev; lia).
    apply H; [|lia|lia|done].
    unfold tmp. apply Forall_rev. unfold digits_text. apply Forall_fmap.
    eapply Forall_impl; [apply to_digits_range; unfold real_base; destruct (base =? 10); lia|].
    intros d Hd. unfold compose, digit_char. cbn in Hd |- *.
    assert (d < 16) by (revert Hd; unfold real_base; destruct (base =? 10); lia).
    destruct (Z.ltb_spec d 10), (has type LARGE); lia.
Qed.

Lemma print_number_run num base s precision type :
  -2147483648 <= num < 2147483648 ->
  prints (number_text num base s precision type)
    (fun str => print_number str (buf + cap) num base s precision type).
Proof using Hbuf Hcap Hmap.
  intros Hn out Hf. unfold print_number, number_text in *.
  set (sg := sign_text num type) in *. set (ds := digits_text num base type) in *.
  set (body := zeros _ ++ _) in *.
  set (type' := if has type LEFT then Z.land type (Z.lnot ZEROPAD) else type).
  assert (Hk : forall f, Z.land f ZEROPAD = 0 -> has type' f = has type f).
  { intros f Hz. unfold type'. destruct (has type LEFT); [by apply has_clear|done]. }
  assert (Hz : has type' ZEROPAD = (negb (has type LEFT) && has type ZEROPAD)%bool).
  { unfold type'. destruct (has type LEFT); [apply has_cleared|done]. }
  assert (Esg : get_sign num type' = get_sign num type) by (unfold get_sign; by rewrite !Hk).
  cbv zeta. rewrite Esg. erewrite bind_run; [cbv beta|by apply number_digits_run]. fold ds.
  rewrite length_rev. rewrite has_lor, (Hk LEFT), Hz by done.
  set (len := Z.of_nat (length ds)) in *. set (p := if precision <? len then len else precision).
  assert (Ep : p = Z.max precision len) by (unfold p; destruct (Z.ltb_spec precision len); lia).
  rewrite <- Ep in *. set (n := s - p - Z.of_nat (length sg)) in *.
  assert (Hbody : prints body (fun str =>
    let* str := zeros_loop (S (Z.to_nat (p - len))) str (buf + cap) len p in
    number_loop (S (length ds)) str (buf + cap) len precision (rev ds))).
  { pose proof (body_run num base type precision) as H. cbv zeta in H. fold ds in H.
    rewrite length_rev in H. exact H. }
  assert (Hsg : truthy (get_sign num type).1 = (0 <? Z.of_nat (length sg))).
  { unfold sg, get_sign, sign_text. by repeat case_match. }
  assert (Hl : Z.of_nat (length sg) <= 1) by (unfold sg, sign_text; repeat case_match; cbn; lia).
  assert (Hbn : forall (f : Z -> M mem Z) o, fits (length (o ++ body)) ->
    (let* str := zeros_loop (S (Z.to_nat (p - len))) (pos o) (buf + cap) len p in
     let* str := number_loop (S (length ds)) str (buf + cap) len precision (rev ds) in f str) (printed o) =
    f (pos (o ++ body)) (printed (o ++ body))).
  { intros f o Ho. rewrite <- bind_assoc. by erewrite bind_run; [|apply (Hbody o Ho)]. }
  destruct (has type LEFT) eqn:HL; cbn [negb andb orb] in *; [|destruct (has type ZEROPAD) eqn:HZ; cbn [negb orb] in *].
  - (* left: sign, body, spaces *)
    rewrite !app_assoc in Hf |- *. erewrite bind_run; [cbv beta|reflexivity]. cbn [fst snd].
    erewrite bind_run; [cbv beta|apply sign_run; fold sg; eapply fits_le; [|exact Hf];
      rewrite !length_app; lia]. cbn [fst snd]. fold sg n.
    erewrite bind_run; [cbv beta|reflexivity]. cbn [fst snd].
    rewrite Hbn by (eapply fits_le; [|exact Hf]; rewrite !length_app; lia).
    erewrite bind_run; [|by apply pad_run]. done.
  - (* zeros after the sign *)
    rewrite !app_assoc in Hf |- *. erewrite bind_run; [cbv beta|reflexivity]. cbn [fst snd].
    erewrite bind_run; [cbv beta|apply sign_run; fold sg; eapply fits_le; [|exact Hf];
      rewrite !length_app; lia]. cbn [fst snd]. fold sg n.
    erewrite bind_run; [cbv beta|apply pad_run; [done|]; fold (zeros n);
      eapply fits_le; [|exact Hf]; rewrite !length_app; lia]. cbn [fst snd]. fold (zeros n).
    rewrite Hbn by done. erewrite bind_run; [|apply pad_none; lia]. done.
  - (* spaces before the sign *)
    rewrite !app_assoc in Hf |- *.
    set (n1 := if truthy _ && _ then s - p - 1 else s - p).
    assert (E1 : replicate (Z.to_nat n1) 32 = spaces n).
    { unfold spaces, n1, n. f_equal. rewrite Hsg.
      destruct (Z.ltb_spec 0 (Z.of_nat (length sg))), (Z.ltb_spec 0 (s - p)); cbn [andb]; lia. }
    erewrite bind_run; [cbv beta|apply pad_run; [done|]; rewrite E1;
      eapply fits_le; [|exact Hf]; rewrite !length_app; lia]. cbn [fst snd]. rewrite E1.
    erewrite bind_run; [cbv beta|apply sign_run; fold sg; eapply fits_le; [|exact Hf];
      rewrite !length_app; lia]. cbn [fst snd]. fold sg.
    erewrite bind_run; [cbv beta|apply pad_none; lia]. cbn [fst snd].
    rewrite Hbn by done. erewrite bind_run; [|apply pad_none; lia]. done.
Qed.

(** ** Characters and strings *)
Definition char_text (w flags c : Z) : list Z :=
  if has flags LEFT then [u8 c] ++ spaces (w - 1) else spaces (w - 1) ++ [u8 c].
(** the width also cuts a string off; a precision of 0 does not *)
Definition cut (w precision : Z) (text : list Z) : list Z :=
  let text := if w <? 0 then text else take (Z.to_nat w) text in
  if 0 <? precision then take (Z.to_nat precision) text else text.
Definition string_text (w precision flags : Z) (text : list Z) : list Z :=
  let text := cut w precision text in
  let n := w - Z.of_nat (length text) in
  if has flags LEFT then text ++ spaces n else spaces n ++ text.

Lemma pad_pre_run w out :
  fits (length (out ++ spaces (w - 1))) ->
  pad_pre (pos out) (buf + cap) w (printed out) =
    Ok ((pos (out ++ spaces (w - 1)), Z.min (w - 1) 0), printed (out ++ spaces (w - 1))).
Proof using Hbuf Hcap Hmap.
  unfold pad_pre, spaces. assert (Hfu : (Z.to_nat (w - 1) < S (Z.to_nat w))%nat) by lia. revert Hfu.
  generalize (S (Z.to_nat w)). intros fuel. revert w out. induction fuel as [|fuel IH]; intros w out Hf Hfit; [lia|].
  cbn [pad_pre_loop]. cbv zeta. destruct (Z.ltb_spec 0 (w - 1)).
  - replace (Z.to_nat (w - 1)) with (S (Z.to_nat (w - 1 - 1))) in * by lia.
    cbn [replicate] in *. rewrite cons_middle, app_assoc in Hfit |- *.
    erewrite bind_run; [cbv beta|apply prints_char; change (u8 32) with 32; eapply fits_le; [|exact Hfit];
      rewrite (length_app _ (replicate _ _)); lia].
    change (u8 32) with 32. rewrite IH; [|lia|done]. do 3 f_equal. lia.
  - replace (Z.to_nat (w - 1)) with 0%nat by lia. cbn [replicate]. rewrite app_nil_r.
    unfold ret. do 3 f_equal. lia.
Qed.
Lemma u8_u8 c : u8 (u8 c) = u8 c.
Proof using. apply u8_small, u8_range. Qed.
Lemma print_char_run w flags c :
  prints (char_text w flags c) (fun str => print_char str (buf + cap) w flags c).
Proof using Hbuf Hcap Hmap.
  intros out Hf. unfold print_char, char_text in *. destruct (has flags LEFT); cbn [negb].
  - rewrite app_assoc in Hf |- *. erewrite bind_run; [cbv beta|reflexivity]. cbn [fst snd].
    erewrite bind_run; [cbv beta|apply prints_char; rewrite u8_u8; by eapply fits_le; [|exact Hf];
      rewrite (length_app (_ ++ _)); lia]. rewrite u8_u8.
    erewrite bind_run; [|by apply pad_pre_run]. done.
  - rewrite app_assoc in Hf |- *.
    erewrite bind_run; [cbv beta|apply pad_pre_run; eapply fits_le; [|exact Hf];
      rewrite (length_app (_ ++ _)); lia]. cbn [fst snd].
    erewrite bind_run; [cbv beta|apply prints_char; by rewrite u8_u8]. rewrite u8_u8.
    assert (E : spaces (Z.min (w - 1) 0 - 1) = []).
    { unfold spaces. by replace (Z.to_nat _) with 0%nat by lia. }
    erewrite bind_run; [|apply pad_pre_run; by rewrite E, app_nil_r]. by rewrite E, app_nil_r.
Qed.

(** the string a %s prints: NULL is printed as "(NULL)" *)
Definition str_src (m : mem) (s : Z) (text : list Z) : Prop :=
  s = 0 /\ text = null_text \/ s <> 0 /\ cstr m s text.
Lemma str_src_bytes m s text : str_src m s text -> Forall (fun c => 0 < c < 256) text.
Proof using.
  intros [[_ ->]|[_ H]]; [|by eapply cstr_bytes].
  unfold null_text. repeat constructor; lia.
Qed.
Lemma str_char_run m s text i :
  str_src m s text -> (i <= length text)%nat ->
  exists c, (text ++ [0]) !! i = Some c /\ str_char s (Z.of_nat i) m = Ok (c, m).
Proof using.
  intros Hs Hi. destruct (lookup_lt_is_Some_2 (text ++ [0]) i) as [c Hc];
    [rewrite length_app; cbn; lia|]. exists c. split; [done|]. unfold str_char.
  destruct Hs as [[-> ->]|[Hs Hc2]].
  - change (0 =? 0) with true. cbv iota. rewrite Nat2Z.id, Hc. done.
  - rewrite (proj2 (Z.eqb_neq s 0)) by done. pose proof (cstr_mapped _ _ _ Hc2) as (? & ? & _).
    apply ld8_run; [lia|]. by eapply cstr_lookup.
Qed.
Lemma str_char_text m s text i c :
  str_src m s text -> text !! i = Some c -> str_char s (Z.of_nat i) m = Ok (c, m) /\ 0 < c < 256.
Proof using.
  intros Hs Hc. pose proof (lookup_lt_Some _ _ _ Hc) as Hi.
  destruct (str_char_run m s text i Hs ltac:(lia)) as (d & Hd & ->).
  rewrite lookup_app_l in Hd by done. pose proof (str_src_bytes _ _ _ Hs) as Hb.
  rewrite Hc in Hd. injection Hd as <-. split; [done|]. by apply (Forall_lookup_1 _ _ _ _ Hb Hc).
Qed.
Lemma len_loop_run fuel m s text w i :
  str_src m s text -> (i <= length (cut w 0 text))%nat -> (length text < fuel + i)%nat ->
  len_loop fuel s (Z.of_nat i) w m = Ok (Z.of_nat (length (cut w 0 text)), m).
Proof using.
  intros Hs. unfold cut. change (0 <? 0) with false. cbv iota. revert i.
  induction fuel as [|fuel IH]; intros i Hi Hf.
  { destruct (w <? 0); [lia|]. rewrite length_take in Hi. lia. }
  cbn [len_loop]. destruct (Z.eqb_spec (Z.of_nat i) w) as [<-|Hne]; cbn [negb].
  - rewrite (proj2 (Z.ltb_ge _ 0)) in * by lia. rewrite Nat2Z.id in *. rewrite length_take in *.
    unfold ret. do 2 f_equal. lia.
  - assert (Hl : (i <= length text)%nat) by (destruct (w <? 0); rewrite ?length_take in Hi; lia).
    destruct (decide (i = length text)) as [->|Hlt].
    + destruct (str_char_run m s text _ Hs Hl) as (c & Hc & E). rewrite lookup_app_r, Nat.sub_diag in Hc by lia.
      injection Hc as <-. erewrite bind_run; [cbv beta|exact E]. change (0 =? 0) with true. cbn [negb].
      unfold ret. destruct (w <? 0); [done|]. rewrite length_take in *. do 2 f_equal. lia.
    + destruct (lookup_lt_is_Some_2 text i) as [c Hc]; [lia|].
      destruct (str_char_text m s text i c Hs Hc) as [E Hcr].
      erewrite bind_run; [cbv beta|exact E]. rewrite (proj2 (Z.eqb_neq c 0)) by lia. cbn [negb].
      replace (Z.of_nat i + 1) with (Z.of_nat (S i)) by lia. apply IH; [|lia].
      destruct (Z.ltb_spec w 0); rewrite ?length_take in *; lia.
Qed.
Lemma pad_len_run len w out :
  fits (length (out ++ spaces (w - len))) ->
  pad_len (pos out) (buf + cap) len w (printed out) =
    Ok ((pos (out ++ spaces (w - len)), Z.min w len - 1), printed (out ++ spaces (w - len))).
Proof using Hbuf Hcap Hmap.
  unfold pad_len, spaces. assert (Hfu : (Z.to_nat (w - len) < S (Z.to_nat (w - len)))%nat) by lia. revert Hfu.
  generalize (S (Z.to_nat (w - len))). intros fuel. revert w out.
  induction fuel as [|fuel IH]; intros w out Hf Hfit; [lia|].
  cbn [pad_len_loop]. destruct (Z.ltb_spec len w).
  - replace (Z.to_nat (w - len)) with (S (Z.to_nat (w - 1 - len))) in * by lia.
    cbn [replicate] in *. rewrite cons_middle, app_assoc in Hfit |- *.
    erewrite bind_run; [cbv beta|apply prints_char; change (u8 32) with 32; eapply fits_le; [|exact Hfit];
      rewrite (length_app _ (replicate _ _)); lia].
    change (u8 32) with 32. rewrite IH; [|lia|done]. do 3 f_equal. lia.
  - replace (Z.to_nat (w - len)) with 0%nat by lia. cbn [replicate]. rewrite app_nil_r.
    unfold ret. do 3 f_equal. lia.
Qed.

(** a string outside of the output buffer can be read at any time *)
Definition outside (p : Z) (l : list Z) : Prop := p + Z.of_nat (length l) < buf \/ buf + lim <= p.
Lemma printed_cstr p l out : fits (length out) -> cstr m0 p l -> outside p l -> cstr (printed out) p l.
Proof using Hcap.
  intros [_ Hf] Hl Ho. apply cstr_store_bytes; [done|]. rewrite length_take. unfold outside in Ho. lia.
Qed.
Definition str_arg (s : Z) (text : list Z) : Prop :=
  s = 0 /\ text = null_text \/ s <> 0 /\ cstr m0 s text /\ outside s text.
Lemma str_arg_src s text out : fits (length out) -> str_arg s text -> str_src (printed out) s text.
Proof using Hcap.
  intros Hf [?|(? & ? & ?)]; [by left|right]. split; [done|]. by apply printed_cstr.
Qed.

Lemma copy_str_run fuel s text i len out :
  str_arg s text -> (i <= len <= length text)%nat -> (len < fuel + i)%nat ->
  fits (length (out ++ drop i (take len text))) ->
  copy_str_loop fuel (pos out) (buf + cap) s (Z.of_nat i) (Z.of_nat len) (printed out) =
    Ok (pos (out ++ drop i (take len text)), printed (out ++ drop i (take len text))).
Proof using Hbuf Hcap Hmap.
  intros Hs. revert i out. induction fuel as [|fuel IH]; intros i out Hi Hf Hfit; [lia|].
  cbn [copy_str_loop]. destruct (Z.ltb_spec (Z.of_nat i) (Z.of_nat len)).
  - destruct (lookup_lt_is_Some_2 text i) as [c Hc]; [lia|].
    assert (Hc' : take len text !! i = Some c) by (rewrite lookup_take_lt by lia; done).
    rewrite (drop_S _ _ _ Hc') in Hfit |- *. rewrite cons_middle, app_assoc in Hfit |- *.
    assert (Hf1 : fits (length (out ++ [c]))).
    { eapply fits_le; [|exact Hfit]. rewrite (length_app (_ ++ _)). lia. }
    destruct (str_char_text (printed out) s text i c) as [E Hcr]; [|done|].
    { apply str_arg_src; [|done]. eapply fits_le; [|exact Hf1]. rewrite length_app. lia. }
    erewrite bind_run; [cbv beta|exact E].
    erewrite bind_run; [cbv beta|apply prints_char; by rewrite u8_small by lia].
    rewrite u8_small by lia. replace (Z.of_nat i + 1) with (Z.of_nat (S i)) by lia.
    apply IH; [lia|lia|done].
  - rewrite drop_ge by (rewrite length_take; lia). by rewrite app_nil_r.
Qed.
Lemma cut_prefix w precision (text : list Z) :
  take (length (cut w precision text)) text = cut w precision text.
Proof using.
  assert (Hp : forall k : nat, take (length (take k text)) text = take k text).
  { intros k. rewrite length_take. destruct (decide (k <= length text)%nat); [f_equal; lia|].
    rewrite !take_ge by lia. done. }
  unfold cut. destruct (w <? 0), (0 <? precision); rewrite ?take_take; [apply Hp|apply firstn_all|apply Hp..].
Qed.
Lemma print_string_run w precision flags s text :
  str_arg s text ->
  prints (string_text w precision flags text)
    (fun str => print_string str (buf + cap) w precision flags s).
Proof using Hbuf Hcap Hmap.
  intros Hs out Hf. unfold print_string, string_text in *.
  assert (Hf0 : fits (length out)) by (eapply fits_le; [|exact Hf]; rewrite length_app; lia).
  pose proof (str_arg_src _ _ _ Hf0 Hs) as Hsrc.
  erewrite bind_run; [cbv beta|reflexivity].
  assert (Hfuel : (length text < length null_text + S (base.size (printed out)))%nat).
  { destruct Hsrc as [[_ ->]|[_ H]]; [lia|]. apply cstr_size in H. lia. }
  erewrite bind_run; [cbv beta|apply (len_loop_run _ _ _ text _ 0); [done|lia|lia]]. cbv zeta.
  set (len := if _ && _ then precision else _).
  assert (El : len = Z.of_nat (length (cut w precision text))).
  { unfold len, cut. change (0 <? 0) with false. cbv iota.
    destruct (Z.ltb_spec 0 precision); cbn [andb]; [|done].
    rewrite length_take. destruct (Z.ltb_spec precision (Z.of_nat (length (if w <? 0 then text else take (Z.to_nat w) text)))); lia. }
  rewrite El. set (t := cut w precision text) in *.
  assert (Et : t = take (length t) text).
  { symmetry. apply cut_prefix. }
  assert (Hcopy : forall o, fits (length (o ++ t)) ->
    copy_str_loop (S (Z.to_nat (Z.of_nat (length t)))) (pos o) (buf + cap) s 0 (Z.of_nat (length t)) (printed o) =
    Ok (pos (o ++ t), printed (o ++ t))).
  { intros o Ho. assert (Hlen : (length t <= length text)%nat).
    { rewrite Et at 1. rewrite length_take. lia. }
    pose proof (copy_str_run (S (Z.to_nat (Z.of_nat (length t)))) s text 0 (length t) o Hs ltac:(lia) ltac:(lia)) as H.
    rewrite <- Et in H. apply H, Ho. }
  destruct (has flags LEFT); cbn [negb]; rewrite app_assoc in Hf |- *.
  - erewrite bind_run; [cbv beta|reflexivity]. cbn [fst snd].
    erewrite bind_run; [cbv beta|apply Hcopy; eapply fits_le; [|exact Hf]; rewrite (length_app (_ ++ _)); lia].
    erewrite bind_run; [|by apply pad_len_run]. done.
  - erewrite bind_run; [cbv beta|apply pad_len_run; eapply fits_le; [|exact Hf]; rewrite (length_app (_ ++ _)); lia].
    cbn [fst snd]. erewrite bind_run; [cbv beta|by apply Hcopy].
    assert (E : spaces (Z.min w (Z.of_nat (length t)) - 1 - Z.of_nat (length t)) = []).
    { unfold spaces. by replace (Z.to_nat _) with 0%nat by lia. }
    erewrite bind_run; [|apply pad_len_run; by rewrite E, app_nil_r]. by rewrite E, app_nil_r.
Qed.
End output.

(** * Format strings *)
Inductive arg :=
  | AWord (w : Z)
  | AStr (s : Z) (text : list Z).
Definition word_of (a : arg) : Z := match a with AWord w => w | AStr s _ => s end.

Definition flag_of (c : Z) : option Z :=
  if c =? 45 then Some LEFT else if c =? 43 then Some PLUS else if c =? 32 then Some SPACE
  else if c =? 35 then Some SPECIAL else if c =? 48 then Some ZEROPAD else None.
Fixpoint spec_flags (l : list Z) (flags : Z) : Z * list Z :=
  match l with
  | c :: l' => match flag_of c with
               | Some f => spec_flags l' (Z.lor flags f)
               | None => (flags, l)
               end
  | [] => (flags, [])
  end.
Fixpoint spec_atoi (l : list Z) (i : Z) : Z * list Z :=
  match l with
  | c :: l' => if _ISDIGIT c then spec_atoi l' (s32 (i * 10 + c - 48)) else (i, l)
  | [] => (i, [])
  end.
Definition spec_width (l : list Z) (flags : Z) (args : list arg) : option (Z * Z * list Z * list arg) :=
  if _ISDIGIT (List.hd 0 l) then
    let r := spec_atoi l 0 in Some (r.1, flags, r.2, args)
  else if List.hd 0 l =? 42 then
    match args with
    | a :: args =>
        let w := s32 (word_of a) in
        Some (if w <? 0 then (s32 (- w), Z.lor flags LEFT, tail l, args) else (w, flags, tail l, args))
    | [] => None
    end
  else Some (-1, flags, l, args).
Definition spec_precision (l : list Z) (args : list arg) : option (Z * list Z * list arg) :=
  if List.hd 0 l =? 46 then
    let l := tail l in
    if _ISDIGIT (List.hd 0 l) then
      let r := spec_atoi l 0 in Some (if r.1 <? 0 then 0 else r.1, r.2, args)
    else if List.hd 0 l =? 42 then
      match args with
      | a :: args => let p := s32 (word_of a) in Some (if p <? 0 then 0 else p, tail l, args)
      | [] => None
      end
    else Some (0, l, args)
  else Some (-1, l, args).
Definition spec_qualifier (l : list Z) : Z * list Z :=
  if ((List.hd 0 l =? 104) || (List.hd 0 l =? 108))%bool then (List.hd 0 l, tail l) else (0, l).
(** the text, the rest of the format and the arguments that are left *)
Definition spec_convert (l : list Z) (flags w precision q : Z) (args : list arg) :
    option (list Z * list Z * list arg) :=
  let c := List.hd 0 l in
  if c =? 99 then
    match args with a :: args => Some (char_text w flags (word_of a), tail l, args) | [] => None end
  else if c =? 115 then
    match args with
    | AStr _ text :: args => Some (string_text w precision flags text, tail l, args)
    | _ => None
    end
  else if c =? 112 then
    match args with
    | a :: args =>
        Some (number_text (s32 (word_of a)) 16 (if w =? -1 then 8 else w) precision
          (if w =? -1 then Z.lor flags ZEROPAD else flags), tail l, args)
    | [] => None
    end
  else if c =? 37 then Some ([37], tail l, args)
  else
    match int_case c flags with
    | Some (base, flags) =>
        match args with
        | a :: args =>
            Some (number_text (get_number q flags (word_of a)) base w precision flags, tail l, args)
        | [] => None
        end
    | None => Some (if c =? 0 then [37] else [37; c], tail l, args)
    end.
(** [l] is the format behind a '%' *)
Definition spec_directive (l : list Z) (args : list arg) : option (list Z * list Z * list arg) :=
  let f := spec_flags l 0 in
  match spec_width f.2 f.1 args with
  | Some (w, flags, l, args) =>
      match spec_precision l args with
      | Some (precision, l, args) =>
          let q := spec_qualifier l in spec_convert q.2 flags w precision q.1 args
      | None => None
      end
  | None => None
  end.

(** the format [l] with the arguments [args] prints [out] *)
Inductive formats : list Z -> list arg -> list Z -> Prop :=
  | formats_end args : formats [] args []
  | formats_char c l args out : c <> 37 -> formats l args out -> formats (c :: l) args (c :: out)
  | formats_directive l args t l' args' out :
      spec_directive l args = Some (t, l', args') -> formats l' args' out ->
      formats (37 :: l) args (t ++ out).

(** ** The position in the format *)
Definition suffix_at (p : Z) (l : list Z) (p' : Z) (l' : list Z) : Prop :=
  exists k, (k <= length l)%nat /\ p' = p + Z.of_nat k /\ l' = drop k l.
Lemma suffix_refl p l : suffix_at p l p l.
Proof. exists 0%nat. split_and!; [lia|lia|done]. Qed.
Lemma suffix_trans p l p1 l1 p2 l2 : suffix_at p l p1 l1 -> suffix_at p1 l1 p2 l2 -> suffix_at p l p2 l2.
Proof.
  intros (j & Hj & -> & ->) (k & Hk & -> & ->). rewrite length_drop in Hk. exists (j + k)%nat.
  split_and!; [lia|lia|by rewrite drop_drop].
Qed.
Lemma suffix_tail p c l : suffix_at p (c :: l) (p + 1) l.
Proof. exists 1%nat. split_and!; [cbn; lia|lia|done]. Qed.
Lemma suffix_cstr m p l p' l' : suffix_at p l p' l' -> cstr m p l -> cstr m p' l'.
Proof. intros (k & Hk & -> & ->) H. by apply cstr_drop. Qed.
Lemma suffix_outside buf lim p l p' l' :
  suffix_at p l p' l' -> outside buf lim p l -> outside buf lim p' l'.
Proof. intros (k & Hk & -> & ->). unfold outside. rewrite length_drop. lia. Qed.
Lemma suffix_length p l p' l' : suffix_at p l p' l' -> (length l' <= length l)%nat.
Proof. intros (k & Hk & -> & ->). rewrite length_drop. lia. Qed.

Lemma flags_loop_run fuel m p l flags :
  cstr m (p + 1) l -> (length l < fuel)%nat ->
  exists p', flags_loop fuel p flags m = Ok (((spec_flags l flags).1, p'), m) /\
    suffix_at (p + 1) l p' (spec_flags l flags).2.
Proof.
  revert p l flags. induction fuel as [|fuel IH]; intros p l flags Hl Hf; [lia|]. cbn [flags_loop].
  cbv zeta. destruct l as [|c l].
  - erewrite bind_run; [cbv beta|by apply cstr_ld8_nul]. eexists. split; [done|apply suffix_refl].
  - erewrite bind_run; [cbv beta|by eapply cstr_ld8]. apply cstr_tail in Hl as [_ Hl]. cbn [length] in Hf.
    assert (Hrec : forall f, exists p', flags_loop fuel (p + 1) (Z.lor flags f) m =
      Ok (((spec_flags l (Z.lor flags f)).1, p'), m) /\
      suffix_at (p + 1) (c :: l) p' (spec_flags l (Z.lor flags f)).2).
    { intros f. destruct (IH (p + 1) l (Z.lor flags f) Hl ltac:(lia)) as (p' & -> & Hs).
      eexists. split; [done|]. eapply suffix_trans; [apply suffix_tail|done]. }
    cbn [spec_flags]. unfold flag_of.
    repeat (case_match; [by apply Hrec|]). eexists. split; [done|apply suffix_refl].
Qed.
Lemma skip_atoi_loop_run fuel m p l i :
  cstr m p l -> (length l < fuel)%nat ->
  exists p', skip_atoi_loop fuel p i m = Ok (((spec_atoi l i).1, p'), m) /\
    suffix_at p l p' (spec_atoi l i).2.
Proof.
  revert p l i. induction fuel as [|fuel IH]; intros p l i Hl Hf; [lia|]. cbn [skip_atoi_loop].
  destruct l as [|c l].
  - erewrite bind_run; [cbv beta|by apply cstr_ld8_nul]. change (_ISDIGIT 0) with false. cbv iota.
    eexists. split; [done|apply suffix_refl].
  - erewrite bind_run; [cbv beta|by eapply cstr_ld8]. apply cstr_tail in Hl as [_ Hl]. cbn [length] in Hf.
    cbn [spec_atoi]. destruct (_ISDIGIT c).
    + destruct (IH (p + 1) l (s32 (i * 10 + c - 48)) Hl ltac:(lia)) as (p' & -> & Hs).
      eexists. split; [done|]. eapply suffix_trans; [apply suffix_tail|done].
    + eexists. split; [done|apply suffix_refl].
Qed.
Lemma skip_atoi_run m p l :
  cstr m p l -> exists p', skip_atoi p m = Ok (((spec_atoi l 0).1, p'), m) /\
    suffix_at p l p' (spec_atoi l 0).2.
Proof.
  intros Hl. unfold skip_atoi, str_fuel. erewrite bind_run; [cbv beta|reflexivity].
  apply skip_atoi_loop_run; [done|]. apply cstr_size in Hl. lia.
Qed.
(** a character that is not the terminator is in the list *)
Lemma hd_suffix p l c : List.hd 0 l = c -> c <> 0 -> suffix_at p l (p + 1) (tail l).
Proof. destruct l as [|d l]; cbn; [congruence|intros; apply suffix_tail]. Qed.

Lemma get_width_run m p l flags args w fl l' args' :
  cstr m p l -> spec_width l flags args = Some (w, fl, l', args') ->
  exists p', get_width p flags (word_of <$> args) m = Ok ((w, fl, p', word_of <$> args'), m) /\
    suffix_at p l p' l'.
Proof.
  intros Hl. unfold spec_width, get_width. intros Hs.
  erewrite bind_run; [cbv beta|by apply cstr_head]. destruct (_ISDIGIT (List.hd 0 l)).
  - injection Hs as <- <- <- <-. destruct (skip_atoi_run _ _ _ Hl) as (p' & E & Hs).
    exists p'. split; [|done]. by erewrite bind_run; [|exact E].
  - destruct (Z.eqb_spec (List.hd 0 l) 42) as [E|].
    + destruct args as [|a args]; [done|]. cbn [fmap list_fmap va_arg].
      erewrite bind_run; [cbv beta|reflexivity]. cbn [fst snd]. cbv zeta. exists (p + 1).
      destruct (s32 (word_of a) <? 0); injection Hs as <- <- <- <-; (split; [done|]);
        by eapply hd_suffix.
    + injection Hs as <- <- <- <-. exists p. split; [done|apply suffix_refl].
Qed.
Lemma get_precision_run m p l args pr l' args' :
  cstr m p l -> spec_precision l args = Some (pr, l', args') ->
  exists p', get_precision p (word_of <$> args) m = Ok ((pr, p', word_of <$> args'), m) /\
    suffix_at p l p' l'.
Proof.
  intros Hl. unfold spec_precision, get_precision. intros Hs.
  erewrite bind_run; [cbv beta|by apply cstr_head].
  destruct (Z.eqb_spec (List.hd 0 l) 46) as [E|].
  - cbv zeta in Hs |- *. destruct l as [|c l]; [done|]. cbn [tail List.hd] in *.
    pose proof (cstr_tail _ _ _ _ Hl) as [_ Ht].
    erewrite bind_run; [cbv beta|by apply cstr_head]. destruct (_ISDIGIT (List.hd 0 l)).
    + destruct (skip_atoi_run _ _ _ Ht) as (p' & E2 & Hsuf). exists p'.
      erewrite bind_run; [|by erewrite bind_run; [|exact E2]]. injection Hs as <- <- <-.
      split; [done|]. eapply suffix_trans; [apply suffix_tail|done].
    + destruct (Z.eqb_spec (List.hd 0 l) 42) as [E2|].
      * destruct args as [|a args]; [done|]. cbn [fmap list_fmap va_arg].
        erewrite bind_run; [cbv beta|by erewrite bind_run; [|reflexivity]]. cbn [fst snd].
        injection Hs as <- <- <-. exists (p + 1 + 1). split; [done|].
        eapply suffix_trans; [apply suffix_tail|]. by eapply hd_suffix.
      * erewrite bind_run; [cbv beta|reflexivity]. cbn [fst snd]. injection Hs as <- <- <-.
        exists (p + 1). split; [done|apply suffix_tail].
  - injection Hs as <- <- <-. exists p. split; [done|apply suffix_refl].
Qed.
Lemma get_qualifier_run m p l :
  cstr m p l -> exists p', get_qualifier p m = Ok (((spec_qualifier l).1, p'), m) /\
    suffix_at p l p' (spec_qualifier l).2.
Proof.
  intros Hl. unfold spec_qualifier, get_qualifier. erewrite bind_run; [cbv beta|by apply cstr_head].
  destruct ((List.hd 0 l =? 104) || (List.hd 0 l =? 108))%bool eqn:E.
  - exists (p + 1). split; [done|]. eapply hd_suffix; [done|]. intros E0. rewrite E0 in E. done.
  - exists p. split; [done|apply suffix_refl].
Qed.

(** * rt_vsnprintf prints what the format says *)
Section directives.
Context (m0 : mem) (buf cap lim : Z).
Context (Hbuf : 0 <= buf) (Hcap : 0 <= cap) (Hmap : mapped m0 buf lim).

Definition arg_ok (a : arg) : Prop :=
  match a with AWord _ => True | AStr s text => str_arg m0 buf lim s text end.

Lemma get_number_range q flags a : -2147483648 <= get_number q flags a < 2147483648.
Proof using. apply s32_range. Qed.

Lemma convert_run p l flags w precision q args t l' args' out :
  cstr m0 p l -> outside buf lim p l -> Forall arg_ok args ->
  spec_convert l flags w precision q args = Some (t, l', args') ->
  fits buf cap lim (length (out ++ t)) ->
  exists p', convert (pos buf out) (buf + cap) p flags w precision q (word_of <$> args) (printed m0 buf cap out) =
      Ok ((pos buf (out ++ t), p', word_of <$> args'), printed m0 buf cap (out ++ t)) /\
    suffix_at p l (p' + 1) l' /\ Forall arg_ok args'.
Proof using Hbuf Hcap Hmap.
  intros Hl Ho Ha Hs Hf. unfold convert, spec_convert in *.
  assert (Hf0 : fits buf cap lim (length out)) by (eapply fits_le; [|exact Hf]; rewrite length_app; lia).
  erewrite bind_run; [cbv beta|by apply cstr_head, (printed_cstr _ _ _ lim)].
  set (c := List.hd 0 l) in *.
  destruct (Z.eqb_spec c 99).
  { destruct args as [|a args]; [done|]. injection Hs as <- <- <-. apply Forall_cons in Ha as [_ Ha].
    cbn [fmap list_fmap va_arg]. erewrite bind_run; [cbv beta|reflexivity]. cbn [fst snd].
    erewrite bind_run; [cbv beta|by apply (print_char_run _ _ _ lim)].
    exists p. split_and!; [done| |done]. eapply hd_suffix; [reflexivity|]. lia. }
  destruct (Z.eqb_spec c 115).
  { destruct args as [|[|s text] args]; [done..|]. injection Hs as <- <- <-.
    apply Forall_cons in Ha as [Hstr Ha]. cbn [arg_ok] in Hstr.
    cbn [fmap list_fmap va_arg word_of]. erewrite bind_run; [cbv beta|reflexivity]. cbn [fst snd].
    assert (Es : u32 s = s).
    { destruct Hstr as [[-> _]|(_ & Hc & _)]; [done|]. apply u32_small. by eapply cstr_range. }
    rewrite Es. erewrite bind_run; [cbv beta|by apply (print_string_run _ _ _ lim)].
    exists p. split_and!; [done| |done]. eapply hd_suffix; [reflexivity|]. lia. }
  destruct (Z.eqb_spec c 112).
  { destruct args as [|a args]; [done|]. injection Hs as <- <- <-. apply Forall_cons in Ha as [_ Ha].
    cbv zeta. cbn [fmap list_fmap va_arg]. erewrite bind_run; [cbv beta|reflexivity]. cbn [fst snd].
    erewrite bind_run; [cbv beta|by apply (print_number_run _ _ _ lim); [..|apply s32_range|]].
    exists p. split_and!; [done| |done]. eapply hd_suffix; [reflexivity|]. lia. }
  destruct (Z.eqb_spec c 37).
  { injection Hs as <- <- <-. erewrite bind_run; [cbv beta|by apply (prints_char _ _ _ lim)].
    exists p. split_and!; [done| |done]. eapply hd_suffix; [reflexivity|]. lia. }
  destruct (int_case c flags) as [[base fl]|] eqn:Ec.
  { destruct args as [|a args]; [done|]. injection Hs as <- <- <-. apply Forall_cons in Ha as [_ Ha].
    cbn [fmap list_fmap va_arg]. erewrite bind_run; [cbv beta|reflexivity]. cbn [fst snd].
    erewrite bind_run; [cbv beta|by apply (print_number_run _ _ _ lim); [..|apply get_number_range|]].
    exists p. split_and!; [done| |done]. eapply hd_suffix; [reflexivity|]. intros E.
    change (c = 0) in E. by rewrite E in Ec. }
  injection Hs as <- <- <-. destruct (Z.eqb_spec c 0) as [E|Hne]; cbn [negb].
  - erewrite bind_run; [cbv beta|by apply (prints_char _ _ _ lim)]. exists (p - 1).
    split_and!; [done| |done]. destruct l as [|d l].
    + replace (p - 1 + 1) with p by lia. apply suffix_refl.
    + apply cstr_tail in Hl as [Hd _]. unfold c in E. cbn in E. lia.
  - assert (Hc : u8 c = c).
    { apply u8_small. apply hd_byte. by eapply cstr_bytes. }
    rewrite (app_assoc out [37] [c] : out ++ [37; c] = (out ++ [37]) ++ [c]) in Hf |- *.
    erewrite bind_run; [cbv beta|apply (prints_char _ _ _ lim); [done..|]; eapply fits_le; [|exact Hf];
      change (u8 37) with 37; rewrite (length_app (_ ++ _)); lia].
    change (u8 37) with 37.
    erewrite bind_run; [cbv beta|apply (prints_char _ _ _ lim); [done..|]; by rewrite Hc]. rewrite Hc.
    exists p. split_and!; [done| |done]. by apply (hd_suffix _ _ c).
Qed.
Lemma directive_run p l args t l' args' out :
  cstr m0 (p + 1) l -> outside buf lim (p + 1) l -> Forall arg_ok args ->
  spec_directive l args = Some (t, l', args') ->
  fits buf cap lim (length (out ++ t)) ->
  exists p', directive (pos buf out) (buf + cap) p (word_of <$> args) (printed m0 buf cap out) =
      Ok ((pos buf (out ++ t), p', word_of <$> args'), printed m0 buf cap (out ++ t)) /\
    suffix_at (p + 1) l (p' + 1) l' /\ Forall arg_ok args'.
Proof using Hbuf Hcap Hmap.
  intros Hl Ho Ha Hs Hf. unfold directive, spec_directive in *. cbv zeta in Hs.
  assert (Hf0 : fits buf cap lim (length out)) by (eapply fits_le; [|exact Hf]; rewrite length_app; lia).
  assert (Hp : forall p' l', suffix_at (p + 1) l p' l' -> cstr (printed m0 buf cap out) p' l').
  { intros p' k Hk. apply (printed_cstr _ _ _ lim); [done|done|by eapply suffix_cstr|by eapply suffix_outside]. }
  pose proof (Hp _ _ (suffix_refl _ _)) as Hl0.
  erewrite bind_run; [cbv beta|reflexivity].
  destruct (flags_loop_run (S (base.size (printed m0 buf cap out))) _ p l 0 Hl0) as (p1 & E1 & S1).
  { apply cstr_size in Hl0. lia. }
  erewrite bind_run; [cbv beta|exact E1]. cbn [fst snd].
  destruct (spec_width _ _ args) as [[[[w fl] l2] args2]|] eqn:Ew; [|done].
  destruct (get_width_run _ _ _ _ _ _ _ _ _ (Hp _ _ S1) Ew) as (p2 & E2 & S2).
  pose proof (suffix_trans _ _ _ _ _ _ S1 S2) as S2'.
  erewrite bind_run; [cbv beta|exact E2]. cbn [fst snd].
  destruct (spec_precision l2 args2) as [[[pr l3] args3]|] eqn:Ep; [|done].
  destruct (get_precision_run _ _ _ _ _ _ _ (Hp _ _ S2') Ep) as (p3 & E3 & S3).
  pose proof (suffix_trans _ _ _ _ _ _ S2' S3) as S3'.
  erewrite bind_run; [cbv beta|exact E3]. cbn [fst snd].
  destruct (get_qualifier_run _ _ _ (Hp _ _ S3')) as (p4 & E4 & S4).
  pose proof (suffix_trans _ _ _ _ _ _ S3' S4) as S4'.
  erewrite bind_run; [cbv beta|exact E4]. cbn [fst snd].
  assert (Ha3 : Forall arg_ok args3).
  { assert (Ha2 : Forall arg_ok args2).
    { revert Ew. unfold spec_width. repeat case_match; intros [= <- <- <- <-]; try done;
        by apply Forall_cons in Ha as [_ ?]. }
    revert Ep. unfold spec_precision. cbv zeta. repeat case_match; intros [= <- <- <-]; try done;
      by apply Forall_cons in Ha2 as [_ ?]. }
  destruct (convert_run p4 (spec_qualifier l3).2 fl w pr (spec_qualifier l3).1 args3 t l' args' out) as (p5 & E5 & S5 & Ha5);
    [by eapply suffix_cstr|by eapply suffix_outside|done|done|done|].
  exists p5. split_and!; [done|by eapply suffix_trans|done].
Qed.
Lemma format_loop_run fuel p l args out0 out :
  formats l args out -> cstr m0 p l -> outside buf lim p l -> Forall arg_ok args ->
  (length l < fuel)%nat -> fits buf cap lim (length (out0 ++ out)) ->
  format_loop fuel (pos buf out0) (buf + cap) p (word_of <$> args) (printed m0 buf cap out0) =
    Ok (pos buf (out0 ++ out), printed m0 buf cap (out0 ++ out)).
Proof using Hbuf Hcap Hmap.
  intros Hfm. revert fuel p out0. induction Hfm as [args|c l args out Hc Hfm IH|l args t l' args' out Hs Hfm IH];
    intros fuel p out0 Hl Ho Ha Hfu Hf; (destruct fuel as [|fuel]; [lia|]); cbn [format_loop];
    assert (Hf0 : fits buf cap lim (length out0)) by (eapply fits_le; [|exact Hf]; rewrite length_app; lia);
    (erewrite bind_run; [cbv beta|by apply cstr_head, (printed_cstr _ _ _ lim)]); cbn [List.hd length] in *.
  - by rewrite app_nil_r.
  - pose proof (cstr_tail _ _ _ _ Hl) as [Hcr Ht]. rewrite (proj2 (Z.eqb_neq c 0)), (proj2 (Z.eqb_neq c 37)) by lia.
    cbn [negb]. rewrite cons_middle, app_assoc in Hf |- *.
    erewrite bind_run; [cbv beta|apply (prints_char _ _ _ lim); [done..|]; rewrite u8_small by lia;
      eapply fits_le; [|exact Hf]; rewrite (length_app (_ ++ _)); lia].
    rewrite u8_small by lia. apply IH; [done| |done|lia|done].
    eapply suffix_outside; [apply suffix_tail|done].
  - pose proof (cstr_tail _ _ _ _ Hl) as [_ Ht]. change (37 =? 0) with false. change (37 =? 37) with true.
    cbn [negb]. assert (Hot : outside buf lim (p + 1) l) by (eapply suffix_outside; [apply suffix_tail|done]).
    rewrite app_assoc in Hf |- *.
    destruct (directive_run p l args t l' args' out0 Ht Hot Ha Hs) as (p' & E & Hsuf & Ha').
    { eapply fits_le; [|exact Hf]. rewrite (length_app (_ ++ _)). lia. }
    erewrite bind_run; [cbv beta|exact E]. cbn [fst snd].
    apply IH; [by eapply suffix_cstr|by eapply suffix_outside|done| |done].
    apply suffix_length in Hsuf. lia.
Qed.
End directives.

(** what is in the buffer of [size] bytes at the end: as much of the text as
    fits, and a terminator *)
Definition terminated (size : Z) (out : list Z) : list Z :=
  if size =? 0 then [] else take (Z.to_nat size - 1) out ++ [0].

Lemma vsnprintf_end m0 buf cap lim out :
  0 <= buf -> 0 <= cap -> mapped m0 buf lim -> buf + cap < 4294967296 ->
  Z.min cap (Z.of_nat (length out) + 1) <= lim ->
  when (0 <? cap) (if pos buf out <? buf + cap then st8 (pos buf out) 0 else st8 (buf + cap - 1) 0)
    (printed m0 buf cap out) = Ok (tt, store_bytes buf (terminated cap out) m0).
Proof.
  intros Hb Hc Hm He Hl. unfold terminated, printed, pos. destruct (Z.ltb_spec 0 cap).
  2: { replace cap with 0 by lia. done. }
  rewrite (proj2 (Z.eqb_neq cap 0)) by lia. cbn [when].
  destruct (Z.ltb_spec (buf + Z.of_nat (length out)) (buf + cap)).
  - rewrite !take_ge by lia. rewrite st8_run.
    + by rewrite store_bytes_app.
    + apply mapped_store_bytes. eapply mapped_sub; [exact Hm|lia..].
  - rewrite st8_run by (apply mapped_store_bytes; eapply mapped_sub; [exact Hm|lia..]).
    do 2 f_equal. apply map_eq. intros x. change (u8 0) with 0. rewrite lookup_insert, !lookup_store_bytes.
    rewrite length_app, !length_take. cbn [length].
    repeat case_decide; try lia; [| |done].
    + subst x. rewrite lookup_app_r by (rewrite length_take; lia).
      rewrite length_take. by replace (_ - _)%nat with 0%nat by lia.
    + rewrite lookup_app_l by (rewrite length_take; lia). rewrite !lookup_take_lt by lia. done.
Qed.
Lemma rt_vsnprintf_run m0 buf size fmt l args out :
  0 <= buf -> 0 <= size -> buf + size < 4294967296 -> mapped m0 buf size ->
  cstr m0 fmt l -> outside buf size fmt l -> Forall (arg_ok m0 buf size) args ->
  formats l args out -> buf + Z.of_nat (length out) < 4294967296 -> Z.of_nat (length out) < 2147483648 ->
  rt_vsnprintf buf size fmt (word_of <$> args) m0 =
    Ok (Z.of_nat (length out), store_bytes buf (terminated size out) m0).
Proof.
  intros Hb Hs He Hm Hl Ho Ha Hf Hbo Hlen. unfold rt_vsnprintf. cbv zeta. rewrite (u32_small (buf + size)) by lia.
  rewrite (proj2 (Z.ltb_ge _ _)) by lia. erewrite bind_run; [cbv beta|reflexivity].
  pose proof (format_loop_run m0 buf size size Hb Hs Hm (S (base.size m0)) fmt l args [] out Hf Hl Ho Ha) as H.
  specialize (H ltac:(pose proof (cstr_size _ _ _ Hl); lia)). unfold fits in H. cbn [app] in H.
  specialize (H ltac:(lia)). unfold pos at 1, printed at 1 in H. cbn [length] in H.
  rewrite take_nil, Z.add_0_r in H. cbn [store_bytes] in H.
  erewrite bind_run; [cbv beta|exact H].
  erewrite bind_run; [cbv beta|apply (vsnprintf_end _ _ _ size); (done || lia)].
  unfold ret, pos. do 2 f_equal. rewrite s32_small; lia.
Qed.

Lemma length_terminated size out : 0 <= size -> Z.of_nat (length (terminated size out)) <= size.
Proof.
  intros Hs. unfold terminated. destruct (Z.eqb_spec size 0); cbn [length]; [lia|].
  rewrite length_app, length_take. cbn [length]. lia.
Qed.

(** C30: rt_vsnprintf writes the text that the format describes: cut off at the
    size of the buffer, always terminated unless the size is 0, and no byte
    outside of the buffer.  It returns the length of the whole text. *)
Theorem rt_vsnprintf_spec (m : mem) (buf size fmt : Z) (l : list Z) (args : list arg) (out : list Z) :
  0 <= buf -> 0 <= size -> buf + size < 4294967296 -> mapped m buf size ->
  cstr m fmt l -> outside buf size fmt l -> Forall (arg_ok m buf size) args ->
  formats l args out -> buf + Z.of_nat (length out) < 4294967296 -> Z.of_nat (length out) < 2147483648 ->
  wp (rt_vsnprintf buf size fmt (word_of <$> args)) (fun r m' =>
    r = Z.of_nat (length out) /\ m' = store_bytes buf (terminated size out) m /\
    Z.of_nat (length (terminated size out)) <= size) m.
Proof.
  intros. eapply wp_intro; [by apply (rt_vsnprintf_run m buf size fmt l args out)|].
  split_and!; [done|done|by apply length_terminated].
Qed.

(** rt_sprintf has no limit: the text and its terminator must fit. *)
Theorem rt_sprintf_spec (m : mem) (buf fmt : Z) (l : list Z) (args : list arg) (out : list Z) :
  let n := Z.of_nat (length out) + 1 in
  0 <= buf -> buf + n < 4294967296 -> n < 2147483648 -> mapped m buf n ->
  cstr m fmt l -> outside buf n fmt l -> Forall (arg_ok m buf n) args -> formats l args out ->
  rt_sprintf buf fmt (word_of <$> args) m =
    Ok (Z.of_nat (length out), store_bytes buf (out ++ [0]) m).
Proof.
  intros n Hb Hn Hn2 Hm Hl Ho Ha Hf. unfold rt_sprintf, rt_vsprintf, rt_vsnprintf. cbv zeta.
  assert (Ee : (if u32 (buf + 4294967295) <? buf then 4294967295 else u32 (buf + 4294967295)) =
    buf + (4294967295 - buf) /\
    (if u32 (buf + 4294967295) <? buf then u32 (4294967295 - buf) else 4294967295) = 4294967295 - buf).
  { destruct (decide (buf = 0)) as [->|]; [done|].
    assert (E : u32 (buf + 4294967295) = buf - 1).
    { unfold u32. replace (buf + 4294967295) with (buf - 1 + 1 * 4294967296) by lia.
      rewrite Z.mod_add, Z.mod_small; lia. }
    rewrite E, (proj2 (Z.ltb_lt _ _)), u32_small by lia. lia. }
  destruct Ee as [-> ->]. set (cap := 4294967295 - buf). erewrite bind_run; [cbv beta|reflexivity].
  pose proof (format_loop_run m buf cap n Hb ltac:(lia) Hm (S (base.size m)) fmt l args [] out Hf Hl Ho Ha) as H.
  specialize (H ltac:(pose proof (cstr_size _ _ _ Hl); lia)). unfold fits in H. cbn [app] in H.
  specialize (H ltac:(lia)). unfold pos at 1, printed at 1 in H. cbn [length] in H.
  rewrite take_nil, Z.add_0_r in H. cbn [store_bytes] in H.
  erewrite bind_run; [cbv beta|exact H].
  erewrite bind_run; [cbv beta|apply (vsnprintf_end _ _ _ n); (done || lia)].
  unfold ret, pos, terminated. rewrite (proj2 (Z.eqb_neq cap 0)) by lia. rewrite take_ge by lia.
  do 2 f_equal. rewrite s32_small; lia.
Qed.

(** * Decimal round trip *)
Lemma spec_atoi_digits ds i :
  0 <= i -> Forall (fun d => 0 <= d < 10) ds -> fold_left (fun n d => n * 10 + d) ds i < 2147483648 ->
  spec_atoi ((fun d => 48 + d) <$> ds) i = (fold_left (fun n d => n * 10 + d) ds i, []).
Proof.
  intros Hi Hds. revert i Hi. induction Hds as [|d ds Hd Hds IH]; intros i Hi Hv; [done|].
  cbn [fmap list_fmap spec_atoi fold_left] in *. unfold _ISDIGIT. replace (48 + d - 48) with d by lia.
  cbn beta in Hd. rewrite u32_small, (proj2 (Z.ltb_lt d 10)) by lia.
  assert (Hge : forall l j, Forall (fun d => 0 <= d < 10) l -> 0 <= j ->
    j <= fold_left (fun n d => n * 10 + d) l j).
  { clear. intros l. induction l as [|e l IHl]; intros j Hl Hj; cbn [fold_left]; [lia|].
    apply Forall_cons in Hl as [He Hl]. specialize (IHl (j * 10 + e) Hl ltac:(lia)). lia. }
  specialize (Hge ds (i * 10 + d) Hds ltac:(lia)).
  replace (i * 10 + (48 + d) - 48) with (i * 10 + d) by lia. rewrite s32_small by lia.
  apply IH; [lia|done].
Qed.
(** the text of %d for a number that is not negative *)
Lemma decimal_text n :
  0 <= n < 2147483648 ->
  number_text n 10 (-1) (-1) SIGN = (fun d => 48 + d) <$> to_digits TMP_SIZE 10 n.
Proof.
  intros Hn. unfold number_text, sign_text, digits_text, magnitude, spaces, zeros.
  change (has SIGN SIGN) with true. change (has SIGN PLUS) with false. change (has SIGN SPACE) with false.
  change (has SIGN LEFT) with false. change (has SIGN ZEROPAD) with false. change (has SIGN LARGE) with false.
  change (real_base 10) with 10. change (-1 =? 0) with false.
  rewrite (proj2 (Z.ltb_ge n 0)) by lia. cbn [andb app length]. rewrite u32_small by lia.
  replace (Z.to_nat _) with 0%nat by lia. replace (Z.to_nat _) with 0%nat by lia. cbn [replicate app].
  apply list_fmap_ext. intros i d Hd. pose proof (to_digits_range TMP_SIZE 10 n ltac:(lia)) as Hr.
  apply (Forall_lookup_1 _ _ _ _ Hr) in Hd. unfold digit_char. cbn beta in Hd.
  by rewrite (proj2 (Z.ltb_lt d 10)) by lia.
Qed.


(** * Where the code departs from the C library *)

(** %o prints the hexadecimal digits *)
Lemma octal_prints_hex num s precision type :
  number_text num 8 s precision type = number_text num 16 s precision type.
Proof. reflexivity. Qed.
(** a precision of 0 drops the digits of a number *)
Lemma precision_0_drops_digits : formats [37; 46; 48; 100] [AWord 5] [].
Proof. apply (formats_directive [46; 48; 100] _ [] [] []); [vm_compute; reflexivity|constructor]. Qed.
(** the width cuts a string off *)
Lemma width_cuts_string w flags text :
  0 <= w <= Z.of_nat (length text) -> string_text w (-1) flags text = take (Z.to_nat w) text.
Proof.
  intros Hw. unfold string_text, cut. rewrite (proj2 (Z.ltb_ge w 0)) by lia.
  change (0 <? -1) with false. cbv iota. rewrite length_take. unfold spaces.
  replace (Z.to_nat (w - _)) with 0%nat by lia. cbn [replicate app]. rewrite app_nil_r. by destruct (has flags LEFT).
Qed.
