(* ===== verification/ServiceExamples.v ===== *)
(** The theorems on strings and formatted output, applied to a concrete
    memory. *)
From S2P Require Import Prelude KService Mem Heap HeapExamples KString KPrintf KPrintfSpec.

(** a buffer at 64, "ab" at 128, "abc" at 136, the formats "x%3d|%s" at 144
    and "%d" at 156 *)
Definition text_ram : mem :=
  store_bytes 156 [37; 100; 0] (store_bytes 144 [120; 37; 51; 100; 124; 37; 115; 0]
    (store_bytes 136 [97; 98; 99; 0] (store_bytes 128 [97; 98; 0] (fill 64 64 7 ∅)))).

Ltac concrete_cstr := repeat split; try (vm_compute; first [reflexivity | discriminate]).
Lemma ram_ab : cstr text_ram 128 [97; 98].
Proof. concrete_cstr. Qed.
Lemma ram_abc : cstr text_ram 136 [97; 98; 99].
Proof. concrete_cstr. Qed.
Lemma ram_format : cstr text_ram 144 [120; 37; 51; 100; 124; 37; 115].
Proof. concrete_cstr. Qed.
Lemma ram_decimal : cstr text_ram 156 [37; 100].
Proof. concrete_cstr. Qed.
Lemma ram_buffer : mapped text_ram 64 32.
Proof. do 4 apply mapped_store_bytes. apply (mapped_sub _ 64 64); [by apply (mapped_range 64)|lia..]. Qed.

Lemma rt_vsnprintf_spec_witness :
  wp (rt_vsnprintf 64 6 144 [42; 128]) (fun r m' => r = 7 /\
    m' = store_bytes 64 [120; 32; 52; 50; 124; 0] text_ram) text_ram.
Proof.
  eapply wp_mono; [apply (rt_vsnprintf_spec text_ram 64 6 144 [120; 37; 51; 100; 124; 37; 115]
    [AWord 42; AStr 128 [97; 98]] [120; 32; 52; 50; 124; 97; 98])|].
  - lia.
  - lia.
  - lia.
  - apply (mapped_sub _ _ _ _ _ ram_buffer); lia.
  - exact ram_format.
  - right. lia.
  - constructor; [exact I|]. constructor; [|constructor]. right. split; [lia|]. split; [exact ram_ab|right; lia].
  - constructor; [lia|]. apply (formats_directive _ _ [32; 52; 50] [124; 37; 115] [AStr 128 [97; 98]]);
      [vm_compute; reflexivity|].
    constructor; [lia|]. apply (formats_directive _ _ [97; 98] [] []); [vm_compute; reflexivity|]. constructor.
  - cbn. lia.
  - cbn. lia.
  - intros r m' (-> & -> & _). split; reflexivity.
Defined.


Lemma rt_strcmp_order_witness :
  wp (rt_strcmp 128 136) (fun r m' => m' = text_ram /\ r < 0) text_ram.
Proof.
  eapply wp_mono; [apply (rt_strcmp_order text_ram 128 136 [97; 98] [97; 98; 99] ram_ab ram_abc)|].
  intros r m' (Hm & _ & H). split; [exact Hm|]. apply H. exists [97; 98], [], [99]. split_and!; reflexivity.
Defined.
Lemma rt_strstr_first_witness :
  wp (rt_strstr 136 128) (fun r m' => m' = text_ram /\
    exists i, r = 136 + Z.of_nat i \/ r = 0) text_ram.
Proof.
  eapply wp_mono; [apply (rt_strstr_first text_ram 136 128 [97; 98; 99] [97; 98] ram_abc ram_ab); cbn; lia|].
  intros r m' (Hm & [(i & Hr & _)|(Hr & _)]); (split; [exact Hm|]);
    [exists i; left; exact Hr|exists 0%nat; right; exact Hr].
Defined.
(** 20 bytes at a multiple of 32 *)
Lemma rt_malloc_align_free_witness :
  wp (rt_malloc_align 20 (2 ^ 5)) (fun r h' => r = 0 /\ h' = heap2 \/
    r mod 32 = 0 /\ wp (rt_free_align r) (fun _ h3 =>
      heap_inv h3 [block 0 48 true; block 48 112 true; block 112 240 false]) h') heap2.
Proof.
  eapply wp_mono; [apply (rt_malloc_align_free heap2 _ 20 5 heap2_inv heap2_bytes);
    [vm_compute; discriminate|lia|lia|lia]|].
  intros r h' [H|(Ha & _ & Hw)]; [left; exact H|right]. split; [exact Ha|].
  eapply wp_mono; [exact Hw|]. intros a h3 [H _]. exact H.
Defined.
