(* ===== verification/Libc.v ===== *)
(** The functions of the C library that the BSP supplies itself, bsp/mycpu/
    board.c: strlen, strncmp, strcpy, strcat, strncpy, memset and memcpy, which
    the shell calls.  Each store is bounded by the text, except in strncpy,
    whose padding loop starts from a wrapped-around count when the source does
    not fit ([strncpy_overrun]). *)
From S2P Require Import Prelude KService Mem Heap KString.

Definition strlen (s : Z) : M mem Z := rt_strlen s.
Definition strncmp (a b n : Z) : M mem Z := rt_strncmp a b n.

(** while (( *d++ = *s++ )) ; *)
Fixpoint strcpy_loop (fuel : nat) (d s : Z) : M mem unit :=
  match fuel with
  | O => raise OutOfFuel
  | S fuel =>
      let* c := ld8 s in
      st8 d c;;
      if c =? 0 then ret tt else strcpy_loop fuel (d + 1) (s + 1)
  end.
Definition strcpy (d s : Z) : M mem Z :=
  let* fuel := str_fuel in strcpy_loop fuel d s;; ret d.

(** while ( *d) d++; *)
Fixpoint strend_loop (fuel : nat) (d : Z) : M mem Z :=
  match fuel with
  | O => raise OutOfFuel
  | S fuel => let* c := ld8 d in if c =? 0 then ret d else strend_loop fuel (d + 1)
  end.
Definition strcat (d s : Z) : M mem Z :=
  let* fuel := str_fuel in
  let* e := strend_loop fuel d in
  strcpy_loop fuel e s;; ret d.

(** while (n-- && ( *d++ = *s)) s++; the pointer [d] and the count [n], a
    size_t, at the end *)
Fixpoint strncpy_copy (fuel : nat) (d s n : Z) : M mem (Z * Z) :=
  match fuel with
  | O => raise OutOfFuel
  | S fuel =>
      if n =? 0 then ret (d, u32 (n - 1))
      else
        let* c := ld8 s in
        st8 d c;;
        if c =? 0 then ret (d + 1, u32 (n - 1)) else strncpy_copy fuel (d + 1) (s + 1) (u32 (n - 1))
  end.
(** while (n-- > 0) *d++ = 0; *)
Fixpoint strncpy_pad (fuel : nat) (d n : Z) : M mem unit :=
  match fuel with
  | O => raise OutOfFuel
  | S fuel => if 0 <? n then st8 d 0;; strncpy_pad fuel (d + 1) (u32 (n - 1)) else ret tt
  end.
Definition strncpy (d s n : Z) : M mem Z :=
  let* fuel := str_fuel in
  let* r := strncpy_copy fuel d s n in
  strncpy_pad fuel r.1 r.2;; ret d.

(** the byte loops are those of rt_memset and rt_memcpy *)
Definition memset (p c n : Z) : M mem Z := memset_byte (S (Z.to_nat n)) p (u8 c) n;; ret p.
Definition memcpy (d s n : Z) : M mem Z := memcpy_byte (S (Z.to_nat n)) d s n;; ret d.

(** * Correctness *)
Lemma memset_run (m : mem) (p c n : Z) :
  mapped m p n -> 0 <= n -> memset p c n m = Ok (p, fill (Z.to_nat n) p (u8 c) m).
Proof.
  intros Hm Hn. unfold memset. erewrite bind_run; [reflexivity|].
  apply memset_byte_run; [done|done|lia|apply u8_range].
Qed.
Lemma memcpy_run (m : mem) (d s n : Z) :
  mapped m s n -> mapped m d n -> byte_mem m -> 0 <= n -> (d <= s \/ s + n <= d) ->
  exists m', memcpy d s n m = Ok (d, m') /\ copied m m' d s n.
Proof.
  intros. destruct (memcpy_byte_run (S (Z.to_nat n)) m d s n) as (m' & E & Hc); [done..|lia|].
  exists m'. split; [|done]. unfold memcpy. by erewrite bind_run; [|exact E].
Qed.
Lemma strcpy_loop_run fuel m d s l :
  cstr m s l -> mapped m d (Z.of_nat (length l) + 1) ->
  s + Z.of_nat (length l) < d \/ d + Z.of_nat (length l) < s -> (length l < fuel)%nat ->
  strcpy_loop fuel d s m = Ok (tt, store_bytes d (l ++ [0]) m).
Proof.
  revert m d s l. induction fuel as [|fuel IH]; intros m d s l Hl Hd Ho Hf; [lia|]. cbn [strcpy_loop].
  erewrite bind_run; [cbv beta|by apply cstr_head].
  erewrite bind_run; [cbv beta|apply st8_run; sub_mapped].
  pose proof (hd_byte _ (cstr_bytes _ _ _ Hl)) as Hh. rewrite u8_small by done.
  destruct l as [|c l]; cbn [List.hd app store_bytes length] in *; [done|].
  apply cstr_tail in Hl as Hl'. destruct Hl' as [Hc Hl']. rewrite (proj2 (Z.eqb_neq c 0)) by lia.
  apply IH; [|apply mapped_insert; sub_mapped|lia|lia].
  eapply cstr_ext; [|exact Hl']. intros x Hx. apply lookup_insert_ne. lia.
Qed.
Lemma strend_loop_run fuel m d l :
  cstr m d l -> (length l < fuel)%nat -> strend_loop fuel d m = Ok (d + Z.of_nat (length l), m).
Proof.
  revert d l. induction fuel as [|fuel IH]; intros d l Hl Hf; [lia|]. cbn [strend_loop].
  erewrite bind_run; [cbv beta|by apply cstr_head]. destruct l as [|c l]; cbn [List.hd length] in *.
  - by rewrite Z.add_0_r.
  - apply cstr_tail in Hl as [Hc Hl]. rewrite (proj2 (Z.eqb_neq c 0)) by lia. rewrite (IH _ l) by (done || lia).
    do 2 f_equal. lia.
Qed.

(** strcpy puts the text and its terminator at [d], strcat behind the text
    that is there. *)
Theorem strcpy_spec (m : mem) (d s : Z) (l : list Z) :
  cstr m s l -> mapped m d (Z.of_nat (length l) + 1) ->
  s + Z.of_nat (length l) < d \/ d + Z.of_nat (length l) < s ->
  strcpy d s m = Ok (d, store_bytes d (l ++ [0]) m).
Proof.
  intros Hl Hd Ho. unfold strcpy, str_fuel. erewrite bind_run; [cbv beta|reflexivity].
  pose proof (cstr_size _ _ _ Hl). erewrite bind_run; [reflexivity|]. apply strcpy_loop_run; (done || lia).
Qed.
Theorem strcat_spec (m : mem) (d s : Z) (k l : list Z) :
  cstr m d k -> cstr m s l -> mapped m d (Z.of_nat (length k + length l) + 1) ->
  s + Z.of_nat (length l) < d \/ d + Z.of_nat (length k + length l) < s ->
  strcat d s m = Ok (d, store_bytes (d + Z.of_nat (length k)) (l ++ [0]) m).
Proof.
  intros Hk Hl Hd Ho. unfold strcat, str_fuel. erewrite bind_run; [cbv beta|reflexivity].
  pose proof (cstr_size _ _ _ Hl). pose proof (cstr_size _ _ _ Hk).
  erewrite bind_run; [cbv beta|apply (strend_loop_run _ _ _ k); (done || lia)].
  erewrite bind_run; [reflexivity|]. apply strcpy_loop_run; [done|sub_mapped|lia|lia].
Qed.

Lemma libc_pad_run fuel m d n :
  mapped m d n -> 0 <= n -> (Z.to_nat n < fuel)%nat ->
  strncpy_pad fuel d n m = Ok (tt, store_bytes d (replicate (Z.to_nat n) 0) m).
Proof.
  revert m d n. induction fuel as [|fuel IH]; intros m d n Hd Hn Hf; [lia|]. cbn [strncpy_pad].
  destruct (Z.ltb_spec 0 n) as [H|H].
  - erewrite bind_run; [cbv beta|apply st8_run; sub_mapped]. rewrite u32_small by (destruct Hd; lia).
    rewrite IH; [|apply mapped_insert; sub_mapped|lia|lia].
    replace (Z.to_nat n) with (S (Z.to_nat (n - 1))) by lia. done.
  - by replace n with 0 by lia.
Qed.
(** up to the first byte that is not mapped *)
Lemma strncpy_pad_overrun fuel m d n k :
  mapped m d k -> 0 <= k < n -> d + k < 4294967296 -> n < 4294967296 -> m !! (d + k) = None -> (Z.to_nat k < fuel)%nat ->
  strncpy_pad fuel d n m = Fault BadPointer.
Proof.
  revert m d n k. induction fuel as [|fuel IH]; intros m d n k Hd Hk He Hn Hx Hf; [lia|]. cbn [strncpy_pad].
  rewrite (proj2 (Z.ltb_lt 0 n)) by lia. destruct (decide (k = 0)) as [->|Hk0].
  - rewrite Z.add_0_r in *. unfold bind, st8, get, the. unfold bind. destruct Hd as (Hd & _).
    rewrite u32_small by lia. by rewrite Hx.
  - erewrite bind_run; [cbv beta|apply st8_run; sub_mapped]. rewrite u32_small by lia.
    apply (IH _ _ _ (k - 1)); [apply mapped_insert; sub_mapped|lia|lia|lia| |lia].
    rewrite lookup_insert_ne by lia. rewrite <- Hx. f_equal. lia.
Qed.
Lemma strncpy_copy_run fuel m d s l n :
  cstr m s l -> mapped m d (Z.min n (Z.of_nat (length l) + 1)) -> 0 <= n < 4294967296 ->
  s + Z.of_nat (length l) < d \/ d + Z.of_nat (length l) < s -> (length l < fuel)%nat ->
  strncpy_copy fuel d s n m =
    if Z.of_nat (length l) <? n
    then Ok ((d + Z.of_nat (length l) + 1, n - Z.of_nat (length l) - 1), store_bytes d (l ++ [0]) m)
    else Ok ((d + n, 4294967295), store_bytes d (take (Z.to_nat n) l) m).
Proof.
  revert m d s l n. induction fuel as [|fuel IH]; intros m d s l n Hl Hd Hn Ho Hf; [lia|]. cbn [strncpy_copy].
  destruct (Z.eqb_spec n 0) as [->|Hne].
  { rewrite (proj2 (Z.ltb_ge _ _)) by lia. by rewrite Z.add_0_r. }
  erewrite bind_run; [cbv beta|by apply cstr_head].
  erewrite bind_run; [cbv beta|apply st8_run; sub_mapped].
  pose proof (hd_byte _ (cstr_bytes _ _ _ Hl)) as Hh. rewrite !u8_small, u32_small by lia.
  destruct l as [|c l]; cbn [List.hd app store_bytes length] in *.
  { change (0 =? 0) with true. cbv iota. rewrite (proj2 (Z.ltb_lt _ _)) by lia. unfold ret. do 3 f_equal; lia. }
  apply cstr_tail in Hl as Hl'. destruct Hl' as [Hc Hl']. rewrite (proj2 (Z.eqb_neq c 0)) by lia.
  rewrite (IH _ _ _ l); [|eapply cstr_ext; [|exact Hl']; intros x Hx; apply lookup_insert_ne; lia
    |apply mapped_insert; sub_mapped|lia|lia|lia].
  replace (Z.to_nat n) with (S (Z.to_nat (n - 1))) by lia. cbn [take store_bytes].
  destruct (Z.ltb_spec (Z.of_nat (length l)) (n - 1)), (Z.ltb_spec (Z.of_nat (S (length l))) n); try lia;
    do 3 f_equal; lia.
Qed.
(** A source that fits: the text, and zeros up to [n] bytes. *)
Theorem strncpy_pads (m : mem) (d s n : Z) (l : list Z) :
  cstr m s l -> mapped m d n -> Z.of_nat (length l) < n < 4294967296 -> 
  s + Z.of_nat (length l) < d \/ d + Z.of_nat (length l) < s ->
  strncpy d s n m = Ok (d, store_bytes d (l ++ replicate (Z.to_nat n - length l) 0) m).
Proof.
  intros Hl Hd Hn Ho. unfold strncpy, str_fuel. erewrite bind_run; [cbv beta|reflexivity].
  pose proof (cstr_size _ _ _ Hl). pose proof (mapped_size _ _ _ Hd).
  pose proof (strncpy_copy_run (S (base.size m)) m d s l n Hl ltac:(sub_mapped) ltac:(lia) Ho ltac:(lia)) as E.
  rewrite (proj2 (Z.ltb_lt _ n)) in E by lia. erewrite bind_run; [cbv beta|exact E]. cbn [fst snd].
  erewrite bind_run; [reflexivity|]. rewrite libc_pad_run; [|apply mapped_store_bytes; sub_mapped|lia|].
  - set (k := Z.to_nat (n - Z.of_nat (length l) - 1)).
    replace (l ++ replicate (Z.to_nat n - length l) 0) with ((l ++ [0]) ++ replicate k 0).
    2: { rewrite <- app_assoc. f_equal. by replace (Z.to_nat n - length l)%nat with (S k) by lia. }
    rewrite (store_bytes_app d (l ++ [0])), length_app.
    cbn [length]. do 3 f_equal. lia.
  - lia.
Qed.
(** A source that does not fit: the count of the padding loop has wrapped
    around, and zeros are written up to the end of the mapped memory. *)
Theorem strncpy_overrun (m : mem) (d s n e : Z) (l : list Z) :
  cstr m s l -> 0 <= n <= Z.of_nat (length l) -> s + Z.of_nat (length l) < d ->
  n <= e - d -> mapped m d (e - d) -> e < 4294967296 -> m !! e = None ->
  strncpy d s n m = Fault BadPointer.
Proof.
  intros Hl Hn Ho He Hd Hb Hx. unfold strncpy, str_fuel. erewrite bind_run; [cbv beta|reflexivity].
  pose proof (cstr_size _ _ _ Hl). pose proof (mapped_size _ _ _ Hd).
  pose proof (cstr_mapped _ _ _ Hl) as Hs. destruct Hs as (Hs0 & Hs1 & _).
  pose proof (strncpy_copy_run (S (base.size m)) m d s l n Hl ltac:(sub_mapped) ltac:(lia) ltac:(lia) ltac:(lia)) as E.
  rewrite (proj2 (Z.ltb_ge _ n)) in E by lia. erewrite bind_run; [cbv beta|exact E]. cbn [fst snd].
  unfold bind. rewrite (strncpy_pad_overrun _ _ _ _ (e - d - n)); [done|apply mapped_store_bytes; sub_mapped|lia|lia|lia| |lia].
  rewrite lookup_store_bytes, decide_False by (rewrite length_take; lia). rewrite <- Hx. f_equal. lia.
Qed.
