(* ===== verification/Console.v ===== *)
(** The console of the BSP, bsp/mycpu/board.c, and the console output of
    kservice.c on top of it.  The UART and the seven-segment display are
    devices behind a bus: a class gives loads and stores of their registers, a
    second one what board.c relies on (a transmitter that is busy for a bounded
    number of polls, a display that keeps what is stored).  The wait loops of
    the source have no bound; they run with fuel here, and the theorems say how
    much is enough. *)
From S2P Require Import Prelude KService Mem Heap KString KPrintf KPrintfSpec.

(** * The bus *)
Definition SEG_ADDR : Z := 2149580832.        (* 0x80200020 *)
Definition UART_DATA_ADDR : Z := 2149580896.  (* 0x80200060 *)
Definition UART_STATUS_ADDR : Z := 2149580900. (* 0x80200064 *)
Class Bus (W : Type) := {
  bus_load : Z -> W -> Z * W;
  bus_store : Z -> Z -> W -> W;
}.

(** the static variables of board.c, the memory and the devices *)
Record board {W : Type} := {
  console_ring : list Z;
  console_ring_idx : Z;
  bmem : mem;
  world : W;
}.
Arguments board W : clear implicits.

Section console.
Context {W : Type} {B : Bus W}.
Abbreviation Board := (M (board W)).
Definition set_ring l i (s : board W) : board W :=
  {| console_ring := l; console_ring_idx := i; bmem := bmem s; world := world s |}.
Definition set_bmem m (s : board W) : board W :=
  {| console_ring := console_ring s; console_ring_idx := console_ring_idx s; bmem := m; world := world s |}.
Definition set_world w (s : board W) : board W :=
  {| console_ring := console_ring s; console_ring_idx := console_ring_idx s; bmem := bmem s; world := w |}.

Definition load (a : Z) : Board Z := fun s =>
  let (v, w) := bus_load a (world s) in Ok (v, set_world w s).
Definition store (a v : Z) : Board unit := modify (fun s => set_world (bus_store a v (world s)) s).
Definition on_bmem {A} (m : M mem A) : Board A := fun s =>
  match m (bmem s) with Ok (a, r) => Ok (a, set_bmem r s) | Fault f => Fault f end.

(** while (status & 1) ; *)
Fixpoint wait_tx (fuel : nat) : Board unit :=
  match fuel with
  | O => raise OutOfFuel
  | S fuel => let* v := load UART_STATUS_ADDR in if Z.testbit v 0 then wait_tx fuel else ret tt
  end.
(** one character: wait, send, and keep it in the ring; the index is a
    rt_uint8_t *)
Definition put_char (polls : nat) (c : Z) : Board unit :=
  wait_tx polls;;
  store UART_DATA_ADDR c;;
  modify (fun s => set_ring (<[Z.to_nat (Z.land (console_ring_idx s) 7) := u8 c]> (console_ring s))
    (u8 (console_ring_idx s + 1)) s).
Fixpoint output_loop (polls fuel : nat) (str : Z) : Board unit :=
  match fuel with
  | O => raise OutOfFuel
  | S fuel =>
      let* c := on_bmem (ld8 str) in
      if c =? 0 then ret tt
      else
        when (c =? 10) (put_char polls 13);;
        put_char polls c;;
        output_loop polls fuel (str + 1)
  end.
(** the last four characters, the first in the highest byte *)
Definition seg_value (ring : list Z) (idx : Z) : Z :=
  fold_left (fun v i => u32 (Z.lor (Z.shiftl v 8) (default 0 (ring !! Z.to_nat (Z.land (idx - 4 + i) 7)))))
    [0; 1; 2; 3] 0.
Definition rt_hw_console_output (polls : nat) (str : Z) : Board unit :=
  let* fuel := on_bmem str_fuel in
  output_loop polls fuel str;;
  let* s := get in
  store SEG_ADDR (seg_value (console_ring s) (console_ring_idx s)).

(** no character: (char)-1 *)
Definition rt_hw_console_getchar : Board Z :=
  let* v := load UART_STATUS_ADDR in
  if Z.testbit v 1 then let* d := load UART_DATA_ADDR in ret (Z.land d 255) else ret 255.

(** * kservice.c *)
Definition rt_kputs (polls : nat) (str : Z) : Board unit :=
  if str =? 0 then ret tt else rt_hw_console_output polls str.
Definition RT_CONSOLEBUF_SIZE : Z := 256.
(** [rt_log_buf] is the static buffer *)
Definition rt_kprintf (polls : nat) (rt_log_buf fmt : Z) (args : list Z) : Board unit :=
  let* _length := on_bmem (rt_vsnprintf rt_log_buf (RT_CONSOLEBUF_SIZE - 1) fmt args) in
  rt_hw_console_output polls rt_log_buf.
End console.

(** * What board.c relies on *)
Class Uart (W : Type) `{Bus W} := {
  (** sent to the line, shown on the display, received and not yet read *)
  sent : W -> list Z;
  shown : W -> Z;
  received : W -> list Z;
  (** how many polls still find the transmitter busy *)
  busy : W -> nat;
  busy_max : nat;
  busy_le : forall w, (busy w <= busy_max)%nat;
  load_status : forall w, let (v, w') := bus_load UART_STATUS_ADDR w in
    Z.testbit v 0 = negb (busy w =? 0)%nat /\ Z.testbit v 1 = negb (bool_decide (received w = [])) /\
    busy w' = pred (busy w) /\ sent w' = sent w /\ shown w' = shown w /\ received w' = received w;
  load_data : forall w, let (v, w') := bus_load UART_DATA_ADDR w in
    Z.land v 255 = List.hd 0 (received w) /\ received w' = tail (received w) /\ sent w' = sent w /\ shown w' = shown w;
  store_data : forall c w, busy w = 0%nat -> let w' := bus_store UART_DATA_ADDR c w in
    sent w' = sent w ++ [c] /\ shown w' = shown w /\ received w' = received w;
  store_seg : forall v w, let w' := bus_store SEG_ADDR v w in
    shown w' = v /\ sent w' = sent w /\ received w' = received w;
}.

Section console_spec.
Context {W : Type} `{U : Uart W}.

(** what the terminal gets for a text *)
Definition crlf (l : list Z) : list Z := concat ((fun c => if c =? 10 then [13; 10] else [c]) <$> l).
(** the display of the last four characters *)
Definition seg_of (h : list Z) : Z :=
  fold_left (fun v c => u32 (Z.lor (Z.shiftl v 8) c)) (drop (length h - 4) h) 0.
(** the ring holds the last eight characters of [h], all that was printed *)
Record ring_ok (ring : list Z) (idx : Z) (h : list Z) : Prop := {
  ro_idx : idx = u8 (Z.of_nat (length h));
  ro_ring : length ring = 8%nat;
  ro_long : (8 <= length h)%nat;
  ro_last : forall i, (length h - 8 <= i < length h)%nat -> ring !! (i mod 8)%nat = h !! i;
}.

Lemma ring_start : ring_ok (replicate 8 0) 0 (replicate 256 0).
Proof.
  split; [done|done|cbn; lia|]. intros i Hi. rewrite length_replicate in Hi.
  rewrite !lookup_replicate_2; [done|lia|]. apply Nat.mod_upper_bound. lia.
Qed.
Lemma land_7 x : Z.land x 7 = x mod 8.
Proof. apply (Z.land_ones x 3). lia. Qed.
Lemma ring_put ring idx h c :
  ring_ok ring idx h -> 0 <= c < 256 ->
  ring_ok (<[Z.to_nat (Z.land idx 7) := u8 c]> ring) (u8 (idx + 1)) (h ++ [c]).
Proof.
  intros [H1 H2 H3 H4] Hc. subst idx. rewrite land_7, (u8_small c) by done.
  assert (E : Z.to_nat (u8 (Z.of_nat (length h)) mod 8) = (length h mod 8)%nat).
  { unfold u8. rewrite <- (Nat2Z.id (length h mod 8)), Nat2Z.inj_mod. f_equal.
    change 256 with (8 * 32). rewrite Z.rem_mul_r by lia. rewrite Z.add_mod, Z.mul_comm, Z.mod_mul by lia.
    rewrite Z.add_0_r, !Z.mod_mod by lia. done. }
  rewrite E. split.
  - unfold u8. rewrite Z.add_mod_idemp_l by lia. rewrite length_app. cbn [length]. f_equal. lia.
  - by rewrite length_insert.
  - rewrite length_app. lia.
  - intros i Hi. rewrite length_app in Hi. cbn [length] in Hi.
    destruct (decide (i = length h)) as [->|].
    + rewrite lookup_app_r, Nat.sub_diag by lia. apply list_lookup_insert_eq. rewrite H2. apply Nat.mod_upper_bound. lia.
    + rewrite lookup_app_l by lia. rewrite list_lookup_insert_ne; [apply H4; lia|].
      intros Em. pose proof (Nat.div_mod (length h) 8 ltac:(lia)). pose proof (Nat.div_mod i 8 ltac:(lia)). lia.
Qed.
Lemma ring_seg ring idx h : ring_ok ring idx h -> seg_value ring idx = seg_of h.
Proof.
  intros [H1 H2 H3 H4]. unfold seg_value, seg_of.
  assert (E : forall j, (j < 4)%nat -> ring !! Z.to_nat (Z.land (idx - 4 + Z.of_nat j) 7) = h !! (length h - 4 + j)%nat).
  { intros j Hj. rewrite land_7, <- (H4 (length h - 4 + j)%nat) by lia. f_equal.
    rewrite <- (Nat2Z.id (_ mod 8)), Nat2Z.inj_mod. f_equal. subst idx. unfold u8.
    rewrite (Z.mod_eq _ 256) by lia. change 256 with (8 * 32).
    replace (Z.of_nat (length h) - 8 * 32 * (Z.of_nat (length h) / (8 * 32)) - 4 + Z.of_nat j) with
      (Z.of_nat (length h - 4 + j) + - (32 * (Z.of_nat (length h) / (8 * 32))) * 8) by lia.
    rewrite Z.mod_add by lia. done. }
  pose proof (E 0%nat ltac:(lia)) as E0. pose proof (E 1%nat ltac:(lia)) as E1.
  pose proof (E 2%nat ltac:(lia)) as E2. pose proof (E 3%nat ltac:(lia)) as E3. clear E.
  change (Z.of_nat 0) with 0 in E0. change (Z.of_nat 1) with 1 in E1. change (Z.of_nat 2) with 2 in E2.
  change (Z.of_nat 3) with 3 in E3.
  cbn [fold_left]. rewrite E0, E1, E2, E3. rewrite <- !lookup_drop.
  assert (El : length (drop (length h - 4) h) = 4%nat) by (rewrite length_drop; lia).
  destruct (drop (length h - 4) h) as [|a [|b [|c [|d [|]]]]]; cbn in El; try lia. done.
Qed.

Lemma load_run a s v w : bus_load a (world s) = (v, w) -> load a s = Ok (v, set_world w s).
Proof. intros E. unfold load. by rewrite E. Qed.
Lemma wait_tx_run fuel s : (busy (world s) < fuel)%nat ->
  exists w, wait_tx fuel s = Ok (tt, set_world w s) /\ busy w = 0%nat /\ sent w = sent (world s) /\
    shown w = shown (world s) /\ received w = received (world s).
Proof.
  revert s. induction fuel as [|fuel IH]; intros s Hf; [lia|]. cbn [wait_tx].
  pose proof (load_status (world s)) as H. destruct (bus_load UART_STATUS_ADDR (world s)) as [v w] eqn:E.
  destruct H as (Hv & _ & Hb & H1 & H2 & H3). erewrite bind_run; [cbv beta|by apply load_run]. rewrite Hv.
  destruct (Nat.eqb_spec (busy (world s)) 0) as [E0|E0]; cbn [negb].
  - exists w. split_and!; [done|lia|done..].
  - destruct (IH (set_world w s)) as (w' & E' & ? & ? & ? & ?); [cbn [world set_world]; lia|].
    exists w'. cbn [world set_world] in *. split_and!; [exact E'|done|congruence..].
Qed.
(** the state after [k] has been printed; [h] is the text before *)
Definition printed_to (s s' : board W) (h k : list Z) : Prop :=
  sent (world s') = sent (world s) ++ k /\ received (world s') = received (world s) /\ bmem s' = bmem s /\
  ring_ok (console_ring s') (console_ring_idx s') (h ++ k).
Lemma put_char_run polls s h c :
  (busy_max < polls)%nat -> 0 <= c < 256 -> ring_ok (console_ring s) (console_ring_idx s) h ->
  exists s', put_char polls c s = Ok (tt, s') /\ printed_to s s' h [c].
Proof.
  intros Hp Hc Hr. pose proof (busy_le (world s)).
  destruct (wait_tx_run polls s) as (w & E & Hb & H1 & H2 & H3); [lia|]. unfold put_char.
  erewrite bind_run; [cbv beta|exact E]. erewrite bind_run; [cbv beta|reflexivity].
  eexists. split; [reflexivity|]. cbn [console_ring console_ring_idx world bmem set_ring set_world].
  destruct (store_data c w Hb) as (S1 & S2 & S3). unfold printed_to. cbn [console_ring console_ring_idx world bmem set_ring set_world].
  rewrite S1, S3. split_and!; [congruence|done|done|by apply ring_put].
Qed.
Lemma printed_to_trans s s1 s2 h k1 k2 :
  printed_to s s1 h k1 -> printed_to s1 s2 (h ++ k1) k2 -> printed_to s s2 h (k1 ++ k2).
Proof.
  intros (A1 & A2 & A3 & A4) (B1 & B2 & B3 & B4). unfold printed_to. rewrite !app_assoc, <- A1.
  split_and!; [done|congruence|congruence|done].
Qed.
Lemma output_loop_run polls fuel s str l h :
  (busy_max < polls)%nat -> cstr (bmem s) str l -> (length l < fuel)%nat ->
  ring_ok (console_ring s) (console_ring_idx s) h ->
  exists s', output_loop polls fuel str s = Ok (tt, s') /\ printed_to s s' h (crlf l).
Proof.
  intros Hp. revert s str l h. induction fuel as [|fuel IH]; intros s str l h Hl Hf Hr; [lia|]. cbn [output_loop].
  assert (Eld : on_bmem (ld8 str) s = Ok (List.hd 0 l, s)).
  { unfold on_bmem. rewrite (cstr_head _ _ l) by done. by destruct s. }
  erewrite bind_run; [cbv beta|exact Eld]. pose proof (hd_byte _ (cstr_bytes _ _ _ Hl)) as Hh.
  destruct l as [|c l]; cbn [List.hd length] in *.
  { exists s. split; [done|]. unfold printed_to, crlf. cbn. rewrite !app_nil_r. done. }
  apply cstr_tail in Hl as [Hc Hl]. rewrite (proj2 (Z.eqb_neq c 0)) by lia.
  assert (Hcr : exists s1, when (c =? 10) (put_char polls 13) s = Ok (tt, s1) /\
    printed_to s s1 h (if c =? 10 then [13] else [])).
  { destruct (c =? 10); cbn [when].
    - apply put_char_run; [done|lia|done].
    - exists s. split; [done|]. unfold printed_to. rewrite !app_nil_r. done. }
  destruct Hcr as (s1 & E1 & P1). erewrite bind_run; [cbv beta|exact E1].
  destruct (put_char_run polls s1 (h ++ (if c =? 10 then [13] else [])) c) as (s2 & E2 & P2); [done|done|apply P1|].
  erewrite bind_run; [cbv beta|exact E2]. pose proof (printed_to_trans _ _ _ _ _ _ P1 P2) as P12.
  destruct (IH s2 (str + 1) l (h ++ (if c =? 10 then [13] else []) ++ [c])) as (s3 & E3 & P3).
  { destruct P12 as (_ & _ & -> & _). done. }
  { lia. }
  { apply P12. }
  exists s3. split; [exact E3|].
  assert (Ecr : crlf (c :: l) = ((if c =? 10 then [13] else []) ++ [c]) ++ crlf l)
    by (unfold crlf; cbn; by destruct (Z.eqb_spec c 10) as [->|]).
  rewrite Ecr. by eapply printed_to_trans.
Qed.
Lemma console_output_run polls s str l h :
  (busy_max < polls)%nat -> cstr (bmem s) str l -> ring_ok (console_ring s) (console_ring_idx s) h ->
  exists s', rt_hw_console_output polls str s = Ok (tt, s') /\ printed_to s s' h (crlf l) /\
    shown (world s') = seg_of (h ++ crlf l).
Proof.
  intros Hp Hl Hr. unfold rt_hw_console_output.
  assert (Ef : on_bmem str_fuel s = Ok (S (base.size (bmem s)), s)).
  { unfold on_bmem, str_fuel. unfold gets. by destruct s. }
  erewrite bind_run; [cbv beta|exact Ef].
  destruct (output_loop_run polls (S (base.size (bmem s))) s str l h Hp Hl) as (s1 & E1 & P1 & P2 & P3 & P4).
  { pose proof (cstr_size _ _ _ Hl). lia. }
  { done. }
  erewrite bind_run; [cbv beta|exact E1]. erewrite bind_run; [cbv beta|reflexivity].
  eexists. split; [reflexivity|]. destruct (store_seg (seg_value (console_ring s1) (console_ring_idx s1)) (world s1)) as (S1 & S2 & S3).
  unfold printed_to. cbn [console_ring console_ring_idx world bmem set_world]. rewrite S1, S2, S3.
  split_and!; try done. by apply ring_seg.
Qed.

End console_spec.
