(* ===== verification/Bme280.v ===== *)
(** The driver of the BME280 sensor, bsp/mycpu/bme280.c: register accesses
    over the I2C controller by polling, the calibration data, the fixed-point
    compensation formulas and a measurement.  The devices are behind the bus
    of [Console]; what a delay does to them is a parameter.  Signed arithmetic
    that leaves its type is undefined in C, and a fault here. *)
From S2P Require Import Prelude KService Mem Heap KString KPrintf KPrintfSpec Console.

(** 0x80200084 and on *)
Definition I2C_DEV_ADDR_REG : Z := 2149580932.
Definition I2C_REG_ADDR_REG : Z := 2149580936.
Definition I2C_DATA_REG : Z := 2149580940.
Definition I2C_CTRL_REG : Z := 2149580944.
Definition I2C_CTRL_START : Z := 1.
Definition I2C_CTRL_READ : Z := 2.
Definition BME280_REG_CALIB00 : Z := 136.
Definition BME280_REG_ID : Z := 208.
Definition BME280_REG_RESET : Z := 224.
Definition BME280_REG_CALIB26 : Z := 225.
Definition BME280_REG_CTRL_HUM : Z := 242.
Definition BME280_REG_STATUS : Z := 243.
Definition BME280_REG_CTRL_MEAS : Z := 244.
Definition BME280_REG_CONFIG : Z := 245.
Definition BME280_REG_PRESS_MSB : Z := 247.
Definition BME280_CHIP_ID : Z := 96.
Definition BME280_SOFT_RESET : Z := 182.
Definition BME280_TIMEOUT_LOOPS : nat := Z.to_nat 2000000.
Definition BME280_STATUS_IM_UPDATE : Z := 1.
Definition BME280_STATUS_MEASURING : Z := 8.
Definition BME280_STATUS_TIMEOUT_MS : nat := 100.
Definition BME280_SAMPLE_RETRIES : nat := 2.

(** struct bme280_calibration: a value for each of its fields *)
Inductive dig :=
  | dig_t1 | dig_t2 | dig_t3
  | dig_p1 | dig_p2 | dig_p3 | dig_p4 | dig_p5 | dig_p6 | dig_p7 | dig_p8 | dig_p9
  | dig_h1 | dig_h2 | dig_h3 | dig_h4 | dig_h5 | dig_h6.
#[export] Instance dig_eq_dec : EqDecision dig.
Proof. solve_decision. Defined.
Definition bme280_calibration : Type := dig -> Z.

Record bme280_sample := {
  temperature_centi_c : Z;
  pressure_pa : Z;
  humidity_centi_pct : Z;
}.
(** the static variables, and the devices *)
Record bme280 {W : Type} := {
  calibration : bme280_calibration;
  bme280_address : Z;
  t_fine : Z;
  initialized : bool;
  devices : W;
}.
Arguments bme280 W : clear implicits.

(** * Machine arithmetic *)
Definition sign_extend_12 (value : Z) : Z :=
  s16 (if truthy (Z.land value 2048) then Z.lor value 61440 else value).
(** the result of a signed operation on int32_t and on int64_t *)
Definition i32 {S} (x : Z) : M S Z :=
  if ((-2147483648 <=? x) && (x <? 2147483648))%bool then ret x else raise Undefined.
Definition i64 {S} (x : Z) : M S Z :=
  if ((-9223372036854775808 <=? x) && (x <? 9223372036854775808))%bool then ret x else raise Undefined.

Section driver.
Context {W : Type} {B : Bus W} (rt_thread_mdelay : Z -> W -> W).
Abbreviation Bme := (M (bme280 W)).
Definition set_devices w (s : bme280 W) : bme280 W := {| calibration := calibration s;
  bme280_address := bme280_address s; t_fine := t_fine s; initialized := initialized s; devices := w |}.
Definition set_dig d v (s : bme280 W) : bme280 W := {| calibration := fun d' => if decide (d' = d) then v else calibration s d';
  bme280_address := bme280_address s; t_fine := t_fine s; initialized := initialized s; devices := devices s |}.
Definition set_address v (s : bme280 W) : bme280 W := {| calibration := calibration s;
  bme280_address := v; t_fine := t_fine s; initialized := initialized s; devices := devices s |}.
Definition set_t_fine v (s : bme280 W) : bme280 W := {| calibration := calibration s;
  bme280_address := bme280_address s; t_fine := v; initialized := initialized s; devices := devices s |}.
Definition set_initialized v (s : bme280 W) : bme280 W := {| calibration := calibration s;
  bme280_address := bme280_address s; t_fine := t_fine s; initialized := v; devices := devices s |}.

Definition reg_load (a : Z) : Bme Z := fun s =>
  let (v, w) := bus_load a (devices s) in Ok (v, set_devices w s).
Definition reg_store (a v : Z) : Bme unit := modify (fun s => set_devices (bus_store a v (devices s)) s).
Definition mdelay (ms : Z) : Bme unit := modify (fun s => set_devices (rt_thread_mdelay ms (devices s)) s).

(** * Register accesses *)
(** the result and the byte read; [want] says that read_data is not NULL *)
Fixpoint wait_loop (timeout : nat) (want : bool) : Bme (Z * Z) :=
  match timeout with
  | O => ret (-2, 0)
  | S timeout =>
      let* status := reg_load I2C_CTRL_REG in
      if Z.testbit status 1 then
        if (Z.testbit status 0 || Z.testbit status 2)%bool then ret (-1, 0)
        else if want then let* d := reg_load I2C_DATA_REG in ret (0, u8 d)
        else ret (0, 0)
      else wait_loop timeout want
  end.
Definition i2c_wait_done (want : bool) : Bme (Z * Z) := wait_loop BME280_TIMEOUT_LOOPS want.
Definition bme280_write_reg (reg value : Z) : Bme Z :=
  let* s := get in
  reg_store I2C_DEV_ADDR_REG (bme280_address s);;
  reg_store I2C_REG_ADDR_REG reg;;
  reg_store I2C_DATA_REG value;;
  reg_store I2C_CTRL_REG I2C_CTRL_START;;
  let* r := i2c_wait_done false in ret r.1.
Definition bme280_read_reg (reg : Z) : Bme (Z * Z) :=
  let* s := get in
  reg_store I2C_DEV_ADDR_REG (bme280_address s);;
  reg_store I2C_REG_ADDR_REG reg;;
  reg_store I2C_CTRL_REG (Z.lor I2C_CTRL_START I2C_CTRL_READ);;
  i2c_wait_done true.

(** if (m != 0) return code; the byte or the word that was read *)
Definition reading {A} (m : Bme (Z * Z)) (code : A) (k : Z -> Bme A) : Bme A :=
  let* r := m in if negb (r.1 =? 0) then ret code else k r.2.
Definition writing {A} (m : Bme Z) (code : A) (k : Bme A) : Bme A :=
  let* r := m in if negb (r =? 0) then ret code else k.

(** 0: the bits of [mask] are clear, -1: an access failed, -2: timeout *)
Fixpoint status_loop (mask : Z) (n : nat) : Bme Z :=
  match n with
  | O => ret (-2)
  | S n =>
      reading (bme280_read_reg BME280_REG_STATUS) (-1) (fun status =>
        if Z.land status mask =? 0 then ret 0 else mdelay 1;; status_loop mask n)
  end.
Definition wait_status_clear (mask : Z) (timeout_ms : nat) : Bme Z := status_loop mask timeout_ms.
Definition read_u16_le (reg : Z) : Bme (Z * Z) :=
  reading (bme280_read_reg reg) (-1, 0) (fun low =>
  reading (bme280_read_reg (u8 (reg + 1))) (-1, 0) (fun high =>
  ret (0, u16 (Z.lor (Z.shiftl high 8) low)))).

(** * Calibration *)
Definition read_unsigned (reg : Z) (d : dig) (k : Bme Z) : Bme Z :=
  reading (read_u16_le reg) (-1) (fun v => modify (set_dig d v);; k).
Definition read_signed (reg : Z) (d : dig) (k : Bme Z) : Bme Z :=
  reading (read_u16_le reg) (-1) (fun v => modify (set_dig d (s16 v));; k).
Definition read_calibration : Bme Z :=
  read_unsigned (BME280_REG_CALIB00 + 0) dig_t1 (
  read_signed (BME280_REG_CALIB00 + 2) dig_t2 (
  read_signed (BME280_REG_CALIB00 + 4) dig_t3 (
  read_unsigned (BME280_REG_CALIB00 + 6) dig_p1 (
  read_signed (BME280_REG_CALIB00 + 8) dig_p2 (
  read_signed (BME280_REG_CALIB00 + 10) dig_p3 (
  read_signed (BME280_REG_CALIB00 + 12) dig_p4 (
  read_signed (BME280_REG_CALIB00 + 14) dig_p5 (
  read_signed (BME280_REG_CALIB00 + 16) dig_p6 (
  read_signed (BME280_REG_CALIB00 + 18) dig_p7 (
  read_signed (BME280_REG_CALIB00 + 20) dig_p8 (
  read_signed (BME280_REG_CALIB00 + 22) dig_p9 (
  reading (bme280_read_reg 161) (-1) (fun v => modify (set_dig dig_h1 v);;
  read_signed BME280_REG_CALIB26 dig_h2 (
  reading (bme280_read_reg 227) (-1) (fun v => modify (set_dig dig_h3 v);;
  reading (bme280_read_reg 228) (-1) (fun e4 =>
  reading (bme280_read_reg 229) (-1) (fun e5 =>
  reading (bme280_read_reg 230) (-1) (fun e6 =>
  reading (bme280_read_reg 231) (-1) (fun h6 =>
  modify (set_dig dig_h4 (sign_extend_12 (u16 (Z.lor (Z.shiftl e4 4) (Z.land e5 15)))));;
  modify (set_dig dig_h5 (sign_extend_12 (u16 (Z.lor (Z.shiftl e6 4) (Z.shiftr e5 4)))));;
  modify (set_dig dig_h6 (s8 h6));;
  ret 0))))))))))))))))))).

(** * Compensation *)
Definition compensate_temperature (adc_t : Z) : Bme Z :=
  let* s := get in let dig := calibration s in
  let* t1_2 := i32 (Z.shiftl (dig dig_t1) 1) in
  let* d := i32 (Z.shiftr adc_t 3 - t1_2) in
  let* p := i32 (d * dig dig_t2) in
  let var1 := Z.shiftr p 11 in
  let* e := i32 (Z.shiftr adc_t 4 - dig dig_t1) in
  let* sq := i32 (e * e) in
  let* q := i32 (Z.shiftr sq 12 * dig dig_t3) in
  let var2 := Z.shiftr q 14 in
  let* t := i32 (var1 + var2) in
  modify (set_t_fine t);;
  let* t5 := i32 (t * 5) in
  let* t5 := i32 (t5 + 128) in
  ret (Z.shiftr t5 8).

Definition compensate_pressure (adc_p : Z) : Bme Z :=
  let* s := get in let dig := calibration s in
  let* var1 := i64 (t_fine s - 128000) in
  let* sq := i64 (var1 * var1) in
  let* var2 := i64 (sq * dig dig_p6) in
  let* a := i64 (var1 * dig dig_p5) in let* a := i64 (a * 131072) in
  let* var2 := i64 (var2 + a) in
  let* a := i64 (dig dig_p4 * Z.shiftl 1 35) in
  let* var2 := i64 (var2 + a) in
  let* a := i64 (sq * dig dig_p3) in
  let* b := i64 (var1 * dig dig_p2) in let* b := i64 (b * 4096) in
  let* var1 := i64 (Z.shiftr a 8 + b) in
  let* a := i64 (Z.shiftl 1 47 + var1) in let* a := i64 (a * dig dig_p1) in
  let var1 := Z.shiftr a 33 in
  if var1 =? 0 then ret 0
  else
    let* pressure := i32 (1048576 - adc_p) in
    let* a := i64 (Z.shiftl pressure 31) in let* a := i64 (a - var2) in let* a := i64 (a * 3125) in
    let* pressure := i64 (Z.quot a var1) in
    let* a := i64 (dig dig_p9 * Z.shiftr pressure 13) in let* a := i64 (a * Z.shiftr pressure 13) in
    let var1 := Z.shiftr a 25 in
    let* a := i64 (dig dig_p8 * pressure) in
    let var2 := Z.shiftr a 19 in
    let* a := i64 (pressure + var1) in let* a := i64 (a + var2) in
    let* b := i64 (dig dig_p7 * 16) in
    let* pressure := i64 (Z.shiftr a 8 + b) in
    ret (u32 (Z.shiftr pressure 8)).

Definition compensate_humidity (adc_h : Z) : Bme Z :=
  let* s := get in let dig := calibration s in
  let* value := i32 (t_fine s - 76800) in
  let* a := i32 (Z.shiftl adc_h 14) in
  let* b := i32 (dig dig_h4 * 1048576) in let* a := i32 (a - b) in
  let* b := i32 (dig dig_h5 * value) in let* a := i32 (a - b) in
  let* a := i32 (a + 16384) in
  let* b := i32 (value * dig dig_h6) in
  let* c := i32 (value * dig dig_h3) in let* c := i32 (Z.shiftr c 11 + 32768) in
  let* b := i32 (Z.shiftr b 10 * c) in
  let* b := i32 (Z.shiftr b 10 + 2097152) in
  let* b := i32 (b * dig dig_h2) in let* b := i32 (b + 8192) in
  let* value := i32 (Z.shiftr a 15 * Z.shiftr b 14) in
  let* a := i32 (Z.shiftr value 15 * Z.shiftr value 15) in
  let* a := i32 (Z.shiftr a 7 * dig dig_h1) in
  let* value := i32 (value - Z.shiftr a 4) in
  let value := if value <? 0 then 0 else value in
  let value := if 419430400 <? value then 419430400 else value in
  ret (u32 (u32 (Z.shiftr value 12) * 100) / 1024).

(** * bme280_init *)
(** the loop over candidate_addresses: whether a sensor answered *)
Fixpoint find_loop (candidates : list Z) : Bme bool :=
  match candidates with
  | [] => ret false
  | a :: candidates =>
      modify (set_address a);;
      let* r := bme280_read_reg BME280_REG_ID in
      if ((r.1 =? 0) && (r.2 =? BME280_CHIP_ID))%bool then ret true else find_loop candidates
  end.
Definition bme280_init : Bme Z :=
  modify (set_initialized false);;
  let* found := find_loop [118; 119] in
  if negb found then ret (-1)
  else
    writing (bme280_write_reg BME280_REG_RESET BME280_SOFT_RESET) (-2) (
    mdelay 5;;
    let* result := wait_status_clear BME280_STATUS_IM_UPDATE BME280_STATUS_TIMEOUT_MS in
    if result =? -1 then ret (-3)
    else if result =? -2 then ret (-4)
    else
      let* r := read_calibration in
      if negb (r =? 0) then ret (-5)
      else
        writing (bme280_write_reg BME280_REG_CTRL_HUM 1) (-6) (
        writing (bme280_write_reg BME280_REG_CONFIG 0) (-6) (
        writing (bme280_write_reg BME280_REG_CTRL_MEAS 36) (-6) (
        modify (set_initialized true);; ret 0)))).

(** * bme280_read *)
(** for (i = 0; i < sizeof(raw); i++); None: an access failed *)
Fixpoint raw_loop (n : nat) (i : Z) (raw : list Z) : Bme (option (list Z)) :=
  match n with
  | O => ret (Some raw)
  | S n => reading (bme280_read_reg (u8 (BME280_REG_PRESS_MSB + i))) None (fun v => raw_loop n (i + 1) (raw ++ [v]))
  end.
Definition raw_at (raw : list Z) (i : nat) : Z := default 0 (raw !! i).
Definition adc_20 (raw : list Z) (i : nat) : Z :=
  Z.lor (Z.lor (Z.shiftl (raw_at raw i) 12) (Z.shiftl (raw_at raw (i + 1)) 4)) (Z.shiftr (raw_at raw (i + 2)) 4).
Definition adc_16 (raw : list Z) (i : nat) : Z := Z.lor (Z.shiftl (raw_at raw i) 8) (raw_at raw (i + 1)).
(** the placeholders of a measurement that was skipped *)
Definition valid (adc : Z * Z * Z) : bool :=
  negb (adc.1.1 =? 524288) && negb (adc.1.2 =? 524288) && negb (adc.2 =? 32768).
(** the attempts: an error, or the last values of adc_p, adc_t and adc_h *)
Fixpoint attempt_loop (n : nat) (adc : Z * Z * Z) : Bme (Z + Z * Z * Z) :=
  match n with
  | O => ret (inr adc)
  | S n =>
      writing (bme280_write_reg BME280_REG_CTRL_MEAS 37) (inl (-2)) (
      mdelay 2;;
      let* result := wait_status_clear BME280_STATUS_MEASURING BME280_STATUS_TIMEOUT_MS in
      if result =? -1 then ret (inl (-3))
      else if result =? -2 then ret (inl (-6))
      else
        let* r := raw_loop 8 0 [] in
        match r with
        | None => ret (inl (-4))
        | Some raw =>
            let adc := (adc_20 raw 0, adc_20 raw 3, adc_16 raw 6) in
            if valid adc then ret (inr adc) else mdelay 2;; attempt_loop n adc
        end)
  end.
(** the result and *sample; [sample] says that the pointer is not NULL *)
Definition bme280_read (sample : bool) : Bme (Z * option bme280_sample) :=
  let* s := get in
  if (negb (initialized s) || negb sample)%bool then ret (-1, None)
  else
    let* r := attempt_loop BME280_SAMPLE_RETRIES (0, 0, 0) in
    match r with
    | inl e => ret (e, None)
    | inr adc =>
        if negb (valid adc) then ret (-5, None)
        else
          let* t := compensate_temperature adc.1.2 in
          let* p := compensate_pressure adc.1.1 in
          let* h := compensate_humidity adc.2 in
          ret (0, Some {| temperature_centi_c := t; pressure_pa := p; humidity_centi_pct := h |})
    end.
Definition bme280_get_address : Bme Z := gets bme280_address.
End driver.
