(* ===== verification/Bme280Spec.v ===== *)
(** The BME280 driver is correct: the compensation of the temperature stays
    inside int32_t and close to the exact formula, the humidity is at most
    100 %, and over a working bus the calibration data are those of the
    sensor. *)
From S2P Require Import Prelude KService Mem Heap KString KPrintf KPrintfSpec Console Bme280.

Lemma i32_run {S} x (s : S) : -2147483648 <= x < 2147483648 -> i32 x s = Ok (x, s).
Proof. intros H. unfold i32. rewrite (proj2 (Z.leb_le _ _)), (proj2 (Z.ltb_lt _ _)) by lia. done. Qed.
(** the quotient and the remainder of a division by a constant *)
Lemma div_step a b : 0 < b -> exists r, a = b * (a / b) + r /\ 0 <= r < b.
Proof. intros H. exists (a mod b). split; [apply Z.div_mod; lia|by apply Z.mod_pos_bound]. Qed.
Lemma mul_bound a b A C : - A <= a <= A -> - C <= b <= C -> - (A * C) <= a * b <= A * C.
Proof. intros. nia. Qed.

(** * Temperature *)
Section temperature.
Context (adc t1 t2 t3 : Z).
(** sixteen times the difference to T1; the calibration of a real sensor *)
Let x := adc - 16 * t1.
Context (Hx : -524288 <= x <= 524288) (H1 : 0 <= t1 < 65536) (H2 : -32767 <= t2 <= 32767) (H3 : -8191 <= t3 <= 8191).
Let d := adc / 8 - 2 * t1.
Let e := adc / 16 - t1.
Let var1 := d * t2 / 2048.
Let var2 := e * e / 4096 * t3 / 16384.

Lemma temperature_d : -65536 <= d <= 65536 /\ 0 <= x - 8 * d < 8.
Proof using All. unfold d, x in *. pose proof (div_step adc 8 ltac:(lia)) as (r & ? & ?). lia. Qed.
Lemma temperature_e : -32768 <= e <= 32768 /\ 0 <= x - 16 * e < 16.
Proof using All. unfold e, x in *. pose proof (div_step adc 16 ltac:(lia)) as (r & ? & ?). lia. Qed.
Lemma temperature_var1 :
  -2147483648 <= d * t2 < 2147483648 /\ -1048576 <= var1 <= 1048576 /\ - 245745 <= var1 * 16384 - x * t2 <= 245745.
Proof using All.
  destruct temperature_d as [Hd Hr]. pose proof (mul_bound d t2 65536 32767 Hd H2).
  pose proof (mul_bound (x - 8 * d) t2 7 32767 ltac:(lia) H2).
  pose proof (div_step (d * t2) 2048 ltac:(lia)) as (r & E & ?). fold var1 in E. lia.
Qed.
Lemma temperature_var2 :
  0 <= e * e <= 1073741824 /\ -2147483648 <= e * e / 4096 * t3 < 2147483648 /\ -131072 <= var2 <= 131072 /\
  - 154700000000 <= var2 * 17179869184 - x * x * t3 <= 154700000000.
Proof using All.
  destruct temperature_e as [He Hr]. pose proof (mul_bound e e 32768 32768 He He). pose proof (Z.square_nonneg e).
  pose proof (div_step (e * e) 4096 ltac:(lia)) as (r3 & E3 & Hr3). unfold var2. clear var2.
  set (g := e * e / 4096) in *.
  pose proof (mul_bound g t3 262144 8191 ltac:(lia) H3).
  pose proof (div_step (g * t3) 16384 ltac:(lia)) as (r2 & E2 & Hr2).
  set (v2 := g * t3 / 16384) in *. set (eps := x - 16 * e) in *.
  assert (He16 : 16 * e = x - eps) by (subst eps; lia).
  pose proof (mul_bound x eps 524288 15 Hx ltac:(lia)) as Bx. pose proof (mul_bound eps eps 15 15 ltac:(lia) ltac:(lia)) as Be.
  pose proof (Z.square_nonneg eps).
  pose proof (mul_bound (2 * (x * eps) - eps * eps) t3 15728865 8191 ltac:(lia) H3) as B1.
  pose proof (mul_bound r3 t3 4095 8191 ltac:(lia) H3) as B2.
  split; [lia|]. split; [lia|]. split; [lia|].
  assert (Ev : v2 * 17179869184 - x * x * t3 = - ((2 * (x * eps) - eps * eps) * t3) - 256 * (r3 * t3) - 1048576 * r2).
  { replace (v2 * 17179869184) with (1048576 * (g * t3) - 1048576 * r2) by lia.
    replace (1048576 * (g * t3)) with (256 * ((4096 * g) * t3)) by lia.
    replace (4096 * g) with (e * e - r3) by lia.
    replace (256 * ((e * e - r3) * t3)) with ((16 * e) * (16 * e) * t3 - 256 * (r3 * t3)) by ring.
    rewrite He16. ring. }
  rewrite Ev. lia.
Qed.
(** in units of 2^-42 of a hundredth of a degree *)
Lemma temperature_error :
  let r := ((var1 + var2) * 5 + 128) / 256 in
  - 2 ^ 42 <= 2 ^ 42 * r - 5 * (2 ^ 20 * (x * t2) + x * x * t3) <= 2 ^ 42.
Proof using All.
  intros r. destruct temperature_var1 as (_ & _ & B1). destruct temperature_var2 as (_ & _ & _ & B2).
  pose proof (div_step ((var1 + var2) * 5 + 128) 256 ltac:(lia)) as (q & E & Hq). fold r in E.
  change (2 ^ 42) with 4398046511104. change (2 ^ 20) with 1048576. lia.
Qed.
End temperature.

Section compensation.
Context {W : Type}.
Abbreviation Bme := (M (bme280 W)).

(** the temperature in units of 1/5120 of a degree *)
Definition t_fine_of (c : bme280_calibration) (adc : Z) : Z :=
  (adc / 8 - 2 * c dig_t1) * c dig_t2 / 2048 +
  (adc / 16 - c dig_t1) * (adc / 16 - c dig_t1) / 4096 * c dig_t3 / 16384.
Record temperature_data (c : bme280_calibration) (adc : Z) : Prop := {
  td_x : -524288 <= adc - 16 * c dig_t1 <= 524288;
  td_1 : 0 <= c dig_t1 < 65536;
  td_2 : -32767 <= c dig_t2 <= 32767;
  td_3 : -8191 <= c dig_t3 <= 8191;
}.
(** [r] is within a hundredth of a degree of the exact formula of the data
    sheet, ((adc/16384 - T1/1024) T2 + (adc/131072 - T1/8192)^2 T3) / 5120
    degrees; here in units of 2^-42 of a hundredth of a degree *)
Definition temperature_close (c : bme280_calibration) (adc r : Z) : Prop :=
  let x := adc - 16 * c dig_t1 in
  - 2 ^ 42 <= 2 ^ 42 * r - 5 * (2 ^ 20 * (x * c dig_t2) + x * x * c dig_t3) <= 2 ^ 42.
Lemma compensate_temperature_run adc (s : bme280 W) :
  temperature_data (calibration s) adc ->
  exists r, compensate_temperature adc s = Ok (r, set_t_fine (t_fine_of (calibration s) adc) s) /\
    temperature_close (calibration s) adc r.
Proof.
  intros [Hx H1 H2 H3]. unfold temperature_close, t_fine_of. set (t1 := calibration s dig_t1) in *.
  set (t2 := calibration s dig_t2) in *. set (t3 := calibration s dig_t3) in *. set (x := adc - 16 * t1) in *. cbv zeta.
  destruct (temperature_d adc t1 t2 t3 Hx H1 H2 H3) as [Hd _]. destruct (temperature_e adc t1 t2 t3 Hx H1 H2 H3) as [He _].
  destruct (temperature_var1 adc t1 t2 t3 Hx H1 H2 H3) as (B1 & B2 & _).
  destruct (temperature_var2 adc t1 t2 t3 Hx H1 H2 H3) as (B3 & B4 & B5 & _).
  pose proof (temperature_error adc t1 t2 t3 Hx H1 H2 H3) as Herr. cbv zeta in Herr. fold x in Herr.
  eexists. split; [|exact Herr].
  unfold compensate_temperature. erewrite bind_run; [cbv beta zeta|reflexivity]. fold t1 t2 t3.
  rewrite !Z.shiftr_div_pow2, Z.shiftl_mul_pow2 by lia. change (2 ^ 3) with 8. change (2 ^ 4) with 16.
  change (2 ^ 1) with 2. change (2 ^ 11) with 2048. rewrite (Z.mul_comm t1 2).
  clear Herr. assert (Bt : -1179648 <= (adc / 8 - 2 * t1) * t2 / 2048 + (adc / 16 - t1) * (adc / 16 - t1) / 4096 * t3 / 16384 <= 1179648) by lia.
  repeat (erewrite bind_run; [cbv beta|apply i32_run; rewrite ?Z.shiftr_div_pow2 by lia;
    change (2 ^ 11) with 2048; change (2 ^ 12) with 4096; change (2 ^ 14) with 16384; first [assumption|lia]]).
  erewrite bind_run; [cbv beta|reflexivity].
  repeat (erewrite bind_run; [cbv beta|apply i32_run; rewrite ?Z.shiftr_div_pow2 by lia;
    change (2 ^ 11) with 2048; change (2 ^ 12) with 4096; change (2 ^ 14) with 16384; first [assumption|lia]]).
  by rewrite !Z.shiftr_div_pow2 by lia.
Qed.

Lemma shiftr_bound a n lo hi : 0 <= n -> lo * 2 ^ n <= a < (hi + 1) * 2 ^ n -> lo <= Z.shiftr a n <= hi.
Proof.
  intros Hn Ha. rewrite Z.shiftr_div_pow2 by done. pose proof (Z.pow_pos_nonneg 2 n ltac:(lia) Hn). split.
  - apply Z.div_le_lower_bound; lia.
  - enough (a / 2 ^ n < hi + 1) by lia. apply Z.div_lt_upper_bound; lia.
Qed.

(** the ranges of the humidity data of real sensors, between about -36 and
    66 degrees *)
Record humidity_data (c : bme280_calibration) (t : Z) : Prop := {
  hd_t : -262144 <= t - 76800 <= 262144;
  hd_1 : 0 <= c dig_h1 <= 128;
  hd_2 : 0 <= c dig_h2 <= 400;
  hd_3 : 0 <= c dig_h3 <= 15;
  hd_4 : 256 <= c dig_h4 <= 511;
  hd_5 : -127 <= c dig_h5 <= 127;
  hd_6 : -31 <= c dig_h6 <= 31;
}.
Ltac i32_step := erewrite bind_run; [cbv beta|apply i32_run; lia].
Lemma compensate_humidity_run adc (s : bme280 W) :
  humidity_data (calibration s) (t_fine s) -> 0 <= adc < 65536 ->
  exists h, compensate_humidity adc s = Ok (h, s) /\ 0 <= h <= 10000.
Proof.
  intros [Ht H1 H2 H3 H4 H5 H6] Ha. unfold compensate_humidity. erewrite bind_run; [cbv beta zeta|reflexivity].
  set (c := calibration s) in *. set (v := t_fine s - 76800) in *.
  i32_step.
  rewrite Z.shiftl_mul_pow2 by lia. change (2 ^ 14) with 16384.
  pose proof (mul_bound (c dig_h5) v 127 262144 H5 Ht) as B5.
  pose proof (mul_bound v (c dig_h6) 262144 31 Ht H6) as B6.
  pose proof (mul_bound v (c dig_h3) 262144 15 Ht ltac:(lia)) as B3.
  do 6 (i32_step).
  set (a := adc * 16384 - c dig_h4 * 1048576 - c dig_h5 * v + 16384) in *.
  pose proof (shiftr_bound a 15 (-17408) 25600 ltac:(lia) ltac:(lia)) as Ba.
  i32_step. i32_step.
  pose proof (shiftr_bound (v * c dig_h6) 10 (-7936) 7936 ltac:(lia) ltac:(lia)) as Bb.
  pose proof (shiftr_bound (v * c dig_h3) 11 (-1920) 1920 ltac:(lia) ltac:(lia)) as Bc.
  i32_step.
  set (b := Z.shiftr (v * c dig_h6) 10) in *. set (g := Z.shiftr (v * c dig_h3) 11 + 32768) in *.
  pose proof (mul_bound b g 7936 34688 ltac:(lia) ltac:(lia)) as Bp.
  i32_step.
  pose proof (shiftr_bound (b * g) 10 (-268832) 268832 ltac:(lia) ltac:(lia)) as Bq.
  i32_step. set (q := Z.shiftr (b * g) 10 + 2097152) in *.
  assert (Bm : 0 <= q * c dig_h2 <= 2365984 * 400) by nia.
  i32_step. i32_step.
  pose proof (shiftr_bound (q * c dig_h2 + 8192) 14 0 57764 ltac:(lia) ltac:(lia)) as Bn.
  set (n := Z.shiftr (q * c dig_h2 + 8192) 14) in *. set (f := Z.shiftr a 15) in *.
  pose proof (mul_bound f n 25600 57764 ltac:(lia) ltac:(lia)) as Bv.
  i32_step.
  pose proof (shiftr_bound (f * n) 15 (-45129) 45129 ltac:(lia) ltac:(lia)) as Bw. set (w := Z.shiftr (f * n) 15) in *.
  pose proof (mul_bound w w 45129 45129 Bw Bw) as Bs. pose proof (Z.square_nonneg w).
  i32_step.
  pose proof (shiftr_bound (w * w) 7 0 15911146 ltac:(lia) ltac:(lia)) as Bu. set (u := Z.shiftr (w * w) 7) in *.
  assert (Bh : 0 <= u * c dig_h1 <= 15911146 * 128) by nia.
  i32_step.
  pose proof (shiftr_bound (u * c dig_h1) 4 0 127289168 ltac:(lia) ltac:(lia)) as Bk.
  i32_step.
  set (r := f * n - Z.shiftr (u * c dig_h1) 4) in *. cbv zeta. eexists. split; [reflexivity|].
  set (r1 := if r <? 0 then 0 else r). set (r2 := if 419430400 <? r1 then 419430400 else r1).
  assert (Br : 0 <= r2 <= 419430400).
  { assert (Hr1 : 0 <= r1) by (subst r1; destruct (Z.ltb_spec r 0); lia). clearbody r1.
    subst r2. destruct (Z.ltb_spec 419430400 r1); lia. }
  clearbody r2. pose proof (shiftr_bound r2 12 0 102400 ltac:(lia) ltac:(lia)) as Bz. rewrite (u32_small (Z.shiftr r2 12)), u32_small by lia.
  split; [apply Z.div_pos; lia|]. apply Z.div_le_upper_bound; lia.
Qed.

Lemma i64_run {S} x (s : S) : -9223372036854775808 <= x < 9223372036854775808 -> i64 x s = Ok (x, s).
Proof. intros H. unfold i64. rewrite (proj2 (Z.leb_le _ _)), (proj2 (Z.ltb_lt _ _)) by lia. done. Qed.
Ltac i64_step := erewrite bind_run; [cbv beta|apply i64_run; lia].
Lemma quot_bound n v k lo hi : 0 < k <= v -> lo <= 0 <= hi -> k * lo <= n <= k * hi -> lo <= Z.quot n v <= hi.
Proof.
  intros Hk Hb Hn. destruct (Z.le_ge_cases 0 n).
  - rewrite Z.quot_div_nonneg by lia. split; [pose proof (Z.div_pos n v); lia|].
    apply Z.div_le_upper_bound; [lia|]. nia.
  - replace n with (- - n) by lia. rewrite Z.quot_opp_l, Z.quot_div_nonneg by lia.
    enough (- n / v <= - lo /\ 0 <= - n / v) by lia. split; [|apply Z.div_pos; lia].
    apply Z.div_le_upper_bound; [lia|]. nia.
Qed.
(** the ranges of the pressure data of real sensors, between about -77 and
    127 degrees *)
Record pressure_data (c : bme280_calibration) (t : Z) : Prop := {
  pd_t : -524288 <= t - 128000 <= 524288;
  pd_1 : 32768 <= c dig_p1 <= 49152;
  pd_2 : -16384 <= c dig_p2 <= 16384;
  pd_3 : -8192 <= c dig_p3 <= 8192;
  pd_4 : -8192 <= c dig_p4 <= 8192;
  pd_5 : -1024 <= c dig_p5 <= 1024;
  pd_6 : -1024 <= c dig_p6 <= 1024;
  pd_7 : -32768 <= c dig_p7 <= 32767;
  pd_8 : -32768 <= c dig_p8 <= 32767;
  pd_9 : -32768 <= c dig_p9 <= 32767;
}.
Lemma compensate_pressure_run adc (s : bme280 W) :
  pressure_data (calibration s) (t_fine s) -> 0 <= adc < 1048576 ->
  exists p, compensate_pressure adc s = Ok (p, s) /\ 0 <= p < 4294967296.
Proof.
  intros [Ht H1 H2 H3 H4 H5 H6 H7 H8 H9] Ha. unfold compensate_pressure. erewrite bind_run; [cbv beta zeta|reflexivity].
  set (c := calibration s) in *. set (v := t_fine s - 128000) in *. i64_step.
  pose proof (mul_bound v v 524288 524288 Ht Ht) as Bs. pose proof (Z.square_nonneg v). i64_step. set (sq := v * v) in *.
  pose proof (mul_bound sq (c dig_p6) 274877906944 1024 ltac:(lia) H6) as B6. i64_step.
  pose proof (mul_bound v (c dig_p5) 524288 1024 Ht H5) as B5. do 2 i64_step. i64_step.
  change (Z.shiftl 1 35) with 34359738368. change (Z.shiftl 1 47) with 140737488355328. do 2 i64_step.
  set (var2 := sq * c dig_p6 + v * c dig_p5 * 131072 + c dig_p4 * 34359738368) in *.
  assert (Bvar2 : -633318697598976 <= var2 <= 633318697598976) by lia. clearbody var2.
  pose proof (mul_bound sq (c dig_p3) 274877906944 8192 ltac:(lia) H3) as B3. i64_step.
  pose proof (mul_bound v (c dig_p2) 524288 16384 Ht H2) as B2. do 2 i64_step.
  pose proof (shiftr_bound (sq * c dig_p3) 8 (-8796093022208) 8796093022208 ltac:(lia) ltac:(lia)) as Ba. i64_step.
  set (w := Z.shiftr (sq * c dig_p3) 8 + v * c dig_p2 * 4096) in *.
  assert (Bw : -43980465111040 <= w <= 43980465111040) by lia. clearbody w. i64_step.
  assert (Bp : 96757023244288 * 32768 <= (140737488355328 + w) * c dig_p1 <= 184717953466368 * 49152) by nia. i64_step.
  pose proof (shiftr_bound ((140737488355328 + w) * c dig_p1) 33 369098752 1056964608 ltac:(lia) ltac:(lia)) as Bv.
  set (var1 := Z.shiftr ((140737488355328 + w) * c dig_p1) 33) in *. clearbody var1.
  rewrite (proj2 (Z.eqb_neq var1 0)) by lia.
  erewrite bind_run; [cbv beta|apply i32_run; lia]. rewrite Z.shiftl_mul_pow2 by lia. change (2 ^ 31) with 2147483648.
  do 3 i64_step. set (n := ((1048576 - adc) * 2147483648 - var2) * 3125) in *.
  assert (Bn : -1979120929996800000 <= n <= 9016120931996800000) by lia. clearbody n.
  assert (Bq : -5362036364 <= Z.quot n var1 <= 24427394998).
  { apply quot_bound with (k := 369098752); lia. }
  i64_step. set (p := Z.quot n var1) in *. clearbody p.
  pose proof (shiftr_bound p 13 (-654546) 2981860 ltac:(lia) ltac:(lia)) as Bp13. set (p13 := Z.shiftr p 13) in *.
  pose proof (mul_bound (c dig_p9) p13 32768 2981860 ltac:(lia) ltac:(lia)) as B9. i64_step.
  pose proof (mul_bound (c dig_p9 * p13) p13 (32768 * 2981860) 2981860 ltac:(lia) ltac:(lia)) as B99. i64_step.
  pose proof (mul_bound (c dig_p8) p 32768 24427394998 ltac:(lia) ltac:(lia)) as B8. i64_step.
  pose proof (shiftr_bound (c dig_p9 * p13 * p13) 25 (-8683236000) 8683236000 ltac:(lia) ltac:(lia)) as Bx.
  pose proof (shiftr_bound (c dig_p8 * p) 19 (-1526712200) 1526712200 ltac:(lia) ltac:(lia)) as By.
  do 2 i64_step. i64_step.
  set (z := p + Z.shiftr (c dig_p9 * p13 * p13) 25 + Z.shiftr (c dig_p8 * p) 19) in *.
  pose proof (shiftr_bound z 8 (-200000000) 200000000 ltac:(lia) ltac:(lia)) as Bz. i64_step.
  eexists. split; [reflexivity|]. apply u32_range.
Qed.
End compensation.

(** * The bus and the sensor *)
(** [k] polls of the control register that do not find the done bit, then one
    that does, with the status [st] *)
Inductive waits {W} `{Bus W} : nat -> Z -> W -> W -> Prop :=
  | waits_done st w w' : bus_load I2C_CTRL_REG w = (st, w') -> Z.testbit st 1 = true -> waits 0 st w w'
  | waits_busy k st v w w1 w2 : bus_load I2C_CTRL_REG w = (v, w1) -> Z.testbit v 1 = false ->
      waits k st w1 w2 -> waits (S k) st w w2.
(** done, not busy and acknowledged *)
Definition good_status (st : Z) : Prop := Z.testbit st 0 = false /\ Z.testbit st 2 = false.
(** the registers of the sensor that never change: identification and
    calibration *)
Definition constant_reg (r : Z) : Prop := 136 <= r <= 161 \/ r = 208 \/ 225 <= r <= 231.

(** a BME280 on the I2C controller: register accesses are completed before the
    time limit; reading changes nothing; after a write the status bits are
    clear within 50 ms *)
Class Sensor (W : Type) (mdelay : Z -> W -> W) `{Bus W} := {
  regs : W -> Z -> Z;
  sensor_address : W -> Z;
  pending : W -> Z;
  regs_byte : forall w r, 0 <= regs w r < 256;
  chip_id : forall w, regs w BME280_REG_ID = BME280_CHIP_ID;
  idle_status : forall w, pending w <= 0 -> Z.land (regs w BME280_REG_STATUS) 9 = 0;
  read_access : forall w r, 0 <= r < 256 ->
    exists k st w1, (k < BME280_TIMEOUT_LOOPS)%nat /\ good_status st /\
      waits k st (bus_store I2C_CTRL_REG 3 (bus_store I2C_REG_ADDR_REG r (bus_store I2C_DEV_ADDR_REG (sensor_address w) w))) w1 /\
      let (v, w2) := bus_load I2C_DATA_REG w1 in u8 v = regs w r /\
        (forall x, regs w2 x = regs w x) /\ sensor_address w2 = sensor_address w /\ pending w2 = pending w;
  no_answer : forall w a r, a <> sensor_address w -> 0 <= r < 256 ->
    exists k st w1, (k < BME280_TIMEOUT_LOOPS)%nat /\ Z.testbit st 2 = true /\
      waits k st (bus_store I2C_CTRL_REG 3 (bus_store I2C_REG_ADDR_REG r (bus_store I2C_DEV_ADDR_REG a w))) w1 /\
      (forall x, regs w1 x = regs w x) /\ sensor_address w1 = sensor_address w /\ pending w1 = pending w;
  write_access : forall w r v, 0 <= r < 256 -> 0 <= v < 256 ->
    exists k st w1, (k < BME280_TIMEOUT_LOOPS)%nat /\ good_status st /\
      waits k st (bus_store I2C_CTRL_REG 1 (bus_store I2C_DATA_REG v (bus_store I2C_REG_ADDR_REG r
        (bus_store I2C_DEV_ADDR_REG (sensor_address w) w)))) w1 /\
      (forall x, constant_reg x -> regs w1 x = regs w x) /\ sensor_address w1 = sensor_address w /\ pending w1 <= 50;
  delay_regs : forall ms w x, constant_reg x -> regs (mdelay ms w) x = regs w x;
  delay_address : forall ms w, sensor_address (mdelay ms w) = sensor_address w;
  delay_pending : forall ms w, pending (mdelay ms w) <= pending w - ms \/ pending (mdelay ms w) <= 0;
}.

Section driver_spec.
Context {W : Type} (rt_thread_mdelay : Z -> W -> W) `{SW : Sensor W rt_thread_mdelay}.
Abbreviation Bme := (M (bme280 W)).
Abbreviation dregs s := (regs (devices s)).

(** the driver talks to the sensor *)
Definition addressed (s : bme280 W) : Prop := bme280_address s = sensor_address (devices s).
(** the same driver and calibration; after reads the registers are the same,
    after other accesses the constant ones *)
Record after_reads (s s' : bme280 W) : Prop := {
  ar_driver : s' = set_devices (devices s') s;
  ar_address : sensor_address (devices s') = sensor_address (devices s);
  ar_regs : forall x, dregs s' x = dregs s x;
  ar_pending : pending (devices s') = pending (devices s);
}.
Record after_access (s s' : bme280 W) : Prop := {
  aa_driver : s' = set_devices (devices s') s;
  aa_address : sensor_address (devices s') = sensor_address (devices s);
  aa_regs : forall x, constant_reg x -> dregs s' x = dregs s x;
}.
Lemma after_reads_trans s1 s2 s3 : after_reads s1 s2 -> after_reads s2 s3 -> after_reads s1 s3.
Proof. intros [D1 A1 R1 P1] [D2 A2 R2 P2]. split; [by rewrite D2, D1|congruence|congruence|congruence]. Qed.
Lemma after_reads_refl s : after_reads s s.
Proof. split; [by destruct s|done..]. Qed.
Lemma reads_access s s' : after_reads s s' -> after_access s s'.
Proof. intros [D A R _]. split; auto. Qed.
Lemma after_access_trans s1 s2 s3 : after_access s1 s2 -> after_access s2 s3 -> after_access s1 s3.
Proof.
  intros [D1 A1 R1] [D2 A2 R2]. split; [by rewrite D2, D1|congruence|]. intros x Hx. rewrite R2, R1 by done. done.
Qed.
Lemma access_addressed s s' : after_access s s' -> addressed s -> addressed s'.
Proof. unfold addressed. intros [D A _] E. rewrite A, D. exact E. Qed.

Lemma reg_load_run a s v w : bus_load a (devices s) = (v, w) -> reg_load a s = Ok (v, set_devices w s).
Proof. intros E. unfold reg_load. by rewrite E. Qed.
Lemma wait_loop_run n want k st w w' (s : bme280 W) :
  waits k st w w' -> (k < n)%nat -> good_status st -> devices s = w ->
  wait_loop n want s = (if want then let* d := reg_load I2C_DATA_REG in ret (0, u8 d) else ret (0, 0)) (set_devices w' s).
Proof.
  intros Hw. revert n s. induction Hw as [st w w' E Hd|k st v w w1 w2 E Hd Hw IH]; intros n s Hn [G0 G2] Es.
  - destruct n as [|n]; [lia|]. cbn [wait_loop]. erewrite bind_run; [cbv beta|apply reg_load_run; by rewrite Es].
    by rewrite Hd, G0, G2.
  - destruct n as [|n]; [lia|]. cbn [wait_loop]. erewrite bind_run; [cbv beta|apply reg_load_run; by rewrite Es].
    rewrite Hd. rewrite (IH n (set_devices w1 s)) by (done || lia). done.
Qed.
Lemma wait_loop_nack n want k st w w' (s : bme280 W) :
  waits k st w w' -> (k < n)%nat -> Z.testbit st 2 = true -> devices s = w ->
  wait_loop n want s = Ok ((-1, 0), set_devices w' s).
Proof.
  intros Hw. revert n s. induction Hw as [st w w' E Hd|k st v w w1 w2 E Hd Hw IH]; intros n s Hn G2 Es.
  - destruct n as [|n]; [lia|]. cbn [wait_loop]. erewrite bind_run; [cbv beta|apply reg_load_run; by rewrite Es].
    by rewrite Hd, G2, orb_true_r.
  - destruct n as [|n]; [lia|]. cbn [wait_loop]. erewrite bind_run; [cbv beta|apply reg_load_run; by rewrite Es].
    rewrite Hd. rewrite (IH n (set_devices w1 s)) by (done || lia). done.
Qed.
Lemma read_reg_run r s : addressed s -> 0 <= r < 256 ->
  exists s', bme280_read_reg r s = Ok ((0, dregs s r), s') /\ after_reads s s'.
Proof.
  intros Ha Hr. destruct (read_access (devices s) r Hr) as (k & st & w1 & Hk & Hg & Hw & Hd).
  destruct (bus_load I2C_DATA_REG w1) as [v w2] eqn:E. destruct Hd as (Hv & H1 & H2 & H3).
  unfold bme280_read_reg. do 4 (erewrite bind_run; [cbv beta|reflexivity]). rewrite Ha. unfold i2c_wait_done.
  erewrite (wait_loop_run _ true k st _ w1); [|exact Hw|done|done|reflexivity].
  erewrite bind_run; [cbv beta|apply reg_load_run; exact E]. eexists. rewrite Hv. split; [reflexivity|].
  split; cbn [devices set_devices]; done.
Qed.
Lemma write_reg_run r v s : addressed s -> 0 <= r < 256 -> 0 <= v < 256 ->
  exists s', bme280_write_reg r v s = Ok (0, s') /\ after_access s s' /\ pending (devices s') <= 50.
Proof.
  intros Ha Hr Hv. destruct (write_access (devices s) r v Hr Hv) as (k & st & w1 & Hk & Hg & Hw & H1 & H2 & H3).
  unfold bme280_write_reg. do 5 (erewrite bind_run; [cbv beta|reflexivity]). rewrite Ha. unfold i2c_wait_done.
  erewrite bind_run; [cbv beta|erewrite (wait_loop_run _ false k st _ w1); [reflexivity|exact Hw|done|done|reflexivity]].
  eexists. split; [reflexivity|]. split; [split; cbn [devices set_devices]; done|done].
Qed.
Lemma reading_run {A} r (code : A) k s : addressed s -> 0 <= r < 256 ->
  exists s', reading (bme280_read_reg r) code k s = k (dregs s r) s' /\ after_reads s s'.
Proof.
  intros Ha Hr. destruct (read_reg_run r s Ha Hr) as (s' & E & H). exists s'. split; [|done].
  unfold reading. by erewrite bind_run; [|exact E].
Qed.
Lemma reads_addressed s s' : after_reads s s' -> addressed s -> addressed s'.
Proof. intros H. by apply access_addressed, reads_access. Qed.

(** a shifted number and one below it do not overlap *)
Lemma lor_shift a b n : 0 <= n -> 0 <= b < 2 ^ n -> Z.lor (Z.shiftl a n) b = a * 2 ^ n + b.
Proof.
  intros Hn Hb. rewrite <- Z.add_nocarry_lor, Z.shiftl_mul_pow2; [done|done|].
  apply Z.bits_inj'. intros i Hi. rewrite Z.land_spec, Z.shiftl_spec, Z.bits_0 by done.
  destruct (decide (i < n)); [by rewrite (Z.testbit_neg_r _ (i - n)) by lia|].
  rewrite (lt_bits n b i) by lia. apply andb_false_r.
Qed.
(** little-endian words *)
Definition le16 (g : Z -> Z) (r : Z) : Z := g r + 256 * g (r + 1).
Lemma read_u16_run r s : addressed s -> 0 <= r < 255 ->
  exists s', read_u16_le r s = Ok ((0, le16 (dregs s) r), s') /\ after_reads s s'.
Proof.
  intros Ha Hr. unfold read_u16_le. destruct (reading_run r (-1, 0) (fun low =>
    reading (bme280_read_reg (u8 (r + 1))) (-1, 0) (fun high => ret (0, u16 (Z.lor (Z.shiftl high 8) low)))) s Ha) as (s1 & -> & H1); [lia|].
  rewrite u8_small by lia.
  destruct (reading_run (r + 1) (-1, 0) (fun high => ret (0, u16 (Z.lor (Z.shiftl high 8) (dregs s r)))) s1)
    as (s2 & -> & H2); [by eapply reads_addressed|lia|].
  exists s2. split; [|by eapply after_reads_trans]. rewrite (ar_regs _ _ H1).
  pose proof (regs_byte (devices s) r) as B0. pose proof (regs_byte (devices s) (r + 1)) as B1.
  unfold ret, le16. do 3 f_equal. rewrite lor_shift by (change (2 ^ 8) with 256; lia).
  change (2 ^ 8) with 256. rewrite u16_small; lia.
Qed.

(** ** Calibration *)
(** the state in which the fields [l] have been read, and the bus is as
    before *)
Definition fill_digs (l : list (dig * Z)) (c : bme280_calibration) : bme280_calibration :=
  fold_left (fun c p d => if decide (d = p.1) then p.2 else c d) l c.
Definition calibrating (s : bme280 W) (l : list (dig * Z)) (s' : bme280 W) : Prop :=
  after_reads {| calibration := fill_digs l (calibration s); bme280_address := bme280_address s; t_fine := t_fine s;
    initialized := initialized s; devices := devices s |} s'.
Lemma calibrating_addressed s l s' : calibrating s l s' -> addressed s -> addressed s'.
Proof. intros H Ha. eapply reads_addressed; [exact H|]. exact Ha. Qed.
Lemma calibrating_regs s l s' x : calibrating s l s' -> dregs s' x = dregs s x.
Proof. intros H. apply (ar_regs _ _ H). Qed.
Lemma calibrating_reads s l s1 s2 : calibrating s l s1 -> after_reads s1 s2 -> calibrating s l s2.
Proof. apply after_reads_trans. Qed.
Lemma calibrating_set s l s1 d v : calibrating s l s1 -> calibrating s (l ++ [(d, v)]) (set_dig d v s1).
Proof.
  intros [D A R P]. split; [|done..]. cbn [devices] in *. rewrite D. unfold fill_digs. by rewrite fold_left_app.
Qed.
Lemma read_unsigned_run s l s1 r d k : addressed s -> calibrating s l s1 -> 0 <= r < 255 ->
  exists s2, read_unsigned r d k s1 = k s2 /\ calibrating s (l ++ [(d, le16 (dregs s) r)]) s2.
Proof.
  intros Ha Hc Hr. destruct (read_u16_run r s1) as (s2 & E & H2); [by eapply calibrating_addressed|lia|].
  exists (set_dig d (le16 (dregs s) r) s2). split; [|by eapply calibrating_set, calibrating_reads].
  unfold read_unsigned, reading. erewrite bind_run; [cbv beta|exact E]. cbn [fst snd Z.eqb negb].
  erewrite bind_run; [reflexivity|]. unfold modify, le16. by rewrite !(calibrating_regs _ _ _ _ Hc).
Qed.
Lemma read_signed_run s l s1 r d k : addressed s -> calibrating s l s1 -> 0 <= r < 255 ->
  exists s2, read_signed r d k s1 = k s2 /\ calibrating s (l ++ [(d, s16 (le16 (dregs s) r))]) s2.
Proof.
  intros Ha Hc Hr. destruct (read_u16_run r s1) as (s2 & E & H2); [by eapply calibrating_addressed|lia|].
  exists (set_dig d (s16 (le16 (dregs s) r)) s2). split; [|by eapply calibrating_set, calibrating_reads].
  unfold read_signed, reading. erewrite bind_run; [cbv beta|exact E]. cbn [fst snd Z.eqb negb].
  erewrite bind_run; [reflexivity|]. unfold modify, le16. by rewrite !(calibrating_regs _ _ _ _ Hc).
Qed.
Lemma read_byte_run {A} s l s1 r (code : A) k : addressed s -> calibrating s l s1 -> 0 <= r < 256 ->
  exists s2, reading (bme280_read_reg r) code k s1 = k (dregs s r) s2 /\ calibrating s l s2.
Proof.
  intros Ha Hc Hr. destruct (reading_run r code k s1) as (s2 & E & H2); [by eapply calibrating_addressed|lia|].
  exists s2. split; [by rewrite E, (calibrating_regs _ _ _ _ Hc)|by eapply calibrating_reads].
Qed.

(** a number of 12 bits in two's complement *)
Definition int12 (x : Z) : Z := if x <? 2048 then x else x - 4096.
(** what the registers [g] mean *)
Definition dig_of (g : Z -> Z) (d : dig) : Z :=
  match d with
  | dig_t1 => le16 g 136 | dig_t2 => s16 (le16 g 138) | dig_t3 => s16 (le16 g 140)
  | dig_p1 => le16 g 142 | dig_p2 => s16 (le16 g 144) | dig_p3 => s16 (le16 g 146)
  | dig_p4 => s16 (le16 g 148) | dig_p5 => s16 (le16 g 150) | dig_p6 => s16 (le16 g 152)
  | dig_p7 => s16 (le16 g 154) | dig_p8 => s16 (le16 g 156) | dig_p9 => s16 (le16 g 158)
  | dig_h1 => g 161 | dig_h2 => s16 (le16 g 225) | dig_h3 => g 227
  | dig_h4 => int12 (16 * g 228 + g 229 mod 16) | dig_h5 => int12 (16 * g 230 + g 229 / 16) | dig_h6 => s8 (g 231)
  end.
Lemma sign_extend_spec v : 0 <= v < 4096 -> sign_extend_12 v = int12 v.
Proof.
  intros Hv. assert (H : forallb (fun v => sign_extend_12 v =? int12 v) (seqZ 0 4096) = true) by (vm_compute; reflexivity).
  rewrite forallb_forall in H. apply Z.eqb_eq, H, list_elem_of_In, elem_of_seqZ. lia.
Qed.

(** what read_calibration stores, in its order *)
Definition digs_read (g : Z -> Z) : list (dig * Z) :=
  [(dig_t1, le16 g 136); (dig_t2, s16 (le16 g 138)); (dig_t3, s16 (le16 g 140)); (dig_p1, le16 g 142);
   (dig_p2, s16 (le16 g 144)); (dig_p3, s16 (le16 g 146)); (dig_p4, s16 (le16 g 148)); (dig_p5, s16 (le16 g 150));
   (dig_p6, s16 (le16 g 152)); (dig_p7, s16 (le16 g 154)); (dig_p8, s16 (le16 g 156)); (dig_p9, s16 (le16 g 158));
   (dig_h1, g 161); (dig_h2, s16 (le16 g 225)); (dig_h3, g 227);
   (dig_h4, sign_extend_12 (u16 (Z.lor (Z.shiftl (g 228) 4) (Z.land (g 229) 15))));
   (dig_h5, sign_extend_12 (u16 (Z.lor (Z.shiftl (g 230) 4) (Z.shiftr (g 229) 4)))); (dig_h6, s8 (g 231))].
Lemma fill_digs_read g c d : (forall x, 0 <= g x < 256) -> fill_digs (digs_read g) c d = dig_of g d.
Proof.
  intros Hg. pose proof (Z.mod_pos_bound (g 229) 16 ltac:(lia)). pose proof (div_step (g 229) 16 ltac:(lia)) as (? & ? & ?).
  pose proof (Hg 228). pose proof (Hg 229). pose proof (Hg 230).
  assert (E1 : Z.land (g 229) 15 = g 229 mod 16) by apply (Z.land_ones _ 4 ltac:(lia)).
  assert (E2 : Z.shiftr (g 229) 4 = g 229 / 16) by (by rewrite Z.shiftr_div_pow2).
  destruct d; try reflexivity; unfold fill_digs, digs_read; cbn [fold_left fst snd dig_of];
    repeat (rewrite decide_False by done); rewrite decide_True by done; rewrite ?E1, ?E2.
  all: change (2 ^ 4) with 16 in *; rewrite lor_shift by (change (2 ^ 4) with 16; lia); change (2 ^ 4) with 16.
  all: rewrite u16_small by lia; rewrite sign_extend_spec by lia; f_equal; lia.
Qed.
(** the calibration data are those of the sensor *)
Definition calibrated (s : bme280 W) : Prop := forall d, calibration s d = dig_of (dregs s) d.
Lemma read_calibration_run s : addressed s ->
  exists s', read_calibration s = Ok (0, s') /\ calibrated s' /\ addressed s' /\
    (forall x, dregs s' x = dregs s x) /\ initialized s' = initialized s.
Proof.
  intros Ha. assert (Hs0 : calibrating s [] s) by (split; [by destruct s|done..]). unfold read_calibration.
  repeat (match goal with
    | Hc : calibrating s ?l ?s1 |- context [read_unsigned ?r ?d ?k ?s1] =>
        destruct (read_unsigned_run s l s1 r d k Ha Hc) as (? & -> & ?); [unfold BME280_REG_CALIB00, BME280_REG_CALIB26; lia|clear Hc; try clear s1]
    | Hc : calibrating s ?l ?s1 |- context [read_signed ?r ?d ?k ?s1] =>
        destruct (read_signed_run s l s1 r d k Ha Hc) as (? & -> & ?); [unfold BME280_REG_CALIB00, BME280_REG_CALIB26; lia|clear Hc; try clear s1]
    | Hc : calibrating s ?l ?s1 |- context [reading (bme280_read_reg ?r) ?c ?k ?s1] =>
        destruct (read_byte_run s l s1 r c k Ha Hc) as (? & -> & ?); [lia|clear Hc; try clear s1; cbv beta]
    | Hc : calibrating s ?l ?s1 |- context [bind (modify (set_dig ?d ?v)) ?k ?s1] =>
        rewrite (bind_run (modify (set_dig d v)) k s1 tt (set_dig d v s1) eq_refl); cbv beta;
        apply (calibrating_set s l s1 d v) in Hc; generalize dependent (set_dig d v s1); clear s1; intros
    end; cbn [app] in *).
  eexists. split; [reflexivity|]. match goal with Hc : calibrating _ _ ?b |- _ => rename Hc into Hcal end.
  split_and!; [|exact (calibrating_addressed _ _ _ Hcal Ha)|intros x; exact (calibrating_regs _ _ _ x Hcal)|].
  - intros d. trans (dig_of (dregs s) d).
    { rewrite (ar_driver _ _ Hcal). exact (fill_digs_read (dregs s) (calibration s) d (regs_byte _)). }
    assert (Er : forall x, dregs b x = dregs s x) by (intros; exact (calibrating_regs _ _ _ _ Hcal)).
    destruct d; cbn [dig_of]; unfold le16; by rewrite !Er.
  - by rewrite (ar_driver _ _ Hcal).
Qed.

(** ** Waiting and initialisation *)
Lemma access_delay ms s : after_access s (set_devices (rt_thread_mdelay ms (devices s)) s).
Proof. split; [done|exact (delay_address ms (devices s))|]. intros x Hx. exact (delay_regs ms (devices s) x Hx). Qed.
Lemma status_loop_run mask n : forall s,
  addressed s -> Z.land 9 mask = mask -> pending (devices s) < Z.of_nat n ->
  (0 < n)%nat -> exists s', status_loop rt_thread_mdelay mask n s = Ok (0, s') /\ after_access s s' /\
    Z.land (dregs s' BME280_REG_STATUS) mask = 0.
Proof.
  induction n as [|n IH]; intros s Ha Hm Hp Hn; [lia|]. cbn [status_loop].
  destruct (reading_run BME280_REG_STATUS (-1) (fun status =>
    if Z.land status mask =? 0 then ret 0 else mdelay rt_thread_mdelay 1;; status_loop rt_thread_mdelay mask n) s Ha)
    as (s1 & -> & H1); [unfold BME280_REG_STATUS; lia|].
  destruct (Z.eqb_spec (Z.land (dregs s BME280_REG_STATUS) mask) 0) as [E|E].
  - exists s1. split_and!; [done|by apply reads_access|]. by rewrite (ar_regs _ _ H1).
  - assert (0 < pending (devices s)).
    { apply Z.nle_gt. intros Hle. apply E. rewrite <- Hm, Z.land_assoc, idle_status by done. done. }
    erewrite bind_run; [cbv beta|reflexivity].
    pose proof (ar_pending _ _ H1) as Ep. pose proof (delay_pending 1 (devices s1)) as Hd.
    pose proof (access_delay 1 s1) as H2.
    destruct (IH (set_devices (rt_thread_mdelay 1 (devices s1)) s1)) as (s' & E' & H3 & H4).
    { eapply access_addressed; [exact H2|]. by eapply reads_addressed. }
    { done. }
    { cbn [devices set_devices]. lia. }
    { lia. }
    exists s'. split_and!; [exact E'| |exact H4].
    eapply after_access_trans; [by apply reads_access|]. by eapply after_access_trans.
Qed.

(** the constant registers give the calibration *)
Lemma dig_of_ext g g' d : (forall x, constant_reg x -> g' x = g x) -> dig_of g' d = dig_of g d.
Proof.
  intros H. destruct d; cbn [dig_of]; unfold le16; rewrite !H; try done; unfold constant_reg; lia.
Qed.
Lemma access_calibrated s s' : after_access s s' -> calibrated s -> calibrated s'.
Proof.
  intros [D A R] Hc d. rewrite (dig_of_ext (dregs s)) by done. rewrite D. apply Hc.
Qed.

Lemma find_run s : sensor_address (devices s) = 118 \/ sensor_address (devices s) = 119 ->
  exists s', find_loop [118; 119] s = Ok (true, s') /\ addressed s' /\ (forall x, constant_reg x -> dregs s' x = dregs s x).
Proof.
  intros Hs. cbn [find_loop]. erewrite bind_run; [cbv beta|reflexivity].
  destruct (decide (sensor_address (devices s) = 118)) as [E|E].
  - destruct (read_reg_run BME280_REG_ID (set_address 118 s)) as (s1 & E1 & H1); [done|unfold BME280_REG_ID; lia|].
    erewrite bind_run; [cbv beta|exact E1]. cbn [fst snd devices set_address]. rewrite chip_id.
    exists s1. split_and!; [done|by eapply reads_addressed|]. intros x _. apply (ar_regs _ _ H1).
  - destruct (no_answer (devices s) 118 BME280_REG_ID) as (k & st & w1 & Hk & Hst & Hw & R1 & R2 & R3); [congruence|unfold BME280_REG_ID; lia|].
    assert (E1 : bme280_read_reg BME280_REG_ID (set_address 118 s) = Ok ((-1, 0), set_devices w1 (set_address 118 s))).
    { unfold bme280_read_reg. do 4 (erewrite bind_run; [cbv beta|reflexivity]). unfold i2c_wait_done.
      by erewrite (wait_loop_nack _ true k st _ w1); [|exact Hw|done|done|reflexivity]. }
    erewrite bind_run; [cbv beta|exact E1]. cbn [fst snd Z.eqb andb]. erewrite bind_run; [cbv beta|reflexivity].
    destruct (read_reg_run BME280_REG_ID (set_address 119 (set_devices w1 (set_address 118 s)))) as (s2 & E2 & H2);
      [unfold addressed; cbn; rewrite R2; destruct Hs; congruence|unfold BME280_REG_ID; lia|].
    erewrite bind_run; [cbv beta|exact E2]. cbn [fst snd devices set_address set_devices]. rewrite chip_id.
    exists s2. split_and!; [done|eapply reads_addressed; [exact H2|]|].
    + unfold addressed. cbn. rewrite R2. destruct Hs; congruence.
    + intros x _. rewrite (ar_regs _ _ H2). apply R1.
Qed.
Lemma writing_run {A} r v (code : A) k s : addressed s -> 0 <= r < 256 -> 0 <= v < 256 ->
  exists s', writing (bme280_write_reg r v) code k s = k s' /\ after_access s s' /\ pending (devices s') <= 50.
Proof.
  intros Ha Hr Hv. destruct (write_reg_run r v s Ha Hr Hv) as (s' & E & H). exists s'. split; [|done].
  unfold writing. by erewrite bind_run; [|exact E].
Qed.
Ltac write_step Ha s2 H P :=
  match goal with |- context [writing (bme280_write_reg ?r ?v) ?c ?k ?s1] =>
    let E := fresh in destruct (writing_run r v c k s1 Ha) as (s2 & E & H & P);
      [unfold BME280_REG_RESET, BME280_REG_CTRL_HUM, BME280_REG_CONFIG, BME280_REG_CTRL_MEAS; lia
      |unfold BME280_SOFT_RESET; lia|rewrite E; clear E]
  end.
(** after a write and a delay, the status bits clear in time *)
Lemma wait_status_run mask ms s : addressed s -> Z.land 9 mask = mask -> pending (devices s) <= 50 -> 0 <= ms ->
  exists s', wait_status_clear rt_thread_mdelay mask BME280_STATUS_TIMEOUT_MS
      (set_devices (rt_thread_mdelay ms (devices s)) s) = Ok (0, s') /\
    after_access s s' /\ Z.land (dregs s' BME280_REG_STATUS) mask = 0.
Proof.
  intros Ha Hm Hp Hms. pose proof (access_delay ms s) as H1. pose proof (delay_pending ms (devices s)) as Hd.
  destruct (status_loop_run mask BME280_STATUS_TIMEOUT_MS (set_devices (rt_thread_mdelay ms (devices s)) s))
    as (s' & E & H2 & H3); [by eapply access_addressed|done| |unfold BME280_STATUS_TIMEOUT_MS; lia|].
  { cbn [devices set_devices]. unfold BME280_STATUS_TIMEOUT_MS. lia. }
  exists s'. split_and!; [exact E|by eapply after_access_trans|exact H3].
Qed.

(** bme280_init finds the sensor at either of its addresses and returns 0
    with the calibration data that the sensor's registers hold: little-endian
    words, signed where the data sheet says so, and the two 12-bit numbers
    that share a register. *)
Theorem bme280_init_spec (s : bme280 W) :
  sensor_address (devices s) = 118 \/ sensor_address (devices s) = 119 ->
  wp (bme280_init rt_thread_mdelay) (fun r s' => r = 0 /\ initialized s' = true /\ addressed s' /\
    forall d, calibration s' d = dig_of (dregs s) d) s.
Proof.
  intros Hs. unfold bme280_init. apply wp_bind. unfold wp, modify. cbn [initialized set_initialized].
  destruct (find_run (set_initialized false s) Hs) as (s1 & E1 & A1 & R1).
  erewrite bind_run; [cbv beta|exact E1]. cbn [negb].
  write_step A1 s2 H2 P2. pose proof (access_addressed _ _ H2 A1) as A2. erewrite bind_run; [cbv beta|reflexivity].
  destruct (wait_status_run BME280_STATUS_IM_UPDATE 5 s2 A2) as (s3 & E3 & H3 & _); [done|done|lia|].
  erewrite bind_run; [cbv beta|exact E3]. cbn [Z.eqb]. pose proof (access_addressed _ _ H3 A2) as A3.
  destruct (read_calibration_run s3 A3) as (s4 & E4 & C4 & A4 & R4 & _).
  erewrite bind_run; [cbv beta|exact E4]. cbn [Z.eqb negb].
  write_step A4 s5 H5 P5. pose proof (access_addressed _ _ H5 A4) as A5.
  write_step A5 s6 H6 P6. pose proof (access_addressed _ _ H6 A5) as A6.
  write_step A6 s7 H7 P7. pose proof (access_addressed _ _ H7 A6) as A7.
  cbn. split_and!; [done|done|exact A7|]. intros d.
  pose proof (after_access_trans _ _ _ H5 (after_access_trans _ _ _ H6 H7)) as H47.
  rewrite (access_calibrated _ _ H47 C4 d). apply dig_of_ext. intros x Hx.
  rewrite (aa_regs _ _ H47), R4, (aa_regs _ _ H3), (aa_regs _ _ H2), R1 by done. done.
Qed.

(** ** A measurement *)
(** the values of the data registers [g] *)
Definition adc_of (g : Z -> Z) : Z * Z * Z :=
  (g 247 * 4096 + g 248 * 16 + g 249 / 16, g 250 * 4096 + g 251 * 16 + g 252 / 16, g 253 * 256 + g 254).
Lemma raw_run n : forall i raw s, addressed s -> 0 <= i -> i + Z.of_nat n <= 8 ->
  exists s', raw_loop n i raw s = Ok (Some (raw ++ (dregs s <$> seqZ (247 + i) (Z.of_nat n))), s') /\ after_reads s s'.
Proof.
  induction n as [|n IH]; intros i raw s Ha Hi Hn; cbn [raw_loop].
  - exists s. cbn. rewrite app_nil_r. split; [done|apply after_reads_refl].
  - rewrite u8_small by (unfold BME280_REG_PRESS_MSB; lia).
    destruct (reading_run (BME280_REG_PRESS_MSB + i) None (fun v => raw_loop n (i + 1) (raw ++ [v])) s Ha)
      as (s1 & -> & H1); [unfold BME280_REG_PRESS_MSB; lia|].
    destruct (IH (i + 1) (raw ++ [dregs s (BME280_REG_PRESS_MSB + i)]) s1) as (s2 & E2 & H2); [by eapply reads_addressed|lia|lia|].
    exists s2. split; [|by eapply after_reads_trans]. rewrite E2. do 3 f_equal.
    rewrite (seqZ_cons (247 + i) (Z.of_nat (S n))) by lia. rewrite fmap_cons, <- app_assoc. cbn [app]. do 2 f_equal.
    replace (Z.pred (Z.of_nat (S n))) with (Z.of_nat n) by lia.
    replace (Z.succ (247 + i)) with (247 + (i + 1)) by lia. apply list_fmap_ext. intros. apply (ar_regs _ _ H1).
Qed.
Lemma adc_regs g : (forall x, 0 <= g x < 256) ->
  let raw := g <$> seqZ 247 8 in (adc_20 raw 0, adc_20 raw 3, adc_16 raw 6) = adc_of g.
Proof.
  intros Hg raw. assert (Hd : forall x, 0 <= g x / 16 < 16).
  { intros x. split; [apply Z.div_pos; [apply Hg|lia]|]. apply Z.div_lt_upper_bound; [lia|]. specialize (Hg x). lia. }
  assert (E20 : forall a b c, Z.lor (Z.lor (Z.shiftl (g a) 12) (Z.shiftl (g b) 4)) (Z.shiftr (g c) 4) = g a * 4096 + g b * 16 + g c / 16).
  { intros a b c. rewrite Z.shiftr_div_pow2, <- Z.lor_assoc by lia. change (2 ^ 4) with 16.
    pose proof (Hg a). pose proof (Hg b). pose proof (Hd c). rewrite (lor_shift (g b)) by (change (2 ^ 4) with 16; lia).
    change (2 ^ 4) with 16. rewrite lor_shift by (change (2 ^ 12) with 4096; lia). change (2 ^ 12) with 4096. lia. }
  unfold adc_20, adc_16, raw_at, raw, adc_of.
  change (g <$> seqZ 247 8) with [g 247; g 248; g 249; g 250; g 251; g 252; g 253; g 254].
  change ((_ :: _) !! ?i) with ([g 247; g 248; g 249; g 250; g 251; g 252; g 253; g 254] !! i). cbn [Nat.add lookup list_lookup default from_option id].
  rewrite !E20. rewrite lor_shift; [done|lia|apply Hg].
Qed.
(** a finished measurement: the register contents from which a sample is
    computed *)
Definition measured (s s0 : bme280 W) : Prop :=
  after_access s s0 /\ Z.land (dregs s0 BME280_REG_STATUS) BME280_STATUS_MEASURING = 0.
Lemma attempt_run n : forall adc s, addressed s -> (0 < n)%nat ->
  exists s0 s1, measured s s0 /\ after_access s0 s1 /\
    attempt_loop rt_thread_mdelay n adc s = Ok (inr (adc_of (dregs s0)), s1) /\
    (valid (adc_of (dregs s0)) = true -> after_reads s0 s1).
Proof.
  induction n as [|n IH]; intros adc s Ha Hn; [lia|]. cbn [attempt_loop].
  write_step Ha s2 H2 P2. pose proof (access_addressed _ _ H2 Ha) as A2.
  erewrite bind_run; [cbv beta|reflexivity].
  destruct (wait_status_run BME280_STATUS_MEASURING 2 s2 A2) as (s3 & E3 & H3 & M3); [done|done|lia|].
  erewrite bind_run; [cbv beta|exact E3]. cbn [Z.eqb]. pose proof (access_addressed _ _ H3 A2) as A3.
  destruct (raw_run 8 0 [] s3 A3) as (s4 & E4 & H4); [lia|lia|].
  erewrite bind_run; [cbv beta|exact E4]. cbn [app]. cbv zeta.
  change (247 + 0) with 247. change (Z.of_nat 8) with 8. rewrite (adc_regs (dregs s3)) by apply regs_byte.
  pose proof (after_access_trans _ _ _ H2 H3) as H23.
  destruct (valid (adc_of (dregs s3))) eqn:Ev.
  - exists s3, s4. split; [by split|]. split; [by apply reads_access|]. split; [done|]. intros _. exact H4.
  - erewrite bind_run; [cbv beta|reflexivity]. pose proof (access_delay 2 s4) as H5.
    pose proof (after_access_trans _ _ _ (reads_access _ _ H4) H5) as H35.
    destruct (decide (n = 0%nat)) as [->|Hn0].
    + cbn [attempt_loop]. exists s3. eexists. split; [by split|]. split; [exact H35|]. split; [reflexivity|]. by rewrite Ev.
    + destruct (IH (adc_of (dregs s3)) _ (access_addressed _ _ H35 A3)) as (s6 & s7 & (M6 & M6') & H7 & E7 & V7); [lia|].
      exists s6, s7. split; [split; [|done]|by split_and!].
      eapply after_access_trans; [exact H23|]. by eapply after_access_trans.
Qed.

(** the ranges in which no computation overflows *)
Definition plausible (c : bme280_calibration) (adc : Z * Z * Z) : Prop :=
  temperature_data c adc.1.2 /\ pressure_data c (t_fine_of c adc.1.2) /\ humidity_data c (t_fine_of c adc.1.2).
Lemma adc_range g : (forall x, 0 <= g x < 256) ->
  0 <= (adc_of g).1.1 < 1048576 /\ 0 <= (adc_of g).2 < 65536.
Proof.
  intros Hg. unfold adc_of. cbn [fst snd]. pose proof (Hg 247). pose proof (Hg 248). pose proof (Hg 249).
  pose proof (Hg 253). pose proof (Hg 254). pose proof (div_step (g 249) 16 ltac:(lia)) as (? & ? & ?). lia.
Qed.

(** C32: bme280_read triggers a measurement, waits for it and reads the data
    registers, a second time if the first data were placeholders; -5 reports
    that they still are.  For calibration data in the ranges of real sensors
    it returns 0 and a sample: no signed computation overflows, the
    temperature is within a hundredth of a degree of the exact formula and
    the humidity is at most 100.00 %. *)
Theorem bme280_read_spec (s : bme280 W) :
  initialized s = true -> addressed s ->
  exists s0, measured s s0 /\ let adc := adc_of (dregs s0) in
    (valid adc = false -> wp (bme280_read rt_thread_mdelay true) (fun r s' => r = (-5, None) /\ addressed s') s) /\
    (valid adc = true -> plausible (calibration s) adc ->
      wp (bme280_read rt_thread_mdelay true) (fun r s' => exists v, r = (0, Some v) /\ addressed s' /\
        temperature_close (calibration s) adc.1.2 (temperature_centi_c v) /\
        0 <= pressure_pa v < 4294967296 /\ 0 <= humidity_centi_pct v <= 10000) s).
Proof.
  intros Hi Ha. destruct (attempt_run BME280_SAMPLE_RETRIES (0, 0, 0) s Ha) as (s0 & s1 & Hm & H1 & E & Hv);
    [unfold BME280_SAMPLE_RETRIES; lia|].
  exists s0. split; [done|]. cbv zeta. destruct Hm as [Hm _]. pose proof (access_addressed _ _ H1 (access_addressed _ _ Hm Ha)) as A1.
  assert (Er : bme280_read rt_thread_mdelay true s = (if negb (valid (adc_of (dregs s0))) then ret (-5, None)
    else let* t := compensate_temperature (adc_of (dregs s0)).1.2 in
      let* p := compensate_pressure (adc_of (dregs s0)).1.1 in
      let* h := compensate_humidity (adc_of (dregs s0)).2 in
      ret (0, Some {| temperature_centi_c := t; pressure_pa := p; humidity_centi_pct := h |})) s1).
  { unfold bme280_read. erewrite bind_run; [cbv beta|reflexivity]. rewrite Hi. cbn [negb orb].
    by erewrite bind_run; [|exact E]. }
  split; intros Ev; [|intros (Ht & Hp & Hh)]; unfold wp; rewrite Er, Ev; cbn [negb]; [done|].
  assert (Ec : calibration s1 = calibration s).
  { rewrite (aa_driver _ _ H1). cbn [calibration set_devices]. by rewrite (aa_driver _ _ Hm). }
  destruct (adc_range (dregs s0) (regs_byte _)) as [Rp Rh].
  destruct (compensate_temperature_run (adc_of (dregs s0)).1.2 s1) as (t & Et & Ct); [by rewrite Ec|].
  rewrite Ec in Et, Ct. erewrite bind_run; [cbv beta|exact Et].
  set (s2 := set_t_fine _ s1). assert (Ec2 : calibration s2 = calibration s) by exact Ec.
  destruct (compensate_pressure_run (adc_of (dregs s0)).1.1 s2) as (p & Ep & Bp); [by rewrite Ec2|done|].
  erewrite bind_run; [cbv beta|exact Ep].
  destruct (compensate_humidity_run (adc_of (dregs s0)).2 s2) as (h & Eh & Bh); [by rewrite Ec2|done|].
  erewrite bind_run; [cbv beta|exact Eh]. cbn [ret]. eexists.
  split; [reflexivity|]. split; [exact A1|]. split; [exact Ct|]. split; [exact Bp|exact Bh].
Qed.
End driver_spec.
