(* ===== verification/BoardExamples.v ===== *)
(** A concrete board behind the bus: a UART whose transmitter is busy for two
    polls after each character, a display, and a BME280 with the example
    calibration of its data sheet at address 0x76 of the I2C controller.  The
    theorems on the console and on the sensor apply to it. *)
From S2P Require Import Prelude KService Mem Heap HeapExamples KString KPrintf KPrintfSpec ServiceExamples Libc Console Bme280 Bme280Spec.

(** strncpy of "abc" into two bytes *)
Lemma strncpy_overrun_witness : strncpy 200 64 2 (store_bytes 64 [97; 98; 99; 0] (fill 32 200 7 ∅)) = Fault BadPointer.
Proof.
  apply (strncpy_overrun _ 200 64 2 232 [97; 98; 99]).
  - concrete_cstr.
  - cbn. lia.
  - cbn. lia.
  - lia.
  - apply mapped_store_bytes. by apply (mapped_range 200).
  - lia.
  - vm_compute. reflexivity.
Defined.

Record demo_board := {
  b_sent : list Z; b_busy : nat; b_seg : Z; b_rx : list Z;
  b_dev : Z; b_reg : Z; b_data : Z; b_status : Z; b_pending : Z;
}.
(** the registers of the sensor but the status *)
Definition demo_regs (r : Z) : Z := u8 (default 0 (match r with
  | 208 => Some 96 | 161 => Some 75 | 225 => Some 114 | 226 => Some 1 | 228 => Some 19 | 229 => Some 41
  | 230 => Some 3 | 231 => Some 30
  | _ => if decide (136 <= r < 160) then
           [112; 107; 67; 103; 24; 252; 125; 142; 67; 214; 208; 11; 39; 11; 140; 0; 249; 255; 140; 60; 248; 198; 112; 23]
             !! Z.to_nat (r - 136)
         else if decide (247 <= r < 255) then [101; 90; 192; 126; 237; 0; 117; 48] !! Z.to_nat (r - 247)
         else None
  end)).
Definition demo_sensor (w : demo_board) (r : Z) : Z :=
  if r =? 243 then (if 0 <? b_pending w then 9 else 0) else demo_regs r.
(** the sensor has been addressed *)
Definition answers (dev : Z) : bool := dev =? 118.
#[local] Arguments answers : simpl never.
Definition demo_load (a : Z) (w : demo_board) : Z * demo_board :=
  if a =? UART_STATUS_ADDR then
    (Z.b2z (negb (b_busy w =? 0)%nat) + 2 * Z.b2z (negb (bool_decide (b_rx w = []))),
      {| b_sent := b_sent w; b_busy := pred (min 2 (b_busy w)); b_seg := b_seg w; b_rx := b_rx w;
         b_dev := b_dev w; b_reg := b_reg w; b_data := b_data w; b_status := b_status w; b_pending := b_pending w |})
  else if a =? UART_DATA_ADDR then
    (u8 (List.hd 0 (b_rx w)),
      {| b_sent := b_sent w; b_busy := b_busy w; b_seg := b_seg w; b_rx := tail (b_rx w);
         b_dev := b_dev w; b_reg := b_reg w; b_data := b_data w; b_status := b_status w; b_pending := b_pending w |})
  else if a =? I2C_CTRL_REG then (b_status w, w)
  else if a =? I2C_DATA_REG then (b_data w, w)
  else (0, w).
Definition demo_store (a v : Z) (w : demo_board) : demo_board :=
  let uart s b g := {| b_sent := s; b_busy := b; b_seg := g; b_rx := b_rx w;
    b_dev := b_dev w; b_reg := b_reg w; b_data := b_data w; b_status := b_status w; b_pending := b_pending w |} in
  let i2c d r x st p := {| b_sent := b_sent w; b_busy := b_busy w; b_seg := b_seg w; b_rx := b_rx w;
    b_dev := d; b_reg := r; b_data := x; b_status := st; b_pending := p |} in
  if a =? UART_DATA_ADDR then uart (b_sent w ++ [v]) 2%nat (b_seg w)
  else if a =? SEG_ADDR then uart (b_sent w) (b_busy w) v
  else if a =? I2C_DEV_ADDR_REG then i2c v (b_reg w) (b_data w) (b_status w) (b_pending w)
  else if a =? I2C_REG_ADDR_REG then i2c (b_dev w) v (b_data w) (b_status w) (b_pending w)
  else if a =? I2C_DATA_REG then i2c (b_dev w) (b_reg w) v (b_status w) (b_pending w)
  else if a =? I2C_CTRL_REG then
    if negb (answers (b_dev w)) then i2c (b_dev w) (b_reg w) (b_data w) 6 (b_pending w)
    else if Z.testbit v 1 then i2c (b_dev w) (b_reg w) (demo_sensor w (b_reg w)) 2 (b_pending w)
    else i2c (b_dev w) (b_reg w) (b_data w) 2 10
  else w.
#[export] Instance demo_bus : Bus demo_board := { bus_load := demo_load; bus_store := demo_store }.
Definition demo_delay (ms : Z) (w : demo_board) : demo_board :=
  {| b_sent := b_sent w; b_busy := b_busy w; b_seg := b_seg w; b_rx := b_rx w;
     b_dev := b_dev w; b_reg := b_reg w; b_data := b_data w; b_status := b_status w; b_pending := b_pending w - ms |}.

Lemma demo_byte w r : 0 <= demo_sensor w r < 256.
Proof. unfold demo_sensor. destruct (r =? 243); [destruct (0 <? b_pending w); lia|apply u8_range]. Qed.
Lemma demo_const w w' x : constant_reg x -> demo_sensor w x = demo_sensor w' x.
Proof. intros Hx. unfold demo_sensor. by rewrite (proj2 (Z.eqb_neq x 243)) by (unfold constant_reg in Hx; lia). Qed.

#[export] Instance demo_sensor_ok : Sensor demo_board demo_delay.
Proof.
  refine {| regs := demo_sensor; sensor_address _ := 118; pending := b_pending |}.
  - exact demo_byte.
  - reflexivity.
  - intros w Hw. unfold demo_sensor. cbn. by rewrite (proj2 (Z.ltb_ge 0 _)).
  - intros w r Hr. exists 0%nat, 2. eexists. split; [unfold BME280_TIMEOUT_LOOPS; lia|]. split; [done|].
    split; [by apply waits_done|]. cbn. change (answers 118) with true. cbn. rewrite u8_small by apply demo_byte. done.
  - intros w a r Ha Hr. exists 0%nat, 6. eexists. split; [unfold BME280_TIMEOUT_LOOPS; lia|]. split; [done|].
    assert (E : answers a = false) by (unfold answers; by apply Z.eqb_neq).
    split; [apply waits_done; [|done]|]; cbn; rewrite ?E; cbn; done.
  - intros w r v Hr Hv. exists 0%nat, 2. eexists. split; [unfold BME280_TIMEOUT_LOOPS; lia|]. split; [done|].
    split; [by apply waits_done|]. cbn. change (answers 118) with true. cbn. split_and!; [|done|lia]. intros x Hx. by apply demo_const.
  - intros ms w x Hx. by apply demo_const.
  - done.
  - intros ms w. cbn. lia.
Defined.
#[export] Instance demo_uart_ok : Uart demo_board.
Proof.
  refine {| sent := b_sent; shown := b_seg; received w := u8 <$> b_rx w; busy w := min 2 (b_busy w); busy_max := 2%nat |}.
  - intros w. lia.
  - intros w. cbn. destruct (b_busy w) as [|[|[|n]]], (b_rx w); cbn; split_and!; done.
  - intros w. cbn. destruct (b_rx w); cbn; [done|]. split_and!; try done.
    change 255 with (Z.ones 8). rewrite Z.land_ones by lia. apply u8_small, u8_range.
  - intros c w _. done.
  - intros v w. done.
Defined.

Definition board_world : demo_board := {| b_sent := []; b_busy := 1; b_seg := 0; b_rx := []; b_dev := 0; b_reg := 0;
  b_data := 0; b_status := 0; b_pending := 0 |}.

(** ** The console: "%d" of 42 and a line feed *)
Definition console_ram : mem := store_bytes 512 [37; 100; 10; 0] (fill 256 64 0 ∅).
Definition console0 : board demo_board :=
  {| console_ring := replicate 8 0; console_ring_idx := 0; bmem := console_ram; world := board_world |}.

(** ** The sensor *)
Definition driver0 : bme280 demo_board := {| calibration := fun _ => 0; bme280_address := 118; t_fine := 0;
  initialized := false; devices := board_world |}.
Lemma bme280_init_spec_witness :
  wp (bme280_init demo_delay) (fun r s' => r = 0 /\ initialized s' = true /\
    calibration s' dig_t2 = 26435 /\ calibration s' dig_p8 = -14600 /\ calibration s' dig_h4 = 313) driver0.
Proof.
  eapply wp_mono; [apply (bme280_init_spec demo_delay driver0); left; reflexivity|].
  intros r s' (Hr & Hi & _ & Hd). split; [exact Hr|]. split; [exact Hi|]. rewrite !Hd. vm_compute. split_and!; reflexivity.
Defined.

Definition driver1 : bme280 demo_board := {| calibration := dig_of demo_regs; bme280_address := 118; t_fine := 0;
  initialized := true; devices := board_world |}.
Definition demo_adc : Z * Z * Z := (415148, 519888, 30000).
Lemma demo_plausible : plausible (calibration driver1) demo_adc.
Proof. repeat split; vm_compute; first [reflexivity|discriminate]. Qed.
Lemma bme280_read_spec_witness :
  wp (bme280_read demo_delay true) (fun r s' => exists v, r = (0, Some v) /\ 
    temperature_close (calibration driver1) 519888 (temperature_centi_c v) /\ 0 <= humidity_centi_pct v <= 10000) driver1.
Proof.
  destruct (bme280_read_spec demo_delay driver1) as (s0 & _ & _ & H); [reflexivity|reflexivity|].
  eapply wp_mono; [apply H; [vm_compute; reflexivity|exact demo_plausible]|].
  intros r s' (v & Hr & _ & Ht & _ & Hh). exists v. split; [exact Hr|]. split; [exact Ht|exact Hh].
Defined.
(** the sample of the data sheet's example: 25.08 degrees *)
Example demo_temperature :
  match compensate_temperature 519888 driver1 with Ok (t, _) => t = 2508 | Fault _ => False end.
Proof. vm_compute. reflexivity. Qed.
