(* ===== verification/Msh.v ===== *)
(** The command interpreter of the shell, components/finsh/msh.c, in the
    configuration of the port (FINSH_USING_MSH_ONLY, no DFS, no modules): the
    command table, the splitting of a line into arguments and the execution of
    a command.  The line is in byte memory; what a command does is application
    code, a parameter of the model.  Messages to the console are left out. *)
From S2P Require Import Prelude KService Mem Heap KString Libc.

Definition FINSH_ARG_MAX : nat := 8.
Definition RT_ERROR : Z := 1.

(** struct finsh_syscall: the addresses of the name and the description, and the
    function *)
Record finsh_syscall := { name : Z; desc : Z; func : Z }.

(** * strncmp with a string literal as its second argument *)
Fixpoint strncmp_lit (n : nat) (a : Z) (lit : list Z) : M mem Z :=
  match n with
  | O => ret 0
  | S n =>
      let* x := ld8 a in
      let res := s8 (x - List.hd 0 lit) in
      if (negb (res =? 0) || (x =? 0))%bool then ret res else strncmp_lit n (a + 1) (tail lit)
  end.
(** "__cmd_" *)
Definition cmd_prefix : list Z := [95; 95; 99; 109; 100; 95].

(** * msh_get_cmd *)
Fixpoint get_cmd_loop (table : list finsh_syscall) (cmd size : Z) : M mem Z :=
  match table with
  | [] => ret 0
  | index :: table =>
      let* r := strncmp_lit 6 (name index) cmd_prefix in
      if negb (r =? 0) then get_cmd_loop table cmd size
      else
        let* r := strncmp (name index + 6) cmd size in
        let* found := (if r =? 0 then let* c := ld8 (name index + (6 + size)) in ret (c =? 0) else ret false) in
        if (found : bool) then ret (func index) else get_cmd_loop table cmd size
  end.
Definition msh_get_cmd (table : list finsh_syscall) (cmd size : Z) : M mem Z := get_cmd_loop table cmd size.

(** * msh_split *)
Definition blank (c : Z) : bool := (c =? 32) || (c =? 9).

(** strip blank and tab: overwrite them with '\0' *)
Fixpoint strip_loop (fuel : nat) (ptr position length : Z) : M mem (Z * Z) :=
  match fuel with
  | O => raise OutOfFuel
  | S fuel =>
      let* c := ld8 ptr in
      if (blank c && (position <? length))%bool
      then st8 ptr 0;; strip_loop fuel (ptr + 1) (position + 1) length
      else ret (ptr, position)
  end.
(** skip this string: up to the closing quote, over escaped quotes *)
Fixpoint quote_loop (fuel : nat) (ptr position length : Z) : M mem (Z * Z) :=
  match fuel with
  | O => raise OutOfFuel
  | S fuel =>
      let* c := ld8 ptr in
      if (negb (c =? 34) && (position <? length))%bool then
        let* escaped := (if c =? 92 then let* d := ld8 (ptr + 1) in ret (d =? 34) else ret false) in
        if (escaped : bool) then quote_loop fuel (ptr + 2) (position + 2) length
        else quote_loop fuel (ptr + 1) (position + 1) length
      else ret (ptr, position)
  end.
Fixpoint word_loop (fuel : nat) (ptr position length : Z) : M mem (Z * Z) :=
  match fuel with
  | O => raise OutOfFuel
  | S fuel =>
      let* c := ld8 ptr in
      if (negb (blank c) && (position <? length))%bool
      then word_loop fuel (ptr + 1) (position + 1) length
      else ret (ptr, position)
  end.
(** while (position < length); the arguments so far are [argv] *)
Fixpoint split_loop (fuel : nat) (ptr position length : Z) (argv : list Z) : M mem (list Z) :=
  match fuel with
  | O => raise OutOfFuel
  | S fuel =>
      if position <? length then
        let n := S (Z.to_nat length) in
        let* r := strip_loop n ptr position length in
        let ptr := r.1 in let position := r.2 in
        if (FINSH_ARG_MAX <=? base.length argv)%nat then ret argv
        else if length <=? position then ret argv
        else
          let* c := ld8 ptr in
          if c =? 34 then
            let argv := argv ++ [ptr + 1] in
            let* r := quote_loop n (ptr + 1) (position + 1) length in
            if length <=? r.2 then ret argv
            else st8 r.1 0;; split_loop fuel (r.1 + 1) (r.2 + 1) length argv
          else
            let argv := argv ++ [ptr] in
            let* r := word_loop n ptr position length in
            if length <=? r.2 then ret argv else split_loop fuel r.1 r.2 length argv
      else ret argv
  end.
(** argv, whose length is argc *)
Definition msh_split (cmd length : Z) : M mem (list Z) :=
  split_loop (S (Z.to_nat length)) cmd 0 length [].

(** * _msh_exec_cmd, msh_exec *)
Section exec.
Context (table : list finsh_syscall).
(** what a command does with its arguments *)
Context (call : Z -> list Z -> M mem Z).

(** the return value and *retp *)
Definition _msh_exec_cmd (cmd length : Z) : M mem (Z * option Z) :=
  rt_assert (negb (cmd =? 0));;
  let* r := word_loop (S (Z.to_nat length)) cmd 0 length in
  let cmd0_size := r.2 in
  if cmd0_size =? 0 then ret (- RT_ERROR, None)
  else
    let* cmd_func := msh_get_cmd table cmd cmd0_size in
    if cmd_func =? 0 then ret (- RT_ERROR, None)
    else
      let* argv := msh_split cmd length in
      if (base.length argv =? 0)%nat then ret (- RT_ERROR, None)
      else
        let* retp := call cmd_func argv in
        ret (0, Some retp).

(** strim the beginning of command *)
Fixpoint trim_loop (fuel : nat) (cmd length : Z) : M mem (Z * Z) :=
  match fuel with
  | O => raise OutOfFuel
  | S fuel =>
      if 0 <? length then
        let* c := ld8 cmd in
        if blank c then trim_loop fuel (cmd + 1) (length - 1) else ret (cmd, length)
      else ret (cmd, length)
  end.
(** truncate the cmd at the first space *)
Fixpoint truncate_loop (fuel : nat) (tcmd : Z) : M mem unit :=
  match fuel with
  | O => raise OutOfFuel
  | S fuel =>
      let* c := ld8 tcmd in
      if (negb (c =? 32) && negb (c =? 0))%bool then truncate_loop fuel (tcmd + 1) else st8 tcmd 0
  end.

Definition msh_exec (cmd length : Z) : M mem Z :=
  let* r := trim_loop (S (Z.to_nat length)) cmd length in
  let cmd := r.1 in let length := r.2 in
  if length =? 0 then ret 0
  else
    let* r := _msh_exec_cmd cmd length in
    match r with
    | (0, Some cmd_ret) => ret cmd_ret
    | _ =>
        let* fuel := str_fuel in
        truncate_loop fuel cmd;; ret (-1)
    end.
End exec.

(** * The tokens of a line *)
Fixpoint drop_blanks (l : list Z) : list Z :=
  match l with
  | c :: l' => if blank c then drop_blanks l' else l
  | [] => []
  end.
(** the longest prefix without a blank, and the rest *)
Fixpoint word (l : list Z) : list Z * list Z :=
  match l with
  | c :: l' => if blank c then ([], l) else (c :: (word l').1, (word l').2)
  | [] => ([], [])
  end.
(** the text up to the closing quote, and the rest behind it if there is one;
    a quote behind a backslash does not close *)
Fixpoint quoted (l : list Z) : list Z * option (list Z) :=
  match l with
  | [] => ([], None)
  | c :: l' =>
      if c =? 34 then ([], Some l')
      else match l' with
           | d :: l'' =>
               if (c =? 92) && (d =? 34) then (c :: d :: (quoted l'').1, (quoted l'').2)
               else (c :: (quoted l').1, (quoted l').2)
           | [] => ([c], None)
           end
  end.
(** the first [n] arguments *)
Fixpoint tokens (n : nat) (l : list Z) : list (list Z) :=
  match n with
  | O => []
  | S n =>
      match drop_blanks l with
      | [] => []
      | c :: l' =>
          if c =? 34 then (quoted l').1 :: match (quoted l').2 with Some r => tokens n r | None => [] end
          else (word (c :: l')).1 :: tokens n (word (c :: l')).2
      end
  end.

Lemma word_app l : (word l).1 ++ (word l).2 = l.
Proof. induction l as [|c l IH]; [done|]. cbn. destruct (blank c); cbn; [done|by rewrite IH]. Qed.
Lemma word_rest l : match (word l).2 with [] => True | c :: _ => blank c = true end.
Proof. induction l as [|c l IH]; [done|]. cbn. by destruct (blank c) eqn:E. Qed.
Lemma quoted_ind (P : list Z -> Prop) :
  P [] -> (forall c l, P l -> (forall d l', l = d :: l' -> P l') -> P (c :: l)) -> forall l, P l.
Proof.
  intros H0 H1 l. enough (P l /\ forall d l', l = d :: l' -> P l') by tauto.
  induction l as [|c l [IH1 IH2]]; [done|]. split; [by apply H1|]. intros d l' [= <- <-]. done.
Qed.
Lemma quoted_app l :
  match (quoted l).2 with
  | Some r => l = (quoted l).1 ++ 34 :: r
  | None => l = (quoted l).1
  end.
Proof.
  induction l as [|c l IH IH2] using quoted_ind; [done|]. cbn [quoted].
  destruct (Z.eqb_spec c 34) as [->|]; [done|]. destruct l as [|d l]; [done|].
  destruct ((c =? 92) && (d =? 34))%bool.
  - specialize (IH2 d l eq_refl). cbn [fst snd]. destruct (quoted l) as [t [r|]]; cbn [fst snd] in *; by subst.
  - cbn [fst snd]. destruct (quoted (d :: l)) as [t [r|]]; cbn [fst snd app] in *; congruence.
Qed.

Lemma length_drop_blanks l : (length (drop_blanks l) <= length l)%nat.
Proof. induction l as [|c l IH]; cbn; [lia|]. destruct (blank c); cbn; lia. Qed.

(** ** The loops *)
Lemma blank_zero : blank 0 = false.
Proof. reflexivity. Qed.
Lemma strip_loop_run fuel m p k len l :
  cstr m p l -> k + Z.of_nat (length l) = len -> (length l < fuel)%nat ->
  let j := (length l - length (drop_blanks l))%nat in
  strip_loop fuel p k len m =
    Ok ((p + Z.of_nat j, k + Z.of_nat j), store_bytes p (replicate j 0) m) /\
  drop j l = drop_blanks l.
Proof.
  revert m p k l. induction fuel as [|fuel IH]; intros m p k l Hl Hk Hf j; [lia|]. cbn [strip_loop].
  erewrite bind_run; [cbv beta|by apply cstr_head]. subst j. destruct l as [|c l]; cbn [List.hd drop_blanks length] in *.
  - rewrite blank_zero. cbn. by rewrite !Z.add_0_r.
  - pose proof (cstr_tail _ _ _ _ Hl) as [Hc Ht]. destruct (blank c) eqn:Eb; cbn [andb].
    + rewrite (proj2 (Z.ltb_lt k len)) by lia. pose proof (cstr_mapped _ _ _ Hl) as Hm. cbn [length] in Hm.
      erewrite bind_run; [cbv beta|apply st8_run; sub_mapped]. change (u8 0) with 0.
      pose proof (length_drop_blanks l).
      replace (S (length l) - length (drop_blanks l))%nat with (S (length l - length (drop_blanks l))) by lia.
      destruct (IH (<[p := 0]> m) (p + 1) (k + 1) l) as [-> Hd]; [|lia|lia|].
      * eapply cstr_ext; [|exact Ht]. intros x Hx. rewrite lookup_insert_ne; [done|lia].
      * cbn [replicate store_bytes drop]. split; [|done]. do 3 f_equal; lia.
    + cbn [length]. rewrite Nat.sub_diag. cbn. by rewrite !Z.add_0_r.
Qed.
Lemma word_loop_run fuel m p k len l :
  cstr m p l -> k + Z.of_nat (length l) = len -> (length l < fuel)%nat ->
  let j := Z.of_nat (length (word l).1) in
  word_loop fuel p k len m = Ok ((p + j, k + j), m).
Proof.
  revert p k l. induction fuel as [|fuel IH]; intros p k l Hl Hk Hf j; [lia|]. cbn [word_loop].
  erewrite bind_run; [cbv beta|by apply cstr_head]. subst j. destruct l as [|c l]; cbn [List.hd word length] in *.
  - rewrite blank_zero. rewrite (proj2 (Z.ltb_ge k len)) by lia. cbn. by rewrite !Z.add_0_r.
  - pose proof (cstr_tail _ _ _ _ Hl) as [Hc Ht]. destruct (blank c) eqn:Eb; cbn [andb negb fst length].
    + by rewrite !Z.add_0_r.
    + rewrite (proj2 (Z.ltb_lt k len)) by lia. rewrite (IH (p + 1) (k + 1) l) by (done || lia).
      do 3 f_equal; lia.
Qed.
Lemma quote_loop_run fuel m p k len l :
  cstr m p l -> k + Z.of_nat (length l) = len -> (length l < fuel)%nat ->
  let j := Z.of_nat (length (quoted l).1) in
  quote_loop fuel p k len m = Ok ((p + j, k + j), m).
Proof.
  revert p k l. induction fuel as [|fuel IH]; intros p k l Hl Hk Hf j; [lia|]. cbn [quote_loop].
  erewrite bind_run; [cbv beta|by apply cstr_head]. subst j. destruct l as [|c l]; cbn [List.hd quoted length] in *.
  - rewrite (proj2 (Z.ltb_ge k len)) by lia. cbn. by rewrite !Z.add_0_r.
  - pose proof (cstr_tail _ _ _ _ Hl) as [Hc Ht].
    destruct (Z.eqb_spec c 34) as [->|]; cbn [negb andb fst length]; [by rewrite !Z.add_0_r|].
    rewrite (proj2 (Z.ltb_lt k len)) by lia. pose proof (cstr_head _ _ _ Ht) as Hd.
    assert (E : (if c =? 92 then let* d := ld8 (p + 1) in ret (d =? 34) else ret false) m =
      Ok (((c =? 92) && (List.hd 0 l =? 34))%bool, m)).
    { destruct (c =? 92); [|done]. by erewrite bind_run; [|exact Hd]. }
    erewrite bind_run; [cbv beta|exact E]. destruct l as [|d l]; cbn [List.hd].
    + rewrite andb_false_r. cbn [length fst] in *.
      rewrite (IH (p + 1) (k + 1) []) by (done || (cbn; lia)). cbn. by rewrite !Z.add_0_r.
    + cbn [length] in *. destruct ((c =? 92) && (d =? 34))%bool; cbn [fst length].
      * pose proof (cstr_tail _ _ _ _ Ht) as [_ Ht2]. replace (p + 1 + 1) with (p + 2) in Ht2 by lia.
        rewrite (IH (p + 2) (k + 2) l) by (done || lia). do 3 f_equal; lia.
      * rewrite (IH (p + 1) (k + 1) (d :: l)) by (done || (cbn [length]; lia)). do 3 f_equal; lia.
Qed.

Lemma hd_drop_blanks l : blank (List.hd 0 (drop_blanks l)) = false.
Proof. induction l as [|c l IH]; [done|]. cbn. by destruct (blank c) eqn:E. Qed.
Lemma drop_drop_blanks l : drop (length l - length (drop_blanks l)) l = drop_blanks l.
Proof.
  induction l as [|c l IH]; [done|]. cbn [drop_blanks length].
  destruct (blank c); [|cbn [length]; by rewrite Nat.sub_diag].
  pose proof (length_drop_blanks l).
  replace (S (length l) - length (drop_blanks l))%nat with (S (length l - length (drop_blanks l))) by lia. done.
Qed.

(** a prefix that has been terminated *)
Lemma cstr_prefix m m' p t u :
  cstr m p (t ++ u) -> (forall x, p <= x < p + Z.of_nat (length t) -> m' !! x = m !! x) ->
  m' !! (p + Z.of_nat (length t)) = Some 0 -> cstr m' p t.
Proof.
  intros Hl Hs H0. destruct (cstr_mapped _ _ _ Hl) as (Hp & He & _). rewrite length_app in He.
  apply cstr_intro; [done|lia| |].
  - apply cstr_bytes in Hl. by apply Forall_app in Hl as [? _].
  - intros i c Hi. destruct (decide (i < length t)%nat) as [Hlt|Hge].
    + rewrite lookup_app_l in Hi by done. rewrite Hs by lia.
      eapply cstr_lookup; [exact Hl|]. by rewrite !lookup_app_l by (rewrite ?length_app; lia).
    + rewrite lookup_app_r in Hi by lia. destruct (i - length t)%nat eqn:E; [|done].
      injection Hi as <-. by replace i with (length t) by lia.
Qed.

(** what the rest of the loop does from the offset [k] of the line on *)
Definition split_to (p : Z) (l : list Z) (m : mem) (ptrs : list Z) (toks : list (list Z)) (m' : mem) : Prop :=
  Forall2 (fun q t => p <= q /\ cstr m' q t) ptrs toks /\
  (forall x, x < p \/ p + Z.of_nat (length l) <= x -> m' !! x = m !! x) /\
  (blank (List.hd 0 l) = true -> m' !! p = Some 0).

(** the stripped line, and what the tokens behind it give *)
Lemma strip_split m p l ptrs toks m' :
  cstr m p l ->
  let j := (length l - length (drop_blanks l))%nat in
  let m1 := store_bytes p (replicate j 0) m in
  cstr m1 (p + Z.of_nat j) (drop_blanks l) /\
  (split_to (p + Z.of_nat j) (drop_blanks l) m1 ptrs toks m' -> split_to p l m ptrs toks m').
Proof.
  intros Hl j m1. pose proof (length_drop_blanks l) as Hlen.
  pose proof (drop_drop_blanks l) as Hd. fold j in Hd.
  assert (Hm1 : forall x, x < p \/ p + Z.of_nat j <= x -> m1 !! x = m !! x).
  { intros x Hx. unfold m1. rewrite lookup_store_bytes, length_replicate. by rewrite decide_False by lia. }
  split.
  - rewrite <- Hd. eapply cstr_ext; [|by apply cstr_drop; [|unfold j; lia]].
    intros x Hx. apply Hm1. lia.
  - intros (H1 & H2 & H3). split_and!.
    + eapply Forall2_impl; [exact H1|]. intros q t [? ?]. split; [lia|done].
    + intros x Hx. rewrite H2, Hm1; [done|lia|unfold j in *; lia].
    + intros Hb. destruct l as [|c l]; [done|]. cbn [List.hd] in Hb.
      assert (Hj : (0 < j)%nat).
      { unfold j. cbn [drop_blanks length]. rewrite Hb. pose proof (length_drop_blanks l). lia. }
      rewrite H2 by lia. unfold m1. rewrite lookup_store_bytes, length_replicate, decide_True by lia.
      rewrite Z.sub_diag. destruct j; [lia|done].
Qed.

(** a quoted argument [t], closed at the first quote of the rest *)
Lemma quoted_split m p t r ptrs toks m' :
  cstr m p (34 :: t ++ 34 :: r) ->
  let q := p + 1 + Z.of_nat (length t) in
  cstr (<[q := 0]> m) (q + 1) r /\
  (split_to (q + 1) r (<[q := 0]> m) ptrs toks m' ->
   split_to p (34 :: t ++ 34 :: r) m ((p + 1) :: ptrs) (t :: toks) m').
Proof.
  intros Hl q. pose proof (cstr_tail _ _ _ _ Hl) as [_ Ht]. split.
  - assert (Hr : cstr m (q + 1) r).
    { replace (q + 1) with (p + 1 + Z.of_nat (S (length t))) by (unfold q; lia).
      replace r with (drop (S (length t)) (t ++ 34 :: r)).
      - apply cstr_drop; [done|]. rewrite length_app. cbn [length]. lia.
      - rewrite cons_middle, app_assoc, drop_app_length'; [done|]. rewrite length_app. cbn [length]. lia. }
    eapply cstr_ext; [|exact Hr]. intros x Hx. rewrite lookup_insert_ne; [done|lia].
  - intros (H1 & H2 & H3). split_and!.
    + constructor.
      * split; [lia|]. apply (cstr_prefix m m' (p + 1) t (34 :: r)); [done| |].
        -- intros x Hx. rewrite H2 by lia. rewrite lookup_insert_ne; [done|lia].
        -- fold q. rewrite H2 by lia. by rewrite lookup_insert_eq.
      * eapply Forall2_impl; [exact H1|]. intros a b [? ?]. split; [lia|done].
    + intros x Hx. cbn [length] in Hx. rewrite length_app in Hx. cbn [length] in Hx.
      rewrite H2 by lia. rewrite lookup_insert_ne; [done|lia].
    + done.
Qed.
(** a plain argument [t], terminated where the next blank is stripped *)
Lemma word_split m p t b r ptrs toks m' :
  cstr m p (t ++ b :: r) -> blank b = true -> blank (List.hd 0 (t ++ b :: r)) = false ->
  let q := p + Z.of_nat (length t) in
  (0 < length t)%nat /\ cstr m q (b :: r) /\
  (split_to q (b :: r) m ptrs toks m' -> split_to p (t ++ b :: r) m (p :: ptrs) (t :: toks) m').
Proof.
  intros Hl Hb Hh q. assert (Hr : cstr m q (b :: r)).
  { replace (b :: r) with (drop (length t) (t ++ b :: r)) by apply drop_app_length.
    apply cstr_drop; [done|]. rewrite length_app. lia. }
  split; [destruct t; [cbn in Hh; congruence|cbn; lia]|]. split; [done|].
  intros (H1 & H2 & H3). split_and!.
  - constructor.
    + split; [lia|]. apply (cstr_prefix m m' p t (b :: r)); [done| |by apply H3].
      intros x Hx. apply H2. lia.
    + eapply Forall2_impl; [exact H1|]. intros a d [? ?]. split; [lia|done].
  - intros x Hx. rewrite length_app in Hx. apply H2. lia.
  - rewrite Hh. done.
Qed.

Lemma split_loop_run len fuel : forall m p k l argv,
  cstr m p l -> k + Z.of_nat (length l) = len -> 0 <= k -> (length l < fuel)%nat ->
  exists ptrs m', split_loop fuel p k len argv m = Ok (argv ++ ptrs, m') /\
    split_to p l m ptrs (tokens (FINSH_ARG_MAX - length argv) l) m'.
Proof.
  induction fuel as [|fuel IH]; intros m p k l argv Hl Hk Hk0 Hf; [lia|]. cbn [split_loop].
  destruct (Z.ltb_spec k len) as [Hlt|Hge].
  2: { destruct l; [|cbn in Hk; lia]. exists [], m. rewrite app_nil_r. split; [done|].
       split_and!; [|done|done]. destruct (FINSH_ARG_MAX - length argv)%nat; constructor. }
  cbv zeta. destruct (strip_loop_run (S (Z.to_nat len)) m p k len l Hl Hk ltac:(lia)) as [Es _].
  erewrite bind_run; [cbv beta|exact Es]. cbn [fst snd].
  pose proof (length_drop_blanks l) as Hlen. pose proof (hd_drop_blanks l) as Hhd.
  pose proof (strip_split m p l [] [] m Hl) as [Hl1 _].
  pose proof (fun ptrs toks m' => proj2 (strip_split m p l ptrs toks m' Hl)) as Hstrip.
  cbv zeta in Hl1, Hstrip. cbn [tokens] in *.
  assert (Ek : k + Z.of_nat (length l - length (drop_blanks l)) + Z.of_nat (length (drop_blanks l)) = len) by lia.
  set (m1 := store_bytes p _ m) in *.
  set (p1 := p + Z.of_nat (length l - _)) in *. set (k1 := k + Z.of_nat (length l - _)) in *.
  assert (Hnil : forall toks, Forall2 (fun q t => p1 <= q /\ cstr m1 q t) [] toks ->
    split_to p l m [] toks m1) by (intros; apply Hstrip; split_and!; [done|done|by rewrite Hhd]).
  destruct (Nat.leb_spec FINSH_ARG_MAX (length argv)) as [Hfull|Hroom].
  { exists [], m1. rewrite app_nil_r. split; [done|].
    replace (FINSH_ARG_MAX - length argv)%nat with 0%nat by lia. apply Hnil. constructor. }
  destruct (FINSH_ARG_MAX - length argv)%nat as [|n] eqn:En; [lia|]. cbn [tokens].
  assert (En2 : forall q : Z, (FINSH_ARG_MAX - length (argv ++ [q]))%nat = n)
    by (intros; rewrite length_app; cbn [length]; lia).
  destruct (drop_blanks l) as [|c l']; cbn [length List.hd] in *.
  { rewrite (proj2 (Z.leb_le _ _)) by lia. exists [], m1. rewrite app_nil_r. split; [done|apply Hnil]. constructor. }
  rewrite (proj2 (Z.leb_gt _ _)) by lia. erewrite bind_run; [cbv beta|by apply cstr_head]. cbn [List.hd].
  destruct (Z.eqb_spec c 34) as [->|Hc].
  - pose proof (cstr_tail _ _ _ _ Hl1) as [_ Ht].
    erewrite bind_run; [cbv beta|apply (quote_loop_run _ _ _ _ len l'); [done|lia|lia]]. cbn [fst snd].
    pose proof (quoted_app l') as Hq. destruct (quoted l') as [t [r|]]; cbn [fst snd] in *; subst l'.
    + rewrite length_app in *. cbn [length] in *. rewrite (proj2 (Z.leb_gt _ _)) by lia.
      pose proof (fun ptrs toks m' => proj2 (quoted_split m1 p1 t r ptrs toks m' Hl1)) as Hto.
      destruct (quoted_split m1 p1 t r [] [] m Hl1) as [Hr _]. cbv zeta in Hr, Hto.
      pose proof (cstr_mapped _ _ _ Ht) as Hm. rewrite length_app in Hm. cbn [length] in Hm.
      erewrite bind_run; [cbv beta|apply st8_run; sub_mapped]. change (u8 0) with 0.
      destruct (IH _ _ (k1 + 1 + Z.of_nat (length t) + 1) r (argv ++ [p1 + 1]) Hr ltac:(lia) ltac:(lia) ltac:(lia))
        as (ptrs & m' & -> & H). rewrite En2 in H.
      exists ((p1 + 1) :: ptrs), m'. rewrite <- app_assoc. split; [done|by apply Hstrip, Hto].
    + rewrite (proj2 (Z.leb_le _ _)) by lia. exists [p1 + 1], m1. split; [done|]. apply Hstrip.
      split_and!; [|done|done]. constructor; [split; [lia|done]|constructor].
  - erewrite bind_run; [cbv beta|apply (word_loop_run _ _ _ _ len (c :: l')); [done|cbn [length]; lia|cbn [length]; lia]].
    cbn [fst snd]. pose proof (word_app (c :: l')) as Hw. pose proof (word_rest (c :: l')) as Hrest.
    destruct (word (c :: l')) as [t r]; cbn [fst snd] in *.
    pose proof (f_equal length Hw) as Ew. rewrite length_app in Ew. cbn [length] in Ew.
    destruct r as [|b r]; cbn [length] in Ew.
    + rewrite (proj2 (Z.leb_le _ _)) by lia. exists [p1], m1. split; [done|]. apply Hstrip.
      split_and!; [|done|by cbn; rewrite Hhd].
      constructor; [split; [lia|by rewrite <- (app_nil_r t), Hw]|by destruct n].
    + rewrite (proj2 (Z.leb_gt _ _)) by lia. rewrite <- Hw in Hl1, Hstrip.
      assert (Hh : blank (List.hd 0 (t ++ b :: r)) = false) by (by rewrite Hw).
      pose proof (fun ptrs toks m' => word_split m1 p1 t b r ptrs toks m' Hl1 Hrest Hh) as Hto. cbv zeta in Hto.
      destruct (Hto [] [] m) as (Htl & Hr & _).
      destruct (IH _ _ (k1 + Z.of_nat (length t)) (b :: r) (argv ++ [p1]) Hr
        ltac:(cbn [length]; lia) ltac:(lia) ltac:(cbn [length]; lia)) as (ptrs & m' & -> & H). rewrite En2 in H.
      exists (p1 :: ptrs), m'. rewrite <- app_assoc. split; [done|by apply Hstrip, Hto].
Qed.

Lemma msh_split_run m cmd l :
  cstr m cmd l -> exists argv m', msh_split cmd (Z.of_nat (length l)) m = Ok (argv, m') /\
    Forall2 (cstr m') argv (tokens FINSH_ARG_MAX l) /\
    (forall x, x < cmd \/ cmd + Z.of_nat (length l) <= x -> m' !! x = m !! x).
Proof.
  intros Hl. unfold msh_split.
  destruct (split_loop_run (Z.of_nat (length l)) (S (Z.to_nat (Z.of_nat (length l)))) m cmd 0 l [] Hl)
    as (ptrs & m' & Hrun & H1 & H2 & _); [lia..|].
  exists ptrs, m'. split_and!; [exact Hrun| |done].
  eapply Forall2_impl; [exact H1|]. by intros q t [_ ?].
Qed.
(** msh_split cuts a line into at most FINSH_ARG_MAX arguments: blanks
    separate them, double quotes hold blanks together.  Every argv entry is
    then a terminated string with the text of the argument, and nothing
    outside of the line changes. *)
Theorem msh_split_spec (m : mem) (cmd : Z) (l : list Z) :
  cstr m cmd l ->
  wp (msh_split cmd (Z.of_nat (length l))) (fun argv m' =>
    Forall2 (cstr m') argv (tokens FINSH_ARG_MAX l) /\
    (forall x, x < cmd \/ cmd + Z.of_nat (length l) <= x -> m' !! x = m !! x)) m.
Proof.
  intros Hl. destruct (msh_split_run m cmd l Hl) as (argv & m' & E & H). by eapply wp_intro.
Qed.

(** ** Finding the command *)
Lemma strncmp_lit_run n m a l k :
  cstr m a l -> Forall (fun c => 0 < c < 256) k -> strncmp_lit n a k m = Ok (strn_diff n l k, m).
Proof.
  revert a l k. induction n as [|n IH]; intros a l k Hl Hk; [done|]. cbn [strncmp_lit strn_diff].
  erewrite bind_run; [cbv beta|by apply cstr_head].
  cbv zeta. destruct (Z.eqb_spec (s8 (List.hd 0 l - List.hd 0 k)) 0) as [E|]; [|done].
  destruct (Z.eqb_spec (List.hd 0 l) 0) as [|Hnz]; [done|]. cbn [negb orb].
  destruct l as [|c l]; cbn [List.hd tail] in *; [done|].
  apply cstr_tail in Hl as [_ Hl]. apply IH; [done|by destruct Hk].
Qed.

(** the function of the first command called [w] *)
Fixpoint find_cmd (table : list (list Z * Z)) (w : list Z) : Z :=
  match table with
  | [] => 0
  | (n, f) :: table => if decide (n = cmd_prefix ++ w) then f else find_cmd table w
  end.
(** the names of the table in memory *)
Definition table_at (m : mem) (table : list finsh_syscall) (names : list (list Z * Z)) : Prop :=
  Forall2 (fun e n => cstr m (name e) n.1 /\ func e = n.2) table names.

Lemma cmd_prefix_bytes : Forall (fun c => 0 < c < 256) cmd_prefix.
Proof. unfold cmd_prefix. repeat constructor; lia. Qed.
Lemma get_cmd_loop_run m table names cmd w r :
  table_at m table names -> cstr m cmd (w ++ r) -> w <> [] ->
  get_cmd_loop table cmd (Z.of_nat (length w)) m = Ok (find_cmd names w, m).
Proof.
  intros Ht Hc Hw. induction Ht as [|e [n f] table names [Hn Hf] Ht IH]; [done|].
  cbn [get_cmd_loop find_cmd fst snd] in *.
  erewrite bind_run; [cbv beta|apply (strncmp_lit_run _ _ _ n); [done|apply cmd_prefix_bytes]].
  pose proof (cstr_bytes _ _ _ Hn) as Hb. pose proof (strn_diff_zero 6 n cmd_prefix Hb cmd_prefix_bytes) as Hz.
  destruct (Z.eqb_spec (strn_diff 6 n cmd_prefix) 0) as [E|E]; cbn [negb].
  2: { rewrite decide_False; [exact IH|]. intros ->. apply E, Hz. by rewrite take_app_le by (cbn; lia). }
  apply Hz in E. change (take 6 cmd_prefix) with cmd_prefix in E.
  assert (En : n = cmd_prefix ++ drop 6 n) by (rewrite <- E; by rewrite take_drop).
  set (n' := drop 6 n) in *.
  assert (Hn' : cstr m (name e + 6) n').
  { apply (cstr_drop m (name e) n 6); [done|]. rewrite En, length_app. cbn. lia. }
  erewrite bind_run; [cbv beta|apply (rt_strncmp_run _ _ _ n' (w ++ r)); done].
  pose proof (cstr_bytes _ _ _ Hn') as Hb'. pose proof (cstr_bytes _ _ _ Hc) as Hbc.
  pose proof (strn_diff_zero (length w) n' (w ++ r) Hb' Hbc) as Hz2. rewrite take_app_length in Hz2.
  destruct (Z.eqb_spec (strn_diff (length w) n' (w ++ r)) 0) as [E2|E2].
  2: { erewrite bind_run; [cbv beta|reflexivity]. rewrite decide_False; [exact IH|].
       intros E3. rewrite En in E3. apply (inj (app cmd_prefix)) in E3. apply E2, Hz2. rewrite E3.
       by rewrite firstn_all. }
  apply Hz2 in E2. assert (Hlen : (length w <= length n')%nat).
  { rewrite <- E2 at 1. rewrite length_take. lia. }
  pose proof (cstr_drop _ _ _ (length w) Hn' Hlen) as Hd.
  replace (name e + 6 + Z.of_nat (length w)) with (name e + (6 + Z.of_nat (length w))) in Hd by lia.
  erewrite bind_run; [cbv beta|erewrite bind_run; [reflexivity|by apply cstr_head]].
  destruct (drop (length w) n') as [|c l] eqn:Ed; cbn [List.hd].
  - change (0 =? 0) with true. cbv iota. rewrite decide_True; [by rewrite Hf|].
    rewrite En. f_equal. rewrite <- (take_drop (length w) n'), E2, Ed. by rewrite app_nil_r.
  - apply cstr_tail in Hd as [Hd _]. rewrite (proj2 (Z.eqb_neq c 0)) by lia.
    rewrite decide_False; [exact IH|]. intros E3. rewrite En in E3. apply (inj (app cmd_prefix)) in E3.
    rewrite E3, drop_all in Ed. done.
Qed.

(** ** Executing the line *)
Lemma trim_loop_run fuel m p l :
  cstr m p l -> (length l < fuel)%nat ->
  let j := Z.of_nat (length l - length (drop_blanks l)) in
  trim_loop fuel p (Z.of_nat (length l)) m = Ok ((p + j, Z.of_nat (length (drop_blanks l))), m).
Proof.
  revert p l. induction fuel as [|fuel IH]; intros p l Hl Hf j; [lia|]. subst j. cbn [trim_loop].
  destruct l as [|c l]; [cbn; by rewrite Z.add_0_r|]. rewrite (proj2 (Z.ltb_lt 0 _)) by (cbn [length]; lia).
  erewrite bind_run; [cbv beta|by apply cstr_head]. cbn [List.hd drop_blanks].
  apply cstr_tail in Hl as [_ Hl]. cbn [length] in Hf. pose proof (length_drop_blanks l).
  destruct (blank c); [|by rewrite Nat.sub_diag, Z.add_0_r]. cbn [length].
  replace (Z.of_nat (S (length l)) - 1) with (Z.of_nat (length l)) by lia. rewrite (IH (p + 1) l) by (done || lia).
  do 3 f_equal; lia.
Qed.
Lemma truncate_loop_run fuel m p l :
  cstr m p l -> (length l < fuel)%nat -> exists m', truncate_loop fuel p m = Ok (tt, m') /\
    (forall x, x < p \/ p + Z.of_nat (length l) <= x -> m' !! x = m !! x).
Proof.
  revert p l. induction fuel as [|fuel IH]; intros p l Hl Hf; [lia|]. cbn [truncate_loop].
  erewrite bind_run; [cbv beta|by apply cstr_head]. pose proof (cstr_mapped _ _ _ Hl) as Hm.
  assert (Hstop : (forall x, x < p \/ p + Z.of_nat (length l) <= x -> (<[p := 0]> m : mem) !! x = m !! x) ->
    exists m', st8 p 0 m = Ok (tt, m') /\
    (forall x, x < p \/ p + Z.of_nat (length l) <= x -> m' !! x = m !! x)).
  { intros H. exists (<[p := 0]> m). split; [|done]. apply st8_run. sub_mapped. }
  destruct l as [|c l]; cbn [List.hd].
  - change (negb (0 =? 32) && negb (0 =? 0))%bool with false. cbv iota. apply Hstop. intros x Hx.
    rewrite lookup_insert. case_decide; [|done]. subst. destruct Hl as [_ H0]. done.
  - destruct (negb (c =? 32) && negb (c =? 0))%bool.
    + apply cstr_tail in Hl as [_ Hl]. cbn [length] in *. destruct (IH _ _ Hl ltac:(lia)) as (m' & E & H).
      exists m'. split; [done|]. intros x Hx. apply H. lia.
    + apply Hstop. intros x Hx. cbn [length] in Hx. rewrite lookup_insert_ne; [done|lia].
Qed.

(** ** Memory that stays mapped *)
Lemma byte_mem_insert m x c : byte_mem m -> 0 <= c < 256 -> byte_mem (<[x := c]> m).
Proof. intros Hb Hc y d. rewrite lookup_insert. case_decide; [by intros [= <-]|apply Hb]. Qed.
Lemma is_Some_insert (m : mem) x y c : is_Some (m !! y) -> is_Some ((<[x := c]> m : mem) !! y).
Proof. intros H. rewrite lookup_insert. case_decide; [by eexists|done]. Qed.
(** a byte memory in which every address of [D] is mapped *)
Definition keeps (D : Z -> Prop) (m : mem) : Prop := byte_mem m /\ forall x, D x -> is_Some (m !! x).
Lemma pres_ld8 (I : mem -> Prop) p : preserves I (ld8 p).
Proof. unfold ld8. pres. Qed.
Lemma keeps_st8 D p c : preserves (keeps D) (st8 p c).
Proof.
  unfold st8. repeat pres1; auto with pres. apply pres_modify. intros m [Hb Hd]. split.
  - apply byte_mem_insert; [done|apply u8_range].
  - intros x Hx. apply is_Some_insert. auto.
Qed.
#[export] Hint Resolve pres_ld8 keeps_st8 : pres.
Ltac keeps_loop fuel := induction fuel; intros; cbn -[Z.add Z.mul]; pres.
Lemma keeps_strncmp_lit D n : forall a lit, preserves (keeps D) (strncmp_lit n a lit).
Proof. keeps_loop n. Qed.
Lemma keeps_strncmp_loop D fuel : forall a b n r, preserves (keeps D) (strncmp_loop fuel a b n r).
Proof. keeps_loop fuel. Qed.
Lemma keeps_strncmp D a b n : preserves (keeps D) (strncmp a b n).
Proof. pose proof keeps_strncmp_loop. unfold strncmp, rt_strncmp, str_fuel. pres. Qed.
#[export] Hint Resolve keeps_strncmp_lit keeps_strncmp : pres.
Lemma keeps_get_cmd D cmd size table : preserves (keeps D) (get_cmd_loop table cmd size).
Proof. induction table; cbn -[Z.add]; pres. Qed.
Lemma keeps_strip D fuel : forall p k n, preserves (keeps D) (strip_loop fuel p k n).
Proof. keeps_loop fuel. Qed.
Lemma keeps_quote D fuel : forall p k n, preserves (keeps D) (quote_loop fuel p k n).
Proof. keeps_loop fuel. Qed.
Lemma keeps_word D fuel : forall p k n, preserves (keeps D) (word_loop fuel p k n).
Proof. keeps_loop fuel. Qed.
Lemma keeps_trim D fuel : forall p n, preserves (keeps D) (trim_loop fuel p n).
Proof. keeps_loop fuel. Qed.
Lemma keeps_truncate D fuel : forall p, preserves (keeps D) (truncate_loop fuel p).
Proof. keeps_loop fuel. Qed.
#[export] Hint Resolve keeps_get_cmd keeps_strip keeps_quote keeps_word keeps_trim keeps_truncate : pres.
Lemma keeps_split D fuel : forall p k n argv, preserves (keeps D) (split_loop fuel p k n argv).
Proof. keeps_loop fuel. Qed.
#[export] Hint Resolve keeps_split : pres.

Section exec_spec.
Context (table : list finsh_syscall) (call : Z -> list Z -> M mem Z).

Lemma msh_exec_run (m : mem) (names : list (list Z * Z)) (cmd : Z) (l : list Z) :
  table_at m table names -> cstr m cmd l -> cmd <> 0 ->
  let line := drop_blanks l in
  let f := find_cmd names (word line).1 in
  (line = [] -> msh_exec table call cmd (Z.of_nat (length l)) m = Ok (0, m)) /\
  (line <> [] -> f = 0 ->
     wp (msh_exec table call cmd (Z.of_nat (length l))) (fun r m' => r = -1 /\
       forall x, x < cmd \/ cmd + Z.of_nat (length l) <= x -> m' !! x = m !! x) m) /\
  (line <> [] -> f <> 0 ->
     exists argv m', msh_exec table call cmd (Z.of_nat (length l)) m = call f argv m' /\
       Forall2 (cstr m') argv (tokens FINSH_ARG_MAX line) /\
       (forall x, x < cmd \/ cmd + Z.of_nat (length l) <= x -> m' !! x = m !! x) /\
       forall D, keeps D m -> keeps D m').
Proof.
  intros Ht Hl Hcmd line f. pose proof (length_drop_blanks l) as Hlen.
  pose proof (trim_loop_run (S (Z.to_nat (Z.of_nat (length l)))) m cmd l Hl ltac:(lia)) as Htrim. cbv zeta in Htrim.
  assert (Hline : cstr m (cmd + Z.of_nat (length l - length line)) line).
  { pose proof (cstr_drop _ _ _ (length l - length line) Hl ltac:(lia)) as H.
    unfold line in H. by rewrite drop_drop_blanks in H. }
  fold line in Htrim, Hlen. set (p := cmd + Z.of_nat (length l - length line)) in *.
  unfold msh_exec, wp. erewrite bind_run; [cbv beta|exact Htrim]. cbn [fst snd].
  split; [intros ->; done|].
  assert (Hex : line <> [] -> _msh_exec_cmd table call p (Z.of_nat (length line)) m =
    if f =? 0 then Ok ((- RT_ERROR, None), m)
    else (let* argv := msh_split p (Z.of_nat (length line)) in
          if (base.length argv =? 0)%nat then ret (- RT_ERROR, None)
          else let* retp := call f argv in ret (0, Some retp)) m).
  { intros Hne. unfold _msh_exec_cmd. pose proof (cstr_mapped _ _ _ Hl) as Hm.
    assert (Hp : p <> 0) by (destruct Hm; lia).
    rewrite (proj2 (Z.eqb_neq p 0)) by done. cbn [negb].
    erewrite bind_run; [cbv beta|reflexivity].
    erewrite bind_run; [cbv beta|apply (word_loop_run _ _ _ _ (Z.of_nat (length line)) line); [done|lia|lia]].
    cbn [fst snd]. rewrite Z.add_0_l.
    assert (Hw : (word line).1 <> []).
    { pose proof (hd_drop_blanks l) as Hb. fold line in Hb. destruct line as [|c k]; [done|]. cbn in Hb.
      cbn [word]. by rewrite Hb. }
    rewrite (proj2 (Z.eqb_neq _ 0)) by (destruct (word line).1; [done|cbn [length]; lia]).
    unfold msh_get_cmd. erewrite bind_run; [cbv beta|].
    2: { apply (get_cmd_loop_run m table names p (word line).1 (word line).2); [done| |done].
         by rewrite word_app. }
    fold f. by destruct (f =? 0). }
  split; intros Hne Hf.
  - rewrite (proj2 (Z.eqb_neq _ 0)) by (destruct line; [done|cbn [length]; lia]).
    erewrite bind_run; [cbv beta|rewrite Hex, Hf by done; reflexivity]. change (- RT_ERROR) with (-1). cbv iota.
    erewrite bind_run; [cbv beta|reflexivity].
    destruct (truncate_loop_run (S (base.size m)) m p line Hline) as (m' & E & Hx).
    { pose proof (cstr_size _ _ _ Hline). lia. }
    erewrite bind_run; [cbv beta|exact E]. split; [done|]. intros x Hx0. apply Hx. unfold p. lia.
  - rewrite (proj2 (Z.eqb_neq _ 0)) by (destruct line; [done|cbn [length]; lia]).
    destruct (msh_split_run m p line Hline) as (argv & m' & E & H1 & H2).
    exists argv, m'. split_and!; [|done|intros x Hx0; apply H2; unfold p; lia|].
    2: { intros D HD. by eapply keeps_split; [|exact E]. }
    assert (Ha : argv <> []).
    { intros ->. apply Forall2_nil_inv_l in H1. pose proof (hd_drop_blanks l) as Hb. fold line in Hb.
      unfold FINSH_ARG_MAX in H1. cbn [tokens] in H1. destruct line as [|c k]; [done|]. cbn in Hb.
      cbn [drop_blanks] in H1. rewrite Hb in H1. by destruct (c =? 34). }
    specialize (Hex Hne). rewrite (proj2 (Z.eqb_neq f 0)) in Hex by done.
    rewrite (bind_run _ _ _ _ _ E) in Hex. destruct argv as [|a argv]; [done|]. cbn [base.length Nat.eqb] in Hex.
    unfold bind in Hex |- *. rewrite Hex. by destruct (call f (a :: argv) m') as [[r m2]|].
Qed.

(** msh_exec ignores an empty line, calls the command whose name is the
    first word with the arguments of the line and returns its result, and
    otherwise returns -1, with changes only inside of the line. *)
Theorem msh_exec_spec (m : mem) (names : list (list Z * Z)) (cmd : Z) (l : list Z) :
  table_at m table names -> cstr m cmd l -> cmd <> 0 ->
  let line := drop_blanks l in
  let f := find_cmd names (word line).1 in
  (line = [] -> msh_exec table call cmd (Z.of_nat (length l)) m = Ok (0, m)) /\
  (line <> [] -> f = 0 ->
     wp (msh_exec table call cmd (Z.of_nat (length l))) (fun r m' => r = -1 /\
       forall x, x < cmd \/ cmd + Z.of_nat (length l) <= x -> m' !! x = m !! x) m) /\
  (line <> [] -> f <> 0 ->
     exists argv m', msh_exec table call cmd (Z.of_nat (length l)) m = call f argv m' /\
       Forall2 (cstr m') argv (tokens FINSH_ARG_MAX line) /\
       forall x, x < cmd \/ cmd + Z.of_nat (length l) <= x -> m' !! x = m !! x).
Proof.
  intros Ht Hl Hc line f. destruct (msh_exec_run m names cmd l Ht Hl Hc) as (H1 & H2 & H3).
  split_and!; [done|done|]. intros Hne Hf. destruct (H3 Hne Hf) as (argv & m' & ? & ? & ? & _). by exists argv, m'.
Qed.
End exec_spec.
