(* ===== verification/Shell.v ===== *)
(** The shell thread, components/finsh/shell.c: the prompt and the line
    editor, in the configuration of the port (no history, no
    auto-completion, no password, console input by polling).  The line is a
    buffer of FINSH_CMD_SIZE bytes in memory; the console output is recorded.
    rt_kprintf prints at most 254 bytes at a time. *)
From S2P Require Import Prelude KService Mem Heap KString Libc Msh.

Definition FINSH_CMD_SIZE : Z := 80.
Inductive input_stat := WAIT_NORMAL | WAIT_SPEC_KEY | WAIT_FUNC_KEY.

(** struct finsh_shell, with the address of [line], the custom prompt, the
    memory and what has been printed *)
Record finsh_shell := {
  stat : input_stat;
  echo_mode : bool;
  prompt_mode : bool;
  line : Z;
  line_position : Z;
  line_curpos : Z;
  finsh_prompt_custom : option (list Z);
  smem : mem;
  out : list Z;
}.
Definition set_stat v s := {| stat := v; echo_mode := echo_mode s; prompt_mode := prompt_mode s;
  line := line s; line_position := line_position s; line_curpos := line_curpos s;
  finsh_prompt_custom := finsh_prompt_custom s; smem := smem s; out := out s |}.
Definition set_echo v s := {| stat := stat s; echo_mode := v; prompt_mode := prompt_mode s;
  line := line s; line_position := line_position s; line_curpos := line_curpos s;
  finsh_prompt_custom := finsh_prompt_custom s; smem := smem s; out := out s |}.
Definition set_prompt_mode v s := {| stat := stat s; echo_mode := echo_mode s; prompt_mode := v;
  line := line s; line_position := line_position s; line_curpos := line_curpos s;
  finsh_prompt_custom := finsh_prompt_custom s; smem := smem s; out := out s |}.
Definition set_pos p c s := {| stat := stat s; echo_mode := echo_mode s; prompt_mode := prompt_mode s;
  line := line s; line_position := p; line_curpos := c;
  finsh_prompt_custom := finsh_prompt_custom s; smem := smem s; out := out s |}.
Definition set_smem v s := {| stat := stat s; echo_mode := echo_mode s; prompt_mode := prompt_mode s;
  line := line s; line_position := line_position s; line_curpos := line_curpos s;
  finsh_prompt_custom := finsh_prompt_custom s; smem := v; out := out s |}.
Definition add_out l s := {| stat := stat s; echo_mode := echo_mode s; prompt_mode := prompt_mode s;
  line := line s; line_position := line_position s; line_curpos := line_curpos s;
  finsh_prompt_custom := finsh_prompt_custom s; smem := smem s; out := out s ++ l |}.

Abbreviation Sh := (M finsh_shell).
Definition on_mem {A} (m : M mem A) : Sh A := fun s =>
  match m (smem s) with Ok (a, r) => Ok (a, set_smem r s) | Fault f => Fault f end.

(** * Printing *)
(** RT_CONSOLEBUF_SIZE is 256; rt_kprintf formats into 255 bytes *)
Definition kputs (l : list Z) : Sh unit := modify (add_out (take 254 l)).
(** the text of a C string *)
Fixpoint text_loop (fuel : nat) (p : Z) : M mem (list Z) :=
  match fuel with
  | O => raise OutOfFuel
  | S fuel =>
      let* c := ld8 p in
      if c =? 0 then ret [] else let* l := text_loop fuel (p + 1) in ret (c :: l)
  end.
Definition text_at (p : Z) : M mem (list Z) := let* fuel := str_fuel in text_loop fuel p.
(** rt_kprintf("%c"): a NUL ends the text *)
Definition kputc (c : Z) : Sh unit := kputs (if c =? 0 then [] else [c]).
Fixpoint backspaces (n : nat) : Sh unit :=
  match n with O => ret tt | S n => kputs [8];; backspaces n end.

(** * The prompt and the modes *)
(** "msh " and ">" *)
Definition _MSH_PROMPT : list Z := [109; 115; 104; 32].
Definition finsh_get_prompt : Sh (list Z) :=
  let* s := get in
  if negb (prompt_mode s) then ret []
  else match finsh_prompt_custom s with
       (* strncpy: a prompt that does not fit makes it write without end *)
       | Some p => if (length p <? 256)%nat then ret p else raise Undefined
       | None => ret (_MSH_PROMPT ++ [62])
       end.
Definition finsh_get_prompt_mode : Sh Z := gets (fun s => Z.b2z (prompt_mode s)).
(** the mode is a bit field of one bit *)
Definition finsh_set_prompt_mode (m : Z) : Sh unit := modify (set_prompt_mode (Z.odd m)).
Definition finsh_get_echo : Sh Z := gets (fun s => Z.b2z (echo_mode s)).
Definition finsh_set_echo (echo : Z) : Sh unit := modify (set_echo (Z.odd echo)).

Section keys.
Context (table : list finsh_syscall) (call : Z -> list Z -> M mem Z).

(** rt_kprintf(FINSH_PROMPT): the prompt is the format, so a '%' in it takes
    an argument that is not there *)
Definition print_prompt : Sh unit :=
  let* p := finsh_get_prompt in if bool_decide (37 ∈ p) then raise Undefined else kputs p.

(** msh_auto_complete is not compiled in *)
Definition shell_auto_complete (prefix : Z) : Sh unit :=
  kputs [10];;
  let* p := finsh_get_prompt in
  let* t := on_mem (text_at prefix) in
  kputs (p ++ t).

(** * Keys *)
Definition left_key : Sh unit :=
  let* s := get in
  when (truthy (line_curpos s))
    (kputs [8];; modify (set_pos (line_position s) (u16 (line_curpos s - 1)))).
Definition right_key : Sh unit :=
  let* s := get in
  when (line_curpos s <? line_position s)
    (let* c := on_mem (ld8 (line s + line_curpos s)) in
     kputc c;; modify (set_pos (line_position s) (u16 (line_curpos s + 1)))).
Definition tab_key : Sh unit :=
  let* s := get in
  backspaces (Z.to_nat (line_curpos s));;
  shell_auto_complete (line s);;
  let* n := on_mem (strlen (line s)) in
  modify (set_pos (u16 n) (u16 n)).
Definition backspace_key : Sh unit :=
  let* s := get in
  if line_curpos s =? 0 then ret tt
  else
    let position := u16 (line_position s - 1) in
    let curpos := u16 (line_curpos s - 1) in
    modify (set_pos position curpos);;
    if curpos <? position then
      on_mem (rt_memmove (line s + curpos) (line s + curpos + 1) (position - curpos));;
      on_mem (st8 (line s + position) 0);;
      let* t := on_mem (text_at (line s + curpos)) in
      kputs ([8] ++ t ++ [32; 32; 8]);;
      backspaces (Z.to_nat (position - curpos + 1))
    else
      kputs [8; 32; 8];;
      on_mem (st8 (line s + position) 0).
Definition enter_key : Sh unit :=
  let* s := get in
  when (echo_mode s) (kputs [10]);;
  on_mem (msh_exec table call (line s) (line_position s));;
  print_prompt;;
  on_mem (memset (line s) 0 FINSH_CMD_SIZE);;
  modify (set_pos 0 0).
Definition char_key (ch : Z) : Sh unit :=
  (* it's a large line, discard it *)
  let* s := get in
  when (FINSH_CMD_SIZE <=? line_position s) (modify (set_pos 0 (line_curpos s)));;
  let* s := get in
  (if line_curpos s <? line_position s then
     on_mem (rt_memmove (line s + line_curpos s + 1) (line s + line_curpos s) (line_position s - line_curpos s));;
     on_mem (st8 (line s + line_curpos s) ch);;
     when (echo_mode s) (let* t := on_mem (text_at (line s + line_curpos s)) in kputs t);;
     backspaces (Z.to_nat (line_position s - line_curpos s))
   else
     on_mem (st8 (line s + line_position s) ch);;
     when (echo_mode s) (kputc ch));;
  let* s := get in
  modify (set_pos (u16 (line_position s + 1)) (u16 (line_curpos s + 1)));;
  let* s := get in
  when (FINSH_CMD_SIZE <=? line_position s) (modify (set_pos 0 0)).

(** no input: the thread sleeps for a millisecond before it polls again *)
Inductive action := Continue | Delay.
Definition normal_key (ch : Z) : Sh action :=
  if ((ch =? 0) || (ch =? 255))%bool then ret Delay
  else if ch =? 9 then tab_key;; ret Continue
  else if ((ch =? 127) || (ch =? 8))%bool then backspace_key;; ret Continue
  else if ((ch =? 13) || (ch =? 10))%bool then enter_key;; ret Continue
  else char_key ch;; ret Continue.

(** the body of the loop of finsh_thread_entry *)
Definition finsh_key (ch : Z) : Sh action :=
  let* s := get in
  if ch =? 27 then modify (set_stat WAIT_SPEC_KEY);; ret Continue
  else match stat s with
  | WAIT_SPEC_KEY =>
      if ch =? 91 then modify (set_stat WAIT_FUNC_KEY);; ret Continue
      else modify (set_stat WAIT_NORMAL);; normal_key ch
  | WAIT_FUNC_KEY =>
      modify (set_stat WAIT_NORMAL);;
      if ch =? 65 then ret Continue
      else if ch =? 66 then ret Continue
      else if ch =? 68 then left_key;; ret Continue
      else if ch =? 67 then right_key;; ret Continue
      else normal_key ch
  | WAIT_NORMAL => normal_key ch
  end.
(** finsh_thread_entry up to the loop, and the loop for the keys [chs] *)
Definition finsh_thread_entry (chs : list Z) : Sh unit :=
  modify (set_echo true);;
  print_prompt;;
  for_each (fun ch => let* _a := finsh_key ch in ret tt) chs.
End keys.
