(* ===== verification/ShellSpec.v ===== *)
(** What the shell's line editor does: a one-line terminal that interprets the
    console output, the relation [shows] between the shell, its line in memory
    and that terminal, one lemma per key, and the theorems on editing
    ([finsh_edits]) and on a whole session ([finsh_session]). *)
From S2P Require Import Prelude KService Mem Heap KString Libc Msh Shell.

(** * The terminal *)

(** one line of a terminal: its cells, the column of the cursor, and the
    characters of an escape sequence that has not ended *)
Record term := { cells : list Z; col : nat; pending : list Z }.
(** a control sequence: ESC [ 2 K erases the line; others are ignored *)
Definition control (t : term) (seq : list Z) : term :=
  {| cells := if bool_decide (seq = [27; 91; 50; 75]) then replicate (length (cells t)) 32 else cells t;
     col := col t; pending := [] |}.
(** ESC, '[', parameters, and a final character from '@' on *)
Definition term_put (t : term) (c : Z) : term :=
  if negb (bool_decide (pending t = [])) then
    let seq := pending t ++ [c] in
    if (64 <=? c) && (1 <? length (pending t))%nat then control t seq
    else {| cells := cells t; col := col t; pending := seq |}
  else if c =? 8 then {| cells := cells t; col := pred (col t); pending := [] |}
  else if c =? 10 then {| cells := []; col := 0; pending := [] |}
  else if c =? 13 then {| cells := cells t; col := 0; pending := [] |}
  else if c =? 27 then {| cells := cells t; col := col t; pending := [27] |}
  else {| cells := take (col t) (cells t) ++ c :: drop (S (col t)) (cells t); col := S (col t); pending := [] |}.
(** what is on the screen after the output [l] *)
Definition display (l : list Z) : term := fold_left term_put l {| cells := []; col := 0; pending := [] |}.

(** the text [a] before the cursor and [b] from the cursor on *)
Definition screen (a b : list Z) : term := {| cells := a ++ b; col := length a; pending := [] |}.
Definition printable (c : Z) : Prop := 32 <= c < 127.

Lemma put_char_screen a b c : printable c -> term_put (screen a b) c = screen (a ++ [c]) (drop 1 b).
Proof.
  intros Hc. unfold term_put, screen, printable in *. cbn [cells col pending]. rewrite bool_decide_eq_true_2 by done. cbn [negb].
  rewrite (proj2 (Z.eqb_neq c 8)), (proj2 (Z.eqb_neq c 10)), (proj2 (Z.eqb_neq c 13)), (proj2 (Z.eqb_neq c 27)) by lia.
  rewrite take_app_length, length_app. cbn [length]. f_equal; [|lia].
  rewrite <- app_assoc. do 2 f_equal. rewrite drop_app_ge by lia.
  by replace (S (length a) - length a)%nat with 1%nat by lia.
Qed.
Lemma put_text_screen t : forall a b, Forall printable t ->
  fold_left term_put t (screen a b) = screen (a ++ t) (drop (length t) b).
Proof.
  induction t as [|c t IH]; intros a b Ht; cbn [fold_left length].
  - by rewrite app_nil_r, drop_0.
  - apply Forall_cons in Ht as [Hc Ht]. rewrite put_char_screen, IH by done.
    rewrite <- app_assoc, drop_drop. done.
Qed.
Lemma back_screen u : forall a b,
  fold_left term_put (replicate (length u) 8) (screen (a ++ u) b) = screen a (u ++ b).
Proof.
  induction u as [|c u IH] using rev_ind; intros a b; [by rewrite app_nil_r|].
  rewrite length_app. cbn [length]. rewrite Nat.add_comm. cbn [Nat.add replicate fold_left].
  assert (E : term_put (screen (a ++ u ++ [c]) b) 8 = screen (a ++ u) (c :: b)).
  { unfold term_put, screen. cbn [cells col pending]. rewrite bool_decide_eq_true_2 by done. cbn [negb]. change (8 =? 8) with true. cbv iota. f_equal.
    - by rewrite <- !app_assoc.
    - rewrite !length_app. cbn [length]. lia. }
  rewrite E, IH. by rewrite <- app_assoc.
Qed.

(** * The editor *)

(** the 80 bytes at [a] hold the text [l ++ r], and 0 behind it *)
Record holds (m : mem) (a : Z) (l r : list Z) : Prop := {
  ho_bytes : byte_mem m;
  ho_mapped : mapped m a FINSH_CMD_SIZE;
  ho_end : a <> 0 /\ a + FINSH_CMD_SIZE < 4294967296;
  ho_len : (length l + length r < 80)%nat;
  ho_text : Forall printable (l ++ r);
  ho_line : forall i c, (l ++ r ++ replicate (80 - length l - length r) 0) !! i = Some c ->
    m !! (a + Z.of_nat i) = Some c;
}.
(** the prompt that is shown *)
Definition prompt_of (s : finsh_shell) : list Z :=
  if negb (prompt_mode s) then []
  else match finsh_prompt_custom s with Some p => p | None => _MSH_PROMPT ++ [62] end.
Definition prompt_ok (p : list Z) : Prop := Forall printable p /\ (37 ∉ p) /\ (length p <= 128)%nat.

(** the shell edits the line [l ++ r] with the cursor behind [l], and the
    terminal shows it *)
Record shows (s : finsh_shell) (l r : list Z) : Prop := {
  sh_stat : stat s = WAIT_NORMAL;
  sh_echo : echo_mode s = true;
  sh_prompt : prompt_ok (prompt_of s);
  sh_position : line_position s = Z.of_nat (length l + length r);
  sh_curpos : line_curpos s = Z.of_nat (length l);
  sh_holds : holds (smem s) (line s) l r;
  sh_screen : exists k, display (out s) = screen (prompt_of s ++ l) (r ++ replicate k 32);
}.

(** the shell's memory changes only in its line *)
Definition line_of (s : finsh_shell) (x : Z) : Prop := line s <= x < line s + FINSH_CMD_SIZE.
Definition frame (s s' : finsh_shell) : Prop :=
  line s' = line s /\ forall x, ~ line_of s x -> smem s' !! x = smem s !! x.
Lemma frame_refl s s' : line s' = line s -> smem s' = smem s -> frame s s'.
Proof. intros E1 E2. split; [done|]. intros. by rewrite E2. Qed.
Lemma frame_trans s1 s2 s3 : frame s1 s2 -> frame s2 s3 -> frame s1 s3.
Proof.
  intros [L1 F1] [L2 F2]. split; [congruence|]. intros x Hx. rewrite F2, F1; [done|done|].
  unfold line_of in *. by rewrite L1.
Qed.

(** ** Reading the text *)
Lemma holds_cstr m a l r : holds m a l r -> cstr m (a + Z.of_nat (length l)) r.
Proof.
  intros [Hb Hm He Hlen Ht Hl]. destruct Hm as (Ha & _ & _). unfold FINSH_CMD_SIZE in *.
  apply Forall_app in Ht as [_ Ht]. apply cstr_intro; [lia|lia| |].
  - eapply Forall_impl; [exact Ht|]. unfold printable. intros c Hc. lia.
  - intros i c Hi. replace (a + Z.of_nat (length l) + Z.of_nat i) with (a + Z.of_nat (length l + i)) by lia.
    apply Hl. rewrite lookup_app_r by lia. replace (length l + i - length l)%nat with i by lia.
    destruct (80 - length l - length r)%nat as [|k] eqn:Ek; [lia|]. cbn [replicate].
    rewrite cons_middle, app_assoc. rewrite lookup_app_l; [done|by eapply lookup_lt_Some].
Qed.
(** the cursor may be anywhere in the text *)
Lemma holds_split m a l r l' r' : l ++ r = l' ++ r' -> holds m a l r -> holds m a l' r'.
Proof.
  intros E [Hb Hm He Hlen Ht Hl]. pose proof (f_equal length E) as El. rewrite !length_app in El.
  split; [done|done|done|lia|by rewrite <- E|]. intros i c Hi. apply Hl.
  rewrite app_assoc, E, <- app_assoc. by replace (80 - length l - length r)%nat with (80 - length l' - length r')%nat by lia.
Qed.
Lemma text_loop_run fuel m p l :
  cstr m p l -> (length l < fuel)%nat -> text_loop fuel p m = Ok (l, m).
Proof.
  revert p l. induction fuel as [|fuel IH]; intros p l Hl Hf; [lia|]. cbn [text_loop].
  erewrite bind_run; [cbv beta|by apply cstr_head]. destruct l as [|c l]; cbn [List.hd length] in *; [done|].
  apply cstr_tail in Hl as [Hc Hl]. rewrite (proj2 (Z.eqb_neq c 0)) by lia.
  erewrite bind_run; [|apply (IH _ l); (done || lia)]. done.
Qed.
Lemma text_at_run m p l : cstr m p l -> text_at p m = Ok (l, m).
Proof.
  intros Hl. unfold text_at, str_fuel. erewrite bind_run; [cbv beta|reflexivity].
  apply text_loop_run; [done|]. pose proof (cstr_size _ _ _ Hl). lia.
Qed.
Lemma holds_text m a l r : holds m a l r -> text_at (a + Z.of_nat (length l)) m = Ok (r, m).
Proof. intros H. by apply text_at_run, holds_cstr. Qed.

(** ** Changing the text *)
Lemma holds_intro m m' a l r l' r' :
  holds m a l r -> byte_mem m' -> (forall x, is_Some (m !! x) -> is_Some (m' !! x)) ->
  (length l' + length r' < 80)%nat -> Forall printable (l' ++ r') ->
  (forall i c, (l' ++ r' ++ replicate (80 - length l' - length r') 0) !! i = Some c ->
    m' !! (a + Z.of_nat i) = Some c) -> holds m' a l' r'.
Proof.
  intros [Hb Hm He Hlen Ht Hl] Hb' Hd Hlen' Ht' Hl'. split; try done.
  destruct Hm as (H0 & H1 & H2). split_and!; [done|done|]. intros x Hx. by apply Hd, H2.
Qed.
Lemma is_Some_copied m m' dst src n y :
  copied m m' dst src n -> mapped m src n -> is_Some (m !! y) -> is_Some (m' !! y).
Proof.
  intros Hc (_ & _ & Hm) Hy. rewrite Hc. case_decide; [|done]. apply Hm. lia.
Qed.
(** a lookup in the line by cases *)
Lemma line_lookup (l r : list Z) n i :
  (l ++ r ++ replicate n 0) !! i =
    if decide (i < length l)%nat then l !! i
    else if decide (i < length l + length r)%nat then r !! (i - length l)%nat
    else if decide (i < length l + length r + n)%nat then Some 0 else None.
Proof.
  repeat case_decide.
  - by rewrite lookup_app_l by lia.
  - by rewrite lookup_app_r, lookup_app_l by lia.
  - rewrite lookup_app_r, lookup_app_r by lia. apply lookup_replicate_2. lia.
  - apply lookup_ge_None_2. rewrite !length_app, length_replicate. lia.
Qed.
Lemma holds_lookup m a l r i : holds m a l r -> (i < 80)%nat ->
  m !! (a + Z.of_nat i) =
    if decide (i < length l)%nat then l !! i
    else if decide (i < length l + length r)%nat then r !! (i - length l)%nat else Some 0.
Proof.
  intros H Hi. pose proof (ho_len _ _ _ _ H) as Hlen.
  destruct ((l ++ r ++ replicate (80 - length l - length r) 0) !! i) as [c|] eqn:E.
  - rewrite (ho_line _ _ _ _ H i c E). rewrite line_lookup in E. rewrite <- E.
    repeat case_decide; (done || lia).
  - apply lookup_ge_None_1 in E. rewrite !length_app, length_replicate in E. lia.
Qed.

Lemma holds_range m a l r : holds m a l r -> 0 < a /\ a + 80 < 4294967296 /\ mapped m a 80.
Proof. intros [_ Hm [? ?] _ _ _]. pose proof Hm as (? & _). unfold FINSH_CMD_SIZE in *. split_and!; [lia|lia|done]. Qed.

(** a character is stored, behind the text after the cursor has been moved up *)
Lemma holds_insert m a l r c :
  holds m a l r -> printable c -> (length l + length r < 79)%nat ->
  exists m1, (if (0 <? length r)%nat then
      (let* _p := rt_memmove (a + Z.of_nat (length l) + 1) (a + Z.of_nat (length l)) (Z.of_nat (length r)) in
       st8 (a + Z.of_nat (length l)) c) else st8 (a + Z.of_nat (length l)) c) m = Ok (tt, m1) /\
    holds m1 a (l ++ [c]) r /\ forall x, ~ (a <= x < a + FINSH_CMD_SIZE) -> m1 !! x = m !! x.
Proof.
  intros H Hc Hlen. destruct (holds_range _ _ _ _ H) as (R1 & R2 & Hm).
  unfold printable in Hc.
  assert (Hmv : exists m1, (if (0 <? length r)%nat then
      rt_memmove (a + Z.of_nat (length l) + 1) (a + Z.of_nat (length l)) (Z.of_nat (length r)) else ret 0) m =
      Ok (if (0 <? length r)%nat then a + Z.of_nat (length l) + 1 else 0, m1) /\
    copied m m1 (a + Z.of_nat (length l) + 1) (a + Z.of_nat (length l)) (Z.of_nat (length r)) /\
    mapped m (a + Z.of_nat (length l)) (Z.of_nat (length r))).
  { assert (Hsrc : mapped m (a + Z.of_nat (length l)) (Z.of_nat (length r)))
      by (eapply mapped_sub; [exact Hm|lia..]).
    destruct (Nat.ltb_spec 0 (length r)).
    - destruct (rt_memmove_run m (a + Z.of_nat (length l) + 1) (a + Z.of_nat (length l)) (Z.of_nat (length r)))
        as (m1 & E & Hcp); [done|eapply mapped_sub; [exact Hm|lia..]|by destruct H|lia|lia|]. by exists m1.
    - exists m. split_and!; [done| |done]. by apply copied_refl; lia. }
  destruct Hmv as (m1 & Emv & Hcp & Hsrc).
  assert (Hst : st8 (a + Z.of_nat (length l)) c m1 = Ok (tt, <[a + Z.of_nat (length l) := c]> m1)).
  { rewrite st8_run; [by rewrite u8_small by lia|]. split_and!; [lia|lia|]. intros x Hx.
    eapply is_Some_copied; [exact Hcp|done|]. destruct Hm as (_ & _ & Hm). apply Hm. lia. }
  exists (<[a + Z.of_nat (length l) := c]> m1). split.
  { destruct (0 <? length r)%nat; [by erewrite bind_run; [|exact Emv]|].
    injection Emv as <-. done. }
  split.
  2: { unfold FINSH_CMD_SIZE. intros x Hx. rewrite lookup_insert_ne, Hcp by lia. by rewrite decide_False by lia. }
  eapply holds_intro; [exact H|..].
  - apply byte_mem_insert; [|lia]. eapply copied_byte_mem; [exact Hcp|by destruct H].
  - intros x Hx. apply is_Some_insert. by eapply is_Some_copied.
  - rewrite length_app. cbn [length]. lia.
  - pose proof (ho_text _ _ _ _ H) as Ht. apply Forall_app in Ht as [H1 H2].
    rewrite !Forall_app. split_and!; [done|constructor; [exact Hc|constructor]|done].
  - intros i d Hi. rewrite line_lookup, !length_app in Hi. cbn [length] in Hi.
    rewrite lookup_insert. destruct (decide (a + Z.of_nat (length l) = a + Z.of_nat i)) as [E|E].
    { assert (i = length l) as -> by lia. rewrite decide_True in Hi by lia.
      rewrite lookup_app_r, Nat.sub_diag in Hi by lia. done. }
    rewrite Hcp. destruct (decide (i < length l)%nat).
    { rewrite decide_False by lia. rewrite (holds_lookup _ _ _ _ i H) by lia. rewrite decide_True by lia.
      rewrite decide_True, lookup_app_l in Hi by lia. done. }
    rewrite decide_False in Hi by lia. destruct (decide (i < length l + 1 + length r)%nat).
    { rewrite decide_True by lia.
      replace (_ - _ + _) with (a + Z.of_nat (i - 1)) by lia.
      rewrite (holds_lookup _ _ _ _ (i - 1) H) by lia. rewrite decide_False, decide_True by lia.
      rewrite <- Hi. f_equal. lia. }
    rewrite decide_False by lia. case_decide; [|done].
    rewrite (holds_lookup _ _ _ _ i H) by lia. by rewrite !decide_False by lia.
Qed.

(** the character before the cursor is removed *)
Lemma holds_delete m a l x r :
  holds m a (l ++ [x]) r ->
  exists m1, (if (0 <? length r)%nat then
      (let* _p := rt_memmove (a + Z.of_nat (length l)) (a + Z.of_nat (length l) + 1) (Z.of_nat (length r)) in
       st8 (a + Z.of_nat (length l + length r)) 0) else st8 (a + Z.of_nat (length l + length r)) 0) m = Ok (tt, m1) /\
    holds m1 a l r /\ forall x, ~ (a <= x < a + FINSH_CMD_SIZE) -> m1 !! x = m !! x.
Proof.
  intros H. destruct (holds_range _ _ _ _ H) as (R1 & R2 & Hm).
  pose proof (ho_len _ _ _ _ H) as Hlen. rewrite length_app in Hlen. cbn [length] in Hlen.
  assert (Hsrc : mapped m (a + Z.of_nat (length l) + 1) (Z.of_nat (length r)))
    by (eapply mapped_sub; [exact Hm|lia..]).
  assert (Hmv : exists m1, (if (0 <? length r)%nat then
      rt_memmove (a + Z.of_nat (length l)) (a + Z.of_nat (length l) + 1) (Z.of_nat (length r)) else ret 0) m =
      Ok (if (0 <? length r)%nat then a + Z.of_nat (length l) else 0, m1) /\
    copied m m1 (a + Z.of_nat (length l)) (a + Z.of_nat (length l) + 1) (Z.of_nat (length r))).
  { destruct (Nat.ltb_spec 0 (length r)).
    - destruct (rt_memmove_run m (a + Z.of_nat (length l)) (a + Z.of_nat (length l) + 1) (Z.of_nat (length r)))
        as (m1 & E & Hcp); [done|eapply mapped_sub; [exact Hm|lia..]|by destruct H|lia|lia|]. by exists m1.
    - exists m. split_and!; [done|]. by apply copied_refl; lia. }
  destruct Hmv as (m1 & Emv & Hcp). set (e := a + Z.of_nat (length l + length r)).
  assert (Hst : st8 e 0 m1 = Ok (tt, <[e := 0]> m1)).
  { rewrite st8_run; [done|]. split_and!; [lia|lia|]. intros y Hy.
    eapply is_Some_copied; [exact Hcp|done|]. destruct Hm as (_ & _ & Hm). apply Hm. lia. }
  exists (<[e := 0]> m1). split.
  { destruct (0 <? length r)%nat; [by erewrite bind_run; [|exact Emv]|]. injection Emv as <-. done. }
  split.
  2: { unfold FINSH_CMD_SIZE. intros y Hy. rewrite lookup_insert_ne, Hcp by lia. by rewrite decide_False by lia. }
  eapply holds_intro; [exact H|..].
  - apply byte_mem_insert; [|lia]. eapply copied_byte_mem; [exact Hcp|by destruct H].
  - intros y Hy. apply is_Some_insert. by eapply is_Some_copied.
  - lia.
  - pose proof (ho_text _ _ _ _ H) as Ht. rewrite !Forall_app in Ht. rewrite Forall_app. tauto.
  - intros i d Hi. rewrite line_lookup in Hi. rewrite lookup_insert.
    assert (Hi80 : (i < 80)%nat) by (repeat case_decide; (lia || done)).
    pose proof (holds_lookup _ _ _ _ i H Hi80) as Ei. rewrite length_app in Ei. cbn [length] in Ei.
    destruct (decide (e = a + Z.of_nat i)) as [E|E].
    { rewrite decide_False, decide_False, decide_True in Hi by lia. done. }
    rewrite Hcp. destruct (decide (i < length l)%nat).
    { rewrite decide_False, Ei, decide_True, lookup_app_l by lia. done. }
    destruct (decide (i < length l + length r)%nat).
    { rewrite decide_True by lia. replace (_ - _ + _) with (a + Z.of_nat (i + 1)) by lia.
      rewrite (holds_lookup _ _ _ _ (i + 1) H) by lia. rewrite length_app. cbn [length].
      rewrite decide_False, decide_True by lia. rewrite <- Hi. f_equal. lia. }
    rewrite decide_False, Ei, !decide_False by lia. rewrite decide_True in Hi by lia. done.
Qed.

(** ** Keys *)
Lemma on_mem_run {A} (m : M mem A) a m' s : m (smem s) = Ok (a, m') -> on_mem m s = Ok (a, set_smem m' s).
Proof. intros E. unfold on_mem. by rewrite E. Qed.
Lemma set_smem_id s : set_smem (smem s) s = s.
Proof. by destruct s. Qed.
(** reading does not change the state *)
Lemma on_mem_read {A} (m : M mem A) a s : m (smem s) = Ok (a, smem s) -> on_mem m s = Ok (a, s).
Proof. intros E. rewrite (on_mem_run m a (smem s)) by done. by rewrite set_smem_id. Qed.
Lemma kputs_run l s : (length l <= 254)%nat -> kputs l s = Ok (tt, add_out l s).
Proof. intros H. unfold kputs, modify. by rewrite take_ge by lia. Qed.
Lemma backspaces_run n s : backspaces n s = Ok (tt, add_out (replicate n 8) s).
Proof.
  revert s. induction n as [|n IH]; intros s; cbn [backspaces replicate].
  - unfold ret, add_out. rewrite app_nil_r. by destruct s.
  - erewrite bind_run; [cbv beta|apply kputs_run; cbn; lia]. rewrite IH. unfold add_out. cbn.
    by rewrite <- app_assoc.
Qed.
Lemma display_app l t : display (l ++ t) = fold_left term_put t (display l).
Proof. apply fold_left_app. Qed.

Lemma shows_bounds s l r : shows s l r ->
  line_position s = Z.of_nat (length l + length r) /\ line_curpos s = Z.of_nat (length l) /\
  (length l + length r < 80)%nat /\ (length (prompt_of s) <= 128)%nat.
Proof. intros [_ _ (_ & _ & ?) ? ? Hh _]. pose proof (ho_len _ _ _ _ Hh). done. Qed.

Lemma left_key_run s l x r : shows s (l ++ [x]) r ->
  exists s', left_key s = Ok (tt, s') /\ shows s' l (x :: r) /\ frame s s'.
Proof.
  intros H. destruct (shows_bounds _ _ _ H) as (Ep & Ec & Hlen & _). rewrite length_app in *. cbn [length] in *.
  destruct H as [H1 H2 H3 H4 H5 H6 (k & H7)]. unfold left_key.
  erewrite bind_run; [cbv beta|reflexivity]. unfold truthy. rewrite (proj2 (Z.eqb_neq _ 0)) by lia. cbn [negb when].
  erewrite bind_run; [cbv beta|apply kputs_run; cbn; lia]. eexists. split; [reflexivity|].
  split; [|by apply frame_refl]. split; cbn [stat echo_mode line_position line_curpos smem line out add_out set_pos]; try done.
  - rewrite Ep. cbn [length]. lia.
  - rewrite Ec, u16_small; lia.
  - eapply holds_split; [|exact H6]. by rewrite <- app_assoc.
  - exists k. rewrite display_app, H7, app_assoc. apply (back_screen [x]).
Qed.
Lemma right_key_run s l x r : shows s l (x :: r) ->
  exists s', right_key s = Ok (tt, s') /\ shows s' (l ++ [x]) r /\ frame s s'.
Proof.
  intros H. destruct (shows_bounds _ _ _ H) as (Ep & Ec & Hlen & _). cbn [length] in *.
  destruct H as [H1 H2 H3 H4 H5 H6 (k & H7)]. unfold right_key.
  erewrite bind_run; [cbv beta|reflexivity]. rewrite (proj2 (Z.ltb_lt _ _)) by lia. cbn [when].
  pose proof (holds_cstr _ _ _ _ H6) as Hc. rewrite <- Ec in Hc.
  erewrite bind_run; [cbv beta|apply on_mem_read; by eapply cstr_ld8].
  pose proof (ho_text _ _ _ _ H6) as Ht. apply Forall_app in Ht as [_ Ht]. apply Forall_cons in Ht as [Hx _].
  unfold kputc. rewrite (proj2 (Z.eqb_neq x 0)) by (unfold printable in Hx; lia).
  erewrite bind_run; [cbv beta|apply kputs_run; cbn; lia]. eexists. split; [reflexivity|].
  split; [|by apply frame_refl]. split; cbn [stat echo_mode line_position line_curpos smem line out add_out set_pos]; try done.
  - rewrite Ep, length_app. cbn [length]. lia.
  - rewrite Ec, length_app, u16_small; cbn [length]; lia.
  - eapply holds_split; [|exact H6]. by rewrite <- app_assoc.
  - exists k. rewrite display_app, H7. cbn [fold_left app]. rewrite put_char_screen by done. cbn [drop].
    by rewrite <- app_assoc.
Qed.

(** the text in front of the cursor is [p ++ l], the one behind it [r] with
    blanks; printing [r] again and going back leaves it like that *)
Lemma reprint_screen a r b : Forall printable r ->
  fold_left term_put (replicate (length r) 8) (fold_left term_put r (screen a b)) = screen a (r ++ drop (length r) b).
Proof. intros Hr. rewrite put_text_screen by done. apply back_screen. Qed.

Lemma char_key_run s l r c : shows s l r -> printable c -> (length l + length r < 79)%nat ->
  exists s', char_key c s = Ok (tt, s') /\ shows s' (l ++ [c]) r /\ frame s s'.
Proof.
  intros H Hc Hlen. destruct (shows_bounds _ _ _ H) as (Ep & Ec & _ & _).
  destruct H as [H1 H2 H3 H4 H5 H6 (k & H7)]. unfold char_key.
  assert (E80 : (FINSH_CMD_SIZE <=? line_position s) = false) by (unfold FINSH_CMD_SIZE; lia).
  erewrite bind_run; [cbv beta|reflexivity]. rewrite E80. cbn [when].
  erewrite bind_run; [cbv beta|reflexivity]. erewrite bind_run; [cbv beta|reflexivity].
  destruct (holds_insert _ _ _ _ c H6 Hc Hlen) as (m1 & Em & Hh & Hout).
  pose proof (ho_text _ _ _ _ H6) as Ht. apply Forall_app in Ht as [_ Ht].
  (* what is printed *)
  assert (Hprint : exists t, (if line_curpos s <? line_position s then
     on_mem (rt_memmove (line s + line_curpos s + 1) (line s + line_curpos s) (line_position s - line_curpos s));;
     on_mem (st8 (line s + line_curpos s) c);;
     when (echo_mode s) (let* t := on_mem (text_at (line s + line_curpos s)) in kputs t);;
     backspaces (Z.to_nat (line_position s - line_curpos s))
   else
     on_mem (st8 (line s + line_position s) c);;
     when (echo_mode s) (kputc c)) s = Ok (tt, add_out t (set_smem m1 s)) /\
   exists k', fold_left term_put t (screen (prompt_of s ++ l) (r ++ replicate k 32)) =
     screen (prompt_of s ++ l ++ [c]) (r ++ replicate k' 32)).
  { rewrite Ep, Ec, H2. cbn [when]. destruct (Z.ltb_spec (Z.of_nat (length l)) (Z.of_nat (length l + length r))).
    - rewrite (proj2 (Nat.ltb_lt 0 _)) in Em by lia.
      apply bind_ok in Em as (a & m0 & E1 & E2). replace (Z.of_nat (length l + length r) - Z.of_nat (length l)) with
        (Z.of_nat (length r)) by lia.
      exists ((c :: r) ++ replicate (length r) 8). split.
      + erewrite bind_run; [cbv beta|by apply on_mem_run].
        erewrite bind_run; [cbv beta|apply on_mem_run; exact E2].
        assert (Htx : text_at (line s + Z.of_nat (length l)) m1 = Ok (c :: r, m1)).
        { apply holds_text. eapply holds_split; [|exact Hh]. by rewrite <- app_assoc. }
        rewrite bind_assoc. erewrite bind_run; [cbv beta|apply on_mem_read; exact Htx].
        erewrite bind_run; [cbv beta|apply kputs_run; cbn [length]; lia].
        rewrite Nat2Z.id, backspaces_run. unfold add_out. cbn. by rewrite <- app_assoc.
      + exists (pred k). rewrite fold_left_app. cbn [fold_left]. rewrite put_char_screen by done.
        rewrite reprint_screen by done. rewrite <- app_assoc. do 2 f_equal. rewrite drop_drop, drop_app_ge by lia.
        rewrite drop_replicate. f_equal. lia.
    - destruct r; [|cbn in *; lia]. cbn [length] in *. rewrite Nat.add_0_r in *.
      change (0 <? 0)%nat with false in Em. exists [c]. split.
      + erewrite bind_run; [cbv beta|apply on_mem_run; exact Em]. unfold kputc.
        rewrite (proj2 (Z.eqb_neq c 0)) by (unfold printable in Hc; lia). apply kputs_run. cbn. lia.
      + exists (pred k). cbn [fold_left app]. rewrite put_char_screen by done.
        rewrite drop_replicate, <- app_assoc. do 2 f_equal. lia. }
  destruct Hprint as (t & Et & k' & Ek). erewrite bind_run; [cbv beta|exact Et].
  erewrite bind_run; [cbv beta|reflexivity]. erewrite bind_run; [cbv beta|reflexivity].
  erewrite bind_run; [cbv beta|reflexivity].
  cbn [line_position line_curpos set_pos add_out set_smem].
  rewrite Ep, Ec, !u16_small by lia. unfold FINSH_CMD_SIZE. rewrite (proj2 (Z.leb_gt _ _)) by lia. cbn [when].
  eexists. split; [reflexivity|]. split; [|by split].
  split; cbn [stat echo_mode line_position line_curpos smem line out add_out set_pos set_smem]; try done.
  - rewrite length_app. cbn [length]. lia.
  - rewrite length_app. cbn [length]. lia.
  - exists k'. rewrite display_app, H7. exact Ek.
Qed.
Lemma backspace_start s r : shows s [] r -> backspace_key s = Ok (tt, s).
Proof.
  intros H. destruct (shows_bounds _ _ _ H) as (_ & Ec & _). unfold backspace_key.
  erewrite bind_run; [cbv beta|reflexivity]. by rewrite Ec.
Qed.
(** backspace in front of [r]: a step back, [r] again, two blanks, and back *)
Lemma put_back_screen a x b : term_put (screen (a ++ [x]) b) 8 = screen a (x :: b).
Proof. exact (back_screen [x] a b). Qed.
Lemma erase_screen a x r k : Forall printable r -> exists k',
  fold_left term_put (([8] ++ r ++ [32; 32; 8]) ++ replicate (S (length r)) 8) (screen (a ++ [x]) (r ++ replicate k 32)) =
  screen a (r ++ replicate k' 32).
Proof.
  intros Hr. exists (S (S (pred k))). rewrite !fold_left_app. cbn [fold_left]. rewrite put_back_screen.
  rewrite put_text_screen by done. rewrite !put_char_screen by (unfold printable; lia).
  rewrite put_back_screen.
  replace (S (length r)) with (length (r ++ [32])) by (rewrite length_app; cbn; lia).
  rewrite <- (app_assoc a r [32]), back_screen. f_equal. rewrite <- app_assoc. f_equal. cbn [app replicate].
  do 2 f_equal. rewrite !drop_drop. change (x :: ?l) with ([x] ++ l).
  rewrite app_assoc, drop_app_ge, drop_replicate by (rewrite length_app; cbn [length]; lia).
  f_equal. rewrite length_app. cbn [length]. lia.
Qed.
Lemma backspace_key_run s l x r : shows s (l ++ [x]) r ->
  exists s', backspace_key s = Ok (tt, s') /\ shows s' l r /\ frame s s'.
Proof.
  intros H. destruct (shows_bounds _ _ _ H) as (Ep & Ec & Hlen & _). rewrite length_app in *. cbn [length] in *.
  destruct H as [H1 H2 H3 H4 H5 H6 (k & H7)]. unfold backspace_key.
  erewrite bind_run; [cbv beta|reflexivity]. rewrite (proj2 (Z.eqb_neq _ 0)) by lia. cbv zeta.
  rewrite Ep, Ec, !u16_small by lia.
  replace (Z.of_nat (length l + 1 + length r) - 1) with (Z.of_nat (length l + length r)) by lia.
  replace (Z.of_nat (length l + 1) - 1) with (Z.of_nat (length l)) by lia.
  erewrite bind_run; [cbv beta|reflexivity]. set (s1 := set_pos _ _ s).
  destruct (holds_delete _ _ _ _ _ H6) as (m1 & Em & Hh & Hout).
  pose proof (ho_text _ _ _ _ H6) as Ht. rewrite !Forall_app in Ht. destruct Ht as [_ Ht].
  assert (Hprint : exists t, (if Z.of_nat (length l) <? Z.of_nat (length l + length r) then
      on_mem (rt_memmove (line s + Z.of_nat (length l)) (line s + Z.of_nat (length l) + 1)
        (Z.of_nat (length l + length r) - Z.of_nat (length l)));;
      on_mem (st8 (line s + Z.of_nat (length l + length r)) 0);;
      let* t := on_mem (text_at (line s + Z.of_nat (length l))) in
      kputs ([8] ++ t ++ [32; 32; 8]);;
      backspaces (Z.to_nat (Z.of_nat (length l + length r) - Z.of_nat (length l) + 1))
    else
      kputs [8; 32; 8];;
      on_mem (st8 (line s + Z.of_nat (length l + length r)) 0)) s1 = Ok (tt, add_out t (set_smem m1 s1)) /\
    exists k', fold_left term_put t (screen (prompt_of s ++ l ++ [x]) (r ++ replicate k 32)) =
      screen (prompt_of s ++ l) (r ++ replicate k' 32)).
  { rewrite app_assoc. destruct (Z.ltb_spec (Z.of_nat (length l)) (Z.of_nat (length l + length r))).
    - rewrite (proj2 (Nat.ltb_lt 0 _)) in Em by lia. apply bind_ok in Em as (a & m0 & E1 & E2).
      replace (Z.of_nat (length l + length r) - Z.of_nat (length l)) with (Z.of_nat (length r)) by lia.
      exists (([8] ++ r ++ [32; 32; 8]) ++ replicate (S (length r)) 8). split.
      + erewrite bind_run; [cbv beta|apply on_mem_run; exact E1].
        erewrite bind_run; [cbv beta|apply on_mem_run; exact E2].
        erewrite bind_run; [cbv beta|apply on_mem_read; by apply (holds_text m1 (line s) l r)].
        erewrite bind_run; [cbv beta|apply kputs_run; rewrite !length_app; cbn [length]; lia].
        replace (Z.to_nat (Z.of_nat (length r) + 1)) with (S (length r)) by lia.
        rewrite backspaces_run. unfold add_out. cbn. by rewrite <- app_assoc.
      + by apply erase_screen.
    - destruct r; [|cbn in *; lia]. cbn [length app] in *. rewrite Nat.add_0_r in *.
      change (0 <? 0)%nat with false in Em. exists [8; 32; 8]. split.
      + erewrite bind_run; [cbv beta|apply kputs_run; cbn; lia]. rewrite (on_mem_run _ tt m1) by exact Em. done.
      + exists (S k). cbn [fold_left app]. rewrite put_back_screen, put_char_screen by (unfold printable; lia).
        by rewrite put_back_screen. }
  destruct Hprint as (t & Et & k' & Ek). rewrite Et. eexists. split; [reflexivity|]. split; [|by split].
  split; cbn [stat echo_mode line_position line_curpos smem line out add_out set_pos set_smem s1]; try done.
  exists k'. rewrite display_app, H7. exact Ek.
Qed.
Lemma prompt_run (s s' : finsh_shell) :
  prompt_ok (prompt_of s) -> prompt_mode s' = prompt_mode s -> finsh_prompt_custom s' = finsh_prompt_custom s ->
  finsh_get_prompt s' = Ok (prompt_of s, s').
Proof.
  intros (_ & _ & Hp) E1 E2. unfold finsh_get_prompt, prompt_of in *. erewrite bind_run; [cbv beta|reflexivity].
  rewrite E1, E2. destruct (prompt_mode s), (finsh_prompt_custom s) as [p|]; try done. cbn [negb] in *.
  by rewrite (proj2 (Nat.ltb_lt _ _)) by lia.
Qed.
Lemma tab_key_run s l r : shows s l r ->
  exists s', tab_key s = Ok (tt, s') /\ shows s' (l ++ r) [] /\ frame s s'.
Proof.
  intros H. destruct (shows_bounds _ _ _ H) as (Ep & Ec & Hlen & Hpl).
  destruct H as [H1 H2 H3 H4 H5 H6 (k & H7)]. unfold tab_key, shell_auto_complete.
  erewrite bind_run; [cbv beta|reflexivity]. rewrite Ec, Nat2Z.id.
  erewrite bind_run; [cbv beta|apply backspaces_run].
  assert (H6' : holds (smem s) (line s) [] (l ++ r)) by (by eapply holds_split; [|exact H6]).
  pose proof (holds_cstr _ _ _ _ H6') as Hc. cbn [length] in Hc. rewrite Z.add_0_r in Hc.
  rewrite bind_assoc. erewrite bind_run; [cbv beta|apply kputs_run; cbn; lia].
  rewrite bind_assoc. erewrite bind_run; [cbv beta|by apply (prompt_run s)].
  rewrite bind_assoc. erewrite bind_run; [cbv beta|apply on_mem_read; by apply text_at_run].
  erewrite bind_run; [cbv beta|apply kputs_run; rewrite !length_app; lia].
  erewrite bind_run; [cbv beta|apply on_mem_read; by apply rt_strlen_run].
  rewrite length_app, u16_small by lia. eexists. split; [reflexivity|]. split; [|by apply frame_refl].
  split; cbn [stat echo_mode line_position line_curpos smem line out add_out set_pos set_smem]; try done.
  - rewrite length_app. cbn [length]. lia.
  - rewrite length_app. lia.
  - eapply holds_split; [|exact H6]. by rewrite app_nil_r.
  - exists 0%nat. rewrite !display_app, H7, back_screen. cbn [app replicate].
    change (fold_left term_put [10] _) with (screen [] []).
    rewrite put_text_screen; [by rewrite drop_nil|]. destruct H3 as [H3 _]. apply Forall_app. split; [done|].
    apply (ho_text _ _ _ _ H6).
Qed.

Lemma keeps_msh_exec D table call cmd n :
  (forall f argv, preserves (keeps D) (call f argv)) -> preserves (keeps D) (msh_exec table call cmd n).
Proof.
  intros Hc. unfold msh_exec, _msh_exec_cmd, msh_get_cmd, msh_split, str_fuel. pres.
Qed.

(** ** Enter *)
(** the commands return, and leave the line mapped *)
Definition commands_return (D : Z -> Prop) (call : Z -> list Z -> M mem Z) : Prop :=
  forall f argv m, keeps D m -> exists x m', call f argv m = Ok (x, m') /\ keeps D m'.

Lemma holds_keeps m a l r : holds m a l r -> keeps (fun x => a <= x < a + FINSH_CMD_SIZE) m.
Proof. intros H. split; [apply (ho_bytes _ _ _ _ H)|]. apply (ho_mapped _ _ _ _ H). Qed.
Lemma holds_clear m a : keeps (fun x => a <= x < a + FINSH_CMD_SIZE) m -> 0 < a -> a + FINSH_CMD_SIZE < 4294967296 ->
  exists m', memset a 0 FINSH_CMD_SIZE m = Ok (a, m') /\ holds m' a [] [] /\
    forall x, ~ (a <= x < a + FINSH_CMD_SIZE) -> m' !! x = m !! x.
Proof.
  unfold FINSH_CMD_SIZE. intros [Hb Hk] H1 H2. eexists. rewrite memset_run; [|split_and!; [lia|lia|done]|lia].
  change (u8 0) with 0. split_and!; [reflexivity| |].
  2: { intros x Hx. rewrite lookup_fill. by rewrite decide_False by lia. }
  assert (Hl : forall x, a <= x < a + 80 -> fill (Z.to_nat 80) a 0 m !! x = Some 0).
  { intros x Hx. rewrite lookup_fill. by rewrite decide_True by lia. }
  split.
  - intros x c. rewrite lookup_fill. case_decide; [intros [= <-]; lia|apply Hb].
  - split_and!; [lia|unfold FINSH_CMD_SIZE; lia|]. intros x Hx. rewrite Hl; [by eexists|]. unfold FINSH_CMD_SIZE in *. lia.
  - unfold FINSH_CMD_SIZE. lia.
  - cbn. lia.
  - constructor.
  - intros i c Hi. cbn [app length] in Hi. apply lookup_replicate in Hi as [-> Hi]. apply Hl. lia.
Qed.

Lemma print_prompt_run s : prompt_ok (prompt_of s) -> print_prompt s = Ok (tt, add_out (prompt_of s) s).
Proof.
  intros Hok. pose proof Hok as (_ & Hp & Hl). unfold print_prompt. erewrite bind_run; [cbv beta|by apply prompt_run].
  rewrite bool_decide_eq_false_2 by done. apply kputs_run. lia.
Qed.

(** what Enter does to the memory: the line is executed, and cleared *)
Definition executed (call : Z -> list Z -> M mem Z) (names : list (list Z * Z)) (D : Z -> Prop) (text : list Z) (m m' : mem) : Prop :=
  let f := find_cmd names (word (drop_blanks text)).1 in
  if bool_decide (drop_blanks text = [] \/ f = 0) then forall x, ~ D x -> m' !! x = m !! x
  else exists argv m1 x m2, Forall2 (cstr m1) argv (tokens FINSH_ARG_MAX (drop_blanks text)) /\
    (forall y, ~ D y -> m1 !! y = m !! y) /\ call f argv m1 = Ok (x, m2) /\ forall y, ~ D y -> m' !! y = m2 !! y.

Section enter.
Context (table : list finsh_syscall) (call : Z -> list Z -> M mem Z) (names : list (list Z * Z)).

Lemma msh_exec_line m a text :
  table_at m table names -> cstr m a text -> a <> 0 -> (length text < 80)%nat ->
  commands_return (fun x => a <= x < a + FINSH_CMD_SIZE) call -> keeps (fun x => a <= x < a + FINSH_CMD_SIZE) m ->
  exists r m', msh_exec table call a (Z.of_nat (length text)) m = Ok (r, m') /\
    keeps (fun x => a <= x < a + FINSH_CMD_SIZE) m' /\ 
    executed call names (fun x => a <= x < a + FINSH_CMD_SIZE) text m m'.
Proof.
  intros Ht Hl Ha Hn Hcall Hk. destruct (msh_exec_run table call m names a text Ht Hl Ha) as (E1 & E2 & E3).
  assert (Hout : forall x, ~ (a <= x < a + FINSH_CMD_SIZE) -> x < a \/ a + Z.of_nat (length text) <= x)
    by (unfold FINSH_CMD_SIZE; intros; lia).
  assert (Hkeep : forall r m', msh_exec table call a (Z.of_nat (length text)) m = Ok (r, m') ->
    keeps (fun x => a <= x < a + FINSH_CMD_SIZE) m').
  { intros r m' E. eapply keeps_msh_exec; [|exact Hk|exact E]. intros f argv m0 x m1 H0 E0.
    destruct (Hcall f argv m0 H0) as (? & ? & E4 & H4). congruence. }
  unfold executed. cbv zeta. destruct (decide (drop_blanks text = [])) as [E0|E0].
  { exists 0, m. rewrite E1 by done. split_and!; [done|done|]. rewrite bool_decide_eq_true_2 by tauto. done. }
  destruct (decide (find_cmd names (word (drop_blanks text)).1 = 0)) as [Ef|Ef].
  - destruct (wp_run _ _ _ (E2 E0 Ef)) as (r & m' & E & _ & Hx). exists r, m'.
    split_and!; [done|by eapply Hkeep|]. rewrite bool_decide_eq_true_2 by tauto. auto.
  - destruct (E3 E0 Ef) as (argv & m1 & E & Htok & Hx & HD).
    destruct (Hcall (find_cmd names (word (drop_blanks text)).1) argv m1 (HD _ Hk)) as (x & m2 & Ec & Hk2).
    exists x, m2. rewrite E, Ec. split_and!; [done|done|]. rewrite bool_decide_eq_false_2 by tauto.
    exists argv, m1, x, m2. split_and!; [done|auto|done|done].
Qed.

Lemma holds_line m a l r : holds m a l r -> cstr m a (l ++ r).
Proof.
  intros H. assert (H' : holds m a [] (l ++ r)) by (by eapply holds_split; [|exact H]).
  apply holds_cstr in H'. cbn [length] in H'. by rewrite Z.add_0_r in H'.
Qed.
Lemma enter_key_run s l r :
  shows s l r -> table_at (smem s) table names -> commands_return (line_of s) call ->
  exists s', enter_key table call s = Ok (tt, s') /\ shows s' [] [] /\ line s' = line s /\
    executed call names (line_of s) (l ++ r) (smem s) (smem s').
Proof.
  intros H Ht Hcall. destruct (shows_bounds _ _ _ H) as (Ep & Ec & Hlen & Hpl).
  destruct H as [H1 H2 H3 H4 H5 H6 (k & H7)]. destruct (holds_range _ _ _ _ H6) as (R1 & R2 & _).
  destruct (msh_exec_line (smem s) (line s) (l ++ r)) as (x & m1 & E1 & Hk & Hex);
    [done|by apply holds_line|lia|rewrite length_app; lia|done|by eapply holds_keeps|].
  destruct (holds_clear m1 (line s) Hk) as (m2 & E2 & Hh & Hout); [lia|unfold FINSH_CMD_SIZE; lia|].
  unfold enter_key. erewrite bind_run; [cbv beta|reflexivity]. rewrite H2. cbn [when].
  erewrite bind_run; [cbv beta|apply kputs_run; cbn; lia].
  rewrite Ep, <- length_app. erewrite bind_run; [cbv beta|apply on_mem_run; exact E1].
  erewrite bind_run; [cbv beta|apply print_prompt_run; exact H3].
  erewrite bind_run; [cbv beta|apply on_mem_run; exact E2].
  eexists. split; [reflexivity|]. split_and!; [|done|].
  - split; cbn [stat echo_mode line_position line_curpos smem line out add_out set_pos set_smem]; try done.
    exists 0%nat. rewrite !display_app. rewrite H7. change (fold_left term_put [10] _) with (screen [] []).
    rewrite put_text_screen by apply H3. rewrite drop_nil. by rewrite app_nil_r.
  - cbn [smem set_pos set_smem]. unfold executed in *. cbv zeta in *. case_bool_decide.
    + intros y Hy. rewrite Hout by done. auto.
    + destruct Hex as (argv & m0 & x0 & m3 & F1 & F2 & F3 & F4). exists argv, m0, x0, m3.
      split_and!; try done. intros y Hy. rewrite Hout by done. auto.
Qed.

(** ** Editing with the keys *)
Inductive key := Char (c : Z) | Left | Right | Backspace | Tab.
Definition key_bytes (k : key) : list Z :=
  match k with Char c => [c] | Left => [27; 91; 68] | Right => [27; 91; 67] | Backspace => [8] | Tab => [9] end.
(** the text before and behind the cursor after a key *)
Definition edit (z : list Z * list Z) (k : key) : list Z * list Z :=
  let (l, r) := z in
  match k with
  | Char c => (l ++ [c], r)
  | Left => match reverse l with [] => z | x :: k => (reverse k, x :: r) end
  | Right => match r with [] => z | x :: r => (l ++ [x], r) end
  | Backspace => (take (pred (length l)) l, r)
  | Tab => (l ++ r, [])
  end.
Definition typed (k : key) : nat := match k with Char _ => 1 | _ => 0 end.
Definition key_ok (k : key) : Prop := match k with Char c => printable c | _ => True end.
(** the loop of the thread on the keys [chs] *)
Definition feed (chs : list Z) : M finsh_shell unit := for_each (fun ch => let* _a := finsh_key table call ch in ret tt) chs.

Lemma feed_app a b s s1 : feed a s = Ok (tt, s1) -> feed (a ++ b) s = feed b s1.
Proof.
  unfold feed. revert s. induction a as [|c a IH]; intros s; cbn [for_each app]; [by intros [= ->]|].
  intros E. apply bind_ok in E as ([] & s0 & E1 & E2). erewrite bind_run; [|exact E1]. by apply IH.
Qed.
Lemma feed_one c s x s1 : finsh_key table call c s = Ok (x, s1) -> feed [c] s = Ok (tt, s1).
Proof. intros E. unfold feed, bind. cbn [for_each]. unfold bind. by rewrite E. Qed.
Lemma normal_run c s x s1 : stat s = WAIT_NORMAL -> c <> 27 ->
  normal_key table call c s = Ok (x, s1) -> finsh_key table call c s = Ok (x, s1).
Proof.
  intros Hs Hc E. unfold finsh_key. erewrite bind_run; [cbv beta|reflexivity].
  by rewrite (proj2 (Z.eqb_neq _ _)), Hs.
Qed.
Lemma escape_run c s s1 : stat s = WAIT_NORMAL -> (c = 68 /\ left_key s = Ok (tt, s1) \/ c = 67 /\ right_key s = Ok (tt, s1)) ->
  feed [27; 91; c] s = Ok (tt, s1).
Proof.
  intros Hs Hc. unfold feed. cbn [for_each].
  erewrite bind_run; [cbv beta|reflexivity]. erewrite bind_run; [cbv beta|reflexivity].
  erewrite bind_run; [reflexivity|]. unfold finsh_key. rewrite bind_assoc.
  erewrite bind_run; [cbv beta|reflexivity]. cbn [stat set_stat].
  assert (Es : set_stat WAIT_NORMAL (set_stat WAIT_FUNC_KEY (set_stat WAIT_SPEC_KEY s)) = s)
    by (clear Hc; destruct s; cbn in Hs; by subst).
  destruct Hc as [[-> E]|[-> E]]; cbn [Z.eqb Pos.eqb]; rewrite !bind_assoc;
    (erewrite bind_run; [cbv beta|reflexivity]); rewrite Es, bind_assoc; by (erewrite bind_run; [|exact E]).
Qed.
(** what a key does *)
Definition key_action (k : key) : Sh unit :=
  match k with Char c => char_key c | Left => left_key | Right => right_key | Backspace => backspace_key | Tab => tab_key end.
Lemma key_action_run s l r k :
  shows s l r -> key_ok k -> (length l + length r + typed k < 80)%nat ->
  exists s', key_action k s = Ok (tt, s') /\ shows s' (edit (l, r) k).1 (edit (l, r) k).2 /\ frame s s'.
Proof.
  intros H Hk Hlen. destruct k as [c| | | |]; cbn [key_action edit typed key_ok] in *.
  - apply (char_key_run s l r c); [done|done|lia].
  - destruct (reverse l) as [|x k] eqn:El.
    { exists s. split; [|by split]. destruct (shows_bounds _ _ _ H) as (_ & Ec & _). assert (length l = 0%nat) as E0 by (rewrite <- length_reverse, El; done).
      unfold left_key. erewrite bind_run; [cbv beta|reflexivity]. by rewrite Ec, E0. }
    assert (l = reverse k ++ [x]) as -> by (rewrite <- (reverse_involutive l), El; by rewrite reverse_cons). by apply left_key_run.
  - destruct r as [|x r]; [|by apply right_key_run].
    exists s. split; [|by split]. destruct (shows_bounds _ _ _ H) as (Ep & Ec & _). unfold right_key.
    erewrite bind_run; [cbv beta|reflexivity]. rewrite Ec, Ep. cbn [length]. by rewrite Nat.add_0_r, Z.ltb_irrefl.
  - destruct (decide (l = [])) as [->|Hl]; [exists s; split; [by eapply backspace_start|by split]|].
    destruct (exists_last Hl) as (l' & x & ->). rewrite length_app. cbn [length fst snd]. rewrite Nat.add_1_r. cbn [pred].
    rewrite take_app_length. by eapply backspace_key_run.
  - by apply tab_key_run.
Qed.
Lemma key_run s l r k :
  shows s l r -> key_ok k -> (length l + length r + typed k < 80)%nat ->
  exists s', feed (key_bytes k) s = Ok (tt, s') /\ shows s' (edit (l, r) k).1 (edit (l, r) k).2 /\ frame s s'.
Proof.
  intros H Hk Hlen. pose proof (sh_stat _ _ _ H) as Hs. destruct (key_action_run _ _ _ _ H Hk Hlen) as (s' & E & H').
  exists s'. split; [|done]. destruct k as [c| | | |]; cbn [key_bytes key_action key_ok] in *.
  - eapply feed_one, normal_run; [done|unfold printable in Hk; lia|]. unfold normal_key, printable in *.
    rewrite !(proj2 (Z.eqb_neq c _)) by lia. cbn [orb]. by erewrite bind_run; [|exact E].
  - apply escape_run; auto.
  - apply escape_run; auto.
  - eapply feed_one, normal_run; [done|done|]. unfold normal_key. cbn [Z.eqb Pos.eqb orb]. by erewrite bind_run; [|exact E].
  - eapply feed_one, normal_run; [done|done|]. unfold normal_key. cbn [Z.eqb Pos.eqb orb]. by erewrite bind_run; [|exact E].
Qed.
Lemma edit_length z k : (length (edit z k).1 + length (edit z k).2 <= length z.1 + length z.2 + typed k)%nat.
Proof.
  destruct z as [l r]. destruct k; cbn [edit typed fst snd].
  - rewrite length_app. cbn. lia.
  - destruct (reverse l) as [|x k] eqn:E; cbn [fst snd]; [lia|].
    apply (f_equal length) in E. rewrite length_reverse in E. rewrite length_reverse. cbn [length] in *. lia.
  - destruct r; cbn [fst snd length]; [lia|]. rewrite length_app. cbn. lia.
  - rewrite length_take. lia.
  - rewrite length_app. cbn. lia.
Qed.
Lemma edits_run ks : forall s l r,
  shows s l r -> Forall key_ok ks -> (length l + length r + sum_list_with typed ks < 80)%nat ->
  let z := fold_left edit ks (l, r) in
  exists s', feed (concat (key_bytes <$> ks)) s = Ok (tt, s') /\ shows s' z.1 z.2 /\ frame s s'.
Proof.
  induction ks as [|k ks IH]; intros s l r H Hk Hlen; cbn [fmap list_fmap concat fold_left sum_list_with] in *.
  - exists s. split_and!; [done|done|by apply frame_refl].
  - apply Forall_cons in Hk as [Hk Hks]. destruct (key_run s l r k H Hk) as (s1 & E1 & H1 & L1); [lia|].
    pose proof (edit_length (l, r) k) as Hl. cbn [fst snd] in Hl. rewrite (surjective_pairing (edit (l, r) k)).
    destruct (IH s1 _ _ H1 Hks) as (s2 & E2 & H2 & L2); [lia|]. exists s2. split_and!; [|done|by eapply frame_trans].
    by erewrite feed_app.
Qed.

(** ** The thread *)
(** the shell of finsh_system_init: zeroed, and nothing on the screen *)
Record starts (s : finsh_shell) : Prop := {
  st_stat : stat s = WAIT_NORMAL;
  st_prompt : prompt_ok (prompt_of s);
  st_position : line_position s = 0;
  st_curpos : line_curpos s = 0;
  st_line : holds (smem s) (line s) [] [];
  st_screen : out s = [];
}.
Lemma entry_run s chs : starts s ->
  exists s1, finsh_thread_entry table call chs s = feed chs s1 /\ shows s1 [] [] /\ frame s s1.
Proof.
  intros [H1 H2 H3 H4 H5 H6]. unfold finsh_thread_entry.
  erewrite bind_run; [cbv beta|reflexivity].
  erewrite bind_run; [cbv beta|by apply print_prompt_run].
  eexists. split; [reflexivity|]. split; [|by split].
  split; cbn [stat echo_mode line_position line_curpos smem line out add_out set_echo]; try done.
  exists 0%nat. rewrite H6. unfold display. change {| cells := []; col := 0; pending := [] |} with (screen [] []).
  cbn [app]. rewrite put_text_screen by apply H2. rewrite drop_nil. by rewrite app_nil_r.
Qed.

(** Editing: from a shell that shows the line [l ++ r] with the cursor
    behind [l], characters, the arrow keys (escape sequences of three bytes),
    backspace and tab do to the line in memory what [edit] does to the text;
    the terminal shows the prompt, the text and blanks with the cursor at its
    place, and memory outside of the line is not touched, while the line stays
    shorter than its buffer. *)
Theorem finsh_edits (ks : list key) (s : finsh_shell) (l r : list Z) :
  shows s l r -> Forall key_ok ks -> (length l + length r + sum_list_with typed ks < 80)%nat ->
  let z := fold_left edit ks (l, r) in
  exists s', feed (concat (key_bytes <$> ks)) s = Ok (tt, s') /\ shows s' z.1 z.2 /\ frame s s'.
Proof. apply edits_run. Qed.

Lemma executed_ext (D : Z -> Prop) text m0 m m' :
  (forall x, ~ D x -> m !! x = m0 !! x) -> executed call names D text m m' -> executed call names D text m0 m'.
Proof.
  intros H. unfold executed. cbv zeta. case_bool_decide.
  - intros E x Hx. rewrite E by done. auto.
  - intros (argv & m1 & x & m2 & E1 & E2 & E3 & E4). exists argv, m1, x, m2. split_and!; try done.
    intros y Hy. rewrite E2 by done. auto.
Qed.
(** the names of the commands are outside of the line *)
Definition table_outside (s : finsh_shell) : Prop :=
  forall m : mem, (forall x, ~ line_of s x -> m !! x = smem s !! x) -> table_at m table names.

(** C35: A session: the shell thread started on a zeroed shell and fed with
    editing keys and Enter shows the empty line again after it has executed
    the edited text: no command for an empty line or an unknown name, and
    otherwise the command of that name with the words of the text as its
    arguments.  (What the command prints is not part of the screen here.) *)
Theorem finsh_session (ks : list key) (s : finsh_shell) :
  starts s -> table_outside s -> commands_return (line_of s) call ->
  Forall key_ok ks -> (sum_list_with typed ks < 80)%nat ->
  let z := fold_left edit ks ([], []) in
  exists s', finsh_thread_entry table call (concat (key_bytes <$> ks) ++ [13]) s = Ok (tt, s') /\
    shows s' [] [] /\ executed call names (line_of s) (z.1 ++ z.2) (smem s) (smem s').
Proof.
  intros Hs Ht Hcall Hks Hlen z. destruct (entry_run s (concat (key_bytes <$> ks) ++ [13]) Hs) as (s1 & E1 & H1 & F1).
  destruct (edits_run ks s1 [] [] H1 Hks) as (s2 & E2 & H2 & F2); [cbn [length]; lia|]. fold z in H2.
  destruct (frame_trans _ _ _ F1 F2) as [L12 F12].
  assert (ED : forall x, line_of s2 x <-> line_of s x) by (intros x; unfold line_of; by rewrite L12).
  destruct (enter_key_run s2 z.1 z.2 H2) as (s3 & E3 & H3 & _ & Hex).
  { by apply Ht. }
  { unfold commands_return, line_of in *. by rewrite L12. }
  exists s3. rewrite E1. erewrite feed_app by exact E2. split_and!; [|done|].
  - eapply feed_one, normal_run; [apply (sh_stat _ _ _ H2)|done|]. unfold normal_key. cbn [Z.eqb Pos.eqb orb].
    by erewrite bind_run; [|exact E3].
  - eapply executed_ext; [exact F12|]. unfold line_of in *. by rewrite L12 in Hex.
Qed.
End enter.
