(* ===== verification/ShellExamples.v ===== *)
(** The theorems on the command interpreter and the shell, applied to a
    concrete memory, and what the editor does with a full line. *)
From S2P Require Import Prelude KService Mem Heap HeapExamples KString Msh Shell ShellSpec ServiceExamples.

(** the line at 4096, the name "__cmd_hi" at 8192 and the text " hi 'a b' c"
    (with double quotes) at 8448 *)
Definition shell_ram : mem :=
  store_bytes 8448 [32; 104; 105; 32; 34; 97; 32; 98; 34; 32; 99; 0]
    (store_bytes 8192 [95; 95; 99; 109; 100; 95; 104; 105; 0] (fill 80 4096 0 ∅)).
Definition hi_name : list Z := [95; 95; 99; 109; 100; 95; 104; 105].
Definition commands : list finsh_syscall := [{| name := 8192; desc := 8448; func := 16384 |}].
Definition command_names : list (list Z * Z) := [(hi_name, 16384)].
(** a command that returns how many arguments it got *)
Definition count_args (f : Z) (argv : list Z) : M mem Z := ret (Z.of_nat (length argv)).

Lemma ram_hi_text : cstr shell_ram 8448 [32; 104; 105; 32; 34; 97; 32; 98; 34; 32; 99].
Proof. concrete_cstr. Qed.
Lemma ram_commands : table_at shell_ram commands command_names.
Proof. constructor; [|constructor]. split; [|reflexivity]. concrete_cstr. Qed.

Lemma msh_split_spec_witness :
  wp (msh_split 8448 11) (fun argv m' =>
    Forall2 (cstr m') argv [[104; 105]; [97; 32; 98]; [99]]) shell_ram.
Proof.
  eapply wp_mono; [apply (msh_split_spec shell_ram 8448 [32; 104; 105; 32; 34; 97; 32; 98; 34; 32; 99] ram_hi_text)|].
  intros argv m' [H _]. exact H.
Defined.
Lemma msh_exec_spec_witness :
  exists argv m', msh_exec commands count_args 8448 11 shell_ram = count_args 16384 argv m' /\
    Forall2 (cstr m') argv [[104; 105]; [97; 32; 98]; [99]].
Proof.
  destruct (msh_exec_spec commands count_args shell_ram command_names 8448
    [32; 104; 105; 32; 34; 97; 32; 98; 34; 32; 99] ram_commands ram_hi_text) as (_ & _ & H); [lia|].
  destruct H as (argv & m' & E & Ht & _); [discriminate|vm_compute; discriminate|].
  exists argv, m'. split; [exact E|exact Ht].
Defined.

(** the shell thread's structure after finsh_system_init *)
Definition shell0 : finsh_shell := {| stat := WAIT_NORMAL; echo_mode := false; prompt_mode := true;
  line := 4096; line_position := 0; line_curpos := 0; finsh_prompt_custom := None; smem := shell_ram; out := [] |}.
Definition shell1 : finsh_shell := {| stat := WAIT_NORMAL; echo_mode := true; prompt_mode := true;
  line := 4096; line_position := 0; line_curpos := 0; finsh_prompt_custom := None; smem := shell_ram;
  out := [109; 115; 104; 32; 62] |}.
Lemma shell_prompt_ok s : prompt_mode s = true -> finsh_prompt_custom s = None -> prompt_ok (prompt_of s).
Proof.
  intros E1 E2. unfold prompt_of. rewrite E1, E2. cbn. split_and!.
  - repeat constructor; unfold printable; lia.
  - rewrite !not_elem_of_cons. split_and!; try lia. apply not_elem_of_nil.
  - cbn. lia.
Qed.
Lemma shell_line_holds : holds shell_ram 4096 [] [].
Proof.
  split; unfold FINSH_CMD_SIZE.
  - do 2 (apply byte_mem_store_bytes; [repeat constructor; lia|]).
    intros x c. rewrite lookup_fill. case_decide; [intros [= <-]; lia|by rewrite lookup_empty].
  - unfold shell_ram. do 2 apply mapped_store_bytes. by apply (mapped_range 4096).
  - lia.
  - cbn. lia.
  - constructor.
  - intros i c Hi. cbn [app length] in Hi. apply lookup_replicate in Hi as [-> Hi].
    unfold shell_ram. rewrite !lookup_store_bytes, lookup_fill. cbn [length].
    by rewrite !decide_False, decide_True by lia.
Qed.
Lemma shell_starts : starts shell0.
Proof. split; try done; [by apply shell_prompt_ok|exact shell_line_holds]. Qed.
Lemma shell_shows : shows shell1 [] [].
Proof. split; try done; [by apply shell_prompt_ok|exact shell_line_holds|]. by exists 0%nat. Qed.

(** "hx", backspace, "a", to the left, "i " *)
Lemma finsh_edits_witness :
  let ks := [Char 104; Char 120; Backspace; Char 97; Left; Char 105; Char 32] in
  exists s', feed commands count_args (concat (key_bytes <$> ks)) shell1 = Ok (tt, s') /\
    shows s' [104; 105; 32] [97] /\ frame shell1 s'.
Proof.
  apply (finsh_edits commands count_args
    [Char 104; Char 120; Backspace; Char 97; Left; Char 105; Char 32] shell1 [] [] shell_shows).
  - repeat constructor; cbn; unfold printable; lia.
  - cbn. lia.
Defined.
Lemma finsh_session_witness :
  let ks := [Char 104; Char 97; Left; Char 105; Char 32] in
  exists s', finsh_thread_entry commands count_args (concat (key_bytes <$> ks) ++ [13]) shell0 = Ok (tt, s') /\
    shows s' [] [] /\ executed count_args command_names (line_of shell0) [104; 105; 32; 97] shell_ram (smem s').
Proof.
  apply (finsh_session commands count_args command_names
    [Char 104; Char 97; Left; Char 105; Char 32] shell0 shell_starts).
  - intros m Hm. constructor; [|constructor]. split; [|reflexivity].
    apply (cstr_ext shell_ram); [|concrete_cstr].
    intros x Hx. apply Hm. unfold line_of, FINSH_CMD_SIZE. cbn in Hx |- *. lia.
  - intros f argv m Hm. exists (Z.of_nat (length argv)), m. split; [reflexivity|exact Hm].
  - repeat constructor; cbn; unfold printable; lia.
  - cbn. lia.
Defined.

(** A line of 80 characters: the positions start again at 0, but the text
    stays in the buffer, without a terminator, so that the editor reads behind
    the buffer at the next tab, and a command that follows gets an argument
    without an end. *)
Definition read_name (f : Z) (argv : list Z) : M mem Z :=
  let* t := text_at (List.hd 0 argv) in ret (Z.of_nat (length t)).
Definition after_keys (chs : list Z) (s : finsh_shell) : result (Z * Z) :=
  match finsh_thread_entry commands read_name chs s with
  | Ok (_, s') => Ok (line_position s', line_curpos s')
  | Fault f => Fault f
  end.
Example full_line_restarts : after_keys (replicate 80 97) shell0 = Ok (0, 0).
Proof. vm_compute. reflexivity. Qed.
Example full_line_overrun : after_keys (replicate 80 97 ++ [9]) shell0 = Fault BadPointer.
Proof. vm_compute. reflexivity. Qed.
Example full_line_stays : after_keys (replicate 80 97 ++ [104; 105; 13]) shell0 = Fault BadPointer.
Proof. vm_compute. reflexivity. Qed.
Example short_line_runs : after_keys (replicate 77 97 ++ [13; 104; 105; 13]) shell0 = Ok (0, 0).
Proof. vm_compute. reflexivity. Qed.
