(* ===== verification/History.v ===== *)
(** The command history of the shell, components/finsh/shell.c with
    FINSH_USING_HISTORY: the array of the last lines, the keys up and down, and
    the loop of the thread with them.  What the tab key does is left open here;
    Complete has both variants of it. *)
From S2P Require Import Prelude KService Mem Heap KString Libc Msh Shell.

Definition FINSH_HISTORY_LINES : Z := 5.
(** struct finsh_shell with the fields of the history; [cmd_history] is the
    address of the array in it *)
Record hshell := {
  sh : finsh_shell;
  current_history : Z;
  history_count : Z;
  cmd_history : Z;
}.
Definition set_sh v (s : hshell) := {| sh := v; current_history := current_history s; history_count := history_count s; cmd_history := cmd_history s |}.
Definition set_current v (s : hshell) := {| sh := sh s; current_history := v; history_count := history_count s; cmd_history := cmd_history s |}.
Definition set_count v (s : hshell) := {| sh := sh s; current_history := current_history s; history_count := v; cmd_history := cmd_history s |}.
Abbreviation HSh := (M hshell).
Definition on_sh {A} (m : Sh A) : HSh A := fun s =>
  match m (sh s) with Ok (a, t) => Ok (a, set_sh t s) | Fault f => Fault f end.
Definition on_smem {A} (m : M mem A) : HSh A := on_sh (on_mem m).
(** &cmd_history[i][0] *)
Definition slot (s : hshell) (i : Z) : Z := cmd_history s + i * FINSH_CMD_SIZE.
(** memcmp of the C library: of its result only the comparison with 0 is used *)
Definition memcmp (p q n : Z) : M mem Z := rt_memcmp p q n.

(** * shell_handle_history: erase the line on the terminal and print it again *)
Definition shell_handle_history : HSh Z :=
  on_sh (kputs [27; 91; 50; 75; 13];;
    let* p := finsh_get_prompt in
    let* s := get in
    let* t := on_mem (text_at (line s)) in
    kputs (p ++ t));;
  ret 0.

(** * shell_push_history *)
(** the line into slot [index], with zeros behind it *)
Definition store_line (index : Z) : HSh unit :=
  let* s := get in
  on_smem (memset (slot s index) 0 FINSH_CMD_SIZE);;
  on_smem (memcpy (slot s index) (line (sh s)) (line_position (sh s)));;
  ret tt.
(** for (index = 0; index < FINSH_HISTORY_LINES - 1; index ++) *)
Fixpoint move_loop (n : nat) (index : Z) : HSh unit :=
  match n with
  | O => ret tt
  | S n =>
      let* s := get in
      on_smem (memcpy (slot s index) (slot s (index + 1)) FINSH_CMD_SIZE);;
      move_loop n (index + 1)
  end.
Definition shell_push_history : HSh unit :=
  let* s := get in
  when (truthy (line_position (sh s)))
    (if FINSH_HISTORY_LINES <=? history_count s then
       let* c := on_smem (memcmp (slot s (FINSH_HISTORY_LINES - 1)) (line (sh s)) FINSH_CMD_SIZE) in
       when (truthy c)
         (move_loop (Z.to_nat (FINSH_HISTORY_LINES - 1)) 0;;
          store_line (FINSH_HISTORY_LINES - 1);;
          modify (set_count FINSH_HISTORY_LINES))
     else
       let* fresh := (if history_count s =? 0 then ret true
         else let* c := on_smem (memcmp (slot s (history_count s - 1)) (line (sh s)) FINSH_CMD_SIZE) in ret (truthy c)) in
       when fresh
         (modify (set_current (history_count s));;
          store_line (history_count s);;
          modify (set_count (u16 (history_count s + 1)))));;
  let* s := get in modify (set_current (history_count s)).

(** * Keys *)
(** copy the history command *)
Definition recall : HSh unit :=
  let* s := get in
  on_smem (memcpy (line (sh s)) (slot s (current_history s)) FINSH_CMD_SIZE);;
  let* n := on_smem (strlen (line (sh s))) in
  on_sh (modify (set_pos (u16 n) (u16 n)));;
  let* _r := shell_handle_history in ret tt.
Definition up_key : HSh unit :=
  let* s := get in
  if 0 <? current_history s then modify (set_current (u16 (current_history s - 1)));; recall
  else modify (set_current 0).
Definition down_key : HSh unit :=
  let* s := get in
  if current_history s <? history_count s - 1 then modify (set_current (u16 (current_history s + 1)));; recall
  else if negb (history_count s =? 0) then modify (set_current (u16 (history_count s - 1)));; recall
  else ret tt.

Section keys.
Context (table : list finsh_syscall) (call : Z -> list Z -> M mem Z) (tab : Sh unit).

Definition normal_key (ch : Z) : HSh action :=
  if ((ch =? 0) || (ch =? 255))%bool then ret Delay
  else if ch =? 9 then on_sh tab;; ret Continue
  else if ((ch =? 127) || (ch =? 8))%bool then on_sh backspace_key;; ret Continue
  else if ((ch =? 13) || (ch =? 10))%bool then shell_push_history;; on_sh (enter_key table call);; ret Continue
  else on_sh (char_key ch);; ret Continue.
Definition finsh_key (ch : Z) : HSh action :=
  let* s := get in
  if ch =? 27 then on_sh (modify (set_stat WAIT_SPEC_KEY));; ret Continue
  else match stat (sh s) with
  | WAIT_SPEC_KEY =>
      if ch =? 91 then on_sh (modify (set_stat WAIT_FUNC_KEY));; ret Continue
      else on_sh (modify (set_stat WAIT_NORMAL));; normal_key ch
  | WAIT_FUNC_KEY =>
      on_sh (modify (set_stat WAIT_NORMAL));;
      if ch =? 65 then up_key;; ret Continue
      else if ch =? 66 then down_key;; ret Continue
      else if ch =? 68 then on_sh left_key;; ret Continue
      else if ch =? 67 then on_sh right_key;; ret Continue
      else normal_key ch
  | WAIT_NORMAL => normal_key ch
  end.
(** the loop of the thread for the keys [chs] *)
Definition feed_keys (chs : list Z) : HSh unit := for_each (fun ch => let* _a := finsh_key ch in ret tt) chs.
End keys.
