(* ===== verification/HistorySpec.v ===== *)
(** The history refines a list of the last five lines, without an immediate
    repetition, and the editor with it an abstract editor. *)
From S2P Require Import Prelude KService Mem Heap KString Libc Msh Shell ShellSpec History.

(** * The bytes of a line *)
Lemma holds_agree m m' a l r : holds m a l r -> byte_mem m' -> (forall x, a <= x < a + FINSH_CMD_SIZE -> m' !! x = m !! x) -> holds m' a l r.
Proof.
  intros [Hb (M1 & M2 & M3) He Hlen Ht Hl] Hb' Hx. split; try done.
  - split_and!; [done..|]. intros x Hx'. rewrite Hx by done. by apply M3.
  - intros i c Hi. rewrite Hx; [by apply Hl|]. apply lookup_lt_Some in Hi. rewrite !length_app, length_replicate in Hi. unfold FINSH_CMD_SIZE. lia.
Qed.
(** a slot that is copied *)
Lemma holds_copied m m' d s l : copied m m' d s FINSH_CMD_SIZE -> holds m s l [] -> mapped m d FINSH_CMD_SIZE -> d <> 0 -> d + FINSH_CMD_SIZE < 4294967296 ->
  holds m' d l [].
Proof.
  intros Hc [Hb Hm He Hlen Ht Hl] Hd Hd0 Hd1. split; try done.
  - by eapply copied_byte_mem.
  - by eapply copied_mapped.
  - intros i c Hi. pose proof (lookup_lt_Some _ _ _ Hi) as Hlt. rewrite !length_app, length_replicate in Hlt. unfold FINSH_CMD_SIZE in *.
    rewrite Hc, decide_True by lia. replace (d + Z.of_nat i - d + s) with (s + Z.of_nat i) by lia. by apply Hl.
Qed.
(** the text of the line is copied into a slot with zeros *)
Lemma holds_stored m m' d s l r : holds m s l r -> mapped m d FINSH_CMD_SIZE -> d <> 0 -> d + FINSH_CMD_SIZE < 4294967296 ->
  d + FINSH_CMD_SIZE <= s \/ s + FINSH_CMD_SIZE <= d ->
  copied (fill (Z.to_nat FINSH_CMD_SIZE) d 0 m) m' d s (Z.of_nat (length l + length r)) -> holds m' d (l ++ r) [].
Proof.
  intros H Hd Hd0 Hd1 Hds Hc. pose proof H as [Hb Hm He Hlen Ht Hl]. unfold FINSH_CMD_SIZE in *.
  assert (Hb1 : byte_mem (fill (Z.to_nat 80) d 0 m)).
  { intros x b. rewrite lookup_fill. case_decide; [intros [= <-]; lia|apply Hb]. }
  split; try done.
  - by eapply copied_byte_mem.
  - destruct Hd as (D1 & D2 & D3). split_and!; [done..|]. intros x Hx. rewrite Hc. unfold FINSH_CMD_SIZE in Hx. rewrite !lookup_fill.
    destruct Hm as (_ & _ & M3). destruct (decide (d <= x < d + Z.of_nat (length l + length r))).
    + rewrite decide_False by lia. apply M3. lia.
    + rewrite decide_True by lia. eauto.
  - rewrite length_app. cbn [length]. lia.
  - by rewrite app_nil_r.
  - intros i c Hi. pose proof (lookup_lt_Some _ _ _ Hi) as Hlt. rewrite !length_app, length_replicate in Hlt. cbn [length] in Hlt.
    rewrite Hc, !lookup_fill. destruct (decide (i < length l + length r)%nat) as [Hlr|Hlr].
    + rewrite decide_True, decide_False by lia. replace (d + Z.of_nat i - d + s) with (s + Z.of_nat i) by lia. apply Hl.
      rewrite lookup_app_l in Hi by (rewrite length_app; lia). rewrite app_assoc. by apply lookup_app_l_Some.
    + rewrite decide_False, decide_True by lia. rewrite lookup_app_r in Hi by (rewrite length_app; lia). cbn [app] in Hi.
      by apply lookup_replicate in Hi as [-> _].
Qed.
(** ** memcmp of two lines *)
Lemma bytes_at_holds m a l r : holds m a l r -> bytes_at m a 80 = l ++ r ++ replicate (80 - length l - length r) 0.
Proof.
  intros H. pose proof (ho_len _ _ _ _ H). apply list_eq. intros i. unfold bytes_at. rewrite list_lookup_fmap.
  destruct (decide (i < 80)%nat) as [Hi|Hi].
  - rewrite lookup_seqZ_lt by lia. cbn. unfold byte_of. rewrite (Z.add_0_l (Z.of_nat i)), (holds_lookup _ _ _ _ _ H Hi), line_lookup.
    repeat case_decide; try lia; try done.
    + destruct (lookup_lt_is_Some_2 l i) as [c ->]; [done|]. done.
    + destruct (lookup_lt_is_Some_2 r (i - length l)) as [c ->]; [lia|]. done.
  - rewrite lookup_seqZ_ge by lia. symmetry. apply lookup_ge_None. rewrite !length_app, length_replicate. lia.
Qed.
Lemma padded_inj n m l k : Forall printable l -> Forall printable k -> l ++ replicate n 0 = k ++ replicate m 0 -> l = k.
Proof.
  revert k. induction l as [|a l IH]; intros [|b k] Hl Hk E; [done| | |]; cbn [app] in E.
  - destruct n; [done|]. cbn in E. injection E as <- _. apply Forall_cons in Hk as [Hk _]. unfold printable in Hk. lia.
  - destruct m; [done|]. cbn in E. injection E as -> _. apply Forall_cons in Hl as [Hl _]. unfold printable in Hl. lia.
  - injection E as -> E. apply Forall_cons in Hl as [_ Hl], Hk as [_ Hk]. f_equal. by apply IH.
Qed.
Lemma memcmp_lines m p q l l' r' : holds m p l [] -> holds m q l' r' ->
  exists c, memcmp p q FINSH_CMD_SIZE m = Ok (c, m) /\ (c = 0 <-> l = l' ++ r').
Proof.
  intros Hp Hq. eexists. split; [apply (rt_memcmp_run m p q 80); [apply Hp|apply Hq]|].
  rewrite bytes_diff_zero by (unfold bytes_at; by rewrite !length_fmap, !length_seqZ).
  rewrite (bytes_at_holds _ _ _ _ Hp), (bytes_at_holds _ _ _ _ Hq). cbn [app]. rewrite app_assoc.
  pose proof (ho_text _ _ _ _ Hp) as Tp. rewrite app_nil_r in Tp. split.
  - intros E. eapply padded_inj; [done|apply (ho_text _ _ _ _ Hq)|exact E].
  - intros ->. f_equal. f_equal. rewrite length_app. cbn [length]. lia.
Qed.

(** * The array of lines *)
(** the state with the memory [m] *)
Definition with_mem (m : mem) (s : hshell) : hshell := set_sh (set_smem m (sh s)) s.
Lemma on_smem_run {A} (f : M mem A) a m s : f (smem (sh s)) = Ok (a, m) -> on_smem f s = Ok (a, with_mem m s).
Proof. intros H. unfold on_smem, on_sh, on_mem. by rewrite H. Qed.
Lemma on_smem_read {A} (f : M mem A) a s : f (smem (sh s)) = Ok (a, smem (sh s)) -> on_smem f s = Ok (a, s).
Proof. intros H. rewrite (on_smem_run f a (smem (sh s))) by done. unfold with_mem. rewrite set_smem_id. by destruct s. Qed.

(** slot [j] of the array at [b] *)
Definition slot_at (b j : Z) : Z := b + j * FINSH_CMD_SIZE.
Definition in_array (b x : Z) : Prop := b <= x < b + 400.
Record array_ok (m : mem) (b : Z) : Prop := {
  ar_mapped : mapped m b 400;
  ar_bytes : byte_mem m;
  ar_range : 0 < b /\ b + 400 < 4294967296;
}.
Definition slots (m : mem) (b j : Z) (h : list (list Z)) : Prop :=
  forall k l, h !! k = Some l -> holds m (slot_at b (j + Z.of_nat k)) l [].
Lemma slot_mapped m b j : array_ok m b -> 0 <= j < 5 -> mapped m (slot_at b j) FINSH_CMD_SIZE /\ slot_at b j <> 0 /\ slot_at b j + FINSH_CMD_SIZE < 4294967296.
Proof.
  intros [(M1 & M2 & M3) _ ?] Hj. unfold slot_at, FINSH_CMD_SIZE. split; [|lia]. split_and!; [lia|lia|]. intros x Hx. apply M3. lia.
Qed.
Lemma slots_agree m m' b j h : slots m b j h -> byte_mem m' ->
  (forall x, slot_at b j <= x < slot_at b (j + Z.of_nat (length h)) -> m' !! x = m !! x) -> slots m' b j h.
Proof.
  intros Hs Hb Hx k l Hk. eapply holds_agree; [by apply Hs|done|]. intros x Hx'. apply Hx. apply lookup_lt_Some in Hk.
  unfold slot_at, FINSH_CMD_SIZE in *. lia.
Qed.
Lemma slots_snoc m b j h l : slots m b j h -> holds m (slot_at b (j + Z.of_nat (length h))) l [] -> slots m b j (h ++ [l]).
Proof.
  intros Hs Hl k x Hk. apply lookup_snoc_Some in Hk as [[_ Hk]|[-> <-]]; [by apply Hs|done].
Qed.
Lemma array_agree m m' b : array_ok m b -> byte_mem m' -> (forall x, is_Some (m !! x) -> is_Some (m' !! x)) -> array_ok m' b.
Proof. intros [(M1 & M2 & M3) _ R] Hb Hx. split; [|done|done]. split_and!; [done..|]. intros x H. by apply Hx, M3. Qed.

(** each slot gets the line of the next one *)
Lemma move_loop_run s h n : forall j l, cmd_history s = h -> 0 <= j -> j + Z.of_nat n < 5 -> length l = S n ->
  array_ok (smem (sh s)) h -> slots (smem (sh s)) h j l ->
  exists m', move_loop n j s = Ok (tt, with_mem m' s) /\ array_ok m' h /\ slots m' h j (tail l) /\
    (forall x, ~ (slot_at h j <= x < slot_at h (j + Z.of_nat n)) -> m' !! x = smem (sh s) !! x).
Proof.
  revert s. induction n as [|n IH]; intros s j l Hh Hj Hn Hlen Ha Hs; cbn [move_loop].
  - exists (smem (sh s)). destruct l as [|x [|]]; try done. unfold with_mem. rewrite set_smem_id. split_and!; [by destruct s|done|done|done].
  - destruct l as [|x [|y l]]; [done..|]. erewrite bind_run; [cbv beta|reflexivity].
    destruct (slot_mapped _ _ j Ha) as (D1 & D2 & D3); [lia|]. destruct (slot_mapped _ _ (j + 1) Ha) as (S1 & S2 & S3); [lia|].
    assert (Hap : slot_at h (j + 1) = slot_at h j + FINSH_CMD_SIZE) by (unfold slot_at; lia).
    unfold slot. rewrite Hh. fold (slot_at h j) (slot_at h (j + 1)).
    destruct (memcpy_run (smem (sh s)) (slot_at h j) (slot_at h (j + 1)) FINSH_CMD_SIZE) as (m1 & E1 & C1);
      [done|done|apply Ha|unfold FINSH_CMD_SIZE; lia|left; unfold FINSH_CMD_SIZE in *; lia|].
    erewrite bind_run; [cbv beta|by apply on_smem_run].
    assert (Hb1 : byte_mem m1) by (eapply copied_byte_mem; [exact C1|apply Ha]).
    assert (Hx1 : forall z, ~ (slot_at h j <= z < slot_at h j + FINSH_CMD_SIZE) -> m1 !! z = smem (sh s) !! z)
      by (intros z Hz; rewrite C1; by rewrite decide_False).
    destruct (IH (with_mem m1 s) (j + 1) (y :: l)) as (m' & E & Ha' & Hs' & Hx'); [done|lia|lia|cbn in *; lia| | |].
    + eapply array_agree; [exact Ha|done|]. intros z Hz. by eapply is_Some_copied.
    + intros k t Hk. eapply holds_agree; [|done|].
      * replace (j + 1 + Z.of_nat k) with (j + Z.of_nat (S k)) by lia. by apply Hs.
      * intros z Hz. apply Hx1. unfold slot_at, FINSH_CMD_SIZE in *. lia.
    + exists m'. split; [rewrite E; unfold with_mem; by destruct s as [[]]|]. split; [done|]. cbn [tail] in *. split.
      * intros [|k] t Hk; cbn in Hk.
        -- injection Hk as <-. rewrite Z.add_0_r. eapply holds_agree.
           ++ eapply holds_copied; [exact C1| |done..]. specialize (Hs 1%nat y eq_refl). exact Hs.
           ++ apply Ha'.
           ++ intros z Hz. apply Hx'. unfold slot_at, FINSH_CMD_SIZE in *. lia.
        -- replace (j + Z.of_nat (S k)) with (j + 1 + Z.of_nat k) by lia. by apply Hs'.
      * intros z Hz. rewrite Hx' by (unfold slot_at, FINSH_CMD_SIZE in *; lia). cbn [smem sh with_mem set_sh set_smem].
        apply Hx1. unfold slot_at, FINSH_CMD_SIZE in *. lia.
Qed.
(** the line goes into slot [j] *)
Lemma store_line_run s l r j : shows (sh s) l r -> array_ok (smem (sh s)) (cmd_history s) -> 0 <= j < 5 ->
  (forall x, in_array (cmd_history s) x -> ~ line_of (sh s) x) ->
  exists m', store_line j s = Ok (tt, with_mem m' s) /\ array_ok m' (cmd_history s) /\ holds m' (slot_at (cmd_history s) j) (l ++ r) [] /\
    (forall x, ~ (slot_at (cmd_history s) j <= x < slot_at (cmd_history s) j + FINSH_CMD_SIZE) -> m' !! x = smem (sh s) !! x).
Proof.
  intros Hsh Ha Hj Hap. destruct (slot_mapped _ _ j Ha) as (D1 & D2 & D3); [lia|]. destruct (shows_bounds _ _ _ Hsh) as (Ep & _ & Hlen & _).
  pose proof (sh_holds _ _ _ Hsh) as Hl. set (d := slot_at (cmd_history s) j) in *.
  assert (Hds : d + FINSH_CMD_SIZE <= line (sh s) \/ line (sh s) + FINSH_CMD_SIZE <= d).
  { destruct (decide (d + FINSH_CMD_SIZE <= line (sh s))); [by left|]. right. destruct (decide (line (sh s) + FINSH_CMD_SIZE <= d)); [done|]. exfalso.
    apply (Hap (Z.max d (line (sh s)))); unfold line_of, in_array, d, slot_at, FINSH_CMD_SIZE in *; lia. }
  unfold store_line. erewrite bind_run; [cbv beta|reflexivity]. change (slot s j) with d.
  erewrite bind_run; [cbv beta|apply on_smem_run, memset_run; [exact D1|unfold FINSH_CMD_SIZE; lia]]. change (u8 0) with 0. rewrite Ep.
  set (m1 := fill (Z.to_nat FINSH_CMD_SIZE) d 0 (smem (sh s))).
  assert (Hb1 : byte_mem m1) by (intros x b; unfold m1; rewrite lookup_fill; case_decide; [intros [= <-]; lia|apply Ha]).
  destruct (memcpy_run m1 d (line (sh s)) (Z.of_nat (length l + length r))) as (m2 & E2 & C2).
  - apply mapped_fill. eapply mapped_sub; [apply (ho_mapped _ _ _ _ Hl)|lia|unfold FINSH_CMD_SIZE; lia].
  - apply mapped_fill. eapply mapped_sub; [exact D1|lia|unfold FINSH_CMD_SIZE; lia].
  - done.
  - lia.
  - unfold FINSH_CMD_SIZE in *. lia.
  - erewrite bind_run; [cbv beta|apply on_smem_run; exact E2]. exists m2. split; [unfold ret, with_mem; by destruct s as [[]]|]. split_and!.
    + eapply (array_agree _ _ _ Ha); [by eapply copied_byte_mem|]. intros x Hx. eapply is_Some_copied; [exact C2| |].
      * apply mapped_fill. eapply mapped_sub; [apply (ho_mapped _ _ _ _ Hl)|lia|unfold FINSH_CMD_SIZE; lia].
      * unfold m1. rewrite lookup_fill. case_decide; [by eexists|done].
    + by eapply holds_stored.
    + intros x Hx. rewrite C2. unfold FINSH_CMD_SIZE in *. rewrite decide_False by lia. unfold m1. rewrite lookup_fill. by rewrite decide_False by lia.
Qed.

(** * Pushing a line *)
(** the lines [h], of which number [i] is the next one that the key down goes
    behind *)
Record remembers (s : hshell) (h : list (list Z)) (i : nat) : Prop := {
  re_count : history_count s = Z.of_nat (length h);
  re_len : (length h <= 5)%nat;
  re_current : current_history s = Z.of_nat i;
  re_at : (i <= length h)%nat;
  re_slots : slots (smem (sh s)) (cmd_history s) 0 h;
  re_array : array_ok (smem (sh s)) (cmd_history s);
  re_apart : forall x, in_array (cmd_history s) x -> ~ line_of (sh s) x;
}.
(** the shell's memory changes only in its line and in the array *)
Definition hframe (s s' : hshell) : Prop :=
  line (sh s') = line (sh s) /\ cmd_history s' = cmd_history s /\
  forall x, ~ line_of (sh s) x -> ~ in_array (cmd_history s) x -> smem (sh s') !! x = smem (sh s) !! x.
Lemma hframe_trans s1 s2 s3 : hframe s1 s2 -> hframe s2 s3 -> hframe s1 s3.
Proof.
  intros (L1 & C1 & F1) (L2 & C2 & F2). split_and!; [congruence..|]. intros x Hx Hy. rewrite F2, F1; [done..| |]; unfold line_of in *; by rewrite ?L1, ?C1.
Qed.
(** Only the history is kept that is neither empty nor the last line again; the
    oldest line of five goes. *)
Definition push (h : list (list Z)) (l : list Z) : list (list Z) :=
  if bool_decide (l = [] \/ last h = Some l) then h
  else if (length h <? 5)%nat then h ++ [l] else tail h ++ [l].
Lemma push_length h l : (length h <= 5)%nat -> (length (push h l) <= 5)%nat.
Proof.
  intros Hh. unfold push. case_bool_decide; [done|]. destruct (Nat.ltb_spec (length h) 5); rewrite length_app; cbn; [lia|]. destruct h; cbn in *; lia.
Qed.

Lemma shows_mem s l r m : shows s l r -> holds m (line s) l r -> shows (set_smem m s) l r.
Proof. intros [H1 H2 H3 H4 H5 H6 H7] Hm. split; try done. Qed.
Lemma last_lookup_slot {A} (h : list A) : (0 < length h)%nat -> exists x, h !! pred (length h) = Some x /\ last h = Some x.
Proof. intros H. destruct h as [|x h _] using rev_ind; [cbn in H; lia|]. exists x. rewrite last_snoc, length_app. cbn. by rewrite Nat.add_1_r, list_lookup_middle. Qed.
(** the line against the last one that is stored *)
Lemma memcmp_last s l r h i : shows (sh s) l r -> remembers s h i -> (0 < length h)%nat ->
  exists c, on_smem (memcmp (slot s (history_count s - 1)) (line (sh s)) FINSH_CMD_SIZE) s = Ok (c, s) /\ (c = 0 <-> last h = Some (l ++ r)).
Proof.
  intros Hsh [R1 R2 R3 R4 R5 R6 R7] Hh. destruct (last_lookup_slot h Hh) as (x & Hx & ->).
  assert (Hs : slot s (history_count s - 1) = slot_at (cmd_history s) (0 + Z.of_nat (pred (length h)))) by (unfold slot, slot_at, FINSH_CMD_SIZE; rewrite R1; lia).
  destruct (memcmp_lines (smem (sh s)) (slot s (history_count s - 1)) (line (sh s)) x l r) as (c & E & Hc);
    [rewrite Hs; by apply R5|apply (sh_holds _ _ _ Hsh)|].
  exists c. split; [by apply on_smem_read|]. rewrite Hc. split; congruence.
Qed.
Lemma apart_line s l r m : shows (sh s) l r -> (forall x, in_array (cmd_history s) x -> ~ line_of (sh s) x) -> byte_mem m ->
  (forall x, ~ in_array (cmd_history s) x -> m !! x = smem (sh s) !! x) -> shows (set_smem m (sh s)) l r.
Proof.
  intros Hsh Hap Hb Hx. apply shows_mem; [done|]. eapply holds_agree; [apply (sh_holds _ _ _ Hsh)|done|]. intros x Hl. apply Hx. intros Ha. exact (Hap x Ha Hl).
Qed.
(** the last line of shell_push_history, and what holds after it *)
Definition to_end : HSh unit := let* s := get in modify (set_current (history_count s)).
Definition pushed (s s' : hshell) (l r : list Z) (h : list (list Z)) : Prop :=
  shows (sh s') l r /\ hframe s s' /\ remembers s' (push h (l ++ r)) (length (push h (l ++ r))).
Lemma push_skip s l r h i : shows (sh s) l r -> remembers s h i -> push h (l ++ r) = h ->
  exists s', to_end s = Ok (tt, s') /\ pushed s s' l r h.
Proof.
  intros Hsh [R1 R2 R3 R4 R5 R6 R7] E. unfold pushed. rewrite E. exists (set_current (history_count s) s).
  split; [done|]. split; [done|]. split; [done|]. by split.
Qed.
(** the line is stored in slot [j], after which the memory is [m] *)
Lemma push_stored s l r h i m j c old : shows (sh s) l r -> remembers s h i -> 0 <= j < 5 -> push h (l ++ r) = old ++ [l ++ r] -> length old = Z.to_nat j ->
  array_ok m (cmd_history s) -> slots m (cmd_history s) 0 old -> holds m (slot_at (cmd_history s) j) (l ++ r) [] ->
  (forall x, ~ in_array (cmd_history s) x -> m !! x = smem (sh s) !! x) ->
  exists s', to_end (set_count (j + 1) (set_current c (with_mem m s))) = Ok (tt, s') /\ pushed s s' l r h.
Proof.
  intros Hsh [R1 R2 R3 R4 R5 R6 R7] Hj Hpush Hold Ha Hs Hn Hx. exists (set_current (j + 1) (set_count (j + 1) (set_current c (with_mem m s)))).
  unfold pushed. rewrite Hpush, length_app, Hold. split; [done|]. split; [by apply apart_line; [|apply R7|apply Ha|]|].
  split; [split_and!; [done..|intros x _ Hx'; by apply Hx]|].
  split; cbn [history_count current_history sh cmd_history set_current set_count with_mem set_sh]; rewrite ?length_app, ?Hold; cbn [length]; [lia|lia|lia|lia| |exact Ha|exact R7].
  cbn [smem set_smem]. apply slots_snoc; [exact Hs|]. replace (0 + Z.of_nat (length old)) with j by lia. exact Hn.
Qed.
Lemma array_part b j n x : 0 <= j -> j + n <= 5 -> ~ in_array b x -> ~ (slot_at b j <= x < slot_at b (j + n)).
Proof. unfold in_array, slot_at, FINSH_CMD_SIZE. lia. Qed.

(** five lines: the oldest one goes *)
Lemma push_full_run s l r h i : shows (sh s) l r -> remembers s h i -> length h = 5%nat -> push h (l ++ r) = tail h ++ [l ++ r] ->
  exists s', ((move_loop 4 0;; store_line 4;; modify (set_count 5));; to_end) s = Ok (tt, s') /\ pushed s s' l r h.
Proof.
  intros Hsh Hre H5 Hpush. pose proof Hre as [R1 R2 R3 R4 R5 R6 R7]. assert (H4 : length (tail h) = 4%nat) by (destruct h; cbn in *; lia).
  destruct (move_loop_run s (cmd_history s) 4 0 h) as (m1 & E1 & A1 & S1 & X1); [done|lia|lia|done|done|done|].
  assert (Hsh1 : shows (sh (with_mem m1 s)) l r) by (apply apart_line; [done|done|apply A1|intros x Hx; apply X1; by apply (array_part _ 0 4)]).
  destruct (store_line_run (with_mem m1 s) l r 4) as (m2 & E2 & A2 & H2 & X2); [done|done|lia|done|]. cbn [cmd_history with_mem set_sh] in *.
  rewrite bind_assoc. erewrite bind_run; [cbv beta|exact E1]. rewrite bind_assoc. erewrite bind_run; [cbv beta|exact E2]. erewrite bind_run; [cbv beta|reflexivity].
  change (set_count 5 (with_mem m2 (with_mem m1 s))) with (set_count (4 + 1) (set_current (current_history s) (with_mem m2 s))).
  apply (push_stored _ _ _ _ i _ _ _ (tail h)); [done|done|lia|done|done|done| |done|].
  - eapply slots_agree; [exact S1|apply A2|]. intros x Hx. apply X2. rewrite H4 in Hx. unfold slot_at, FINSH_CMD_SIZE in *. lia.
  - intros x Hx. rewrite X2 by (unfold in_array, slot_at, FINSH_CMD_SIZE in *; lia). apply X1. by apply (array_part _ 0 4).
Qed.
Lemma push_room_run s l r h i : shows (sh s) l r -> remembers s h i -> (length h < 5)%nat -> push h (l ++ r) = h ++ [l ++ r] ->
  exists s', ((modify (set_current (history_count s));; store_line (history_count s);; modify (set_count (u16 (history_count s + 1))));; to_end) s = Ok (tt, s') /\
    pushed s s' l r h.
Proof.
  intros Hsh Hre H5 Hpush. pose proof Hre as [R1 R2 R3 R4 R5 R6 R7]. rewrite bind_assoc. erewrite bind_run; [cbv beta|reflexivity].
  destruct (store_line_run (set_current (history_count s) s) l r (history_count s)) as (m2 & E2 & A2 & H2 & X2); [done|done|lia|done|].
  cbn [cmd_history set_current] in *. rewrite bind_assoc. erewrite bind_run; [cbv beta|exact E2]. erewrite bind_run; [cbv beta|reflexivity]. rewrite u16_small by lia.
  change (with_mem m2 (set_current (history_count s) s)) with (set_current (history_count s) (with_mem m2 s)).
  apply (push_stored _ _ _ _ i _ _ (history_count s) h); [done|done|lia|done|lia|done| |done|].
  - eapply slots_agree; [exact R5|apply A2|]. intros x Hx. apply X2. rewrite R1. unfold slot_at, FINSH_CMD_SIZE in *. lia.
  - intros x Hx. apply X2. unfold in_array, slot_at, FINSH_CMD_SIZE in *. lia.
Qed.
Lemma shell_push_history_run s l r h i : shows (sh s) l r -> remembers s h i -> exists s', shell_push_history s = Ok (tt, s') /\ pushed s s' l r h.
Proof.
  intros Hsh Hre. pose proof (re_count _ _ _ Hre) as R1. pose proof (re_len _ _ _ Hre) as R2. destruct (shows_bounds _ _ _ Hsh) as (Ep & _ & Hlen & _).
  unfold shell_push_history. fold to_end. erewrite bind_run; [cbv beta|reflexivity]. unfold truthy at 1. rewrite Ep, <- length_app.
  destruct (decide (l ++ r = [])) as [Enil|Enil]; [rewrite Enil; eapply push_skip; [done|done|by rewrite Enil]|].
  rewrite (proj2 (Z.eqb_neq _ 0)) by (destruct (l ++ r); cbn; [done|lia]). cbn [negb when]. unfold FINSH_HISTORY_LINES.
  destruct (Z.leb_spec 5 (history_count s)) as [Hfull|Hroom].
  - destruct (memcmp_last _ _ _ _ _ Hsh Hre) as (c & E & Hc); [lia|]. replace (5 - 1) with (history_count s - 1) by lia.
    rewrite bind_assoc. erewrite bind_run; [cbv beta|exact E]. unfold truthy. destruct (Z.eqb_spec c 0) as [Hc0|Hc0]; cbn [negb when].
    + eapply push_skip; [done|done|]. unfold push. rewrite bool_decide_eq_true_2; [done|]. right. by apply Hc.
    + replace (Z.to_nat (history_count s - 1)) with 4%nat by lia. replace (history_count s - 1) with 4 by lia.
      eapply push_full_run; [done|done|lia|].
      unfold push. rewrite bool_decide_eq_false_2 by tauto. destruct (Nat.ltb_spec (length h) 5); [lia|done].
  - assert (Hfresh : exists b : bool, (if history_count s =? 0 then ret true else
        let* c := on_smem (memcmp (slot s (history_count s - 1)) (line (sh s)) FINSH_CMD_SIZE) in ret (truthy c)) s = Ok (b, s) /\ (b = false <-> last h = Some (l ++ r))).
    { destruct (Z.eqb_spec (history_count s) 0) as [H0|H0]; [exists true; split; [done|]; destruct h; [split; discriminate|cbn in *; lia]|].
      destruct (memcmp_last _ _ _ _ _ Hsh Hre) as (c & E & Hc); [lia|]. exists (truthy c). split; [by erewrite bind_run; [|exact E]|].
      rewrite truthy_false. exact Hc. }
    destruct Hfresh as (b & E & Hb). rewrite bind_assoc. erewrite bind_run; [cbv beta|exact E]. destruct b; cbn [when].
    + eapply push_room_run; [done|done|lia|]. unfold push.
      rewrite bool_decide_eq_false_2 by (intros [|Hl']; [done|by apply Hb in Hl']). destruct (Nat.ltb_spec (length h) 5); [done|lia].
    + eapply push_skip; [done|done|]. unfold push. rewrite bool_decide_eq_true_2; [done|]. right. by apply Hb.
Qed.

(** * The keys up and down *)
Lemma on_sh_run {A} (m : Sh A) a t s : m (sh s) = Ok (a, t) -> on_sh m s = Ok (a, set_sh t s).
Proof. intros H. unfold on_sh. by rewrite H. Qed.
(** ESC [ 2 K and a carriage return *)
Lemma erase_line_screen a b : fold_left term_put [27; 91; 50; 75; 13] (screen a b) = screen [] (replicate (length (a ++ b)) 32).
Proof. reflexivity. Qed.
Lemma shell_handle_history_run s x k Y : prompt_ok (prompt_of (sh s)) -> holds (smem (sh s)) (line (sh s)) x [] ->
  display (out (sh s)) = screen k Y ->
  exists t, shell_handle_history s = Ok (0, set_sh t s) /\ stat t = stat (sh s) /\ echo_mode t = echo_mode (sh s) /\ prompt_of t = prompt_of (sh s) /\
    line_position t = line_position (sh s) /\ line_curpos t = line_curpos (sh s) /\ smem t = smem (sh s) /\ line t = line (sh s) /\
    exists n, display (out t) = screen (prompt_of t ++ x) (replicate n 32).
Proof.
  intros Hp Hh Hd. pose proof (ho_len _ _ _ _ Hh) as Hlen. cbn [length] in Hlen. pose proof Hp as (Hpr & _ & Hpl).
  unfold shell_handle_history. erewrite bind_run; [cbv beta|apply on_sh_run].
  2:{ erewrite bind_run; [cbv beta|apply kputs_run; cbn; lia]. erewrite bind_run; [cbv beta|by apply (prompt_run (sh s))].
    erewrite bind_run; [cbv beta|reflexivity]. erewrite bind_run; [cbv beta|apply on_mem_read].
    2:{ cbn [smem line add_out]. pose proof (holds_line _ _ _ _ Hh) as Hc. rewrite app_nil_r in Hc. by apply text_at_run. }
    apply kputs_run. rewrite length_app. lia. }
  eexists. split; [reflexivity|]. cbn [stat echo_mode line_position line_curpos smem line out add_out]. split_and!; try done.
  change (prompt_of (add_out _ (add_out _ (sh s)))) with (prompt_of (sh s)). eexists.
  rewrite !display_app, Hd, erase_line_screen, put_text_screen; [by rewrite drop_replicate|].
  apply Forall_app. split; [done|]. pose proof (ho_text _ _ _ _ Hh) as Ht. by rewrite app_nil_r in Ht.
Qed.
Lemma recall_run s l r h i x : shows (sh s) l r -> remembers s h i -> h !! i = Some x ->
  exists s', recall s = Ok (tt, s') /\ shows (sh s') x [] /\ remembers s' h i /\ hframe s s'.
Proof.
  intros Hsh [R1 R2 R3 R4 R5 R6 R7] Hx. destruct Hsh as [H1 H2 H3 H4 H5 H6 (k & H7)]. pose proof (lookup_lt_Some _ _ _ Hx) as Hi.
  pose proof (R5 i x Hx) as Hslot. rewrite Z.add_0_l in Hslot. destruct (holds_range _ _ _ _ H6) as (B1 & B2 & B3).
  pose proof (ho_len _ _ _ _ Hslot) as Hlen. cbn [length] in Hlen.
  assert (Hs : slot s (current_history s) = slot_at (cmd_history s) (Z.of_nat i)) by (unfold slot, slot_at; by rewrite R3).
  assert (Hap : line (sh s) <= slot_at (cmd_history s) (Z.of_nat i) \/ slot_at (cmd_history s) (Z.of_nat i) + FINSH_CMD_SIZE <= line (sh s)).
  { destruct (decide (line (sh s) <= slot_at (cmd_history s) (Z.of_nat i))); [by left|right]. destruct (decide (slot_at (cmd_history s) (Z.of_nat i) + FINSH_CMD_SIZE <= line (sh s))); [done|].
    exfalso. apply (R7 (line (sh s))); unfold line_of, in_array, slot_at, FINSH_CMD_SIZE in *; lia. }
  destruct (memcpy_run (smem (sh s)) (line (sh s)) (slot_at (cmd_history s) (Z.of_nat i)) FINSH_CMD_SIZE) as (m1 & E1 & C1);
    [apply (ho_mapped _ _ _ _ Hslot)|exact B3|apply R6|unfold FINSH_CMD_SIZE; lia|exact Hap|].
  assert (Hl1 : holds m1 (line (sh s)) x []) by (eapply holds_copied; [exact C1|done|exact B3|lia|unfold FINSH_CMD_SIZE; lia]).
  assert (Hm1 : forall y, ~ line_of (sh s) y -> m1 !! y = smem (sh s) !! y) by (intros y Hy; rewrite C1; by rewrite decide_False).
  unfold recall. erewrite bind_run; [cbv beta|reflexivity]. rewrite Hs. erewrite bind_run; [cbv beta|by apply on_smem_run].
  erewrite bind_run; [cbv beta|apply on_smem_read].
  2:{ cbn [sh with_mem set_sh smem set_smem]. pose proof (holds_line _ _ _ _ Hl1) as Hc. rewrite app_nil_r in Hc. apply (rt_strlen_run _ _ _ Hc). }
  rewrite u16_small by lia. erewrite bind_run; [cbv beta|by apply on_sh_run].
  destruct (shell_handle_history_run (set_sh (set_pos (Z.of_nat (length x)) (Z.of_nat (length x)) (set_smem m1 (sh s))) (with_mem m1 s)) x _ _ H3 Hl1 H7)
    as (t & E & T1 & T2 & T3 & T4 & T5 & T6 & T7 & T8).
  erewrite bind_run; [cbv beta|exact E]. cbn [sh with_mem set_sh stat echo_mode line_position line_curpos smem line set_pos set_smem] in *.
  eexists. split; [reflexivity|]. cbn [sh set_sh with_mem]. split_and!.
  - split; rewrite ?T1, ?T2, ?T3, ?T4, ?T5, ?T6, ?T7; [done|done|done|cbn [length]; lia|done|done|]. rewrite <- T3. exact T8.
  - split; cbn [history_count current_history cmd_history sh set_sh]; rewrite ?T6, ?T7; [done|done|done|done| | |].
    + eapply slots_agree; [exact R5|apply Hl1|]. intros y Hy. apply Hm1. intros Hl. apply (R7 y); [|exact Hl]. unfold in_array, slot_at, FINSH_CMD_SIZE in *. cbn [cmd_history with_mem set_sh] in Hy. lia.
    + eapply array_agree; [exact R6|apply Hl1|]. intros y Hy. eapply is_Some_copied; [exact C1|apply (ho_mapped _ _ _ _ Hslot)|done].
    + intros y Hy. unfold line_of. rewrite T7. by apply R7.
  - split_and!; cbn [sh set_sh cmd_history]; [by rewrite T7|done|]. intros y Hy _. rewrite T6. by apply Hm1.
Qed.
Lemma remembers_current s h i j c : remembers s h i -> (j <= length h)%nat -> c = Z.of_nat j -> remembers (set_current c s) h j.
Proof. intros [R1 R2 R3 R4 R5 R6 R7] Hj ->. by split. Qed.
Lemma up_key_run s l r h i x : shows (sh s) l r -> remembers s h (S i) -> h !! i = Some x ->
  exists s', up_key s = Ok (tt, s') /\ shows (sh s') x [] /\ remembers s' h i /\ hframe s s'.
Proof.
  intros Hsh Hre Hx. unfold up_key. erewrite bind_run; [cbv beta|reflexivity]. pose proof (re_current _ _ _ Hre) as Hc. pose proof (re_len _ _ _ Hre).
  pose proof (lookup_lt_Some _ _ _ Hx). rewrite (proj2 (Z.ltb_lt _ _)) by lia. erewrite bind_run; [cbv beta|reflexivity].
  destruct (recall_run (set_current (u16 (current_history s - 1)) s) l r h i x) as (s' & E & H1 & H2 & H3); [done| |done|by exists s'].
  eapply remembers_current; [exact Hre|lia|]. rewrite u16_small; lia.
Qed.
Lemma up_key_first s l r h : shows (sh s) l r -> remembers s h 0 ->
  exists s', up_key s = Ok (tt, s') /\ shows (sh s') l r /\ remembers s' h 0 /\ hframe s s'.
Proof.
  intros Hsh Hre. unfold up_key. erewrite bind_run; [cbv beta|reflexivity]. rewrite (re_current _ _ _ Hre). change (0 <? Z.of_nat 0) with false. cbv iota.
  eexists. split; [reflexivity|]. split; [done|]. split; [|done]. eapply remembers_current; [exact Hre|lia|done].
Qed.
(** the entry that the key down goes to *)
Definition next_entry (h : list (list Z)) (i : nat) : nat := if (S i <? length h)%nat then S i else pred (length h).
Lemma down_key_run s l r h i x : shows (sh s) l r -> remembers s h i -> h !! next_entry h i = Some x ->
  exists s', down_key s = Ok (tt, s') /\ shows (sh s') x [] /\ remembers s' h (next_entry h i) /\ hframe s s'.
Proof.
  intros Hsh Hre Hx. unfold down_key. erewrite bind_run; [cbv beta|reflexivity]. pose proof Hre as [R1 R2 R3 R4 _ _ _].
  pose proof (lookup_lt_Some _ _ _ Hx) as Hlt. unfold next_entry in *. destruct (Nat.ltb_spec (S i) (length h)) as [Hi|Hi].
  - rewrite (proj2 (Z.ltb_lt _ _)) by lia. erewrite bind_run; [cbv beta|reflexivity].
    destruct (recall_run (set_current (u16 (current_history s + 1)) s) l r h (S i) x) as (s' & E & H1 & H2 & H3); [done| |done|by exists s'].
    eapply remembers_current; [exact Hre|lia|]. rewrite u16_small; lia.
  - rewrite (proj2 (Z.ltb_ge _ _)), (proj2 (Z.eqb_neq _ _)) by lia. cbn [negb]. erewrite bind_run; [cbv beta|reflexivity].
    destruct (recall_run (set_current (u16 (history_count s - 1)) s) l r h (pred (length h)) x) as (s' & E & H1 & H2 & H3); [done| |done|by exists s'].
    eapply remembers_current; [exact Hre|lia|]. rewrite u16_small; lia.
Qed.
Lemma down_key_empty s l r : shows (sh s) l r -> remembers s [] 0 -> down_key s = Ok (tt, s).
Proof. intros Hsh [R1 _ R3 _ _ _ _]. unfold down_key. erewrite bind_run; [cbv beta|reflexivity]. by rewrite R1, R3. Qed.

(** * The editor with history *)
(** What the tab key does: from a memory that is ready for it, it replaces the
    line by its completion and puts the cursor at the end. *)
Class TabKey := {
  tab : Sh unit;
  completes : list Z -> list Z;
  tab_ready : Z -> mem -> Prop;
}.
Class TabKeyOk (T : TabKey) := {
  tab_run s l r : tab_ready (line s) (smem s) -> shows s l r -> exists s', tab s = Ok (tt, s') /\ shows s' (completes (l ++ r)) [] /\ frame s s';
}.
(** without completion the line stays *)
#[export] Instance plain_tab : TabKey := {| tab := tab_key; completes := fun l => l; tab_ready := fun _ _ => True |}.
#[export] Instance plain_tab_ok : TabKeyOk plain_tab.
Proof. split. intros s l r _. apply tab_key_run. Qed.

#[export] Instance key_eq_dec : EqDecision key.
Proof. solve_decision. Defined.

(** the text before and behind the cursor, the history, and the place in it *)
Record editor := { before : list Z; behind : list Z; hist : list (list Z); place : nat }.
Inductive hkey := Edit (k : key) | Up | Down | Enter.
Definition hkey_bytes (k : hkey) : list Z :=
  match k with Edit k => key_bytes k | Up => [27; 91; 65] | Down => [27; 91; 66] | Enter => [13] end.
Definition hkey_ok (k : hkey) : Prop := match k with Edit k => key_ok k | _ => True end.
Definition goto (e : editor) (i : nat) : editor :=
  match hist e !! i with
  | Some x => {| before := x; behind := []; hist := hist e; place := i |}
  | None => e
  end.
(** a character needs room in the line *)
Definition press `{TabKey} (e : editor) (k : hkey) : option editor :=
  match k with
  | Edit Tab => Some {| before := completes (before e ++ behind e); behind := []; hist := hist e; place := place e |}
  | Edit k =>
      let z := edit (before e, behind e) k in
      if (length (before e) + length (behind e) + typed k <? 80)%nat
      then Some {| before := z.1; behind := z.2; hist := hist e; place := place e |} else None
  | Up => Some (match place e with O => e | S i => goto e i end)
  | Down => Some (goto e (next_entry (hist e) (place e)))
  | Enter => let h := push (hist e) (before e ++ behind e) in Some {| before := []; behind := []; hist := h; place := length h |}
  end.
Fixpoint press_all `{TabKey} (e : editor) (ks : list hkey) : option editor :=
  match ks with
  | [] => Some e
  | k :: ks => match press e k with Some e => press_all e ks | None => None end
  end.

(** commands leave the bytes [P] alone *)
Definition commands_keep (P : Z -> Prop) (call : Z -> list Z -> M mem Z) : Prop :=
  forall f argv m x m', call f argv m = Ok (x, m') -> forall y, P y -> m' !! y = m !! y.
Lemma executed_keeps (P D : Z -> Prop) call names text m m' : executed call names D text m m' -> commands_keep P call ->
  forall y, P y -> ~ D y -> m' !! y = m !! y.
Proof.
  unfold executed. cbv zeta. intros H Hq y Hy HD. case_bool_decide; [by apply H|]. destruct H as (argv & m1 & x & m2 & _ & E1 & E2 & E3).
  rewrite E3 by done. rewrite (Hq _ _ _ _ _ E2 y Hy). by apply E1.
Qed.
Lemma remembers_frame s t h i : remembers s h i -> frame (sh s) t -> byte_mem (smem t) -> (forall x, is_Some (smem (sh s) !! x) -> is_Some (smem t !! x)) ->
  remembers (set_sh t s) h i.
Proof.
  intros [R1 R2 R3 R4 R5 R6 R7] [F1 F2] Hb Hd. split; cbn [sh set_sh history_count current_history cmd_history]; try done.
  - eapply slots_agree; [exact R5|done|]. intros x Hx. apply F2, R7. unfold in_array, slot_at, FINSH_CMD_SIZE in *. lia.
  - by eapply array_agree.
  - intros x Hx. unfold line_of. rewrite F1. by apply R7.
Qed.
Lemma remembers_shows s t h i l r : remembers s h i -> frame (sh s) t -> shows t l r -> remembers (set_sh t s) h i.
Proof.
  intros Hre [F1 F2] Hsh. pose proof (sh_holds _ _ _ Hsh) as Hh. apply remembers_frame; [done|done|apply Hh|].
  intros x Hx. destruct (decide (line_of (sh s) x)) as [Hl|Hl]; [|by rewrite F2].
  destruct (ho_mapped _ _ _ _ Hh) as (_ & _ & M). apply M. unfold line_of in Hl. by rewrite F1.
Qed.

Section session.
Context (table : list finsh_syscall) (call : Z -> list Z -> M mem Z) (names : list (list Z * Z)) {T : TabKey} {TO : TabKeyOk T}.
(** the bytes of the table of commands *)
Context (env : Z -> Prop).
(** [m] has the table, and is ready for the tab key, with the line at [a] *)
Definition env_ok (a : Z) (m : mem) : Prop := forall m', (forall x, env x -> m' !! x = m !! x) -> table_at m' table names /\ tab_ready a m'.
(** the shell shows the editor's text and remembers its history; commands
    return, and change neither the history nor the table *)
Record edits (s : hshell) (e : editor) : Prop := {
  ed_shows : shows (sh s) (before e) (behind e);
  ed_hist : remembers s (hist e) (place e);
  ed_env : env_ok (line (sh s)) (smem (sh s));
  ed_apart : forall x, env x -> ~ line_of (sh s) x /\ ~ in_array (cmd_history s) x;
  ed_return : commands_return (line_of (sh s)) call;
  ed_keep : commands_keep (fun x => in_array (cmd_history s) x \/ env x) call;
}.
Lemma env_ok_agree a m m' : env_ok a m -> (forall x, env x -> m' !! x = m !! x) -> env_ok a m'.
Proof. intros H Hx m2 H2. apply H. intros x Hx'. rewrite H2 by done. by apply Hx. Qed.
(** a key that keeps to the line and the history *)
Lemma edits_step s e s' e' : edits s e -> shows (sh s') (before e') (behind e') -> remembers s' (hist e') (place e') ->
  line (sh s') = line (sh s) -> cmd_history s' = cmd_history s -> (forall x, env x -> smem (sh s') !! x = smem (sh s) !! x) -> edits s' e'.
Proof.
  intros [H1 H2 H3 H4 H5 H6] Hsh Hre El Ec Hx. split; [done|done|rewrite El; by eapply env_ok_agree| | |].
  - intros x Ex. unfold line_of. rewrite El, Ec. by apply H4.
  - unfold commands_return, line_of in *. by rewrite El.
  - by rewrite Ec.
Qed.
Lemma edits_hframe s e s' e' : edits s e -> shows (sh s') (before e') (behind e') -> remembers s' (hist e') (place e') -> hframe s s' -> edits s' e'.
Proof.
  intros He Hsh Hre (F1 & F2 & F3). eapply edits_step; [done..|]. intros x Hx. destruct (ed_apart _ _ He x Hx). by apply F3.
Qed.
Lemma edits_frame s e t e' : edits s e -> shows t (before e') (behind e') -> hist e' = hist e -> place e' = place e -> frame (sh s) t -> edits (set_sh t s) e'.
Proof.
  intros He Hsh E1 E2 F. pose proof F as [F1 F2]. eapply edits_hframe; [exact He|done| |].
  - rewrite E1, E2. eapply remembers_shows; [by apply He|done|done].
  - split_and!; [done|done|]. intros x Hx _. by apply F2.
Qed.

(** ** The loop of the thread *)
Abbreviation keys := (feed_keys table call tab).
Lemma keys_app a b s s1 : keys a s = Ok (tt, s1) -> keys (a ++ b) s = keys b s1.
Proof.
  unfold feed_keys. revert s. induction a as [|c a IH]; intros s; cbn [for_each app]; [by intros [= ->]|].
  intros E. apply bind_ok in E as ([] & s0 & E1 & E2). erewrite bind_run; [|exact E1]. by apply IH.
Qed.
Lemma plain_key c s x s1 : stat (sh s) = WAIT_NORMAL -> c <> 27 -> normal_key table call tab c s = Ok (x, s1) -> keys [c] s = Ok (tt, s1).
Proof.
  intros Hs Hc E. assert (E' : finsh_key table call tab c s = Ok (x, s1)).
  { unfold finsh_key. erewrite bind_run; [cbv beta|reflexivity]. by rewrite (proj2 (Z.eqb_neq _ _)), Hs. }
  unfold feed_keys, bind. cbn [for_each]. unfold bind. by rewrite E'.
Qed.
(** an escape sequence: the last byte selects the key *)
Lemma escape_key c m s s1 : stat (sh s) = WAIT_NORMAL -> In (c, m) [(65, up_key); (66, down_key); (68, on_sh left_key); (67, on_sh right_key)] ->
  m s = Ok (tt, s1) -> keys [27; 91; c] s = Ok (tt, s1).
Proof.
  intros Hs Hin E. unfold feed_keys. cbn [for_each]. erewrite bind_run; [cbv beta|reflexivity]. erewrite bind_run; [cbv beta|reflexivity].
  erewrite bind_run; [reflexivity|]. unfold finsh_key. rewrite bind_assoc. erewrite bind_run; [cbv beta|reflexivity].
  set (s2 := set_sh _ _). assert (Es : on_sh (modify (set_stat WAIT_NORMAL)) s2 = Ok (tt, s))
    by (unfold s2, on_sh, modify; cbn; clear E; destruct s as [[]]; cbn in Hs; by subst).
  change (stat (sh s2)) with WAIT_FUNC_KEY.
  destruct Hin as [H|[H|[H|[H|[]]]]]; injection H as <- <-; cbn [Z.eqb Pos.eqb]; rewrite !bind_assoc;
    (erewrite bind_run; [cbv beta|exact Es]); rewrite bind_assoc; by (erewrite bind_run; [|exact E]).
Qed.
(** the keys of the editor, and tab *)
Lemma edit_press s e k e' : edits s e -> key_ok k -> press e (Edit k) = Some e' ->
  exists s', keys (key_bytes k) s = Ok (tt, s') /\ edits s' e'.
Proof.
  intros He Hk Hp. pose proof (ed_shows _ _ He) as Hsh. pose proof (sh_stat _ _ _ Hsh) as Hs.
  destruct (decide (k = Tab)) as [->|Ht].
  - injection Hp as <-. destruct (tab_run (sh s) (before e) (behind e)) as (t & E & Ht & Hf); [by apply (ed_env _ _ He)|done|].
    exists (set_sh t s). split; [|by eapply edits_frame]. eapply plain_key; [done|done|]. unfold normal_key. cbn [Z.eqb Pos.eqb orb].
    by erewrite bind_run; [|by apply on_sh_run].
  - assert (Hroom : (length (before e) + length (behind e) + typed k < 80)%nat /\
      e' = {| before := (edit (before e, behind e) k).1; behind := (edit (before e, behind e) k).2; hist := hist e; place := place e |}).
    { destruct k; try done; cbn [press] in Hp; cbv zeta in Hp; match type of Hp with (if (?x <? 80)%nat then _ else _) = _ => destruct (Nat.ltb_spec x 80); [|done] end;
        (split; [lia|congruence]). }
    destruct Hroom as [Hroom ->]. destruct (key_action_run _ _ _ _ Hsh Hk Hroom) as (t & E & H' & Hf).
    exists (set_sh t s). split; [|by eapply edits_frame].
    destruct k as [c| | | |]; cbn [key_bytes key_action key_ok] in *; [| | | |done].
    + eapply plain_key; [done|unfold printable in Hk; lia|]. unfold normal_key, printable in *. rewrite !(proj2 (Z.eqb_neq c _)) by lia. cbn [orb].
      by erewrite bind_run; [|by apply on_sh_run].
    + eapply escape_key; [done| |by apply on_sh_run]. cbn. tauto.
    + eapply escape_key; [done| |by apply on_sh_run]. cbn. tauto.
    + eapply plain_key; [done|done|]. unfold normal_key. cbn [Z.eqb Pos.eqb orb]. by erewrite bind_run; [|by apply on_sh_run].
Qed.
(** up and down *)
Lemma move_press s e c m e' : edits s e -> In (c, m) [(65, up_key); (66, down_key); (68, on_sh left_key); (67, on_sh right_key)] ->
  (exists s', m s = Ok (tt, s') /\ shows (sh s') (before e') (behind e') /\ remembers s' (hist e') (place e') /\ hframe s s') ->
  exists s', keys [27; 91; c] s = Ok (tt, s') /\ edits s' e'.
Proof.
  intros He Hin (s' & E & H1 & H2 & H3). exists s'. split; [|by eapply edits_hframe]. eapply escape_key; [apply (ed_shows _ _ He)|exact Hin|exact E].
Qed.
Lemma up_press s e e' : edits s e -> press e Up = Some e' -> exists s', keys [27; 91; 65] s = Ok (tt, s') /\ edits s' e'.
Proof.
  intros He Hp. injection Hp as <-. pose proof (ed_shows _ _ He) as Hsh. pose proof (ed_hist _ _ He) as Hre. apply (move_press s e _ up_key); [done|cbn; tauto|].
  destruct (place e) as [|i] eqn:Ei; [rewrite Ei; by apply up_key_first|].
  destruct (lookup_lt_is_Some_2 (hist e) i) as [x Hx]; [pose proof (re_at _ _ _ Hre); lia|]. unfold goto. rewrite Hx. cbn [before behind hist place].
  by eapply up_key_run.
Qed.
Lemma down_press s e e' : edits s e -> press e Down = Some e' -> exists s', keys [27; 91; 66] s = Ok (tt, s') /\ edits s' e'.
Proof.
  intros He Hp. injection Hp as <-. pose proof (ed_shows _ _ He) as Hsh. pose proof (ed_hist _ _ He) as Hre. apply (move_press s e _ down_key); [done|cbn; tauto|].
  unfold goto. destruct (hist e !! next_entry (hist e) (place e)) as [x|] eqn:Hx; [by eapply down_key_run|].
  assert (Hnil : hist e = []).
  { apply length_zero_iff_nil. apply lookup_ge_None in Hx. unfold next_entry in Hx. destruct (Nat.ltb_spec (S (place e)) (length (hist e))); lia. }
  pose proof (re_at _ _ _ Hre) as Hat. rewrite Hnil in Hat, Hre |- *. assert (E0 : place e = 0%nat) by (cbn in Hat; lia). rewrite E0 in Hre |- *.
  exists s. split; [by eapply down_key_empty|done].
Qed.
(** Enter: the line goes into the history and is executed *)
Lemma enter_press s e e' : edits s e -> press e Enter = Some e' -> exists s', keys [13] s = Ok (tt, s') /\ edits s' e'.
Proof.
  intros He Hp. injection Hp as <-. pose proof (ed_shows _ _ He) as Hsh. pose proof (ed_hist _ _ He) as H2.
  destruct (shell_push_history_run _ _ _ _ _ Hsh H2) as (s1 & E1 & Hs1 & F1 & Hr1).
  assert (He1 : edits s1 {| before := before e; behind := behind e; hist := push (hist e) (before e ++ behind e);
    place := length (push (hist e) (before e ++ behind e)) |}) by (by eapply edits_hframe).
  pose proof He1 as [_ _ H3' H4' H5' H6'].
  destruct (enter_key_run table call names (sh s1) (before e) (behind e) Hs1) as (t & E & Ht & Hl & Hex); [by apply H3'|done|].
  exists (set_sh t s1). split.
  { eapply plain_key; [apply (sh_stat _ _ _ Hsh)|done|]. unfold normal_key. cbn [Z.eqb Pos.eqb orb].
    erewrite bind_run; [cbv beta|exact E1]. by erewrite bind_run; [|by apply on_sh_run]. }
  assert (Hkeep : forall x, in_array (cmd_history s1) x \/ env x -> smem t !! x = smem (sh s1) !! x).
  { intros x Hx. eapply executed_keeps; [exact Hex|exact H6'|exact Hx|]. destruct Hx as [Hx|Hx]; [by apply (re_apart _ _ _ Hr1)|by apply H4']. }
  eapply edits_step; [exact He1|exact Ht| |done|done|intros x Hx; apply Hkeep; by right].
  pose proof Hr1 as [R1 R2 R3 R4 R5 R6 R7]. pose proof (ho_bytes _ _ _ _ (sh_holds _ _ _ Ht)) as Hb.
  split; cbn [sh set_sh history_count current_history cmd_history hist place]; try done.
  - eapply slots_agree; [exact R5|done|]. intros x Hx. apply Hkeep. left. unfold in_array, slot_at, FINSH_CMD_SIZE in *. lia.
  - destruct R6 as [(M1 & M2 & M3) _ A3]. split; [|done|done]. split_and!; [done..|]. intros x Hx. rewrite Hkeep by (left; exact Hx). by apply M3.
  - intros x Hx. unfold line_of. rewrite Hl. by apply R7.
Qed.
(** C36: The shell with history refines an editor with a list of lines: for any
    sequence of characters, arrow keys, backspace, tab and Enter, the line in
    memory is the text of the editor with the cursor at its place, the terminal
    shows it behind the prompt, and the array holds the last five lines, oldest
    first, without an empty line and without the same line twice in a row; up and
    down go through them and put the line that they find into the editor.  The
    commands may do anything but change the array and the command table. *)
Theorem history_session (ks : list hkey) (s : hshell) (e e' : editor) :
  edits s e -> Forall hkey_ok ks -> press_all e ks = Some e' ->
  exists s', keys (concat (hkey_bytes <$> ks)) s = Ok (tt, s') /\ edits s' e'.
Proof.
  revert s e. induction ks as [|k ks IH]; intros s e He Hk Hp; cbn [press_all fmap list_fmap concat] in *.
  - injection Hp as <-. by exists s.
  - apply Forall_cons in Hk as [Hk Hks]. destruct (press e k) as [e1|] eqn:E1; [|done].
    assert (Hstep : exists s1, keys (hkey_bytes k) s = Ok (tt, s1) /\ edits s1 e1)
      by (destruct k; [by eapply edit_press|by eapply up_press|by eapply down_press|by eapply enter_press]).
    destruct Hstep as (s1 & Er & He1). destruct (IH s1 e1 He1 Hks Hp) as (s' & E & He'). exists s'. split; [|done].
    by rewrite (keys_app _ _ _ _ Er).
Qed.
End session.
