(* ===== verification/Complete.v ===== *)
(** Completion of command names with the tab key: msh_auto_complete of
    components/finsh/msh.c (FINSH_USING_MSH_AUTO_COMPLETE, without a file
    system), msh_help, and shell_auto_complete of shell.c with them. *)
From S2P Require Import Prelude KService Mem Heap KString Libc Msh Shell.

(** * str_common: how many characters two strings share at the start *)
Fixpoint common_loop (fuel : nat) (str str2 : Z) : M mem Z :=
  match fuel with
  | O => raise OutOfFuel
  | S fuel =>
      let* c := ld8 str in
      if c =? 0 then ret str
      else
        let* d := ld8 str2 in
        if (negb (d =? 0) && (c =? d))%bool then common_loop fuel (str + 1) (str2 + 1) else ret str
  end.
Definition str_common (str1 str2 : Z) : M mem Z :=
  let* fuel := str_fuel in
  let* str := common_loop fuel str1 str2 in
  ret (str - str1).

(** the text of %-16s, which is cut at the width *)
Definition column (n : nat) (t : list Z) : list Z := take n t ++ replicate (n - length t) 32.

Section complete.
Context (table : list finsh_syscall).

(** * msh_help *)
(** "RT-Thread shell commands:" *)
Definition help_text : list Z :=
  [82; 84; 45; 84; 104; 114; 101; 97; 100; 32; 115; 104; 101; 108; 108; 32; 99; 111; 109; 109; 97; 110; 100; 115; 58].
Fixpoint help_loop (table : list finsh_syscall) : Sh unit :=
  match table with
  | [] => ret tt
  | index :: table =>
      let* r := on_mem (strncmp_lit 6 (name index) cmd_prefix) in
      when (r =? 0)
        (let* t := on_mem (text_at (name index + 6)) in
         let* d := on_mem (text_at (desc index)) in
         kputs (column 16 t ++ [32; 45; 32] ++ d ++ [10]));;
      help_loop table
  end.
Definition msh_help : Sh Z := kputs (help_text ++ [10]);; help_loop table;; kputs [10];; ret 0.

(** * msh_auto_complete *)
(** checks in internal command: name_ptr and min_length at the end *)
Fixpoint complete_loop (table : list finsh_syscall) (prefix name_ptr min_length : Z) : Sh (Z * Z) :=
  match table with
  | [] => ret (name_ptr, min_length)
  | index :: table =>
      let* r := on_mem (strncmp_lit 6 (name index) cmd_prefix) in
      if negb (r =? 0) then complete_loop table prefix name_ptr min_length
      else
        let cmd_name := name index + 6 in
        let* n := on_mem (strlen prefix) in
        let* r := on_mem (strncmp prefix cmd_name n) in
        if negb (r =? 0) then complete_loop table prefix name_ptr min_length
        else
          let* init := (if min_length =? 0 then let* n := on_mem (strlen cmd_name) in ret (cmd_name, n) else ret (name_ptr, min_length)) in
          let* length := on_mem (str_common init.1 cmd_name) in
          let min_length := if length <? init.2 then length else init.2 in
          let* t := on_mem (text_at cmd_name) in
          kputs (t ++ [10]);;
          complete_loop table prefix init.1 min_length
  end.
Definition msh_auto_complete (prefix : Z) : Sh unit :=
  let* c := on_mem (ld8 prefix) in
  if c =? 0 then let* _r := msh_help in ret tt
  else
    let* r := complete_loop table prefix 0 0 in
    when (negb (r.1 =? 0)) (let* _p := on_mem (rt_strncpy prefix r.1 r.2) in ret tt).

(** * The tab key *)
Definition shell_auto_complete (prefix : Z) : Sh unit :=
  kputs [10];;
  msh_auto_complete prefix;;
  let* p := finsh_get_prompt in
  let* t := on_mem (text_at prefix) in
  kputs (p ++ t).
Definition tab_key : Sh unit :=
  let* s := get in
  backspaces (Z.to_nat (line_curpos s));;
  shell_auto_complete (line s);;
  let* n := on_mem (strlen (line s)) in
  modify (set_pos (u16 n) (u16 n)).
End complete.
