(* ===== verification/CompleteSpec.v ===== *)
(** The tab key completes the line to the longest common prefix of the commands
    that begin with it. *)
From S2P Require Import Prelude KService Mem Heap KString Libc Msh Shell ShellSpec History HistorySpec Complete.

(** * Common prefixes *)
Fixpoint common (l k : list Z) : list Z :=
  match l, k with
  | a :: l, b :: k => if a =? b then a :: common l k else []
  | _, _ => []
  end.
Lemma common_prefix_l l k : common l k `prefix_of` l.
Proof.
  revert k. induction l as [|a l IH]; intros [|b k]; cbn [common]; try apply prefix_nil. destruct (a =? b); [|apply prefix_nil]. by apply prefix_cons.
Qed.
Lemma common_prefix_r l k : common l k `prefix_of` k.
Proof.
  revert k. induction l as [|a l IH]; intros [|b k]; cbn [common]; try apply prefix_nil. destruct (Z.eqb_spec a b) as [->|]; [|apply prefix_nil].
  by apply prefix_cons.
Qed.
Lemma common_greatest x l k : x `prefix_of` l -> x `prefix_of` k -> x `prefix_of` common l k.
Proof.
  revert l k. induction x as [|a x IH]; intros l k [l' ->] [k' ->]; [apply prefix_nil|]. cbn [app common]. rewrite Z.eqb_refl.
  apply prefix_cons, IH; by eexists.
Qed.
Lemma common_self l : common l l = l.
Proof. induction l as [|a l IH]; cbn [common]; [done|]. by rewrite Z.eqb_refl, IH. Qed.
Lemma common_take n l k : common (take n l) k = take n (common l k).
Proof.
  revert l k. induction n as [|n IH]; intros [|a l] [|b k]; cbn [take common]; try done. destruct (a =? b); [|done]. cbn [take]. by rewrite IH.
Qed.
Lemma common_loop_run fuel m p q l k : cstr m p l -> cstr m q k -> (length l < fuel)%nat ->
  common_loop fuel p q m = Ok (p + Z.of_nat (length (common l k)), m).
Proof.
  revert p q l k. induction fuel as [|fuel IH]; intros p q l k Hl Hk Hf; [lia|]. cbn [common_loop].
  erewrite bind_run; [cbv beta|by apply cstr_head]. destruct l as [|c l]; cbn [List.hd common length] in *; [unfold ret; by rewrite Z.add_0_r|].
  apply cstr_tail in Hl as [Hc Hl]. rewrite (proj2 (Z.eqb_neq c 0)) by lia. erewrite bind_run; [cbv beta|by apply cstr_head].
  destruct k as [|d k]; cbn [List.hd] in *.
  { change (0 =? 0) with true. cbn [negb andb]. unfold ret. cbn [length]. by rewrite Z.add_0_r. }
  apply cstr_tail in Hk as [Hd Hk]. rewrite (proj2 (Z.eqb_neq d 0)) by lia. cbn [negb andb]. destruct (Z.eqb_spec c d) as [->|].
  - rewrite (IH _ _ l k) by (done || lia). cbn [length]. do 2 f_equal. lia.
  - unfold ret. cbn [length]. by rewrite Z.add_0_r.
Qed.
Lemma str_common_run m p q l k : cstr m p l -> cstr m q k -> str_common p q m = Ok (Z.of_nat (length (common l k)), m).
Proof.
  intros Hl Hk. unfold str_common, str_fuel. erewrite bind_run; [cbv beta|reflexivity]. pose proof (cstr_size _ _ _ Hl).
  erewrite bind_run; [cbv beta|apply (common_loop_run _ _ _ _ l k); (done || lia)]. unfold ret. do 2 f_equal. lia.
Qed.

(** * Candidates *)
(** the name of a command, without the prefix "__cmd_" *)
Definition command_of (n : list Z) : option (list Z) := if bool_decide (take 6 n = cmd_prefix) then Some (drop 6 n) else None.
Definition candidates (names : list (list Z * Z)) (p : list Z) : list (list Z) :=
  filter (fun w => p `prefix_of` w) (omap (fun n => command_of n.1) names).
(** the longest common prefix so far *)
Definition join (acc : option (list Z)) (w : list Z) : option (list Z) :=
  match acc with None => Some w | Some v => Some (common v w) end.
Definition completion (names : list (list Z * Z)) (p : list Z) : list Z :=
  if bool_decide (p = []) then [] else default p (fold_left join (candidates names p) None).
Lemma fold_join ws : forall v, exists u, fold_left join ws (Some v) = Some u /\ u `prefix_of` v /\ (forall w, w ∈ ws -> u `prefix_of` w) /\
  (forall x, x `prefix_of` v -> (forall w, w ∈ ws -> x `prefix_of` w) -> x `prefix_of` u).
Proof.
  induction ws as [|w ws IH]; intros v; cbn [fold_left join]; [exists v; split_and!; [done|done|intros w Hw; by apply elem_of_nil in Hw|auto]|].
  destruct (IH (common v w)) as (u & E & H1 & H2 & H3). exists u. split_and!; [done|etrans; [exact H1|apply common_prefix_l]| |].
  - intros y Hy. apply elem_of_cons in Hy as [->|Hy]; [etrans; [exact H1|apply common_prefix_r]|by apply H2].
  - intros x Hx Hw. apply H3; [apply common_greatest; [done|apply Hw; by left]|]. intros y Hy. apply Hw. by right.
Qed.
(** each candidate begins with the completion, which begins with everything that
    all of them begin with *)
Lemma completion_longest names p : p <> [] -> candidates names p <> [] ->
  p `prefix_of` completion names p /\ (forall w, w ∈ candidates names p -> completion names p `prefix_of` w) /\
  forall x, (forall w, w ∈ candidates names p -> x `prefix_of` w) -> x `prefix_of` completion names p.
Proof.
  intros Hp Hc. unfold completion. rewrite bool_decide_eq_false_2 by done.
  assert (Hpre : forall w, w ∈ candidates names p -> p `prefix_of` w) by (intros w Hw; by apply list_elem_of_filter in Hw as [? _]).
  destruct (candidates names p) as [|w ws] eqn:E; [done|]. cbn [fold_left join]. destruct (fold_join ws w) as (u & -> & H1 & H2 & H3). cbn [default].
  split_and!.
  - apply H3; [apply Hpre; by left|]. intros y Hy. apply Hpre. by right.
  - intros y Hy. apply elem_of_cons in Hy as [->|Hy]; [done|by apply H2].
  - intros x Hx. apply H3; [apply Hx; by left|]. intros y Hy. apply Hx. by right.
Qed.

(** * The loop over the table *)
(** the name is short and printable, and outside of the line at [a] *)
Definition name_ok (a : Z) (e : finsh_syscall) (n : list Z * Z) : Prop :=
  Forall printable n.1 /\ (length n.1 < 86)%nat /\ (name e + Z.of_nat (length n.1) < a \/ a + FINSH_CMD_SIZE <= name e).
(** name_ptr and min_length stand for what has been found *)
Definition found (m : mem) (a name_ptr min_length : Z) (acc : option (list Z)) : Prop :=
  match acc with
  | None => name_ptr = 0 /\ min_length = 0
  | Some v => exists w n, cstr m name_ptr w /\ v = take n w /\ min_length = Z.of_nat n /\ (0 < n <= length w)%nat /\ name_ptr <> 0 /\
      (length w < 80)%nat /\ Forall printable w /\ (name_ptr + Z.of_nat (length w) < a \/ a + FINSH_CMD_SIZE <= name_ptr)
  end.
Lemma put_line_screen a b t : Forall printable t -> fold_left term_put (t ++ [10]) (screen a b) = screen [] [].
Proof. intros Ht. rewrite fold_left_app, put_text_screen by done. reflexivity. Qed.
(** a command with the prefix "__cmd_", whose name is at [name e + 6] *)
Lemma command_at m e n a : cstr m (name e) n.1 -> name_ok a e n -> take 6 n.1 = cmd_prefix ->
  let w := drop 6 n.1 in
  cstr m (name e + 6) w /\ command_of n.1 = Some w /\ name e + 6 <> 0 /\ (length w < 80)%nat /\ Forall printable w /\
    (name e + 6 + Z.of_nat (length w) < a \/ a + FINSH_CMD_SIZE <= name e + 6).
Proof.
  intros Hn (Hp & Hl & Ho) E w. assert (H6 : (6 <= length n.1)%nat).
  { apply (f_equal length) in E. rewrite length_take in E. change (length cmd_prefix) with 6%nat in E. lia. }
  pose proof (cstr_range _ _ _ Hn). assert (Hw : length w = (length n.1 - 6)%nat) by apply length_drop.
  split; [by apply (cstr_drop _ _ _ 6)|]. split; [unfold command_of; by rewrite bool_decide_eq_true_2|].
  split; [lia|]. split; [lia|]. split; [by apply Forall_drop|]. lia.
Qed.
Lemma take_common (k : nat) (w0 w : list Z) : take k (common w0 w) = take (Nat.min k (length (common w0 w))) w0.
Proof.
  destruct (common_prefix_l w0 w) as [z Hz]. set (c := common w0 w) in *. clearbody c. subst w0. rewrite take_app_le by lia.
  destruct (decide (k <= length c)%nat); [by replace (Nat.min _ _) with k by lia|]. by rewrite !take_ge by lia.
Qed.
Lemma found_join m a f n acc e w p : found m a f n acc -> cstr m e w -> e <> 0 -> (length w < 80)%nat -> Forall printable w ->
  (e + Z.of_nat (length w) < a \/ a + FINSH_CMD_SIZE <= e) -> p `prefix_of` w -> p <> [] -> (forall v, acc = Some v -> p `prefix_of` v) ->
  exists init, (if n =? 0 then let* n := strlen e in ret (e, n) else ret (f, n)) m = Ok (init, m) /\
  exists l, str_common init.1 e m = Ok (l, m) /\ found m a init.1 (if l <? init.2 then l else init.2) (join acc w).
Proof.
  intros Hf Hw He Hl Hpr Ho Hpw Hp Hacc. assert (Hw0 : (0 < length w)%nat).
  { destruct Hpw as [z ->]. rewrite length_app. destruct p; [done|]. cbn. lia. }
  destruct acc as [v|]; cbn [found join] in *.
  - destruct Hf as (w0 & k & Hw1 & -> & -> & Hk & Hf0 & Hl0 & Hpr0 & Ho0). rewrite (proj2 (Z.eqb_neq _ 0)) by lia.
    exists (f, Z.of_nat k). split; [done|]. eexists. split; [by apply (str_common_run _ _ _ w0 w)|]. cbn [fst snd].
    exists w0, (Nat.min k (length (common w0 w))). pose proof (prefix_length _ _ (common_prefix_l w0 w)) as Hc.
    assert (Hpc : p `prefix_of` common (take k w0) w) by (apply common_greatest; [by apply Hacc|done]).
    rewrite common_take in Hpc. pose proof (prefix_length _ _ Hpc) as Hlen. rewrite length_take in Hlen.
    assert (0 < length p)%nat by (destruct p; [done|cbn; lia]).
    split; [done|]. split.
    { rewrite common_take. by apply take_common. }
    split; [destruct (Z.ltb_spec (Z.of_nat (length (common w0 w))) (Z.of_nat k)); lia|]. split; [lia|done].
  - destruct Hf as [-> ->]. change (0 =? 0) with true. cbv iota. exists (e, Z.of_nat (length w)).
    split; [erewrite bind_run; [reflexivity|by apply rt_strlen_run]|].
    eexists. split; [by apply (str_common_run _ _ _ w w)|]. cbn [fst snd]. rewrite common_self, Z.ltb_irrefl.
    exists w, (length w). split_and!; try done; [by rewrite take_ge|lia..].
Qed.
Lemma add_out_add_out t u s : add_out u (add_out t s) = add_out (t ++ u) s.
Proof. unfold add_out. cbn. by rewrite <- app_assoc. Qed.
Lemma add_out_nil s : add_out [] s = s.
Proof. unfold add_out. rewrite app_nil_r. by destruct s. Qed.
Lemma candidates_cons n f names p : candidates ((n, f) :: names) p =
  match command_of n with Some w => if bool_decide (p `prefix_of` w) then w :: candidates names p else candidates names p | None => candidates names p end.
Proof.
  unfold candidates. cbn [omap list_omap fst]. destruct (command_of n) as [w|]; [|done]. rewrite filter_cons. case_bool_decide; by case_decide.
Qed.
(** the two comparisons of the loop *)
Lemma has_prefix_run s e n : cstr (smem s) (name e) n ->
  exists r, on_mem (strncmp_lit 6 (name e) cmd_prefix) s = Ok (r, s) /\ (r = 0 <-> take 6 n = cmd_prefix).
Proof.
  intros Hn. eexists. split; [apply on_mem_read, (strncmp_lit_run _ _ _ n); [done|apply cmd_prefix_bytes]|].
  by rewrite strn_diff_zero by (apply cmd_prefix_bytes || by eapply cstr_bytes).
Qed.
Lemma begins_run s a q p w : cstr (smem s) a p -> cstr (smem s) q w ->
  exists r, on_mem (strncmp a q (Z.of_nat (length p))) s = Ok (r, s) /\ (r = 0 <-> p `prefix_of` w).
Proof.
  intros Hp Hw. eexists. split; [apply on_mem_read; by apply (rt_strncmp_run _ _ _ p w)|].
  rewrite strn_diff_zero by (by eapply cstr_bytes). rewrite take_ge by done. split.
  - intros E. rewrite E. apply prefix_take.
  - intros [z ->]. by rewrite take_app_length.
Qed.
Lemma complete_loop_run a p table names : p <> [] -> forall s f n acc,
  cstr (smem s) a p -> table_at (smem s) table names -> Forall2 (name_ok a) table names ->
  found (smem s) a f n acc -> (forall v, acc = Some v -> p `prefix_of` v) -> display (out s) = screen [] [] ->
  exists f' n' t, complete_loop table a f n s = Ok ((f', n'), add_out t s) /\
    found (smem s) a f' n' (fold_left join (candidates names p) acc) /\ display (out (add_out t s)) = screen [] [].
Proof.
  intros Hp0. induction table as [|e table IH] in names |- *; intros s f n acc Hp Ht Hok Hf Hacc Hd; inversion Ht as [|? [nm fn] ? names' [Hn _] Ht']; subst.
  - exists f, n, []. rewrite add_out_nil. done.
  - inversion Hok as [|? ? ? ? Hne Hok']; subst. rewrite candidates_cons. cbn [complete_loop fst] in *.
    destruct (has_prefix_run s e nm Hn) as (r & Er & Hr). erewrite bind_run; [cbv beta|exact Er].
    destruct (Z.eqb_spec r 0) as [Hr0|Hr0]; cbn [negb].
    2:{ unfold command_of. rewrite bool_decide_eq_false_2 by tauto. by apply IH. }
    destruct (command_at _ e (nm, fn) a Hn Hne (proj1 Hr Hr0)) as (Hw & Ec & He & Hl & Hpr & Ho). cbn [fst] in *. rewrite Ec. set (w := drop 6 nm) in *.
    cbv zeta. erewrite bind_run; [cbv beta|apply on_mem_read; by apply rt_strlen_run].
    destruct (begins_run s a (name e + 6) p w Hp Hw) as (r2 & Er2 & Hr2). erewrite bind_run; [cbv beta|exact Er2].
    destruct (Z.eqb_spec r2 0) as [Hr20|Hr20]; cbn [negb]; [rewrite bool_decide_eq_true_2 by tauto|rewrite bool_decide_eq_false_2 by tauto; by apply IH].
    destruct (found_join _ _ _ _ _ _ _ p Hf Hw He Hl Hpr Ho) as (init & E1 & l & E2 & Hf'); [tauto|done|done|].
    assert (E1' : (if n =? 0 then let* n := on_mem (strlen (name e + 6)) in ret (name e + 6, n) else ret (f, n)) s = Ok (init, s)).
    { destruct (n =? 0); [|by injection E1 as ->]. erewrite bind_run in E1; [|by apply rt_strlen_run].
      erewrite bind_run; [cbv beta|apply on_mem_read; by apply rt_strlen_run]. by injection E1 as ->. }
    erewrite bind_run; [cbv beta|exact E1']. erewrite bind_run; [cbv beta|apply on_mem_read; exact E2].
    erewrite bind_run; [cbv beta|apply on_mem_read; by apply text_at_run]. erewrite bind_run; [cbv beta|apply kputs_run; rewrite length_app; cbn; lia].
    destruct (IH names' (add_out (w ++ [10]) s) init.1 (if l <? init.2 then l else init.2) (join acc w)) as (f' & n' & t & E & H1 & H2); [exact Hp|exact Ht'|exact Hok'|exact Hf'| | |].
    + intros v Hv. destruct acc as [v0|]; cbn [join] in Hv; injection Hv as <-; [apply common_greatest; [by apply Hacc|tauto]|tauto].
    + cbn [out add_out]. by rewrite display_app, Hd, put_line_screen.
    + exists f', n', ((w ++ [10]) ++ t). rewrite <- (add_out_add_out (w ++ [10]) t s). exact (conj E (conj H1 H2)).
Qed.
(** the description is short and printable *)
Definition described (m : mem) (e : finsh_syscall) : Prop := exists d, cstr m (desc e) d /\ Forall printable d /\ (length d < 230)%nat.
Lemma column_printable n t : Forall printable t -> Forall printable (column n t) /\ length (column n t) = n.
Proof.
  intros Ht. unfold column. split; [|rewrite length_app, length_take, length_replicate; lia].
  apply Forall_app. split; [by apply Forall_take|]. apply Forall_replicate. unfold printable. lia.
Qed.
Lemma help_loop_run a table names : forall s, table_at (smem s) table names -> Forall2 (name_ok a) table names -> Forall (described (smem s)) table ->
  display (out s) = screen [] [] ->
  exists t, help_loop table s = Ok (tt, add_out t s) /\ display (out (add_out t s)) = screen [] [].
Proof.
  induction table as [|e table IH] in names |- *; intros s Ht Hok Hde Hd; inversion Ht as [|? [nm fn] ? names' [Hn _] Ht']; subst.
  - exists []. rewrite add_out_nil. done.
  - inversion Hok as [|? ? ? ? Hne Hok']; subst. apply Forall_cons in Hde as [(d & Hcd & Hpd & Hld) Hde]. cbn [help_loop fst] in *.
    destruct (has_prefix_run s e nm Hn) as (r & Er & Hr). erewrite bind_run; [cbv beta|exact Er]. destruct (Z.eqb_spec r 0) as [Hr0|Hr0]; cbn [when].
    2:{ erewrite bind_run; [cbv beta|reflexivity]. by eapply IH. }
    destruct (command_at _ e (nm, fn) a Hn Hne (proj1 Hr Hr0)) as (Hw & _ & _ & Hl & Hpr & _). cbn [fst] in *. rewrite bind_assoc.
    erewrite bind_run; [cbv beta|apply on_mem_read; by apply text_at_run]. rewrite bind_assoc.
    destruct (column_printable 16 (drop 6 nm) Hpr) as [Hcp Hcl].
    erewrite bind_run; [cbv beta|apply on_mem_read; by apply text_at_run].
    erewrite bind_run; [cbv beta|apply kputs_run; rewrite !length_app, Hcl; cbn; lia]. set (u := column 16 (drop 6 nm) ++ _).
    destruct (IH names' (add_out u s)) as (t & E & Ed); [done|done|done| |].
    + cbn [out add_out]. rewrite display_app, Hd. unfold u. change ([32; 45; 32] ++ d ++ [10]) with (([32; 45; 32] ++ d) ++ [10]). rewrite app_assoc.
      apply put_line_screen. apply Forall_app. split; [done|]. repeat (constructor; [unfold printable; lia|]). done.
    + exists (u ++ t). rewrite <- (add_out_add_out u t s). exact (conj E Ed).
Qed.

(** * The tab key *)
(** the new text is stored over the line *)
Lemma holds_complete m a l q w n : holds m a l [] -> l `prefix_of` q -> q = take n w -> (n <= length w)%nat -> (length w < 80)%nat -> Forall printable w ->
  holds (store_bytes a (pad_to n w) m) a q [] /\ forall x, ~ (a <= x < a + FINSH_CMD_SIZE) -> store_bytes a (pad_to n w) m !! x = m !! x.
Proof.
  intros H Hp -> Hn Hw Hpr. assert (Hpad : pad_to n w = take n w) by (unfold pad_to; by rewrite take_app_le). rewrite Hpad.
  assert (Hlen : length (take n w) = n) by (rewrite length_take; lia). pose proof (prefix_length _ _ Hp) as Hle. rewrite Hlen in Hle.
  assert (Hq : Forall printable (take n w)) by (by apply Forall_take). split.
  - eapply (holds_intro _ _ _ _ _ (take n w) [] H).
    + apply byte_mem_store_bytes; [|apply H]. eapply Forall_impl; [exact Hq|]. unfold printable. lia.
    + intros x Hx. rewrite lookup_store_bytes. case_decide; [|done]. apply lookup_lt_is_Some_2. lia.
    + rewrite Hlen. cbn [length]. lia.
    + by rewrite app_nil_r.
    + intros i c Hi. rewrite line_lookup in Hi. cbn [length] in Hi. rewrite Hlen in Hi. rewrite lookup_store_bytes, Hlen.
      destruct (decide (i < n)%nat) as [Hin|Hin].
      * rewrite decide_True by lia. by replace (Z.to_nat (a + Z.of_nat i - a)) with i by lia.
      * rewrite decide_False by lia. destruct (decide (i < n + 0)%nat); [lia|]. case_decide; [|done]. injection Hi as <-.
        rewrite (holds_lookup _ _ _ _ _ H) by lia. cbn [length]. by rewrite !decide_False by lia.
  - intros x Hx. rewrite lookup_store_bytes, Hlen, decide_False; [done|]. unfold FINSH_CMD_SIZE in Hx. lia.
Qed.
Lemma store_completion s l f n acc : holds (smem s) (line s) l [] -> found (smem s) (line s) f n acc -> (forall v, acc = Some v -> l `prefix_of` v) ->
  exists m, when (negb (f =? 0)) (let* _p := on_mem (rt_strncpy (line s) f n) in ret tt) s = Ok (tt, set_smem m s) /\
    holds m (line s) (default l acc) [] /\ forall x, ~ line_of s x -> m !! x = smem s !! x.
Proof.
  intros Hh Hf Hacc. destruct acc as [v|]; cbn [found default] in *.
  - destruct Hf as (w & k & Hw & -> & -> & Hk & Hf0 & Hlw & Hprw & How). rewrite (proj2 (Z.eqb_neq f 0)) by done. cbn [negb when].
    destruct (holds_complete _ _ _ _ w k Hh (Hacc _ eq_refl) eq_refl) as (Hh' & Hx); [lia|done|done|].
    erewrite bind_run; [|apply on_mem_run, (rt_strncpy_run _ _ _ w k); [exact Hw| |lia|]].
    + exists (store_bytes (line s) (pad_to k w) (smem s)). done.
    + eapply mapped_sub; [apply (ho_mapped _ _ _ _ Hh)|lia|unfold FINSH_CMD_SIZE; lia].
    + unfold FINSH_CMD_SIZE in *. lia.
  - destruct Hf as [-> ->]. exists (smem s). split; [|done]. cbn [Z.eqb negb when]. unfold ret. by rewrite set_smem_id.
Qed.
(** msh_auto_complete leaves the completion in the line and the terminal at the
    start of a line *)
Lemma msh_auto_complete_run table names s l : holds (smem s) (line s) l [] -> table_at (smem s) table names -> Forall2 (name_ok (line s)) table names -> Forall (described (smem s)) table ->
  display (out s) = screen [] [] ->
  exists t m, msh_auto_complete table (line s) s = Ok (tt, set_smem m (add_out t s)) /\ display (out (add_out t s)) = screen [] [] /\
    holds m (line s) (completion names l) [] /\ forall x, ~ line_of s x -> m !! x = smem s !! x.
Proof.
  intros Hh Ht Hok Hde Hd. pose proof (holds_line _ _ _ _ Hh) as Hc. rewrite app_nil_r in Hc. unfold msh_auto_complete.
  erewrite bind_run; [cbv beta|apply on_mem_read; by apply cstr_head]. unfold completion. destruct l as [|c l]; cbn [List.hd].
  - change (0 =? 0) with true. cbv iota. unfold msh_help. rewrite bind_assoc. erewrite bind_run; [cbv beta|apply kputs_run; cbn; lia].
    destruct (help_loop_run (line s) table names (add_out (help_text ++ [10]) s)) as (t & E & Ed); [done|done|done| |].
    { cbn [out add_out]. rewrite display_app, Hd. apply put_line_screen. unfold help_text, printable. repeat (constructor; [lia|]). constructor. }
    rewrite bind_assoc. erewrite bind_run; [cbv beta|exact E]. rewrite bind_assoc. erewrite bind_run; [cbv beta|apply kputs_run; cbn; lia].
    rewrite !add_out_add_out. exists (((help_text ++ [10]) ++ t) ++ [10]), (smem s). split; [reflexivity|].
    rewrite bool_decide_eq_true_2 by done. split_and!; [|done|done]. rewrite add_out_add_out in Ed.
    cbn [out add_out] in Ed |- *. rewrite (app_assoc (out s)), display_app, Ed. done.
  - rewrite bool_decide_eq_false_2 by done. pose proof (ho_text _ _ _ _ Hh) as Hpr. rewrite app_nil_r in Hpr. apply Forall_cons in Hpr as [Hpc _].
    unfold printable in Hpc. rewrite (proj2 (Z.eqb_neq c 0)) by lia.
    destruct (complete_loop_run (line s) (c :: l) table names) with (s := s) (f := 0) (n := 0) (acc := @None (list Z)) as (f & n & t & E & Hf & Hd'); try done.
    erewrite bind_run; [cbv beta|exact E]. cbn [fst snd].
    destruct (store_completion (add_out t s) (c :: l) f n (fold_left join (candidates names (c :: l)) None)) as (m & Em & Hm & Hx); [done|done| |by exists t, m].
    intros v Ev. assert (Hcand : candidates names (c :: l) <> []) by (intros E0; by rewrite E0 in Ev).
    pose proof (proj1 (completion_longest names (c :: l) ltac:(done) Hcand)) as Hcl. unfold completion in Hcl.
    by rewrite bool_decide_eq_false_2, Ev in Hcl by done.
Qed.

(** the shell as it is compiled with completion *)
#[export] Instance command_tab (table : list finsh_syscall) (names : list (list Z * Z)) : TabKey := {|
  tab := tab_key table; completes := completion names;
  tab_ready := fun a m => table_at m table names /\ Forall2 (name_ok a) table names /\ Forall (described m) table |}.
Lemma tab_key_complete table names s l r : table_at (smem s) table names -> Forall2 (name_ok (line s)) table names -> Forall (described (smem s)) table -> shows s l r ->
  exists s', tab_key table s = Ok (tt, s') /\ shows s' (completion names (l ++ r)) [] /\ frame s s'.
Proof.
  intros Ht Hok Hde H. destruct (shows_bounds _ _ _ H) as (Ep & Ec & Hlen & Hpl). destruct H as [H1 H2 H3 H4 H5 H6 (k & H7)].
  unfold tab_key, shell_auto_complete. erewrite bind_run; [cbv beta|reflexivity]. rewrite Ec, Nat2Z.id.
  erewrite bind_run; [cbv beta|apply backspaces_run]. rewrite bind_assoc. erewrite bind_run; [cbv beta|apply kputs_run; cbn; lia]. rewrite add_out_add_out.
  assert (H6' : holds (smem s) (line s) (l ++ r) []) by (eapply holds_split; [|exact H6]; by rewrite app_nil_r).
  destruct (msh_auto_complete_run table names (add_out (replicate (length l) 8 ++ [10]) s) (l ++ r) H6' Ht Hok Hde) as (t & m & E & Hd & Hh & Hx).
  { cbn [out add_out]. rewrite display_app, H7. rewrite fold_left_app, back_screen. reflexivity. }
  rewrite bind_assoc. erewrite bind_run; [cbv beta|exact E]. rewrite add_out_add_out in Hd |- *. set (t' := (_ ++ [10]) ++ t) in *. clearbody t'.
  pose proof (holds_line _ _ _ _ Hh) as Hc. rewrite app_nil_r in Hc. pose proof (ho_len _ _ _ _ Hh) as Hl. cbn [length] in Hl.
  rewrite bind_assoc. erewrite bind_run; [cbv beta|by apply (prompt_run s)]. rewrite bind_assoc.
  erewrite bind_run; [cbv beta|apply on_mem_read; by apply text_at_run].
  erewrite bind_run; [cbv beta|apply kputs_run; rewrite length_app; lia]. erewrite bind_run; [cbv beta|apply on_mem_read; by apply rt_strlen_run].
  rewrite u16_small by lia. eexists. split; [reflexivity|]. split; [|split; [done|exact Hx]].
  split; cbn [stat echo_mode line_position line_curpos smem line out add_out set_pos set_smem length]; try done; [lia|].
  exists 0%nat. cbn [out add_out] in Hd. rewrite display_app, Hd, put_text_screen; [by rewrite drop_nil|].
  apply Forall_app. split; [apply H3|]. pose proof (ho_text _ _ _ _ Hh) as Hp. by rewrite app_nil_r in Hp.
Qed.
#[export] Instance command_tab_ok table names : TabKeyOk (command_tab table names).
Proof. split. intros s l r (Ht & Hok & Hde) H. by apply tab_key_complete. Qed.

(** C37: The tab key with completion replaces the line, wherever the cursor is, by
    the longest text that every command beginning with the line begins with; the
    line stays when no command does, and an empty line stays empty behind a list
    of the commands.  The terminal shows the prompt and the new line with the
    cursor at its end, and memory outside of the line is not touched. *)
Theorem tab_completes table names s l r :
  table_at (smem s) table names -> Forall2 (name_ok (line s)) table names -> Forall (described (smem s)) table -> shows s l r ->
  exists s', tab_key table s = Ok (tt, s') /\ frame s s' /\ shows s' (completion names (l ++ r)) [] /\
    (candidates names (l ++ r) = [] -> completion names (l ++ r) = l ++ r) /\
    (l ++ r <> [] -> candidates names (l ++ r) <> [] ->
      (forall w, w ∈ candidates names (l ++ r) -> completion names (l ++ r) `prefix_of` w) /\
      forall x, (forall w, w ∈ candidates names (l ++ r) -> x `prefix_of` w) -> x `prefix_of` completion names (l ++ r)).
Proof.
  intros Ht Hok Hde H. destruct (tab_key_complete table names s l r Ht Hok Hde H) as (s' & E & Hs & Hf). exists s'. split_and!; [done..| |].
  - intros E0. unfold completion. rewrite E0. cbn. case_bool_decide; congruence.
  - intros Hne Hc. destruct (completion_longest names (l ++ r) Hne Hc) as (_ & H1 & H2). done.
Qed.
