(* ===== verification/ListPrefix.v ===== *)
(** list and list_prefix of components/finsh/cmd.c: the symbols of the C-expression
    shell (no FINSH_USING_MSH_ONLY), all of them, or those that begin with a
    text, which is completed.  The tables of symbols are arguments. *)
From S2P Require Import Prelude KService Mem Heap KString Libc Msh Shell Complete.

(** struct finsh_sysvar: the addresses of the name and the description *)
Record finsh_sysvar := { var_name : Z; var_desc : Z }.
(** The symbols: the two tables, and the names in the lists global_syscall_list
    and global_sysvar_list, in their order. *)
Record symbols := {
  syscall_table : list finsh_syscall;
  global_syscall_list : list Z;
  sysvar_table : list finsh_sysvar;
  global_sysvar_list : list Z;
}.

(** * str_is_prefix *)
Fixpoint is_prefix_loop (fuel : nat) (prefix str : Z) : M mem Z :=
  match fuel with
  | O => raise OutOfFuel
  | S fuel =>
      let* c := ld8 prefix in
      if c =? 0 then ret 0
      else let* d := ld8 str in if c =? d then is_prefix_loop fuel (prefix + 1) (str + 1) else ret (-1)
  end.
Definition str_is_prefix (prefix str : Z) : M mem Z := let* fuel := str_fuel in is_prefix_loop fuel prefix str.
(** with a literal for [prefix] *)
Fixpoint str_is_prefix_lit (prefix : list Z) (str : Z) : M mem Z :=
  match prefix with
  | [] => ret 0
  | c :: prefix => let* d := ld8 str in if c =? d then str_is_prefix_lit prefix (str + 1) else ret (-1)
  end.
(** "__" *)
Definition internal : list Z := [95; 95].

(** * Lines *)
(** "%-16s -- %s\n" *)
Definition print_symbol (nm dsc : Z) : Sh unit :=
  let* t := on_mem (text_at nm) in
  let* d := on_mem (text_at dsc) in
  kputs (column 16 t ++ [32; 45; 45; 32] ++ d ++ [10]).
(** "[l] %s\n" and "[v] %s\n" *)
Definition print_item (letter : Z) (nm : Z) : Sh unit :=
  let* t := on_mem (text_at nm) in kputs ([91; letter; 93; 32] ++ t ++ [10]).

(** * list *)
(** "--Function List:\n" and "--Variable List:\n" *)
Definition function_list : list Z := [45; 45; 70; 117; 110; 99; 116; 105; 111; 110; 32; 76; 105; 115; 116; 58; 10].
Definition variable_list : list Z := [45; 45; 86; 97; 114; 105; 97; 98; 108; 101; 32; 76; 105; 115; 116; 58; 10].
Definition list_symbols (y : symbols) : Sh Z :=
  kputs function_list;;
  for_each (fun index =>
    let* r := on_mem (strncmp_lit 2 (name index) internal) in
    when (negb (r =? 0)) (print_symbol (name index) (desc index))) (syscall_table y);;
  for_each (print_item 108) (global_syscall_list y);;
  kputs variable_list;;
  for_each (fun index => print_symbol (var_name index) (var_desc index)) (sysvar_table y);;
  for_each (print_item 108) (global_sysvar_list y);;
  ret 0.

(** * list_prefix *)
(** the counter of the kind of symbol at hand, name_ptr and min_length *)
Record tally := { cnt : Z; name_ptr : Z; min_length : Z }.
(** "--function:\n" and "--variable:\n" *)
Definition function_head : list Z := [45; 45; 102; 117; 110; 99; 116; 105; 111; 110; 58; 10].
Definition variable_head : list Z := [45; 45; 118; 97; 114; 105; 97; 98; 108; 101; 58; 10].
(** The first symbol of a kind is announced; [c] is *prefix.  [first]: whether the first symbol of a kind sets name_ptr, which
    is [true] for the first loop and name_ptr == NULL for the others. *)
Definition first_symbol (head : list Z) (first : Z -> bool) (c nm : Z) (st : tally) : Sh tally :=
  if cnt st =? 0 then
    kputs head;;
    if (negb (c =? 0) && first (name_ptr st))%bool
    then let* n := on_mem (strlen nm) in ret {| cnt := cnt st; name_ptr := nm; min_length := n |} else ret st
  else ret st.
(** one symbol *)
Definition match_symbol (head : list Z) (first : Z -> bool) (entry : Sh unit) (prefix nm : Z) (st : tally) : Sh tally :=
  let* r := on_mem (str_is_prefix prefix nm) in
  if negb (r =? 0) then ret st
  else
    let* c := on_mem (ld8 prefix) in
    let* st := first_symbol head first c nm st in
    let count := u16 (cnt st + 1) in
    let* length := (if negb (c =? 0) then on_mem (str_common (name_ptr st) nm) else ret (min_length st)) in
    entry;;
    ret {| cnt := count; name_ptr := name_ptr st; min_length := if length <? min_length st then length else min_length st |}.
Fixpoint pass {A} (f : A -> tally -> Sh tally) (l : list A) (st : tally) : Sh tally :=
  match l with
  | [] => ret st
  | x :: l => let* st := f x st in pass f l st
  end.
Definition is_null (p : Z) : bool := p =? 0.
(** checks in system function call: internal commands are skipped *)
Definition syscall_step (prefix : Z) (index : finsh_syscall) (st : tally) : Sh tally :=
  let* r := on_mem (str_is_prefix_lit internal (name index)) in
  if r =? 0 then ret st
  else match_symbol function_head (fun _ => true) (print_symbol (name index) (desc index)) prefix (name index) st.
Definition list_prefix (y : symbols) (prefix : Z) : Sh unit :=
  let* st := pass (syscall_step prefix) (syscall_table y) {| cnt := 0; name_ptr := 0; min_length := 0 |} in
  let* st := pass (fun nm => match_symbol function_head is_null (print_item 108 nm) prefix nm) (global_syscall_list y) st in
  let* st := pass (fun index => match_symbol variable_head is_null (print_symbol (var_name index) (var_desc index)) prefix (var_name index))
    (sysvar_table y) {| cnt := 0; name_ptr := name_ptr st; min_length := min_length st |} in
  let* st := pass (fun nm => match_symbol variable_head is_null (print_item 118 nm) prefix nm) (global_sysvar_list y) st in
  when (negb (name_ptr st =? 0)) (let* _p := on_mem (rt_strncpy prefix (name_ptr st) (min_length st)) in ret tt).
