(* ===== verification/ListPrefixSpec.v ===== *)
(** list_prefix completes a text to the longest common prefix of the symbols
    that begin with it. *)
From S2P Require Import Prelude KService Mem Heap KString Libc Msh Shell ShellSpec History HistorySpec Complete CompleteSpec ListPrefix.

(** * str_is_prefix *)
Lemma is_prefix_loop_run fuel m p q l k : cstr m p l -> cstr m q k -> (length l < fuel)%nat ->
  exists r, is_prefix_loop fuel p q m = Ok (r, m) /\ (r = 0 <-> l `prefix_of` k).
Proof.
  revert p q l k. induction fuel as [|fuel IH]; intros p q l k Hl Hk Hf; [lia|]. cbn [is_prefix_loop].
  erewrite bind_run; [cbv beta|by apply cstr_head]. destruct l as [|c l]; cbn [List.hd length] in *.
  { exists 0. split; [done|]. split; [intros _; apply prefix_nil|done]. }
  apply cstr_tail in Hl as [Hc Hl]. rewrite (proj2 (Z.eqb_neq c 0)) by lia. erewrite bind_run; [cbv beta|by apply cstr_head].
  destruct k as [|d k]; cbn [List.hd] in *.
  { rewrite (proj2 (Z.eqb_neq c 0)) by lia. exists (-1). split; [done|]. split; [done|]. by intros ?%prefix_nil_inv. }
  apply cstr_tail in Hk as [_ Hk]. destruct (Z.eqb_spec c d) as [->|Hcd].
  - destruct (IH _ _ l k Hl Hk) as (r & E & Hr); [lia|]. exists r. split; [done|]. rewrite Hr. split; [apply prefix_cons|apply prefix_cons_inv_2].
  - exists (-1). split; [done|]. split; [done|]. intros H. by apply prefix_cons_inv_1 in H.
Qed.
Lemma str_is_prefix_run s p q l k : cstr (smem s) p l -> cstr (smem s) q k ->
  exists r, on_mem (str_is_prefix p q) s = Ok (r, s) /\ (r = 0 <-> l `prefix_of` k).
Proof.
  intros Hl Hk. pose proof (cstr_size _ _ _ Hl). destruct (is_prefix_loop_run (S (base.size (smem s))) (smem s) p q l k Hl Hk) as (r & E & Hr); [lia|].
  exists r. split; [|done]. apply on_mem_read. unfold str_is_prefix, str_fuel. by erewrite bind_run; [|reflexivity].
Qed.
Lemma str_is_prefix_lit_run s l : Forall (fun c => c <> 0) l -> forall q k, cstr (smem s) q k ->
  exists r, on_mem (str_is_prefix_lit l q) s = Ok (r, s) /\ (r = 0 <-> l `prefix_of` k).
Proof.
  intros Hnz. induction Hnz as [|c l Hc _ IH]; intros q k Hk; cbn [str_is_prefix_lit].
  { exists 0. split; [apply on_mem_read; done|]. split; [intros _; apply prefix_nil|done]. }
  assert (E0 : forall f : Z -> M mem Z, on_mem (bind (ld8 q) f) s = on_mem (f (List.hd 0 k)) s).
  { intros f. unfold on_mem. by erewrite bind_run; [|by apply cstr_head]. }
  rewrite E0. destruct k as [|d k]; cbn [List.hd].
  { rewrite (proj2 (Z.eqb_neq c 0)) by done. exists (-1). split; [by apply on_mem_read|]. split; [done|]. by intros ?%prefix_nil_inv. }
  apply cstr_tail in Hk as [_ Hk]. destruct (Z.eqb_spec c d) as [->|Hcd].
  - destruct (IH _ _ Hk) as (r & E & Hr). exists r. split; [done|]. rewrite Hr. split; [apply prefix_cons|apply prefix_cons_inv_2].
  - exists (-1). split; [by apply on_mem_read|]. split; [done|]. intros H. by apply prefix_cons_inv_1 in H.
Qed.

(** * One symbol *)
(** a name that is not empty, short, printable and outside of the line at [a] *)
Definition symbol_at (m : mem) (a nm : Z) (w : list Z) : Prop :=
  cstr m nm w /\ nm <> 0 /\ (length w < 80)%nat /\ Forall printable w /\ (nm + Z.of_nat (length w) < a \/ a + FINSH_CMD_SIZE <= nm).
(** what has been found after [k] symbols of the kind at hand that match *)
Record scanning (m : mem) (a : Z) (p : list Z) (acc : option (list Z)) (k : nat) (st : tally) : Prop := {
  sc_found : found m a (name_ptr st) (min_length st) acc;
  sc_cnt : cnt st = Z.of_nat k;
  sc_none : p <> [] -> acc = None -> k = 0%nat;
  sc_empty : p = [] -> acc = None;
  sc_prefix : forall v, acc = Some v -> p `prefix_of` v;
}.
Definition join_match (p : list Z) (acc : option (list Z)) (w : list Z) : option (list Z) := if bool_decide (p = []) then acc else join acc w.
Definition printed_line (s : finsh_shell) (entry : Sh unit) : Prop :=
  forall t, exists u, entry (add_out t s) = Ok (tt, add_out (t ++ u ++ [10]) s) /\ Forall printable u.

Lemma at_line_start s t : display (out s) = screen [] [] -> Forall printable t -> display (out (add_out (t ++ [10]) s)) = screen [] [].
Proof. intros Hd Ht. cbn [out add_out]. by rewrite display_app, Hd, put_line_screen. Qed.
(** [first] is asked for as in the four loops *)
Definition first_ok (first : Z -> bool) (acc : option (list Z)) (k : nat) : Prop :=
  first = is_null \/ (first = (fun _ => true) /\ (acc <> None -> k <> 0%nat)).
Lemma head_nil m a p : cstr m a p -> (List.hd 0 p =? 0) = bool_decide (p = []).
Proof.
  intros Hp. destruct p as [|c p]; [done|]. apply cstr_tail in Hp as [Hc _]. cbn [List.hd]. rewrite (proj2 (Z.eqb_neq c 0)) by lia.
  by rewrite bool_decide_eq_false_2.
Qed.
(** name_ptr is set for the first match of all *)
Lemma first_of_all m a p acc k st first : scanning m a p acc k st -> first_ok first acc k -> p <> [] ->
  (min_length st =? 0) = ((cnt st =? 0) && first (name_ptr st))%bool.
Proof.
  intros [S1 S2 S3 _ _] Hfirst Hp0. destruct acc as [v|]; cbn [found] in S1.
  - destruct S1 as (w0 & n0 & _ & _ & -> & Hn & Hf0 & _). rewrite (proj2 (Z.eqb_neq _ 0)) by lia. symmetry. apply andb_false_iff.
    destruct Hfirst as [->|[_ Hfirst]]; [right; unfold is_null; by apply Z.eqb_neq|left]. apply Z.eqb_neq. pose proof (Hfirst ltac:(done)). lia.
  - destruct S1 as [E1 ->]. rewrite S2, (S3 Hp0 eq_refl), E1. destruct Hfirst as [->|[-> _]]; done.
Qed.
Lemma first_symbol_run s a p acc k st head first nm w : cstr (smem s) a p -> scanning (smem s) a p acc k st -> cstr (smem s) nm w ->
  first_ok first acc k -> (length head <= 253)%nat -> Forall printable head -> display (out s) = screen [] [] ->
  exists u f n, first_symbol (head ++ [10]) first (List.hd 0 p) nm st s = Ok ({| cnt := cnt st; name_ptr := f; min_length := n |}, add_out u s) /\
    display (out (add_out u s)) = screen [] [] /\ (p = [] -> f = name_ptr st /\ n = min_length st) /\
    (p <> [] -> (if min_length st =? 0 then let* n := strlen nm in ret (nm, n) else ret (name_ptr st, min_length st)) (smem s) = Ok ((f, n), smem s)).
Proof.
  intros Hp Hsc Hw Hfirst Hlh Hph Hd. pose proof (first_of_all _ _ _ _ _ _ _ Hsc Hfirst) as Hnone. unfold first_symbol. rewrite (head_nil _ _ _ Hp).
  destruct (cnt st =? 0) eqn:Ecnt.
  - erewrite bind_run; [cbv beta|apply kputs_run; rewrite length_app; cbn; lia]. case_bool_decide as Hp0; cbn [negb andb].
    + exists (head ++ [10]), (name_ptr st), (min_length st). destruct st. split_and!; try done. by apply at_line_start.
    + specialize (Hnone Hp0). cbn [andb] in Hnone. rewrite Hnone. destruct (first (name_ptr st)).
      * erewrite bind_run; [cbv beta|apply on_mem_read; by apply rt_strlen_run]. exists (head ++ [10]), nm, (Z.of_nat (length w)).
        split; [done|]. split; [by apply at_line_start|]. split; [done|]. intros _. by erewrite bind_run; [|by apply rt_strlen_run].
      * exists (head ++ [10]), (name_ptr st), (min_length st). split; [by destruct st|]. split; [by apply at_line_start|]. done.
  - exists [], (name_ptr st), (min_length st). rewrite add_out_nil. split; [by destruct st|]. split_and!; try done.
    intros Hp0. specialize (Hnone Hp0). cbn [andb] in Hnone. by rewrite Hnone.
Qed.
Lemma match_symbol_run s a p acc k st head first entry nm w : cstr (smem s) a p -> scanning (smem s) a p acc k st -> symbol_at (smem s) a nm w ->
  first_ok first acc k -> (length head <= 253)%nat -> Forall printable head ->
  printed_line s entry -> display (out s) = screen [] [] -> Z.of_nat k < 65535 ->
  exists st' t, match_symbol (head ++ [10]) first entry a nm st s = Ok (st', add_out t s) /\ display (out (add_out t s)) = screen [] [] /\
    scanning (smem s) a p (if bool_decide (p `prefix_of` w) then join_match p acc w else acc) (if bool_decide (p `prefix_of` w) then S k else k) st'.
Proof.
  intros Hp Hsc (Hw & Hn0 & Hlw & Hprw & How) Hfirst Hlh Hph Hentry Hd Hk. unfold match_symbol.
  destruct (str_is_prefix_run s a nm p w Hp Hw) as (r & Er & Hr). erewrite bind_run; [cbv beta|exact Er].
  destruct (Z.eqb_spec r 0) as [Hr0|Hr0]; cbn [negb].
  2:{ rewrite !bool_decide_eq_false_2 by tauto. exists st, []. by rewrite add_out_nil. }
  rewrite !bool_decide_eq_true_2 by tauto. erewrite bind_run; [cbv beta|apply on_mem_read; by apply cstr_head].
  destruct (first_symbol_run s a p acc k st head first nm w) as (u & f & n & Ei & Hdu & He & Hne); try done.
  erewrite bind_run; [cbv beta|exact Ei]. cbn [cnt name_ptr min_length]. pose proof Hsc as [S1 S2 S3 S4 S5]. destruct (Hentry u) as (v & Ev & Hv).
  assert (Hdv : display (out (add_out (u ++ v ++ [10]) s)) = screen [] []) by (rewrite <- add_out_add_out; by apply at_line_start).
  assert (Ecnt : u16 (cnt st + 1) = Z.of_nat (S k)) by (rewrite S2, u16_small; lia). unfold join_match. rewrite (head_nil _ _ _ Hp).
  destruct (bool_decide_reflect (p = [])) as [Hp0|Hp0]; cbn [negb].
  - destruct (He Hp0) as [-> ->]. erewrite bind_run; [cbv beta|reflexivity]. erewrite bind_run; [cbv beta|exact Ev]. rewrite Ecnt, Z.ltb_irrefl.
    eexists. exists (u ++ v ++ [10]). split; [reflexivity|]. by split; [|split].
  - destruct (found_join _ _ _ _ _ _ _ p S1 Hw Hn0 Hlw Hprw How (proj1 Hr Hr0) Hp0 S5) as (init & E1 & l & E2 & Hf').
    rewrite (Hne Hp0) in E1. injection E1 as <-. cbn [fst snd] in *.
    erewrite bind_run; [cbv beta|apply on_mem_read; exact E2]. erewrite bind_run; [cbv beta|exact Ev]. rewrite Ecnt.
    eexists. exists (u ++ v ++ [10]). split; [reflexivity|]. split; [done|]. split; cbn [cnt name_ptr min_length]; [exact Hf'|done| |done|].
    + intros _ H. by destruct acc.
    + intros x Hx. destruct acc as [v0|]; cbn [join] in Hx; injection Hx as <-; [apply common_greatest; [by apply S5|tauto]|tauto].
Qed.

(** * The loops *)
Definition matches (p : list Z) (ws : list (list Z)) : list (list Z) := filter (fun w => p `prefix_of` w) ws.
(** [f] takes the symbol with the name [w], or, for [None], leaves it out *)
Definition step_ok (s : finsh_shell) (a : Z) (p : list Z) (first : Z -> bool) (f : tally -> Sh tally) (w : option (list Z)) : Prop :=
  forall t acc k st, display (out (add_out t s)) = screen [] [] -> scanning (smem s) a p acc k st -> first_ok first acc k -> Z.of_nat k < 65535 ->
  exists st' u, f st (add_out t s) = Ok (st', add_out (t ++ u) s) /\ display (out (add_out (t ++ u) s)) = screen [] [] /\
    scanning (smem s) a p (fold_left (join_match p) (matches p (option_list w)) acc) (k + length (matches p (option_list w))) st'.
Lemma matches_option p w : matches p (option_list w) = match w with Some w => if bool_decide (p `prefix_of` w) then [w] else [] | None => [] end.
Proof. destruct w as [w|]; [|done]. unfold matches. change (option_list (Some w)) with [w]. rewrite filter_cons. case_bool_decide; by case_decide. Qed.
Lemma first_ok_step first p ws acc k : first_ok first acc k -> first_ok first (fold_left (join_match p) ws acc) (k + length ws).
Proof.
  intros [->|[-> H]]; [by left|right]. split; [done|]. destruct ws as [|w ws]; [cbn; by rewrite Nat.add_0_r|]. cbn [length]. lia.
Qed.
Lemma pass_run {A} s a p first (f : A -> tally -> Sh tally) l ws : Forall2 (fun x w => step_ok s a p first (f x) w) l ws ->
  forall t acc k st, display (out (add_out t s)) = screen [] [] -> scanning (smem s) a p acc k st -> first_ok first acc k -> Z.of_nat (k + length l) <= 65535 ->
  exists st' u, pass f l st (add_out t s) = Ok (st', add_out (t ++ u) s) /\ display (out (add_out (t ++ u) s)) = screen [] [] /\
    scanning (smem s) a p (fold_left (join_match p) (matches p (omap id ws)) acc) (k + length (matches p (omap id ws))) st'.
Proof.
  intros HF. induction HF as [|x w l ws Hx HF IH]; intros t acc k st Hd Hsc Hfi Hk; cbn [pass length] in *.
  - exists st, []. rewrite app_nil_r. cbn. by rewrite Nat.add_0_r.
  - destruct (Hx t acc k st Hd Hsc Hfi) as (st1 & u & E & Hd1 & Hs1); [lia|]. erewrite bind_run; [cbv beta|exact E].
    assert (Hsplit : matches p (omap id (w :: ws)) = matches p (option_list w) ++ matches p (omap id ws)).
    { unfold matches. destruct w as [w|]; [|done]. change (omap id (Some w :: ws)) with ([w] ++ omap id ws). apply filter_app. }
    assert (Hl1 : (length (matches p (option_list w)) <= 1)%nat) by (rewrite matches_option; destruct w; [case_bool_decide|]; cbn; lia).
    destruct (IH (t ++ u) _ _ _ Hd1 Hs1) as (st' & u' & E' & Hd' & Hs'); [by apply first_ok_step|lia|].
    exists st', (u ++ u'). rewrite app_assoc. split; [done|]. split; [done|]. rewrite Hsplit, fold_left_app, length_app, Nat.add_assoc. done.
Qed.
(** the three kinds of steps *)
Lemma print_symbol_line s nm dsc w d : cstr (smem s) nm w -> Forall printable w -> cstr (smem s) dsc d -> Forall printable d -> (length d < 230)%nat ->
  printed_line s (print_symbol nm dsc).
Proof.
  intros Hw Hpw Hd Hpd Hl t. unfold print_symbol. erewrite bind_run; [cbv beta|apply on_mem_read; by apply text_at_run].
  erewrite bind_run; [cbv beta|apply on_mem_read; by apply text_at_run]. destruct (column_printable 16 w Hpw) as [Hc1 Hc2].
  exists (column 16 w ++ [32; 45; 45; 32] ++ d). rewrite kputs_run by (rewrite !length_app, Hc2; cbn; lia). rewrite add_out_add_out, <- !app_assoc.
  split; [done|]. apply Forall_app. split; [done|]. repeat (constructor; [unfold printable; lia|]). done.
Qed.
Lemma print_item_line s letter nm w : cstr (smem s) nm w -> Forall printable w -> (length w < 80)%nat -> printable letter -> printed_line s (print_item letter nm).
Proof.
  intros Hw Hpw Hl Hlt t. unfold print_item. erewrite bind_run; [cbv beta|apply on_mem_read; by apply text_at_run].
  exists ([91; letter; 93; 32] ++ w). rewrite kputs_run by (rewrite !length_app; cbn; lia). rewrite add_out_add_out, <- !app_assoc.
  split; [done|]. cbn. repeat (constructor; [first [done|unfold printable; lia]|]). done.
Qed.
Lemma printed_line_add s t entry : printed_line s entry -> printed_line (add_out t s) entry.
Proof. intros H u. destruct (H (t ++ u)) as (v & E & Hv). exists v. rewrite !add_out_add_out. rewrite <- !app_assoc in E. done. Qed.
Lemma match_step s a p head first entry nm w : cstr (smem s) a p -> symbol_at (smem s) a nm w -> (length head <= 253)%nat -> Forall printable head ->
  printed_line s entry -> step_ok s a p first (match_symbol (head ++ [10]) first entry a nm) (Some w).
Proof.
  intros Hp Hsy Hlh Hph He t acc k st Hd Hsc Hfi Hk.
  destruct (match_symbol_run (add_out t s) a p acc k st head first entry nm w) as (st' & u & E & Hd' & Hs'); try done; [by apply printed_line_add|].
  exists st', u. rewrite add_out_add_out in E, Hd'. split; [done|]. split; [done|]. rewrite matches_option. cbn [smem add_out] in Hs'.
  case_bool_decide; cbn [length fold_left]; [by rewrite Nat.add_1_r|by rewrite Nat.add_0_r].
Qed.

(** * list_prefix *)
Definition described_at (m : mem) (dsc : Z) : Prop := exists d, cstr m dsc d /\ Forall printable d /\ (length d < 230)%nat.
(** an internal name begins with "__" *)
Definition public (w : list Z) : option (list Z) := if bool_decide (internal `prefix_of` w) then None else Some w.
(** the names of the symbols in memory, by table *)
Record symbols_at (m : mem) (a : Z) (y : symbols) (calls items vars var_items : list (list Z)) : Prop := {
  sy_calls : Forall2 (fun e w => symbol_at m a (name e) w /\ described_at m (desc e)) (syscall_table y) calls;
  sy_items : Forall2 (symbol_at m a) (global_syscall_list y) items;
  sy_vars : Forall2 (fun v w => symbol_at m a (var_name v) w /\ described_at m (var_desc v)) (sysvar_table y) vars;
  sy_var_items : Forall2 (symbol_at m a) (global_sysvar_list y) var_items;
  sy_number : Z.of_nat (length calls + length items) <= 65535 /\ Z.of_nat (length vars + length var_items) <= 65535;
}.
(** all names that are shown *)
Definition shown (calls items vars var_items : list (list Z)) : list (list Z) := omap public calls ++ items ++ vars ++ var_items.
Definition completed (ws : list (list Z)) (p : list Z) : list Z := default p (fold_left (join_match p) (matches p ws) None).

Lemma syscall_step_ok s a p e w : cstr (smem s) a p -> symbol_at (smem s) a (name e) w -> described_at (smem s) (desc e) ->
  step_ok s a p (fun _ => true) (syscall_step a e) (public w).
Proof.
  intros Hp Hsy (d & Hd & Hpd & Hld). pose proof Hsy as (Hw & _ & _ & Hpw & _). intros t acc k st Hdis Hsc Hfi Hk. unfold syscall_step.
  destruct (str_is_prefix_lit_run (add_out t s) internal ltac:(unfold internal; repeat constructor; lia) (name e) w Hw) as (r & E & Hr).
  erewrite bind_run; [cbv beta|exact E]. unfold public. destruct (Z.eqb_spec r 0) as [Hr0|Hr0].
  - rewrite bool_decide_eq_true_2 by tauto. exists st, []. rewrite app_nil_r. cbn. by rewrite Nat.add_0_r.
  - rewrite bool_decide_eq_false_2 by tauto. change function_head with (take 11 function_head ++ [10]).
    apply (match_step s a p (take 11 function_head) _ _ _ w Hp Hsy); [cbn; lia| |by eapply print_symbol_line|done|done|done|done].
    unfold function_head, printable. cbn [take]. repeat (constructor; [lia|]). constructor.
Qed.
Lemma item_step_ok s a p letter nm w head : cstr (smem s) a p -> symbol_at (smem s) a nm w -> printable letter -> (length head <= 253)%nat -> Forall printable head ->
  step_ok s a p is_null (match_symbol (head ++ [10]) is_null (print_item letter nm) a nm) (Some w).
Proof.
  intros Hp Hsy Hlt Hlh Hph. pose proof Hsy as (Hw & _ & Hl & Hpw & _). by eapply match_step, print_item_line.
Qed.
Lemma var_step_ok s a p v w head : cstr (smem s) a p -> symbol_at (smem s) a (var_name v) w -> described_at (smem s) (var_desc v) ->
  (length head <= 253)%nat -> Forall printable head ->
  step_ok s a p is_null (match_symbol (head ++ [10]) is_null (print_symbol (var_name v) (var_desc v)) a (var_name v)) (Some w).
Proof.
  intros Hp Hsy (d & Hd & Hpd & Hld) Hlh Hph. pose proof Hsy as (Hw & _ & Hl & Hpw & _). by eapply match_step, print_symbol_line.
Qed.
(** the counter starts again for the variables *)
Lemma scanning_restart m a p acc k st : scanning m a p acc k st -> scanning m a p acc 0 {| cnt := 0; name_ptr := name_ptr st; min_length := min_length st |}.
Proof. intros [S1 S2 S3 S4 S5]. by split. Qed.
Lemma omap_some (ws : list (list Z)) : omap id (Some <$> ws) = ws.
Proof. induction ws as [|w ws IH]; [done|]. cbn in *. by rewrite IH. Qed.
Lemma omap_public (ws : list (list Z)) : omap id (public <$> ws) = omap public ws.
Proof. induction ws as [|w ws IH]; [done|]. cbn in *. destruct (public w); cbn; by rewrite IH. Qed.
Lemma public_length (ws : list (list Z)) : (length (omap public ws) <= length ws)%nat.
Proof. induction ws as [|w ws IH]; [done|]. cbn. destruct (public w); cbn in *; lia. Qed.
Lemma matches_length p ws : (length (matches p ws) <= length ws)%nat.
Proof. apply length_filter. Qed.
(** list_prefix prints the symbols that begin with the line and replaces the
    line by the longest text that all of them begin with, over the four tables:
    functions without the internal ones and variables, static and dynamic ones.
    An empty line, for which it prints all symbols, and a line without a match
    stay as they are. *)
Theorem list_prefix_spec s y p calls items vars var_items : holds (smem s) (line s) p [] ->
  symbols_at (smem s) (line s) y calls items vars var_items -> display (out s) = screen [] [] ->
  exists t m, list_prefix y (line s) s = Ok (tt, set_smem m (add_out t s)) /\ display (out (add_out t s)) = screen [] [] /\
    holds m (line s) (completed (shown calls items vars var_items) p) [] /\ (forall x, ~ line_of s x -> m !! x = smem s !! x).
Proof.
  intros Hh [Y1 Y2 Y3 Y4 [N1 N2]] Hd. pose proof (holds_line _ _ _ _ Hh) as Hp. rewrite app_nil_r in Hp. set (a := line s) in *.
  assert (H11 : Forall printable (take 11 function_head) /\ Forall printable (take 11 variable_head))
    by (unfold function_head, variable_head, printable; cbn [take]; split; repeat (constructor; [lia|]); constructor).
  destruct H11 as [Hf Hv]. unfold list_prefix.
  change variable_head with (take 11 variable_head ++ [10]). change function_head with (take 11 function_head ++ [10]).
  destruct (pass_run s a p (fun _ => true) (syscall_step a) (syscall_table y) (public <$> calls)) with (t := @nil Z) (acc := @None (list Z)) (k := 0%nat)
    (st := {| cnt := 0; name_ptr := 0; min_length := 0 |}) as (st1 & t1 & E1 & D1 & S1).
  { apply Forall2_fmap_r. eapply Forall2_impl; [exact Y1|]. intros e w [H1 H2]. by apply syscall_step_ok. }
  { by rewrite add_out_nil. }
  { by split. }
  { right. by split. }
  { rewrite (Forall2_length _ _ _ Y1). lia. }
  rewrite omap_public, add_out_nil in *. cbn [app] in *. erewrite bind_run; [cbv beta|exact E1].
  pose proof (matches_length p (omap public calls)) as L1. pose proof (public_length calls) as Lo.
  destruct (pass_run s a p is_null (fun nm => match_symbol (take 11 function_head ++ [10]) is_null (print_item 108 nm) a nm) (global_syscall_list y) (Some <$> items))
    with (2 := D1) (3 := S1) as (st2 & t2 & E2 & D2 & S2).
  { apply Forall2_fmap_r. eapply Forall2_impl; [exact Y2|]. intros nm w H. apply item_step_ok; [done|done|unfold printable; lia|cbn; lia|done]. }
  { by left. }
  { rewrite (Forall2_length _ _ _ Y2). lia. }
  erewrite bind_run; [cbv beta|exact E2]. rewrite omap_some in S2.
  destruct (pass_run s a p is_null (fun v => match_symbol (take 11 variable_head ++ [10]) is_null (print_symbol (var_name v) (var_desc v)) a (var_name v)) (sysvar_table y) (Some <$> vars))
    with (2 := D2) (3 := scanning_restart _ _ _ _ _ _ S2) as (st3 & t3 & E3 & D3 & S3).
  { apply Forall2_fmap_r. eapply Forall2_impl; [exact Y3|]. intros v w [H1 H2]. apply var_step_ok; [done|done|done|cbn; lia|done]. }
  { by left. }
  { rewrite (Forall2_length _ _ _ Y3). lia. }
  erewrite bind_run; [cbv beta|exact E3]. rewrite omap_some in S3. pose proof (matches_length p vars) as L3.
  destruct (pass_run s a p is_null (fun nm => match_symbol (take 11 variable_head ++ [10]) is_null (print_item 118 nm) a nm) (global_sysvar_list y) (Some <$> var_items))
    with (2 := D3) (3 := S3) as (st4 & t4 & E4 & D4 & S4).
  { apply Forall2_fmap_r. eapply Forall2_impl; [exact Y4|]. intros nm w H. apply item_step_ok; [done|done|unfold printable; lia|cbn; lia|done]. }
  { by left. }
  { rewrite (Forall2_length _ _ _ Y4). lia. }
  erewrite bind_run; [cbv beta|exact E4]. rewrite omap_some in S4. pose proof S4 as [F _ _ _ P4].
  destruct (store_completion (add_out (((t1 ++ t2) ++ t3) ++ t4) s) p _ _ _ Hh F P4) as (m & Em & Hm & Hx).
  exists (((t1 ++ t2) ++ t3) ++ t4), m. split; [exact Em|]. split; [exact D4|]. split; [|exact Hx].
  unfold completed, shown, matches. rewrite !filter_app, !fold_left_app. exact Hm.
Qed.
