(* ===== verification/HistoryExamples.v ===== *)
(** The shell with history and completion on a concrete memory. *)
From S2P Require Import Prelude KService Mem Heap HeapExamples KString Msh Shell ShellSpec ServiceExamples ShellExamples History HistorySpec Complete CompleteSpec ListPrefix ListPrefixSpec.

(** the line at 4096, the description demo at 8704, the names "__cmd_free" and "__cmd_frame" at 8192 and 8448,
    and the array of lines at 12288 *)
Definition free_name : list Z := cmd_prefix ++ [102; 114; 101; 101].
Definition frame_name : list Z := cmd_prefix ++ [102; 114; 97; 109; 101].
Definition history_ram : mem :=
  store_bytes 8704 [100; 101; 109; 111; 0]
    (store_bytes 8448 (frame_name ++ [0]) (store_bytes 8192 (free_name ++ [0]) (fill 400 12288 0 (fill 80 4096 0 ∅)))).
Definition two_commands : list finsh_syscall := [{| name := 8192; desc := 8704; func := 16384 |}; {| name := 8448; desc := 8704; func := 16640 |}].
Definition two_names : list (list Z * Z) := [(free_name, 16384); (frame_name, 16640)].
Definition history0 : hshell := {|
  sh := {| stat := WAIT_NORMAL; echo_mode := true; prompt_mode := true; line := 4096; line_position := 0; line_curpos := 0;
    finsh_prompt_custom := None; smem := history_ram; out := [109; 115; 104; 32; 62] |};
  current_history := 0; history_count := 0; cmd_history := 12288 |}.
Definition editor0 : editor := {| before := []; behind := []; hist := []; place := 0 |}.
(** the bytes of the names and the description *)
Definition names_env (x : Z) : Prop := 8192 <= x < 8192 + 11 \/ 8448 <= x < 8448 + 12 \/ 8704 <= x < 8704 + 5.

Lemma history_lookup x : history_ram !! x =
  if decide (8704 <= x < 8709) then [100; 101; 109; 111; 0] !! Z.to_nat (x - 8704)
  else if decide (8448 <= x < 8460) then (frame_name ++ [0]) !! Z.to_nat (x - 8448)
  else if decide (8192 <= x < 8203) then (free_name ++ [0]) !! Z.to_nat (x - 8192)
  else if decide (12288 <= x < 12688) then Some 0 else if decide (4096 <= x < 4176) then Some 0 else None.
Proof. unfold history_ram. rewrite !lookup_store_bytes, !lookup_fill. cbn [length app free_name frame_name cmd_prefix]. repeat case_decide; done || lia. Qed.
Lemma history_bytes : byte_mem history_ram.
Proof.
  unfold history_ram. do 3 (apply byte_mem_store_bytes; [unfold free_name, frame_name, cmd_prefix; repeat constructor; lia|]).
  intros x c. rewrite !lookup_fill. repeat case_decide; [by intros [= <-]..|by rewrite lookup_empty].
Qed.
Lemma name_at m a n : (forall x, a <= x < a + Z.of_nat (length n) + 1 -> m !! x = history_ram !! x) -> cstr history_ram a n -> cstr m a n.
Proof. intros H. apply cstr_ext. intros x Hx. apply H. lia. Qed.
Lemma history_table m : (forall x, names_env x -> m !! x = history_ram !! x) -> table_at m two_commands two_names.
Proof.
  intros H. unfold names_env in H. constructor; [|constructor; [|constructor]]; (split; [|done]); (apply name_at; [intros x Hx; apply H; cbn in Hx; lia|]); concrete_cstr.
Qed.
Lemma history_described m : (forall x, names_env x -> m !! x = history_ram !! x) -> Forall (described m) two_commands.
Proof.
  intros H. assert (Hd : cstr m 8704 [100; 101; 109; 111]).
  { apply name_at; [intros x Hx; apply H; unfold names_env; cbn in Hx; lia|concrete_cstr]. }
  repeat constructor; (exists [100; 101; 109; 111]; split; [exact Hd|]; split; [repeat constructor; unfold printable; lia|cbn; lia]).
Qed.
Lemma history_names : Forall2 (name_ok 4096) two_commands two_names.
Proof.
  repeat constructor; cbn; unfold FINSH_CMD_SIZE; try lia; unfold printable; lia.
Qed.
Lemma history_mapped : mapped history_ram 12288 400.
Proof. unfold history_ram. do 3 apply mapped_store_bytes. split_and!; [lia..|]. intros x Hx. rewrite lookup_fill. rewrite decide_True by lia. by eexists. Qed.
Lemma history_line : holds history_ram 4096 [] [].
Proof.
  split; unfold FINSH_CMD_SIZE; [exact history_bytes| |lia|cbn; lia|constructor|].
  - split_and!; [lia..|]. intros x Hx. rewrite history_lookup. repeat case_decide; lia || by eexists.
  - intros i c Hi. cbn [app length] in Hi. apply lookup_replicate in Hi as [-> Hi]. rewrite history_lookup. repeat case_decide; lia || done.
Qed.
Lemma history_edits : edits (T := command_tab two_commands two_names) two_commands count_args two_names names_env history0 editor0.
Proof.
  split; cbn [before behind hist place editor0].
  - split; try done; [by apply shell_prompt_ok|exact history_line|]. by exists 0%nat.
  - split; [done|cbn; lia|done|cbn; lia|done| |].
    + split; [exact history_mapped|exact history_bytes|cbn; lia].
    + intros x. unfold in_array, line_of, FINSH_CMD_SIZE. cbn. lia.
  - intros m Hm. pose proof (history_table m Hm) as Ht. split; [done|]. split; [done|]. split; [exact history_names|by apply history_described].
  - intros x. unfold names_env, in_array, line_of, FINSH_CMD_SIZE. cbn. lia.
  - intros f argv m Hm. exists (Z.of_nat (length argv)), m. split; [reflexivity|exact Hm].
  - intros f argv m x m' [= _ <-]. done.
Qed.

(** "f", tab, "e", tab, Enter; "fra", tab, Enter; twice up, down, up, and a
    blank *)
Definition some_keys : list hkey :=
  [Edit (Char 102); Edit Tab; Edit (Char 101); Edit Tab; Enter; Edit (Char 102); Edit (Char 114); Edit (Char 97); Edit Tab; Enter;
   Up; Up; Down; Up; Edit (Char 32)].
Lemma history_session_witness : exists s',
  feed_keys two_commands count_args (tab_key two_commands) (concat (hkey_bytes <$> some_keys)) history0 = Ok (tt, s') /\
  edits (T := command_tab two_commands two_names) two_commands count_args two_names names_env s'
    {| before := [102; 114; 101; 101; 32]; behind := []; hist := [[102; 114; 101; 101]; [102; 114; 97; 109; 101]]; place := 0 |}.
Proof.
  apply (history_session (T := command_tab two_commands two_names) two_commands count_args two_names names_env some_keys history0 editor0).
  - exact history_edits.
  - repeat constructor; cbn; unfold printable; lia.
  - vm_compute. reflexivity.
Defined.
(** "f" becomes "fr" *)
Definition shell_f : finsh_shell :=
  {| stat := WAIT_NORMAL; echo_mode := true; prompt_mode := true; line := 4096; line_position := 1; line_curpos := 1;
    finsh_prompt_custom := None; smem := <[4096 := 102]> history_ram; out := [109; 115; 104; 32; 62; 102] |}.
Lemma shell_f_shows : shows shell_f [102] [].
Proof.
  split; try done; [by apply shell_prompt_ok| |by exists 0%nat]. unfold shell_f. cbn [smem line].
  apply (holds_intro _ _ _ _ _ [102] [] history_line).
  - intros x c. rewrite lookup_insert. case_decide; [by intros [= <-]|apply history_bytes].
  - intros x Hx. rewrite lookup_insert. case_decide; [by eexists|done].
  - cbn. lia.
  - repeat constructor; unfold printable; lia.
  - intros i c Hi. rewrite lookup_insert. destruct i as [|i]; cbn [lookup app length] in Hi.
    + injection Hi as <-. by rewrite decide_True by lia.
    + rewrite decide_False by lia. change (replicate 79 0 !! i = Some c) in Hi. apply lookup_replicate in Hi as [-> Hi]. rewrite history_lookup. repeat case_decide; lia || done.
Qed.
Lemma tab_completes_witness : exists s', tab_key two_commands shell_f = Ok (tt, s') /\ shows s' [102; 114] [].
Proof.
  destruct (tab_completes two_commands two_names shell_f [102] []) as (s' & E & _ & H & _).
  - apply history_table. intros x Hx. apply lookup_insert_ne. unfold names_env in Hx. lia.
  - exact history_names.
  - apply history_described. intros x Hx. apply lookup_insert_ne. unfold names_env in Hx. lia.
  - exact shell_f_shows.
  - exists s'. split; [exact E|exact H].
Defined.
(** what the terminal gets for the second tab of the example *)
Example two_candidates : (match tab_key two_commands shell_f with Ok (_, s') => drop 6 (out s') | Fault _ => [] end) =
  [8; 10; 102; 114; 101; 101; 10; 102; 114; 97; 109; 101; 10; 109; 115; 104; 32; 62; 102; 114].
Proof. vm_compute. reflexivity. Qed.

(** the same names without the prefix, as two functions that were added at run
    time, and a static variable *)
Definition some_symbols : symbols := {| syscall_table := two_commands; global_syscall_list := [8198; 8454];
  sysvar_table := [{| var_name := 8704; var_desc := 8704 |}]; global_sysvar_list := [] |}.
Example prefix_f : (match list_prefix some_symbols 4096 shell_f with Ok (_, s') => (bytes_at (smem s') 4096 3, length (out s')) | Fault _ => ([], 0%nat) end) =
  ([102; 114; 0], (6 + 12 + 9 + 10)%nat).
Proof. vm_compute. reflexivity. Qed.
