(* ===== verification/CpuPort.v ===== *)
(** rt-thread/kernel/libcpu/risc-v/common/cpuport.c: the initial stack of a
    thread. (The context switch itself is assembly; the request an interrupt
    handler leaves for it is in [Kernel].) *)
From S2P Require Import Prelude KService Mem.

(** * Definitions *)

(** struct rt_hw_stack_frame has 32 words; the word index of the fields that
    rt_hw_stack_init sets *)
Definition FRAME_WORDS : Z := 32.
Definition frame_epc : Z := 0.
Definition frame_ra : Z := 1.
Definition frame_mstatus : Z := 2.
Definition frame_a0 : Z := 10.
Definition REGBYTES : Z := 4.

(** ((rt_ubase_t * )frame)[i] = 0xdeadbeef, [n] words from [i] on *)
Fixpoint fill_frame (frame : Z) (n : nat) (i : Z) : M mem unit :=
  match n with
  | O => ret tt
  | S n => st32 (frame + 4 * i) 3735928559;; fill_frame frame n (i + 1)
  end.

Definition rt_hw_stack_init (tentry parameter stack_addr texit : Z) : M mem Z :=
  let stk := u32 (stack_addr + 4) in
  let stk := RT_ALIGN_DOWN stk REGBYTES in
  let stk := u32 (stk - 4 * FRAME_WORDS) in
  fill_frame stk (Z.to_nat FRAME_WORDS) 0;;
  st32 (stk + 4 * frame_ra) texit;;
  st32 (stk + 4 * frame_a0) parameter;;
  st32 (stk + 4 * frame_epc) tentry;;
  st32 (stk + 4 * frame_mstatus) 30848;;
  ret stk.
