(* ===== verification/Kernel.v ===== *)
(** The kernel's data model: the structs of rt-thread/kernel/include/rtdef.h,
    the kernel state with all static variables, the list heads, and the
    kernel monad [K].  A pointer is its address, 0 is RT_NULL.  A struct that
    inherits from rt_object keeps its object header in [objs] and the rest in
    the map of its class, under the same address.

    The intrusive lists appear here as the abstract families whose pointer
    implementation is verified in [RtList]: [queues] maps every list head that
    can carry a thread's [tlist] node to the threads on it, [containers] maps
    an object class to the objects on its list, and the timer rows are the two
    lists on which a timer can be. Linking a node that is already on a list
    (which corrupts the pointers) is the fault [ListCorrupt]. *)
From S2P Require Import Prelude KService Mem.

(** * rtdef.h *)
Definition RT_EOK : Z := 0.
Definition RT_ERROR : Z := 1.
Definition RT_ETIMEOUT : Z := 2.
Definition RT_EFULL : Z := 3.
Definition RT_EINVAL : Z := 10.
Definition RT_NULL : Z := 0.
Definition RT_NAME_MAX : Z := 8.
Definition RT_THREAD_PRIORITY_MAX : Z := 32.
Definition RT_TICK_MAX : Z := 4294967295.

Definition RT_Object_Class_Null : Z := 0.
Definition RT_Object_Class_Thread : Z := 1.
Definition RT_Object_Class_Semaphore : Z := 2.
Definition RT_Object_Class_Mutex : Z := 3.
Definition RT_Object_Class_Event : Z := 4.
Definition RT_Object_Class_MailBox : Z := 5.
Definition RT_Object_Class_MessageQueue : Z := 6.
Definition RT_Object_Class_MemHeap : Z := 7.
Definition RT_Object_Class_MemPool : Z := 8.
Definition RT_Object_Class_Timer : Z := 10.
Definition RT_Object_Class_Static : Z := 128.

Definition RT_THREAD_INIT : Z := 0.
Definition RT_THREAD_READY : Z := 1.
Definition RT_THREAD_SUSPEND : Z := 2.
Definition RT_THREAD_CLOSE : Z := 4.
Definition RT_THREAD_STAT_MASK : Z := 15.

Definition RT_TIMER_FLAG_ACTIVATED : Z := 1.
Definition RT_TIMER_FLAG_PERIODIC : Z := 2.
Definition RT_IPC_FLAG_FIFO : Z := 0.
Definition RT_IPC_FLAG_PRIO : Z := 1.
Definition RT_IPC_CMD_RESET : Z := 1.
Definition RT_WAITING_FOREVER : Z := -1.
Definition RT_SEM_VALUE_MAX : Z := 65535.
Definition RT_MUTEX_VALUE_MAX : Z := 65535.
Definition RT_MUTEX_HOLD_MAX : Z := 255.
Definition RT_MB_ENTRY_MAX : Z := 65535.
Definition RT_MQ_ENTRY_MAX : Z := 65535.
Definition RT_EVENT_FLAG_AND : Z := 1.
Definition RT_EVENT_FLAG_OR : Z := 2.
Definition RT_EVENT_FLAG_CLEAR : Z := 4.

(** struct rt_object; the list node is the membership in [containers] *)
Record rt_object := { o_name : list Z; o_type : Z; o_flag : Z }.

(** a timer callback: the kernel's own, or an application's at an address *)
Inductive timeout_fn :=
  | Fn_rt_thread_timeout
  | Fn_user (addr : Z).

(** struct rt_timer (RT_TIMER_SKIP_LIST_LEVEL = 1) *)
Record rt_timer := {
  timeout_func : timeout_fn;
  parameter : Z;
  tm_init_tick : Z;
  timeout_tick : Z;
}.

(** struct rt_thread *)
Record rt_thread := {
  sp : Z;
  entry : Z;
  t_parameter : Z;
  stack_addr : Z;
  stack_size : Z;
  error : Z;
  stat : Z;
  current_priority : Z;
  init_priority : Z;
  number_mask : Z;
  event_set : Z;
  event_info : Z;
  t_init_tick : Z;
  remaining_tick : Z;
  cleanup : Z;
  user_data : Z;
}.

(** the address of the timer embedded in a thread *)
Definition THREAD_TIMER_OFFSET : Z := 76.
Definition thread_timer (thread : Z) : Z := thread + THREAD_TIMER_OFFSET.

Record rt_semaphore := { sem_value : Z }.
Record rt_mutex := {
  mtx_value : Z;
  original_priority : Z;
  hold : Z;
  owner : Z;
}.
Record rt_event := { ev_set : Z }.
(** the message array at [mb_msg_pool] is in the byte memory *)
Record rt_mailbox := {
  mb_msg_pool : Z;
  mb_size : Z;
  mb_entry : Z;
  in_offset : Z;
  out_offset : Z;
}.
(** a message slot of the pool at [mq_msg_pool] is a link word, followed by the
    payload; the slots are in the byte memory *)
Record rt_messagequeue := {
  mq_msg_pool : Z;
  msg_size : Z;
  max_msgs : Z;
  mq_entry : Z;
  msg_queue_head : Z;
  msg_queue_tail : Z;
  msg_queue_free : Z;
}.
(** a block of the pool is a header word, followed by the caller's bytes; the
    blocks are in the byte memory *)
Record rt_mempool := {
  start_address : Z;
  mp_size : Z;
  block_size : Z;
  block_list : Z;
  block_total_count : Z;
  block_free_count : Z;
}.

(** * List heads that carry threads *)
Inductive qhead :=
  | QReady (priority : Z)    (** rt_thread_priority_table[priority] *)
  | QDefunct                 (** rt_thread_defunct *)
  | QSuspend (ipc : Z)       (** parent.suspend_thread *)
  | QSender (ipc : Z).       (** suspend_sender_thread *)

#[export] Instance qhead_eq_dec : EqDecision qhead.
Proof. solve_decision. Defined.
#[export] Instance qhead_countable : Countable qhead.
Proof.
  refine (inj_countable'
    (fun q => match q with
      | QReady p => (0%nat, p) | QDefunct => (1%nat, 0)
      | QSuspend o => (2%nat, o) | QSender o => (3%nat, o) end)
    (fun c => match c with
      | (0%nat, p) => QReady p | (1%nat, _) => QDefunct
      | (2%nat, o) => QSuspend o | (_, o) => QSender o end) _).
  by intros [].
Defined.

(** the variables of libcpu/risc-v/common/cpuport.c through which an interrupt
    handler asks the trap exit for a context switch *)
Record switch_request := {
  rt_interrupt_from_thread : Z;
  rt_interrupt_to_thread : Z;
  rt_thread_switch_interrupt_flag : Z;
}.

(** * The kernel state *)
Record kstate := {
  threads : gmap Z rt_thread;
  timers : gmap Z rt_timer;
  sems : gmap Z rt_semaphore;
  mutexes : gmap Z rt_mutex;
  events : gmap Z rt_event;
  mailboxes : gmap Z rt_mailbox;
  mqueues : gmap Z rt_messagequeue;
  mempools : gmap Z rt_mempool;
  objs : gmap Z rt_object;
  containers : gmap Z (list Z);
  queues : gmap qhead (list Z);
  rt_timer_list : list Z;
  check_list : list Z;
  ready_priority_group : Z;
  rt_current_thread : Z;
  rt_current_priority : Z;
  scheduler_lock_nest : Z;
  interrupt_nest : Z;
  switch_req : switch_request;
  rt_tick : Z;
  random_nr : Z;
  kheap : heap;
}.

Definition set_threads (f : gmap Z rt_thread -> gmap Z rt_thread) (s : kstate) : kstate := {|
  threads := f (threads s); timers := timers s; sems := sems s; mutexes := mutexes s;
  events := events s; mailboxes := mailboxes s; mqueues := mqueues s; mempools := mempools s;
  objs := objs s; containers := containers s; queues := queues s; rt_timer_list := rt_timer_list s;
  check_list := check_list s; ready_priority_group := ready_priority_group s; rt_current_thread := rt_current_thread s; rt_current_priority := rt_current_priority s;
  scheduler_lock_nest := scheduler_lock_nest s; interrupt_nest := interrupt_nest s; switch_req := switch_req s; rt_tick := rt_tick s;
  random_nr := random_nr s; kheap := kheap s |}.
Definition set_timers (f : gmap Z rt_timer -> gmap Z rt_timer) (s : kstate) : kstate := {|
  threads := threads s; timers := f (timers s); sems := sems s; mutexes := mutexes s;
  events := events s; mailboxes := mailboxes s; mqueues := mqueues s; mempools := mempools s;
  objs := objs s; containers := containers s; queues := queues s; rt_timer_list := rt_timer_list s;
  check_list := check_list s; ready_priority_group := ready_priority_group s; rt_current_thread := rt_current_thread s; rt_current_priority := rt_current_priority s;
  scheduler_lock_nest := scheduler_lock_nest s; interrupt_nest := interrupt_nest s; switch_req := switch_req s; rt_tick := rt_tick s;
  random_nr := random_nr s; kheap := kheap s |}.
Definition set_sems (f : gmap Z rt_semaphore -> gmap Z rt_semaphore) (s : kstate) : kstate := {|
  threads := threads s; timers := timers s; sems := f (sems s); mutexes := mutexes s;
  events := events s; mailboxes := mailboxes s; mqueues := mqueues s; mempools := mempools s;
  objs := objs s; containers := containers s; queues := queues s; rt_timer_list := rt_timer_list s;
  check_list := check_list s; ready_priority_group := ready_priority_group s; rt_current_thread := rt_current_thread s; rt_current_priority := rt_current_priority s;
  scheduler_lock_nest := scheduler_lock_nest s; interrupt_nest := interrupt_nest s; switch_req := switch_req s; rt_tick := rt_tick s;
  random_nr := random_nr s; kheap := kheap s |}.
Definition set_mutexes (f : gmap Z rt_mutex -> gmap Z rt_mutex) (s : kstate) : kstate := {|
  threads := threads s; timers := timers s; sems := sems s; mutexes := f (mutexes s);
  events := events s; mailboxes := mailboxes s; mqueues := mqueues s; mempools := mempools s;
  objs := objs s; containers := containers s; queues := queues s; rt_timer_list := rt_timer_list s;
  check_list := check_list s; ready_priority_group := ready_priority_group s; rt_current_thread := rt_current_thread s; rt_current_priority := rt_current_priority s;
  scheduler_lock_nest := scheduler_lock_nest s; interrupt_nest := interrupt_nest s; switch_req := switch_req s; rt_tick := rt_tick s;
  random_nr := random_nr s; kheap := kheap s |}.
Definition set_events (f : gmap Z rt_event -> gmap Z rt_event) (s : kstate) : kstate := {|
  threads := threads s; timers := timers s; sems := sems s; mutexes := mutexes s;
  events := f (events s); mailboxes := mailboxes s; mqueues := mqueues s; mempools := mempools s;
  objs := objs s; containers := containers s; queues := queues s; rt_timer_list := rt_timer_list s;
  check_list := check_list s; ready_priority_group := ready_priority_group s; rt_current_thread := rt_current_thread s; rt_current_priority := rt_current_priority s;
  scheduler_lock_nest := scheduler_lock_nest s; interrupt_nest := interrupt_nest s; switch_req := switch_req s; rt_tick := rt_tick s;
  random_nr := random_nr s; kheap := kheap s |}.
Definition set_mailboxes (f : gmap Z rt_mailbox -> gmap Z rt_mailbox) (s : kstate) : kstate := {|
  threads := threads s; timers := timers s; sems := sems s; mutexes := mutexes s;
  events := events s; mailboxes := f (mailboxes s); mqueues := mqueues s; mempools := mempools s;
  objs := objs s; containers := containers s; queues := queues s; rt_timer_list := rt_timer_list s;
  check_list := check_list s; ready_priority_group := ready_priority_group s; rt_current_thread := rt_current_thread s; rt_current_priority := rt_current_priority s;
  scheduler_lock_nest := scheduler_lock_nest s; interrupt_nest := interrupt_nest s; switch_req := switch_req s; rt_tick := rt_tick s;
  random_nr := random_nr s; kheap := kheap s |}.
Definition set_mqueues (f : gmap Z rt_messagequeue -> gmap Z rt_messagequeue) (s : kstate) : kstate := {|
  threads := threads s; timers := timers s; sems := sems s; mutexes := mutexes s;
  events := events s; mailboxes := mailboxes s; mqueues := f (mqueues s); mempools := mempools s;
  objs := objs s; containers := containers s; queues := queues s; rt_timer_list := rt_timer_list s;
  check_list := check_list s; ready_priority_group := ready_priority_group s; rt_current_thread := rt_current_thread s; rt_current_priority := rt_current_priority s;
  scheduler_lock_nest := scheduler_lock_nest s; interrupt_nest := interrupt_nest s; switch_req := switch_req s; rt_tick := rt_tick s;
  random_nr := random_nr s; kheap := kheap s |}.
Definition set_mempools (f : gmap Z rt_mempool -> gmap Z rt_mempool) (s : kstate) : kstate := {|
  threads := threads s; timers := timers s; sems := sems s; mutexes := mutexes s;
  events := events s; mailboxes := mailboxes s; mqueues := mqueues s; mempools := f (mempools s);
  objs := objs s; containers := containers s; queues := queues s; rt_timer_list := rt_timer_list s;
  check_list := check_list s; ready_priority_group := ready_priority_group s; rt_current_thread := rt_current_thread s; rt_current_priority := rt_current_priority s;
  scheduler_lock_nest := scheduler_lock_nest s; interrupt_nest := interrupt_nest s; switch_req := switch_req s; rt_tick := rt_tick s;
  random_nr := random_nr s; kheap := kheap s |}.
Definition set_objs (f : gmap Z rt_object -> gmap Z rt_object) (s : kstate) : kstate := {|
  threads := threads s; timers := timers s; sems := sems s; mutexes := mutexes s;
  events := events s; mailboxes := mailboxes s; mqueues := mqueues s; mempools := mempools s;
  objs := f (objs s); containers := containers s; queues := queues s; rt_timer_list := rt_timer_list s;
  check_list := check_list s; ready_priority_group := ready_priority_group s; rt_current_thread := rt_current_thread s; rt_current_priority := rt_current_priority s;
  scheduler_lock_nest := scheduler_lock_nest s; interrupt_nest := interrupt_nest s; switch_req := switch_req s; rt_tick := rt_tick s;
  random_nr := random_nr s; kheap := kheap s |}.
Definition set_containers (f : gmap Z (list Z) -> gmap Z (list Z)) (s : kstate) : kstate := {|
  threads := threads s; timers := timers s; sems := sems s; mutexes := mutexes s;
  events := events s; mailboxes := mailboxes s; mqueues := mqueues s; mempools := mempools s;
  objs := objs s; containers := f (containers s); queues := queues s; rt_timer_list := rt_timer_list s;
  check_list := check_list s; ready_priority_group := ready_priority_group s; rt_current_thread := rt_current_thread s; rt_current_priority := rt_current_priority s;
  scheduler_lock_nest := scheduler_lock_nest s; interrupt_nest := interrupt_nest s; switch_req := switch_req s; rt_tick := rt_tick s;
  random_nr := random_nr s; kheap := kheap s |}.
Definition set_queues (f : gmap qhead (list Z) -> gmap qhead (list Z)) (s : kstate) : kstate := {|
  threads := threads s; timers := timers s; sems := sems s; mutexes := mutexes s;
  events := events s; mailboxes := mailboxes s; mqueues := mqueues s; mempools := mempools s;
  objs := objs s; containers := containers s; queues := f (queues s); rt_timer_list := rt_timer_list s;
  check_list := check_list s; ready_priority_group := ready_priority_group s; rt_current_thread := rt_current_thread s; rt_current_priority := rt_current_priority s;
  scheduler_lock_nest := scheduler_lock_nest s; interrupt_nest := interrupt_nest s; switch_req := switch_req s; rt_tick := rt_tick s;
  random_nr := random_nr s; kheap := kheap s |}.
Definition set_rt_timer_list (f : list Z -> list Z) (s : kstate) : kstate := {|
  threads := threads s; timers := timers s; sems := sems s; mutexes := mutexes s;
  events := events s; mailboxes := mailboxes s; mqueues := mqueues s; mempools := mempools s;
  objs := objs s; containers := containers s; queues := queues s; rt_timer_list := f (rt_timer_list s);
  check_list := check_list s; ready_priority_group := ready_priority_group s; rt_current_thread := rt_current_thread s; rt_current_priority := rt_current_priority s;
  scheduler_lock_nest := scheduler_lock_nest s; interrupt_nest := interrupt_nest s; switch_req := switch_req s; rt_tick := rt_tick s;
  random_nr := random_nr s; kheap := kheap s |}.
Definition set_check_list (f : list Z -> list Z) (s : kstate) : kstate := {|
  threads := threads s; timers := timers s; sems := sems s; mutexes := mutexes s;
  events := events s; mailboxes := mailboxes s; mqueues := mqueues s; mempools := mempools s;
  objs := objs s; containers := containers s; queues := queues s; rt_timer_list := rt_timer_list s;
  check_list := f (check_list s); ready_priority_group := ready_priority_group s; rt_current_thread := rt_current_thread s; rt_current_priority := rt_current_priority s;
  scheduler_lock_nest := scheduler_lock_nest s; interrupt_nest := interrupt_nest s; switch_req := switch_req s; rt_tick := rt_tick s;
  random_nr := random_nr s; kheap := kheap s |}.
Definition set_ready_priority_group (f : Z -> Z) (s : kstate) : kstate := {|
  threads := threads s; timers := timers s; sems := sems s; mutexes := mutexes s;
  events := events s; mailboxes := mailboxes s; mqueues := mqueues s; mempools := mempools s;
  objs := objs s; containers := containers s; queues := queues s; rt_timer_list := rt_timer_list s;
  check_list := check_list s; ready_priority_group := f (ready_priority_group s); rt_current_thread := rt_current_thread s; rt_current_priority := rt_current_priority s;
  scheduler_lock_nest := scheduler_lock_nest s; interrupt_nest := interrupt_nest s; switch_req := switch_req s; rt_tick := rt_tick s;
  random_nr := random_nr s; kheap := kheap s |}.
Definition set_rt_current_thread (f : Z -> Z) (s : kstate) : kstate := {|
  threads := threads s; timers := timers s; sems := sems s; mutexes := mutexes s;
  events := events s; mailboxes := mailboxes s; mqueues := mqueues s; mempools := mempools s;
  objs := objs s; containers := containers s; queues := queues s; rt_timer_list := rt_timer_list s;
  check_list := check_list s; ready_priority_group := ready_priority_group s; rt_current_thread := f (rt_current_thread s); rt_current_priority := rt_current_priority s;
  scheduler_lock_nest := scheduler_lock_nest s; interrupt_nest := interrupt_nest s; switch_req := switch_req s; rt_tick := rt_tick s;
  random_nr := random_nr s; kheap := kheap s |}.
Definition set_rt_current_priority (f : Z -> Z) (s : kstate) : kstate := {|
  threads := threads s; timers := timers s; sems := sems s; mutexes := mutexes s;
  events := events s; mailboxes := mailboxes s; mqueues := mqueues s; mempools := mempools s;
  objs := objs s; containers := containers s; queues := queues s; rt_timer_list := rt_timer_list s;
  check_list := check_list s; ready_priority_group := ready_priority_group s; rt_current_thread := rt_current_thread s; rt_current_priority := f (rt_current_priority s);
  scheduler_lock_nest := scheduler_lock_nest s; interrupt_nest := interrupt_nest s; switch_req := switch_req s; rt_tick := rt_tick s;
  random_nr := random_nr s; kheap := kheap s |}.
Definition set_scheduler_lock_nest (f : Z -> Z) (s : kstate) : kstate := {|
  threads := threads s; timers := timers s; sems := sems s; mutexes := mutexes s;
  events := events s; mailboxes := mailboxes s; mqueues := mqueues s; mempools := mempools s;
  objs := objs s; containers := containers s; queues := queues s; rt_timer_list := rt_timer_list s;
  check_list := check_list s; ready_priority_group := ready_priority_group s; rt_current_thread := rt_current_thread s; rt_current_priority := rt_current_priority s;
  scheduler_lock_nest := f (scheduler_lock_nest s); interrupt_nest := interrupt_nest s; switch_req := switch_req s; rt_tick := rt_tick s;
  random_nr := random_nr s; kheap := kheap s |}.
Definition set_interrupt_nest (f : Z -> Z) (s : kstate) : kstate := {|
  threads := threads s; timers := timers s; sems := sems s; mutexes := mutexes s;
  events := events s; mailboxes := mailboxes s; mqueues := mqueues s; mempools := mempools s;
  objs := objs s; containers := containers s; queues := queues s; rt_timer_list := rt_timer_list s;
  check_list := check_list s; ready_priority_group := ready_priority_group s; rt_current_thread := rt_current_thread s; rt_current_priority := rt_current_priority s;
  scheduler_lock_nest := scheduler_lock_nest s; interrupt_nest := f (interrupt_nest s); switch_req := switch_req s; rt_tick := rt_tick s;
  random_nr := random_nr s; kheap := kheap s |}.
Definition set_switch_req (f : switch_request -> switch_request) (s : kstate) : kstate := {|
  threads := threads s; timers := timers s; sems := sems s; mutexes := mutexes s;
  events := events s; mailboxes := mailboxes s; mqueues := mqueues s; mempools := mempools s;
  objs := objs s; containers := containers s; queues := queues s; rt_timer_list := rt_timer_list s;
  check_list := check_list s; ready_priority_group := ready_priority_group s; rt_current_thread := rt_current_thread s; rt_current_priority := rt_current_priority s;
  scheduler_lock_nest := scheduler_lock_nest s; interrupt_nest := interrupt_nest s; switch_req := f (switch_req s); rt_tick := rt_tick s;
  random_nr := random_nr s; kheap := kheap s |}.
Definition set_rt_tick (f : Z -> Z) (s : kstate) : kstate := {|
  threads := threads s; timers := timers s; sems := sems s; mutexes := mutexes s;
  events := events s; mailboxes := mailboxes s; mqueues := mqueues s; mempools := mempools s;
  objs := objs s; containers := containers s; queues := queues s; rt_timer_list := rt_timer_list s;
  check_list := check_list s; ready_priority_group := ready_priority_group s; rt_current_thread := rt_current_thread s; rt_current_priority := rt_current_priority s;
  scheduler_lock_nest := scheduler_lock_nest s; interrupt_nest := interrupt_nest s; switch_req := switch_req s; rt_tick := f (rt_tick s);
  random_nr := random_nr s; kheap := kheap s |}.
Definition set_random_nr (f : Z -> Z) (s : kstate) : kstate := {|
  threads := threads s; timers := timers s; sems := sems s; mutexes := mutexes s;
  events := events s; mailboxes := mailboxes s; mqueues := mqueues s; mempools := mempools s;
  objs := objs s; containers := containers s; queues := queues s; rt_timer_list := rt_timer_list s;
  check_list := check_list s; ready_priority_group := ready_priority_group s; rt_current_thread := rt_current_thread s; rt_current_priority := rt_current_priority s;
  scheduler_lock_nest := scheduler_lock_nest s; interrupt_nest := interrupt_nest s; switch_req := switch_req s; rt_tick := rt_tick s;
  random_nr := f (random_nr s); kheap := kheap s |}.
Definition set_kheap (f : heap -> heap) (s : kstate) : kstate := {|
  threads := threads s; timers := timers s; sems := sems s; mutexes := mutexes s;
  events := events s; mailboxes := mailboxes s; mqueues := mqueues s; mempools := mempools s;
  objs := objs s; containers := containers s; queues := queues s; rt_timer_list := rt_timer_list s;
  check_list := check_list s; ready_priority_group := ready_priority_group s; rt_current_thread := rt_current_thread s; rt_current_priority := rt_current_priority s;
  scheduler_lock_nest := scheduler_lock_nest s; interrupt_nest := interrupt_nest s; switch_req := switch_req s; rt_tick := rt_tick s;
  random_nr := random_nr s; kheap := f (kheap s) |}.

(** equality of states, field by field *)
Lemma kstate_ext s s' :
  threads s = threads s' -> timers s = timers s' -> sems s = sems s' ->
  mutexes s = mutexes s' -> events s = events s' -> mailboxes s = mailboxes s' ->
  mqueues s = mqueues s' -> mempools s = mempools s' -> objs s = objs s' ->
  containers s = containers s' -> queues s = queues s' -> rt_timer_list s = rt_timer_list s' ->
  check_list s = check_list s' -> ready_priority_group s = ready_priority_group s' -> rt_current_thread s = rt_current_thread s' ->
  rt_current_priority s = rt_current_priority s' -> scheduler_lock_nest s = scheduler_lock_nest s' -> interrupt_nest s = interrupt_nest s' ->
  switch_req s = switch_req s' -> rt_tick s = rt_tick s' -> random_nr s = random_nr s' ->
  kheap s = kheap s' -> s = s'.
Proof. destruct s, s'. cbn. intros. by subst. Qed.
Lemma ok_ext {A} (a : A) (s s' : kstate) : s = s' -> Ok (a, s) = Ok (a, s').
Proof. by intros ->. Qed.
Ltac kstate_eq := first [apply ok_ext | idtac]; apply kstate_ext; cbn; try reflexivity.

Abbreviation K := (M kstate).

(** * Field access through pointers *)
Definition get_thread (t : Z) : K rt_thread := let* s := get in the (threads s !! t).
Definition upd_thread (t : Z) (f : rt_thread -> rt_thread) : K unit :=
  let* th := get_thread t in modify (set_threads (<[t := f th]>)).
Definition get_timer (t : Z) : K rt_timer := let* s := get in the (timers s !! t).
Definition upd_timer (t : Z) (f : rt_timer -> rt_timer) : K unit :=
  let* tm := get_timer t in modify (set_timers (<[t := f tm]>)).
Definition get_obj (o : Z) : K rt_object := let* s := get in the (objs s !! o).
Definition upd_obj (o : Z) (f : rt_object -> rt_object) : K unit :=
  let* ob := get_obj o in modify (set_objs (<[o := f ob]>)).

Definition th_set_stat v th := {| sp := sp th; entry := entry th; t_parameter := t_parameter th;
  stack_addr := stack_addr th; stack_size := stack_size th; error := error th; stat := v;
  current_priority := current_priority th; init_priority := init_priority th;
  number_mask := number_mask th; event_set := event_set th; event_info := event_info th;
  t_init_tick := t_init_tick th; remaining_tick := remaining_tick th;
  cleanup := cleanup th; user_data := user_data th |}.
Definition th_set_error v th := {| sp := sp th; entry := entry th; t_parameter := t_parameter th;
  stack_addr := stack_addr th; stack_size := stack_size th; error := v; stat := stat th;
  current_priority := current_priority th; init_priority := init_priority th;
  number_mask := number_mask th; event_set := event_set th; event_info := event_info th;
  t_init_tick := t_init_tick th; remaining_tick := remaining_tick th;
  cleanup := cleanup th; user_data := user_data th |}.
Definition th_set_priority p m th := {| sp := sp th; entry := entry th; t_parameter := t_parameter th;
  stack_addr := stack_addr th; stack_size := stack_size th; error := error th; stat := stat th;
  current_priority := p; init_priority := init_priority th;
  number_mask := m; event_set := event_set th; event_info := event_info th;
  t_init_tick := t_init_tick th; remaining_tick := remaining_tick th;
  cleanup := cleanup th; user_data := user_data th |}.
Definition th_set_event e i th := {| sp := sp th; entry := entry th; t_parameter := t_parameter th;
  stack_addr := stack_addr th; stack_size := stack_size th; error := error th; stat := stat th;
  current_priority := current_priority th; init_priority := init_priority th;
  number_mask := number_mask th; event_set := e; event_info := i;
  t_init_tick := t_init_tick th; remaining_tick := remaining_tick th;
  cleanup := cleanup th; user_data := user_data th |}.
Definition th_set_remaining v th := {| sp := sp th; entry := entry th; t_parameter := t_parameter th;
  stack_addr := stack_addr th; stack_size := stack_size th; error := error th; stat := stat th;
  current_priority := current_priority th; init_priority := init_priority th;
  number_mask := number_mask th; event_set := event_set th; event_info := event_info th;
  t_init_tick := t_init_tick th; remaining_tick := v;
  cleanup := cleanup th; user_data := user_data th |}.

Definition tm_set_init v tm := {| timeout_func := timeout_func tm; parameter := parameter tm;
  tm_init_tick := v; timeout_tick := timeout_tick tm |}.
Definition tm_set_timeout v tm := {| timeout_func := timeout_func tm;
  parameter := parameter tm; tm_init_tick := tm_init_tick tm; timeout_tick := v |}.
Definition ob_set_type v ob := {| o_name := o_name ob; o_type := v; o_flag := o_flag ob |}.
Definition ob_set_flag v ob := {| o_name := o_name ob; o_type := o_type ob; o_flag := v |}.

(** * The abstract list operations (implemented by RtList) *)
Definition queue (s : kstate) (h : qhead) : list Z := default [] (queues s !! h).

(** some list holds the node of thread [t] *)
Definition tlinked (t : Z) (s : kstate) : bool :=
  bool_decide (map_Exists (fun _ l => t ∈ l) (queues s)).

(** rt_list_init on a list head *)
Definition queue_init (h : qhead) : K unit := modify (set_queues (<[h := []]>)).
(** rt_list_insert_before (head) *)
Definition queue_insert_tail (h : qhead) (t : Z) : K unit :=
  let* s := get in
  if tlinked t s then raise ListCorrupt
  else modify (set_queues (<[h := queue s h ++ [t]]>)).
(** rt_list_insert_after (head) *)
Definition queue_insert_head (h : qhead) (t : Z) : K unit :=
  let* s := get in
  if tlinked t s then raise ListCorrupt
  else modify (set_queues (<[h := t :: queue s h]>)).
(** rt_list_insert_before (&y->tlist, &t->tlist) with [y] on the list [h] *)
Definition queue_insert_before (h : qhead) (y t : Z) : K unit :=
  let* s := get in
  if tlinked t s then raise ListCorrupt
  else modify (set_queues (<[h := insert_before y t (queue s h)]>)).
(** rt_list_remove (&t->tlist) *)
Definition tlist_remove (t : Z) : K unit :=
  modify (set_queues (fun qs => lremove t <$> qs)).
(** rt_list_init (&t->tlist) *)
Definition tlist_init (t : Z) : K unit :=
  let* s := get in if tlinked t s then raise ListCorrupt else ret tt.
(** t->tlist.next != t->tlist.prev: the ring of [t] has at least three nodes
    ([ring_next_prev] of RtList) *)
Definition tlist_next_ne_prev (t : Z) (s : kstate) : bool :=
  bool_decide (map_Exists (fun _ l => t ∈ l /\ (2 <= length l)%nat) (queues s)).

#[export] Hint Unfold get_thread upd_thread get_timer upd_timer get_obj upd_obj
  queue_init queue_insert_tail queue_insert_head queue_insert_before tlist_remove
  tlist_init : minv.

(** * Interrupt nesting (irq.c) and the context checks of rtdebug.h *)
Definition rt_interrupt_enter : K unit := modify (set_interrupt_nest (fun n => u8 (n + 1))).
Definition rt_interrupt_leave : K unit := modify (set_interrupt_nest (fun n => u8 (n - 1))).
Definition rt_interrupt_get_nest : K Z := gets interrupt_nest.
Definition RT_DEBUG_NOT_IN_INTERRUPT : K unit :=
  let* n := rt_interrupt_get_nest in rt_assert (n =? 0).
Definition RT_DEBUG_IN_THREAD_CONTEXT : K unit :=
  let* c := gets rt_current_thread in rt_assert (negb (c =? RT_NULL));;
  RT_DEBUG_NOT_IN_INTERRUPT.

(** * cpuport.c: the switch request of an interrupt handler *)

(** &thread->sp *)
Definition THREAD_SP_OFFSET : Z := 28.
Definition thread_sp (thread : Z) : Z := thread + THREAD_SP_OFFSET.

Definition rt_hw_context_switch_interrupt (from to : Z) : K unit :=
  modify (set_switch_req (fun w => {|
    rt_interrupt_from_thread :=
      if rt_thread_switch_interrupt_flag w =? 0 then from else rt_interrupt_from_thread w;
    rt_interrupt_to_thread := to;
    rt_thread_switch_interrupt_flag := 1 |})).

(** * The heap inside the kernel *)
Definition on_heap {A} (m : M heap A) : K A := fun s =>
  match m (kheap s) with
  | Ok (a, h) => Ok (a, set_kheap (fun _ => h) s)
  | Fault f => Fault f
  end.

(** What the linked image supplies: the application code reached through
    function pointers (timer callbacks and thread cleanup hooks, given by
    their addresses), and the addresses of the functions and static objects
    of the kernel that it stores as data. *)
Class UserCode := {
  addr_rt_thread_exit : Z;
  addr_main_thread_entry : Z;
  addr_rt_thread_idle_entry : Z;
  addr_idle : Z;
  addr_rt_thread_stack : Z;
  user_timeout : Z -> Z -> K unit;
  user_cleanup : Z -> Z -> K unit;
}.
