(* ===== verification/Sched.v ===== *)
(** The scheduler, rt-thread/kernel/src/scheduler.c (RT_THREAD_PRIORITY_MAX =
    32): the ready table with one FIFO list per priority, the ready-priority
    bitmap, the scheduler lock and [rt_schedule]; the well-formedness
    invariant [sched_ok] that ties table, bitmap and thread records together
    and the proof that every scheduler operation keeps it. *)
From S2P Require Import Prelude KService Mem Kernel.

(** * Definitions *)

(** rt_list_init of the 32 heads of rt_thread_priority_table *)
Definition init_ready_table (qs : gmap qhead (list Z)) : gmap qhead (list Z) :=
  foldr (fun p => <[QReady (Z.of_nat p) := []]>) qs (seq 0 32).

Definition rt_system_scheduler_init : K unit :=
  modify (set_scheduler_lock_nest (fun _ => 0));;
  modify (set_queues init_ready_table);;
  modify (set_rt_current_priority (fun _ => RT_THREAD_PRIORITY_MAX - 1));;
  modify (set_rt_current_thread (fun _ => RT_NULL));;
  modify (set_ready_priority_group (fun _ => 0));;
  queue_init QDefunct.

(** rt_thread_priority_table[__rt_ffs(group) - 1].next as a thread.  With an
    empty bitmap the index is out of range, and with an empty list the entry
    is not a thread. *)
Definition highest_ready (s : kstate) : option (Z * Z) :=
  let p := __rt_ffs (ready_priority_group s) - 1 in
  if (0 <=? p) && (p <? RT_THREAD_PRIORITY_MAX)
  then (fun t => (p, t)) <$> head (queue s (QReady p))
  else None.

Definition rt_system_scheduler_start : K unit :=
  let* s := get in
  let* pt := the (highest_ready s) in
  modify (set_rt_current_thread (fun _ => pt.2)).

Definition rt_schedule : K unit :=
  let* s := get in
  if scheduler_lock_nest s =? 0 then
    let* pt := the (highest_ready s) in
    if negb (pt.2 =? rt_current_thread s) then
      modify (set_rt_current_priority (fun _ => u8 pt.1));;
      modify (set_rt_current_thread (fun _ => pt.2));;
      let* nest := rt_interrupt_get_nest in
      if nest =? 0 then ret tt (* rt_hw_context_switch: the new current thread runs *)
      else rt_hw_context_switch_interrupt (thread_sp (rt_current_thread s)) (thread_sp pt.2)
    else ret tt
  else ret tt.

Definition with_stat (st stat0 : Z) : Z :=
  Z.lor st (Z.land stat0 (Z.lnot RT_THREAD_STAT_MASK)).

Definition rt_schedule_insert_thread (thread : Z) : K unit :=
  rt_assert (negb (thread =? RT_NULL));;
  upd_thread thread (fun th => th_set_stat (with_stat RT_THREAD_READY (stat th)) th);;
  let* th := get_thread thread in
  (if current_priority th <? RT_THREAD_PRIORITY_MAX
   then queue_insert_tail (QReady (current_priority th)) thread
   else raise BadPointer);;
  modify (set_ready_priority_group (fun g => Z.lor g (number_mask th))).

Definition rt_schedule_remove_thread (thread : Z) : K unit :=
  rt_assert (negb (thread =? RT_NULL));;
  tlist_remove thread;;
  let* th := get_thread thread in
  let* s := get in
  when (bool_decide (queue s (QReady (current_priority th)) = []))
    (modify (set_ready_priority_group (fun g => Z.land g (Z.lnot (number_mask th))))).

(** scheduler_lock_nest is an rt_int16_t *)
Definition rt_enter_critical : K unit :=
  modify (set_scheduler_lock_nest (fun n => s16 (n + 1))).

Definition rt_exit_critical : K unit :=
  modify (set_scheduler_lock_nest (fun n => s16 (n - 1)));;
  let* n := gets scheduler_lock_nest in
  if n <=? 0 then
    modify (set_scheduler_lock_nest (fun _ => 0));;
    let* c := gets rt_current_thread in
    when (negb (c =? RT_NULL)) rt_schedule
  else ret tt.

Definition rt_critical_level : K Z :=
  let* n := gets scheduler_lock_nest in ret (u16 n).

(** * The invariant *)
Definition stat_of (th : rt_thread) : Z := Z.land (stat th) RT_THREAD_STAT_MASK.

(** the [stat] a thread on the list [h] must have *)
Definition head_stat (h : qhead) : Z :=
  match h with
  | QReady _ => RT_THREAD_READY
  | QDefunct => RT_THREAD_CLOSE
  | QSuspend _ | QSender _ => RT_THREAD_SUSPEND
  end.

Definition q (qs : gmap qhead (list Z)) (h : qhead) : list Z := default [] (qs !! h).

(** a thread's bit in the bitmap: that of its priority, or still 0 when it was
    never started *)
Definition mask_ok (th : rt_thread) : Prop :=
  number_mask th = Z.shiftl 1 (current_priority th) \/
  (stat_of th <> RT_THREAD_READY /\ stat_of th <> RT_THREAD_SUSPEND /\ number_mask th = 0).

Record sched_inv (ths : gmap Z rt_thread) (qs : gmap qhead (list Z)) (g : Z) : Prop := {
  (** every list is duplicate-free and no thread is on two lists *)
  si_nodup : forall h, NoDup (q qs h);
  si_uniq : forall h1 h2 t, t ∈ q qs h1 -> t ∈ q qs h2 -> h1 = h2;
  (** a thread on a list exists and has the list's status *)
  si_stat : forall h t, t ∈ q qs h ->
    exists th, ths !! t = Some th /\ stat_of th = head_stat h;
  (** on the ready table it is at its own priority *)
  si_prio : forall p t, t ∈ q qs (QReady p) ->
    exists th, ths !! t = Some th /\ current_priority th = p;
  (** every READY thread is on the ready table *)
  si_ready : forall t th, ths !! t = Some th -> stat_of th = RT_THREAD_READY ->
    t ∈ q qs (QReady (current_priority th));
  (** priorities are in range and masks are those of the priorities *)
  si_range : forall t th, ths !! t = Some th ->
    t <> RT_NULL /\ 0 <= current_priority th < 32 /\ 0 <= init_priority th < 32;
  si_mask : forall t th, ths !! t = Some th -> mask_ok th;
  (** the bitmap marks exactly the non-empty lists *)
  si_group : 0 <= g < 4294967296 /\
    forall p, 0 <= p < 32 -> Z.testbit g p = true <-> q qs (QReady p) <> [];
}.

Definition sched_ok (s : kstate) : Prop :=
  sched_inv (threads s) (queues s) (ready_priority_group s).

(** * Updates of the table, the lists and the bitmap *)
Lemma q_insert qs h l h' : q (<[h := l]> qs) h' = if decide (h = h') then l else q qs h'.
Proof. unfold q. rewrite lookup_insert. by case_decide. Qed.
Lemma q_lremove t qs h : q (lremove t <$> qs) h = lremove t (q qs h).
Proof. unfold q. rewrite lookup_fmap. by destruct (qs !! h). Qed.

Lemma tlinked_false t s : tlinked t s = false -> forall h, t ∉ q (queues s) h.
Proof.
  intros Hl h Hin. apply bool_decide_eq_false in Hl. apply Hl. unfold q in Hin.
  destruct (queues s !! h) as [l|] eqn:E; cbn in Hin; [|by apply elem_of_nil in Hin].
  by exists h, l.
Qed.

(** the fields of a thread record that the invariant speaks about *)
Definition same_sched (th th' : rt_thread) : Prop :=
  stat_of th' = stat_of th /\ current_priority th' = current_priority th /\
  init_priority th' = init_priority th /\ number_mask th' = number_mask th.

(** admissible values of those fields *)
Definition thread_ok (th : rt_thread) : Prop :=
  0 <= current_priority th < 32 /\ 0 <= init_priority th < 32 /\ mask_ok th.

Section sched_inv.
Context (ths : gmap Z rt_thread) (qs : gmap qhead (list Z)) (g : Z).
Hypothesis Hinv : sched_inv ths qs g.

Lemma si_thread_ok t th : ths !! t = Some th -> thread_ok th.
Proof.
  intros Ht. destruct (si_range _ _ _ Hinv _ _ Ht) as (_ & ? & ?).
  pose proof (si_mask _ _ _ Hinv _ _ Ht). done.
Qed.
Lemma si_nonnull t th : ths !! t = Some th -> t <> RT_NULL.
Proof. intros Ht. by destruct (si_range _ _ _ Hinv _ _ Ht). Qed.

Lemma sched_inv_upd t th th' :
  ths !! t = Some th -> same_sched th th' -> sched_inv (<[t := th']> ths) qs g.
Proof.
  intros Ht (E1 & E2 & E3 & E4). destruct Hinv as [H1 H2 H3 H4 H5 H6 H7 H8].
  split; auto.
  - intros h u Hu. rewrite lookup_insert. case_decide; [subst|by apply H3].
    destruct (H3 _ _ Hu) as (? & ? & ?). simplify_eq. exists th'. by rewrite E1.
  - intros p u Hu. rewrite lookup_insert. case_decide; [subst|by apply H4].
    destruct (H4 _ _ Hu) as (? & ? & ?). simplify_eq. exists th'. by rewrite E2.
  - intros u uh. rewrite lookup_insert. case_decide; [|by apply H5]. intros [= <-].
    rewrite E1, E2. subst. by apply H5.
  - intros u uh. rewrite lookup_insert. case_decide; [|by apply H6]. intros [= <-].
    rewrite E2, E3. subst. by apply H6.
  - intros u uh. rewrite lookup_insert. case_decide; [|by apply H7]. intros [= <-].
    unfold mask_ok. rewrite E1, E2, E4. subst. by apply (H7 u).
Qed.

(** a thread on no list may get any status but READY *)
Lemma sched_inv_upd_free t th' :
  t <> RT_NULL -> (forall h, t ∉ q qs h) -> stat_of th' <> RT_THREAD_READY ->
  thread_ok th' -> sched_inv (<[t := th']> ths) qs g.
Proof.
  intros Hnn Hfree Hst (Hr1 & Hr2 & Hm). destruct Hinv as [H1 H2 H3 H4 H5 H6 H7 H8].
  split; auto.
  - intros h u Hu. rewrite lookup_insert_ne by (intros ->; by eapply Hfree). by apply H3.
  - intros p u Hu. rewrite lookup_insert_ne by (intros ->; by eapply Hfree). by apply H4.
  - intros u uh. rewrite lookup_insert. case_decide; [|by apply H5]. by intros [= <-].
  - intros u uh. rewrite lookup_insert. case_decide; [|by apply H6]. subst.
    by intros [= <-].
  - intros u uh. rewrite lookup_insert. case_decide; [|by apply H7]. by intros [= <-].
Qed.

Lemma lor_bit p k : 0 <= p -> 0 <= k ->
  Z.testbit (Z.lor g (Z.shiftl 1 k)) p = true <-> Z.testbit g p = true \/ p = k.
Proof.
  intros Hp Hk. rewrite Z.lor_spec, Z.shiftl_1_l, Z.pow2_bits_eqb by done.
  rewrite orb_true_iff, Z.eqb_eq. naive_solver.
Qed.
Lemma land_bit p k : 0 <= p -> 0 <= k ->
  Z.testbit (Z.land g (Z.lnot (Z.shiftl 1 k))) p = true <->
  Z.testbit g p = true /\ p <> k.
Proof.
  intros Hp Hk. rewrite Z.land_spec, Z.lnot_spec, Z.shiftl_1_l, Z.pow2_bits_eqb by done.
  rewrite andb_true_iff, negb_true_iff, Z.eqb_neq. naive_solver.
Qed.

(** rt_schedule_insert_thread on a thread that is on no list *)
Lemma sched_inv_insert t th' :
  t <> RT_NULL -> (forall h, t ∉ q qs h) -> stat_of th' = RT_THREAD_READY ->
  thread_ok th' ->
  let p := current_priority th' in
  sched_inv (<[t := th']> ths) (<[QReady p := q qs (QReady p) ++ [t]]> qs)
    (Z.lor g (number_mask th')).
Proof.
  intros Hnn Hfree Hst (Hr1 & Hr2 & Hm) p.
  destruct Hm as [Hm|[Hm _]]; [|by destruct Hm].
  destruct Hinv as [H1 H2 H3 H4 H5 H6 H7 [H8 H9]].
  assert (Hin : forall h u, u ∈ q (<[QReady p := q qs (QReady p) ++ [t]]> qs) h <->
    u ∈ q qs h \/ (h = QReady p /\ u = t)).
  { intros h u. rewrite q_insert. case_decide; [subst; set_solver|naive_solver]. }
  split.
  - intros h. rewrite q_insert. case_decide; [|done].
    apply NoDup_app. split_and!; [done|set_solver|apply NoDup_singleton].
  - intros h1 h2 u. rewrite !Hin. naive_solver.
  - intros h u. rewrite Hin, lookup_insert. case_decide; [subst|naive_solver].
    intros [Hu|[-> _]]; [by apply Hfree in Hu|]. by exists th'.
  - intros p' u. rewrite Hin, lookup_insert. case_decide; [subst|naive_solver].
    intros [Hu|[[= ->] _]]; [by apply Hfree in Hu|]. by exists th'.
  - intros u uh. rewrite Hin, lookup_insert. case_decide; [|naive_solver].
    intros [= <-] _. by right.
  - intros u uh. rewrite lookup_insert. case_decide; [|by apply H6]. subst.
    by intros [= <-].
  - intros u uh. rewrite lookup_insert. case_decide; [|by apply H7].
    intros [= <-]. by left.
  - rewrite Hm. split.
    + assert (0 <= Z.lor g (Z.shiftl 1 p)).
      { apply Z.lor_nonneg. split; [lia|]. apply Z.shiftl_nonneg. lia. }
      split; [done|]. apply (bits_lt 32); [lia|done|]. intros i Hi.
      apply not_true_iff_false. rewrite lor_bit by lia.
      rewrite (lt_bits 32 g i H8 Hi). lia.
    + intros p' Hp'. rewrite lor_bit, q_insert by lia.
      case_decide as Hd; [simplify_eq; split; [by destruct (q qs _)|by right]|].
      rewrite H9 by done. naive_solver.
Qed.

(** rt_schedule_remove_thread, followed by a change to a status that is not
    READY *)
Lemma sched_inv_remove t th th' :
  ths !! t = Some th -> stat_of th' <> RT_THREAD_READY -> thread_ok th' ->
  let qs' := lremove t <$> qs in
  sched_inv (<[t := th']> ths) qs'
    (if bool_decide (q qs' (QReady (current_priority th)) = [])
     then Z.land g (Z.lnot (number_mask th)) else g).
Proof.
  intros Ht Hst Hok qs'. destruct (si_thread_ok _ _ Ht) as (Hcp & _ & Hmask).
  pose proof (si_nonnull _ _ Ht) as Hnn.
  destruct Hok as (Hr1 & Hr2 & Hm). destruct Hinv as [H1 H2 H3 H4 H5 H6 H7 [H8 H9]].
  assert (Hin : forall h u, u ∈ q qs' h <-> u ∈ q qs h /\ u <> t).
  { intros h u. unfold qs'. by rewrite q_lremove, elem_of_lremove. }
  split.
  - intros h. unfold qs'. rewrite q_lremove. by apply NoDup_lremove.
  - intros h1 h2 u [? _]%Hin [? _]%Hin. eauto.
  - intros h u [Hu Hne]%Hin. rewrite lookup_insert_ne by done. by apply H3.
  - intros h u [Hu Hne]%Hin. rewrite lookup_insert_ne by done. by apply H4.
  - intros u uh. rewrite lookup_insert. case_decide; [by intros [= <-]|].
    intros Hu Hs. apply Hin. split; [by apply H5|done].
  - intros u uh. rewrite lookup_insert. case_decide; [|by apply H6]. subst.
    by intros [= <-].
  - intros u uh. rewrite lookup_insert. case_decide; [|by apply H7]. by intros [= <-].
  - assert (Hother : forall p, p <> current_priority th ->
      q qs' (QReady p) = q qs (QReady p)).
    { intros p Hp. unfold qs'. rewrite q_lremove. apply lremove_not_elem. intros Hu.
      destruct (H4 _ _ Hu) as (? & ? & ?). congruence. }
    assert (Hsub : forall i, 0 <= i -> Z.testbit g i = false ->
      Z.testbit (Z.land g (Z.lnot (number_mask th))) i = false).
    { intros i Hi E. by rewrite Z.land_spec, E. }
    split.
    + case_bool_decide; [|done].
      assert (0 <= Z.land g (Z.lnot (number_mask th))) by (apply Z.land_nonneg; lia).
      split; [done|]. apply (bits_lt 32); [lia|done|]. intros i Hi.
      apply Hsub; [lia|]. exact (lt_bits 32 g i H8 Hi).
    + intros p Hp. destruct (decide (p = current_priority th)) as [->|Hne].
      * case_bool_decide as Hemp.
        -- split; [|done]. intros Hb. exfalso. destruct Hmask as [Hmask|(Hi & _ & Hmask)].
           ++ rewrite Hmask, land_bit in Hb by lia. naive_solver.
           ++ rewrite Hmask, Z.lnot_0, Z.land_m1_r, H9 in Hb by lia. apply Hb.
              rewrite <- Hemp. unfold qs'. rewrite q_lremove, lremove_not_elem; [done|].
              intros Hu. destruct (H3 _ _ Hu) as (? & ? & Hs). by simplify_eq.
        -- split; [done|]. intros _. rewrite H9 by done. intros E. apply Hemp.
           unfold qs'. by rewrite q_lremove, E.
      * rewrite (Hother p Hne), <- (H9 p Hp). case_bool_decide; [|done].
        destruct Hmask as [Hmask|(_ & _ & Hmask)]; rewrite Hmask;
          [rewrite land_bit by lia; naive_solver|].
        by rewrite Z.lnot_0, Z.land_m1_r.
Qed.

(** a suspended or closed thread that is on no list is put on one *)
Lemma sched_inv_enqueue h t l th :
  ths !! t = Some th -> (forall h, t ∉ q qs h) -> stat_of th = head_stat h ->
  head_stat h <> RT_THREAD_READY -> l ≡ₚ t :: q qs h ->
  sched_inv ths (<[h := l]> qs) g.
Proof.
  intros Ht Hfree Hst Hnr Hl. destruct Hinv as [H1 H2 H3 H4 H5 H6 H7 [H8 H9]].
  assert (Hin : forall h' u, u ∈ q (<[h := l]> qs) h' <->
    u ∈ q qs h' \/ (h' = h /\ u = t)).
  { intros h' u. rewrite q_insert. case_decide; [subst; rewrite Hl; set_solver|naive_solver]. }
  assert (Hready : forall p, q (<[h := l]> qs) (QReady p) = q qs (QReady p)).
  { intros p. rewrite q_insert. case_decide; [by subst|done]. }
  split.
  - intros h'. rewrite q_insert. case_decide; [|done]. rewrite Hl.
    apply NoDup_cons. split; [by subst|done].
  - intros h1 h2 u. rewrite !Hin. naive_solver.
  - intros h' u. rewrite Hin. intros [Hu|[-> ->]]; [by apply H3|]. by exists th.
  - intros p u. rewrite Hready. by apply H4.
  - intros u uh. rewrite Hready. by apply H5.
  - done.
  - done.
  - split; [done|]. intros p. rewrite Hready. by apply H9.
Qed.

(** re-initialising a list head other than those of the ready table *)
Lemma sched_inv_clear h :
  head_stat h <> RT_THREAD_READY -> sched_inv ths (<[h := []]> qs) g.
Proof.
  intros Hnr. destruct Hinv as [H1 H2 H3 H4 H5 H6 H7 [H8 H9]].
  assert (Hin : forall h' u, u ∈ q (<[h := []]> qs) h' -> u ∈ q qs h').
  { intros h' u. rewrite q_insert. case_decide; [set_solver|done]. }
  assert (Hready : forall p, q (<[h := []]> qs) (QReady p) = q qs (QReady p)).
  { intros p. rewrite q_insert. case_decide; [by subst|done]. }
  split; try done.
  - intros h'. rewrite q_insert. case_decide; [apply NoDup_nil_2|done].
  - intros h1 h2 u ?%Hin ?%Hin. eauto.
  - intros h' u ?%Hin. by apply H3.
  - intros p u. rewrite Hready. by apply H4.
  - intros u uh. rewrite Hready. by apply H5.
  - split; [done|]. intros p. rewrite Hready. by apply H9.
Qed.

(** a thread that is not READY leaves its list *)
Lemma sched_inv_unlink t th :
  ths !! t = Some th -> stat_of th <> RT_THREAD_READY ->
  sched_inv ths (lremove t <$> qs) g.
Proof.
  intros Ht Hst. destruct Hinv as [H1 H2 H3 H4 H5 H6 H7 [H8 H9]].
  assert (Hin : forall h u, u ∈ q (lremove t <$> qs) h -> u ∈ q qs h).
  { intros h u. rewrite q_lremove, elem_of_lremove. by intros []. }
  assert (Hready : forall p, q (lremove t <$> qs) (QReady p) = q qs (QReady p)).
  { intros p. rewrite q_lremove. apply lremove_not_elem. intros Hu.
    destruct (H3 _ _ Hu) as (? & ? & E). by simplify_eq. }
  split; try done.
  - intros h. rewrite q_lremove. by apply NoDup_lremove.
  - intros h1 h2 u ?%Hin ?%Hin. eauto.
  - intros h u ?%Hin. by apply H3.
  - intros p u. rewrite Hready. by apply H4.
  - intros u uh. rewrite Hready. by apply H5.
  - split; [done|]. intros p. rewrite Hready. by apply H9.
Qed.

(** a thread that is not READY keeps its status and gets other priorities *)
Lemma sched_inv_upd_prio t th th' :
  ths !! t = Some th -> stat_of th <> RT_THREAD_READY -> stat_of th' = stat_of th ->
  thread_ok th' -> sched_inv (<[t := th']> ths) qs g.
Proof.
  intros Ht Hst E (Hr1 & Hr2 & Hm). destruct Hinv as [H1 H2 H3 H4 H5 H6 H7 H8].
  split; auto.
  - intros h u Hu. rewrite lookup_insert. case_decide; [subst|by apply H3].
    destruct (H3 _ _ Hu) as (? & ? & ?). simplify_eq. exists th'. by rewrite E.
  - intros p u Hu. rewrite lookup_insert. case_decide; [subst|by apply H4].
    destruct (H3 _ _ Hu) as (? & ? & Hs). by simplify_eq.
  - intros u uh. rewrite lookup_insert. case_decide; [|by apply H5]. intros [= <-].
    by rewrite E.
  - intros u uh. rewrite lookup_insert. case_decide; [|by apply H6]. intros [= <-].
    subst. by destruct (H6 _ _ Ht).
  - intros u uh. rewrite lookup_insert. case_decide; [|by apply H7]. by intros [= <-].
Qed.

(** the order within the lists does not matter *)
Lemma sched_inv_perm qs' :
  (forall h, q qs' h ≡ₚ q qs h) -> sched_inv ths qs' g.
Proof.
  intros Hp. destruct Hinv as [H1 H2 H3 H4 H5 H6 H7 [H8 H9]].
  split; try done.
  - intros h. by rewrite Hp.
  - intros h1 h2 t. rewrite !Hp. apply H2.
  - intros h t. rewrite Hp. apply H3.
  - intros p t. rewrite Hp. apply H4.
  - intros t th. rewrite Hp. apply H5.
  - split; [done|]. intros p Hr. rewrite (H9 p Hr).
    specialize (Hp (QReady p)). split; intros Hne E; apply Hne; rewrite E in Hp.
    + symmetry in Hp. by apply Permutation_nil_r in Hp.
    + by apply Permutation_nil_r in Hp.
Qed.

(** a thread that waits for nothing is on no list *)
Lemma si_free t th h :
  ths !! t = Some th -> stat_of th = RT_THREAD_INIT -> t ∉ q qs h.
Proof.
  intros Ht Hst Hu. destruct (si_stat _ _ _ Hinv _ _ Hu) as (? & ? & E). simplify_eq.
  rewrite Hst in E. by destruct h.
Qed.

(** adding a thread record at an address that carries none *)
Lemma sched_inv_new t th :
  ths !! t = None -> t <> RT_NULL -> stat_of th <> RT_THREAD_READY -> thread_ok th ->
  sched_inv (<[t := th]> ths) qs g.
Proof.
  intros Ht Hnn Hst Hok. apply sched_inv_upd_free; [done| |done..].
  intros h Hu. destruct (si_stat _ _ _ Hinv _ _ Hu) as (? & ? & _). congruence.
Qed.
End sched_inv.

(** * The operations *)
Lemma stat_of_with_stat st th :
  0 <= st < 16 -> stat_of (th_set_stat (with_stat st (stat th)) th) = st.
Proof.
  intros Hst. unfold stat_of, with_stat, RT_THREAD_STAT_MASK. cbn [stat th_set_stat].
  rewrite Z.land_lor_distr_l, <- Z.land_assoc, (Z.land_comm (Z.lnot 15)), Z.land_lnot_diag,
    Z.land_0_r, Z.lor_0_r.
  change 15 with (Z.ones 4). rewrite Z.land_ones by lia. by apply Z.mod_small.
Qed.
Lemma stat_of_set_stat v th : stat_of (th_set_stat v th) = Z.land v RT_THREAD_STAT_MASK.
Proof. done. Qed.

(** the effects of the two table operations on the state *)
Definition ready_thread (th : rt_thread) : rt_thread :=
  th_set_stat (with_stat RT_THREAD_READY (stat th)) th.
Lemma ready_thread_stat th : stat_of (ready_thread th) = RT_THREAD_READY.
Proof. by apply stat_of_with_stat. Qed.
Definition do_insert (t : Z) (th : rt_thread) (s : kstate) : kstate :=
  set_ready_priority_group (fun g => Z.lor g (number_mask th))
    (set_queues (<[QReady (current_priority th) :=
        queue s (QReady (current_priority th)) ++ [t]]>)
      (set_threads (<[t := ready_thread th]>) s)).
Definition do_remove (t : Z) (th : rt_thread) (s : kstate) : kstate :=
  let s1 := set_queues (fun qs => lremove t <$> qs) s in
  if bool_decide (queue s1 (QReady (current_priority th)) = [])
  then set_ready_priority_group (fun g => Z.land g (Z.lnot (number_mask th))) s1
  else s1.

Lemma upd_thread_run t f th s :
  threads s !! t = Some th -> upd_thread t f s = Ok (tt, set_threads (<[t := f th]>) s).
Proof. intros Ht. unfold upd_thread, get_thread, bind, get. by rewrite Ht. Qed.
Lemma get_thread_run t s th : threads s !! t = Some th -> get_thread t s = Ok (th, s).
Proof. intros Ht. unfold get_thread, bind, get. by rewrite Ht. Qed.

Lemma rt_schedule_insert_thread_inv t s r s' :
  rt_schedule_insert_thread t s = Ok (r, s') ->
  exists th, threads s !! t = Some th /\ t <> RT_NULL /\ current_priority th < 32 /\
    tlinked t s = false /\ s' = do_insert t th s.
Proof.
  intros Hm. unfold rt_schedule_insert_thread in Hm. minv Hm.
  cbn in *. rewrite lookup_insert_eq in *. simplify_eq. eexists. split; [done|].
  apply negb_true_iff, Z.eqb_neq in Hassert. apply Z.ltb_lt in Hif. done.
Qed.

Lemma rt_schedule_insert_thread_run t th s :
  threads s !! t = Some th -> t <> RT_NULL -> current_priority th < 32 ->
  tlinked t s = false ->
  rt_schedule_insert_thread t s = Ok (tt, do_insert t th s).
Proof.
  intros Ht Hnn Hp Hl. unfold rt_schedule_insert_thread.
  erewrite bind_run; [cbv beta|by rewrite (proj2 (negb_true_iff _)); [|by apply Z.eqb_neq]].
  erewrite bind_run; [cbv beta|by apply upd_thread_run].
  erewrite bind_run; [cbv beta|apply get_thread_run; apply lookup_insert_eq].
  cbn [current_priority th_set_stat].
  rewrite (proj2 (Z.ltb_lt _ _)) by done.
  unfold queue_insert_tail. unfold bind at 1. unfold bind at 1, get. cbn.
  change (tlinked t (set_threads _ s)) with (tlinked t s). by rewrite Hl.
Qed.

Lemma rt_schedule_remove_thread_inv t s r s' :
  rt_schedule_remove_thread t s = Ok (r, s') ->
  exists th, threads s !! t = Some th /\ t <> RT_NULL /\ s' = do_remove t th s.
Proof.
  intros Hm. unfold rt_schedule_remove_thread in Hm. minv Hm; cbn in *;
    apply negb_true_iff, Z.eqb_neq in Hassert; eexists; (split_and!; [done..|]);
    unfold do_remove; cbn; by rewrite Hwhen.
Qed.

Lemma threads_do_remove t th s : threads (do_remove t th s) = threads s.
Proof. unfold do_remove. cbv zeta. by case_bool_decide. Qed.
Lemma remove_thread_at t th s r s' :
  threads s !! t = Some th -> rt_schedule_remove_thread t s = Ok (r, s') ->
  s' = do_remove t th s.
Proof. intros Ht (th' & Ht' & _ & ->)%rt_schedule_remove_thread_inv. by simplify_eq. Qed.

Lemma rt_schedule_remove_thread_run t th s :
  threads s !! t = Some th -> t <> RT_NULL ->
  rt_schedule_remove_thread t s = Ok (tt, do_remove t th s).
Proof.
  intros Ht Hnn. unfold rt_schedule_remove_thread.
  erewrite bind_run; [cbv beta|by rewrite (proj2 (negb_true_iff _)); [|by apply Z.eqb_neq]].
  erewrite bind_run; [cbv beta|reflexivity].
  erewrite bind_run; [cbv beta|by apply get_thread_run].
  erewrite bind_run; [cbv beta|reflexivity].
  unfold do_remove, when. by case_bool_decide.
Qed.

Definition started (th : rt_thread) : Prop :=
  number_mask th = Z.shiftl 1 (current_priority th).
Lemma thread_ok_set_stat v th : thread_ok th -> started th -> thread_ok (th_set_stat v th).
Proof. intros (H1 & H2 & H3) Hst. split; [exact H1|]. split; [exact H2|]. by left. Qed.
Lemma thread_ok_started th :
  thread_ok th -> stat_of th = RT_THREAD_READY \/ stat_of th = RT_THREAD_SUSPEND -> started th.
Proof. intros (_ & _ & [Hm|(H1 & H2 & _)]) [Hs|Hs]; done. Qed.

Lemma sched_ok_started s t th :
  sched_ok s -> threads s !! t = Some th ->
  stat_of th = RT_THREAD_READY \/ stat_of th = RT_THREAD_SUSPEND -> started th.
Proof. intros Hok Ht. apply thread_ok_started. by eapply si_thread_ok. Qed.

Lemma do_insert_ok t th s :
  sched_ok s -> threads s !! t = Some th -> started th ->
  tlinked t s = false -> sched_ok (do_insert t th s).
Proof.
  intros Hok Ht Hst Hl. unfold sched_ok. cbn.
  apply (sched_inv_insert _ _ _ Hok t (ready_thread th)).
  - by eapply si_nonnull.
  - by apply tlinked_false.
  - by apply stat_of_with_stat.
  - apply thread_ok_set_stat; [by eapply si_thread_ok|done].
Qed.

Lemma do_remove_ok t th th' s :
  sched_ok s -> threads s !! t = Some th -> stat_of th' <> RT_THREAD_READY ->
  thread_ok th' -> sched_ok (set_threads (<[t := th']>) (do_remove t th s)).
Proof.
  intros Hok Ht Hst Hth'.
  pose proof (sched_inv_remove _ _ _ Hok t th th' Ht Hst Hth') as H.
  unfold sched_ok, do_remove. cbv zeta in *. unfold queue, q in *. cbn [queues set_queues] in *.
  case_bool_decide; done.
Qed.

Lemma upd_thread_ok t f s s' r :
  (forall th, same_sched th (f th)) -> sched_ok s ->
  upd_thread t f s = Ok (r, s') -> sched_ok s'.
Proof.
  intros Hf Hok Hm. minv Hm. by eapply sched_inv_upd; [apply Hok|done|].
Qed.
Lemma tlist_remove_ok t th s :
  sched_ok s -> threads s !! t = Some th -> stat_of th <> RT_THREAD_READY ->
  sched_ok (set_queues (fun qs => lremove t <$> qs) s).
Proof. intros Hok Ht Hst. by eapply sched_inv_unlink. Qed.
Lemma queue_insert_ok h t th s l :
  sched_ok s -> threads s !! t = Some th -> stat_of th = head_stat h ->
  head_stat h <> RT_THREAD_READY -> tlinked t s = false -> l ≡ₚ t :: queue s h ->
  sched_ok (set_queues (<[h := l]>) s).
Proof.
  intros Hok Ht Hst Hh Hl Hp. eapply sched_inv_enqueue; try done. by apply tlinked_false.
Qed.
Lemma insert_thread_ok t s s' r :
  sched_ok s -> (forall th, threads s !! t = Some th -> started th) ->
  rt_schedule_insert_thread t s = Ok (r, s') -> sched_ok s'.
Proof.
  intros Hok Hst (th & Ht & _ & _ & Hl & ->)%rt_schedule_insert_thread_inv.
  apply do_insert_ok; auto.
Qed.

(** the invariant does not speak about the other fields *)
Lemma sched_ok_frame s s' :
  threads s' = threads s -> queues s' = queues s ->
  ready_priority_group s' = ready_priority_group s -> sched_ok s -> sched_ok s'.
Proof. unfold sched_ok. by intros -> -> ->. Qed.
#[export] Hint Extern 5 (forall s, sched_ok s -> sched_ok _) =>
  (intros ? ?; eapply sched_ok_frame; [reflexivity..|assumption]) : pres.
#[export] Hint Resolve pres_modify : pres.

(** operations that do not touch what the invariant speaks about *)
Definition view (s : kstate) := (threads s, queues s, ready_priority_group s).
Definition view_is v (s : kstate) : Prop := view s = v.
#[export] Hint Extern 5 (forall s, view_is _ s -> view_is _ _) =>
  (intros ? ?; assumption) : pres.

Lemma rt_schedule_pres : preserves sched_ok rt_schedule.
Proof.
  unfold rt_schedule, rt_interrupt_get_nest, rt_hw_context_switch_interrupt. pres.
Qed.
#[export] Hint Resolve rt_schedule_pres : pres.
Lemma rt_enter_critical_pres : preserves sched_ok rt_enter_critical.
Proof. unfold rt_enter_critical. pres. Qed.
Lemma rt_exit_critical_pres : preserves sched_ok rt_exit_critical.
Proof. unfold rt_exit_critical. pres. Qed.
Lemma rt_system_scheduler_start_pres : preserves sched_ok rt_system_scheduler_start.
Proof. unfold rt_system_scheduler_start. pres. Qed.
#[export] Hint Resolve rt_enter_critical_pres rt_exit_critical_pres
  rt_system_scheduler_start_pres : pres.

Lemma upd_thread_pres t f :
  (forall th, same_sched th (f th)) -> preserves sched_ok (upd_thread t f).
Proof. intros Hf s a s' Hok Hm. by eapply upd_thread_ok. Qed.
Lemma rt_schedule_view v : preserves (view_is v) rt_schedule.
Proof.
  unfold rt_schedule, rt_interrupt_get_nest, rt_hw_context_switch_interrupt. pres.
Qed.
#[export] Hint Resolve upd_thread_pres rt_schedule_view : pres.
#[export] Hint Extern 5 (forall th, same_sched th _) =>
  (intros ?; split_and!; reflexivity) : pres.

(** * What rt_schedule selects *)
Lemma ffs_bounds v : 0 <= v < 4294967296 -> v <> 0 -> 0 <= __rt_ffs v - 1 < 32.
Proof. intros Hv Hne. destruct (rt_ffs_spec v Hv) as [[? _]|(_ & ? & _)]; lia. Qed.

(** under the invariant, [highest_ready] is the first thread of the first
    non-empty list *)
Lemma highest_ready_spec s p t :
  sched_ok s -> highest_ready s = Some (p, t) ->
  0 <= p < 32 /\ head (queue s (QReady p)) = Some t /\
  forall p', 0 <= p' < p -> queue s (QReady p') = [].
Proof.
  intros Hok Hh. unfold highest_ready in Hh.
  destruct ((0 <=? _) && _)%bool eqn:E; [|done].
  apply andb_prop in E as [E1%Z.leb_le E2%Z.ltb_lt].
  destruct (head _) as [u|] eqn:Eh; cbn in Hh; [|done]. injection Hh as <- <-.
  split; [unfold RT_THREAD_PRIORITY_MAX in *; lia|]. split; [done|]. intros p' Hp'.
  destruct (si_group _ _ _ Hok) as [Hg Hb].
  destruct (rt_ffs_spec _ Hg) as [[_ Hz]|(Hne & Hr & (_ & _ & Hlow))]; [lia|].
  specialize (Hb p' ltac:(unfold RT_THREAD_PRIORITY_MAX in *; lia)).
  rewrite Hlow in Hb by done. unfold q, queue in *.
  destruct (default [] (queues s !! QReady p')) eqn:E; [done|].
  exfalso. assert (false = true) by (apply Hb; congruence). done.
Qed.

Lemma highest_ready_some s t th :
  sched_ok s -> threads s !! t = Some th -> stat_of th = RT_THREAD_READY ->
  exists p u, highest_ready s = Some (p, u).
Proof.
  intros Hok Ht Hst. pose proof (si_ready _ _ _ Hok _ _ Ht Hst) as Hin.
  destruct (si_range _ _ _ Hok _ _ Ht) as (_ & Hp & _).
  destruct (si_group _ _ _ Hok) as [Hg Hb].
  assert (Z.testbit (ready_priority_group s) (current_priority th) = true) as Hbit.
  { apply Hb; [done|]. intros E. rewrite E in Hin. by apply elem_of_nil in Hin. }
  destruct (rt_ffs_spec _ Hg) as [[Hz _]|(_ & Hr & (_ & Hset & _))].
  { by rewrite Hz, Z.bits_0 in Hbit. }
  unfold highest_ready. set (p := __rt_ffs _ - 1) in *.
  rewrite (proj2 (Z.leb_le 0 p)), (proj2 (Z.ltb_lt p _)) by (unfold RT_THREAD_PRIORITY_MAX; lia).
  cbn. apply (Hb p) in Hset; [|lia]. unfold queue, q in *.
  destruct (default [] (queues s !! QReady p)) as [|u l]; [done|]. by exists p, u.
Qed.

(** the thread selected by a successful search is READY and no READY thread
    has a higher priority *)
Definition is_highest (s : kstate) (t : Z) : Prop :=
  exists th, threads s !! t = Some th /\ stat_of th = RT_THREAD_READY /\
    head (queue s (QReady (current_priority th))) = Some t /\
    forall t' th', threads s !! t' = Some th' -> stat_of th' = RT_THREAD_READY ->
      current_priority th <= current_priority th'.

Lemma highest_ready_is_highest s p t :
  sched_ok s -> highest_ready s = Some (p, t) -> is_highest s t.
Proof.
  intros Hok Hh. destruct (highest_ready_spec _ _ _ Hok Hh) as (Hp & Hhead & Hlow).
  pose proof (head_elem_of _ _ Hhead) as Hin.
  destruct (si_prio _ _ _ Hok _ _ Hin) as (th & Ht & Hpr).
  destruct (si_stat _ _ _ Hok _ _ Hin) as (th' & Ht' & Hst). simplify_eq.
  exists th. split_and!; [done..|]. intros t' uh Hu Hus.
  pose proof (si_ready _ _ _ Hok _ _ Hu Hus) as Hin'.
  destruct (si_range _ _ _ Hok _ _ Hu) as (_ & Hr & _).
  destruct (decide (current_priority th <= current_priority uh)) as [|Hlt]; [done|].
  unfold q in Hin'. unfold queue in Hlow. rewrite Hlow in Hin' by lia.
  by apply elem_of_nil in Hin'.
Qed.

Lemma rt_schedule_selects s t th :
  sched_ok s -> scheduler_lock_nest s = 0 ->
  threads s !! t = Some th -> stat_of th = RT_THREAD_READY ->
  wp rt_schedule (fun _ s' => is_highest s' (rt_current_thread s') /\
    threads s' = threads s /\ queues s' = queues s /\
    (forall p u, highest_ready s = Some (p, u) -> rt_current_thread s' = u)) s.
Proof.
  intros Hok Hlock Ht Hst. destruct (highest_ready_some _ _ _ Hok Ht Hst) as (p & u & Hh).
  pose proof (highest_ready_is_highest _ _ _ Hok Hh) as Hhi.
  unfold rt_schedule. apply wp_bind, wp_get. rewrite Hlock, Z.eqb_refl.
  apply wp_bind. eapply wp_the; [exact Hh|]. cbn [fst snd]. rewrite Hh.
  destruct (Z.eqb_spec u (rt_current_thread s)) as [->|]; cbn [negb].
  { apply wp_ret. naive_solver. }
  unfold wp, bind, modify, rt_interrupt_get_nest, gets. cbn.
  destruct (_ =? 0); (split; [done|]); naive_solver.
Qed.

(** C3: With the scheduler unlocked and some thread READY, [rt_schedule] does not
    fault and makes the head of the highest non-empty ready list current:
    no READY thread has a higher priority, and among equals it is the one that
    has waited longest. *)
Theorem rt_schedule_highest (s : kstate) (t : Z) (th : rt_thread) :
  sched_ok s -> scheduler_lock_nest s = 0 ->
  threads s !! t = Some th -> stat_of th = RT_THREAD_READY ->
  wp rt_schedule (fun _ s' => is_highest s' (rt_current_thread s') /\
    threads s' = threads s /\ queues s' = queues s) s.
Proof.
  intros Hok Hl Ht Hst. eapply wp_mono; [by eapply rt_schedule_selects|]. naive_solver.
Qed.
