(* ===== verification/Object.v ===== *)
(** The object system, rt-thread/kernel/src/object.c: the containers, one
    list of objects per class, and the header ([o_name], [o_type], [o_flag])
    that every kernel object starts with. *)
From S2P Require Import Prelude KService Mem Kernel Sched.

(** * Definitions *)

(** rt_object_container: class and sizeof of the class's struct *)
Definition rt_object_container : list (Z * Z) := [
  (RT_Object_Class_Thread, 128); (RT_Object_Class_Semaphore, 32);
  (RT_Object_Class_Mutex, 36); (RT_Object_Class_Event, 32);
  (RT_Object_Class_MailBox, 48); (RT_Object_Class_MessageQueue, 60);
  (RT_Object_Class_MemHeap, 100); (RT_Object_Class_MemPool, 52);
  (RT_Object_Class_Timer, 44)].

Definition rt_object_get_information (type : Z) : option (Z * Z) :=
  List.find (fun info => info.1 =? type) rt_object_container.

(** information->object_list *)
Definition object_list (s : kstate) (type : Z) : list Z := default [] (containers s !! type).

(** some container holds the list node of [object] *)
Definition olinked (object : Z) (s : kstate) : bool :=
  bool_decide (map_Exists (fun _ l => object ∈ l) (containers s)).
Definition olist_insert_after (type object : Z) : K unit :=
  let* s := get in
  if olinked object s then raise ListCorrupt
  else modify (set_containers (<[type := object :: object_list s type]>)).
Definition olist_remove (object : Z) : K unit :=
  modify (set_containers (fun c => lremove object <$> c)).

(** rt_strncpy (object->name, name, RT_NAME_MAX) *)
Definition object_name (name : list Z) : list Z :=
  take (Z.to_nat RT_NAME_MAX) (name ++ replicate (Z.to_nat RT_NAME_MAX) 0).

(** rt_strncmp on two C strings, given as the bytes before the NUL *)
Fixpoint strncmp_list (count : nat) (cs ct : list Z) : Z :=
  match count with
  | O => 0
  | S count =>
      let a := default 0 (head cs) in let b := default 0 (head ct) in
      let res := s8 (a - b) in
      if (truthy res || (a =? 0))%bool then res
      else strncmp_list count (tail cs) (tail ct)
  end.

Definition rt_object_get_length (type : Z) : K Z :=
  match rt_object_get_information type with
  | None => ret 0
  | Some _ => let* s := get in ret (Z.of_nat (length (object_list s type)))
  end.

(** the loop of rt_object_get_pointers, [index] pointers being stored *)
Fixpoint get_pointers_loop (l : list Z) (index maxlen : Z) : list Z :=
  match l with
  | [] => []
  | object :: l =>
      object :: (if maxlen <=? index + 1 then [] else get_pointers_loop l (index + 1) maxlen)
  end.
Definition rt_object_get_pointers (type maxlen : Z) : K (list Z) :=
  if maxlen <=? 0 then ret []
  else match rt_object_get_information type with
  | None => ret []
  | Some _ => let* s := get in ret (get_pointers_loop (object_list s type) 0 maxlen)
  end.

(** The flag of a static object keeps the value its memory had, 0 before the
    first initialisation. *)
Definition rt_object_init (object type : Z) (name : list Z) : K unit :=
  rt_assert (bool_decide (is_Some (rt_object_get_information type)));;
  rt_enter_critical;;
  (let* s := get in rt_assert (bool_decide (object ∉ object_list s type)));;
  rt_exit_critical;;
  modify (fun s => set_objs (<[object := {| o_name := object_name name;
    o_type := Z.lor type RT_Object_Class_Static;
    o_flag := default 0 (o_flag <$> objs s !! object) |}]>) s);;
  olist_insert_after type object.

Definition rt_object_detach (object : Z) : K unit :=
  rt_assert (negb (object =? RT_NULL));;
  upd_obj object (ob_set_type 0);;
  olist_remove object.

Definition rt_object_allocate (type : Z) (name : list Z) : K Z :=
  RT_DEBUG_NOT_IN_INTERRUPT;;
  match rt_object_get_information type with
  | None => raise AssertFailed
  | Some info =>
      let* object := on_heap (rt_malloc info.2) in
      if object =? RT_NULL then ret RT_NULL
      else
        on_heap (on_ram (rt_memset object 0 info.2));;
        modify (set_objs (<[object := {| o_name := object_name name; o_type := type;
          o_flag := 0 |}]>));;
        olist_insert_after type object;;
        ret object
  end.

(** the freed memory carries no object any more; freeing a thread whose
    [tlist] is still linked would leave a dangling node *)
Definition forget (object : Z) : K unit :=
  let* s := get in
  if tlinked object s then raise ListCorrupt
  else modify (fun s =>
    set_threads (delete object) (set_timers (delete object) (set_sems (delete object)
    (set_mutexes (delete object) (set_events (delete object) (set_mailboxes (delete object)
    (set_mqueues (delete object) (set_mempools (delete object)
    (set_objs (delete object) s))))))))).

Definition rt_object_delete (object : Z) : K unit :=
  rt_assert (negb (object =? RT_NULL));;
  (let* ob := get_obj object in
   rt_assert (negb (truthy (Z.land (o_type ob) RT_Object_Class_Static))));;
  upd_obj object (ob_set_type RT_Object_Class_Null);;
  olist_remove object;;
  on_heap (rt_free object);;
  forget object.

Definition rt_object_is_systemobject (object : Z) : K bool :=
  rt_assert (negb (object =? RT_NULL));;
  let* ob := get_obj object in
  if truthy (Z.land (o_type ob) RT_Object_Class_Static) then ret true else ret false.

Definition rt_object_get_type (object : Z) : K Z :=
  rt_assert (negb (object =? RT_NULL));;
  let* ob := get_obj object in
  ret (u8 (Z.land (o_type ob) (Z.lnot RT_Object_Class_Static))).

Fixpoint find_loop (name : list Z) (l : list Z) : K Z :=
  match l with
  | [] => rt_exit_critical;; ret RT_NULL
  | object :: l =>
      let* ob := get_obj object in
      if strncmp_list (Z.to_nat RT_NAME_MAX) (o_name ob) name =? 0
      then rt_exit_critical;; ret object
      else find_loop name l
  end.
(** [name] is [None] for a null pointer *)
Definition rt_object_find (name : option (list Z)) (type : Z) : K Z :=
  match name, rt_object_get_information type with
  | Some name, Some _ =>
      RT_DEBUG_NOT_IN_INTERRUPT;;
      rt_enter_critical;;
      let* s := get in find_loop name (object_list s type)
  | _, _ => ret RT_NULL
  end.

(** the check RT_ASSERT(rt_object_get_type(o) == c) *)
Definition assert_type (o c : Z) : K unit :=
  let* ty := rt_object_get_type o in rt_assert (ty =? c).

#[export] Hint Unfold assert_type rt_object_get_type rt_object_is_systemobject
  RT_DEBUG_NOT_IN_INTERRUPT RT_DEBUG_IN_THREAD_CONTEXT rt_interrupt_get_nest : minv.

(** * Preservation of the scheduler invariant *)
Lemma on_heap_pres {A} (m : M heap A) : preserves sched_ok (on_heap m).
Proof.
  intros s a s' Hok. unfold on_heap. destruct (m (kheap s)) as [[b h]|]; intros [= <- <-].
  by eapply sched_ok_frame; [..|exact Hok].
Qed.
Lemma on_heap_view {A} (m : M heap A) s a s' :
  on_heap m s = Ok (a, s') ->
  threads s' = threads s /\ queues s' = queues s /\ objs s' = objs s.
Proof. unfold on_heap. destruct (m (kheap s)) as [[b h]|]; by intros [= <- <-]. Qed.
Lemma get_obj_pres o : preserves sched_ok (get_obj o).
Proof. unfold get_obj. pres. Qed.
Lemma get_thread_pres t : preserves sched_ok (get_thread t).
Proof. unfold get_thread. pres. Qed.
Lemma get_timer_pres t : preserves sched_ok (get_timer t).
Proof. unfold get_timer. pres. Qed.
#[export] Hint Resolve on_heap_pres get_obj_pres get_thread_pres get_timer_pres : pres.
Lemma upd_obj_pres o f : preserves sched_ok (upd_obj o f).
Proof. unfold upd_obj. pres. Qed.
Lemma upd_timer_pres t f : preserves sched_ok (upd_timer t f).
Proof. unfold upd_timer. pres. Qed.
Lemma olist_insert_after_pres type o : preserves sched_ok (olist_insert_after type o).
Proof. unfold olist_insert_after. pres. Qed.
Lemma olist_remove_pres o : preserves sched_ok (olist_remove o).
Proof. unfold olist_remove. pres. Qed.
Lemma not_in_interrupt_pres : preserves sched_ok RT_DEBUG_NOT_IN_INTERRUPT.
Proof. unfold RT_DEBUG_NOT_IN_INTERRUPT, rt_interrupt_get_nest. pres. Qed.
#[export] Hint Resolve upd_obj_pres upd_timer_pres olist_insert_after_pres
  olist_remove_pres not_in_interrupt_pres : pres.
Lemma in_thread_context_pres : preserves sched_ok RT_DEBUG_IN_THREAD_CONTEXT.
Proof. unfold RT_DEBUG_IN_THREAD_CONTEXT. pres. Qed.

Section quiet.
Context (v : gmap Z rt_thread * gmap qhead (list Z) * Z).
Lemma get_obj_view o : preserves (view_is v) (get_obj o).
Proof. unfold get_obj. pres. Qed.
Lemma get_thread_view t : preserves (view_is v) (get_thread t).
Proof. unfold get_thread. pres. Qed.
Lemma get_timer_view t : preserves (view_is v) (get_timer t).
Proof. unfold get_timer. pres. Qed.
Lemma upd_obj_view o f : preserves (view_is v) (upd_obj o f).
Proof. pose proof get_obj_view. unfold upd_obj. pres. Qed.
Lemma upd_timer_view t f : preserves (view_is v) (upd_timer t f).
Proof. pose proof get_timer_view. unfold upd_timer. pres. Qed.
Lemma rt_object_is_systemobject_view o :
  preserves (view_is v) (rt_object_is_systemobject o).
Proof. pose proof get_obj_view. unfold rt_object_is_systemobject. pres. Qed.
Lemma rt_object_get_type_view o : preserves (view_is v) (rt_object_get_type o).
Proof. pose proof get_obj_view. unfold rt_object_get_type. pres. Qed.
Lemma rt_object_detach_view o : preserves (view_is v) (rt_object_detach o).
Proof. pose proof upd_obj_view. unfold rt_object_detach, olist_remove. pres. Qed.
Lemma assert_type_view o c : preserves (view_is v) (assert_type o c).
Proof. pose proof rt_object_get_type_view. unfold assert_type. pres. Qed.
End quiet.
#[export] Hint Resolve get_obj_view get_thread_view get_timer_view upd_obj_view
  upd_timer_view rt_object_is_systemobject_view rt_object_get_type_view
  rt_object_detach_view assert_type_view : pres.

(** a thread record on no list may go away *)
Lemma sched_inv_delete ths qs g t :
  sched_inv ths qs g -> (forall h, t ∉ q qs h) -> sched_inv (delete t ths) qs g.
Proof.
  intros [H1 H2 H3 H4 H5 H6 H7 H8] Hfree. split; auto.
  - intros h u Hu. rewrite lookup_delete_ne by (intros ->; by eapply Hfree). by apply H3.
  - intros p u Hu. rewrite lookup_delete_ne by (intros ->; by eapply Hfree). by apply H4.
  - intros u uh [_ ?]%lookup_delete_Some. by apply H5.
  - intros u uh [_ ?]%lookup_delete_Some. by apply H6.
  - intros u uh [_ ?]%lookup_delete_Some. by apply (H7 u).
Qed.
Lemma forget_pres o : preserves sched_ok (forget o).
Proof.
  intros s a s' Hok Hm. unfold forget in Hm. minv Hm.
  by apply sched_inv_delete; [|apply tlinked_false].
Qed.
#[export] Hint Resolve in_thread_context_pres forget_pres : pres.

Lemma rt_object_init_pres object type name :
  preserves sched_ok (rt_object_init object type name).
Proof. unfold rt_object_init. pres. Qed.
Lemma rt_object_detach_pres object : preserves sched_ok (rt_object_detach object).
Proof. unfold rt_object_detach. pres. Qed.
Lemma rt_object_allocate_pres type name : preserves sched_ok (rt_object_allocate type name).
Proof. unfold rt_object_allocate. pres. Qed.
Lemma rt_object_delete_pres object : preserves sched_ok (rt_object_delete object).
Proof. unfold rt_object_delete. pres. Qed.
Lemma rt_object_is_systemobject_pres object :
  preserves sched_ok (rt_object_is_systemobject object).
Proof. unfold rt_object_is_systemobject. pres. Qed.
Lemma rt_object_get_type_pres object : preserves sched_ok (rt_object_get_type object).
Proof. unfold rt_object_get_type. pres. Qed.
#[export] Hint Resolve rt_object_init_pres rt_object_detach_pres rt_object_allocate_pres
  rt_object_delete_pres rt_object_is_systemobject_pres rt_object_get_type_pres : pres.
Lemma assert_type_pres o c : preserves sched_ok (assert_type o c).
Proof. unfold assert_type. pres. Qed.
Lemma find_loop_pres name l : preserves sched_ok (find_loop name l).
Proof. induction l; cbn; pres. Qed.
#[export] Hint Resolve assert_type_pres find_loop_pres : pres.
Lemma rt_object_find_pres name type : preserves sched_ok (rt_object_find name type).
Proof. unfold rt_object_find. pres. Qed.
#[export] Hint Resolve rt_object_find_pres : pres.
