(* ===== verification/Timer.v ===== *)
(** Timers and the system clock, rt-thread/kernel/src/timer.c and clock.c,
    with RT_TIMER_SKIP_LIST_LEVEL = 1 and no soft timers: the list of running
    timers sorted by timeout, its check at every tick, and the timeout
    handler of thread timers (rt_thread_timeout of thread.c), the callback
    that the kernel installs itself. *)
From stdpp Require Import sorting.
From S2P Require Import Prelude KService Mem Kernel Sched Object.

(** * Definitions *)
Definition RT_TIMER_CTRL_SET_TIME : Z := 0.
Definition RT_TIMER_CTRL_GET_TIME : Z := 1.
Definition RT_TIMER_CTRL_SET_ONESHOT : Z := 2.
Definition RT_TIMER_CTRL_SET_PERIODIC : Z := 3.
Definition RT_TIMER_CTRL_GET_STATE : Z := 4.
Definition RT_TIMER_FLAG_DEACTIVATED : Z := 0.
Definition RT_TIMER_FLAG_ONE_SHOT : Z := 0.
Definition RT_TICK_PER_SECOND : Z := 1000.
(** RT_TICK_MAX / 2 *)
Definition HALF_TICK_MAX : Z := RT_TICK_MAX / 2.

Definition rt_tick_get : K Z := gets rt_tick.
Definition rt_tick_set (tick : Z) : K unit := modify (set_rt_tick (fun _ => tick)).
(** The products fit an [int]; the sum is taken in the unsigned rt_tick_t. *)
Definition rt_tick_from_millisecond (ms : Z) : Z :=
  if ms <? 0 then u32 RT_WAITING_FOREVER
  else u32 (RT_TICK_PER_SECOND * (ms / 1000) +
            (RT_TICK_PER_SECOND * (ms mod 1000) + 999) / 1000).

Definition set_flag (v : Z) (timer : Z) : K unit :=
  upd_obj timer (fun ob => ob_set_flag (Z.lor (o_flag ob) v) ob).
Definition clear_flag (v : Z) (timer : Z) : K unit :=
  upd_obj timer (fun ob => ob_set_flag (Z.land (o_flag ob) (Z.lnot v)) ob).

(** the row of [timer] is on the timer list or on the temporary list *)
Definition timer_linked (timer : Z) (s : kstate) : bool :=
  bool_decide (timer ∈ rt_timer_list s \/ timer ∈ check_list s).

Definition _rt_timer_init (timer : Z) (timeout : timeout_fn) (param time flag : Z) : K unit :=
  upd_obj timer (ob_set_flag flag);;
  clear_flag RT_TIMER_FLAG_ACTIVATED timer;;
  modify (set_timers (<[timer := {| timeout_func := timeout; parameter := param;
    tm_init_tick := time; timeout_tick := 0 |}]>));;
  let* s := get in
  if timer_linked timer s then raise ListCorrupt else ret tt.

Definition rt_timer_list_next_timeout : K Z :=
  let* s := get in
  match rt_timer_list s with
  | [] => ret RT_TICK_MAX
  | timer :: _ => let* tm := get_timer timer in ret (timeout_tick tm)
  end.

Definition _rt_timer_remove (timer : Z) : K unit :=
  modify (set_rt_timer_list (lremove timer));; modify (set_check_list (lremove timer)).

Definition rt_timer_init (timer : Z) (name : list Z) (timeout : timeout_fn)
    (param time flag : Z) : K unit :=
  rt_assert (negb (timer =? RT_NULL));;
  rt_object_init timer RT_Object_Class_Timer name;;
  _rt_timer_init timer timeout param time flag.

Definition rt_timer_detach (timer : Z) : K Z :=
  rt_assert (negb (timer =? RT_NULL));;
  assert_type timer RT_Object_Class_Timer;;
  (let* b := rt_object_is_systemobject timer in rt_assert b);;
  _rt_timer_remove timer;;
  clear_flag RT_TIMER_FLAG_ACTIVATED timer;;
  rt_object_detach timer;;
  ret RT_EOK.

Definition rt_timer_create (name : list Z) (timeout : timeout_fn) (param time flag : Z) : K Z :=
  let* timer := rt_object_allocate RT_Object_Class_Timer name in
  if timer =? RT_NULL then ret RT_NULL
  else _rt_timer_init timer timeout param time flag;; ret timer.

Definition rt_timer_delete (timer : Z) : K Z :=
  rt_assert (negb (timer =? RT_NULL));;
  assert_type timer RT_Object_Class_Timer;;
  (let* b := rt_object_is_systemobject timer in rt_assert (negb b));;
  _rt_timer_remove timer;;
  clear_flag RT_TIMER_FLAG_ACTIVATED timer;;
  rt_object_delete timer;;
  ret RT_EOK.

(** rt_list_insert_after (row_head, &timer->row) on the timer list *)
Definition timer_list_insert (pre suf : list Z) (timer : Z) : K unit :=
  let* s := get in
  if timer_linked timer s then raise ListCorrupt
  else modify (set_rt_timer_list (fun _ => pre ++ timer :: suf)).

(** the search loop: split the list behind the last timer that is not later
    than [timeout] *)
Fixpoint timer_position (timeout : Z) (l : list Z) : K (list Z * list Z) :=
  match l with
  | [] => ret ([], [])
  | t :: l' =>
      let* tm := get_timer t in
      let d := u32 (timeout_tick tm - timeout) in
      if negb (d =? 0) && (d <? HALF_TICK_MAX) then ret ([], l)
      else let* p := timer_position timeout l' in ret (t :: p.1, p.2)
  end.

Definition rt_timer_start (timer : Z) : K Z :=
  rt_assert (negb (timer =? RT_NULL));;
  assert_type timer RT_Object_Class_Timer;;
  _rt_timer_remove timer;;
  clear_flag RT_TIMER_FLAG_ACTIVATED timer;;
  (let* tm := get_timer timer in rt_assert (tm_init_tick tm <? HALF_TICK_MAX));;
  (let* now := rt_tick_get in
   upd_timer timer (fun tm => tm_set_timeout (u32 (now + tm_init_tick tm)) tm));;
  let* tm := get_timer timer in
  let* s := get in
  let* p := timer_position (timeout_tick tm) (rt_timer_list s) in
  modify (set_random_nr (fun n => u32 (n + 1)));;
  timer_list_insert p.1 p.2 timer;;
  set_flag RT_TIMER_FLAG_ACTIVATED timer;;
  ret RT_EOK.

Definition rt_timer_stop (timer : Z) : K Z :=
  rt_assert (negb (timer =? RT_NULL));;
  assert_type timer RT_Object_Class_Timer;;
  let* ob := get_obj timer in
  if negb (truthy (Z.land (o_flag ob) RT_TIMER_FLAG_ACTIVATED)) then ret (- RT_ERROR)
  else
    _rt_timer_remove timer;;
    clear_flag RT_TIMER_FLAG_ACTIVATED timer;;
    ret RT_EOK.

(** [arg] is the tick that the caller's pointer holds; the tick it holds
    afterwards is returned with the error code *)
Definition rt_timer_control (timer cmd arg : Z) : K (Z * Z) :=
  rt_assert (negb (timer =? RT_NULL));;
  assert_type timer RT_Object_Class_Timer;;
  if cmd =? RT_TIMER_CTRL_GET_TIME then
    let* tm := get_timer timer in ret (RT_EOK, tm_init_tick tm)
  else if cmd =? RT_TIMER_CTRL_SET_TIME then
    upd_timer timer (tm_set_init arg);; ret (RT_EOK, arg)
  else if cmd =? RT_TIMER_CTRL_SET_ONESHOT then
    clear_flag RT_TIMER_FLAG_PERIODIC timer;; ret (RT_EOK, arg)
  else if cmd =? RT_TIMER_CTRL_SET_PERIODIC then
    set_flag RT_TIMER_FLAG_PERIODIC timer;; ret (RT_EOK, arg)
  else if cmd =? RT_TIMER_CTRL_GET_STATE then
    let* ob := get_obj timer in
    ret (RT_EOK, if truthy (Z.land (o_flag ob) RT_TIMER_FLAG_ACTIVATED)
                 then RT_TIMER_FLAG_ACTIVATED else RT_TIMER_FLAG_DEACTIVATED)
  else ret (RT_EOK, arg).

(** thread.c: the timeout handler of a thread timer *)
Definition rt_thread_timeout (thread : Z) : K unit :=
  rt_assert (negb (thread =? RT_NULL));;
  (let* th := get_thread thread in rt_assert (stat_of th =? RT_THREAD_SUSPEND));;
  assert_type thread RT_Object_Class_Thread;;
  upd_thread thread (th_set_error (- RT_ETIMEOUT));;
  tlist_remove thread;;
  rt_schedule_insert_thread thread;;
  rt_schedule.

Section check.
Context {UC : UserCode}.

(** t->timeout_func(t->parameter) *)
Definition call_timeout (f : timeout_fn) (param : Z) : K unit :=
  match f with
  | Fn_rt_thread_timeout => rt_thread_timeout param
  | Fn_user addr => user_timeout addr param
  end.

(** rt_list_insert_after (&list, &t->row) on the temporary list *)
Definition check_list_insert (t : Z) : K unit :=
  let* s := get in
  if timer_linked t s then raise ListCorrupt
  else modify (set_check_list (cons t)).

(** the body of the loop for an expired timer [t] *)
Definition timer_expire (t : Z) : K unit :=
  let* tm := get_timer t in
  _rt_timer_remove t;;
  (let* ob := get_obj t in
   when (negb (truthy (Z.land (o_flag ob) RT_TIMER_FLAG_PERIODIC)))
     (clear_flag RT_TIMER_FLAG_ACTIVATED t));;
  check_list_insert t;;
  call_timeout (timeout_func tm) (parameter tm);;
  let* s := get in
  match check_list s with
  | [] => ret tt
  | _ =>
      _rt_timer_remove t;;
      let* ob := get_obj t in
      when (truthy (Z.land (o_flag ob) RT_TIMER_FLAG_PERIODIC) &&
            truthy (Z.land (o_flag ob) RT_TIMER_FLAG_ACTIVATED))%bool
        (clear_flag RT_TIMER_FLAG_ACTIVATED t;;
         let* _e := rt_timer_start t in ret tt)
  end.

Fixpoint timer_check_loop (fuel : nat) (current_tick : Z) : K unit :=
  match fuel with
  | O => raise OutOfFuel
  | S fuel =>
      let* s := get in
      match rt_timer_list s with
      | [] => ret tt
      | t :: _ =>
          let* tm := get_timer t in
          if u32 (current_tick - timeout_tick tm) <? HALF_TICK_MAX then
            timer_expire t;;
            let* current_tick := rt_tick_get in
            timer_check_loop fuel current_tick
          else ret tt
      end
  end.

Definition rt_timer_check (fuel : nat) : K unit :=
  modify (set_check_list (fun _ => []));;
  let* current_tick := rt_tick_get in
  timer_check_loop fuel current_tick.
End check.

Definition rt_timer_next_timeout_tick : K Z := rt_timer_list_next_timeout.
Definition rt_system_timer_init : K unit := modify (set_rt_timer_list (fun _ => [])).

(** * Preservation of the scheduler invariant *)
Lemma set_flag_pres v timer : preserves sched_ok (set_flag v timer).
Proof. unfold set_flag. pres. Qed.
Lemma clear_flag_pres v timer : preserves sched_ok (clear_flag v timer).
Proof. unfold clear_flag. pres. Qed.
Lemma timer_remove_pres timer : preserves sched_ok (_rt_timer_remove timer).
Proof. unfold _rt_timer_remove. pres. Qed.
#[export] Hint Resolve set_flag_pres clear_flag_pres timer_remove_pres : pres.
Lemma timer_init_pres timer timeout param time flag :
  preserves sched_ok (_rt_timer_init timer timeout param time flag).
Proof. unfold _rt_timer_init. pres. Qed.
Lemma timer_list_insert_pres pre suf timer :
  preserves sched_ok (timer_list_insert pre suf timer).
Proof. unfold timer_list_insert. pres. Qed.
Lemma timer_position_pres timeout l : preserves sched_ok (timer_position timeout l).
Proof. induction l; cbn; pres. Qed.
Lemma next_timeout_pres : preserves sched_ok rt_timer_list_next_timeout.
Proof. unfold rt_timer_list_next_timeout. pres. Qed.
#[export] Hint Resolve timer_init_pres timer_list_insert_pres timer_position_pres
  next_timeout_pres : pres.
Lemma rt_timer_init_pres timer name timeout param time flag :
  preserves sched_ok (rt_timer_init timer name timeout param time flag).
Proof. unfold rt_timer_init. pres. Qed.
Lemma rt_timer_detach_pres timer : preserves sched_ok (rt_timer_detach timer).
Proof. unfold rt_timer_detach. pres. Qed.
Lemma rt_timer_create_pres name timeout param time flag :
  preserves sched_ok (rt_timer_create name timeout param time flag).
Proof. unfold rt_timer_create. pres. Qed.
Lemma rt_timer_delete_pres timer : preserves sched_ok (rt_timer_delete timer).
Proof. unfold rt_timer_delete. pres. Qed.
Lemma rt_timer_start_pres timer : preserves sched_ok (rt_timer_start timer).
Proof. unfold rt_timer_start, rt_tick_get. pres. Qed.
Lemma rt_timer_stop_pres timer : preserves sched_ok (rt_timer_stop timer).
Proof. unfold rt_timer_stop. pres. Qed.
Lemma rt_timer_control_pres timer cmd arg : preserves sched_ok (rt_timer_control timer cmd arg).
Proof. unfold rt_timer_control. pres. Qed.
#[export] Hint Resolve rt_timer_init_pres rt_timer_detach_pres rt_timer_create_pres
  rt_timer_delete_pres rt_timer_start_pres rt_timer_stop_pres rt_timer_control_pres : pres.

Section quiet.
Context (v : gmap Z rt_thread * gmap qhead (list Z) * Z).
Lemma set_flag_view x timer : preserves (view_is v) (set_flag x timer).
Proof. unfold set_flag. pres. Qed.
Lemma clear_flag_view x timer : preserves (view_is v) (clear_flag x timer).
Proof. unfold clear_flag. pres. Qed.
Lemma timer_remove_view timer : preserves (view_is v) (_rt_timer_remove timer).
Proof. unfold _rt_timer_remove. pres. Qed.
Lemma timer_position_view timeout l : preserves (view_is v) (timer_position timeout l).
Proof. induction l; cbn; pres. Qed.
Lemma rt_timer_detach_view timer : preserves (view_is v) (rt_timer_detach timer).
Proof. pose proof timer_remove_view. pose proof clear_flag_view. unfold rt_timer_detach. pres. Qed.
Lemma rt_timer_stop_view timer : preserves (view_is v) (rt_timer_stop timer).
Proof. pose proof timer_remove_view. pose proof clear_flag_view. unfold rt_timer_stop. pres. Qed.
Lemma rt_timer_control_view timer cmd arg :
  preserves (view_is v) (rt_timer_control timer cmd arg).
Proof. pose proof set_flag_view. pose proof clear_flag_view. unfold rt_timer_control. pres. Qed.
Lemma rt_timer_start_view timer : preserves (view_is v) (rt_timer_start timer).
Proof.
  pose proof timer_remove_view. pose proof clear_flag_view. pose proof set_flag_view.
  pose proof timer_position_view.
  unfold rt_timer_start, rt_tick_get, timer_list_insert. pres.
Qed.
End quiet.
#[export] Hint Resolve rt_timer_detach_view rt_timer_stop_view rt_timer_control_view
  rt_timer_start_view : pres.

Lemma rt_thread_timeout_pres thread : preserves sched_ok (rt_thread_timeout thread).
Proof.
  intros s a s' Hok Hm. unfold rt_thread_timeout in Hm. minv Hm.
  eapply rt_schedule_pres; [|exact Hm].
  rewrite Z.eqb_eq in *. cbn [threads] in *. simplify_eq.
  match goal with E : stat_of ?th = RT_THREAD_SUSPEND |- _ => rename th into th0, E into H end.
  eapply insert_thread_ok; [| |eassumption].
  - eapply (tlist_remove_ok _ (th_set_error (- RT_ETIMEOUT) th0)).
    + by eapply sched_inv_upd; [apply Hok|eassumption|].
    + apply lookup_insert_eq.
    + change (stat_of (th_set_error _ th0)) with (stat_of th0). by rewrite H.
  - cbn. intros th. rewrite lookup_insert_eq. intros [= <-].
    change (started th0). eapply thread_ok_started; [by eapply si_thread_ok|by right].
Qed.
#[export] Hint Resolve rt_thread_timeout_pres : pres.

(** The invariant in the middle of rt_thread_detach and rt_thread_delete:
    [t] has left the ready table but still has its old status, and
    marking it CLOSE restores the invariant. *)
Definition closing (t : Z) (s : kstate) : Prop :=
  exists th, threads s !! t = Some th /\
    sched_ok (set_threads (<[t := th_set_stat RT_THREAD_CLOSE th]>) s).

(** What the kernel expects of application callbacks: they keep the
    scheduler's data intact, as every kernel operation does; a cleanup hook
    also runs while its thread is being closed. *)
Class UserCodeOk (UC : UserCode) := {
  user_timeout_pres : forall addr param, preserves sched_ok (user_timeout addr param);
  user_cleanup_pres : forall addr thread, preserves sched_ok (user_cleanup addr thread);
  user_cleanup_closing : forall addr thread, preserves (closing thread) (user_cleanup addr thread);
}.
#[export] Hint Resolve user_timeout_pres user_cleanup_pres user_cleanup_closing : pres.

Section check_pres.
Context `{UCO : UserCodeOk}.
Lemma call_timeout_pres f param : preserves sched_ok (call_timeout f param).
Proof using UCO. unfold call_timeout. pres. Qed.
Lemma timer_expire_pres t : preserves sched_ok (timer_expire t).
Proof using UCO.
  pose proof call_timeout_pres. unfold timer_expire, check_list_insert. pres.
Qed.
Lemma timer_check_loop_pres fuel tick : preserves sched_ok (timer_check_loop fuel tick).
Proof using UCO.
  pose proof timer_expire_pres. revert tick.
  induction fuel; intros tick; cbn; unfold rt_tick_get; pres.
Qed.
Lemma rt_timer_check_pres fuel : preserves sched_ok (rt_timer_check fuel).
Proof using UCO.
  pose proof timer_check_loop_pres. unfold rt_timer_check, rt_tick_get. pres.
Qed.
End check_pres.
#[export] Hint Resolve call_timeout_pres rt_timer_check_pres : pres.

(** * The timer list is sorted *)

(** the timeout of a timer, and its distance from a reference tick [b] that
    no running timer precedes *)
Definition tmo (s : kstate) (t : Z) : Z := default 0 (timeout_tick <$> timers s !! t).
Definition rel (b : Z) (s : kstate) (t : Z) : Z := u32 (tmo s t - b).

Record timer_sorted (b : Z) (s : kstate) : Prop := {
  ts_rel : forall t, t ∈ rt_timer_list s -> is_Some (timers s !! t) /\ rel b s t < HALF_TICK_MAX;
  ts_sorted : StronglySorted (fun t u => rel b s t <= rel b s u) (rt_timer_list s);
}.

(** the C comparison of two timeouts decides their order from [b] *)
Lemma tick_order b x y :
  u32 (x - b) < HALF_TICK_MAX -> u32 (y - b) < HALF_TICK_MAX ->
  (negb (u32 (x - y) =? 0) && (u32 (x - y) <? HALF_TICK_MAX) = true)%bool <->
  u32 (y - b) < u32 (x - b).
Proof.
  unfold u32, HALF_TICK_MAX, RT_TICK_MAX. intros Hx Hy.
  assert (E : (x - y) mod 4294967296 =
    ((x - b) mod 4294967296 - (y - b) mod 4294967296) mod 4294967296).
  { rewrite <- Zminus_mod. f_equal. lia. }
  rewrite E. pose proof (Z.mod_pos_bound (x - b) 4294967296).
  pose proof (Z.mod_pos_bound (y - b) 4294967296).
  set (p := (x - b) mod _) in *. set (r := (y - b) mod _) in *. clearbody p r.
  change (4294967295 / 2) with 2147483647 in *.
  rewrite andb_true_iff, negb_true_iff, Z.eqb_neq, Z.ltb_lt.
  destruct (decide (r <= p)).
  - rewrite Z.mod_small by lia. lia.
  - replace ((p - r) mod 4294967296) with (p - r + 4294967296); [lia|].
    apply Zmod_unique with (-1); lia.
Qed.

Lemma get_timer_run t tm s : timers s !! t = Some tm -> get_timer t s = Ok (tm, s).
Proof. intros Ht. unfold get_timer, bind, get. by rewrite Ht. Qed.
Lemma upd_timer_run t f tm s :
  timers s !! t = Some tm -> upd_timer t f s = Ok (tt, set_timers (<[t := f tm]>) s).
Proof. intros Ht. unfold upd_timer, get_timer, bind, get. by rewrite Ht. Qed.
Lemma get_obj_run o ob s : objs s !! o = Some ob -> get_obj o s = Ok (ob, s).
Proof. intros Ht. unfold get_obj, bind, get. by rewrite Ht. Qed.
Lemma upd_obj_run o f ob s :
  objs s !! o = Some ob -> upd_obj o f s = Ok (tt, set_objs (<[o := f ob]>) s).
Proof. intros Ht. unfold upd_obj, get_obj, bind, get. by rewrite Ht. Qed.

Definition has_type (c : Z) (ob : rt_object) : Prop :=
  u8 (Z.land (o_type ob) (Z.lnot RT_Object_Class_Static)) = c.
Lemma assert_nonnull_run {S} o (s : S) :
  o <> RT_NULL -> rt_assert (negb (o =? RT_NULL)) s = Ok (tt, s).
Proof. intros Ho. by destruct (Z.eqb_spec o RT_NULL). Qed.
Lemma assert_type_run o c ob s :
  o <> RT_NULL -> objs s !! o = Some ob -> has_type c ob -> assert_type o c s = Ok (tt, s).
Proof.
  intros Ho Hob Hty. unfold assert_type, rt_object_get_type. rewrite bind_assoc.
  erewrite bind_run; [cbv beta|by apply assert_nonnull_run]. rewrite bind_assoc.
  erewrite bind_run; [cbv beta|by apply get_obj_run].
  erewrite bind_run; [cbv beta|reflexivity]. unfold has_type in Hty.
  by rewrite Hty, Z.eqb_refl.
Qed.

Lemma timer_position_run b x l s :
  (forall t, t ∈ l -> is_Some (timers s !! t) /\ rel b s t < HALF_TICK_MAX) ->
  u32 (x - b) < HALF_TICK_MAX ->
  exists pre suf, timer_position x l s = Ok ((pre, suf), s) /\ l = pre ++ suf /\
    (forall t, t ∈ pre -> rel b s t <= u32 (x - b)) /\
    (forall t, head suf = Some t -> u32 (x - b) < rel b s t).
Proof.
  intros Hl Hx. induction l as [|t l IH]; cbn [timer_position].
  { exists [], []. set_solver. }
  destruct (Hl t) as [[tm Ht] Hr]; [left|]. unfold rel, tmo in Hr. rewrite Ht in Hr. cbn in Hr.
  erewrite bind_run; [cbv beta zeta|by apply get_timer_run].
  pose proof (tick_order b _ _ Hr Hx) as Hord. destruct (_ && _)%bool.
  - exists [], (t :: l). split_and!; [done|done|set_solver|]. intros ? [= <-].
    unfold rel, tmo. rewrite Ht. by apply Hord.
  - destruct IH as (pre & suf & Hrun & -> & Hp & Hs); [set_solver|].
    erewrite bind_run; [cbv beta|exact Hrun]. exists (t :: pre), suf.
    split_and!; [done|done| |done]. intros u [->|Hu]%elem_of_cons; [|by apply Hp].
    unfold rel, tmo. rewrite Ht. cbn. apply Z.nlt_ge. intros Hlt. by apply Hord in Hlt.
Qed.

(** the state in which rt_timer_start leaves a timer inserted between [pre]
    and [suf] *)
Definition tm_started (t : Z) (pre suf : list Z) (tm : rt_timer) (ob : rt_object)
    (s : kstate) : kstate :=
  set_objs (<[t := ob_set_flag (Z.lor (Z.land (o_flag ob) (Z.lnot RT_TIMER_FLAG_ACTIVATED))
      RT_TIMER_FLAG_ACTIVATED) ob]>)
    (set_rt_timer_list (fun _ => pre ++ t :: suf)
    (set_random_nr (fun n => u32 (n + 1))
    (set_timers (<[t := tm_set_timeout (u32 (rt_tick s + tm_init_tick tm)) tm]>)
    (set_check_list (lremove t) s)))).

Lemma sorted_lremove (R : Z -> Z -> Prop) t l :
  StronglySorted R l -> StronglySorted R (lremove t l).
Proof.
  induction 1 as [|x l Hl IH Hx]; [constructor|]. unfold lremove.
  rewrite filter_cons. case_decide; [|done]. constructor; [done|].
  apply Forall_forall. intros y [Hy _]%elem_of_lremove. rewrite Forall_forall in Hx. by apply Hx.
Qed.

Lemma sorted_impl (R R' : Z -> Z -> Prop) l :
  StronglySorted R l -> (forall x y, x ∈ l -> y ∈ l -> R x y -> R' x y) ->
  StronglySorted R' l.
Proof.
  induction 1 as [|x l Hl IH Hx]; intros HR; constructor.
  - apply IH. intros. apply HR; set_solver.
  - rewrite Forall_forall in *. intros y Hy. apply HR; set_solver.
Qed.

Lemma rel_frame b s s' t : timers s' !! t = timers s !! t -> rel b s' t = rel b s t.
Proof. unfold rel, tmo. by intros ->. Qed.

Lemma rt_timer_start_run b t tm ob s :
  t <> RT_NULL -> objs s !! t = Some ob -> has_type RT_Object_Class_Timer ob ->
  timers s !! t = Some tm -> 0 <= tm_init_tick tm ->
  timer_sorted b s -> u32 (rt_tick s - b) + tm_init_tick tm < HALF_TICK_MAX ->
  exists pre suf, rt_timer_start t s = Ok (RT_EOK, tm_started t pre suf tm ob s) /\
    lremove t (rt_timer_list s) = pre ++ suf /\
    (forall u, u ∈ pre -> rel b s u <= u32 (rt_tick s - b) + tm_init_tick tm) /\
    (forall u, u ∈ suf -> u32 (rt_tick s - b) + tm_init_tick tm < rel b s u).
Proof.
  intros Hnn Hob Hty Htm Hi [Hrel Hsort] Hb. unfold rt_timer_start.
  erewrite bind_run; [cbv beta|by apply assert_nonnull_run].
  erewrite bind_run; [cbv beta|by eapply assert_type_run].
  erewrite bind_run; [cbv beta|reflexivity].
  erewrite bind_run; [cbv beta|by apply upd_obj_run].
  rewrite bind_assoc. erewrite bind_run; [cbv beta|by apply get_timer_run].
  assert (tm_init_tick tm < HALF_TICK_MAX) as ->%Z.ltb_lt
    by (pose proof (u32_range (rt_tick s - b)); lia).
  erewrite bind_run; [cbv beta|reflexivity].
  rewrite bind_assoc. erewrite bind_run; [cbv beta|reflexivity].
  erewrite bind_run; [cbv beta|by apply upd_timer_run].
  erewrite bind_run; [cbv beta|apply get_timer_run, lookup_insert_eq].
  erewrite bind_run; [cbv beta|reflexivity]. cbn [timeout_tick tm_set_timeout].
  assert (Hx : u32 (u32 (rt_tick s + tm_init_tick tm) - b) =
    u32 (rt_tick s - b) + tm_init_tick tm).
  { pose proof (u32_range (rt_tick s - b)). unfold u32, HALF_TICK_MAX, RT_TICK_MAX in *.
    rewrite Zminus_mod_idemp_l. replace (rt_tick s + tm_init_tick tm - b)
      with ((rt_tick s - b) + tm_init_tick tm) by lia.
    rewrite <- Zplus_mod_idemp_l. apply Z.mod_small. change (4294967295 / 2) with 2147483647 in *. lia. }
  match goal with |- context [timer_position ?x ?l] =>
    match goal with |- context [bind (timer_position x l) _ ?s1] =>
      destruct (timer_position_run b x (lremove t (rt_timer_list s)) s1)
        as (pre & suf & Hrun & Hsplit & Hpre & Hsuf) end end.
  { intros u [Hu Hne]%elem_of_lremove. cbn. rewrite lookup_insert_ne by done.
    rewrite (rel_frame b s) by (cbn; by rewrite lookup_insert_ne). by apply Hrel. }
  { change (u32 (u32 (rt_tick s + tm_init_tick tm) - b) < HALF_TICK_MAX). lia. }
  cbn [set_rt_timer_list rt_timer_list set_timers rt_tick set_objs set_check_list] in *.
  erewrite bind_run; [cbv beta|exact Hrun].
  rewrite Hx in *. exists pre, suf.
  assert (Hf : forall u, u ∈ lremove t (rt_timer_list s) -> forall v,
    rel b (set_timers <[t := v]> s) u = rel b s u).
  { intros u [_ Hne]%elem_of_lremove v. apply rel_frame. cbn. by rewrite lookup_insert_ne. }
  split_and!; [|done| |].
  - erewrite bind_run; [cbv beta|reflexivity].
    unfold timer_list_insert. rewrite bind_assoc.
    erewrite bind_run; [cbv beta|reflexivity]. cbn [fst snd].
    unfold timer_linked. rewrite bool_decide_eq_false_2.
    2: { cbn. by intros [[_ ?]%elem_of_lremove|[_ ?]%elem_of_lremove]. }
    erewrite bind_run; [cbv beta|reflexivity].
    erewrite bind_run; [cbv beta|apply upd_obj_run; cbn; apply lookup_insert_eq].
    unfold ret, tm_started. kstate_eq. by rewrite insert_insert_eq.
  - intros u Hu. erewrite <- Hf by (rewrite Hsplit; set_solver). by apply Hpre.
  - pose proof (sorted_lremove _ t _ Hsort) as Hs. rewrite Hsplit in Hs.
    apply StronglySorted_app_1_r in Hs.
    intros u Hu. destruct suf as [|v suf]; [by apply elem_of_nil in Hu|].
    assert (Hv : u32 (rt_tick s - b) + tm_init_tick tm < rel b s v).
    { erewrite <- Hf by (rewrite Hsplit; set_solver). by apply Hsuf. }
    apply elem_of_cons in Hu as [->|Hu]; [done|].
    apply StronglySorted_inv in Hs as [_ Hs]. rewrite Forall_forall in Hs.
    specialize (Hs _ Hu). lia.
Qed.

Lemma started_sorted b t pre suf tm ob s :
  timer_sorted b s -> lremove t (rt_timer_list s) = pre ++ suf ->
  timers s !! t = Some tm ->
  let x := u32 (rt_tick s - b) + tm_init_tick tm in
  0 <= tm_init_tick tm -> x < HALF_TICK_MAX ->
  (forall u, u ∈ pre -> rel b s u <= x) -> (forall u, u ∈ suf -> x < rel b s u) ->
  timer_sorted b (tm_started t pre suf tm ob s) /\
  rel b (tm_started t pre suf tm ob s) t = x.
Proof.
  intros [Hrel Hsort] Hsplit Htm x Hi Hb Hpre Hsuf.
  pose proof (sorted_lremove _ t _ Hsort) as Hs. rewrite Hsplit in Hs.
  assert (Hother : forall u, u <> t -> rel b (tm_started t pre suf tm ob s) u = rel b s u).
  { intros u Hu. apply rel_frame. cbn. by rewrite lookup_insert_ne. }
  assert (Hne : forall u, u ∈ pre ++ suf -> u <> t /\ u ∈ rt_timer_list s).
  { intros u Hu. rewrite <- Hsplit in Hu. apply elem_of_lremove in Hu. tauto. }
  assert (Ht : rel b (tm_started t pre suf tm ob s) t = x).
  { unfold rel, tmo, tm_started. cbn. rewrite lookup_insert_eq. cbn. subst x.
    pose proof (u32_range (rt_tick s - b)). unfold u32, HALF_TICK_MAX, RT_TICK_MAX in *.
    rewrite Zminus_mod_idemp_l. replace (rt_tick s + tm_init_tick tm - b)
      with ((rt_tick s - b) + tm_init_tick tm) by lia.
    rewrite <- Zplus_mod_idemp_l. apply Z.mod_small.
    change (4294967295 / 2) with 2147483647 in *. lia. }
  split; [|done]. split.
  - cbn. intros u Hu. destruct (decide (u = t)) as [->|Hut].
    + rewrite lookup_insert_eq, Ht. by split.
    + rewrite lookup_insert_ne, Hother by done. apply Hrel.
      apply Hne. set_solver.
  - cbn [rt_timer_list tm_started set_objs set_rt_timer_list].
    apply StronglySorted_app in Hs as (Hs1 & Hs2 & Hs3).
    apply StronglySorted_app. split_and!.
    + intros u v Hu [->|Hv]%elem_of_cons.
      * rewrite Ht, Hother by (apply Hne; set_solver). by apply Hpre.
      * rewrite !Hother by (apply Hne; set_solver). by apply Hs1.
    + eapply sorted_impl; [exact Hs2|]. intros u v Hu Hv.
      by rewrite !Hother by (apply Hne; set_solver).
    + constructor.
      * eapply sorted_impl; [exact Hs3|]. intros u v Hu Hv.
        by rewrite !Hother by (apply Hne; set_solver).
      * apply Forall_forall. intros u Hu. rewrite Ht, Hother by (apply Hne; set_solver).
        specialize (Hsuf _ Hu). lia.
Qed.

(** * rt_timer_check fires exactly the expired timers *)

(** the part of the state that timers live in *)
Definition same_timers (s s' : kstate) : Prop :=
  timers s' = timers s /\ objs s' = objs s /\ rt_timer_list s' = rt_timer_list s /\
  check_list s' = check_list s /\ rt_tick s' = rt_tick s.

Lemma same_timers_trans s1 s2 s3 :
  same_timers s1 s2 -> same_timers s2 s3 -> same_timers s1 s3.
Proof. unfold same_timers. intuition congruence. Qed.
Lemma rt_schedule_quiet s a s' : rt_schedule s = Ok (a, s') -> same_timers s s'.
Proof.
  intros Hm. unfold rt_schedule, rt_hw_context_switch_interrupt in Hm. minv Hm; done.
Qed.
Lemma rt_thread_timeout_quiet thread s a s' :
  rt_thread_timeout thread s = Ok (a, s') -> same_timers s s'.
Proof.
  intros Hm. unfold rt_thread_timeout in Hm. minv Hm.
  eapply same_timers_trans; [|by eapply rt_schedule_quiet].
  match goal with H : rt_schedule_insert_thread _ _ = _ |- _ =>
    apply rt_schedule_insert_thread_inv in H as (? & ? & ? & ? & ? & ->) end.
  done.
Qed.

(** application callbacks that leave the timers alone *)
Class QuietCallbacks (UC : UserCode) :=
  user_timeout_quiet : forall addr param s a s',
    user_timeout addr param s = Ok (a, s') -> same_timers s s'.

Definition periodic (ob : rt_object) : bool :=
  truthy (Z.land (o_flag ob) RT_TIMER_FLAG_PERIODIC).
(** a timer that rt_timer_start accepts, its next period being in range; the
    period of a periodic timer is not 0 *)
Definition armed (b : Z) (s : kstate) (t : Z) : Prop :=
  t <> RT_NULL /\
  exists ob tm, objs s !! t = Some ob /\ has_type RT_Object_Class_Timer ob /\
    timers s !! t = Some tm /\ 0 <= tm_init_tick tm /\
    (periodic ob = true -> 0 < tm_init_tick tm) /\
    u32 (rt_tick s - b) + tm_init_tick tm < HALF_TICK_MAX.

Definition expired (s : kstate) (t : Z) : Prop := u32 (rt_tick s - tmo s t) < HALF_TICK_MAX.
#[export] Instance expired_dec s t : Decision (expired s t).
Proof. unfold expired. apply _. Defined.

(** from [b], a timer has expired when it is not later than the present *)
Lemma expired_rel b s t :
  rel b s t < HALF_TICK_MAX -> u32 (rt_tick s - b) < HALF_TICK_MAX ->
  expired s t <-> rel b s t <= u32 (rt_tick s - b).
Proof.
  intros Hr Hn. pose proof (tick_order b (rt_tick s) (tmo s t) Hn Hr) as Ho.
  unfold expired. rewrite andb_true_iff, negb_true_iff, Z.eqb_neq, Z.ltb_lt in Ho.
  fold (rel b s t) in Ho. destruct (decide (u32 (rt_tick s - tmo s t) = 0)) as [Hz|].
  - rewrite Hz. split; [|done]. intros _.
    pose proof (tick_order b (tmo s t) (rt_tick s) Hr Hn) as Ho'.
    unfold rel. apply Z.nlt_ge. intros Hlt. apply Ho' in Hlt.
    apply andb_true_iff in Hlt as [Hlt _]. rewrite negb_true_iff, Z.eqb_neq in Hlt.
    apply Hlt. unfold u32 in *. apply Z.mod_opp_l_z in Hz; [|lia].
    by replace (tmo s t - rt_tick s) with (- (rt_tick s - tmo s t)) by lia.
  - split; intros H; [|destruct (decide (rel b s t = u32 (rt_tick s - b))) as [He|]].
    + apply Z.lt_le_incl, Ho. done.
    + exfalso. apply n. unfold rel, u32 in *.
      replace (rt_tick s - tmo s t) with ((rt_tick s - b) - (tmo s t - b)) by lia.
      by rewrite Zminus_mod, He, Z.sub_diag.
    + apply Ho. lia.
Qed.

Lemma periodic_clear ob :
  periodic (ob_set_flag (Z.land (o_flag ob) (Z.lnot RT_TIMER_FLAG_ACTIVATED)) ob) = periodic ob.
Proof. unfold periodic. cbn. by rewrite <- Z.land_assoc. Qed.

Section fires.
Context `{QC : QuietCallbacks}.

Lemma call_timeout_quiet f param s a s' :
  call_timeout f param s = Ok (a, s') -> same_timers s s'.
Proof using QC.
  destruct f; cbn; [apply rt_thread_timeout_quiet|apply QC].
Qed.

(** what one expiry leaves behind: the timer is off the list, or back on it
    one period later *)
Record expire_effect (b t : Z) (s s' : kstate) : Prop := {
  ee_tick : rt_tick s' = rt_tick s;
  ee_check : check_list s' = [];
  ee_timers : forall u, u <> t -> timers s' !! u = timers s !! u;
  ee_objs : forall u, u <> t -> objs s' !! u = objs s !! u;
  ee_sorted : timer_sorted b s';
  ee_list : rt_timer_list s' = lremove t (rt_timer_list s) \/
    exists pre suf, lremove t (rt_timer_list s) = pre ++ suf /\
      rt_timer_list s' = pre ++ t :: suf /\ armed b s' t /\
      u32 (rt_tick s - b) < rel b s' t /\
      (forall u, u ∈ suf -> u32 (rt_tick s - b) < rel b s u);
}.

Lemma timer_sorted_frame b s s' t :
  timer_sorted b s -> rt_timer_list s' = lremove t (rt_timer_list s) ->
  (forall u, u <> t -> timers s' !! u = timers s !! u) -> timer_sorted b s'.
Proof.
  intros [Hrel Hsort] Hl Ht. split; rewrite Hl.
  - intros u [Hu Hne]%elem_of_lremove. erewrite rel_frame by (by apply Ht).
    rewrite Ht by done. by apply Hrel.
  - eapply sorted_impl; [by apply sorted_lremove|].
    intros u v [_ Hu]%elem_of_lremove [_ Hv]%elem_of_lremove.
    by erewrite !(rel_frame b s s') by (by apply Ht).
Qed.

(** the state from which a periodic timer is restarted *)
Lemma timer_restart_effect b t s s1 r s' :
  timer_sorted b s -> armed b s t ->
  rt_tick s1 = rt_tick s -> timers s1 = timers s ->
  rt_timer_list s1 = lremove t (rt_timer_list s) -> check_list s1 = [] ->
  (forall u, u <> t -> objs s1 !! u = objs s !! u) ->
  (exists ob, objs s1 !! t = Some ob /\ has_type RT_Object_Class_Timer ob) ->
  (forall tm, timers s !! t = Some tm -> 0 < tm_init_tick tm) ->
  rt_timer_start t s1 = Ok (r, s') -> expire_effect b t s s'.
Proof using.
  intros Hs (Hnn & _ & tm & _ & _ & Htm & _ & _ & Hb) Etick Etm El Ec Eob
    (ob & Hob & Hty) Hi Hm. specialize (Hi _ Htm).
  assert (Hs1 : timer_sorted b s1).
  { eapply timer_sorted_frame; [exact Hs|exact El|]. by rewrite Etm. }
  rewrite <- Etick in Hb. rewrite <- Etm in Htm.
  destruct (rt_timer_start_run b t tm ob s1) as (pre & suf & Hrun & Hsplit & Hpre & Hsuf);
    [done..|lia|done|lia|].
  rewrite Hrun in Hm. injection Hm as <- <-.
  destruct (started_sorted b t pre suf tm ob s1) as [Hsort Hrel]; [done..|lia|lia|done|done|].
  split; [done| |..].
  - cbn. by rewrite Ec.
  - intros u Hu. cbn. by rewrite lookup_insert_ne, Etm.
  - intros u Hu. cbn. rewrite lookup_insert_ne by done. by apply Eob.
  - done.
  - right. exists pre, suf. rewrite El in Hsplit.
    rewrite lremove_idem in Hsplit. rewrite <- Etick in *. split_and!; [done|done| |lia|].
    + split; [done|]. do 2 eexists. cbn. rewrite !lookup_insert_eq.
      split_and!; [done|done|done|cbn; lia..].
    + intros u Hu. specialize (Hsuf u Hu).
      rewrite <- (rel_frame b s s1) by (by rewrite Etm). lia.
Qed.

Lemma timer_expire_effect b t s a s' :
  timer_sorted b s -> armed b s t -> check_list s = [] ->
  timer_expire t s = Ok (a, s') -> expire_effect b t s s'.
Proof using QC.
  intros Hs Ha Hc Hm. pose proof Ha as (_ & ob & tm & Hob & Hty & Htm & _ & Hper & _).
  unfold timer_expire, check_list_insert, _rt_timer_remove, clear_flag in Hm. minv Hm;
    match goal with H : call_timeout _ _ _ = _ |- _ =>
      apply call_timeout_quiet in H as (Et & Eo & El & Ec & Ek) end;
    cbn in Et, Eo, El, Ec, Ek; rewrite Hc in Ec; try congruence;
    match goal with H : objs _ !! t = Some ?o |- _ =>
      cbn in H; rewrite Hob in H; injection H as <- end.
  all: change (t :: filter (fun y : Z => y <> t) []) with [t] in Ec;
    assert (Hne : forall u, u <> t -> objs s1 !! u = objs s0 !! u)
      by (intros u Hu; rewrite Eo, ?lookup_insert_ne by done; done);
    assert (Htt : exists ob1, objs s1 !! t = Some ob1 /\
        has_type RT_Object_Class_Timer ob1 /\ periodic ob1 = periodic ob)
      by (rewrite Eo, ?lookup_insert_eq, ?Hob; eexists; split_and!;
          [reflexivity|done|try apply periodic_clear; done]).
  all: lazymatch goal with
    | H : rt_timer_start _ ?s2 = _ |- _ =>
        eapply (timer_restart_effect b t s0 s2);
          [exact Hs|exact Ha|exact Ek|exact Et| | | | | |exact H];
        cbn; [rewrite El; apply lremove_idem|rewrite Ec; apply lremove_single
          |by intros u Hu; rewrite lookup_insert_ne; auto
          |rewrite lookup_insert_eq; eexists; split; [reflexivity|]|]
    | _ => split; cbn; [exact Ek|rewrite Ec; apply lremove_single|by rewrite Et|exact Hne
          | |left; rewrite El; apply lremove_idem]
    end.
  1, 2, 4, 5: destruct Htt as (ob1 & E1 & Hty1 & Hp1); cbn in Hthe2; rewrite E1 in Hthe2;
    injection Hthe2 as <-; apply andb_prop in Hwhen0 as [Hp2 _];
    try exact Hty1; intros tm' Htm'; rewrite Hthe in Htm'; injection Htm' as <-;
    apply Hper; by rewrite <- Hp1.
  all: eapply timer_sorted_frame; [exact Hs|cbn; rewrite El; apply lremove_idem|cbn; by rewrite Et].
Qed.

Lemma armed_frame b s s' u :
  armed b s u -> rt_tick s' = rt_tick s -> timers s' !! u = timers s !! u ->
  objs s' !! u = objs s !! u -> armed b s' u.
Proof using. unfold armed. by intros Ha -> -> ->. Qed.

Lemma timer_check_loop_spec b ex : forall pend s fuel,
  rt_timer_list s = ex ++ pend -> NoDup (rt_timer_list s) -> check_list s = [] ->
  timer_sorted b s -> (forall t, t ∈ rt_timer_list s -> armed b s t) ->
  u32 (rt_tick s - b) < HALF_TICK_MAX ->
  (forall t, t ∈ ex -> rel b s t <= u32 (rt_tick s - b)) ->
  (forall t, t ∈ pend -> u32 (rt_tick s - b) < rel b s t) ->
  (length ex < fuel)%nat ->
  timer_check_loop fuel (rt_tick s) s = for_each timer_expire ex s.
Proof using QC.
  induction ex as [|t ex IH]; intros pend s fuel El Hnd Hc Hs Ha Hn Hex Hpend Hf;
    destruct fuel as [|fuel]; cbn in Hf; try lia; cbn [timer_check_loop for_each].
  - erewrite bind_run; [cbv beta|reflexivity]. rewrite El. cbn [app].
    destruct pend as [|u pend]; [done|].
    destruct (ts_rel _ _ Hs u) as [[tm Hu] Hr]; [rewrite El; left|].
    erewrite bind_run; [cbv beta|by apply get_timer_run].
    destruct (u32 (rt_tick s - timeout_tick tm) <? HALF_TICK_MAX) eqn:E; [|done].
    exfalso. apply Z.ltb_lt in E. specialize (Hpend u ltac:(left)).
    assert (expired s u) as Hx by (unfold expired, tmo; by rewrite Hu).
    apply (expired_rel b) in Hx; [lia|done..].
  - erewrite bind_run; [cbv beta|reflexivity]. rewrite El. cbn [app].
    destruct (ts_rel _ _ Hs t) as [[tm Ht] Hr]; [rewrite El; left|].
    erewrite bind_run; [cbv beta|by apply get_timer_run].
    assert (expired s t) as Hx by (apply (expired_rel b); [done..|apply Hex; left]).
    unfold expired, tmo in Hx. rewrite Ht in Hx. cbn in Hx. rewrite (proj2 (Z.ltb_lt _ _) Hx).
    unfold bind at 1 3. destruct (timer_expire t s) as [[a s1]|f] eqn:Er; [|done].
    apply (timer_expire_effect b) in Er as [Etk Eck Etm Eob Est Elst];
      [|done|apply Ha; rewrite El; left|done].
    erewrite bind_run; [cbv beta|reflexivity].
    rewrite El in Hnd, Elst. cbn [app] in Hnd, Elst.
    apply NoDup_cons in Hnd as [Hnin Hnd]. rewrite lremove_cons_eq in Elst by done.
    assert (Hne : forall u, u ∈ ex ++ pend -> u <> t) by (intros u Hu ->; done).
    assert (Hrel1 : forall u, u ∈ ex ++ pend -> rel b s1 u = rel b s u).
    { intros u Hu. apply rel_frame. auto. }
    assert (Harm1 : forall u, u ∈ ex ++ pend -> armed b s1 u).
    { intros u Hu. eapply armed_frame; [|done|by apply Etm, Hne|by apply Eob, Hne].
      apply Ha. rewrite El. by right. }
    assert (exists pend1, rt_timer_list s1 = ex ++ pend1 /\ NoDup (ex ++ pend1) /\
      (forall u, u ∈ ex ++ pend1 -> armed b s1 u) /\
      (forall u, u ∈ pend1 -> u32 (rt_tick s - b) < rel b s1 u)) as
      (pend1 & El1 & Hnd1 & Ha1 & Hp1).
    { destruct Elst as [El1|(pre & suf & Hsp & El1 & Hat & Hrt & Hsuf)].
      - exists pend. split_and!; [done|done|done|]. intros u Hu.
        rewrite Hrel1 by set_solver. by apply Hpend.
      - assert (exists k, pre = ex ++ k /\ pend = k ++ suf) as (k & -> & ->).
        { destruct (app_eq_inv _ _ _ _ Hsp) as [([|v k] & E1 & E2)|(k & -> & ->)];
            [exists []; by rewrite E2, app_nil_r, E1, app_nil_r| |by exists k].
          specialize (Hex v ltac:(set_solver)). specialize (Hsuf v ltac:(set_solver)). lia. }
        rewrite <- app_assoc in El1. exists (k ++ t :: suf).
        assert (Hperm : ex ++ k ++ t :: suf ≡ₚ t :: ex ++ k ++ suf) by solve_Permutation.
        split_and!; [done| | |].
        + rewrite Hperm. by apply NoDup_cons.
        + intros u. rewrite Hperm. intros [->|Hu]%elem_of_cons; auto.
        + intros u Hu. destruct (decide (u = t)) as [->|]; [done|].
          rewrite Hrel1 by set_solver. apply Hpend. set_solver. }
    rewrite Etk, <- Etk. eapply (IH pend1); rewrite ?El1, ?Etk; try done; try lia.
    + intros u Hu. rewrite Hrel1 by set_solver. apply Hex. by right.
Qed.
End fires.

(** the running timers that have expired, in timeout order *)
Definition expired_timers (s : kstate) : list Z := filter (expired s) (rt_timer_list s).

Lemma sorted_split b s l :
  StronglySorted (fun t u => rel b s t <= rel b s u) l ->
  (forall t, t ∈ l -> rel b s t < HALF_TICK_MAX) -> u32 (rt_tick s - b) < HALF_TICK_MAX ->
  exists pend, l = filter (expired s) l ++ pend /\
    (forall t, t ∈ pend -> u32 (rt_tick s - b) < rel b s t).
Proof.
  intros Hs Hl Hn. induction Hs as [|t l Hs IH Ht]; [exists []; set_solver|].
  rewrite filter_cons. case_decide as Hx.
  - destruct IH as (pend & E & Hp); [set_solver|]. exists pend. split; [|done].
    by rewrite <- app_comm_cons, <- E.
  - rewrite (expired_rel b) in Hx by (done || apply Hl; left). exists (t :: l).
    rewrite Forall_forall in Ht.
    assert (Hlater : forall u, u ∈ t :: l -> u32 (rt_tick s - b) < rel b s u).
    { intros u [->|Hu]%elem_of_cons; [lia|]. specialize (Ht _ Hu). cbn in Ht. lia. }
    split; [|done]. destruct (filter (expired s) l) as [|u k] eqn:E; [done|].
    exfalso. assert (expired s u /\ u ∈ l) as [Hxu Hu].
    { apply (list_elem_of_filter (expired s)). rewrite E. left. }
    apply (expired_rel b) in Hxu; [|apply Hl; by right|done].
    specialize (Hlater u ltac:(by right)). lia.
Qed.

(** C8: rt_timer_start inserts a timer stably into the sorted timer list:
    whatever reference tick [b] orders the running timers, the list stays
    sorted by timeout, the started timer expires [tm_init_tick] ticks from
    now, stands behind every timer that is not later and before every later
    one, and is marked active. *)
Theorem rt_timer_start_sorted (b t : Z) (tm : rt_timer) (ob : rt_object) (s : kstate) :
  t <> RT_NULL -> objs s !! t = Some ob -> has_type RT_Object_Class_Timer ob ->
  timers s !! t = Some tm -> 0 <= tm_init_tick tm ->
  timer_sorted b s -> u32 (rt_tick s - b) + tm_init_tick tm < HALF_TICK_MAX ->
  wp (rt_timer_start t) (fun r s' => r = RT_EOK /\ timer_sorted b s' /\
    tmo s' t = u32 (rt_tick s + tm_init_tick tm) /\
    (exists pre suf, lremove t (rt_timer_list s) = pre ++ suf /\
      rt_timer_list s' = pre ++ t :: suf /\
      (forall u, u ∈ pre -> rel b s' u <= rel b s' t) /\
      (forall u, u ∈ suf -> rel b s' t < rel b s' u)) /\
    exists ob', objs s' !! t = Some ob' /\
      Z.testbit (o_flag ob') 0 = true) s.
Proof.
  intros Hnn Hob Hty Htm Hi Hs Hb.
  destruct (rt_timer_start_run b t tm ob s) as (pre & suf & Hrun & Hsplit & Hpre & Hsuf);
    [done..|].
  destruct (started_sorted b t pre suf tm ob s) as [Hsort Hrel]; [done..|].
  eapply wp_intro; [exact Hrun|]. split_and!; [done|done| | |].
  - unfold tmo. cbn. by rewrite lookup_insert_eq.
  - exists pre, suf. rewrite Hrel.
    assert (forall u, u ∈ pre ++ suf -> rel b (tm_started t pre suf tm ob s) u = rel b s u) as Hf.
    { intros u. rewrite <- Hsplit, elem_of_lremove. intros [_ Hne]. apply rel_frame. cbn.
      by rewrite lookup_insert_ne. }
    split_and!; [done|done| |]; intros u Hu; rewrite Hf by set_solver; auto.
  - eexists. split; [apply lookup_insert_eq|]. cbn [o_flag ob_set_flag].
    by rewrite Z.lor_spec, orb_true_r.
Qed.

(** rt_timer_check is the expiry of the expired timers *)
Lemma rt_timer_check_run `{QC : QuietCallbacks} (b : Z) (fuel : nat) (s : kstate) :
  timer_sorted b s -> NoDup (rt_timer_list s) ->
  (forall t, t ∈ rt_timer_list s -> armed b s t) ->
  u32 (rt_tick s - b) < HALF_TICK_MAX -> (length (rt_timer_list s) < fuel)%nat ->
  rt_timer_check fuel s =
    (modify (set_check_list (fun _ => []));; for_each timer_expire (expired_timers s)) s.
Proof.
  intros Hs Hnd Ha Hn Hf. unfold rt_timer_check.
  erewrite !bind_run by reflexivity. cbn [rt_tick set_check_list].
  destruct (sorted_split b s (rt_timer_list s)) as (pend & El & Hp);
    [apply Hs|intros t Ht; by apply (ts_rel _ _ Hs)|done|].
  fold (expired_timers s) in El.
  eapply (timer_check_loop_spec b (expired_timers s) pend (set_check_list (fun _ => []) s));
    try done.
  - by split; apply Hs.
  - intros t Ht. assert (expired s t /\ t ∈ rt_timer_list s) as [Hx Hin].
    { by apply (list_elem_of_filter (expired s)). }
    apply (expired_rel b) in Hx; [done|by apply (ts_rel _ _ Hs)|done].
  - pose proof (length_filter (expired s) (rt_timer_list s)). unfold expired_timers. lia.
Qed.

(** C7: rt_timer_check, given one unit of fuel more than there are timers, is
    exactly the expiry, in timeout order, of the timers whose time has come:
    it terminates, fires each of them once and no other, also when periodic
    timers re-arm themselves meanwhile. *)
Theorem rt_timer_check_fires `{QC : QuietCallbacks} (b : Z) (fuel : nat) (s : kstate) :
  timer_sorted b s -> NoDup (rt_timer_list s) ->
  (forall t, t ∈ rt_timer_list s -> armed b s t) ->
  u32 (rt_tick s - b) < HALF_TICK_MAX -> (length (rt_timer_list s) < fuel)%nat ->
  rt_timer_check fuel s =
    (modify (set_check_list (fun _ => []));; for_each timer_expire (expired_timers s)) s.
Proof. apply rt_timer_check_run. Qed.

(** At one tick per millisecond, a delay of [ms] >= 0 milliseconds is
    [ms] ticks, also for the largest argument, and a negative argument is
    RT_WAITING_FOREVER. *)
Theorem rt_tick_from_millisecond_exact (ms : Z) :
  -2147483648 <= ms < 2147483648 ->
  rt_tick_from_millisecond ms = (if ms <? 0 then u32 RT_WAITING_FOREVER else ms).
Proof.
  intros Hms. unfold rt_tick_from_millisecond, RT_TICK_PER_SECOND.
  destruct (Z.ltb_spec ms 0); [done|].
  pose proof (Z.mod_pos_bound ms 1000 ltac:(lia)). pose proof (Z.div_mod ms 1000 ltac:(lia)).
  replace ((1000 * (ms mod 1000) + 999) / 1000) with (ms mod 1000).
  { rewrite u32_small; lia. }
  apply (Z.div_unique _ _ _ 999); lia.
Qed.
