(* ===== verification/Thread.v ===== *)
(** Threads, rt-thread/kernel/src/thread.c, with rt_tick_increase of clock.c,
    which drives time slices and timers.  A call that suspends its caller is
    modelled in two parts: the part up to the rt_schedule that switches away,
    and a [_resumed] part that runs once the thread is current again. *)
From S2P Require Import Prelude KService Mem CpuPort Kernel Sched Object Timer.

(** what a call that may block has come to: it returned, or its thread waits
    with the local variables [w] of the rest of the call *)
Inductive outcome (R W : Type) :=
  | Done (r : R)
  | Pending (w : W).
Arguments Done {R W} r.
Arguments Pending {R W} w.

Definition RT_THREAD_CTRL_STARTUP : Z := 0.
Definition RT_THREAD_CTRL_CLOSE : Z := 1.
Definition RT_THREAD_CTRL_CHANGE_PRIORITY : Z := 2.

(** 1L << priority *)
Definition prio_mask (priority : Z) : Z := u32 (Z.shiftl 1 priority).

Definition thread_stat (t : Z) : K Z := let* th := get_thread t in ret (stat_of th).
#[export] Hint Unfold thread_stat : minv.

(** * Definitions *)
Section thread.
Context {UC : UserCode}.

Definition _thread_cleanup_execute (thread : Z) : K unit :=
  let* th := get_thread thread in
  when (negb (cleanup th =? RT_NULL)) (user_cleanup (cleanup th) thread).

Definition rt_thread_exit : K unit :=
  let* thread := gets rt_current_thread in
  _thread_cleanup_execute thread;;
  rt_schedule_remove_thread thread;;
  upd_thread thread (th_set_stat RT_THREAD_CLOSE);;
  rt_timer_detach (thread_timer thread);;
  (let* b := rt_object_is_systemobject thread in
   if b then rt_object_detach thread
   else queue_insert_head QDefunct thread);;
  rt_schedule.

(** the stack bytes are part of [ram]; the event fields are not touched *)
Definition _rt_thread_init (thread entry param stack_start stack_size priority tick : Z) : K Z :=
  tlist_init thread;;
  on_heap (on_ram (rt_memset stack_start 35 stack_size));;
  let* sp := on_heap (on_ram
    (rt_hw_stack_init entry param (u32 (stack_start + stack_size - 4)) addr_rt_thread_exit)) in
  rt_assert (priority <? RT_THREAD_PRIORITY_MAX);;
  modify (fun s => set_threads (<[thread := {|
    sp := sp; Kernel.entry := entry; t_parameter := param;
    stack_addr := stack_start; Kernel.stack_size := stack_size;
    error := RT_EOK; stat := RT_THREAD_INIT;
    current_priority := priority; init_priority := priority; number_mask := 0;
    event_set := default 0 (event_set <$> threads s !! thread);
    event_info := default 0 (event_info <$> threads s !! thread);
    t_init_tick := tick; remaining_tick := tick; cleanup := 0; user_data := 0 |}]>) s);;
  let* ob := get_obj thread in
  rt_timer_init (thread_timer thread) (o_name ob) Fn_rt_thread_timeout thread 0
    RT_TIMER_FLAG_ONE_SHOT;;
  ret RT_EOK.

Definition rt_thread_init (thread : Z) (name : list Z)
    (entry param stack_start stack_size priority tick : Z) : K Z :=
  rt_assert (negb (thread =? RT_NULL));;
  rt_assert (negb (stack_start =? RT_NULL));;
  rt_object_init thread RT_Object_Class_Thread name;;
  _rt_thread_init thread entry param stack_start stack_size priority tick.

Definition rt_thread_self : K Z := gets rt_current_thread.

Definition rt_thread_suspend (thread : Z) : K Z :=
  rt_assert (negb (thread =? RT_NULL));;
  assert_type thread RT_Object_Class_Thread;;
  let* st := thread_stat thread in
  if negb (st =? RT_THREAD_READY) then ret (- RT_ERROR)
  else
    rt_schedule_remove_thread thread;;
    upd_thread thread (fun th => th_set_stat (with_stat RT_THREAD_SUSPEND (stat th)) th);;
    rt_timer_stop (thread_timer thread);;
    ret RT_EOK.

Definition rt_thread_resume (thread : Z) : K Z :=
  rt_assert (negb (thread =? RT_NULL));;
  assert_type thread RT_Object_Class_Thread;;
  let* st := thread_stat thread in
  if negb (st =? RT_THREAD_SUSPEND) then ret (- RT_ERROR)
  else
    tlist_remove thread;;
    rt_timer_stop (thread_timer thread);;
    rt_schedule_insert_thread thread;;
    ret RT_EOK.

Definition rt_thread_startup (thread : Z) : K Z :=
  rt_assert (negb (thread =? RT_NULL));;
  (let* st := thread_stat thread in rt_assert (st =? RT_THREAD_INIT));;
  assert_type thread RT_Object_Class_Thread;;
  upd_thread thread (fun th =>
    th_set_priority (init_priority th) (prio_mask (init_priority th)) th);;
  upd_thread thread (th_set_stat RT_THREAD_SUSPEND);;
  rt_thread_resume thread;;
  (let* self := rt_thread_self in when (negb (self =? RT_NULL)) rt_schedule);;
  ret RT_EOK.

Definition rt_thread_detach (thread : Z) : K Z :=
  rt_assert (negb (thread =? RT_NULL));;
  assert_type thread RT_Object_Class_Thread;;
  (let* b := rt_object_is_systemobject thread in rt_assert b);;
  let* st := thread_stat thread in
  if st =? RT_THREAD_CLOSE then ret RT_EOK
  else
    when (negb (st =? RT_THREAD_INIT)) (rt_schedule_remove_thread thread);;
    _thread_cleanup_execute thread;;
    rt_timer_detach (thread_timer thread);;
    upd_thread thread (th_set_stat RT_THREAD_CLOSE);;
    (let* b := rt_object_is_systemobject thread in
     if b then rt_object_detach thread
     else queue_insert_head QDefunct thread);;
    ret RT_EOK.

Definition rt_thread_create (name : list Z) (entry param stack_size priority tick : Z) : K Z :=
  let* thread := rt_object_allocate RT_Object_Class_Thread name in
  if thread =? RT_NULL then ret RT_NULL
  else
    let* stack_start := on_heap (rt_malloc stack_size) in
    if stack_start =? RT_NULL then rt_object_delete thread;; ret RT_NULL
    else
      _rt_thread_init thread entry param stack_start stack_size priority tick;;
      ret thread.

Definition rt_thread_delete (thread : Z) : K Z :=
  rt_assert (negb (thread =? RT_NULL));;
  assert_type thread RT_Object_Class_Thread;;
  (let* b := rt_object_is_systemobject thread in rt_assert (negb b));;
  let* st := thread_stat thread in
  if st =? RT_THREAD_CLOSE then ret RT_EOK
  else
    when (negb (st =? RT_THREAD_INIT)) (rt_schedule_remove_thread thread);;
    _thread_cleanup_execute thread;;
    rt_timer_detach (thread_timer thread);;
    upd_thread thread (th_set_stat RT_THREAD_CLOSE);;
    queue_insert_head QDefunct thread;;
    ret RT_EOK.

Definition rt_thread_yield : K Z :=
  let* thread := gets rt_current_thread in
  let* th := get_thread thread in
  let* s := get in
  if ((stat_of th =? RT_THREAD_READY) && tlist_next_ne_prev thread s)%bool then
    tlist_remove thread;;
    (if current_priority th <? RT_THREAD_PRIORITY_MAX
     then queue_insert_tail (QReady (current_priority th)) thread
     else raise BadPointer);;
    rt_schedule;;
    ret RT_EOK
  else ret RT_EOK.

(** suspend [thread] with its timer set to [tick] *)
Definition suspend_for (thread tick : Z) : K unit :=
  rt_thread_suspend thread;;
  rt_timer_control (thread_timer thread) RT_TIMER_CTRL_SET_TIME tick;;
  rt_timer_start (thread_timer thread);;
  ret tt.

Definition rt_thread_sleep (tick : Z) : K unit :=
  let* thread := gets rt_current_thread in
  rt_assert (negb (thread =? RT_NULL));;
  assert_type thread RT_Object_Class_Thread;;
  suspend_for thread tick;;
  rt_schedule.

(** if (thread->error == -RT_ETIMEOUT) thread->error = RT_EOK *)
Definition clear_timeout (thread : Z) : K unit :=
  let* th := get_thread thread in
  when (error th =? - RT_ETIMEOUT) (upd_thread thread (th_set_error RT_EOK)).

Definition rt_thread_sleep_resumed (thread : Z) : K Z :=
  clear_timeout thread;; ret RT_EOK.

Definition rt_thread_delay (tick : Z) : K unit := rt_thread_sleep tick.

(** The variable behind the pointer [tick] is passed by value; the call
    ends with its new value. *)
Definition rt_thread_delay_until (tick inc_tick : Z) : K (outcome Z unit) :=
  let* thread := rt_thread_self in
  rt_assert (negb (thread =? RT_NULL));;
  assert_type thread RT_Object_Class_Thread;;
  let* now := rt_tick_get in
  if u32 (now - tick) <? inc_tick then
    suspend_for thread (u32 (tick + inc_tick - now));;
    rt_schedule;;
    ret (Pending tt)
  else let* now := rt_tick_get in ret (Done now).
Definition rt_thread_delay_until_resumed (thread : Z) : K Z :=
  clear_timeout thread;; rt_tick_get.

Definition rt_thread_mdelay (ms : Z) : K unit :=
  rt_thread_sleep (rt_tick_from_millisecond ms).

(** current_priority = *(rt_uint8_t * )arg; number_mask = 1 << current_priority *)
Definition set_priority (thread arg : Z) : K unit :=
  if u8 arg <? 32
  then upd_thread thread (th_set_priority (u8 arg) (prio_mask (u8 arg)))
  else raise Undefined.

Definition rt_thread_control (thread cmd arg : Z) : K Z :=
  rt_assert (negb (thread =? RT_NULL));;
  assert_type thread RT_Object_Class_Thread;;
  if cmd =? RT_THREAD_CTRL_CHANGE_PRIORITY then
    (let* st := thread_stat thread in
     if st =? RT_THREAD_READY then
       rt_schedule_remove_thread thread;;
       set_priority thread arg;;
       rt_schedule_insert_thread thread
     else set_priority thread arg);;
    ret RT_EOK
  else if cmd =? RT_THREAD_CTRL_STARTUP then rt_thread_startup thread
  else if cmd =? RT_THREAD_CTRL_CLOSE then
    let* b := rt_object_is_systemobject thread in
    if b then rt_thread_detach thread else rt_thread_delete thread
  else ret RT_EOK.

Definition rt_thread_find (name : option (list Z)) : K Z :=
  rt_object_find name RT_Object_Class_Thread.

(** clock.c; [fuel] bounds the loop of rt_timer_check *)
Definition rt_tick_increase (fuel : nat) : K unit :=
  modify (set_rt_tick (fun t => u32 (t + 1)));;
  let* thread := rt_thread_self in
  upd_thread thread (fun th => th_set_remaining (u32 (remaining_tick th - 1)) th);;
  (let* th := get_thread thread in
   when (remaining_tick th =? 0)
     (upd_thread thread (th_set_remaining (t_init_tick th));;
      let* _r := rt_thread_yield in ret tt));;
  rt_timer_check fuel.
End thread.

(** * Preservation of the scheduler invariant *)
Lemma prio_mask_shiftl p : 0 <= p < 32 -> prio_mask p = Z.shiftl 1 p.
Proof.
  intros Hp. unfold prio_mask. rewrite Z.shiftl_1_l. apply u32_small.
  split; [lia|]. change 4294967296 with (2 ^ 32). apply Z.pow_lt_mono_r; lia.
Qed.

Lemma thread_ok_close th : thread_ok th -> thread_ok (th_set_stat RT_THREAD_CLOSE th).
Proof.
  intros (H1 & H2 & H3). split; [exact H1|]. split; [exact H2|].
  destruct H3 as [|(_ & _ & ?)]; [by left|by right].
Qed.

Lemma thread_ok_prio th p :
  thread_ok th -> 0 <= p < 32 -> thread_ok (th_set_priority p (prio_mask p) th).
Proof.
  intros (_ & Hi & _) Hp. split; [exact Hp|]. split; [exact Hi|]. left.
  by apply prio_mask_shiftl.
Qed.

(** a quiet operation keeps every predicate on the scheduler's data *)
Lemma view_preserves {A} (m : K A) (P : kstate -> Prop) :
  (forall v, preserves (view_is v) m) -> (forall s s', view s' = view s -> P s -> P s') ->
  preserves P m.
Proof. intros Hm HP s a s' Hs Hrun. eapply HP; [|exact Hs]. by eapply Hm. Qed.
Lemma view_run {A} (m : K A) s a s' :
  (forall v, preserves (view_is v) m) -> m s = Ok (a, s') ->
  threads s' = threads s /\ queues s' = queues s /\
  ready_priority_group s' = ready_priority_group s.
Proof.
  intros Hm Hrun. assert (view s' = view s) as E by (by eapply (Hm (view s))).
  by injection E.
Qed.
Lemma tlinked_frame t s s' : queues s' = queues s -> tlinked t s' = tlinked t s.
Proof. unfold tlinked. by intros ->. Qed.

Lemma closing_frame t s s' :
  threads s' = threads s -> queues s' = queues s ->
  ready_priority_group s' = ready_priority_group s -> closing t s -> closing t s'.
Proof.
  intros Et Eq Eg (th & Ht & Hok). exists th. rewrite Et. split; [done|].
  unfold sched_ok in *. cbn in *. by rewrite Et, Eq, Eg.
Qed.
Lemma closing_view {A} t (m : K A) :
  (forall v, preserves (view_is v) m) -> preserves (closing t) m.
Proof.
  intros Hm s a s' Hc Hrun. apply view_run in Hrun as (Et & Eq & Eg); [|done].
  by eapply closing_frame.
Qed.

(** a thread of any status but CLOSE may start closing *)
Lemma closing_remove t th s :
  sched_ok s -> threads s !! t = Some th -> closing t (do_remove t th s).
Proof.
  intros Hok Ht. exists th. split; [by rewrite threads_do_remove|].
  apply do_remove_ok; [done|done|done|]. apply thread_ok_close. by eapply si_thread_ok.
Qed.
Lemma closing_init t th s :
  sched_ok s -> threads s !! t = Some th -> stat_of th = RT_THREAD_INIT -> closing t s.
Proof.
  intros Hok Ht Hst. exists th. split; [done|]. apply (sched_inv_upd_free _ _ _ Hok).
  - by eapply si_nonnull.
  - intros h. by eapply si_free.
  - done.
  - apply thread_ok_close. by eapply si_thread_ok.
Qed.
(** thread->stat = RT_THREAD_CLOSE ends the closing *)
Lemma closing_done t s r s' :
  closing t s -> upd_thread t (th_set_stat RT_THREAD_CLOSE) s = Ok (r, s') ->
  sched_ok s' /\ exists th, threads s' !! t = Some th /\ stat_of th = RT_THREAD_CLOSE.
Proof.
  intros (th & Ht & Hok) Hm. minv Hm. cbn. rewrite lookup_insert_eq. split; [done|].
  eexists. split; [done|]. done.
Qed.

Section thread_pres.
Context `{UCO : UserCodeOk}.

Lemma rt_thread_self_pres : preserves sched_ok rt_thread_self.
Proof using. unfold rt_thread_self. pres. Qed.
Lemma cleanup_pres thread : preserves sched_ok (_thread_cleanup_execute thread).
Proof using UCO. unfold _thread_cleanup_execute. pres. Qed.
Lemma cleanup_closing thread : preserves (closing thread) (_thread_cleanup_execute thread).
Proof using UCO.
  unfold _thread_cleanup_execute. apply pres_bind; [apply closing_view; auto with pres|].
  intros th. pres.
Qed.

Lemma rt_thread_suspend_pres thread : preserves sched_ok (rt_thread_suspend thread).
Proof using.
  intros s a s' Hok Hm. unfold rt_thread_suspend in Hm. minv Hm; [done|].
  eapply rt_timer_stop_pres; [|eassumption].
  match goal with H : rt_schedule_remove_thread _ _ = _ |- _ =>
    eapply remove_thread_at in H; [|eassumption]; subst end.
  rewrite threads_do_remove in *. simplify_eq.
  match goal with H : threads _ !! thread = Some ?t0 |- _ => rename t0 into th, H into Ht end.
  eapply (do_remove_ok thread th (th_set_stat (with_stat RT_THREAD_SUSPEND (stat th)) th));
    [done|done|by rewrite stat_of_with_stat|].
  apply thread_ok_set_stat; [by eapply si_thread_ok|].
  eapply sched_ok_started; [eassumption..|left]. by apply negb_false_iff, Z.eqb_eq in Hif.
Qed.

Lemma rt_thread_resume_pres thread : preserves sched_ok (rt_thread_resume thread).
Proof using.
  intros s a s' Hok Hm. unfold rt_thread_resume in Hm. minv Hm; [done|].
  apply negb_false_iff, Z.eqb_eq in Hif.
  match goal with H : rt_timer_stop _ _ = _ |- _ =>
    pose proof (view_run _ _ _ _ (fun v => rt_timer_stop_view v _) H) as (Et & _);
    apply rt_timer_stop_pres in H;
      [|eapply tlist_remove_ok; [done|eassumption|by rewrite Hif]] end.
  eapply insert_thread_ok; [eassumption| |eassumption].
  rewrite Et. cbn. intros th Hth. simplify_eq.
  eapply (sched_ok_started s0); eauto.
Qed.

Lemma rt_thread_startup_pres thread : preserves sched_ok (rt_thread_startup thread).
Proof using.
  assert (Hend : preserves sched_ok
    ((let* self := rt_thread_self in when (negb (self =? RT_NULL)) rt_schedule);; ret RT_EOK)).
  { unfold rt_thread_self. pres. }
  intros s a s' Hok Hm. unfold rt_thread_startup in Hm.
  repeat (apply bind_ok in Hm as (? & ? & Hstep & Hm); minv Hstep).
  eapply Hend; [|exact Hm]. eapply rt_thread_resume_pres; [|exact Hstep].
  cbn in Hthe. rewrite lookup_insert_eq in Hthe. injection Hthe as <-.
  apply Z.eqb_eq in Hassert0. unfold sched_ok. cbn. rewrite insert_insert_eq.
  destruct (si_thread_ok _ _ _ Hok _ _ Hthe1) as (Hp1 & Hp2 & _).
  apply (sched_inv_upd_free _ _ _ Hok).
  - by eapply si_nonnull.
  - intros h. by eapply si_free.
  - done.
  - split; [exact Hp2|]. split; [exact Hp2|]. left. by apply prio_mask_shiftl.
Qed.

(** from the cleanup of a thread on, rt_thread_detach and rt_thread_delete *)
Lemma close_pres thread (k : K Z) :
  (forall s, sched_ok s ->
    (exists th, threads s !! thread = Some th /\ stat_of th = RT_THREAD_CLOSE) ->
    forall a s', k s = Ok (a, s') -> sched_ok s') ->
  forall st s a s', sched_ok s ->
  (exists th, threads s !! thread = Some th /\ stat_of th = st) ->
  (when (negb (st =? RT_THREAD_INIT)) (rt_schedule_remove_thread thread);;
   _thread_cleanup_execute thread;;
   rt_timer_detach (thread_timer thread);;
   upd_thread thread (th_set_stat RT_THREAD_CLOSE);; k) s = Ok (a, s') -> sched_ok s'.
Proof using UCO.
  intros Hk st s a s' Hok (th & Ht & Hst) Hm.
  apply bind_ok in Hm as (? & s1 & H1 & Hm).
  assert (closing thread s1) as Hc1.
  { destruct (Z.eqb_spec st RT_THREAD_INIT) as [E|]; cbn in H1.
    - injection H1 as _ <-. eapply closing_init; [done..|congruence].
    - eapply remove_thread_at in H1 as ->; [|done]. by apply closing_remove. }
  apply bind_ok in Hm as (? & s2 & H2 & Hm). apply cleanup_closing in H2; [|done].
  apply bind_ok in Hm as (? & s3 & H3 & Hm).
  eapply closing_view in H3; [|auto with pres|exact H2].
  apply bind_ok in Hm as (? & s4 & H4 & Hm).
  destruct (closing_done _ _ _ _ H3 H4) as [Hok4 Hth4]. by eapply Hk.
Qed.

Lemma defunct_ok thread th s s' r :
  sched_ok s -> threads s !! thread = Some th -> stat_of th = RT_THREAD_CLOSE ->
  queue_insert_head QDefunct thread s = Ok (r, s') -> sched_ok s'.
Proof using.
  intros Hok Ht Hst Hm. minv Hm. by eapply queue_insert_ok.
Qed.

Lemma bury_ok thread s :
  sched_ok s ->
  (exists th, threads s !! thread = Some th /\ stat_of th = RT_THREAD_CLOSE) ->
  forall (a : Z) s', ((let* b := rt_object_is_systemobject thread in
     if b then rt_object_detach thread
     else queue_insert_head QDefunct thread);; ret RT_EOK) s = Ok (a, s') -> sched_ok s'.
Proof using.
  intros Hok (th & Ht & Hst) a s' Hm.
  apply bind_ok in Hm as (? & s1 & Hm & Hr). injection Hr as _ <-.
  apply bind_ok in Hm as (b & s2 & H1 & Hm).
  pose proof (view_run _ _ _ _ (fun v => rt_object_is_systemobject_view v _) H1) as (Et & _).
  apply rt_object_is_systemobject_pres in H1; [|done].
  destruct b; [by eapply rt_object_detach_pres|]. rewrite <- Et in Ht. by eapply defunct_ok.
Qed.

Lemma rt_thread_detach_pres thread : preserves sched_ok (rt_thread_detach thread).
Proof using UCO.
  intros s a s' Hok Hm. unfold rt_thread_detach in Hm.
  do 4 (apply bind_ok in Hm as (? & ? & Hstep & Hm); minv Hstep).
  destruct (_ =? RT_THREAD_CLOSE); [by injection Hm as <- <-|].
  eapply close_pres in Hm; [done| |done|by eexists]. by apply bury_ok.
Qed.
Lemma rt_thread_delete_pres thread : preserves sched_ok (rt_thread_delete thread).
Proof using UCO.
  intros s a s' Hok Hm. unfold rt_thread_delete in Hm.
  do 4 (apply bind_ok in Hm as (? & ? & Hstep & Hm); minv Hstep).
  destruct (_ =? RT_THREAD_CLOSE); [by injection Hm as <- <-|].
  eapply close_pres in Hm; [done| |done|by eexists].
  intros s1 Hok1 (th & Ht & Hst) a1 s2 Hm1. minv Hm1. by eapply queue_insert_ok.
Qed.

Lemma rt_thread_exit_pres : preserves sched_ok rt_thread_exit.
Proof using UCO.
  intros s a s' Hok Hm. unfold rt_thread_exit in Hm.
  apply bind_ok in Hm as (t & ? & Hstep & Hm). minv Hstep.
  apply bind_ok in Hm as (? & s1 & H1 & Hm). apply cleanup_pres in H1; [|done].
  apply bind_ok in Hm as (? & s2 & H2 & Hm).
  apply rt_schedule_remove_thread_inv in H2 as (th & Ht & _ & ->).
  apply bind_ok in Hm as (? & s3 & H3 & Hm).
  destruct (closing_done _ _ _ _ (closing_remove _ _ _ H1 Ht) H3) as (Hok3 & th3 & Ht3 & Hst3).
  apply bind_ok in Hm as (? & s4 & H4 & Hm).
  pose proof (view_run _ _ _ _ (fun v => rt_timer_detach_view v _) H4) as (Et & _).
  apply rt_timer_detach_pres in H4; [|done]. rewrite <- Et in Ht3.
  apply bind_ok in Hm as (? & s5 & H5 & Hm). eapply rt_schedule_pres; [|exact Hm].
  eapply (bury_ok _ s4 H4); [by eauto|]. erewrite bind_run; [|exact H5]. reflexivity.
Qed.

(** a READY thread moves to the end of its ready list *)
Definition rotated (t : Z) (p : Z) (s : kstate) : kstate :=
  let s1 := set_queues (fun qs => lremove t <$> qs) s in
  set_queues (<[QReady p := queue s1 (QReady p) ++ [t]]>) s1.

Lemma rotated_queues t th s h :
  sched_ok s -> threads s !! t = Some th -> stat_of th = RT_THREAD_READY ->
  queue (rotated t (current_priority th) s) h =
    if decide (h = QReady (current_priority th)) then lremove t (queue s h) ++ [t]
    else queue s h.
Proof using.
  intros Hok Ht Hst. unfold rotated, queue. cbn.
  change (default [] (<[?a := ?b]> ?m !! ?h0)) with (q (<[a := b]> m) h0).
  change (default [] ((lremove t <$> ?m) !! ?h0)) with (q (lremove t <$> m) h0).
  change (default [] (queues s !! h)) with (q (queues s) h).
  rewrite q_insert, !q_lremove. case_decide as Hd1; case_decide as Hd2; subst; try done.
  apply lremove_not_elem. intros Hin. apply Hd2. apply (si_uniq _ _ _ Hok _ _ t Hin).
  by apply (si_ready _ _ _ Hok t th).
Qed.

Lemma rotated_ok t th s :
  sched_ok s -> threads s !! t = Some th -> stat_of th = RT_THREAD_READY ->
  sched_ok (rotated t (current_priority th) s).
Proof using.
  intros Hok Ht Hst. pose proof (si_ready _ _ _ Hok _ _ Ht Hst) as Hin.
  eapply sched_inv_perm; [exact Hok|]. intros h.
  change (q (queues (rotated t (current_priority th) s)) h)
    with (queue (rotated t (current_priority th) s) h).
  rewrite rotated_queues by done. case_decide as Hh; [subst h|done].
  change (queue s ?h0) with (q (queues s) h0).
  pose proof (si_nodup _ _ _ Hok (QReady (current_priority th))) as Hnd.
  apply list_elem_of_split in Hin as (l1 & l2 & E). rewrite E in *.
  rewrite lremove_app. apply NoDup_app in Hnd as (_ & Hn1 & Hn2).
  apply NoDup_cons in Hn2 as [Hn2 _].
  rewrite lremove_cons_eq, lremove_not_elem by (try done; intros Hx; apply (Hn1 _ Hx); left).
  solve_Permutation.
Qed.

Lemma rt_thread_yield_pres : preserves sched_ok rt_thread_yield.
Proof using.
  intros s a s' Hok Hm. unfold rt_thread_yield in Hm. minv Hm; [|done].
  eapply rt_schedule_pres; [|eassumption].
  match goal with H : (_ && _)%bool = true |- _ => apply andb_prop in H as [Hst%Z.eqb_eq _] end.
  by eapply rotated_ok.
Qed.

Lemma suspend_for_pres thread tick : preserves sched_ok (suspend_for thread tick).
Proof using. pose proof rt_thread_suspend_pres. unfold suspend_for. pres. Qed.
Lemma rt_thread_sleep_pres tick : preserves sched_ok (rt_thread_sleep tick).
Proof using. pose proof suspend_for_pres. unfold rt_thread_sleep. pres. Qed.
Lemma clear_timeout_pres thread : preserves sched_ok (clear_timeout thread).
Proof using. unfold clear_timeout. pres. Qed.
Lemma rt_thread_sleep_resumed_pres thread : preserves sched_ok (rt_thread_sleep_resumed thread).
Proof using. pose proof clear_timeout_pres. unfold rt_thread_sleep_resumed. pres. Qed.
Lemma rt_thread_delay_until_pres tick inc_tick :
  preserves sched_ok (rt_thread_delay_until tick inc_tick).
Proof using.
  pose proof suspend_for_pres.
  unfold rt_thread_delay_until, rt_thread_self, rt_tick_get. pres.
Qed.
Lemma rt_thread_delay_until_resumed_pres thread :
  preserves sched_ok (rt_thread_delay_until_resumed thread).
Proof using.
  pose proof clear_timeout_pres. unfold rt_thread_delay_until_resumed, rt_tick_get. pres.
Qed.

(** a READY thread off the ready table, reinserted with new priorities *)
Lemma reinsert_ok t th th' s :
  sched_ok s -> threads s !! t = Some th -> stat_of th = RT_THREAD_READY ->
  thread_ok th' -> started th' ->
  tlinked t (set_threads (<[t := th']>) (do_remove t th s)) = false ->
  sched_ok (do_insert t th' (set_threads (<[t := th']>) (do_remove t th s))).
Proof using.
  intros Hok Ht Hst Hth' Hst' Hl. destruct (closing_remove _ _ _ Hok Ht) as (th1 & Ht1 & Hok1).
  rewrite threads_do_remove, Ht in Ht1. injection Ht1 as <-.
  pose proof (sched_inv_insert _ _ _ Hok1 t (ready_thread th')) as Hins.
  unfold sched_ok, do_insert. cbn in *. rewrite !insert_insert_eq in *.
  apply Hins.
  - by eapply (si_nonnull _ _ _ Hok).
  - by apply (tlinked_false t _ Hl).
  - by apply stat_of_with_stat.
  - by apply thread_ok_set_stat.
Qed.

Lemma rt_thread_control_pres thread cmd arg :
  preserves sched_ok (rt_thread_control thread cmd arg).
Proof using UCO.
  pose proof rt_thread_startup_pres. pose proof rt_thread_detach_pres.
  pose proof rt_thread_delete_pres. unfold rt_thread_control.
  do 2 (apply pres_bind; [auto with pres|intros _]).
  destruct (cmd =? RT_THREAD_CTRL_CHANGE_PRIORITY); [|pres].
  apply pres_bind; [|pres]. intros s a s' Hok Hm. unfold set_priority in Hm. minv Hm.
  all: match goal with H : (u8 _ <? 32) = true |- _ => apply Z.ltb_lt in H end;
    pose proof (u8_range arg).
  - match goal with H : rt_schedule_remove_thread _ _ = _, Ht : threads s0 !! _ = Some _ |- _ =>
      eapply remove_thread_at in H; [|exact Ht]; subst end.
    rewrite threads_do_remove in *. simplify_eq.
    match goal with H : rt_schedule_insert_thread _ _ = _ |- _ =>
      apply rt_schedule_insert_thread_inv in H as (th2 & Ht2 & _ & _ & Hl & ->) end.
    cbn in Ht2. rewrite lookup_insert_eq in Ht2. injection Ht2 as <-.
    eapply reinsert_ok; try done.
    + by apply Z.eqb_eq.
    + apply thread_ok_prio; [by eapply (si_thread_ok _ _ _ Hok)|lia].
    + apply (prio_mask_shiftl (u8 arg)). lia.
  - match goal with H : threads _ !! _ = Some ?th0 |- _ => rename H into Ht; rename th0 into th end.
    apply (sched_inv_upd_prio _ _ _ Hok _ th); try done.
    + intros E. by rewrite E in *.
    + apply thread_ok_prio; [by eapply (si_thread_ok _ _ _ Hok)|lia].
Qed.

Lemma thread_init_pres thread entry param stack_start stack_size priority tick :
  thread <> RT_NULL -> 0 <= priority ->
  preserves sched_ok (_rt_thread_init thread entry param stack_start stack_size priority tick).
Proof using.
  intros Hnn Hp s a s' Hok Hm. unfold _rt_thread_init in Hm.
  apply bind_ok in Hm as (? & ? & Hstep & Hm). minv Hstep.
  apply bind_ok in Hm as (? & ? & Hstep & Hm).
  pose proof (on_heap_view _ _ _ _ Hstep) as (? & ? & ?). apply on_heap_pres in Hstep; [|done].
  apply bind_ok in Hm as (? & ? & Hstep1 & Hm).
  pose proof (on_heap_view _ _ _ _ Hstep1) as (? & ? & ?). apply on_heap_pres in Hstep1; [|done].
  apply bind_ok in Hm as (? & ? & Hstep2 & Hm). minv Hstep2.
  match goal with H : (_ <? _) = true |- _ => apply Z.ltb_lt in H end.
  match type of Hm with bind _ ?k _ = _ =>
    assert (Hk : forall x, preserves sched_ok (k x)) by (intros ?; pres) end.
  apply bind_ok in Hm as (? & ? & Hstep3 & Hm). eapply (Hk tt); [|exact Hm].
  minv Hstep3. apply (sched_inv_upd_free _ _ _ Hstep1).
  - done.
  - intros h Hin. match goal with Hl : tlinked _ ?s0 = false |- _ =>
      apply (tlinked_false _ _ Hl h) end. by congruence.
  - done.
  - unfold RT_THREAD_PRIORITY_MAX in *. split; [cbn; lia|]. split; [cbn; lia|]. by right.
Qed.

Lemma rt_thread_init_pres thread name entry param stack_start stack_size priority tick :
  0 <= priority -> preserves sched_ok
    (rt_thread_init thread name entry param stack_start stack_size priority tick).
Proof using.
  intros Hp. unfold rt_thread_init. destruct (Z.eqb_spec thread RT_NULL) as [->|Hnn];
    [by intros ? ? ? ?|].
  pose proof (thread_init_pres thread). pres.
Qed.
Lemma rt_thread_create_pres name entry param stack_size priority tick :
  0 <= priority ->
  preserves sched_ok (rt_thread_create name entry param stack_size priority tick).
Proof using.
  intros Hp. unfold rt_thread_create. apply pres_bind; [auto with pres|]. intros thread.
  destruct (Z.eqb_spec thread RT_NULL) as [->|Hnn]; [pres|].
  pose proof (thread_init_pres thread). pres.
Qed.

Lemma rt_thread_find_pres name : preserves sched_ok (rt_thread_find name).
Proof using. unfold rt_thread_find. pres. Qed.
Lemma rt_tick_increase_pres fuel : preserves sched_ok (rt_tick_increase fuel).
Proof using UCO.
  pose proof rt_thread_yield_pres. unfold rt_tick_increase, rt_thread_self. pres.
Qed.
End thread_pres.
#[export] Hint Resolve rt_thread_self_pres rt_thread_suspend_pres rt_thread_resume_pres
  rt_thread_find_pres
  rt_thread_startup_pres rt_thread_detach_pres rt_thread_delete_pres rt_thread_exit_pres
  rt_thread_yield_pres rt_thread_sleep_pres rt_thread_sleep_resumed_pres
  rt_thread_delay_until_pres rt_thread_delay_until_resumed_pres rt_thread_control_pres
  rt_tick_increase_pres : pres.

(** * What the operations do *)

(** the state in which rt_timer_stop leaves a timer with header [ob] *)
Definition timer_active (ob : rt_object) : bool :=
  truthy (Z.land (o_flag ob) RT_TIMER_FLAG_ACTIVATED).
Definition stopped (timer : Z) (ob : rt_object) (s : kstate) : kstate :=
  if timer_active ob then
    set_objs (<[timer := ob_set_flag (Z.land (o_flag ob) (Z.lnot RT_TIMER_FLAG_ACTIVATED)) ob]>)
      (set_check_list (lremove timer) (set_rt_timer_list (lremove timer) s))
  else s.

Lemma rt_timer_stop_run timer ob s :
  timer <> RT_NULL -> objs s !! timer = Some ob -> has_type RT_Object_Class_Timer ob ->
  rt_timer_stop timer s =
    Ok (if timer_active ob then RT_EOK else - RT_ERROR, stopped timer ob s).
Proof.
  intros Hnn Hob Hty. unfold rt_timer_stop.
  erewrite bind_run; [cbv beta|by apply assert_nonnull_run].
  erewrite bind_run; [cbv beta|by eapply assert_type_run].
  erewrite bind_run; [cbv beta|by apply get_obj_run].
  unfold stopped. fold (timer_active ob). destruct (timer_active ob); cbn [negb]; [|done].
  erewrite bind_run; [cbv beta|reflexivity].
  erewrite bind_run; [cbv beta|by apply upd_obj_run]. done.
Qed.

(** a thread with its object header, and the header of its timer *)
Record thread_wf (s : kstate) (t : Z) (th : rt_thread) (tob : rt_object) : Prop := {
  tw_thread : threads s !! t = Some th;
  tw_nonnull : t <> RT_NULL /\ thread_timer t <> RT_NULL;
  tw_obj : exists ob, objs s !! t = Some ob /\ has_type RT_Object_Class_Thread ob;
  tw_timer : objs s !! thread_timer t = Some tob /\ has_type RT_Object_Class_Timer tob;
}.

(** the effect of rt_thread_suspend on a READY thread, of rt_thread_resume on
    a suspended one *)
Definition suspended (t : Z) (th : rt_thread) (tob : rt_object) (s : kstate) : kstate :=
  stopped (thread_timer t) tob
    (set_threads (<[t := th_set_stat (with_stat RT_THREAD_SUSPEND (stat th)) th]>)
      (do_remove t th s)).
Definition resumed (t : Z) (th : rt_thread) (tob : rt_object) (s : kstate) : kstate :=
  do_insert t th (stopped (thread_timer t) tob
    (set_queues (fun qs => lremove t <$> qs) s)).

Lemma thread_timer_ne t : thread_timer t <> t.
Proof. unfold thread_timer, THREAD_TIMER_OFFSET. lia. Qed.

(** projections of [stopped] *)
Lemma stopped_frame timer ob s :
  threads (stopped timer ob s) = threads s /\ queues (stopped timer ob s) = queues s /\
  ready_priority_group (stopped timer ob s) = ready_priority_group s /\
  rt_current_thread (stopped timer ob s) = rt_current_thread s /\
  timers (stopped timer ob s) = timers s /\
  scheduler_lock_nest (stopped timer ob s) = scheduler_lock_nest s.
Proof. unfold stopped. by destruct (timer_active ob). Qed.
Lemma objs_do_remove t th s : objs (do_remove t th s) = objs s.
Proof. unfold do_remove. cbv zeta. by case_bool_decide. Qed.

Lemma thread_stat_run t th s :
  threads s !! t = Some th -> thread_stat t s = Ok (stat_of th, s).
Proof. intros Ht. unfold thread_stat. erewrite bind_run; [reflexivity|by apply get_thread_run]. Qed.

Lemma rt_thread_suspend_run t th tob s :
  thread_wf s t th tob -> stat_of th = RT_THREAD_READY ->
  rt_thread_suspend t s = Ok (RT_EOK, suspended t th tob s).
Proof.
  intros [Ht [Hnn Hnt] (ob & Hob & Hty) [Htob Htty]] Hst. unfold rt_thread_suspend.
  erewrite bind_run; [cbv beta|by apply assert_nonnull_run].
  erewrite bind_run; [cbv beta|by eapply assert_type_run].
  erewrite bind_run; [cbv beta|by apply thread_stat_run]. rewrite Hst.
  rewrite Z.eqb_refl. cbn [negb].
  erewrite bind_run; [cbv beta|by apply rt_schedule_remove_thread_run].
  erewrite bind_run; [cbv beta|apply upd_thread_run; by rewrite threads_do_remove].
  erewrite bind_run; [cbv beta|apply rt_timer_stop_run; [done| |done];
    cbn; by rewrite objs_do_remove]. done.
Qed.

Lemma rt_thread_resume_run t th tob s :
  sched_ok s -> thread_wf s t th tob -> stat_of th = RT_THREAD_SUSPEND ->
  rt_thread_resume t s = Ok (RT_EOK, resumed t th tob s).
Proof.
  intros Hok [Ht [Hnn Hnt] (ob & Hob & Hty) [Htob Htty]] Hst. unfold rt_thread_resume.
  erewrite bind_run; [cbv beta|by apply assert_nonnull_run].
  erewrite bind_run; [cbv beta|by eapply assert_type_run].
  erewrite bind_run; [cbv beta|by apply thread_stat_run]. rewrite Hst.
  rewrite Z.eqb_refl. cbn [negb].
  erewrite bind_run; [cbv beta|reflexivity].
  erewrite bind_run; [cbv beta|by apply rt_timer_stop_run].
  match goal with |- context [stopped ?a ?b ?c] =>
    destruct (stopped_frame a b c) as (E1 & E2 & _) end.
  erewrite bind_run; [cbv beta|apply rt_schedule_insert_thread_run; [rewrite E1; exact Ht|done| |]].
  - done.
  - destruct (si_range _ _ _ Hok _ _ Ht) as (_ & [_ H] & _). exact H.
  - unfold tlinked. rewrite E2. apply bool_decide_eq_false. intros (h & l & Hl & Hin).
    cbn in Hl. rewrite lookup_fmap in Hl. destruct (queues s !! h); [|done].
    injection Hl as <-. apply elem_of_lremove in Hin. tauto.
Qed.

Lemma with_stat_back st th :
  stat_of th = st -> with_stat st (with_stat RT_THREAD_SUSPEND (stat th)) = stat th.
Proof.
  unfold stat_of, with_stat, RT_THREAD_STAT_MASK, RT_THREAD_SUSPEND. intros <-.
  apply Z.bits_inj'. intros i Hi.
  rewrite !Z.lor_spec, !Z.land_spec, !Z.lor_spec, !Z.land_spec, Z.lnot_spec by done.
  change 15 with (Z.ones 4).
  destruct (decide (i < 4)).
  - rewrite Z.ones_spec_low by lia. by rewrite !andb_true_r, !andb_false_r, orb_false_r.
  - rewrite Z.ones_spec_high by lia.
    replace (Z.testbit 2 i) with false by (symmetry; apply (lt_bits 4); lia).
    cbn. by rewrite !andb_false_r, !andb_true_r.
Qed.

Lemma ready_mask_set s t th :
  sched_ok s -> threads s !! t = Some th -> stat_of th = RT_THREAD_READY ->
  Z.lor (ready_priority_group s) (number_mask th) = ready_priority_group s.
Proof.
  intros Hok Ht Hst. rewrite (sched_ok_started s t th Hok Ht (or_introl Hst)).
  destruct (si_range _ _ _ Hok _ _ Ht) as (_ & Hp & _).
  pose proof (si_ready _ _ _ Hok _ _ Ht Hst) as Hin.
  destruct (si_group _ _ _ Hok) as [_ Hb].
  assert (Z.testbit (ready_priority_group s) (current_priority th) = true) as Hbit.
  { apply Hb; [done|]. intros E. rewrite E in Hin. by apply elem_of_nil in Hin. }
  apply Z.bits_inj'. intros i Hi.
  rewrite Z.lor_spec, Z.shiftl_1_l, Z.pow2_bits_eqb by lia.
  destruct (Z.eqb_spec (current_priority th) i) as [<-|]; [by rewrite Hbit|].
  by rewrite orb_false_r.
Qed.

Lemma lor_land_lnot g m : Z.lor (Z.land g (Z.lnot m)) m = Z.lor g m.
Proof.
  apply Z.bits_inj'. intros i Hi. rewrite !Z.lor_spec, Z.land_spec, Z.lnot_spec by done.
  by destruct (Z.testbit g i), (Z.testbit m i).
Qed.

Definition suspend_stat (th : rt_thread) : rt_thread :=
  th_set_stat (with_stat RT_THREAD_SUSPEND (stat th)) th.

Lemma queues_do_remove t th s h : q (queues (do_remove t th s)) h = lremove t (q (queues s) h).
Proof. unfold do_remove. cbv zeta. case_bool_decide; cbn; apply q_lremove. Qed.

(** the scheduler's data after a suspension *)
Lemma suspended_facts s t th tob :
  thread_wf s t th tob ->
  threads (suspended t th tob s) = <[t := suspend_stat th]> (threads s) /\
  (forall h, q (queues (suspended t th tob s)) h = lremove t (q (queues s) h)) /\
  ready_priority_group (suspended t th tob s) = ready_priority_group (do_remove t th s) /\
  exists tob1, thread_wf (suspended t th tob s) t (suspend_stat th) tob1.
Proof.
  intros [Ht [Hnn Hnt] (ob & Hob & Hty) [Htob Htty]]. pose proof (thread_timer_ne t).
  destruct (stopped_frame (thread_timer t) tob
    (set_threads (<[t := suspend_stat th]>) (do_remove t th s))) as (E1 & E2 & E3 & _).
  cbn in E1, E2, E3. rewrite threads_do_remove in E1.
  unfold suspended. fold (suspend_stat th). split_and!; [exact E1| |exact E3|].
  { intros h. rewrite E2. apply queues_do_remove. }
  exists (if timer_active tob
    then ob_set_flag (Z.land (o_flag tob) (Z.lnot RT_TIMER_FLAG_ACTIVATED)) tob else tob).
  split; [|done|exists ob; split; [|done]|split].
  - rewrite E1. apply lookup_insert_eq.
  - unfold stopped. destruct (timer_active tob); cbn; rewrite ?objs_do_remove; [|done].
    by rewrite lookup_insert_ne.
  - unfold stopped. destruct (timer_active tob); cbn; rewrite ?objs_do_remove;
      [apply lookup_insert_eq|done].
  - by destruct (timer_active tob).
Qed.

(** and after a resumption *)
Lemma resumed_facts s t th tob :
  thread_wf s t th tob ->
  threads (resumed t th tob s) = <[t := ready_thread th]> (threads s) /\
  ready_priority_group (resumed t th tob s) = Z.lor (ready_priority_group s) (number_mask th) /\
  forall h, q (queues (resumed t th tob s)) h =
    if decide (h = QReady (current_priority th)) then lremove t (q (queues s) h) ++ [t]
    else lremove t (q (queues s) h).
Proof.
  intros [Ht [Hnn Hnt] (ob & Hob & Hty) [Htob Htty]].
  destruct (stopped_frame (thread_timer t) tob (set_queues (fun qs => lremove t <$> qs) s))
    as (F1 & F2 & F3 & _). cbn in F1, F2, F3.
  unfold resumed. cbn [threads queues ready_priority_group do_insert set_ready_priority_group
    set_queues set_threads]. rewrite F1, F2, F3. split_and!; [done..|].
  intros h. rewrite q_insert. unfold queue. rewrite F2.
  change (default [] ((lremove t <$> ?m) !! ?h0)) with (q (lremove t <$> m) h0).
  rewrite !q_lremove. case_decide as Hd1; case_decide as Hd2; by subst.
Qed.

(** Suspending a READY thread and resuming it puts it back in the ready
    table, behind the other threads of its priority: the round trip changes
    nothing else of the scheduler's data, neither thread records nor other
    lists nor the bitmap. *)
Theorem rt_thread_suspend_resume (s : kstate) (t : Z) (th : rt_thread) (tob : rt_object) :
  sched_ok s -> thread_wf s t th tob -> stat_of th = RT_THREAD_READY ->
  wp (rt_thread_suspend t;; rt_thread_resume t) (fun r s' =>
    r = RT_EOK /\ threads s' = threads s /\
    ready_priority_group s' = ready_priority_group s /\
    forall h, queue s' h =
      if decide (h = QReady (current_priority th)) then lremove t (queue s h) ++ [t]
      else queue s h) s.
Proof.
  intros Hok Hwf Hst. pose proof (tw_thread _ _ _ _ Hwf) as Ht.
  pose proof (rt_thread_suspend_run _ _ _ _ Hwf Hst) as Hrun.
  destruct (suspended_facts _ _ _ _ Hwf) as (E1 & E2 & E3 & tob1 & Hwf1).
  apply wp_bind. eapply wp_intro; [exact Hrun|].
  eapply wp_intro.
  { apply rt_thread_resume_run; [by eapply rt_thread_suspend_pres|exact Hwf1|].
    by apply stat_of_with_stat. }
  destruct (resumed_facts _ _ _ _ Hwf1) as (F1 & F2 & F3). split_and!; [done|..].
  - rewrite F1, E1, insert_insert_eq. apply insert_id. rewrite Ht. f_equal.
    unfold ready_thread. cbn. rewrite with_stat_back by done. by destruct th.
  - rewrite F2, E3. change (number_mask (suspend_stat th)) with (number_mask th).
    unfold do_remove. cbv zeta. case_bool_decide; cbn; rewrite ?lor_land_lnot;
      by eapply ready_mask_set.
  - intros h. change (queue ?s0 h) with (q (queues s0) h).
    rewrite F3, !E2, lremove_idem. change (current_priority (suspend_stat th)) with (current_priority th).
    case_decide as Hd; [done|]. apply lremove_not_elem. intros Hin. apply Hd.
    apply (si_uniq _ _ _ Hok _ _ t Hin). by apply (si_ready _ _ _ Hok t th).
Qed.

(** When the current thread, of the highest priority in use, yields to
    other READY threads of its priority, it goes to the end of their list and
    the next one becomes current: the threads of a priority run round-robin. *)
Theorem rt_thread_yield_rotates (s : kstate) (th : rt_thread) (u : Z) (l : list Z) :
  sched_ok s -> scheduler_lock_nest s = 0 ->
  threads s !! rt_current_thread s = Some th -> stat_of th = RT_THREAD_READY ->
  queue s (QReady (current_priority th)) = rt_current_thread s :: u :: l ->
  (forall p, 0 <= p < current_priority th -> queue s (QReady p) = []) ->
  wp rt_thread_yield (fun r s' => r = RT_EOK /\ rt_current_thread s' = u /\
    threads s' = threads s /\
    queue s' (QReady (current_priority th)) = u :: l ++ [rt_current_thread s] /\
    forall h, h <> QReady (current_priority th) -> queue s' h = queue s h) s.
Proof.
  intros Hok Hlock Ht Hst Hq Hlow. set (t := rt_current_thread s) in *.
  set (p := current_priority th) in *. set (s1 := rotated t p s).
  assert (Hnd : t ∉ u :: l).
  { pose proof (si_nodup _ _ _ Hok (QReady p)) as Hnd. change (q _ ?h) with (queue s h) in Hnd.
    rewrite Hq in Hnd. by apply NoDup_cons in Hnd as []. }
  assert (Hok1 : sched_ok s1) by (by apply rotated_ok).
  assert (Hq1 : forall h, queue s1 h = if decide (h = QReady p) then u :: l ++ [t] else queue s h).
  { intros h. unfold s1, p. rewrite rotated_queues by done. fold p. case_decide; [subst h|done].
    by rewrite Hq, lremove_cons_eq. }
  assert (Hrun : rt_thread_yield s = (rt_schedule;; ret RT_EOK) s1).
  { unfold rt_thread_yield. erewrite bind_run; [cbv beta|reflexivity].
    erewrite bind_run; [cbv beta|by apply get_thread_run].
    erewrite bind_run; [cbv beta|reflexivity]. rewrite Hst, Z.eqb_refl. cbn [andb].
    unfold tlist_next_ne_prev. rewrite bool_decide_eq_true_2.
    2: { unfold queue in Hq. destruct (queues s !! QReady p) as [l0|] eqn:E; [|done].
      exists (QReady p), l0. cbn in Hq. subst l0. split; [done|]. split; [left|cbn; lia]. }
    erewrite bind_run; [cbv beta|reflexivity].
    destruct (si_range _ _ _ Hok _ _ Ht) as (_ & [_ Hp] & _).
    fold p t. assert ((p <? RT_THREAD_PRIORITY_MAX) = true) as -> by (apply Z.ltb_lt; exact Hp).
    unfold queue_insert_tail. rewrite bind_assoc.
    erewrite bind_run; [cbv beta|reflexivity].
    replace (tlinked _ _) with false; [done|]. symmetry. apply bool_decide_eq_false.
    intros (h & l0 & Hl & Hin). cbn in Hl. rewrite lookup_fmap in Hl.
    destruct (queues s !! h); [|done]. injection Hl as <-. apply elem_of_lremove in Hin. tauto. }
  unfold wp. rewrite Hrun. apply wp_bind.
  destruct (highest_ready_some s1 t th Hok1 Ht Hst) as (p' & u' & Hh).
  destruct (highest_ready_spec _ _ _ Hok1 Hh) as (Hp' & Hhead & Hlow').
  assert (p' = p) as ->.
  { destruct (si_range _ _ _ Hok _ _ Ht) as (_ & Hp & _). fold p in Hp.
    destruct (Z.lt_trichotomy p' p) as [Hlt|[|Hlt]]; [|done|].
    - rewrite Hq1, decide_False, Hlow in Hhead by (congruence || naive_solver lia). done.
    - specialize (Hlow' p ltac:(lia)). by rewrite Hq1, decide_True in Hlow'. }
  rewrite Hq1, decide_True in Hhead by done. injection Hhead as <-.
  eapply wp_mono; [by apply (rt_schedule_selects s1 t th)|].
  intros _ s' (_ & Et & Eq & Hcur). split_and!; [done|by eapply Hcur|done| |];
    unfold queue; rewrite Eq; [|intros h Hne];
    change (default [] (queues s1 !! ?h0)) with (queue s1 h0); rewrite Hq1.
  - by rewrite decide_True.
  - by rewrite decide_False.
Qed.

(** ** Priorities *)
Lemma with_stat_id st th : stat_of th = st -> with_stat st (stat th) = stat th.
Proof.
  unfold stat_of, with_stat. intros <-. apply Z.bits_inj'. intros i Hi.
  rewrite Z.lor_spec, !Z.land_spec, Z.lnot_spec by done.
  by destruct (Z.testbit (stat th) i), (Z.testbit RT_THREAD_STAT_MASK i).
Qed.
Lemma ready_thread_id th : stat_of th = RT_THREAD_READY -> ready_thread th = th.
Proof. intros H. unfold ready_thread. rewrite with_stat_id by done. by destruct th. Qed.

Definition with_priority (p : Z) (th : rt_thread) : rt_thread :=
  th_set_priority p (prio_mask p) th.
(** the effect of RT_THREAD_CTRL_CHANGE_PRIORITY *)
Definition prioritized (t : Z) (th : rt_thread) (p : Z) (s : kstate) : kstate :=
  if stat_of th =? RT_THREAD_READY
  then do_insert t (with_priority p th)
    (set_threads (<[t := with_priority p th]>) (do_remove t th s))
  else set_threads (<[t := with_priority p th]>) s.

Lemma tlinked_do_remove t th th' s :
  tlinked t (set_threads (<[t := th']>) (do_remove t th s)) = false.
Proof.
  apply bool_decide_eq_false. intros (h & l & Hl & Hin). cbn in Hl.
  assert (t ∈ q (queues (do_remove t th s)) h) as Hh by (unfold q; by rewrite Hl).
  rewrite queues_do_remove, elem_of_lremove in Hh. by destruct Hh.
Qed.

Lemma change_priority_run `{UC : UserCode} t th ob p s :
  sched_ok s -> threads s !! t = Some th -> objs s !! t = Some ob ->
  has_type RT_Object_Class_Thread ob -> 0 <= p < 32 ->
  rt_thread_control t RT_THREAD_CTRL_CHANGE_PRIORITY p s = Ok (RT_EOK, prioritized t th p s).
Proof.
  intros Hok Ht Hob Hty Hp. pose proof (si_nonnull _ _ _ Hok _ _ Ht) as Hnn.
  unfold rt_thread_control. erewrite bind_run; [cbv beta|by apply assert_nonnull_run].
  erewrite bind_run; [cbv beta|by eapply assert_type_run]. rewrite Z.eqb_refl.
  assert (Hset : forall s1 th1, threads s1 !! t = Some th1 ->
    set_priority t p s1 = Ok (tt, set_threads (<[t := with_priority p th1]>) s1)).
  { intros s1 th1 Ht1. unfold set_priority. rewrite u8_small by lia.
    rewrite (proj2 (Z.ltb_lt _ _)) by lia. by apply upd_thread_run. }
  rewrite bind_assoc. erewrite bind_run; [cbv beta|by apply thread_stat_run].
  unfold prioritized. destruct (stat_of th =? RT_THREAD_READY).
  - rewrite bind_assoc. erewrite bind_run; [cbv beta|by apply rt_schedule_remove_thread_run].
    rewrite bind_assoc. erewrite bind_run; [cbv beta|apply Hset; by rewrite threads_do_remove].
    erewrite bind_run; [cbv beta|apply (rt_schedule_insert_thread_run t (with_priority p th))];
      [done|apply lookup_insert_eq|done|cbn; lia|apply tlinked_do_remove].
  - by erewrite bind_run; [|by apply Hset].
Qed.

(** the scheduler's data after a change of priority *)
Lemma prioritized_facts t th p s :
  sched_ok s -> threads s !! t = Some th -> 0 <= p < 32 ->
  sched_ok (prioritized t th p s) /\
  threads (prioritized t th p s) = <[t := with_priority p th]> (threads s) /\
  forall h, queue (prioritized t th p s) h =
    if decide (stat_of th = RT_THREAD_READY) then
      if decide (h = QReady p) then lremove t (queue s h) ++ [t] else lremove t (queue s h)
    else queue s h.
Proof.
  intros Hok Ht Hp. pose proof (si_thread_ok _ _ _ Hok _ _ Ht) as Hth.
  pose proof (thread_ok_prio _ _ Hth Hp) as Hth'. fold (with_priority p th) in Hth'.
  unfold prioritized. destruct (Z.eqb_spec (stat_of th) RT_THREAD_READY) as [Hst|Hst].
  - split_and!.
    + apply reinsert_ok; try done; [by apply prio_mask_shiftl|apply tlinked_do_remove].
    + cbn. rewrite ready_thread_id by done. by rewrite threads_do_remove, insert_insert_eq.
    + intros h. rewrite (decide_True (P := stat_of th = _)) by done.
      unfold queue. cbn. change (default [] (?m !! ?h0)) with (q m h0).
      rewrite q_insert. case_decide as Hd; case_decide as Hd'; try (by subst);
        unfold queue; cbn; try subst h; apply queues_do_remove || (f_equal; apply queues_do_remove).
  - split_and!; [by apply (sched_inv_upd_prio _ _ _ Hok _ th)|done|].
    intros h. by rewrite (decide_False (P := stat_of th = _)).
Qed.

Lemma prioritized_frame t th p s :
  let s' := prioritized t th p s in
  objs s' = objs s /\ timers s' = timers s /\ rt_timer_list s' = rt_timer_list s /\
  rt_tick s' = rt_tick s /\ rt_current_thread s' = rt_current_thread s /\
  interrupt_nest s' = interrupt_nest s /\ scheduler_lock_nest s' = scheduler_lock_nest s /\
  sems s' = sems s /\ mutexes s' = mutexes s /\ events s' = events s /\
  mailboxes s' = mailboxes s /\ mqueues s' = mqueues s /\ mempools s' = mempools s /\
  kheap s' = kheap s.
Proof.
  unfold prioritized, do_remove. cbv zeta. destruct (_ =? _); [case_bool_decide|];
    cbn; split_and!; reflexivity.
Qed.

(** C28: Changing the priority of a thread to a valid one always succeeds.
    A READY thread moves to the end of the ready list of its new priority,
    any other thread keeps its place in the lists; the bitmap and the thread's
    mask follow, and no other thread changes. *)
Theorem rt_thread_control_priority `{UC : UserCode} (s : kstate) (t p : Z) (th : rt_thread)
    (ob : rt_object) :
  sched_ok s -> threads s !! t = Some th -> objs s !! t = Some ob ->
  has_type RT_Object_Class_Thread ob -> 0 <= p < RT_THREAD_PRIORITY_MAX ->
  wp (rt_thread_control t RT_THREAD_CTRL_CHANGE_PRIORITY p) (fun r s' =>
    r = RT_EOK /\ sched_ok s' /\
    (exists th', threads s' = <[t := th']> (threads s) /\ current_priority th' = p /\
      number_mask th' = 2 ^ p /\ stat th' = stat th /\ init_priority th' = init_priority th) /\
    forall h, queue s' h =
      if decide (stat_of th = RT_THREAD_READY) then
        if decide (h = QReady p) then lremove t (queue s h) ++ [t] else lremove t (queue s h)
      else queue s h) s.
Proof.
  unfold RT_THREAD_PRIORITY_MAX. intros Hok Ht Hob Hty Hp.
  eapply wp_intro; [by eapply change_priority_run|].
  destruct (prioritized_facts t th p s) as (H1 & H2 & H3); [done..|].
  split_and!; [done|done| |done]. exists (with_priority p th). split_and!; try done.
  cbn. by rewrite prio_mask_shiftl, Z.shiftl_1_l.
Qed.
