(* ===== verification/Ipc.v ===== *)
(** The part that all IPC objects share and the semaphores of
    rt-thread/kernel/src/ipc.c: the list of threads suspended on an object, in
    FIFO or priority order, and the semaphore built on it. *)
From S2P Require Import Prelude KService Mem CpuPort Kernel Sched Object Timer Thread.

(** * Definitions *)

(** the list &ipc->suspend_thread *)
Definition rt_ipc_object_init (ipc : Z) : K unit := queue_init (QSuspend ipc).

(** the for loop of the RT_IPC_FLAG_PRIO case: the first waiter with a lower
    priority than [prio], if there is one *)
Fixpoint prio_position (prio : Z) (l : list Z) : K (option Z) :=
  match l with
  | [] => ret None
  | n :: l =>
      let* sthread := get_thread n in
      if prio <? current_priority sthread then ret (Some n) else prio_position prio l
  end.

Definition rt_ipc_list_suspend (list : qhead) (thread flag : Z) : K Z :=
  rt_thread_suspend thread;;
  (if flag =? RT_IPC_FLAG_FIFO then queue_insert_tail list thread
   else if flag =? RT_IPC_FLAG_PRIO then
     let* th := get_thread thread in
     let* s := get in
     let* n := prio_position (current_priority th) (queue s list) in
     match n with
     | Some sthread => queue_insert_before list sthread thread
     | None => queue_insert_tail list thread
     end
   else ret tt);;
  ret RT_EOK.

(** the thread at list->next; of an empty list this is not a thread *)
Definition first_thread (list : qhead) : K Z := let* s := get in the (head (queue s list)).

Definition rt_ipc_list_resume (list : qhead) : K Z :=
  let* thread := first_thread list in
  rt_thread_resume thread;;
  ret RT_EOK.

Fixpoint resume_all_loop (fuel : nat) (list : qhead) : K unit :=
  match fuel with
  | O => raise OutOfFuel
  | S fuel =>
      let* s := get in
      match queue s list with
      | [] => ret tt
      | thread :: _ =>
          upd_thread thread (th_set_error (- RT_ERROR));;
          rt_thread_resume thread;;
          resume_all_loop fuel list
      end
  end.
(** one iteration per waiter, and the last test *)
Definition rt_ipc_list_resume_all (list : qhead) : K Z :=
  let* s := get in
  resume_all_loop (S (length (queue s list))) list;;
  ret RT_EOK.

(** is the list of waiters not empty? *)
Definition has_waiter (list : qhead) : K bool :=
  let* s := get in ret (negb (bool_decide (queue s list = []))).

(** start the timer of a thread that waits [time] > 0 ticks *)
Definition start_timeout (thread time : Z) : K unit :=
  rt_timer_control (thread_timer thread) RT_TIMER_CTRL_SET_TIME (u32 time);;
  rt_timer_start (thread_timer thread);;
  ret tt.

(** parent.parent.flag of an object *)
Definition set_object_flag (object flag : Z) : K unit := upd_obj object (ob_set_flag flag).
Definition object_flag (object : Z) : K Z := let* ob := get_obj object in ret (o_flag ob).
(** the parameter checks of detach and delete *)
Definition assert_static (object class : Z) : K unit :=
  rt_assert (negb (object =? RT_NULL));;
  assert_type object class;;
  let* b := rt_object_is_systemobject object in rt_assert b.
Definition assert_dynamic (object class : Z) : K unit :=
  rt_assert (negb (object =? RT_NULL));;
  assert_type object class;;
  let* b := rt_object_is_systemobject object in rt_assert (negb b).
Definition assert_object (object class : Z) : K unit :=
  rt_assert (negb (object =? RT_NULL));;
  assert_type object class.

(** * Semaphores *)
Definition get_sem (sem : Z) : K rt_semaphore := let* s := get in the (sems s !! sem).
Definition set_sem (sem v : Z) : K unit := modify (set_sems (<[sem := {| sem_value := v |}]>)).

Definition rt_sem_init (sem : Z) (name : list Z) (value flag : Z) : K Z :=
  rt_assert (negb (sem =? RT_NULL));;
  rt_assert (value <? 65536);;
  rt_object_init sem RT_Object_Class_Semaphore name;;
  rt_ipc_object_init sem;;
  set_sem sem (u16 value);;
  set_object_flag sem flag;;
  ret RT_EOK.

Definition rt_sem_detach (sem : Z) : K Z :=
  assert_static sem RT_Object_Class_Semaphore;;
  rt_ipc_list_resume_all (QSuspend sem);;
  rt_object_detach sem;;
  ret RT_EOK.

Definition rt_sem_create (name : list Z) (value flag : Z) : K Z :=
  RT_DEBUG_NOT_IN_INTERRUPT;;
  rt_assert (value <? 65536);;
  let* sem := rt_object_allocate RT_Object_Class_Semaphore name in
  if sem =? RT_NULL then ret sem
  else
    rt_ipc_object_init sem;;
    set_sem sem (u16 value);;
    set_object_flag sem flag;;
    ret sem.

Definition rt_sem_delete (sem : Z) : K Z :=
  RT_DEBUG_NOT_IN_INTERRUPT;;
  assert_dynamic sem RT_Object_Class_Semaphore;;
  rt_ipc_list_resume_all (QSuspend sem);;
  rt_object_delete sem;;
  ret RT_EOK.

(** a pending take waits with its own thread *)
Definition rt_sem_take (sem time : Z) : K (outcome Z Z) :=
  assert_object sem RT_Object_Class_Semaphore;;
  let* v := get_sem sem in
  if 0 <? sem_value v then
    set_sem sem (u16 (sem_value v - 1));; ret (Done RT_EOK)
  else if time =? 0 then ret (Done (- RT_ETIMEOUT))
  else
    RT_DEBUG_IN_THREAD_CONTEXT;;
    let* thread := rt_thread_self in
    upd_thread thread (th_set_error RT_EOK);;
    let* flag := object_flag sem in
    rt_ipc_list_suspend (QSuspend sem) thread flag;;
    when (0 <? time) (start_timeout thread time);;
    rt_schedule;;
    ret (Pending thread).

Definition rt_sem_take_resumed (thread : Z) : K Z :=
  let* th := get_thread thread in
  if negb (error th =? RT_EOK) then ret (error th) else ret RT_EOK.

Definition rt_sem_trytake (sem : Z) : K (outcome Z Z) := rt_sem_take sem 0.

Definition rt_sem_release (sem : Z) : K Z :=
  assert_object sem RT_Object_Class_Semaphore;;
  let* b := has_waiter (QSuspend sem) in
  if b then
    rt_ipc_list_resume (QSuspend sem);;
    rt_schedule;;
    ret RT_EOK
  else
    let* v := get_sem sem in
    if sem_value v <? RT_SEM_VALUE_MAX then
      set_sem sem (u16 (sem_value v + 1));; ret RT_EOK
    else ret (- RT_EFULL).

Definition rt_sem_control (sem cmd arg : Z) : K Z :=
  assert_object sem RT_Object_Class_Semaphore;;
  if cmd =? RT_IPC_CMD_RESET then
    rt_ipc_list_resume_all (QSuspend sem);;
    set_sem sem (u16 arg);;
    rt_schedule;;
    ret RT_EOK
  else ret (- RT_ERROR).

(** * Waiting with a remaining time (mailboxes and message queues) *)

(** the local variables of a waiting call *)
Record wait := { w_thread : Z; w_timeout : Z; w_tick_delta : Z }.

(** suspend the caller on [list], start its timer and switch away *)
Definition block_on (list : qhead) (thread flag timeout tick_delta : Z) : K wait :=
  RT_DEBUG_IN_THREAD_CONTEXT;;
  rt_ipc_list_suspend list thread flag;;
  let* tick_delta :=
    (if 0 <? timeout then
       let* now := rt_tick_get in
       start_timeout thread timeout;; ret now
     else ret tick_delta) in
  rt_schedule;;
  ret {| w_thread := thread; w_timeout := timeout; w_tick_delta := tick_delta |}.

(** after the switch back: the thread's error, or the wait with the elapsed
    ticks taken off its timeout *)
Definition wake_up (w : wait) : K (Z + wait) :=
  let* th := get_thread (w_thread w) in
  if negb (error th =? RT_EOK) then ret (inl (error th))
  else if 0 <? w_timeout w then
    let* now := rt_tick_get in
    let tick_delta := u32 (now - w_tick_delta w) in
    let timeout := s32 (w_timeout w - tick_delta) in
    ret (inr {| w_thread := w_thread w;
      w_timeout := (if timeout <? 0 then 0 else timeout); w_tick_delta := tick_delta |})
  else ret (inr w).

(** * Preservation of the scheduler invariant *)
#[export] Hint Unfold assert_object assert_static assert_dynamic object_flag get_sem set_sem
  rt_thread_self rt_tick_get has_waiter : minv.

(** a thread that may be put on a list of waiters *)
Definition can_wait (t : Z) (s : kstate) : Prop :=
  forall th, threads s !! t = Some th -> stat_of th = RT_THREAD_READY \/ stat_of th = RT_THREAD_SUSPEND.
(** the calling thread has not been closed *)
Definition running_ok (s : kstate) : Prop := can_wait (rt_current_thread s) s.

Lemma can_wait_error t v th s :
  threads s !! t = Some th -> can_wait t s ->
  can_wait t (set_threads (<[t := th_set_error v th]>) s).
Proof.
  intros Ht Hw th' Hth'. cbn in Hth'. rewrite lookup_insert_eq in Hth'.
  injection Hth' as <-. by apply (Hw th).
Qed.

Lemma rt_thread_suspend_effect t s r s' :
  rt_thread_suspend t s = Ok (r, s') ->
  exists th, threads s' !! t = Some th /\
    ((r = RT_EOK /\ stat_of th = RT_THREAD_SUSPEND) \/
     (r = - RT_ERROR /\ s' = s /\ stat_of th <> RT_THREAD_READY)).
Proof.
  intros Hm. unfold rt_thread_suspend in Hm. minv Hm.
  - eexists. split; [eassumption|]. right. split_and!; [done..|].
    by apply negb_true_iff, Z.eqb_neq in Hif.
  - match goal with H : rt_timer_stop _ _ = _ |- _ =>
      pose proof (view_run _ _ _ _ (fun v => rt_timer_stop_view v _) H) as (Et & _) end.
    rewrite Et. cbn. rewrite lookup_insert_eq. eexists. split; [done|]. left.
    by rewrite stat_of_with_stat.
Qed.

Lemma prio_position_inv p l s r s' :
  prio_position p l s = Ok (r, s') -> s' = s /\ forall n, r = Some n -> n ∈ l.
Proof.
  revert s r s'. induction l as [|n l IH]; intros s r s' Hm; cbn in Hm; minv Hm; [done| |].
  - split; [done|]. intros m [= <-]. left.
  - apply IH in Hm as [-> Hn]. split; [done|]. intros m Hr. right. by apply Hn.
Qed.

Definition wait_list (h : qhead) : Prop := head_stat h = RT_THREAD_SUSPEND.

Lemma rt_ipc_list_suspend_ok h t flag s r s' :
  wait_list h -> sched_ok s -> can_wait t s ->
  rt_ipc_list_suspend h t flag s = Ok (r, s') -> sched_ok s'.
Proof.
  intros Hh Hok Hw Hm. unfold rt_ipc_list_suspend in Hm.
  apply bind_ok in Hm as (r1 & s1 & Hs & Hm).
  assert (sched_ok s1 /\ exists th, threads s1 !! t = Some th /\ stat_of th = RT_THREAD_SUSPEND)
    as (Hok1 & th & Ht & Hst).
  { split; [by eapply rt_thread_suspend_pres|].
    destruct (rt_thread_suspend_effect _ _ _ _ Hs) as (th & Ht & [[_ ?]|(_ & -> & Hne)]); [by eauto|].
    exists th. split; [done|]. by destruct (Hw _ Ht). }
  assert (Hins : forall l, tlinked t s1 = false -> l ≡ₚ t :: queue s1 h ->
    sched_ok (set_queues (<[h := l]>) s1)).
  { intros l Hl Hp. unfold wait_list in Hh. by eapply queue_insert_ok; rewrite ?Hh. }
  minv Hm; try done.
  all: try (apply Hins; [done|solve_Permutation]).
  all: match goal with H : prio_position _ _ _ = _ |- _ =>
    apply prio_position_inv in H as [-> Hn] end.
  all: apply Hins; [done|]; first [apply insert_before_perm; auto|solve_Permutation].
Qed.

Lemma resume_all_pres fuel h : preserves sched_ok (resume_all_loop fuel h).
Proof. pose proof rt_thread_resume_pres. induction fuel; cbn; pres. Qed.
Lemma rt_ipc_list_resume_all_pres h : preserves sched_ok (rt_ipc_list_resume_all h).
Proof. pose proof resume_all_pres. unfold rt_ipc_list_resume_all. pres. Qed.
Lemma rt_ipc_list_resume_pres h : preserves sched_ok (rt_ipc_list_resume h).
Proof. pose proof rt_thread_resume_pres. unfold rt_ipc_list_resume, first_thread. pres. Qed.
Lemma rt_ipc_object_init_pres ipc : preserves sched_ok (rt_ipc_object_init ipc).
Proof. apply pres_modify. intros s Hok. by apply sched_inv_clear. Qed.
Lemma queue_init_sender_pres ipc : preserves sched_ok (queue_init (QSender ipc)).
Proof. apply pres_modify. intros s Hok. by apply sched_inv_clear. Qed.
Lemma start_timeout_pres t time : preserves sched_ok (start_timeout t time).
Proof. unfold start_timeout. pres. Qed.
Lemma has_waiter_pres h : preserves sched_ok (has_waiter h).
Proof. unfold has_waiter. pres. Qed.
Lemma first_thread_pres h : preserves sched_ok (first_thread h).
Proof. unfold first_thread. pres. Qed.
Lemma set_object_flag_pres o flag : preserves sched_ok (set_object_flag o flag).
Proof. unfold set_object_flag. pres. Qed.
Lemma object_flag_pres o : preserves sched_ok (object_flag o).
Proof. unfold object_flag. pres. Qed.
Lemma assert_object_pres o c : preserves sched_ok (assert_object o c).
Proof. unfold assert_object. pres. Qed.
Lemma assert_static_pres o c : preserves sched_ok (assert_static o c).
Proof. unfold assert_static. pres. Qed.
Lemma assert_dynamic_pres o c : preserves sched_ok (assert_dynamic o c).
Proof. unfold assert_dynamic. pres. Qed.
#[export] Hint Resolve rt_ipc_list_resume_all_pres rt_ipc_list_resume_pres
  rt_ipc_object_init_pres queue_init_sender_pres start_timeout_pres has_waiter_pres
  first_thread_pres set_object_flag_pres object_flag_pres assert_object_pres
  assert_static_pres assert_dynamic_pres : pres.

Lemma block_on_ok h t flag timeout d s r s' :
  wait_list h -> sched_ok s -> can_wait t s ->
  block_on h t flag timeout d s = Ok (r, s') -> sched_ok s'.
Proof.
  intros Hh Hok Hw Hm. unfold block_on in Hm.
  apply bind_ok in Hm as (? & s1 & H1 & Hm). minv H1.
  apply bind_ok in Hm as (? & s2 & H2 & Hm).
  eapply rt_ipc_list_suspend_ok in H2; [|done..].
  match type of Hm with ?m _ = _ => assert (Hk : preserves sched_ok m) end.
  { unfold rt_tick_get. pres. }
  by eapply Hk.
Qed.
Lemma wake_up_pres w : preserves sched_ok (wake_up w).
Proof. unfold wake_up, rt_tick_get. pres. Qed.
#[export] Hint Resolve wake_up_pres : pres.

(** ** Semaphores *)
Lemma get_sem_pres sem : preserves sched_ok (get_sem sem).
Proof. unfold get_sem. pres. Qed.
Lemma set_sem_pres sem v : preserves sched_ok (set_sem sem v).
Proof. unfold set_sem. pres. Qed.
#[export] Hint Resolve get_sem_pres set_sem_pres : pres.
Lemma rt_sem_init_pres sem name value flag : preserves sched_ok (rt_sem_init sem name value flag).
Proof. unfold rt_sem_init. pres. Qed.
Lemma rt_sem_detach_pres sem : preserves sched_ok (rt_sem_detach sem).
Proof. unfold rt_sem_detach. pres. Qed.
Lemma rt_sem_create_pres name value flag : preserves sched_ok (rt_sem_create name value flag).
Proof. unfold rt_sem_create. pres. Qed.
Lemma rt_sem_delete_pres sem : preserves sched_ok (rt_sem_delete sem).
Proof. unfold rt_sem_delete. pres. Qed.
Lemma rt_sem_take_pres sem time s r s' :
  sched_ok s -> running_ok s -> rt_sem_take sem time s = Ok (r, s') -> sched_ok s'.
Proof.
  intros Hok Hw Hm. unfold rt_sem_take in Hm. minv Hm; try done.
  all: match goal with H : rt_ipc_list_suspend _ _ _ _ = _ |- _ =>
    eapply rt_ipc_list_suspend_ok in H; [|done|by eapply sched_inv_upd|by apply can_wait_error] end.
  all: eapply rt_schedule_pres; [|eassumption]; first [done|by eapply start_timeout_pres].
Qed.
Lemma rt_sem_take_resumed_pres t : preserves sched_ok (rt_sem_take_resumed t).
Proof. unfold rt_sem_take_resumed. pres. Qed.
Lemma rt_sem_release_pres sem : preserves sched_ok (rt_sem_release sem).
Proof. unfold rt_sem_release. pres. Qed.
Lemma rt_sem_control_pres sem cmd arg : preserves sched_ok (rt_sem_control sem cmd arg).
Proof. unfold rt_sem_control. pres. Qed.
#[export] Hint Resolve rt_sem_init_pres rt_sem_detach_pres rt_sem_create_pres
  rt_sem_delete_pres rt_sem_take_resumed_pres rt_sem_release_pres rt_sem_control_pres : pres.

(** * What the operations do *)

(** rt_schedule changes nothing but the choice of the current thread *)
Definition switched (s s' : kstate) : Prop :=
  exists c p w, s' = set_switch_req (fun _ => w)
    (set_rt_current_priority (fun _ => p) (set_rt_current_thread (fun _ => c) s)).

Lemma switched_refl s : switched s s.
Proof.
  exists (rt_current_thread s), (rt_current_priority s), (switch_req s). by destruct s.
Qed.
Lemma rt_schedule_switched s a s' : rt_schedule s = Ok (a, s') -> switched s s'.
Proof.
  intros Hm. unfold rt_schedule, rt_hw_context_switch_interrupt in Hm.
  minv Hm; try apply switched_refl;
    match goal with |- switched _ ?s' =>
      exists (rt_current_thread s'), (rt_current_priority s'), (switch_req s') end;
    apply kstate_ext; reflexivity.
Qed.
(** with a READY thread there is a thread to switch to *)
Lemma rt_schedule_wp s t th :
  sched_ok s -> threads s !! t = Some th -> stat_of th = RT_THREAD_READY ->
  wp rt_schedule (fun _ s' => switched s s') s.
Proof.
  intros Hok Ht Hst. destruct (decide (scheduler_lock_nest s = 0)) as [Hl|Hl].
  - destruct (wp_run _ _ _ (rt_schedule_selects s t th Hok Hl Ht Hst)) as (a & s' & Hrun & _).
    eapply wp_intro; [exact Hrun|]. by eapply rt_schedule_switched.
  - unfold rt_schedule. apply wp_bind, wp_get. rewrite (proj2 (Z.eqb_neq _ _) Hl).
    apply wp_ret, switched_refl.
Qed.

Lemma assert_object_run o c ob s :
  o <> RT_NULL -> objs s !! o = Some ob -> has_type c ob -> assert_object o c s = Ok (tt, s).
Proof.
  intros Hnn Hob Hty. unfold assert_object.
  erewrite bind_run; [cbv beta|by apply assert_nonnull_run]. by eapply assert_type_run.
Qed.

(** the fields that a resumption leaves alone *)
Lemma resumed_frame s t th tob :
  sems (resumed t th tob s) = sems s /\ mutexes (resumed t th tob s) = mutexes s /\
  events (resumed t th tob s) = events s /\ mailboxes (resumed t th tob s) = mailboxes s /\
  mqueues (resumed t th tob s) = mqueues s /\ mempools (resumed t th tob s) = mempools s /\
  kheap (resumed t th tob s) = kheap s /\ rt_current_thread (resumed t th tob s) = rt_current_thread s /\
  scheduler_lock_nest (resumed t th tob s) = scheduler_lock_nest s /\
  rt_tick (resumed t th tob s) = rt_tick s.
Proof. unfold resumed, stopped. by destruct (timer_active tob). Qed.

(** every thread waiting on [list] has its objects in place *)
Definition waiters_wf (s : kstate) (list : qhead) : Prop :=
  forall t, t ∈ queue s list -> exists th tob, thread_wf s t th tob.

Lemma thread_wf_frame s s' t th tob :
  threads s' = threads s -> objs s' = objs s -> thread_wf s t th tob -> thread_wf s' t th tob.
Proof. intros Et Eo [H1 H2 H3 H4]. split; rewrite ?Et, ?Eo; done. Qed.
Lemma waiters_wf_frame s s' list :
  threads s' = threads s -> objs s' = objs s -> queue s' list = queue s list ->
  waiters_wf s list -> waiters_wf s' list.
Proof.
  intros Et Eo Eq Hw t Ht. rewrite Eq in Ht. destruct (Hw t Ht) as (th & tob & Hwf).
  exists th, tob. by eapply thread_wf_frame.
Qed.

(** stopping one thread's timer does not disturb another thread *)
Lemma thread_wf_resumed s t th tob u uh uob :
  thread_wf s t th tob -> thread_wf s u uh uob -> u <> t -> thread_wf (resumed t th tob s) u uh uob.
Proof.
  intros Hwf [Hu [Hnn Hnt] (ob & Hob & Hty) [Huob Huty]] Hne.
  destruct (resumed_facts _ _ _ _ Hwf) as (E1 & _ & _).
  assert (objs (resumed t th tob s) = objs (stopped (thread_timer t) tob s)) as E2.
  { unfold resumed, stopped. by destruct (timer_active tob). }
  pose proof Hwf as [_ _ _ [Htob Htty]].
  split; [by rewrite E1, lookup_insert_ne|done|exists ob; split; [|done]|split; [|done]]; rewrite E2;
    unfold stopped; destruct (timer_active tob); cbn; try done.
  - rewrite lookup_insert_ne; [done|]. intros E. rewrite E, Hob in Htob. injection Htob as <-.
    unfold has_type in *. by rewrite Hty in Htty.
  - rewrite lookup_insert_ne; [done|]. unfold thread_timer. lia.
Qed.

Lemma queue_q s h : queue s h = q (queues s) h.
Proof. done. Qed.

(** waking the first waiter *)
Lemma rt_ipc_list_resume_run s list t l :
  sched_ok s -> waiters_wf s list -> wait_list list -> queue s list = t :: l ->
  exists th tob, thread_wf s t th tob /\ stat_of th = RT_THREAD_SUSPEND /\
    rt_ipc_list_resume list s = Ok (RT_EOK, resumed t th tob s) /\
    rt_thread_resume t s = Ok (RT_EOK, resumed t th tob s) /\
    sched_ok (resumed t th tob s) /\ queue (resumed t th tob s) list = l.
Proof.
  intros Hok Hwf Hl Hq. destruct (Hwf t) as (th & tob & Ht); [rewrite Hq; left|].
  assert (Hin : t ∈ q (queues s) list) by (rewrite <- queue_q, Hq; left).
  destruct (si_stat _ _ _ Hok _ _ Hin) as (th' & Ht' & Hst).
  rewrite (tw_thread _ _ _ _ Ht) in Ht'. injection Ht' as <-. rewrite Hl in Hst.
  pose proof (rt_thread_resume_run _ _ _ _ Hok Ht Hst) as Hrun.
  exists th, tob. split_and!; [done|done| |done|by eapply rt_thread_resume_pres|].
  - unfold rt_ipc_list_resume, first_thread. rewrite bind_assoc.
    erewrite bind_run; [cbv beta|reflexivity]. rewrite Hq. cbn [head].
    erewrite bind_run; [cbv beta|reflexivity]. by erewrite bind_run; [|exact Hrun].
  - destruct (resumed_facts _ _ _ _ Ht) as (_ & _ & Eq). rewrite queue_q, Eq.
    pose proof (si_nodup _ _ _ Hok list) as Hnd. rewrite <- queue_q, Hq in *.
    apply NoDup_cons in Hnd as [Hnd _]. rewrite lremove_cons_eq by done.
    case_decide; [by subst list|done].
Qed.

(** ** The list of waiters *)

(** the position that rt_ipc_list_suspend chooses: at the end, or before the
    first waiter of lower priority *)
Definition wait_position (s : kstate) (flag prio : Z) (pre suf : list Z) : Prop :=
  if flag =? RT_IPC_FLAG_FIFO then suf = []
  else (forall u uh, u ∈ pre -> threads s !! u = Some uh -> current_priority uh <= prio) /\
       (forall u uh, head suf = Some u -> threads s !! u = Some uh -> prio < current_priority uh).

Lemma prio_position_run p l s :
  (forall u, u ∈ l -> is_Some (threads s !! u)) ->
  exists pre suf, l = pre ++ suf /\ prio_position p l s = Ok (head suf, s) /\
    (forall u uh, u ∈ pre -> threads s !! u = Some uh -> current_priority uh <= p) /\
    (forall u uh, head suf = Some u -> threads s !! u = Some uh -> p < current_priority uh).
Proof.
  intros Hl. induction l as [|n l IH]; cbn [prio_position].
  { exists [], []. set_solver. }
  destruct (Hl n) as [nh Hn]; [left|].
  erewrite bind_run; [cbv beta|by apply get_thread_run].
  destruct (Z.ltb_spec p (current_priority nh)).
  - exists [], (n :: l). split_and!; [done..|set_solver|]. intros ? ? [= <-]. naive_solver.
  - destruct IH as (pre & suf & -> & Hrun & Hp & Hs); [set_solver|].
    exists (n :: pre), suf. split_and!; [done..| |done].
    intros u uh [->|Hu]%elem_of_cons Huh; [by simplify_eq|by eapply Hp].
Qed.

Lemma insert_before_at (n t : Z) pre suf :
  n ∉ pre -> insert_before n t (pre ++ n :: suf) = pre ++ t :: n :: suf.
Proof.
  induction pre as [|x pre IH]; intros Hn; cbn; [by rewrite decide_True|].
  apply not_elem_of_cons in Hn as [Hne Hn]. rewrite decide_False by done. by rewrite IH.
Qed.

(** the suspended thread is on no list, and the list of waiters is as before *)
Lemma suspended_unlinked s list t th tob :
  sched_ok s -> wait_list list -> thread_wf s t th tob -> stat_of th = RT_THREAD_READY ->
  let s1 := suspended t th tob s in
  sched_ok s1 /\ tlinked t s1 = false /\ queue s1 list = queue s list /\ t ∉ queue s list.
Proof.
  intros Hok Hl Hwf Hst s1. pose proof (rt_thread_suspend_run _ _ _ _ Hwf Hst) as Hrun.
  destruct (suspended_facts _ _ _ _ Hwf) as (E1 & E2 & _). fold s1 in Hrun, E1, E2.
  assert (Hin : t ∉ queue s list).
  { intros Hin. destruct (si_stat _ _ _ Hok _ _ Hin) as (th' & Ht' & Hst').
    rewrite (tw_thread _ _ _ _ Hwf) in Ht'. injection Ht' as <-. by rewrite Hl, Hst in Hst'. }
  split_and!; [by eapply rt_thread_suspend_pres| | |done].
  - apply bool_decide_eq_false. intros (h & l0 & Hq & Hl0).
    assert (t ∈ q (queues s1) h) as Hh by (unfold q; by rewrite Hq).
    rewrite E2, elem_of_lremove in Hh. by destruct Hh.
  - by rewrite queue_q, E2, lremove_not_elem.
Qed.

(** inserting it between [pre] and [suf] *)
Lemma suspended_enqueue s list t th tob pre suf :
  sched_ok s -> wait_list list -> thread_wf s t th tob -> stat_of th = RT_THREAD_READY ->
  queue s list = pre ++ suf ->
  let s' := set_queues (<[list := pre ++ t :: suf]>) (suspended t th tob s) in
  sched_ok s' /\ threads s' = <[t := suspend_stat th]> (threads s) /\
  queue s' list = pre ++ t :: suf /\ (forall h, h <> list -> queue s' h = lremove t (queue s h)).
Proof.
  intros Hok Hl Hwf Hst Hq s'.
  destruct (suspended_facts _ _ _ _ Hwf) as (E1 & E2 & _ & tob1 & Hwf1).
  destruct (suspended_unlinked _ _ _ _ _ Hok Hl Hwf Hst) as (Hok1 & Hlk & Hold & _).
  split_and!; [|done| |].
  - eapply queue_insert_ok; [done|apply Hwf1| | |done|rewrite Hold, Hq; solve_Permutation].
    + unfold suspend_stat. by rewrite stat_of_with_stat.
    + by rewrite Hl.
  - unfold s'. rewrite queue_q. cbn. by rewrite q_insert, decide_True.
  - intros h Hne. unfold s'. rewrite queue_q. cbn. rewrite q_insert, decide_False by done.
    apply E2.
Qed.

Lemma rt_ipc_list_suspend_run s list t flag th tob :
  sched_ok s -> wait_list list -> thread_wf s t th tob -> stat_of th = RT_THREAD_READY ->
  flag = RT_IPC_FLAG_FIFO \/ flag = RT_IPC_FLAG_PRIO ->
  exists pre suf, queue s list = pre ++ suf /\
    wait_position s flag (current_priority th) pre suf /\
    rt_ipc_list_suspend list t flag s =
      Ok (RT_EOK, set_queues (<[list := pre ++ t :: suf]>) (suspended t th tob s)).
Proof.
  intros Hok Hl Hwf Hst Hflag. pose proof (rt_thread_suspend_run _ _ _ _ Hwf Hst) as Hrun.
  destruct (suspended_facts _ _ _ _ Hwf) as (E1 & _ & _ & tob1 & Hwf1).
  destruct (suspended_unlinked _ _ _ _ _ Hok Hl Hwf Hst) as (Hok1 & Hlk & Hold & Hnt).
  unfold rt_ipc_list_suspend. erewrite bind_run; [cbv beta|exact Hrun].
  destruct Hflag as [->| ->]; cbn [Z.eqb RT_IPC_FLAG_FIFO RT_IPC_FLAG_PRIO].
  - unfold queue_insert_tail. rewrite bind_assoc. erewrite bind_run; [cbv beta|reflexivity].
    rewrite Hlk, Hold. erewrite bind_run; [cbv beta|reflexivity].
    exists (queue s list), []. by rewrite app_nil_r.
  - change ((1 =? 1)%positive) with true. cbv iota. rewrite bind_assoc.
    erewrite bind_run; [cbv beta|apply get_thread_run, Hwf1].
    rewrite bind_assoc. erewrite bind_run; [cbv beta|reflexivity].
    change (current_priority (suspend_stat th)) with (current_priority th). rewrite Hold.
    destruct (prio_position_run (current_priority th) (queue s list) (suspended t th tob s))
      as (pre & suf & Hq & Hpos & Hp & Hs).
    { intros u Hu. destruct (si_stat _ _ _ Hok1 list u) as (uh & Huh & _); [by rewrite <- queue_q, Hold|].
      by rewrite Huh. }
    rewrite bind_assoc. erewrite bind_run; [cbv beta|exact Hpos].
    assert (Hsame : forall u, u ∈ queue s list -> threads (suspended t th tob s) !! u = threads s !! u).
    { intros u Hu. rewrite E1, lookup_insert_ne; [done|]. by intros ->. }
    rewrite Hq in Hsame. exists pre, suf. split_and!; [done| |].
    { split; intros u uh Hu; rewrite <- Hsame; [by apply Hp|set_solver|by apply Hs|].
      apply elem_of_app. right. by apply head_elem_of. }
    destruct suf as [|n suf]; cbn [head].
    + unfold queue_insert_tail. rewrite bind_assoc. erewrite bind_run; [cbv beta|reflexivity].
      rewrite Hlk, Hold. erewrite bind_run; [cbv beta|reflexivity].
      rewrite app_nil_r in Hq. by rewrite Hq.
    + unfold queue_insert_before. rewrite bind_assoc. erewrite bind_run; [cbv beta|reflexivity].
      rewrite Hlk, Hold. erewrite bind_run; [cbv beta|reflexivity].
      rewrite Hq, insert_before_at; [done|].
      pose proof (si_nodup _ _ _ Hok list) as Hnd. rewrite <- queue_q, Hq in Hnd.
      apply NoDup_app in Hnd as (_ & Hnd & _). intros Hin. apply (Hnd _ Hin). left.
Qed.

(** A READY thread that waits on an object is taken off the ready table,
    gets status SUSPEND and is inserted into the object's list of waiters:
    at the end in FIFO mode, and in PRIO mode behind all waiters up to the
    first one of strictly lower priority; nothing else in any list changes. *)
Theorem rt_ipc_list_suspend_order (s : kstate) (list : qhead) (t flag : Z)
    (th : rt_thread) (tob : rt_object) :
  sched_ok s -> wait_list list -> thread_wf s t th tob -> stat_of th = RT_THREAD_READY ->
  flag = RT_IPC_FLAG_FIFO \/ flag = RT_IPC_FLAG_PRIO ->
  wp (rt_ipc_list_suspend list t flag) (fun _ s' =>
    sched_ok s' /\ threads s' = <[t := suspend_stat th]> (threads s) /\
    (exists pre suf, queue s list = pre ++ suf /\ queue s' list = pre ++ t :: suf /\
      wait_position s flag (current_priority th) pre suf) /\
    (forall h, h <> list -> queue s' h = lremove t (queue s h))) s.
Proof.
  intros Hok Hl Hwf Hst Hflag.
  destruct (rt_ipc_list_suspend_run _ _ _ _ _ _ Hok Hl Hwf Hst Hflag) as (pre & suf & Hq & Hpos & Hrun).
  eapply wp_intro; [exact Hrun|].
  destruct (suspended_enqueue _ _ _ _ _ _ _ Hok Hl Hwf Hst Hq) as (?&?&?&?). eauto 10.
Qed.

Lemma waiters_wf_error s list t th v :
  threads s !! t = Some th -> waiters_wf s list ->
  waiters_wf (set_threads (<[t := th_set_error v th]>) s) list.
Proof.
  intros Ht Hwf u Hu. destruct (Hwf u Hu) as (uh & uob & [H1 H2 H3 H4]).
  destruct (decide (u = t)) as [->|Hne].
  - exists (th_set_error v th), uob. split; [apply lookup_insert_eq|done..].
  - exists uh, uob. split; [cbn; by rewrite lookup_insert_ne|done..].
Qed.

Lemma resume_all_run list l : forall s fuel,
  sched_ok s -> wait_list list -> waiters_wf s list -> queue s list = l ->
  (length l < fuel)%nat ->
  exists s', resume_all_loop fuel list s = Ok (tt, s') /\ sched_ok s' /\ queue s' list = [] /\
    (forall t, t ∈ l -> exists th, threads s' !! t = Some th /\
      stat_of th = RT_THREAD_READY /\ error th = - RT_ERROR) /\
    (forall u, u ∉ l -> threads s' !! u = threads s !! u).
Proof.
  induction l as [|t l IH]; intros s fuel Hok Hl Hwf Hq Hf; destruct fuel as [|fuel]; cbn in Hf;
    try lia; cbn [resume_all_loop]; erewrite bind_run by reflexivity; rewrite Hq.
  { exists s. split_and!; [done..|set_solver|done]. }
  destruct (Hwf t) as (th & tob & Ht); [rewrite Hq; left|].
  pose proof (tw_thread _ _ _ _ Ht) as Hth.
  erewrite bind_run; [cbv beta|by apply upd_thread_run].
  set (s1 := set_threads (<[t := th_set_error (- RT_ERROR) th]>) s).
  assert (Hok1 : sched_ok s1) by (by eapply sched_inv_upd).
  pose proof (waiters_wf_error _ list _ _ (- RT_ERROR) Hth Hwf) as Hwf1. fold s1 in Hwf1.
  destruct (rt_ipc_list_resume_run s1 list t l Hok1 Hwf1 Hl Hq)
    as (th1 & tob1 & Ht1 & Hst1 & _ & Hrun & Hok2 & Hq2).
  erewrite bind_run; [cbv beta|exact Hrun].
  assert (th1 = th_set_error (- RT_ERROR) th) as ->.
  { pose proof (tw_thread _ _ _ _ Ht1) as E. cbn in E. rewrite lookup_insert_eq in E. by injection E. }
  destruct (resumed_facts _ _ _ _ Ht1) as (E1 & _ & _).
  assert (Hnd : t ∉ l).
  { pose proof (si_nodup _ _ _ Hok list) as Hnd. rewrite <- queue_q, Hq in Hnd. by apply NoDup_cons in Hnd as []. }
  destruct (IH (resumed t _ tob1 s1) fuel Hok2 Hl) as (s' & Hs' & Hok' & Hq' & Hready & Hother);
    [|done|lia|].
  { intros u Hu. rewrite Hq2 in Hu. destruct (Hwf1 u) as (uh & uob & Huw); [unfold queue in *; cbn; rewrite Hq; by right|].
    exists uh, uob. apply thread_wf_resumed; [done..|]. by intros ->. }
  exists s'. split_and!; [done..| |].
  - intros u [->|Hu]%elem_of_cons; [|by apply Hready].
    rewrite Hother by done. rewrite E1, lookup_insert_eq. eexists. split; [done|].
    split; [by apply stat_of_with_stat|done].
  - intros u Hu. apply not_elem_of_cons in Hu as [Hne Hu].
    rewrite Hother by done. rewrite E1, lookup_insert_ne by done. cbn. by rewrite lookup_insert_ne.
Qed.

(** Waking all waiters of an object (when it is deleted, detached or
    reset) terminates, leaves no waiter behind, makes every former waiter
    READY with error -RT_ERROR, and touches no other thread. *)
Theorem rt_ipc_list_resume_all_empties (s : kstate) (list : qhead) :
  sched_ok s -> wait_list list -> waiters_wf s list ->
  wp (rt_ipc_list_resume_all list) (fun r s' =>
    r = RT_EOK /\ sched_ok s' /\ queue s' list = [] /\
    (forall t, t ∈ queue s list -> exists th, threads s' !! t = Some th /\
      stat_of th = RT_THREAD_READY /\ error th = - RT_ERROR) /\
    (forall u, u ∉ queue s list -> threads s' !! u = threads s !! u)) s.
Proof.
  intros Hok Hl Hwf.
  destruct (resume_all_run list (queue s list) s (S (length (queue s list)))) as (s' & Hrun & Hp);
    [done..|lia|].
  unfold wp, rt_ipc_list_resume_all. erewrite bind_run; [cbv beta|reflexivity].
  erewrite bind_run; [cbv beta|exact Hrun]. done.
Qed.

(** ** What a semaphore does *)
Lemma get_sem_run sem v s : sems s !! sem = Some v -> get_sem sem s = Ok (v, s).
Proof. intros H. unfold get_sem, bind, get. by rewrite H. Qed.
Lemma has_waiter_run list s :
  has_waiter list s = Ok (negb (bool_decide (queue s list = [])), s).
Proof. done. Qed.

Lemma switched_fields s s' :
  switched s s' -> threads s' = threads s /\ queues s' = queues s /\ sems s' = sems s /\
  mutexes s' = mutexes s /\ events s' = events s /\ mailboxes s' = mailboxes s /\
  mqueues s' = mqueues s /\ mempools s' = mempools s /\ kheap s' = kheap s /\
  ready_priority_group s' = ready_priority_group s /\ objs s' = objs s.
Proof. by intros (c & p & w & ->). Qed.

(** C12: rt_sem_release hands the semaphore to the first waiter, without
    touching the value: it becomes READY, leaves the list, and its own take
    then ends with the error it had (RT_EOK).  Without a waiter the value
    grows by one, or the call reports -RT_EFULL at 65535 and changes nothing. *)
Theorem rt_sem_release_spec (s : kstate) (sem : Z) (ob : rt_object) (v : rt_semaphore) :
  sched_ok s -> sem <> RT_NULL -> objs s !! sem = Some ob ->
  has_type RT_Object_Class_Semaphore ob -> sems s !! sem = Some v ->
  0 <= sem_value v < 65536 -> waiters_wf s (QSuspend sem) ->
  wp (rt_sem_release sem) (fun r s' =>
    match queue s (QSuspend sem) with
    | [] =>
        if sem_value v <? RT_SEM_VALUE_MAX
        then r = RT_EOK /\ s' = set_sems (<[sem := {| sem_value := sem_value v + 1 |}]>) s
        else r = - RT_EFULL /\ s' = s
    | t :: l =>
        r = RT_EOK /\ sched_ok s' /\ sems s' = sems s /\ queue s' (QSuspend sem) = l /\
        exists th th', threads s !! t = Some th /\ threads s' !! t = Some th' /\
          stat_of th' = RT_THREAD_READY /\ rt_sem_take_resumed t s' = Ok (error th, s')
    end) s.
Proof.
  intros Hok Hnn Hob Hty Hv Hr Hwf. unfold wp, rt_sem_release.
  erewrite bind_run; [cbv beta|by eapply assert_object_run].
  erewrite bind_run; [cbv beta|apply has_waiter_run].
  destruct (queue s (QSuspend sem)) as [|t l] eqn:Hq.
  - rewrite bool_decide_eq_true_2 by done. cbn [negb].
    erewrite bind_run; [cbv beta|by apply get_sem_run].
    destruct (Z.ltb_spec (sem_value v) RT_SEM_VALUE_MAX); [|done].
    unfold RT_SEM_VALUE_MAX in *. unfold set_sem, bind, modify, ret.
    split; [done|]. by rewrite u16_small by lia.
  - rewrite bool_decide_eq_false_2 by done. cbn [negb].
    destruct (rt_ipc_list_resume_run s (QSuspend sem) t l) as (th & tob & Ht & Hst & Hrun & _ & Hok1 & Hq1);
      [done..|].
    erewrite bind_run; [cbv beta|exact Hrun].
    destruct (resumed_facts _ _ _ _ Ht) as (E1 & _ & _).
    assert (Hready : threads (resumed t th tob s) !! t = Some (ready_thread th))
      by (by rewrite E1, lookup_insert_eq).
    destruct (wp_run _ _ _ (rt_schedule_wp _ _ _ Hok1 Hready (ready_thread_stat th)))
      as (a & s' & Hsch & Hsw).
    erewrite bind_run; [cbv beta|exact Hsch]. cbn [ret].
    pose proof (rt_schedule_pres _ _ _ Hok1 Hsch) as Hok'.
    apply switched_fields in Hsw as (F1 & F2 & F3 & _).
    destruct (resumed_frame s t th tob) as (G & _).
    split_and!; [done|done|congruence|by unfold queue; rewrite F2|].
    exists th, (ready_thread th). rewrite F1. split_and!; [apply Ht|done|by apply stat_of_with_stat|].
    unfold rt_sem_take_resumed. erewrite bind_run; [cbv beta|apply get_thread_run; by rewrite F1].
    change (error (ready_thread th)) with (error th).
    destruct (Z.eqb_spec (error th) RT_EOK) as [->|]; done.
Qed.

(** ** What a blocking call leaves behind *)

(** the thread's timer can be set to [time] *)
Definition timeout_ready (b : Z) (s : kstate) (t time : Z) : Prop :=
  time < 0 \/
  (0 < time /\ timer_sorted b s /\ is_Some (timers s !! thread_timer t) /\
   u32 (rt_tick s - b) + time < HALF_TICK_MAX).

Lemma start_timeout_run b s t time tob :
  thread_timer t <> RT_NULL -> objs s !! thread_timer t = Some tob ->
  has_type RT_Object_Class_Timer tob -> 0 < time -> timeout_ready b s t time ->
  exists pre suf tm1 s1, start_timeout t time s = Ok (tt, tm_started (thread_timer t) pre suf tm1 tob s1) /\
    s1 = set_timers (<[thread_timer t := tm1]>) s /\ tm_init_tick tm1 = time.
Proof.
  intros Hnn Hob Hty Htime [?|(_ & Hs & [tm Htm] & Hb)]; [lia|].
  pose proof (u32_range (rt_tick s - b)).
  assert (Hsm : u32 time = time).
  { apply u32_small. unfold HALF_TICK_MAX, RT_TICK_MAX in *. change (4294967295 / 2) with 2147483647 in *. lia. }
  set (tm1 := tm_set_init time tm). set (s1 := set_timers (<[thread_timer t := tm1]>) s).
  assert (Hs1 : timer_sorted b s1).
  { destruct Hs as [H1 H2].
    assert (Hrel : forall u, rel b s1 u = rel b s u).
    { intros u. unfold rel, tmo, s1. cbn. rewrite lookup_insert. case_decide; [subst|done].
      by rewrite Htm. }
    split.
    - intros u Hu. rewrite Hrel. destruct (H1 u Hu) as [Hx ?]. split; [|done]. unfold s1. cbn.
      rewrite lookup_insert. by case_decide.
    - eapply sorted_impl; [exact H2|]. intros. by rewrite !Hrel. }
  destruct (rt_timer_start_run b (thread_timer t) tm1 tob s1) as (pre & suf & Hrun & _);
    [done|done|done|apply lookup_insert_eq|cbn; lia|done|exact Hb|].
  exists pre, suf, tm1, s1. split_and!; [|done..].
  unfold start_timeout. erewrite bind_run; [cbv beta|].
  { erewrite bind_run; [cbv beta|exact Hrun]. reflexivity. }
  unfold rt_timer_control. erewrite bind_run; [cbv beta|by apply assert_nonnull_run].
  erewrite bind_run; [cbv beta|by eapply assert_type_run]. cbn [Z.eqb].
  change (RT_TIMER_CTRL_SET_TIME =? RT_TIMER_CTRL_GET_TIME) with false. rewrite Z.eqb_refl, Hsm.
  cbv iota. by erewrite bind_run; [|by apply upd_timer_run].
Qed.

(** the caller of a waiting operation: a READY thread outside interrupts and
    critical sections, whose timer can be set, and not the only READY thread
    (the idle thread is always READY) *)
Record can_block (b : Z) (s : kstate) (time : Z) (th : rt_thread) (tob : rt_object) : Prop := {
  cb_nest : interrupt_nest s = 0;
  cb_lock : scheduler_lock_nest s = 0;
  cb_thread : thread_wf s (rt_current_thread s) th tob;
  cb_ready : stat_of th = RT_THREAD_READY;
  cb_other : exists u uh, u <> rt_current_thread s /\ threads s !! u = Some uh /\
    stat_of uh = RT_THREAD_READY;
  cb_time : timeout_ready b s (rt_current_thread s) time;
}.

(** [s'] is [s] with its current thread suspended on [list], at a position
    allowed by [pos], for [time] ticks (for ever if negative) and the processor
    given to another thread *)
Record parked (pos : list Z -> list Z -> Prop) (s s' : kstate) (list : qhead) (time : Z)
    (th : rt_thread) : Prop := {
  bl_ok : sched_ok s';
  bl_threads : threads s' = <[rt_current_thread s := suspend_stat th]> (threads s);
  bl_queue : exists pre suf, queue s list = pre ++ suf /\
    queue s' list = pre ++ rt_current_thread s :: suf /\ pos pre suf;
  bl_queues : forall h, h <> list -> queue s' h = lremove (rt_current_thread s) (queue s h);
  bl_switch : is_highest s' (rt_current_thread s') /\ rt_current_thread s' <> rt_current_thread s;
  bl_timer : 0 < time -> thread_timer (rt_current_thread s) ∈ rt_timer_list s' /\
    tmo s' (thread_timer (rt_current_thread s)) = u32 (rt_tick s + time);
  bl_frame : sems s' = sems s /\ mutexes s' = mutexes s /\ events s' = events s /\
    mailboxes s' = mailboxes s /\ mqueues s' = mqueues s /\ mempools s' = mempools s /\
    kheap s' = kheap s /\ rt_tick s' = rt_tick s;
}.
(** in the order that [flag] asks for *)
Definition blocked (s s' : kstate) (list : qhead) (flag time : Z) (th : rt_thread) : Prop :=
  parked (wait_position s flag (current_priority th)) s s' list time th.

(** what a suspension leaves alone *)
Lemma suspended_frame s t th tob :
  let s' := suspended t th tob s in
  sems s' = sems s /\ mutexes s' = mutexes s /\ events s' = events s /\
  mailboxes s' = mailboxes s /\ mqueues s' = mqueues s /\ mempools s' = mempools s /\
  kheap s' = kheap s /\ rt_tick s' = rt_tick s /\ timers s' = timers s /\
  interrupt_nest s' = interrupt_nest s /\ scheduler_lock_nest s' = scheduler_lock_nest s /\
  rt_current_thread s' = rt_current_thread s.
Proof.
  unfold suspended, stopped, do_remove. cbv zeta.
  destruct (timer_active tob); case_bool_decide; cbn; split_and!; reflexivity.
Qed.
Lemma suspended_timer_list s t th tob :
  let s' := suspended t th tob s in
  rt_timer_list s' = rt_timer_list s \/ rt_timer_list s' = lremove (thread_timer t) (rt_timer_list s).
Proof.
  unfold suspended, stopped, do_remove. cbv zeta.
  destruct (timer_active tob); case_bool_decide; cbn; auto.
Qed.

Lemma timer_sorted_sub b s s' :
  timers s' = timers s ->
  rt_timer_list s' = rt_timer_list s \/ (exists t, rt_timer_list s' = lremove t (rt_timer_list s)) ->
  timer_sorted b s -> timer_sorted b s'.
Proof.
  intros Et El [H1 H2].
  assert (Hrel : forall u, rel b s' u = rel b s u) by (intros u; apply rel_frame; by rewrite Et).
  split.
  - intros u Hu. rewrite Et, Hrel. apply H1.
    destruct El as [E|[t E]]; rewrite E in Hu; [done|]. by apply elem_of_lremove in Hu as [].
  - eapply sorted_impl with (R := fun t u => rel b s t <= rel b s u).
    + destruct El as [->|[t ->]]; [done|by apply sorted_lremove].
    + intros. by rewrite !Hrel.
Qed.

Lemma timeout_ready_frame b s s' t time :
  timers s' = timers s -> rt_timer_list s' = rt_timer_list s -> rt_tick s' = rt_tick s ->
  timeout_ready b s t time -> timeout_ready b s' t time.
Proof.
  intros E1 E2 E3 [?|(Htime & Hs & Htm & Hb)]; [by left|right]. rewrite E1, E3.
  split_and!; [done| |done..]. eapply timer_sorted_sub; [exact E1|by left|exact Hs].
Qed.
Lemma timeout_ready_suspended b s t th tob time :
  timeout_ready b s t time -> timeout_ready b (suspended t th tob s) t time.
Proof.
  intros [?|(Htime & Hs & Htm & Hb)]; [by left|right].
  destruct (suspended_frame s t th tob) as (_&_&_&_&_&_&_& E1 & E2 & _). rewrite E1, E2.
  split_and!; [done| |done|done]. eapply timer_sorted_sub; [exact E2| |exact Hs].
  destruct (suspended_timer_list s t th tob) as [|]; eauto.
Qed.

(** [s'] differs from [s] in the timers only *)
Definition timers_only (s s' : kstate) : Prop :=
  exists f1 f2 f3 f4 f5, s' = set_objs f1 (set_rt_timer_list f2 (set_random_nr f3
    (set_timers f4 (set_check_list f5 s)))).
Lemma timers_only_refl s : timers_only s s.
Proof. exists id, id, id, id, id. by destruct s. Qed.

Lemma timeout_step b s t time tob :
  thread_timer t <> RT_NULL -> objs s !! thread_timer t = Some tob ->
  has_type RT_Object_Class_Timer tob -> timeout_ready b s t time ->
  exists s', when (0 <? time) (start_timeout t time) s = Ok (tt, s') /\ timers_only s s' /\
    (0 < time -> thread_timer t ∈ rt_timer_list s' /\
      tmo s' (thread_timer t) = u32 (rt_tick s + time)).
Proof.
  intros Hnn Hob Hty Hr. destruct (Z.ltb_spec 0 time) as [Hlt|Hle]; cbn [when].
  - destruct (start_timeout_run b s t time tob) as (pre & suf & tm1 & s1 & Hrun & -> & Hi); [done..|].
    eexists. split_and!; [exact Hrun| |].
    + eexists _, _, _, (fun m => <[_ := _]> (<[thread_timer t := tm1]> m)), _. reflexivity.
    + intros _. split; [cbn; set_solver|]. unfold tmo. cbn. rewrite lookup_insert_eq. cbn. by rewrite Hi.
  - exists s. split; [done|]. split; [apply timers_only_refl|lia].
Qed.

(** giving up the processor when another thread is READY *)
Lemma schedule_away s t th u uh :
  sched_ok s -> scheduler_lock_nest s = 0 -> threads s !! t = Some th ->
  stat_of th <> RT_THREAD_READY -> threads s !! u = Some uh -> stat_of uh = RT_THREAD_READY ->
  exists s', rt_schedule s = Ok (tt, s') /\ switched s s' /\ sched_ok s' /\
    is_highest s' (rt_current_thread s') /\ rt_current_thread s' <> t.
Proof.
  intros Hok Hl Ht Hst Hu Hus.
  destruct (wp_run _ _ _ (rt_schedule_selects s u uh Hok Hl Hu Hus)) as ([] & s' & Hrun & Hh & Et & _).
  exists s'. split_and!; [done|by eapply rt_schedule_switched|by eapply rt_schedule_pres|done|].
  intros E. destruct Hh as (ch & Hc & Hcs & _). rewrite E, Et, Ht in Hc. by injection Hc as <-.
Qed.

(** the common end of the waiting operations, once the caller is suspended
    and on the list *)
Lemma park_run {A} (k : K A) pos b s list time th tob pre suf :
  sched_ok s -> wait_list list -> can_block b s time th tob ->
  queue s list = pre ++ suf -> pos pre suf ->
  exists s', (when (0 <? time) (start_timeout (rt_current_thread s) time);; rt_schedule;; k)
      (set_queues (<[list := pre ++ rt_current_thread s :: suf]>)
        (suspended (rt_current_thread s) th tob s)) = k s' /\
    parked pos s s' list time th.
Proof.
  intros Hok Hl [Hn Hlk Hwf Hst (u & uh & Hut & Hu & Hus) Htime] Hq Hpos.
  set (t := rt_current_thread s) in *.
  destruct (suspended_enqueue _ _ _ _ _ pre suf Hok Hl Hwf Hst Hq) as (Hok2 & Et2 & Eq2 & Ho2).
  destruct (suspended_facts _ _ _ _ Hwf) as (_ & _ & _ & tob1 & Hwf1).
  set (s1 := suspended t th tob s) in *. set (s2 := set_queues _ s1) in *.
  destruct Hwf1 as [_ [_ Hnt] _ [Hob1 Hty1]].
  destruct (timeout_step b s2 t time tob1) as (s3 & Hrun3 & Hto & Htm); [done|exact Hob1|done| |].
  { apply (timeout_ready_frame b s1); [done..|]. by apply timeout_ready_suspended. }
  pose proof (suspended_frame s t th tob) as (F1&F2&F3&F4&F5&F6&F7&F8&_&_&F11&_).
  fold s1 in F1, F2, F3, F4, F5, F6, F7, F8, F11.
  destruct (schedule_away s3 t (suspend_stat th) u uh) as (s4 & Hrun4 & Hsw & Hok4 & Hhi & Hne).
  { destruct Hto as (?&?&?&?&?& ->). by eapply sched_ok_frame; [..|exact Hok2]. }
  { destruct Hto as (?&?&?&?&?& ->). cbn. by rewrite F11. }
  { destruct Hto as (?&?&?&?&?& ->). change (threads s2 !! t = Some (suspend_stat th)).
    rewrite Et2. apply lookup_insert_eq. }
  { unfold suspend_stat. by rewrite stat_of_with_stat. }
  { destruct Hto as (?&?&?&?&?& ->). change (threads s2 !! u = Some uh). by rewrite Et2, lookup_insert_ne. }
  { done. }
  exists s4. split.
  { erewrite bind_run; [cbv beta|exact Hrun3]. by erewrite bind_run; [|exact Hrun4]. }
  assert (rt_timer_list s4 = rt_timer_list s3 /\ tmo s4 = tmo s3) as [El Ett]
    by (destruct Hsw as (?&?&?& ->); split; reflexivity).
  assert (Hf : queues s4 = queues s2 /\ threads s4 = threads s2 /\ kheap s4 = kheap s2 /\
    sems s4 = sems s2 /\ mutexes s4 = mutexes s2 /\ events s4 = events s2 /\
    mailboxes s4 = mailboxes s2 /\ mqueues s4 = mqueues s2 /\ mempools s4 = mempools s2 /\
    rt_tick s4 = rt_tick s2).
  { destruct Hsw as (?&?&?& ->). destruct Hto as (?&?&?&?&?& ->). split_and!; reflexivity. }
  destruct Hf as (G1&G2&G3&G4&G5&G6&G7&G8&G9&G10).
  split; try done; unfold queue in *; rewrite ?G1, ?G2; try done.
  - by exists pre, suf.
  - rewrite El, Ett. fold t. intros Hlt. destruct (Htm Hlt) as [H1 H2]. split; [done|].
    rewrite H2. change (rt_tick s2) with (rt_tick s1). by rewrite F8.
  - rewrite G3, G4, G5, G6, G7, G8, G9, G10. split_and!; done.
Qed.

Lemma block_run {A} (k : K A) b s list flag time th tob :
  sched_ok s -> wait_list list -> flag = RT_IPC_FLAG_FIFO \/ flag = RT_IPC_FLAG_PRIO ->
  can_block b s time th tob ->
  exists s', (rt_ipc_list_suspend list (rt_current_thread s) flag;;
      when (0 <? time) (start_timeout (rt_current_thread s) time);;
      rt_schedule;; k) s = k s' /\ blocked s s' list flag time th.
Proof.
  intros Hok Hl Hflag Hb. pose proof Hb as [_ _ Hwf Hst _ _].
  destruct (rt_ipc_list_suspend_run _ _ _ _ _ _ Hok Hl Hwf Hst Hflag) as (pre & suf & Hq & Hpos & Hrun).
  destruct (park_run k (wait_position s flag (current_priority th)) b s list time th tob pre suf)
    as (s' & Hk & Hp); [done..|].
  exists s'. split; [|exact Hp]. by erewrite bind_run; [|exact Hrun].
Qed.

(** the caller changes fields of its own record before it waits *)
Lemma can_block_upd b s time th th' tob :
  can_block b s time th tob -> stat_of th' = stat_of th ->
  can_block b (set_threads (<[rt_current_thread s := th']>) s) time th' tob.
Proof.
  intros [H1 H2 [Ht Hnn Hob Htob] Hst (u & uh & Hne & Hu & Hus) Htime] E. split; try done.
  - split; [apply lookup_insert_eq|done..].
  - by rewrite E.
  - exists u, uh. split_and!; [done| |done]. cbn. by rewrite lookup_insert_ne.
  - destruct Htime as [?|(? & Hs & ? & ?)]; [by left|right]. split_and!; [done| |done..].
    by eapply timer_sorted_sub; [..|exact Hs]; [|left].
Qed.
Lemma in_context_run s :
  rt_current_thread s <> RT_NULL -> interrupt_nest s = 0 ->
  RT_DEBUG_IN_THREAD_CONTEXT s = Ok (tt, s).
Proof.
  intros Hnn Hn. unfold RT_DEBUG_IN_THREAD_CONTEXT, RT_DEBUG_NOT_IN_INTERRUPT.
  erewrite bind_run; [cbv beta|reflexivity].
  erewrite bind_run; [cbv beta|by apply assert_nonnull_run].
  erewrite bind_run; [cbv beta|reflexivity]. by rewrite Hn.
Qed.
Lemma in_thread_context_run b s time th tob :
  can_block b s time th tob -> RT_DEBUG_IN_THREAD_CONTEXT s = Ok (tt, s).
Proof. intros [Hn _ [_ [Hnn _] _ _] _ _ _]. by apply in_context_run. Qed.
Lemma object_flag_run o ob s : objs s !! o = Some ob -> object_flag o s = Ok (o_flag ob, s).
Proof. intros H. unfold object_flag. by erewrite bind_run; [|apply get_obj_run]. Qed.

(** C11: rt_sem_take on an available semaphore only decrements the value.  On
    an unavailable one it returns -RT_ETIMEOUT at once if asked not to wait;
    otherwise the caller is suspended on the semaphore's list, with its timer
    running if the wait is limited, another READY thread of the highest
    priority runs, and the value is unchanged. *)
Theorem rt_sem_take_spec (b : Z) (s : kstate) (sem time : Z) (ob : rt_object) (v : rt_semaphore)
    (th : rt_thread) (tob : rt_object) :
  sched_ok s -> sem <> RT_NULL -> objs s !! sem = Some ob ->
  has_type RT_Object_Class_Semaphore ob -> sems s !! sem = Some v -> 0 <= sem_value v < 65536 ->
  o_flag ob = RT_IPC_FLAG_FIFO \/ o_flag ob = RT_IPC_FLAG_PRIO ->
  (sem_value v = 0 -> time <> 0 -> can_block b s time th tob) ->
  wp (rt_sem_take sem time) (fun r s' =>
    if 0 <? sem_value v then
      r = Done RT_EOK /\ s' = set_sems (<[sem := {| sem_value := sem_value v - 1 |}]>) s
    else if time =? 0 then r = Done (- RT_ETIMEOUT) /\ s' = s
    else
      let self := rt_current_thread s in
      let th0 := th_set_error RT_EOK th in
      r = Pending self /\
      blocked (set_threads (<[self := th0]>) s) s' (QSuspend sem) (o_flag ob) time th0) s.
Proof.
  intros Hok Hnn Hob Hty Hv Hr Hflag Hblock. unfold wp, rt_sem_take.
  erewrite bind_run; [cbv beta|by eapply assert_object_run].
  erewrite bind_run; [cbv beta|by apply get_sem_run].
  destruct (Z.ltb_spec 0 (sem_value v)).
  { unfold set_sem, bind, modify, ret. split; [done|]. by rewrite u16_small by lia. }
  destruct (Z.eqb_spec time 0); [done|].
  specialize (Hblock ltac:(lia) ltac:(done)). pose proof Hblock as [_ _ [Ht _ _ _] _ _ _].
  erewrite bind_run; [cbv beta|by eapply in_thread_context_run].
  erewrite bind_run; [cbv beta|reflexivity].
  erewrite bind_run; [cbv beta|by apply upd_thread_run].
  erewrite bind_run; [cbv beta|by apply object_flag_run].
  apply (can_block_upd _ _ _ _ (th_set_error RT_EOK th)) in Hblock; [|done].
  assert (Hok1 : sched_ok (set_threads (<[rt_current_thread s := th_set_error RT_EOK th]>) s))
    by (by eapply sched_inv_upd).
  destruct (block_run (ret (@Pending Z Z (rt_current_thread s))) b _ (QSuspend sem) (o_flag ob) time _ tob
    Hok1 eq_refl Hflag Hblock) as (s' & Hrun & Hb).
  cbn [rt_current_thread set_threads] in Hrun. by rewrite Hrun.
Qed.

(** ** Waiting with a remaining time, and waking one thread *)
Lemma block_on_run b s list flag timeout d th tob :
  sched_ok s -> wait_list list -> flag = RT_IPC_FLAG_FIFO \/ flag = RT_IPC_FLAG_PRIO ->
  can_block b s timeout th tob ->
  exists s', block_on list (rt_current_thread s) flag timeout d s =
      Ok ({| w_thread := rt_current_thread s; w_timeout := timeout;
             w_tick_delta := if 0 <? timeout then rt_tick s else d |}, s') /\
    blocked s s' list flag timeout th.
Proof.
  intros Hok Hl Hflag Hb. pose proof Hb as [_ _ Hwf Hst _ _].
  set (w := {| w_thread := _; w_timeout := _; w_tick_delta := _ |}).
  destruct (block_run (ret w) b s list flag timeout th tob Hok Hl Hflag Hb) as (s' & Hrun & Hbl).
  exists s'. split; [|exact Hbl].
  destruct (rt_ipc_list_suspend_run _ _ _ _ _ _ Hok Hl Hwf Hst Hflag) as (pre & suf & _ & _ & Hs).
  erewrite bind_run in Hrun; [cbv beta in Hrun|exact Hs].
  unfold block_on. erewrite bind_run; [cbv beta|by eapply in_thread_context_run].
  erewrite bind_run; [cbv beta|exact Hs]. set (s2 := set_queues _ _) in *.
  assert (Et : rt_tick s2 = rt_tick s) by (unfold s2; cbn; apply suspended_frame).
  unfold w in *. destruct (0 <? timeout); cbn [when] in Hrun.
  - rewrite bind_assoc. erewrite bind_run; [cbv beta|reflexivity]. rewrite Et.
    rewrite bind_assoc. exact Hrun.
  - exact Hrun.
Qed.

(** the first waiter on [list], if any, has been made READY *)
Definition woken (s s' : kstate) (list : qhead) : Prop :=
  sched_ok s' /\
  match queue s list with
  | [] => threads s' = threads s /\ queues s' = queues s
  | t :: l => queue s' list = l /\
      exists th, threads s !! t = Some th /\ threads s' = <[t := ready_thread th]> (threads s)
  end.
(** the IPC objects, the heap and the clock *)
Definition same_objects (s s' : kstate) : Prop :=
  sems s' = sems s /\ mutexes s' = mutexes s /\ events s' = events s /\
  mailboxes s' = mailboxes s /\ mqueues s' = mqueues s /\ mempools s' = mempools s /\
  kheap s' = kheap s.

Lemma resume_first_run {A} (k : K A) s list t l :
  sched_ok s -> waiters_wf s list -> wait_list list -> queue s list = t :: l ->
  exists s', (rt_ipc_list_resume list;; rt_schedule;; k) s = k s' /\ woken s s' list /\
    same_objects s s'.
Proof.
  intros Hok Hwf Hl Hq.
  destruct (rt_ipc_list_resume_run s list t l) as (th & tob & Ht & _ & Hrun & _ & Hok1 & Hq1);
    [done..|].
  destruct (resumed_facts _ _ _ _ Ht) as (E1 & _ & _).
  assert (Hready : threads (resumed t th tob s) !! t = Some (ready_thread th))
    by (by rewrite E1, lookup_insert_eq).
  destruct (wp_run _ _ _ (rt_schedule_wp _ _ _ Hok1 Hready (ready_thread_stat th)))
    as ([] & s' & Hsch & Hsw).
  exists s'. split_and!.
  - erewrite bind_run; [cbv beta|exact Hrun]. by erewrite bind_run; [|exact Hsch].
  - split; [by eapply rt_schedule_pres|]. rewrite Hq.
    apply switched_fields in Hsw as (F1 & F2 & _). unfold queue. rewrite F1, F2.
    split; [exact Hq1|]. exists th. split; [apply Ht|exact E1].
  - apply switched_fields in Hsw as (_ & _ & F3 & F4 & F5 & F6 & F7 & F8 & F9 & _).
    destruct (resumed_frame s t th tob) as (G1 & G2 & G3 & G4 & G5 & G6 & G7 & _).
    unfold same_objects. rewrite F3, F4, F5, F6, F7, F8, F9. done.
Qed.
Lemma resume_first_unit s list t l :
  sched_ok s -> waiters_wf s list -> wait_list list -> queue s list = t :: l ->
  exists s', (rt_ipc_list_resume list;; rt_schedule) s = Ok (tt, s') /\ woken s s' list /\
    same_objects s s'.
Proof.
  intros Hok Hwf Hl Hq.
  destruct (resume_first_run (ret tt) s list t l Hok Hwf Hl Hq) as (s' & Hrun & Hp).
  exists s'. split; [|exact Hp]. etransitivity; [|exact Hrun].
  unfold bind. destruct (rt_ipc_list_resume list s) as [[a s1]|]; [|done].
  by destruct (rt_schedule s1) as [[[] s2]|].
Qed.

(** ** Buffers of the IPC objects in memory *)
Definition with_ram (r : mem) (s : kstate) : kstate := set_kheap (set_ram r) s.
Lemma on_heap_ram_run {A} (m : M mem A) s a r :
  m (ram (kheap s)) = Ok (a, r) -> on_heap (on_ram m) s = Ok (a, with_ram r s).
Proof. intros H. unfold on_heap, on_ram. by rewrite H. Qed.
Lemma with_ram_id s : with_ram (ram (kheap s)) s = s.
Proof. unfold with_ram. apply kstate_ext; cbn; try reflexivity. by destruct (kheap s). Qed.

(** the wait of the mailboxes and message queues on [list], the caller's error
    being reset *)
Lemma object_wait_run {R} b s o list timeout ob th tob :
  sched_ok s -> objs s !! o = Some ob -> wait_list list ->
  o_flag ob = RT_IPC_FLAG_FIFO \/ o_flag ob = RT_IPC_FLAG_PRIO ->
  can_block b s timeout th tob ->
  let self := rt_current_thread s in
  let th0 := th_set_error RT_EOK th in
  let s1 := set_threads (<[self := th0]>) s in
  let w := {| w_thread := self; w_timeout := timeout;
              w_tick_delta := if 0 <? timeout then rt_tick s else 0 |} in
  exists s', (let* flag := object_flag o in
      let* w := block_on list self flag timeout 0 in ret (@Pending R wait w)) s1 =
      Ok (Pending w, s') /\
    blocked s1 s' list (o_flag ob) timeout th0.
Proof.
  intros Hok Hob Hl Hflag Hb self th0 s1 w.
  pose proof (tw_thread _ _ _ _ (cb_thread _ _ _ _ _ Hb)) as Ht.
  assert (Hok1 : sched_ok s1) by (by eapply sched_inv_upd).
  apply (can_block_upd _ _ _ _ th0) in Hb; [|done]. fold self s1 in Hb.
  destruct (block_on_run b s1 list (o_flag ob) timeout 0 th0 tob Hok1 Hl Hflag Hb)
    as (s' & Hrun & Hbl). exists s'. split; [|done].
  erewrite bind_run; [cbv beta|by apply object_flag_run].
  by erewrite bind_run; [|exact Hrun].
Qed.
