(* ===== verification/Mutex.v ===== *)
(** The mutexes of rt-thread/kernel/src/ipc.c: recursive locks with an owner
    that inherits the priority of the threads it blocks. *)
From S2P Require Import Prelude KService Mem CpuPort Kernel Sched Object Timer Thread Ipc.

(** * Definitions *)
Definition get_mutex (mutex : Z) : K rt_mutex := let* s := get in the (mutexes s !! mutex).
Definition put_mutex (mutex : Z) (m : rt_mutex) : K unit := modify (set_mutexes (<[mutex := m]>)).
Definition mtx_set_hold v m := {| mtx_value := mtx_value m;
  original_priority := original_priority m; hold := v; owner := owner m |}.
Definition mtx_set_value v m := {| mtx_value := v;
  original_priority := original_priority m; hold := hold m; owner := owner m |}.
Definition mtx_set_owner o p m := {| mtx_value := mtx_value m;
  original_priority := p; hold := hold m; owner := o |}.
Definition new_mutex : rt_mutex :=
  {| mtx_value := 1; original_priority := 255; hold := 0; owner := RT_NULL |}.

Definition rt_mutex_init (mutex : Z) (name : list Z) (flag : Z) : K Z :=
  rt_assert (negb (mutex =? RT_NULL));;
  rt_object_init mutex RT_Object_Class_Mutex name;;
  rt_ipc_object_init mutex;;
  put_mutex mutex new_mutex;;
  set_object_flag mutex flag;;
  ret RT_EOK.

Definition rt_mutex_detach (mutex : Z) : K Z :=
  assert_static mutex RT_Object_Class_Mutex;;
  rt_ipc_list_resume_all (QSuspend mutex);;
  rt_object_detach mutex;;
  ret RT_EOK.

Definition rt_mutex_create (name : list Z) (flag : Z) : K Z :=
  RT_DEBUG_NOT_IN_INTERRUPT;;
  let* mutex := rt_object_allocate RT_Object_Class_Mutex name in
  if mutex =? RT_NULL then ret mutex
  else
    rt_ipc_object_init mutex;;
    put_mutex mutex new_mutex;;
    set_object_flag mutex flag;;
    ret mutex.

Definition rt_mutex_delete (mutex : Z) : K Z :=
  RT_DEBUG_NOT_IN_INTERRUPT;;
  assert_dynamic mutex RT_Object_Class_Mutex;;
  rt_ipc_list_resume_all (QSuspend mutex);;
  rt_object_delete mutex;;
  ret RT_EOK.

Section mutex.
Context {UC : UserCode}.

(** if (thread->current_priority < mutex->owner->current_priority)
    raise the owner to it *)
Definition inherit_priority (owner prio : Z) : K unit :=
  let* oth := get_thread owner in
  when (prio <? current_priority oth)
    (let* _r := rt_thread_control owner RT_THREAD_CTRL_CHANGE_PRIORITY prio in ret tt).

Definition rt_mutex_take (mutex time : Z) : K (outcome Z Z) :=
  RT_DEBUG_IN_THREAD_CONTEXT;;
  assert_object mutex RT_Object_Class_Mutex;;
  let* thread := rt_thread_self in
  upd_thread thread (th_set_error RT_EOK);;
  let* m := get_mutex mutex in
  if owner m =? thread then
    if hold m <? RT_MUTEX_HOLD_MAX then
      put_mutex mutex (mtx_set_hold (u8 (hold m + 1)) m);; ret (Done RT_EOK)
    else ret (Done (- RT_EFULL))
  else if 0 <? mtx_value m then
    let* th := get_thread thread in
    let m' := mtx_set_owner thread (current_priority th) (mtx_set_value (u16 (mtx_value m - 1)) m) in
    put_mutex mutex m';;
    if hold m' <? RT_MUTEX_HOLD_MAX then
      put_mutex mutex (mtx_set_hold (u8 (hold m' + 1)) m');; ret (Done RT_EOK)
    else ret (Done (- RT_EFULL))
  else if time =? 0 then
    upd_thread thread (th_set_error (- RT_ETIMEOUT));;
    ret (Done (- RT_ETIMEOUT))
  else
    (let* th := get_thread thread in inherit_priority (owner m) (current_priority th));;
    let* flag := object_flag mutex in
    rt_ipc_list_suspend (QSuspend mutex) thread flag;;
    when (0 <? time) (start_timeout thread time);;
    rt_schedule;;
    ret (Pending thread).

Definition rt_mutex_take_resumed (thread : Z) : K Z :=
  let* th := get_thread thread in
  if negb (error th =? RT_EOK) then ret (error th) else ret RT_EOK.

(** the block of rt_mutex_release for hold == 0 *)
Definition mutex_unlock (mutex : Z) (m : rt_mutex) : K Z :=
  (let* oth := get_thread (owner m) in
   when (negb (original_priority m =? current_priority oth))
     (let* _r := rt_thread_control (owner m) RT_THREAD_CTRL_CHANGE_PRIORITY
        (original_priority m) in ret tt));;
  let* b := has_waiter (QSuspend mutex) in
  if b then
    let* thread := first_thread (QSuspend mutex) in
    let* th := get_thread thread in
    let m := mtx_set_owner thread (current_priority th) m in
    put_mutex mutex m;;
    if hold m <? RT_MUTEX_HOLD_MAX then
      put_mutex mutex (mtx_set_hold (u8 (hold m + 1)) m);;
      rt_ipc_list_resume (QSuspend mutex);;
      rt_schedule;;
      ret RT_EOK
    else ret (- RT_EFULL)
  else if mtx_value m <? RT_MUTEX_VALUE_MAX then
    put_mutex mutex (mtx_set_owner RT_NULL 255 (mtx_set_value (u16 (mtx_value m + 1)) m));;
    ret RT_EOK
  else ret (- RT_EFULL).

Definition rt_mutex_release (mutex : Z) : K Z :=
  assert_object mutex RT_Object_Class_Mutex;;
  RT_DEBUG_IN_THREAD_CONTEXT;;
  let* thread := rt_thread_self in
  let* m := get_mutex mutex in
  if negb (thread =? owner m) then
    upd_thread thread (th_set_error (- RT_ERROR));; ret (- RT_ERROR)
  else
    let m := mtx_set_hold (u8 (hold m - 1)) m in
    put_mutex mutex m;;
    if hold m =? 0 then mutex_unlock mutex m else ret RT_EOK.

Definition rt_mutex_control (mutex cmd arg : Z) : K Z :=
  assert_object mutex RT_Object_Class_Mutex;;
  ret (- RT_ERROR).
End mutex.

(** * Preservation of the scheduler invariant *)
#[export] Hint Unfold get_mutex put_mutex : minv.

(** changing a thread's priority leaves the other threads alone *)
Lemma change_priority_others `{UC : UserCode} o p s r s' t :
  rt_thread_control o RT_THREAD_CTRL_CHANGE_PRIORITY p s = Ok (r, s') -> t <> o ->
  threads s' !! t = threads s !! t.
Proof.
  intros Hm Hne. unfold rt_thread_control in Hm. rewrite Z.eqb_refl in Hm.
  do 2 (apply bind_ok in Hm as (? & ? & Hstep & Hm); minv Hstep).
  apply bind_ok in Hm as (? & ? & Hm & Hr). injection Hr as _ <-.
  unfold set_priority in Hm. minv Hm.
  - match goal with H : rt_schedule_remove_thread _ _ = _ |- _ =>
      apply rt_schedule_remove_thread_inv in H as (? & ? & _ & ->) end.
    match goal with H : rt_schedule_insert_thread _ _ = _ |- _ =>
      apply rt_schedule_insert_thread_inv in H as (? & ? & _ & _ & _ & ->) end.
    cbn. by rewrite !lookup_insert_ne, threads_do_remove.
  - cbn. by rewrite lookup_insert_ne.
Qed.

Section mutex_pres.
Context `{UCO : UserCodeOk}.

Lemma get_mutex_pres mutex : preserves sched_ok (get_mutex mutex).
Proof using. unfold get_mutex. pres. Qed.
Lemma put_mutex_pres mutex m : preserves sched_ok (put_mutex mutex m).
Proof using. unfold put_mutex. pres. Qed.
Lemma inherit_priority_pres o p : preserves sched_ok (inherit_priority o p).
Proof using UCO. unfold inherit_priority. pres. Qed.
Lemma inherit_priority_others o p s r s' t :
  inherit_priority o p s = Ok (r, s') -> t <> o -> threads s' !! t = threads s !! t.
Proof using.
  intros Hm Hne. unfold inherit_priority in Hm. minv Hm; [|done].
  by eapply change_priority_others.
Qed.
Lemma inherit_can_wait o p t s r s' :
  t <> o -> can_wait t s -> inherit_priority o p s = Ok (r, s') -> can_wait t s'.
Proof using.
  intros Hne Hw Hm th Hth. rewrite (inherit_priority_others _ _ _ _ _ _ Hm Hne) in Hth.
  by apply Hw.
Qed.
Hint Resolve get_mutex_pres put_mutex_pres inherit_priority_pres : pres.

Lemma rt_mutex_init_pres mutex name flag : preserves sched_ok (rt_mutex_init mutex name flag).
Proof using. unfold rt_mutex_init. pres. Qed.
Lemma rt_mutex_detach_pres mutex : preserves sched_ok (rt_mutex_detach mutex).
Proof using. unfold rt_mutex_detach. pres. Qed.
Lemma rt_mutex_create_pres name flag : preserves sched_ok (rt_mutex_create name flag).
Proof using. unfold rt_mutex_create. pres. Qed.
Lemma rt_mutex_delete_pres mutex : preserves sched_ok (rt_mutex_delete mutex).
Proof using. unfold rt_mutex_delete. pres. Qed.

Lemma rt_mutex_take_pres mutex time s r s' :
  sched_ok s -> running_ok s -> rt_mutex_take mutex time s = Ok (r, s') -> sched_ok s'.
Proof using UCO.
  intros Hok Hw Hm. unfold rt_mutex_take in Hm. minv Hm.
  all: try (by repeat (eapply sched_inv_upd; [|eassumption|done])).
  all: apply Z.eqb_neq in Hif;
    pose proof (inherit_can_wait _ _ (rt_current_thread s1) _ _ _ (not_eq_sym Hif)
      (can_wait_error _ _ _ _ Hthe0 Hw) Hm0);
    apply inherit_priority_pres in Hm0; [|by eapply sched_inv_upd];
    eapply rt_ipc_list_suspend_ok in Hm1; [|done..].
  all: eapply rt_schedule_pres; [|eassumption]; first [done|by eapply start_timeout_pres].
Qed.
Lemma rt_mutex_take_resumed_pres t : preserves sched_ok (rt_mutex_take_resumed t).
Proof using. unfold rt_mutex_take_resumed. pres. Qed.
Lemma rt_mutex_release_pres mutex : preserves sched_ok (rt_mutex_release mutex).
Proof using UCO. unfold rt_mutex_release, mutex_unlock, rt_thread_self. pres. Qed.
Lemma rt_mutex_control_pres mutex cmd arg : preserves sched_ok (rt_mutex_control mutex cmd arg).
Proof using. unfold rt_mutex_control. pres. Qed.
End mutex_pres.
#[export] Hint Resolve rt_mutex_init_pres rt_mutex_detach_pres rt_mutex_create_pres
  rt_mutex_delete_pres rt_mutex_take_resumed_pres rt_mutex_release_pres
  rt_mutex_control_pres : pres.

(** * What a mutex does *)

(** free, or held by a thread that took it at least once *)
Definition mutex_ok (m : rt_mutex) : Prop :=
  (owner m = RT_NULL /\ mtx_value m = 1 /\ hold m = 0) \/
  (owner m <> RT_NULL /\ mtx_value m = 0 /\ 1 <= hold m <= RT_MUTEX_HOLD_MAX).

Lemma get_mutex_run mutex m s : mutexes s !! mutex = Some m -> get_mutex mutex s = Ok (m, s).
Proof. intros H. unfold get_mutex, bind, get. by rewrite H. Qed.

(** the state in which a waiting thread of priority [p] leaves the owner *)
Definition inherited (o : Z) (oth : rt_thread) (p : Z) (s : kstate) : kstate :=
  if p <? current_priority oth then prioritized o oth p s else s.

Section mutex_run.
Context {UC : UserCode}.

Lemma inherit_priority_run s o oth ob p :
  sched_ok s -> threads s !! o = Some oth -> objs s !! o = Some ob ->
  has_type RT_Object_Class_Thread ob -> 0 <= p < 32 ->
  inherit_priority o p s = Ok (tt, inherited o oth p s).
Proof using.
  intros Hok Ho Hob Hty Hp. unfold inherit_priority, inherited.
  erewrite bind_run; [cbv beta|by apply get_thread_run].
  destruct (p <? current_priority oth); cbn [when]; [|done].
  by erewrite bind_run; [|by eapply change_priority_run].
Qed.

(** inheritance leaves the waiting thread able to wait *)
Lemma can_block_inherited b s time th tob o oth p :
  sched_ok s -> threads s !! o = Some oth -> 0 <= p < 32 -> o <> rt_current_thread s ->
  can_block b s time th tob ->
  sched_ok (inherited o oth p s) /\ can_block b (inherited o oth p s) time th tob /\
  rt_current_thread (inherited o oth p s) = rt_current_thread s.
Proof using.
  intros Hok Ho Hp Hne Hb. unfold inherited. destruct (p <? current_priority oth); [|done].
  destruct (prioritized_facts o oth p s) as (Hok' & Et & _); [done..|].
  destruct (prioritized_frame o oth p s) as (F1&F2&F3&F4&F5&F6&F7&_).
  destruct Hb as [H1 H2 [Ht Hnn Hob Htob] Hst (u & uh & Hut & Hu & Hus) Htime].
  split_and!; [done| |done]. split; rewrite ?F5, ?F6, ?F7; try done.
  - split; rewrite ?F1; try done. by rewrite Et, lookup_insert_ne.
  - rewrite Et. destruct (decide (u = o)) as [->|].
    + exists o, (with_priority p oth). split_and!; [done|apply lookup_insert_eq|].
      rewrite Ho in Hu. by injection Hu as <-.
    + exists u, uh. by rewrite lookup_insert_ne.
  - by apply (timeout_ready_frame b s).
Qed.
End mutex_run.

(** ** Taking a mutex *)
Lemma inherited_priority o oth p s :
  sched_ok s -> threads s !! o = Some oth -> 0 <= p < 32 ->
  exists oth', threads (inherited o oth p s) !! o = Some oth' /\
    current_priority oth' = Z.min (current_priority oth) p.
Proof.
  intros Hok Ho Hp. unfold inherited. destruct (Z.ltb_spec p (current_priority oth)).
  - destruct (prioritized_facts o oth p s) as (_ & -> & _); [done..|].
    eexists. split; [apply lookup_insert_eq|]. cbn. lia.
  - exists oth. split; [done|lia].
Qed.
Lemma inherited_mutexes o oth p s : mutexes (inherited o oth p s) = mutexes s.
Proof. unfold inherited. destruct (_ <? _); [apply prioritized_frame|done]. Qed.
Lemma inherited_objs o oth p s : objs (inherited o oth p s) = objs s.
Proof. unfold inherited. destruct (_ <? _); [apply prioritized_frame|done]. Qed.

Section mutex_take.
Context {UC : UserCode}.

(** the wait of rt_mutex_take, from a state [s1] with the caller's error reset *)
Lemma mutex_wait_run b s1 mutex time ob m th tob oth oob :
  sched_ok s1 -> objs s1 !! mutex = Some ob ->
  o_flag ob = RT_IPC_FLAG_FIFO \/ o_flag ob = RT_IPC_FLAG_PRIO ->
  owner m <> rt_current_thread s1 -> threads s1 !! owner m = Some oth ->
  objs s1 !! owner m = Some oob -> has_type RT_Object_Class_Thread oob ->
  can_block b s1 time th tob ->
  exists s', ((let* th := get_thread (rt_current_thread s1) in
      inherit_priority (owner m) (current_priority th));;
      let* flag := object_flag mutex in
      rt_ipc_list_suspend (QSuspend mutex) (rt_current_thread s1) flag;;
      when (0 <? time) (start_timeout (rt_current_thread s1) time);;
      rt_schedule;;
      ret (Pending (rt_current_thread s1))) s1 = Ok (@Pending Z Z (rt_current_thread s1), s') /\
    blocked (inherited (owner m) oth (current_priority th) s1) s'
      (QSuspend mutex) (o_flag ob) time th /\ mutexes s' = mutexes s1 /\
    exists oth', threads s' !! owner m = Some oth' /\
      current_priority oth' = Z.min (current_priority oth) (current_priority th).
Proof using.
  intros Hok Hob Hflag Hne Ho Hoo Hot Hb.
  pose proof (tw_thread _ _ _ _ (cb_thread _ _ _ _ _ Hb)) as Ht.
  assert (Hp : 0 <= current_priority th < 32) by apply (si_range _ _ _ Hok _ _ Ht).
  destruct (can_block_inherited b s1 time th tob (owner m) oth (current_priority th))
    as (Hok2 & Hb2 & Hc2); [done..|].
  destruct (block_run (ret (@Pending Z Z (rt_current_thread s1))) b _ (QSuspend mutex)
    (o_flag ob) time th tob Hok2 eq_refl Hflag Hb2) as (s' & Hrun & Hbl).
  exists s'. split_and!.
  - rewrite bind_assoc. erewrite bind_run; [cbv beta|by apply get_thread_run].
    erewrite bind_run; [cbv beta|by eapply inherit_priority_run].
    erewrite bind_run; [cbv beta|apply object_flag_run; by rewrite inherited_objs].
    rewrite Hc2 in Hrun. exact Hrun.
  - done.
  - destruct Hbl as [_ _ _ _ _ _ (_ & E & _)]. by rewrite E, inherited_mutexes.
  - rewrite (bl_threads _ _ _ _ _ _ Hbl), Hc2, lookup_insert_ne by done.
    by apply inherited_priority.
Qed.
End mutex_take.

(** C5: rt_mutex_take by the owner nests, up to 255 times; on a free mutex
    the caller becomes the owner, with its priority recorded; on a mutex held
    by another thread the call returns -RT_ETIMEOUT at once if asked not to
    wait, and otherwise the owner inherits the caller's priority if that is
    higher, and the caller is suspended with the mutex unchanged. *)
Theorem rt_mutex_take_spec {UC : UserCode} (b : Z) (s : kstate) (mutex time : Z)
    (ob : rt_object) (m : rt_mutex) (th : rt_thread) (tob : rt_object)
    (oth : rt_thread) (oob : rt_object) :
  sched_ok s -> mutex <> RT_NULL -> objs s !! mutex = Some ob ->
  has_type RT_Object_Class_Mutex ob -> mutexes s !! mutex = Some m -> mutex_ok m ->
  o_flag ob = RT_IPC_FLAG_FIFO \/ o_flag ob = RT_IPC_FLAG_PRIO ->
  interrupt_nest s = 0 -> thread_wf s (rt_current_thread s) th tob ->
  (owner m <> RT_NULL -> owner m <> rt_current_thread s -> time <> 0 ->
    can_block b s time th tob /\ threads s !! owner m = Some oth /\
    objs s !! owner m = Some oob /\ has_type RT_Object_Class_Thread oob) ->
  let self := rt_current_thread s in
  let th0 := th_set_error RT_EOK th in
  let s1 := set_threads (<[self := th0]>) s in
  wp (rt_mutex_take mutex time) (fun r s' =>
    if owner m =? self then
      if hold m <? RT_MUTEX_HOLD_MAX
      then r = Done RT_EOK /\ s' = set_mutexes (<[mutex := mtx_set_hold (hold m + 1) m]>) s1
      else r = Done (- RT_EFULL) /\ s' = s1
    else if owner m =? RT_NULL then
      r = Done RT_EOK /\ s' = set_mutexes (<[mutex := {| mtx_value := 0;
        original_priority := current_priority th; hold := 1; owner := self |}]>) s1
    else if time =? 0 then
      r = Done (- RT_ETIMEOUT) /\ s' = set_threads (<[self := th_set_error (- RT_ETIMEOUT) th]>) s
    else r = Pending self /\
      blocked (inherited (owner m) oth (current_priority th) s1) s'
        (QSuspend mutex) (o_flag ob) time th0 /\ mutexes s' = mutexes s /\
      exists oth', threads s' !! owner m = Some oth' /\
        current_priority oth' = Z.min (current_priority oth) (current_priority th)) s.
Proof.
  intros Hok Hnn Hob Hty Hm Hmok Hflag Hnest Hwf Hwait self th0 s1.
  pose proof (tw_thread _ _ _ _ Hwf) as Ht. destruct (tw_nonnull _ _ _ _ Hwf) as [Hsn _].
  unfold wp, rt_mutex_take.
  erewrite bind_run; [cbv beta|by apply in_context_run].
  erewrite bind_run; [cbv beta|by eapply assert_object_run].
  erewrite bind_run; [cbv beta|reflexivity].
  erewrite bind_run; [cbv beta|by apply upd_thread_run]. fold self th0. fold s1.
  erewrite bind_run; [cbv beta|by apply get_mutex_run].
  unfold mutex_ok, RT_MUTEX_HOLD_MAX in *.
  destruct (Z.eqb_spec (owner m) self) as [Ho|Ho].
  { destruct (Z.ltb_spec (hold m) 255); [|done].
    unfold put_mutex, bind, modify, ret. split; [done|]. by rewrite u8_small by lia. }
  destruct (Z.eqb_spec (owner m) RT_NULL) as [Hnull|Hnull].
  { destruct Hmok as [(_ & Hv & Hh)|(? & _)]; [|done]. rewrite Hv. cbn [Z.ltb Z.compare].
    erewrite bind_run; [cbv beta|apply get_thread_run, lookup_insert_eq].
    cbn [mtx_set_owner hold mtx_set_value]. rewrite Hh. cbn [Z.ltb Z.compare].
    unfold put_mutex, bind, modify, ret. split; [done|]. kstate_eq.
    by rewrite insert_insert_eq, ?Hv. }
  destruct Hmok as [(? & _)|(_ & Hv & Hh)]; [done|]. rewrite Hv. cbn [Z.ltb Z.compare].
  destruct (Z.eqb_spec time 0) as [|Htime].
  { erewrite bind_run; [cbv beta|apply upd_thread_run, lookup_insert_eq]. split; [done|].
    kstate_eq. by rewrite insert_insert_eq. }
  destruct (Hwait Hnull Ho Htime) as (Hb & Hoth & Hoob & Hoty).
  apply (can_block_upd _ _ _ _ th0) in Hb; [|done]. fold self s1 in Hb.
  destruct (mutex_wait_run b s1 mutex time ob m th0 tob oth oob) as (s' & Hrun & Hp); try done.
  { by eapply sched_inv_upd. }
  { cbn. by rewrite lookup_insert_ne. }
  cbn [rt_current_thread set_threads s1] in Hrun. fold self in Hrun. rewrite Hrun. done.
Qed.

(** ** Releasing a mutex *)
Lemma prioritized_mutexes t th p f s :
  prioritized t th p (set_mutexes f s) = set_mutexes f (prioritized t th p s).
Proof.
  unfold prioritized, do_remove. cbv zeta. destruct (_ =? _); [|reflexivity].
  do 2 case_bool_decide; try done; reflexivity.
Qed.

(** the owner back at its original priority *)
Definition restored (t : Z) (th : rt_thread) (p : Z) (s : kstate) : kstate :=
  if p =? current_priority th then s else prioritized t th p s.
Lemma restored_mutexes t th p f s :
  restored t th p (set_mutexes f s) = set_mutexes f (restored t th p s).
Proof. unfold restored. destruct (_ =? _); [done|apply prioritized_mutexes]. Qed.

Lemma restored_facts t th tob p s list :
  sched_ok s -> thread_wf s t th tob -> stat_of th = RT_THREAD_READY -> 0 <= p < 32 ->
  wait_list list -> waiters_wf s list ->
  let s1 := restored t th p s in
  sched_ok s1 /\ mutexes s1 = mutexes s /\ queue s1 list = queue s list /\ waiters_wf s1 list /\
  (forall u, u <> t -> threads s1 !! u = threads s !! u) /\
  exists th1, threads s1 !! t = Some th1 /\ current_priority th1 = p.
Proof.
  intros Hok Hwf Hst Hp Hl Hw s1. pose proof (tw_thread _ _ _ _ Hwf) as Ht.
  assert (Hin : t ∉ queue s list).
  { intros Hin. destruct (si_stat _ _ _ Hok _ _ Hin) as (th' & Ht' & Hst').
    rewrite Ht in Ht'. injection Ht' as <-. by rewrite Hl, Hst in Hst'. }
  unfold s1, restored. destruct (Z.eqb_spec p (current_priority th)) as [E|_].
  { split_and!; try done. by exists th. }
  destruct (prioritized_facts t th p s) as (H1 & H2 & H3); [done..|].
  destruct (prioritized_frame t th p s) as (F1&_&_&_&_&_&_&_&F9&_).
  assert (Hq : queue (prioritized t th p s) list = queue s list).
  { rewrite H3, decide_True, lremove_not_elem by done. rewrite decide_False; [done|]. by intros ->. }
  split_and!; [done|done|done| | |].
  - intros u Hu. rewrite Hq in Hu. destruct (Hw u Hu) as (uh & uob & [G1 G2 G3 G4]).
    exists uh, uob. split; rewrite ?F1; try done. rewrite H2, lookup_insert_ne; [done|].
    by intros ->.
  - intros u Hu. by rewrite H2, lookup_insert_ne.
  - rewrite H2. eexists. split; [apply lookup_insert_eq|done].
Qed.

Section mutex_release.
Context {UC : UserCode}.

(** the end of a release: the mutex goes to the first waiter *)
Lemma mutex_hand_over_run s mutex m t l :
  sched_ok s -> waiters_wf s (QSuspend mutex) -> queue s (QSuspend mutex) = t :: l ->
  exists s' th, (rt_ipc_list_resume (QSuspend mutex);; rt_schedule;; ret RT_EOK)
      (set_mutexes (<[mutex := m]>) s) = Ok (RT_EOK, s') /\
    threads s !! t = Some th /\ sched_ok s' /\ queue s' (QSuspend mutex) = l /\
    mutexes s' = <[mutex := m]> (mutexes s) /\ threads s' = <[t := ready_thread th]> (threads s).
Proof using.
  intros Hok Hwf Hq. set (s1 := set_mutexes (<[mutex := m]>) s).
  assert (Hwf1 : waiters_wf s1 (QSuspend mutex)).
  { by apply (waiters_wf_frame s). }
  destruct (rt_ipc_list_resume_run s1 (QSuspend mutex) t l) as (th & tob & Ht & _ & Hrun & _ & Hok2 & Hq2);
    [done..|].
  destruct (resumed_facts _ _ _ _ Ht) as (E1 & _ & _).
  destruct (wp_run _ _ _ (rt_schedule_wp (resumed t th tob s1) t (ready_thread th) Hok2
    ltac:(by rewrite E1, lookup_insert_eq) (ready_thread_stat th))) as ([] & s' & Hsch & Hsw).
  pose proof (rt_schedule_pres _ _ _ Hok2 Hsch) as Hok'.
  apply switched_fields in Hsw as (F1 & F2 & _ & F4 & _).
  destruct (resumed_frame s1 t th tob) as (_ & G2 & _).
  exists s', th. split_and!; [|apply Ht|done|by unfold queue; rewrite F2|by rewrite F4, G2|by rewrite F1, E1].
  erewrite bind_run; [cbv beta|exact Hrun]. by erewrite bind_run; [|exact Hsch].
Qed.
End mutex_release.

(** the last release of the mutex [m] of the current thread *)
Lemma mutex_unlock_run {UC : UserCode} s mutex m th tob self :
  sched_ok s -> thread_wf s self th tob -> stat_of th = RT_THREAD_READY ->
  waiters_wf s (QSuspend mutex) -> owner m = self -> mtx_value m = 0 -> hold m = 0 ->
  0 <= original_priority m < 32 ->
  let s1 := restored self th (original_priority m) s in
  wp (mutex_unlock mutex m) (fun r s' => r = RT_EOK /\
    match queue s (QSuspend mutex) with
    | [] => s' = set_mutexes (<[mutex := new_mutex]>) s1
    | t :: l => exists h, threads s !! t = Some h /\ sched_ok s' /\
        queue s' (QSuspend mutex) = l /\
        mutexes s' = <[mutex := {| mtx_value := 0; original_priority := current_priority h;
          hold := 1; owner := t |}]> (mutexes s) /\
        threads s' = <[t := ready_thread h]> (threads s1)
    end) s.
Proof.
  intros Hok Hwf Hst Hwt Ho Hv Hh Hprio s1. pose proof (tw_thread _ _ _ _ Hwf) as Ht.
  destruct (restored_facts self th tob (original_priority m) s (QSuspend mutex))
    as (Hok1 & Em1 & Eq1 & Hwf1 & Hoth & _); [done..|]. fold s1 in Hok1, Em1, Eq1, Hwf1, Hoth.
  unfold wp, mutex_unlock. rewrite Ho, bind_assoc.
  erewrite bind_run; [cbv beta|by apply get_thread_run].
  erewrite bind_run with (s' := s1) (a := tt).
  2: { unfold s1, restored. destruct (_ =? _); cbn [negb when]; [done|].
    destruct (tw_obj _ _ _ _ Hwf) as (sob & Hsob & Hsty).
    by erewrite bind_run; [|by eapply (change_priority_run self th sob)]. }
  erewrite bind_run; [cbv beta|apply has_waiter_run]. rewrite Eq1.
  destruct (queue s (QSuspend mutex)) as [|t l] eqn:Hq.
  { rewrite bool_decide_eq_true_2 by done. cbn [negb]. rewrite Hv.
    change (0 <? RT_MUTEX_VALUE_MAX) with true. cbv iota.
    unfold put_mutex, bind, modify, ret. split; [done|]. unfold mtx_set_owner, mtx_set_value.
    cbn. by rewrite Hh. }
  rewrite bool_decide_eq_false_2 by done. cbn [negb].
  destruct (Hwt t) as (h & hob & Hh'); [rewrite Hq; left|].
  assert (Hne : t <> self).
  { intros ->. assert (Hin : self ∈ queue s (QSuspend mutex)) by (rewrite Hq; left).
    destruct (si_stat _ _ _ Hok _ _ Hin) as (th' & Ht' & Hst'). rewrite Ht in Ht'.
    injection Ht' as <-. by rewrite Hst in Hst'. }
  assert (Hh1 : threads s1 !! t = Some h) by (rewrite Hoth by done; apply Hh').
  erewrite bind_run; [cbv beta|unfold first_thread; erewrite bind_run by reflexivity;
    rewrite Eq1; reflexivity].
  erewrite bind_run; [cbv beta|by apply get_thread_run].
  cbn [mtx_set_owner hold]. erewrite bind_run; [cbv beta|reflexivity]. rewrite Hh.
  change (0 <? RT_MUTEX_HOLD_MAX) with true. cbv iota.
  erewrite bind_run; [cbv beta|reflexivity].
  set (m' := mtx_set_hold (u8 (0 + 1)) _).
  destruct (mutex_hand_over_run s1 mutex m' t l) as
    (s' & h' & Hrun & Hh2 & Hok' & Hq' & Em' & Et'); [done|done|congruence|].
  replace (set_mutexes _ (set_mutexes _ s1)) with (set_mutexes (<[mutex := m']>) s1).
  2: { apply kstate_ext; cbn; try reflexivity. by rewrite insert_insert_eq. }
  rewrite Hrun. split; [done|]. rewrite Hh1 in Hh2. injection Hh2 as <-.
  exists h. split_and!; try done; [apply Hh'|]. rewrite Em', Em1. unfold m', mtx_set_hold, mtx_set_owner.
  cbn. by rewrite Hv.
Qed.

(** C4: Only the owner can release a mutex; anybody else gets -RT_ERROR.  A
    nested release only decrements the nesting count.  The last release gives
    the owner its original priority back and either frees the mutex or, if
    threads wait, makes the first of them the owner, holding the mutex once
    and READY to run: the mutex is never seen free in between. *)
Theorem rt_mutex_release_spec {UC : UserCode} (s : kstate) (mutex : Z) (ob : rt_object)
    (m : rt_mutex) (th : rt_thread) (tob : rt_object) :
  sched_ok s -> mutex <> RT_NULL -> objs s !! mutex = Some ob ->
  has_type RT_Object_Class_Mutex ob -> mutexes s !! mutex = Some m -> mutex_ok m ->
  interrupt_nest s = 0 -> thread_wf s (rt_current_thread s) th tob ->
  stat_of th = RT_THREAD_READY -> waiters_wf s (QSuspend mutex) ->
  (owner m = rt_current_thread s -> 0 <= original_priority m < 32) ->
  let self := rt_current_thread s in
  let s1 := restored self th (original_priority m) s in
  wp (rt_mutex_release mutex) (fun r s' =>
    if negb (self =? owner m)
    then r = - RT_ERROR /\ s' = set_threads (<[self := th_set_error (- RT_ERROR) th]>) s
    else r = RT_EOK /\
      if 1 <? hold m then s' = set_mutexes (<[mutex := mtx_set_hold (hold m - 1) m]>) s
      else match queue s (QSuspend mutex) with
      | [] => s' = set_mutexes (<[mutex := new_mutex]>) s1
      | t :: l => exists h, threads s !! t = Some h /\ sched_ok s' /\
          queue s' (QSuspend mutex) = l /\
          mutexes s' = <[mutex := {| mtx_value := 0; original_priority := current_priority h;
            hold := 1; owner := t |}]> (mutexes s) /\
          threads s' = <[t := ready_thread h]> (threads s1)
      end) s.
Proof.
  intros Hok Hnn Hob Hty Hm Hmok Hnest Hwf Hst Hwt Hprio self s1.
  pose proof (tw_thread _ _ _ _ Hwf) as Ht. destruct (tw_nonnull _ _ _ _ Hwf) as [Hsn _].
  fold self in Ht, Hsn, Hwf, Hprio. unfold wp, rt_mutex_release.
  erewrite bind_run; [cbv beta|by eapply assert_object_run].
  erewrite bind_run; [cbv beta|by apply in_context_run].
  erewrite bind_run; [cbv beta|reflexivity].
  erewrite bind_run; [cbv beta|by apply get_mutex_run]. fold self.
  destruct (Z.eqb_spec self (owner m)) as [Ho|Ho]; cbn [negb].
  2: { by erewrite bind_run; [|by apply upd_thread_run]. }
  destruct Hmok as [(E & _)|(_ & Hv & Hh)]; [congruence|]. unfold RT_MUTEX_HOLD_MAX in Hh.
  rewrite u8_small by lia. erewrite bind_run; [cbv beta|reflexivity]. cbn [hold mtx_set_hold].
  destruct (Z.ltb_spec 1 (hold m)) as [H1|H1].
  { by rewrite (proj2 (Z.eqb_neq _ _)) by lia. }
  replace (hold m - 1) with 0 by lia. cbn [Z.eqb].
  set (s2 := set_mutexes _ s).
  opose proof* (mutex_unlock_run s2 mutex (mtx_set_hold 0 m) th tob self) as Hu; try done.
  { by apply (thread_wf_frame s). }
  { by apply (waiters_wf_frame s). }
  { by apply Hprio. }
  apply wp_run in Hu as (r & s' & Hrun & -> & Hpost).
  rewrite Hrun. split; [done|]. cbn [original_priority mtx_set_hold] in Hpost.
  unfold s2 in Hpost. rewrite restored_mutexes in Hpost. fold s1 in Hpost.
  change (queue (set_mutexes ?f ?x) ?y) with (queue x y) in Hpost.
  destruct (queue s (QSuspend mutex)) as [|t l].
  - rewrite Hpost. apply kstate_ext; cbn; try reflexivity. by rewrite insert_insert_eq.
  - destruct Hpost as (h & G1 & G2 & G3 & G4 & G5). exists h. split_and!; try done.
    rewrite G4. cbn. by rewrite insert_insert_eq.
Qed.
