(* ===== verification/Event.v ===== *)
(** The event sets of rt-thread/kernel/src/ipc.c: 32 event flags on which
    threads wait for all (AND) or some (OR) of a set. *)
From S2P Require Import Prelude KService Mem CpuPort Kernel Sched Object Timer Thread Ipc.

(** * Definitions *)
Definition get_event (event : Z) : K Z := let* s := get in let* e := the (events s !! event) in ret (ev_set e).
Definition put_event (event set : Z) : K unit := modify (set_events (<[event := {| ev_set := set |}]>)).

Definition has_flag (x flag : Z) : bool := truthy (Z.land x flag).

Definition rt_event_init (event : Z) (name : list Z) (flag : Z) : K Z :=
  rt_assert (negb (event =? RT_NULL));;
  rt_object_init event RT_Object_Class_Event name;;
  set_object_flag event flag;;
  rt_ipc_object_init event;;
  put_event event 0;;
  ret RT_EOK.

Definition rt_event_detach (event : Z) : K Z :=
  assert_static event RT_Object_Class_Event;;
  rt_ipc_list_resume_all (QSuspend event);;
  rt_object_detach event;;
  ret RT_EOK.

Definition rt_event_create (name : list Z) (flag : Z) : K Z :=
  RT_DEBUG_NOT_IN_INTERRUPT;;
  let* event := rt_object_allocate RT_Object_Class_Event name in
  if event =? RT_NULL then ret event
  else
    set_object_flag event flag;;
    rt_ipc_object_init event;;
    put_event event 0;;
    ret event.

Definition rt_event_delete (event : Z) : K Z :=
  assert_dynamic event RT_Object_Class_Event;;
  RT_DEBUG_NOT_IN_INTERRUPT;;
  rt_ipc_list_resume_all (QSuspend event);;
  rt_object_delete event;;
  ret RT_EOK.

(** the test of one waiter; [None] is the early return of -RT_EINVAL *)
Definition event_test (thread set : Z) : K (option bool) :=
  let* th := get_thread thread in
  if has_flag (event_info th) RT_EVENT_FLAG_AND then
    ret (Some (Z.land (event_set th) set =? event_set th))
  else if has_flag (event_info th) RT_EVENT_FLAG_OR then
    if truthy (Z.land (event_set th) set) then
      upd_thread thread (th_set_event (Z.land (event_set th) set) (event_info th));;
      ret (Some true)
    else ret (Some false)
  else ret None.

(** a satisfied waiter takes its flags, if it asked to, and runs again *)
Definition event_wake (event thread : Z) : K unit :=
  let* th := get_thread thread in
  when (has_flag (event_info th) RT_EVENT_FLAG_CLEAR)
    (let* set := get_event event in put_event event (Z.land set (Z.lnot (event_set th))));;
  let* _r := rt_thread_resume thread in ret tt.

(** The while loop. The successor is read before the thread leaves the list,
    so the loop visits the waiters there were. *)
Fixpoint event_send_loop (event : Z) (waiters : list Z) (need_schedule : bool) : K (option bool) :=
  match waiters with
  | [] => ret (Some need_schedule)
  | thread :: waiters =>
      let* set := get_event event in
      let* status := event_test thread set in
      match status with
      | None => ret None
      | Some true => event_wake event thread;; event_send_loop event waiters true
      | Some false => event_send_loop event waiters need_schedule
      end
  end.

Definition rt_event_send (event set : Z) : K Z :=
  assert_object event RT_Object_Class_Event;;
  if set =? 0 then ret (- RT_ERROR)
  else
    (let* old := get_event event in put_event event (Z.lor old set));;
    let* s := get in
    let* r := event_send_loop event (queue s (QSuspend event)) false in
    match r with
    | None => ret (- RT_EINVAL)
    | Some need_schedule => when need_schedule rt_schedule;; ret RT_EOK
    end.

(** the result is the error code with the value of *recved, if it was set *)
Definition rt_event_recv (event set option timeout : Z) : K (outcome (Z * Datatypes.option Z) Z) :=
  RT_DEBUG_IN_THREAD_CONTEXT;;
  assert_object event RT_Object_Class_Event;;
  if set =? 0 then ret (Done (- RT_ERROR, None))
  else
    let* thread := rt_thread_self in
    upd_thread thread (th_set_error RT_EOK);;
    let* evset := get_event event in
    let* ok :=
      (if has_flag option RT_EVENT_FLAG_AND then ret (Z.land evset set =? set)
       else if has_flag option RT_EVENT_FLAG_OR then ret (truthy (Z.land evset set))
       else raise AssertFailed) in
    if ok then
      upd_thread thread (th_set_event (Z.land evset set) option);;
      when (has_flag option RT_EVENT_FLAG_CLEAR) (put_event event (Z.land evset (Z.lnot set)));;
      let* th := get_thread thread in
      ret (Done (error th, Some (Z.land evset set)))
    else if timeout =? 0 then
      upd_thread thread (th_set_error (- RT_ETIMEOUT));;
      ret (Done (- RT_ETIMEOUT, None))
    else
      upd_thread thread (th_set_event set option);;
      let* flag := object_flag event in
      rt_ipc_list_suspend (QSuspend event) thread flag;;
      when (0 <? timeout) (start_timeout thread timeout);;
      rt_schedule;;
      ret (Pending thread).

Definition rt_event_recv_resumed (thread : Z) : K (Z * Datatypes.option Z) :=
  let* th := get_thread thread in
  if negb (error th =? RT_EOK) then ret (error th, None)
  else ret (error th, Some (event_set th)).

Definition rt_event_control (event cmd arg : Z) : K Z :=
  assert_object event RT_Object_Class_Event;;
  if cmd =? RT_IPC_CMD_RESET then
    rt_ipc_list_resume_all (QSuspend event);;
    put_event event 0;;
    rt_schedule;;
    ret RT_EOK
  else ret (- RT_ERROR).

(** * Preservation of the scheduler invariant *)
#[export] Hint Unfold get_event put_event : minv.
Lemma get_event_pres event : preserves sched_ok (get_event event).
Proof. unfold get_event. pres. Qed.
Lemma put_event_pres event set : preserves sched_ok (put_event event set).
Proof. unfold put_event. pres. Qed.
#[export] Hint Resolve get_event_pres put_event_pres : pres.
Lemma rt_event_init_pres event name flag : preserves sched_ok (rt_event_init event name flag).
Proof. unfold rt_event_init. pres. Qed.
Lemma rt_event_detach_pres event : preserves sched_ok (rt_event_detach event).
Proof. unfold rt_event_detach. pres. Qed.
Lemma rt_event_create_pres name flag : preserves sched_ok (rt_event_create name flag).
Proof. unfold rt_event_create. pres. Qed.
Lemma rt_event_delete_pres event : preserves sched_ok (rt_event_delete event).
Proof. unfold rt_event_delete. pres. Qed.
Lemma event_test_pres thread set : preserves sched_ok (event_test thread set).
Proof. unfold event_test. pres. Qed.
Lemma event_wake_pres event thread : preserves sched_ok (event_wake event thread).
Proof. unfold event_wake. pres. Qed.
#[export] Hint Resolve event_test_pres event_wake_pres : pres.
Lemma event_send_loop_pres event l b : preserves sched_ok (event_send_loop event l b).
Proof. revert b. induction l; intros b; cbn; pres. Qed.
#[export] Hint Resolve event_send_loop_pres : pres.
Lemma rt_event_send_pres event set : preserves sched_ok (rt_event_send event set).
Proof. unfold rt_event_send. pres. Qed.
Lemma rt_event_recv_pres event set option timeout s r s' :
  sched_ok s -> running_ok s -> rt_event_recv event set option timeout s = Ok (r, s') ->
  sched_ok s'.
Proof.
  intros Hok Hw Hm. unfold rt_event_recv in Hm. minv Hm; try done.
  all: try (by repeat (eapply sched_inv_upd; [|eassumption|done])).
  all: match goal with H : rt_ipc_list_suspend _ _ _ _ = _ |- _ =>
    eapply rt_ipc_list_suspend_ok in H; [|done|by repeat (eapply sched_inv_upd; [|eassumption|done])|] end.
  all: try (eapply rt_schedule_pres; [|eassumption]; first [done|by eapply start_timeout_pres]).
  all: intros th Hth; cbn in *; rewrite !lookup_insert_eq in *; simplify_eq;
    match goal with H : threads _ !! _ = Some _ |- _ => by apply (Hw _ H) end.
Qed.
Lemma rt_event_recv_resumed_pres t : preserves sched_ok (rt_event_recv_resumed t).
Proof. unfold rt_event_recv_resumed. pres. Qed.
Lemma rt_event_control_pres event cmd arg : preserves sched_ok (rt_event_control event cmd arg).
Proof. unfold rt_event_control. pres. Qed.
#[export] Hint Resolve rt_event_init_pres rt_event_detach_pres rt_event_create_pres
  rt_event_delete_pres rt_event_send_pres rt_event_recv_resumed_pres rt_event_control_pres : pres.

(** * What sending does *)

(** the flags a waiter receives from the set [set], if it is satisfied *)
Definition received (th : rt_thread) (set : Z) : option Z :=
  if has_flag (event_info th) RT_EVENT_FLAG_AND then
    if Z.land (event_set th) set =? event_set th then Some (event_set th) else None
  else if truthy (Z.land (event_set th) set) then Some (Z.land (event_set th) set) else None.

(** The abstract specification of rt_event_send: go through the waiters in
    order; a satisfied one receives its flags, and takes them out of the set
    if it asked to.  The result is the final set, the woken threads with what
    they received, and the threads that go on waiting. *)
Fixpoint event_serve (ths : gmap Z rt_thread) (set : Z) (waiters : list Z) :
    Z * list (Z * Z) * list Z :=
  match waiters with
  | [] => (set, [], [])
  | t :: waiters =>
      match ths !! t with
      | None => (set, [], t :: waiters)
      | Some th =>
          match received th set with
          | Some got =>
              let set' := if has_flag (event_info th) RT_EVENT_FLAG_CLEAR
                then Z.land set (Z.lnot got) else set in
              let r := event_serve ths set' waiters in (r.1.1, (t, got) :: r.1.2, r.2)
          | None => let r := event_serve ths set waiters in (r.1.1, r.1.2, t :: r.2)
          end
      end
  end.

(** a waiter states whether it waits for all or for some flags, as
    rt_event_recv makes it *)
Definition waits_for_flags (th : rt_thread) : Prop :=
  has_flag (event_info th) RT_EVENT_FLAG_AND = true \/
  has_flag (event_info th) RT_EVENT_FLAG_OR = true.

Lemma event_serve_ext ths ths' set l :
  (forall t, t ∈ l -> ths' !! t = ths !! t) -> event_serve ths' set l = event_serve ths set l.
Proof.
  revert set. induction l as [|t l IH]; intros set Hl; [done|]. cbn.
  rewrite (Hl t) by left. destruct (ths !! t) as [th|]; [|done].
  destruct (received th set); by rewrite IH by (intros; apply Hl; by right).
Qed.

Lemma event_serve_woken ths set l t : t ∈ (event_serve ths set l).1.2.*1 -> t ∈ l.
Proof.
  revert set. induction l as [|u l IH]; intros set; cbn; [done|].
  destruct (ths !! u) as [uh|]; [|by intros ?%elem_of_nil].
  destruct (received uh set); cbn; [|right; eauto].
  intros [->|Hx]%elem_of_cons; [left|right; eauto].
Qed.

Lemma get_event_run event set s :
  events s !! event = Some {| ev_set := set |} -> get_event event s = Ok (set, s).
Proof. intros H. unfold get_event, bind, get. by rewrite H. Qed.

(** a waiter at any place of the list can be resumed *)
Lemma resume_waiter_run s list t th tob :
  sched_ok s -> wait_list list -> t ∈ queue s list -> thread_wf s t th tob ->
  rt_thread_resume t s = Ok (RT_EOK, resumed t th tob s) /\
  sched_ok (resumed t th tob s) /\
  queue (resumed t th tob s) list = lremove t (queue s list).
Proof.
  intros Hok Hl Hin Hwf. destruct (si_stat _ _ _ Hok _ _ Hin) as (th' & Ht' & Hst).
  rewrite (tw_thread _ _ _ _ Hwf) in Ht'. injection Ht' as <-. rewrite Hl in Hst.
  pose proof (rt_thread_resume_run _ _ _ _ Hok Hwf Hst) as Hrun.
  split_and!; [done|by eapply rt_thread_resume_pres|].
  destruct (resumed_facts _ _ _ _ Hwf) as (_ & _ & Eq). rewrite queue_q, Eq.
  case_decide; [by subst list|done].
Qed.

(** the test of a waiter records what it receives *)
Lemma event_test_run t th set s :
  threads s !! t = Some th -> waits_for_flags th ->
  event_test t set s = match received th set with
    | Some got => Ok (Some true, set_threads (<[t := th_set_event got (event_info th) th]>) s)
    | None => Ok (Some false, s)
    end.
Proof.
  intros Ht Hf. unfold event_test, received. erewrite bind_run; [cbv beta|by apply get_thread_run].
  destruct (has_flag (event_info th) RT_EVENT_FLAG_AND) eqn:Ea.
  - destruct (_ =? _); [|done]. unfold ret. do 2 f_equal.
    apply kstate_ext; cbn; try reflexivity. symmetry. apply insert_id. rewrite Ht. by destruct th.
  - destruct Hf as [|Ho]; [congruence|]. rewrite Ho. destruct (truthy _); [|done].
    by erewrite bind_run; [|by apply upd_thread_run].
Qed.

Section send.
Context (event : Z).
Let waiting : qhead := QSuspend event.

(** one satisfied waiter *)
Lemma event_wake_run s t th tob set got :
  sched_ok s -> t ∈ queue s waiting -> thread_wf s t th tob ->
  events s !! event = Some {| ev_set := set |} ->
  let th' := th_set_event got (event_info th) th in
  let set' := if has_flag (event_info th) RT_EVENT_FLAG_CLEAR
    then Z.land set (Z.lnot got) else set in
  exists s', event_wake event t (set_threads (<[t := th']>) s) = Ok (tt, s') /\ sched_ok s' /\
    events s' = <[event := {| ev_set := set' |}]> (events s) /\
    queue s' waiting = lremove t (queue s waiting) /\
    threads s' = <[t := ready_thread th']> (threads s) /\
    (forall u uh uob, u <> t -> thread_wf s u uh uob -> thread_wf s' u uh uob).
Proof using.
  intros Hok Hin Hwf He th' set'. pose proof Hwf as [Ht Hnn Hob Htob].
  set (s1 := set_threads (<[t := th']>) s).
  set (s2 := set_events (<[event := {| ev_set := set' |}]>) s1).
  assert (Hok2 : sched_ok s2) by (by eapply sched_inv_upd).
  assert (Hwf2 : thread_wf s2 t th' tob) by (split; [apply lookup_insert_eq|done..]).
  destruct (resume_waiter_run s2 waiting t th' tob) as (Hrun & Hok3 & Hq3); [done..|].
  destruct (resumed_facts _ _ _ _ Hwf2) as (Et & _ & _).
  destruct (resumed_frame s2 t th' tob) as (_ & _ & Ee & _).
  exists (resumed t th' tob s2). split_and!; [|done|by rewrite Ee|done| |].
  - unfold event_wake. erewrite bind_run; [cbv beta|apply get_thread_run, lookup_insert_eq].
    erewrite bind_run with (s' := s2) (a := tt); [by erewrite bind_run; [|exact Hrun]|].
    change (event_info th') with (event_info th). change (event_set th') with got.
    unfold s2, set'. destruct (has_flag _ RT_EVENT_FLAG_CLEAR); cbn [when].
    + by erewrite bind_run; [|by apply get_event_run].
    + unfold ret. f_equal. f_equal. apply kstate_ext; cbn; try reflexivity. by rewrite insert_id.
  - rewrite Et. cbn. by rewrite insert_insert_eq.
  - intros u uh uob Hne Hu. apply thread_wf_resumed; [done| |done].
    destruct Hu as [Hu1 Hu2 Hu3 Hu4]. split; try done. cbn. by rewrite lookup_insert_ne.
Qed.

Lemma event_send_loop_run l : forall s kept need set,
  sched_ok s -> queue s waiting = kept ++ l -> waiters_wf s waiting ->
  (forall t th, t ∈ l -> threads s !! t = Some th -> waits_for_flags th) ->
  events s !! event = Some {| ev_set := set |} ->
  let r := event_serve (threads s) set l in
  exists s', event_send_loop event l need s =
      Ok (Some (need || negb (bool_decide (r.1.2 = []))), s') /\ sched_ok s' /\
    queue s' waiting = kept ++ r.2 /\ events s' = <[event := {| ev_set := r.1.1 |}]> (events s) /\
    (forall t got, (t, got) ∈ r.1.2 -> exists th', threads s' !! t = Some th' /\
      stat_of th' = RT_THREAD_READY /\ event_set th' = got) /\
    (forall u, u ∉ r.1.2.*1 -> threads s' !! u = threads s !! u).
Proof using.
  induction l as [|t l IH]; intros s kept need set Hok Hq Hwf Hfl He; cbn [event_serve event_send_loop].
  { exists s. cbn. rewrite orb_false_r, insert_id by done. split_and!; try done. set_solver. }
  assert (Hin : t ∈ queue s waiting) by (rewrite Hq; set_solver).
  destruct (Hwf t Hin) as (th & tob & Ht). pose proof (tw_thread _ _ _ _ Ht) as Hth.
  pose proof (si_nodup _ _ _ Hok waiting) as Hnd. rewrite <- queue_q, Hq in Hnd.
  erewrite bind_run; [cbv beta|by apply get_event_run]. rewrite Hth.
  pose proof (event_test_run t th set s Hth (Hfl t th ltac:(left) Hth)) as Htest.
  destruct (received th set) as [got|] eqn:Er.
  - erewrite bind_run; [cbv beta|exact Htest].
    destruct (event_wake_run s t th tob set got) as (s1 & Hrun & Hok1 & He1 & Hq1 & Et1 & Hwf1); [done..|].
    erewrite bind_run; [cbv beta|exact Hrun].
    assert (Hnt : (t ∉ l) /\ (t ∉ kept)).
    { apply NoDup_app in Hnd as (_ & Hk & Hn). apply NoDup_cons in Hn as [? _].
      split; [done|]. intros Hk'. apply (Hk _ Hk'). left. }
    assert (Hl : forall u, u ∈ l -> threads s1 !! u = threads s !! u).
    { intros u Hu. rewrite Et1, lookup_insert_ne; [done|]. intros ->. by destruct Hnt. }
    assert (Hq1' : queue s1 waiting = kept ++ l).
    { rewrite Hq1, Hq, lremove_app, lremove_cons_eq, lremove_not_elem; naive_solver. }
    set (z := if has_flag (event_info th) RT_EVENT_FLAG_CLEAR then _ else set) in *.
    destruct (IH s1 kept true z) as (s' & Hrun' & Hok' & Hq' & He' & Hw' & Ho');
      [exact Hok1|exact Hq1'| | |rewrite He1; apply lookup_insert_eq|].
    { intros u Hu. rewrite Hq1, elem_of_lremove in Hu. destruct Hu as [Hu Hne].
      destruct (Hwf u Hu) as (uh & uob & Hu'). exists uh, uob. by apply Hwf1. }
    { intros u uh Hu Huh. rewrite Hl in Huh by done. eapply Hfl; [right|]; done. }
    rewrite (event_serve_ext (threads s)) in * by done. cbn [fst snd].
    set (r := event_serve (threads s) _ l) in *.
    exists s'. split_and!; [|done|done|by rewrite He', He1, insert_insert_eq| |].
    + rewrite Hrun'. cbn. by rewrite orb_true_r.
    + intros u g [[= -> ->]|Hu]%elem_of_cons; [|by apply Hw'].
      destruct (decide (t ∈ r.1.2.*1)) as [Hx|Hx].
      { by apply event_serve_woken, (proj1 Hnt) in Hx. }
      rewrite Ho' by done. rewrite Et1, lookup_insert_eq. eexists. split; [done|].
      split; [apply ready_thread_stat|done].
    + intros u Hu. cbn in Hu. apply not_elem_of_cons in Hu as [Hne Hu].
      rewrite Ho' by done. by rewrite Et1, lookup_insert_ne.
  - erewrite bind_run; [cbv beta|exact Htest].
    destruct (IH s (kept ++ [t]) need set) as (s' & H); [done|by rewrite <- app_assoc|done| |done|].
    { intros u uh Hu. apply Hfl. by right. }
    exists s'. rewrite <- app_assoc in H. exact H.
Qed.
End send.

(** C13: rt_event_send adds the flags to the set and serves the waiters in
    list order, as [event_serve] specifies: exactly the waiters whose
    condition holds when their turn comes are woken, each with the flags it
    receives; those it clears are gone for the waiters behind it; all others
    go on waiting, in the same order and untouched. *)
Theorem rt_event_send_spec (s : kstate) (event set old : Z) (ob : rt_object) :
  sched_ok s -> event <> RT_NULL -> objs s !! event = Some ob ->
  has_type RT_Object_Class_Event ob -> events s !! event = Some {| ev_set := old |} ->
  waiters_wf s (QSuspend event) ->
  (forall t th, t ∈ queue s (QSuspend event) -> threads s !! t = Some th -> waits_for_flags th) ->
  wp (rt_event_send event set) (fun r s' =>
    if set =? 0 then r = - RT_ERROR /\ s' = s
    else
      let sv := event_serve (threads s) (Z.lor old set) (queue s (QSuspend event)) in
      r = RT_EOK /\ sched_ok s' /\
      events s' = <[event := {| ev_set := sv.1.1 |}]> (events s) /\
      queue s' (QSuspend event) = sv.2 /\
      (forall t got, (t, got) ∈ sv.1.2 -> exists th, threads s' !! t = Some th /\
        stat_of th = RT_THREAD_READY /\ event_set th = got) /\
      (forall u, u ∉ sv.1.2.*1 -> threads s' !! u = threads s !! u)) s.
Proof.
  intros Hok Hnn Hob Hty He Hwf Hfl. unfold wp, rt_event_send.
  erewrite bind_run; [cbv beta|by eapply assert_object_run].
  destruct (Z.eqb_spec set 0) as [->|Hset]; [done|].
  rewrite bind_assoc. erewrite bind_run; [cbv beta|by apply get_event_run].
  erewrite bind_run; [cbv beta|reflexivity]. erewrite bind_run; [cbv beta|reflexivity].
  set (s1 := set_events _ s). change (queue s1 ?h) with (queue s h).
  destruct (event_send_loop_run event (queue s (QSuspend event)) s1 [] false (Z.lor old set))
    as (s2 & Hrun & Hok2 & Hq2 & He2 & Hw2 & Ho2); [done|done|by apply (waiters_wf_frame s)|done|
    apply lookup_insert_eq|].
  cbn [orb app threads s1 set_events] in *. set (sv := event_serve _ _ _) in *.
  erewrite bind_run; [cbv beta|exact Hrun].
  assert (Hev : events s2 = <[event := {| ev_set := sv.1.1 |}]> (events s)).
  { rewrite He2. cbn. by rewrite insert_insert_eq. }
  case_bool_decide as Hw; cbn [negb when].
  { split_and!; done. }
  destruct sv.1.2 as [|[t got] w] eqn:Ew; [done|].
  destruct (Hw2 t got) as (th & Ht & Hst & _); [left|].
  destruct (wp_run _ _ _ (rt_schedule_wp s2 t th Hok2 Ht Hst)) as ([] & s3 & Hsch & Hsw).
  erewrite bind_run; [cbv beta|exact Hsch].
  pose proof (rt_schedule_pres _ _ _ Hok2 Hsch) as Hok3.
  apply switched_fields in Hsw as (F1 & F2 & _ & _ & F5 & _).
  unfold ret, queue. rewrite F1, F2, F5. split_and!; done.
Qed.

(** C14: rt_event_recv returns at once when the flags it waits for (all or
    some of them) are set, takes them out of the set if asked to, and reports
    them; otherwise it returns -RT_ETIMEOUT if asked not to wait, or suspends
    the caller with its condition recorded for rt_event_send, the set being
    unchanged. *)
Theorem rt_event_recv_spec (b : Z) (s : kstate) (event set option timeout old : Z)
    (ob : rt_object) (th : rt_thread) (tob : rt_object) :
  sched_ok s -> event <> RT_NULL -> objs s !! event = Some ob ->
  has_type RT_Object_Class_Event ob -> events s !! event = Some {| ev_set := old |} ->
  o_flag ob = RT_IPC_FLAG_FIFO \/ o_flag ob = RT_IPC_FLAG_PRIO ->
  interrupt_nest s = 0 -> thread_wf s (rt_current_thread s) th tob -> set <> 0 ->
  let self := rt_current_thread s in
  let want := th_set_event set option (th_set_error RT_EOK th) in
  waits_for_flags want -> (timeout <> 0 -> can_block b s timeout th tob) ->
  wp (rt_event_recv event set option timeout) (fun r s' =>
    match received want old with
    | Some got =>
        r = Done (RT_EOK, Some got) /\
        threads s' = <[self := th_set_event got option (th_set_error RT_EOK th)]> (threads s) /\
        events s' = <[event := {| ev_set := if has_flag option RT_EVENT_FLAG_CLEAR
          then Z.land old (Z.lnot set) else old |}]> (events s) /\
        queues s' = queues s /\ rt_current_thread s' = self
    | None =>
        if timeout =? 0 then r = Done (- RT_ETIMEOUT, None) /\
          s' = set_threads (<[self := th_set_error (- RT_ETIMEOUT) th]>) s
        else r = Pending self /\
          blocked (set_threads (<[self := want]>) s) s' (QSuspend event) (o_flag ob) timeout want
    end) s.
Proof.
  intros Hok Hnn Hob Hty He Hflag Hnest Hwf Hset self want Hwant Hblock.
  pose proof (tw_thread _ _ _ _ Hwf) as Ht. destruct (tw_nonnull _ _ _ _ Hwf) as [Hsn _].
  fold self in Ht, Hsn. unfold wp, rt_event_recv.
  erewrite bind_run; [cbv beta|by apply in_context_run].
  erewrite bind_run; [cbv beta|by eapply assert_object_run].
  rewrite (proj2 (Z.eqb_neq _ _) Hset).
  erewrite bind_run; [cbv beta|reflexivity]. fold self.
  erewrite bind_run; [cbv beta|by apply upd_thread_run].
  set (s1 := set_threads _ s).
  erewrite bind_run; [cbv beta|by apply get_event_run].
  erewrite bind_run with (s' := s1) (a := bool_decide (is_Some (received want old))).
  2: { unfold received. change (event_info want) with option. change (event_set want) with set.
    rewrite (Z.land_comm set old). destruct (has_flag option RT_EVENT_FLAG_AND) eqn:Ea.
    - by destruct (_ =? _).
    - destruct Hwant as [H|H]; change (event_info want) with option in H; [congruence|].
      rewrite H. by destruct (truthy _). }
  destruct (received want old) as [got|] eqn:Er.
  - rewrite bool_decide_eq_true_2 by done.
    assert (got = Z.land old set) as ->.
    { unfold received in Er. change (event_info want) with option in Er.
      change (event_set want) with set in Er. rewrite (Z.land_comm set old) in Er.
      destruct (has_flag option _); [|destruct (truthy _); naive_solver].
      destruct (Z.eqb_spec (Z.land old set) set) as [E|]; [|done]. injection Er as <-. by rewrite E. }
    erewrite bind_run; [cbv beta|apply upd_thread_run, lookup_insert_eq].
    set (s2 := set_threads _ s1). destruct (has_flag option RT_EVENT_FLAG_CLEAR); cbn [when].
    + erewrite bind_run; [cbv beta|reflexivity].
      erewrite bind_run; [cbv beta|apply get_thread_run, lookup_insert_eq].
      split_and!; try done. cbn. by rewrite insert_insert_eq.
    + erewrite bind_run; [cbv beta|reflexivity].
      erewrite bind_run; [cbv beta|apply get_thread_run, lookup_insert_eq].
      split_and!; try done; cbn; [by rewrite insert_insert_eq|by rewrite insert_id].
  - rewrite bool_decide_eq_false_2 by (by intros []).
    destruct (Z.eqb_spec timeout 0) as [|Htime].
    { erewrite bind_run; [cbv beta|apply upd_thread_run, lookup_insert_eq]. split; [done|].
      kstate_eq. by rewrite insert_insert_eq. }
    specialize (Hblock Htime). erewrite bind_run; [cbv beta|apply upd_thread_run, lookup_insert_eq].
    fold want. replace (set_threads _ s1) with (set_threads (<[self := want]>) s).
    2: { apply kstate_ext; cbn; try reflexivity. by rewrite insert_insert_eq. }
    erewrite bind_run; [cbv beta|by apply object_flag_run].
    apply (can_block_upd _ _ _ _ want) in Hblock; [|done].
    assert (Hok1 : sched_ok (set_threads (<[self := want]>) s)) by (by eapply sched_inv_upd).
    destruct (block_run (ret (@Pending (Z * Datatypes.option Z) Z self)) b _ (QSuspend event)
      (o_flag ob) timeout _ tob Hok1 eq_refl Hflag Hblock) as (s' & Hrun & Hb).
    cbn [rt_current_thread set_threads] in Hrun. fold self in Hrun. by rewrite Hrun.
Qed.
