(* ===== verification/Mailbox.v ===== *)
(** The mailboxes of rt-thread/kernel/src/ipc.c: a ring buffer of one-word
    mails with a list of waiting receivers and one of waiting senders. *)
From S2P Require Import Prelude KService Mem CpuPort Kernel Sched Object Timer Thread Ipc.

(** * Definitions *)
Definition get_mb (mb : Z) : K rt_mailbox := let* s := get in the (mailboxes s !! mb).
Definition put_mb (mb : Z) (m : rt_mailbox) : K unit := modify (set_mailboxes (<[mb := m]>)).

Definition mb_set_entry v m := {| mb_msg_pool := mb_msg_pool m; mb_size := mb_size m;
  mb_entry := v; in_offset := in_offset m; out_offset := out_offset m |}.
Definition mb_set_in v m := {| mb_msg_pool := mb_msg_pool m; mb_size := mb_size m;
  mb_entry := mb_entry m; in_offset := v; out_offset := out_offset m |}.
Definition mb_set_out v m := {| mb_msg_pool := mb_msg_pool m; mb_size := mb_size m;
  mb_entry := mb_entry m; in_offset := in_offset m; out_offset := v |}.
Definition new_mailbox (msgpool size : Z) : rt_mailbox := {| mb_msg_pool := msgpool;
  mb_size := u16 size; mb_entry := 0; in_offset := 0; out_offset := 0 |}.

(** msg_pool[i] *)
Definition mb_load (m : rt_mailbox) (i : Z) : K Z := on_heap (on_ram (ld32 (mb_msg_pool m + 4 * i))).
Definition mb_store (m : rt_mailbox) (i v : Z) : K unit :=
  on_heap (on_ram (st32 (mb_msg_pool m + 4 * i) v)).

Definition rt_mb_init (mb : Z) (name : list Z) (msgpool size flag : Z) : K Z :=
  rt_assert (negb (mb =? RT_NULL));;
  rt_object_init mb RT_Object_Class_MailBox name;;
  set_object_flag mb flag;;
  rt_ipc_object_init mb;;
  put_mb mb (new_mailbox msgpool size);;
  queue_init (QSender mb);;
  ret RT_EOK.

Definition rt_mb_detach (mb : Z) : K Z :=
  assert_static mb RT_Object_Class_MailBox;;
  rt_ipc_list_resume_all (QSuspend mb);;
  rt_ipc_list_resume_all (QSender mb);;
  rt_object_detach mb;;
  ret RT_EOK.

Definition rt_mb_create (name : list Z) (size flag : Z) : K Z :=
  RT_DEBUG_NOT_IN_INTERRUPT;;
  let* mb := rt_object_allocate RT_Object_Class_MailBox name in
  if mb =? RT_NULL then ret mb
  else
    set_object_flag mb flag;;
    rt_ipc_object_init mb;;
    let* msgpool := on_heap (rt_malloc (u32 (u16 size * 4))) in
    if msgpool =? RT_NULL then rt_object_delete mb;; ret RT_NULL
    else
      put_mb mb (new_mailbox msgpool size);;
      queue_init (QSender mb);;
      ret mb.

Definition rt_mb_delete (mb : Z) : K Z :=
  RT_DEBUG_NOT_IN_INTERRUPT;;
  assert_dynamic mb RT_Object_Class_MailBox;;
  rt_ipc_list_resume_all (QSuspend mb);;
  rt_ipc_list_resume_all (QSender mb);;
  (let* m := get_mb mb in on_heap (rt_free (mb_msg_pool m)));;
  rt_object_delete mb;;
  ret RT_EOK.

(** ++ offset; if (offset >= size) offset = 0 *)
Definition mb_advance (offset size : Z) : Z :=
  let offset := u16 (offset + 1) in if size <=? offset then 0 else offset.

(** wake a waiter on [list], if there is one, and return RT_EOK *)
Definition wake_one (list : qhead) : K unit :=
  let* b := has_waiter list in
  when b (rt_ipc_list_resume list;; rt_schedule).

(** the end of rt_mb_send_wait: there is room for the mail *)
Definition mb_put (mb value : Z) : K (outcome Z wait) :=
  let* m := get_mb mb in
  mb_store m (in_offset m) value;;
  let m := mb_set_in (mb_advance (in_offset m) (mb_size m)) m in
  put_mb mb m;;
  if mb_entry m <? RT_MB_ENTRY_MAX then
    put_mb mb (mb_set_entry (u16 (mb_entry m + 1)) m);;
    wake_one (QSuspend mb);;
    ret (Done RT_EOK)
  else ret (Done (- RT_EFULL)).

(** while (mb->entry == mb->size), and the end *)
Definition mb_send_loop (mb thread value timeout tick_delta : Z) : K (outcome Z wait) :=
  let* m := get_mb mb in
  if mb_entry m =? mb_size m then
    upd_thread thread (th_set_error RT_EOK);;
    if timeout =? 0 then ret (Done (- RT_EFULL))
    else
      let* flag := object_flag mb in
      let* w := block_on (QSender mb) thread flag timeout tick_delta in
      ret (Pending w)
  else mb_put mb value.

Definition rt_mb_send_wait (mb value timeout : Z) : K (outcome Z wait) :=
  assert_object mb RT_Object_Class_MailBox;;
  let* thread := rt_thread_self in
  let* m := get_mb mb in
  if ((mb_entry m =? mb_size m) && (timeout =? 0))%bool then ret (Done (- RT_EFULL))
  else mb_send_loop mb thread value timeout 0.

Definition rt_mb_send_wait_resumed (mb value : Z) (w : wait) : K (outcome Z wait) :=
  let* r := wake_up w in
  match r with
  | inl e => ret (Done e)
  | inr w => mb_send_loop mb (w_thread w) value (w_timeout w) (w_tick_delta w)
  end.

Definition rt_mb_send (mb value : Z) : K (outcome Z wait) := rt_mb_send_wait mb value 0.

(** the end of rt_mb_recv: there is a mail *)
Definition mb_fetch (mb : Z) : K (outcome (Z * option Z) wait) :=
  let* m := get_mb mb in
  let* value := mb_load m (out_offset m) in
  let m := mb_set_out (mb_advance (out_offset m) (mb_size m)) m in
  let m := if 0 <? mb_entry m then mb_set_entry (u16 (mb_entry m - 1)) m else m in
  put_mb mb m;;
  wake_one (QSender mb);;
  ret (Done (RT_EOK, Some value)).

Definition mb_recv_loop (mb thread timeout tick_delta : Z) : K (outcome (Z * option Z) wait) :=
  let* m := get_mb mb in
  if mb_entry m =? 0 then
    upd_thread thread (th_set_error RT_EOK);;
    if timeout =? 0 then
      upd_thread thread (th_set_error (- RT_ETIMEOUT));;
      ret (Done (- RT_ETIMEOUT, None))
    else
      let* flag := object_flag mb in
      let* w := block_on (QSuspend mb) thread flag timeout tick_delta in
      ret (Pending w)
  else mb_fetch mb.

Definition rt_mb_recv (mb timeout : Z) : K (outcome (Z * option Z) wait) :=
  assert_object mb RT_Object_Class_MailBox;;
  let* thread := rt_thread_self in
  let* m := get_mb mb in
  if ((mb_entry m =? 0) && (timeout =? 0))%bool then ret (Done (- RT_ETIMEOUT, None))
  else mb_recv_loop mb thread timeout 0.

Definition rt_mb_recv_resumed (mb : Z) (w : wait) : K (outcome (Z * option Z) wait) :=
  let* r := wake_up w in
  match r with
  | inl e => ret (Done (e, None))
  | inr w => mb_recv_loop mb (w_thread w) (w_timeout w) (w_tick_delta w)
  end.

Definition rt_mb_control (mb cmd arg : Z) : K Z :=
  assert_object mb RT_Object_Class_MailBox;;
  if cmd =? RT_IPC_CMD_RESET then
    rt_ipc_list_resume_all (QSuspend mb);;
    rt_ipc_list_resume_all (QSender mb);;
    (let* m := get_mb mb in put_mb mb (mb_set_out 0 (mb_set_in 0 (mb_set_entry 0 m))));;
    rt_schedule;;
    ret RT_EOK
  else ret (- RT_ERROR).

(** * Preservation of the scheduler invariant *)
#[export] Hint Unfold get_mb put_mb : minv.
Lemma get_mb_pres mb : preserves sched_ok (get_mb mb).
Proof. unfold get_mb. pres. Qed.
Lemma put_mb_pres mb m : preserves sched_ok (put_mb mb m).
Proof. unfold put_mb. pres. Qed.
Lemma mb_load_pres m i : preserves sched_ok (mb_load m i).
Proof. unfold mb_load. pres. Qed.
Lemma mb_store_pres m i v : preserves sched_ok (mb_store m i v).
Proof. unfold mb_store. pres. Qed.
Lemma wake_one_pres h : preserves sched_ok (wake_one h).
Proof. unfold wake_one. pres. Qed.
#[export] Hint Resolve get_mb_pres put_mb_pres mb_load_pres mb_store_pres wake_one_pres : pres.
Lemma rt_mb_init_pres mb name msgpool size flag :
  preserves sched_ok (rt_mb_init mb name msgpool size flag).
Proof. unfold rt_mb_init. pres. Qed.
Lemma rt_mb_detach_pres mb : preserves sched_ok (rt_mb_detach mb).
Proof. unfold rt_mb_detach. pres. Qed.
Lemma rt_mb_create_pres name size flag : preserves sched_ok (rt_mb_create name size flag).
Proof. unfold rt_mb_create. pres. Qed.
Lemma rt_mb_delete_pres mb : preserves sched_ok (rt_mb_delete mb).
Proof. unfold rt_mb_delete. pres. Qed.
Lemma mb_put_pres mb value : preserves sched_ok (mb_put mb value).
Proof. unfold mb_put. pres. Qed.
Lemma mb_fetch_pres mb : preserves sched_ok (mb_fetch mb).
Proof. unfold mb_fetch. pres. Qed.
Lemma mb_send_loop_ok mb t value timeout d s r s' :
  sched_ok s -> can_wait t s -> mb_send_loop mb t value timeout d s = Ok (r, s') -> sched_ok s'.
Proof.
  intros Hok Hw Hm. unfold mb_send_loop in Hm. minv Hm.
  - by eapply sched_inv_upd.
  - match goal with H : block_on _ _ _ _ _ _ = _ |- _ =>
      eapply block_on_ok in H; [exact H|done|by eapply sched_inv_upd|by apply can_wait_error] end.
  - by eapply mb_put_pres.
Qed.
Lemma mb_recv_loop_ok mb t timeout d s r s' :
  sched_ok s -> can_wait t s -> mb_recv_loop mb t timeout d s = Ok (r, s') -> sched_ok s'.
Proof.
  intros Hok Hw Hm. unfold mb_recv_loop in Hm. minv Hm.
  - by repeat (eapply sched_inv_upd; [|eassumption|done]).
  - match goal with H : block_on _ _ _ _ _ _ = _ |- _ =>
      eapply block_on_ok in H; [exact H|done|by eapply sched_inv_upd|by apply can_wait_error] end.
  - by eapply mb_fetch_pres.
Qed.
Lemma rt_mb_send_wait_pres mb value timeout s r s' :
  sched_ok s -> running_ok s -> rt_mb_send_wait mb value timeout s = Ok (r, s') -> sched_ok s'.
Proof.
  intros Hok Hw Hm. unfold rt_mb_send_wait in Hm. minv Hm; [done|].
  by eapply mb_send_loop_ok.
Qed.
Lemma rt_mb_recv_pres mb timeout s r s' :
  sched_ok s -> running_ok s -> rt_mb_recv mb timeout s = Ok (r, s') -> sched_ok s'.
Proof.
  intros Hok Hw Hm. unfold rt_mb_recv in Hm. minv Hm; [done|]. by eapply mb_recv_loop_ok.
Qed.
(** waking up reads the state only *)
Lemma wake_up_inv w s r s' :
  wake_up w s = Ok (r, s') -> s' = s /\ forall w', r = inr w' -> w_thread w' = w_thread w.
Proof. intros Hm. unfold wake_up in Hm. minv Hm; naive_solver. Qed.
Lemma rt_mb_send_wait_resumed_pres mb value w s r s' :
  sched_ok s -> can_wait (w_thread w) s ->
  rt_mb_send_wait_resumed mb value w s = Ok (r, s') -> sched_ok s'.
Proof.
  intros Hok Hw Hm. unfold rt_mb_send_wait_resumed in Hm.
  apply bind_ok in Hm as ([e|w'] & s1 & [-> Hwt]%wake_up_inv & Hm); [by minv Hm|].
  eapply mb_send_loop_ok; [done| |exact Hm]. by rewrite (Hwt w').
Qed.
Lemma rt_mb_recv_resumed_pres mb w s r s' :
  sched_ok s -> can_wait (w_thread w) s ->
  rt_mb_recv_resumed mb w s = Ok (r, s') -> sched_ok s'.
Proof.
  intros Hok Hw Hm. unfold rt_mb_recv_resumed in Hm.
  apply bind_ok in Hm as ([e|w'] & s1 & [-> Hwt]%wake_up_inv & Hm); [by minv Hm|].
  eapply mb_recv_loop_ok; [done| |exact Hm]. by rewrite (Hwt w').
Qed.
Lemma rt_mb_control_pres mb cmd arg : preserves sched_ok (rt_mb_control mb cmd arg).
Proof. unfold rt_mb_control. pres. Qed.
#[export] Hint Resolve rt_mb_init_pres rt_mb_detach_pres rt_mb_create_pres rt_mb_delete_pres
  rt_mb_control_pres : pres.

(** * The mailbox is a bounded FIFO queue *)
#[local] Ltac Zify.zify_post_hook ::= Z.div_mod_to_equations.

(** the ring buffer of [m] holds the mails [l], oldest first *)
Record mb_rep (m : rt_mailbox) (r : mem) (l : list Z) : Prop := {
  mr_size : 0 < mb_size m < 65536;
  mr_out : 0 <= out_offset m < mb_size m;
  mr_entry : mb_entry m = Z.of_nat (length l) /\ mb_entry m <= mb_size m;
  mr_in : in_offset m = (out_offset m + mb_entry m) mod mb_size m;
  mr_pool : mapped r (mb_msg_pool m) (4 * mb_size m);
  mr_mails : forall i v, l !! i = Some v ->
    word_at r (mb_msg_pool m + 4 * ((out_offset m + Z.of_nat i) mod mb_size m)) = v;
}.
Definition mb_holds (s : kstate) (mb : Z) (l : list Z) : Prop :=
  exists m, mailboxes s !! mb = Some m /\ mb_rep m (ram (kheap s)) l.
Definition mb_capacity (s : kstate) (mb : Z) : Z := default 0 (mb_size <$> mailboxes s !! mb).

Lemma mb_advance_mod off size :
  0 <= off < size -> size < 65536 -> mb_advance off size = (off + 1) mod size.
Proof.
  intros Ho Hs. unfold mb_advance. rewrite u16_small by lia.
  destruct (Z.leb_spec size (off + 1)); [|by rewrite Z.mod_small by lia].
  replace (off + 1) with size by lia. by rewrite Z.mod_same by lia.
Qed.

(** two indices of the ring at a distance below its size are different slots *)
Lemma ring_slots_ne off i j size :
  0 < size -> 0 <= i < j -> j < i + size -> (off + i) mod size <> (off + j) mod size.
Proof.
  intros Hs Hij Hd E. assert ((j - i) mod size = 0) as Hm.
  { replace (j - i) with ((off + j) - (off + i)) by lia. by rewrite Zminus_mod, E, Z.sub_diag. }
  rewrite Z.mod_small in Hm by lia. lia.
Qed.

Lemma mb_rep_put m r l v :
  mb_rep m r l -> Z.of_nat (length l) < mb_size m -> 0 <= v < 4294967296 ->
  mb_rep (mb_set_entry (u16 (mb_entry m + 1)) (mb_set_in (mb_advance (in_offset m) (mb_size m)) m))
    (store_word (mb_msg_pool m + 4 * in_offset m) v r) (l ++ [v]).
Proof.
  intros [Hs Ho [He Hle] Hi Hp Hl] Hroom Hv. assert (0 <= in_offset m < mb_size m) as Hin.
  { rewrite Hi. apply Z.mod_pos_bound. lia. }
  rewrite mb_advance_mod by lia. rewrite u16_small by lia.
  split; cbn; rewrite ?length_app; cbn; try done; try lia.
  - rewrite Hi, Zplus_mod_idemp_l. f_equal. lia.
  - by apply mapped_store_word.
  - intros i x Hx. destruct (decide (i < length l)%nat) as [Hlt|Hge].
    + rewrite lookup_app_l in Hx by lia. rewrite word_at_store_ne; [by apply Hl|].
      assert ((out_offset m + Z.of_nat i) mod mb_size m <> in_offset m).
      { rewrite Hi, He. apply ring_slots_ne; lia. }
      lia.
    + rewrite lookup_app_r in Hx by lia. apply list_lookup_singleton_Some in Hx as [Hz <-].
      replace (out_offset m + Z.of_nat i) with (out_offset m + mb_entry m) by lia.
      rewrite <- Hi, word_at_store. by apply u32_small.
Qed.

Lemma mb_rep_fetch m r v l :
  mb_rep m r (v :: l) ->
  word_at r (mb_msg_pool m + 4 * out_offset m) = v /\ 0 < mb_entry m /\
  mb_rep (mb_set_entry (u16 (mb_entry m - 1)) (mb_set_out (mb_advance (out_offset m) (mb_size m)) m))
    r l.
Proof.
  intros [Hs Ho [He Hle] Hi Hp Hl]. cbn [length] in He. split_and!; [|lia|].
  - rewrite <- (Hl 0%nat v eq_refl). do 2 f_equal. rewrite Z.add_0_r, Z.mod_small; lia.
  - rewrite mb_advance_mod by lia. rewrite u16_small by lia.
    split; cbn; try done; try lia.
    + rewrite Zplus_mod_idemp_l, Hi. f_equal. lia.
    + intros i x Hx. rewrite Zplus_mod_idemp_l. rewrite <- (Hl (S i) x Hx).
      do 4 f_equal. lia.
Qed.

(** ** The operations *)
Lemma get_mb_run mb m s : mailboxes s !! mb = Some m -> get_mb mb s = Ok (m, s).
Proof. intros H. unfold get_mb, bind, get. by rewrite H. Qed.

Lemma wake_one_run s list :
  sched_ok s -> waiters_wf s list -> wait_list list ->
  exists s', wake_one list s = Ok (tt, s') /\ woken s s' list /\ same_objects s s'.
Proof.
  intros Hok Hwf Hl. unfold wake_one. erewrite bind_run; [cbv beta|apply has_waiter_run].
  destruct (queue s list) as [|t l] eqn:Hq.
  - rewrite bool_decide_eq_true_2 by done. exists s. unfold woken. rewrite Hq. done.
  - rewrite bool_decide_eq_false_2 by done. cbn [negb when].
    by apply (resume_first_unit s list t l).
Qed.

Lemma mb_put_run s mb m l v :
  sched_ok s -> mailboxes s !! mb = Some m -> mb_rep m (ram (kheap s)) l ->
  Z.of_nat (length l) < mb_size m -> 0 <= v < 4294967296 -> waiters_wf s (QSuspend mb) ->
  exists s', mb_put mb v s = Ok (Done RT_EOK, s') /\ mb_holds s' mb (l ++ [v]) /\
    woken s s' (QSuspend mb).
Proof.
  intros Hok Hm Hrep Hroom Hv Hwf. pose proof (mb_rep_put m _ l v Hrep Hroom Hv) as Hrep'.
  destruct Hrep as [Hs Ho [He Hle] Hi Hp Hl]. assert (0 <= in_offset m < mb_size m) as Hin.
  { rewrite Hi. apply Z.mod_pos_bound. lia. }
  unfold mb_put. erewrite bind_run; [cbv beta|by apply get_mb_run].
  erewrite bind_run; [cbv beta|apply on_heap_ram_run, st32_run].
  2: { eapply mapped_sub; [exact Hp|lia|lia]. }
  erewrite bind_run; [cbv beta|reflexivity]. cbn [mb_entry mb_set_in].
  rewrite (proj2 (Z.ltb_lt _ _)) by (unfold RT_MB_ENTRY_MAX; lia).
  erewrite bind_run; [cbv beta|reflexivity].
  set (m' := mb_set_entry _ _). set (r' := store_word _ _ _).
  set (s1 := set_mailboxes _ (set_mailboxes _ _)).
  destruct (wake_one_run s1 (QSuspend mb)) as (s' & Hrun & Hw & Hso);
    [done|by apply (waiters_wf_frame s)|done|].
  exists s'. erewrite bind_run; [|exact Hrun]. split_and!; [done| |exact Hw].
  destruct Hso as (_ & _ & _ & Em & _ & _ & Ek). exists m'. rewrite Em, Ek.
  split; [apply lookup_insert_eq|exact Hrep'].
Qed.

Lemma mb_fetch_run s mb m l v :
  sched_ok s -> mailboxes s !! mb = Some m -> mb_rep m (ram (kheap s)) (v :: l) ->
  waiters_wf s (QSender mb) ->
  exists s', mb_fetch mb s = Ok (Done (RT_EOK, Some v), s') /\ mb_holds s' mb l /\
    woken s s' (QSender mb).
Proof.
  intros Hok Hm Hrep Hwf. destruct (mb_rep_fetch m _ v l Hrep) as (Hv & He & Hrep').
  destruct Hrep as [Hs Ho _ _ Hp _].
  unfold mb_fetch. erewrite bind_run; [cbv beta|by apply get_mb_run].
  erewrite bind_run; [cbv beta|apply on_heap_ram_run, ld32_run].
  2: { eapply mapped_sub; [exact Hp|lia|lia]. }
  rewrite Hv, with_ram_id. cbn [mb_entry mb_set_out]. rewrite (proj2 (Z.ltb_lt _ _)) by lia.
  erewrite bind_run; [cbv beta|reflexivity].
  set (m' := mb_set_entry _ _). set (s1 := set_mailboxes _ s).
  destruct (wake_one_run s1 (QSender mb)) as (s' & Hrun & Hw & Hso);
    [done|by apply (waiters_wf_frame s)|done|].
  exists s'. erewrite bind_run; [|exact Hrun]. split_and!; [done| |exact Hw].
  destruct Hso as (_ & _ & _ & Em & _ & _ & Ek). exists m'. rewrite Em, Ek.
  split; [apply lookup_insert_eq|exact Hrep'].
Qed.

(** the wait of a mailbox operation on [list], the caller's error being reset *)
Lemma mb_wait_run {R} b s mb list timeout ob th tob l :
  sched_ok s -> objs s !! mb = Some ob -> wait_list list ->
  o_flag ob = RT_IPC_FLAG_FIFO \/ o_flag ob = RT_IPC_FLAG_PRIO ->
  mb_holds s mb l -> can_block b s timeout th tob ->
  let self := rt_current_thread s in
  let th0 := th_set_error RT_EOK th in
  let s1 := set_threads (<[self := th0]>) s in
  let w := {| w_thread := self; w_timeout := timeout;
              w_tick_delta := if 0 <? timeout then rt_tick s else 0 |} in
  exists s', (let* flag := object_flag mb in
      let* w := block_on list self flag timeout 0 in ret (@Pending R wait w)) s1 =
      Ok (Pending w, s') /\
    mb_holds s' mb l /\ blocked s1 s' list (o_flag ob) timeout th0.
Proof.
  intros Hok Hob Hl Hflag Hh Hb self th0 s1 w.
  destruct (object_wait_run (R := R) b s mb list timeout ob th tob) as (s' & Hrun & Hbl); [done..|].
  exists s'. split_and!; [done| |done].
  destruct (bl_frame _ _ _ _ _ _ Hbl) as (_ & _ & _ & Em & _ & _ & Ek & _).
  unfold mb_holds. by rewrite Em, Ek.
Qed.

(** C15: rt_mb_send_wait appends the mail to the FIFO queue if there is room
    and wakes the first receiver; on a full mailbox it returns -RT_EFULL if
    asked not to wait and otherwise suspends the caller among the senders,
    the queue being unchanged. *)
Theorem rt_mb_send_wait_spec (b : Z) (s : kstate) (mb value timeout : Z) (ob : rt_object)
    (th : rt_thread) (tob : rt_object) (l : list Z) :
  sched_ok s -> mb <> RT_NULL -> objs s !! mb = Some ob -> has_type RT_Object_Class_MailBox ob ->
  o_flag ob = RT_IPC_FLAG_FIFO \/ o_flag ob = RT_IPC_FLAG_PRIO ->
  mb_holds s mb l -> 0 <= value < 4294967296 -> waiters_wf s (QSuspend mb) ->
  (Z.of_nat (length l) = mb_capacity s mb -> timeout <> 0 -> can_block b s timeout th tob) ->
  let self := rt_current_thread s in
  let th0 := th_set_error RT_EOK th in
  wp (rt_mb_send_wait mb value timeout) (fun r s' =>
    if Z.of_nat (length l) <? mb_capacity s mb then
      r = Done RT_EOK /\ mb_holds s' mb (l ++ [value]) /\ woken s s' (QSuspend mb)
    else if timeout =? 0 then r = Done (- RT_EFULL) /\ s' = s
    else
      r = Pending {| w_thread := self; w_timeout := timeout;
                     w_tick_delta := if 0 <? timeout then rt_tick s else 0 |} /\
      mb_holds s' mb l /\
      blocked (set_threads (<[self := th0]>) s) s' (QSender mb) (o_flag ob) timeout th0) s.
Proof.
  intros Hok Hnn Hob Hty Hflag Hh Hv Hwf Hblock self th0. pose proof Hh as (m & Hm & Hrep).
  assert (Ec : mb_capacity s mb = mb_size m) by (unfold mb_capacity; by rewrite Hm).
  rewrite Ec in *.
  pose proof (mr_entry _ _ _ Hrep) as [He Hle].
  unfold wp, rt_mb_send_wait, mb_send_loop.
  erewrite bind_run; [cbv beta|by eapply assert_object_run].
  erewrite bind_run; [cbv beta|reflexivity].
  erewrite bind_run; [cbv beta|by apply get_mb_run]. rewrite He.
  destruct (Z.ltb_spec (Z.of_nat (length l)) (mb_size m)).
  - rewrite (proj2 (Z.eqb_neq _ _)) by lia. cbn [andb].
    erewrite bind_run; [cbv beta|by apply get_mb_run].
    rewrite He, (proj2 (Z.eqb_neq _ _)) by lia.
    destruct (mb_put_run s mb m l value) as (s' & -> & H1 & H2); done.
  - rewrite (proj2 (Z.eqb_eq _ _)) by lia. cbn [andb].
    destruct (Z.eqb_spec timeout 0) as [|Htime]; [done|].
    specialize (Hblock ltac:(lia) Htime).
    erewrite bind_run; [cbv beta|by apply get_mb_run].
    rewrite He, (proj2 (Z.eqb_eq _ _)) by lia.
    erewrite bind_run; [cbv beta|apply upd_thread_run, (tw_thread _ _ _ _ (cb_thread _ _ _ _ _ Hblock))].
    destruct (mb_wait_run (R := Z) b s mb (QSender mb) timeout ob th tob l) as (s' & Hrun & Hp);
      [done..|]. by rewrite Hrun.
Qed.

(** C16: rt_mb_recv returns the oldest mail and removes it from the queue,
    which also wakes the first waiting sender; on an empty mailbox it returns
    -RT_ETIMEOUT if asked not to wait and otherwise suspends the caller among
    the receivers. *)
Theorem rt_mb_recv_spec (b : Z) (s : kstate) (mb timeout : Z) (ob : rt_object)
    (th : rt_thread) (tob : rt_object) (l : list Z) :
  sched_ok s -> mb <> RT_NULL -> objs s !! mb = Some ob -> has_type RT_Object_Class_MailBox ob ->
  o_flag ob = RT_IPC_FLAG_FIFO \/ o_flag ob = RT_IPC_FLAG_PRIO ->
  mb_holds s mb l -> waiters_wf s (QSender mb) ->
  (l = [] -> timeout <> 0 -> can_block b s timeout th tob) ->
  let self := rt_current_thread s in
  let th0 := th_set_error RT_EOK th in
  wp (rt_mb_recv mb timeout) (fun r s' =>
    match l with
    | v :: l' => r = Done (RT_EOK, Some v) /\ mb_holds s' mb l' /\ woken s s' (QSender mb)
    | [] =>
        if timeout =? 0 then r = Done (- RT_ETIMEOUT, None) /\ s' = s
        else
          r = Pending {| w_thread := self; w_timeout := timeout;
                         w_tick_delta := if 0 <? timeout then rt_tick s else 0 |} /\
          mb_holds s' mb [] /\
          blocked (set_threads (<[self := th0]>) s) s' (QSuspend mb) (o_flag ob) timeout th0
    end) s.
Proof.
  intros Hok Hnn Hob Hty Hflag Hh Hwf Hblock self th0. pose proof Hh as (m & Hm & Hrep).
  pose proof (mr_entry _ _ _ Hrep) as [He Hle].
  unfold wp, rt_mb_recv, mb_recv_loop.
  erewrite bind_run; [cbv beta|by eapply assert_object_run].
  erewrite bind_run; [cbv beta|reflexivity].
  erewrite bind_run; [cbv beta|by apply get_mb_run]. rewrite He.
  destruct l as [|v l]; cbn [length] in *.
  - change (Z.of_nat 0) with 0 in *.
    destruct (Z.eqb_spec timeout 0) as [|Htime]; [done|]. cbn [andb Z.eqb].
    specialize (Hblock eq_refl Htime).
    erewrite bind_run; [cbv beta|by apply get_mb_run]. rewrite He. cbn [Z.eqb].
    erewrite bind_run; [cbv beta|apply upd_thread_run, (tw_thread _ _ _ _ (cb_thread _ _ _ _ _ Hblock))].
    destruct (mb_wait_run (R := Z * option Z) b s mb (QSuspend mb) timeout ob th tob [])
      as (s' & Hrun & Hp); [done..|]. by rewrite Hrun.
  - rewrite (proj2 (Z.eqb_neq _ _)) by lia. cbn [andb].
    erewrite bind_run; [cbv beta|by apply get_mb_run]. rewrite He, (proj2 (Z.eqb_neq _ _)) by lia.
    destruct (mb_fetch_run s mb m l v) as (s' & -> & H1 & H2); done.
Qed.
