(* ===== verification/MsgQueue.v ===== *)
(** The message queues of rt-thread/kernel/src/ipc.c: a singly linked queue of
    fixed-size messages in a pool of slots, the unused slots being on a free
    list.  A slot starts with its link word (struct rt_mq_message), the payload
    follows it. *)
From S2P Require Import Prelude KService Mem CpuPort Kernel Sched Object Timer Thread Ipc Mailbox.

(** * Definitions *)
Definition get_mq (mq : Z) : K rt_messagequeue := let* s := get in the (mqueues s !! mq).
Definition put_mq (mq : Z) (m : rt_messagequeue) : K unit := modify (set_mqueues (<[mq := m]>)).

Definition mq_set_entry v m := {| mq_msg_pool := mq_msg_pool m; msg_size := msg_size m;
  max_msgs := max_msgs m; mq_entry := v; msg_queue_head := msg_queue_head m;
  msg_queue_tail := msg_queue_tail m; msg_queue_free := msg_queue_free m |}.
Definition mq_set_head v m := {| mq_msg_pool := mq_msg_pool m; msg_size := msg_size m;
  max_msgs := max_msgs m; mq_entry := mq_entry m; msg_queue_head := v;
  msg_queue_tail := msg_queue_tail m; msg_queue_free := msg_queue_free m |}.
Definition mq_set_tail v m := {| mq_msg_pool := mq_msg_pool m; msg_size := msg_size m;
  max_msgs := max_msgs m; mq_entry := mq_entry m; msg_queue_head := msg_queue_head m;
  msg_queue_tail := v; msg_queue_free := msg_queue_free m |}.
Definition mq_set_free v m := {| mq_msg_pool := mq_msg_pool m; msg_size := msg_size m;
  max_msgs := max_msgs m; mq_entry := mq_entry m; msg_queue_head := msg_queue_head m;
  msg_queue_tail := msg_queue_tail m; msg_queue_free := v |}.

(** sizeof(struct rt_mq_message) *)
Definition MSG_HEADER : Z := 4.
(** msg->next and msg + 1 *)
Definition msg_next (msg : Z) : K Z := on_heap (on_ram (ld32 msg)).
Definition set_msg_next (msg v : Z) : K unit := on_heap (on_ram (st32 msg v)).
Definition msg_payload (msg : Z) : Z := msg + MSG_HEADER.

(** for (temp = 0; temp < mq->max_msgs; temp ++): put every slot on the free
    list; the list is returned *)
Fixpoint mq_link_slots (pool slot : Z) (n : nat) (temp free : Z) : K Z :=
  match n with
  | O => ret free
  | S n =>
      let head := pool + temp * slot in
      set_msg_next head free;;
      mq_link_slots pool slot n (temp + 1) head
  end.

(** initialise the lists of the message queue with [max] slots of [size] bytes *)
Definition mq_setup (mq pool size max : Z) : K unit :=
  let* free := mq_link_slots pool (size + MSG_HEADER) (Z.to_nat max) 0 RT_NULL in
  put_mq mq {| mq_msg_pool := pool; msg_size := size; max_msgs := max; mq_entry := 0;
    msg_queue_head := RT_NULL; msg_queue_tail := RT_NULL; msg_queue_free := free |};;
  queue_init (QSender mq).

Definition rt_mq_init (mq : Z) (name : list Z) (msgpool size pool_size flag : Z) : K Z :=
  rt_assert (negb (mq =? RT_NULL));;
  rt_object_init mq RT_Object_Class_MessageQueue name;;
  set_object_flag mq flag;;
  rt_ipc_object_init mq;;
  let size := u16 (RT_ALIGN size RT_ALIGN_SIZE) in
  mq_setup mq msgpool size (u16 (pool_size / (size + MSG_HEADER)));;
  ret RT_EOK.

Definition rt_mq_detach (mq : Z) : K Z :=
  assert_static mq RT_Object_Class_MessageQueue;;
  rt_ipc_list_resume_all (QSuspend mq);;
  rt_ipc_list_resume_all (QSender mq);;
  rt_object_detach mq;;
  ret RT_EOK.

Definition rt_mq_create (name : list Z) (size max flag : Z) : K Z :=
  RT_DEBUG_NOT_IN_INTERRUPT;;
  let* mq := rt_object_allocate RT_Object_Class_MessageQueue name in
  if mq =? RT_NULL then ret mq
  else
    set_object_flag mq flag;;
    rt_ipc_object_init mq;;
    let size := u16 (RT_ALIGN size RT_ALIGN_SIZE) in
    let max := u16 max in
    let* msgpool := on_heap (rt_malloc (u32 ((size + MSG_HEADER) * max))) in
    if msgpool =? RT_NULL then rt_object_delete mq;; ret RT_NULL
    else
      mq_setup mq msgpool size max;;
      ret mq.

Definition rt_mq_delete (mq : Z) : K Z :=
  RT_DEBUG_NOT_IN_INTERRUPT;;
  assert_dynamic mq RT_Object_Class_MessageQueue;;
  rt_ipc_list_resume_all (QSuspend mq);;
  rt_ipc_list_resume_all (QSender mq);;
  (let* m := get_mq mq in on_heap (rt_free (mq_msg_pool m)));;
  rt_object_delete mq;;
  ret RT_EOK.

(** take the slot [msg] off the free list *)
Definition mq_pop_free (mq msg : Z) : K unit :=
  let* m := get_mq mq in
  let* next := msg_next msg in
  put_mq mq (mq_set_free next m).
(** rt_memcpy (msg + 1, buffer, size) *)
Definition mq_copy_in (msg buffer size : Z) : K unit :=
  let* _d := on_heap (on_ram (rt_memcpy (msg_payload msg) buffer size)) in ret tt.

(** mq->entry ++ unless it is at its maximum; then wake a receiver *)
Definition mq_announce (mq : Z) : K (outcome Z wait) :=
  let* m := get_mq mq in
  if mq_entry m <? RT_MQ_ENTRY_MAX then
    put_mq mq (mq_set_entry (u16 (mq_entry m + 1)) m);;
    wake_one (QSuspend mq);;
    ret (Done RT_EOK)
  else ret (Done (- RT_EFULL)).

(** the end of rt_mq_send_wait, with the free slot [msg] *)
Definition mq_append (mq msg buffer size : Z) : K (outcome Z wait) :=
  mq_pop_free mq msg;;
  set_msg_next msg RT_NULL;;
  mq_copy_in msg buffer size;;
  let* m := get_mq mq in
  when (negb (msg_queue_tail m =? RT_NULL)) (set_msg_next (msg_queue_tail m) msg);;
  let m := mq_set_tail msg m in
  let m := if msg_queue_head m =? RT_NULL then mq_set_head msg m else m in
  put_mq mq m;;
  mq_announce mq.

(** while ((msg = mq->msg_queue_free) == RT_NULL), and the end *)
Definition mq_send_loop (mq buffer size thread timeout tick_delta : Z) : K (outcome Z wait) :=
  let* m := get_mq mq in
  let msg := msg_queue_free m in
  if msg =? RT_NULL then
    upd_thread thread (th_set_error RT_EOK);;
    if timeout =? 0 then ret (Done (- RT_EFULL))
    else
      let* flag := object_flag mq in
      let* w := block_on (QSender mq) thread flag timeout tick_delta in
      ret (Pending w)
  else mq_append mq msg buffer size.

Definition rt_mq_send_wait (mq buffer size timeout : Z) : K (outcome Z wait) :=
  assert_object mq RT_Object_Class_MessageQueue;;
  rt_assert (negb (buffer =? RT_NULL));;
  rt_assert (negb (size =? 0));;
  let* m := get_mq mq in
  if msg_size m <? size then ret (Done (- RT_ERROR))
  else
    let* thread := rt_thread_self in
    if ((msg_queue_free m =? RT_NULL) && (timeout =? 0))%bool then ret (Done (- RT_EFULL))
    else mq_send_loop mq buffer size thread timeout 0.

Definition rt_mq_send_wait_resumed (mq buffer size : Z) (w : wait) : K (outcome Z wait) :=
  let* r := wake_up w in
  match r with
  | inl e => ret (Done e)
  | inr w => mq_send_loop mq buffer size (w_thread w) (w_timeout w) (w_tick_delta w)
  end.

Definition rt_mq_send (mq buffer size : Z) : K (outcome Z wait) :=
  rt_mq_send_wait mq buffer size 0.

Definition rt_mq_urgent (mq buffer size : Z) : K (outcome Z wait) :=
  assert_object mq RT_Object_Class_MessageQueue;;
  rt_assert (negb (buffer =? RT_NULL));;
  rt_assert (negb (size =? 0));;
  let* m := get_mq mq in
  if msg_size m <? size then ret (Done (- RT_ERROR))
  else
    let msg := msg_queue_free m in
    if msg =? RT_NULL then ret (Done (- RT_EFULL))
    else
      mq_pop_free mq msg;;
      mq_copy_in msg buffer size;;
      let* m := get_mq mq in
      set_msg_next msg (msg_queue_head m);;
      let m := mq_set_head msg m in
      let m := if msg_queue_tail m =? RT_NULL then mq_set_tail msg m else m in
      put_mq mq m;;
      mq_announce mq.

(** move the head of the queue to the free list around [use] *)
Definition mq_unlink_head (mq : Z) : K Z :=
  let* m := get_mq mq in
  let msg := msg_queue_head m in
  let* next := msg_next msg in
  let m := mq_set_head next m in
  let m := if msg_queue_tail m =? msg then mq_set_tail RT_NULL m else m in
  put_mq mq m;;
  ret msg.
Definition mq_push_free (mq msg : Z) : K unit :=
  let* m := get_mq mq in
  set_msg_next msg (msg_queue_free m);;
  put_mq mq (mq_set_free msg m).

(** the end of rt_mq_recv: the queue is not empty *)
Definition mq_fetch (mq buffer size : Z) : K (outcome Z wait) :=
  let* msg := mq_unlink_head mq in
  (let* m := get_mq mq in
   when (0 <? mq_entry m) (put_mq mq (mq_set_entry (u16 (mq_entry m - 1)) m)));;
  let* m := get_mq mq in
  on_heap (on_ram (rt_memcpy buffer (msg_payload msg)
    (if msg_size m <? size then msg_size m else size)));;
  mq_push_free mq msg;;
  wake_one (QSender mq);;
  ret (Done RT_EOK).

Definition mq_recv_loop (mq buffer size thread timeout tick_delta : Z) : K (outcome Z wait) :=
  let* m := get_mq mq in
  if mq_entry m =? 0 then
    RT_DEBUG_IN_THREAD_CONTEXT;;
    upd_thread thread (th_set_error RT_EOK);;
    if timeout =? 0 then
      upd_thread thread (th_set_error (- RT_ETIMEOUT));;
      ret (Done (- RT_ETIMEOUT))
    else
      let* flag := object_flag mq in
      let* w := block_on (QSuspend mq) thread flag timeout tick_delta in
      ret (Pending w)
  else mq_fetch mq buffer size.

Definition rt_mq_recv (mq buffer size timeout : Z) : K (outcome Z wait) :=
  assert_object mq RT_Object_Class_MessageQueue;;
  rt_assert (negb (buffer =? RT_NULL));;
  rt_assert (negb (size =? 0));;
  let* thread := rt_thread_self in
  let* m := get_mq mq in
  if ((mq_entry m =? 0) && (timeout =? 0))%bool then ret (Done (- RT_ETIMEOUT))
  else mq_recv_loop mq buffer size thread timeout 0.

Definition rt_mq_recv_resumed (mq buffer size : Z) (w : wait) : K (outcome Z wait) :=
  let* r := wake_up w in
  match r with
  | inl e => ret (Done e)
  | inr w => mq_recv_loop mq buffer size (w_thread w) (w_timeout w) (w_tick_delta w)
  end.

(** while (mq->msg_queue_head != RT_NULL): release all messages *)
Fixpoint mq_release_all (fuel : nat) (mq : Z) : K unit :=
  match fuel with
  | O => raise OutOfFuel
  | S fuel =>
      let* m := get_mq mq in
      if msg_queue_head m =? RT_NULL then ret tt
      else
        let* msg := mq_unlink_head mq in
        mq_push_free mq msg;;
        mq_release_all fuel mq
  end.

(** the queue has at most [max_msgs] messages *)
Definition rt_mq_control (mq cmd arg : Z) : K Z :=
  assert_object mq RT_Object_Class_MessageQueue;;
  if cmd =? RT_IPC_CMD_RESET then
    rt_ipc_list_resume_all (QSuspend mq);;
    rt_ipc_list_resume_all (QSender mq);;
    (let* m := get_mq mq in mq_release_all (S (Z.to_nat (max_msgs m))) mq);;
    (let* m := get_mq mq in put_mq mq (mq_set_entry 0 m));;
    rt_schedule;;
    ret RT_EOK
  else ret (- RT_ERROR).

(** * Preservation of the scheduler invariant *)
#[export] Hint Unfold get_mq put_mq : minv.
Lemma get_mq_pres mq : preserves sched_ok (get_mq mq).
Proof. unfold get_mq. pres. Qed.
Lemma put_mq_pres mq m : preserves sched_ok (put_mq mq m).
Proof. unfold put_mq. pres. Qed.
Lemma msg_next_pres msg : preserves sched_ok (msg_next msg).
Proof. unfold msg_next. pres. Qed.
Lemma set_msg_next_pres msg v : preserves sched_ok (set_msg_next msg v).
Proof. unfold set_msg_next. pres. Qed.
Lemma mq_copy_in_pres msg buffer size : preserves sched_ok (mq_copy_in msg buffer size).
Proof. unfold mq_copy_in. pres. Qed.
#[export] Hint Resolve get_mq_pres put_mq_pres msg_next_pres set_msg_next_pres
  mq_copy_in_pres : pres.
Lemma mq_link_slots_pres pool slot n temp free :
  preserves sched_ok (mq_link_slots pool slot n temp free).
Proof. revert temp free. induction n; intros temp free; cbn; pres. Qed.
#[export] Hint Resolve mq_link_slots_pres : pres.
Lemma mq_setup_pres mq pool size max : preserves sched_ok (mq_setup mq pool size max).
Proof. unfold mq_setup. pres. Qed.
Lemma mq_announce_pres mq : preserves sched_ok (mq_announce mq).
Proof. unfold mq_announce. pres. Qed.
Lemma mq_pop_free_pres mq msg : preserves sched_ok (mq_pop_free mq msg).
Proof. unfold mq_pop_free. pres. Qed.
Lemma mq_push_free_pres mq msg : preserves sched_ok (mq_push_free mq msg).
Proof. unfold mq_push_free. pres. Qed.
Lemma mq_unlink_head_pres mq : preserves sched_ok (mq_unlink_head mq).
Proof. unfold mq_unlink_head. pres. Qed.
#[export] Hint Resolve mq_setup_pres mq_announce_pres mq_pop_free_pres mq_push_free_pres
  mq_unlink_head_pres : pres.
Lemma mq_append_pres mq msg buffer size : preserves sched_ok (mq_append mq msg buffer size).
Proof. unfold mq_append. pres. Qed.
Lemma mq_fetch_pres mq buffer size : preserves sched_ok (mq_fetch mq buffer size).
Proof. unfold mq_fetch. pres. Qed.
Lemma mq_release_all_pres fuel mq : preserves sched_ok (mq_release_all fuel mq).
Proof. induction fuel; cbn; pres. Qed.
#[export] Hint Resolve mq_append_pres mq_fetch_pres mq_release_all_pres : pres.
Lemma rt_mq_init_pres mq name msgpool size pool_size flag :
  preserves sched_ok (rt_mq_init mq name msgpool size pool_size flag).
Proof. unfold rt_mq_init. pres. Qed.
Lemma rt_mq_detach_pres mq : preserves sched_ok (rt_mq_detach mq).
Proof. unfold rt_mq_detach. pres. Qed.
Lemma rt_mq_create_pres name size max flag : preserves sched_ok (rt_mq_create name size max flag).
Proof. unfold rt_mq_create. pres. Qed.
Lemma rt_mq_delete_pres mq : preserves sched_ok (rt_mq_delete mq).
Proof. unfold rt_mq_delete. pres. Qed.
Lemma mq_send_loop_ok mq buffer size t timeout d s r s' :
  sched_ok s -> can_wait t s -> mq_send_loop mq buffer size t timeout d s = Ok (r, s') ->
  sched_ok s'.
Proof.
  intros Hok Hw Hm. unfold mq_send_loop in Hm. minv Hm.
  - by eapply sched_inv_upd.
  - match goal with H : block_on _ _ _ _ _ _ = _ |- _ =>
      eapply block_on_ok in H; [exact H|done|by eapply sched_inv_upd|by apply can_wait_error] end.
  - by eapply mq_append_pres.
Qed.
Lemma mq_recv_loop_ok mq buffer size t timeout d s r s' :
  sched_ok s -> can_wait t s -> mq_recv_loop mq buffer size t timeout d s = Ok (r, s') ->
  sched_ok s'.
Proof.
  intros Hok Hw Hm. unfold mq_recv_loop in Hm. minv Hm.
  - by repeat (eapply sched_inv_upd; [|eassumption|done]).
  - match goal with H : block_on _ _ _ _ _ _ = _ |- _ =>
      eapply block_on_ok in H; [exact H|done|by eapply sched_inv_upd|by apply can_wait_error] end.
  - by eapply mq_fetch_pres.
Qed.
Lemma rt_mq_send_wait_pres mq buffer size timeout s r s' :
  sched_ok s -> running_ok s -> rt_mq_send_wait mq buffer size timeout s = Ok (r, s') ->
  sched_ok s'.
Proof.
  intros Hok Hw Hm. unfold rt_mq_send_wait in Hm. minv Hm; try done.
  by eapply mq_send_loop_ok.
Qed.
Lemma rt_mq_recv_pres mq buffer size timeout s r s' :
  sched_ok s -> running_ok s -> rt_mq_recv mq buffer size timeout s = Ok (r, s') -> sched_ok s'.
Proof.
  intros Hok Hw Hm. unfold rt_mq_recv in Hm. minv Hm; try done. by eapply mq_recv_loop_ok.
Qed.
Lemma rt_mq_send_wait_resumed_pres mq buffer size w s r s' :
  sched_ok s -> can_wait (w_thread w) s ->
  rt_mq_send_wait_resumed mq buffer size w s = Ok (r, s') -> sched_ok s'.
Proof.
  intros Hok Hw Hm. unfold rt_mq_send_wait_resumed in Hm.
  apply bind_ok in Hm as ([e|w'] & s1 & [-> Hwt]%wake_up_inv & Hm); [by minv Hm|].
  eapply mq_send_loop_ok; [done| |exact Hm]. by rewrite (Hwt w').
Qed.
Lemma rt_mq_recv_resumed_pres mq buffer size w s r s' :
  sched_ok s -> can_wait (w_thread w) s ->
  rt_mq_recv_resumed mq buffer size w s = Ok (r, s') -> sched_ok s'.
Proof.
  intros Hok Hw Hm. unfold rt_mq_recv_resumed in Hm.
  apply bind_ok in Hm as ([e|w'] & s1 & [-> Hwt]%wake_up_inv & Hm); [by minv Hm|].
  eapply mq_recv_loop_ok; [done| |exact Hm]. by rewrite (Hwt w').
Qed.
Lemma rt_mq_urgent_pres mq buffer size : preserves sched_ok (rt_mq_urgent mq buffer size).
Proof. unfold rt_mq_urgent. pres. Qed.
Lemma rt_mq_control_pres mq cmd arg : preserves sched_ok (rt_mq_control mq cmd arg).
Proof. unfold rt_mq_control. pres. Qed.
#[export] Hint Resolve rt_mq_init_pres rt_mq_detach_pres rt_mq_create_pres rt_mq_delete_pres
  rt_mq_urgent_pres rt_mq_control_pres : pres.

(** * The message queue is a bounded FIFO queue of byte strings *)

(** bytes of a slot *)
Definition mq_slot (m : rt_messagequeue) : Z := msg_size m + MSG_HEADER.
Definition mq_slots (m : rt_messagequeue) : list Z :=
  cells (mq_msg_pool m) (mq_slot m) (max_msgs m).

(** the slots [queue] are linked from head to tail, the slots [free] from the
    free pointer, and there are no others *)
Record mq_rep (m : rt_messagequeue) (r : mem) (queue free : list Z) : Prop := {
  qr_pool : 0 < mq_msg_pool m;
  qr_size : 0 <= msg_size m < 65536;
  qr_max : 0 <= max_msgs m < 65536;
  qr_slots : queue ++ free ≡ₚ mq_slots m;
  qr_entry : mq_entry m = Z.of_nat (length queue);
  qr_head : chain r (msg_queue_head m) queue;
  qr_tail : msg_queue_tail m = default RT_NULL (last queue);
  qr_free : chain r (msg_queue_free m) free;
  qr_mapped : mapped r (mq_msg_pool m) (max_msgs m * mq_slot m);
}.
(** the slot [x] holds the message [d] *)
Definition msg_at (m : rt_messagequeue) (r : mem) (x : Z) (d : list Z) : Prop :=
  Z.of_nat (length d) <= msg_size m /\ bytes_at r (msg_payload x) (length d) = d.
Definition mq_holds (s : kstate) (mq : Z) (l : list (list Z)) : Prop :=
  exists m queue free, mqueues s !! mq = Some m /\ mq_rep m (ram (kheap s)) queue free /\
    Forall2 (msg_at m (ram (kheap s))) queue l.

Lemma mq_slot_pos m : 0 <= msg_size m -> 0 < mq_slot m.
Proof. unfold mq_slot, MSG_HEADER. lia. Qed.
Lemma mq_rep_slot m r queue free x :
  mq_rep m r queue free -> x ∈ queue ++ free ->
  0 < x /\ mapped r x (mq_slot m) /\ x + mq_slot m < 4294967296 + 1 /\
  mq_msg_pool m <= x /\ x + mq_slot m <= mq_msg_pool m + max_msgs m * mq_slot m.
Proof.
  intros [Hp Hs Hn Hl _ _ _ _ Hm] Hx. rewrite Hl in Hx.
  pose proof (mq_slot_pos m ltac:(lia)) as Hpos.
  destruct (cells_range _ _ _ _ Hpos Hx) as [H1 H2].
  pose proof Hm as (_ & ? & _). split_and!; [lia| |lia..].
  eapply mapped_sub; [exact Hm|lia..].
Qed.
Lemma mq_rep_sep m r queue free x y :
  mq_rep m r queue free -> x ∈ queue ++ free -> y ∈ queue ++ free -> x <> y ->
  x + mq_slot m <= y \/ y + mq_slot m <= x.
Proof.
  intros [Hp Hs Hn Hl _ _ _ _ _] Hx Hy. rewrite Hl in Hx, Hy.
  pose proof (mq_slot_pos m ltac:(lia)) as Hpos. by apply (cells_sep (mq_msg_pool m) _ (max_msgs m)).
Qed.
Lemma mq_rep_nodup m r queue free : mq_rep m r queue free -> NoDup (queue ++ free).
Proof.
  intros [Hp Hs Hn Hl _ _ _ _ _]. rewrite Hl. apply NoDup_cells, mq_slot_pos. lia.
Qed.
Lemma mq_rep_length m r queue free :
  mq_rep m r queue free -> Z.of_nat (length queue) + Z.of_nat (length free) = max_msgs m.
Proof.
  intros [Hp Hs Hn Hl _ _ _ _ _]. apply Permutation_length in Hl. unfold mq_slots in Hl.
  rewrite length_app, length_cells in Hl. lia.
Qed.

(** the [n] bytes at [a] are outside the pool *)
Definition off_pool (m : rt_messagequeue) (a n : Z) : Prop :=
  a + n <= mq_msg_pool m \/ mq_msg_pool m + max_msgs m * mq_slot m <= a.

(** a memory that differs at the headers of other slots, or outside the
    slot, holds the same message *)
Lemma msg_at_ext m m' r r' x d :
  msg_size m' = msg_size m ->
  (forall a, x + MSG_HEADER <= a < x + mq_slot m -> r' !! a = r !! a) ->
  msg_at m r x d -> msg_at m' r' x d.
Proof.
  intros Es Hr [Hl Hd]. unfold msg_at. rewrite Es. split; [done|]. rewrite <- Hd at 2.
  apply bytes_at_ext. intros i Hi. apply Hr. unfold msg_payload, mq_slot in *. lia.
Qed.
Lemma Forall2_mono {A B} (P Q : A -> B -> Prop) l k :
  Forall2 P l k -> (forall x y, x ∈ l -> P x y -> Q x y) -> Forall2 Q l k.
Proof.
  induction 1 as [|x y l k H _ IH]; intros HPQ; constructor.
  - apply HPQ; [left|done].
  - apply IH. intros. apply HPQ; [by right|done].
Qed.

(** a word written to the header of any slot *)
Lemma msg_at_header m r0 r queue free x y v d :
  mq_rep m r0 queue free -> x ∈ queue ++ free -> y ∈ queue ++ free ->
  msg_at m r y d -> msg_at m (store_word x v r) y d.
Proof.
  intros Hr Hx Hy. apply msg_at_ext; [done|]. intros a Ha. rewrite lookup_store_word.
  rewrite decide_False; [done|]. pose proof (mq_rep_sep _ _ _ _ x y Hr Hx Hy).
  pose proof (mq_slot_pos m ltac:(apply Hr)). unfold mq_slot, MSG_HEADER in *.
  destruct (decide (x = y)) as [->|]; lia.
Qed.
(** bytes copied into the payload of another slot, or out of the pool *)
Lemma msg_at_copied m r0 r r' queue free x y b n d :
  mq_rep m r0 queue free -> x ∈ queue ++ free -> y ∈ queue ++ free -> x <> y ->
  n <= msg_size m -> copied r r' (msg_payload x) b n -> msg_at m r y d -> msg_at m r' y d.
Proof.
  intros Hr Hx Hy Hne Hn Hc. apply msg_at_ext; [done|]. intros a Ha. rewrite Hc.
  rewrite decide_False; [done|]. pose proof (mq_rep_sep _ _ _ _ x y Hr Hx Hy Hne).
  unfold msg_payload, mq_slot, MSG_HEADER in *. lia.
Qed.
Lemma msg_at_copied_off m r0 r r' queue free y dst b n d :
  mq_rep m r0 queue free -> y ∈ queue ++ free -> off_pool m dst n ->
  copied r r' dst b n -> msg_at m r y d -> msg_at m r' y d.
Proof.
  intros Hr Hy Hoff Hc. apply msg_at_ext; [done|]. intros a Ha. rewrite Hc.
  rewrite decide_False; [done|]. destruct (mq_rep_slot _ _ _ _ y Hr Hy) as (_ & _ & _ & ? & ?).
  unfold off_pool, MSG_HEADER in *. lia.
Qed.
Lemma header_copied m r r' queue free x y b n :
  mq_rep m r queue free -> x ∈ queue ++ free -> y ∈ queue ++ free ->
  n <= msg_size m -> copied r r' (msg_payload x) b n -> word_at r' y = word_at r y.
Proof.
  intros Hr Hx Hy Hn Hc. eapply word_at_copied; [exact Hc|].
  pose proof (mq_rep_sep _ _ _ _ x y Hr Hx Hy). pose proof (mq_slot_pos m ltac:(apply Hr)).
  unfold msg_payload, mq_slot, MSG_HEADER in *. destruct (decide (x = y)) as [->|]; lia.
Qed.
Lemma mq_rep_apart m r queue free x y :
  mq_rep m r queue free -> x ∈ queue ++ free -> y ∈ queue ++ free -> x <> y -> apart x y.
Proof.
  intros Hr Hx Hy Hne. pose proof (mq_rep_sep _ _ _ _ x y Hr Hx Hy Hne). unfold apart.
  pose proof (qr_size _ _ _ _ Hr). unfold mq_slot, MSG_HEADER in *. lia.
Qed.

(** the queue [m] after a message has been put into the slot [x] *)
Definition mq_grown (head tail next : Z) (m : rt_messagequeue) : rt_messagequeue :=
  {| mq_msg_pool := mq_msg_pool m; msg_size := msg_size m; max_msgs := max_msgs m;
     mq_entry := mq_entry m + 1; msg_queue_head := head; msg_queue_tail := tail;
     msg_queue_free := next |}.

(** the filled slot is linked behind the tail *)
Lemma mq_rep_append m r r2 queue x free b n :
  mq_rep m r queue (x :: free) -> n <= msg_size m -> mapped r b n ->
  copied (store_word x RT_NULL r) r2 (msg_payload x) b n ->
  mq_rep (mq_grown (if msg_queue_head m =? RT_NULL then x else msg_queue_head m) x (word_at r x) m)
    (if msg_queue_tail m =? RT_NULL then r2 else store_word (msg_queue_tail m) x r2)
    (queue ++ [x]) free.
Proof.
  intros Hr Hn Hb Hc. pose proof (mq_rep_nodup _ _ _ _ Hr) as Hnd.
  pose proof Hr as [Hp Hs Hmax Hl He Hh Ht Hf Hm]. destruct Hf as (_ & Hx0 & Hf).
  apply NoDup_app in Hnd as (Hnq & Hdisj & Hnf). apply NoDup_cons in Hnf as [Hxf Hnf].
  assert (Hxq : x ∉ queue) by (intros H; apply (Hdisj _ H); left).
  assert (Hin : forall y, y ∈ queue \/ y ∈ free -> y ∈ queue ++ x :: free) by set_solver.
  assert (Hxin : x ∈ queue ++ x :: free) by set_solver.
  assert (Hr1 : mapped (store_word x RT_NULL r) (mq_msg_pool m) (max_msgs m * mq_slot m))
    by (by apply mapped_store_word).
  assert (Hword : forall y, y ∈ queue \/ y ∈ free -> word_at r2 y = word_at r y).
  { intros y Hy. assert (x <> y) as Hne by (intros ->; tauto). pose proof (Hin y Hy) as Hy'.
    pose proof (mq_rep_sep _ _ _ _ x y Hr Hxin Hy' Hne). unfold msg_payload, mq_slot, MSG_HEADER in *.
    rewrite (word_at_copied _ _ _ _ _ y Hc) by lia. apply word_at_store_ne. lia. }
  assert (Hx2 : word_at r2 x = 0).
  { rewrite (word_at_copied _ _ _ _ _ x Hc) by (unfold msg_payload, MSG_HEADER; lia).
    by rewrite word_at_store. }
  assert (Hm2 : mapped r2 (mq_msg_pool m) (max_msgs m * mq_slot m)).
  { eapply copied_mapped; [exact Hc|by apply mapped_store_word|done]. }
  destruct (mq_rep_slot _ _ _ _ x Hr Hxin) as (Hxp & _ & Hxr & _).
  assert (Hslot : 0 < mq_slot m) by (apply mq_slot_pos; lia).
  set (r3 := if _ =? _ then r2 else _).
  assert (H3 : mapped r3 (mq_msg_pool m) (max_msgs m * mq_slot m) /\
    chain r3 (if msg_queue_head m =? RT_NULL then x else msg_queue_head m) (queue ++ [x]) /\
    forall y, y ∈ free -> word_at r3 y = word_at r y).
  { unfold r3. destruct (last queue) as [y|] eqn:El; cbn in Ht.
    - apply last_Some in El as [q0 ->]. rewrite Ht.
      assert (Hy0 : y ∈ (q0 ++ [y]) ++ x :: free) by set_solver.
      destruct (mq_rep_slot _ _ _ _ y Hr Hy0) as (Hyp & _).
      rewrite !(proj2 (Z.eqb_neq _ _)); [|intros E; apply chain_null in Hh; naive_solver
        (by eapply app_cons_not_nil)|unfold RT_NULL; lia].
      split_and!.
      + by apply mapped_store_word.
      + rewrite <- app_assoc. apply chain_append; try done; [|lia| |].
        * eapply chain_ext; [|exact Hh]. intros z Hz. apply Hword. by left.
        * intros z Hz. eapply mq_rep_apart; [exact Hr|done|set_solver|]. intros <-.
          apply NoDup_app in Hnq as (_ & Hd & _). apply (Hd _ Hz). left.
        * eapply mq_rep_apart; [exact Hr|done|done|]. intros <-. set_solver.
      + intros z Hz. rewrite word_at_store_ne; [apply Hword; by right|].
        eapply mq_rep_apart; [exact Hr|done|set_solver|]. intros <-. apply (Hdisj y); set_solver.
    - apply last_None in El as ->. cbn in Hh. rewrite Ht, Hh. cbn. split_and!; try done.
      intros y Hy. apply Hword. by right. }
  destruct H3 as (Hm3 & Hc3 & Hw3). split; cbn; try done; try lia.
  - rewrite <- Hl. solve_Permutation.
  - rewrite length_app. cbn. lia.
  - by rewrite last_snoc.
  - eapply chain_ext; [|exact Hf]. done.
Qed.

Lemma mq_head_range m r queue free :
  mq_rep m r queue free -> 0 <= msg_queue_head m < 4294967296 /\ 0 <= msg_queue_free m < 4294967296.
Proof.
  intros Hr. assert (H : forall p l, chain r p l -> (forall x, x ∈ l -> x ∈ queue ++ free) ->
    0 <= p < 4294967296).
  { intros p [|x l] Hc Hl; cbn in Hc; [lia|]. destruct Hc as [-> _].
    destruct (mq_rep_slot _ _ _ _ x Hr) as (? & _ & ? & _); [apply Hl; left|].
    pose proof (mq_slot_pos m ltac:(apply Hr)). lia. }
  split; [apply (H _ queue)|apply (H _ free)]; try apply Hr; set_solver.
Qed.

(** the filled slot is linked before the head *)
Lemma mq_rep_push m r r2 queue x free b n :
  mq_rep m r queue (x :: free) -> n <= msg_size m -> mapped r b n ->
  copied r r2 (msg_payload x) b n ->
  mq_rep (mq_grown x (if msg_queue_tail m =? RT_NULL then x else msg_queue_tail m) (word_at r x) m)
    (store_word x (msg_queue_head m) r2) (x :: queue) free.
Proof.
  intros Hr Hn Hb Hc. pose proof (mq_rep_nodup _ _ _ _ Hr) as Hnd.
  pose proof (mq_head_range _ _ _ _ Hr) as [Hhr _].
  pose proof Hr as [Hp Hs Hmax Hl He Hh Ht Hf Hm]. destruct Hf as (_ & Hx0 & Hf).
  assert (Hxin : x ∈ queue ++ x :: free) by set_solver.
  assert (Hother : forall y, y ∈ queue ++ free -> apart x y /\ word_at r2 y = word_at r y).
  { intros y Hy. assert (y ∈ queue ++ x :: free) by set_solver. split.
    - eapply mq_rep_apart; [exact Hr|done|done|]. intros ->. rewrite <- Permutation_middle in Hnd.
      apply NoDup_cons in Hnd as [Hnx _]. done.
    - exact (header_copied m r r2 queue (x :: free) x y b n Hr Hxin ltac:(done) Hn Hc). }
  split; cbn [mq_grown mq_msg_pool msg_size max_msgs mq_entry msg_queue_head msg_queue_tail
    msg_queue_free]; try done.
  - rewrite <- Hl. cbn. by rewrite Permutation_middle.
  - cbn [length]. lia.
  - apply chain_push; try done.
    + eapply chain_ext; [|exact Hh]. intros y Hy. apply Hother. set_solver.
    + intros y Hy. apply Hother. set_solver.
  - rewrite Ht. destruct (last queue) as [y|] eqn:El; cbn.
    + apply last_Some in El as [q0 ->]. destruct (mq_rep_slot _ _ _ _ y Hr) as (? & _); [set_solver|].
      rewrite (proj2 (Z.eqb_neq _ _)) by (unfold RT_NULL; lia).
      change (x :: q0 ++ [y]) with ((x :: q0) ++ [y]). by rewrite last_snoc.
    + by apply last_None in El as ->.
  - eapply chain_ext; [|exact Hf]. intros y Hy. destruct (Hother y) as [? <-]; [set_solver|].
    by apply word_at_store_ne.
  - apply mapped_store_word. by eapply copied_mapped.
Qed.

(** the queue [m] after the message in the slot [x] has been taken *)
Definition mq_shrunk (x next : Z) (m : rt_messagequeue) : rt_messagequeue :=
  {| mq_msg_pool := mq_msg_pool m; msg_size := msg_size m; max_msgs := max_msgs m;
     mq_entry := mq_entry m - 1; msg_queue_head := next;
     msg_queue_tail := if msg_queue_tail m =? x then RT_NULL else msg_queue_tail m;
     msg_queue_free := x |}.
Lemma mq_rep_fetch m r r2 x queue free b n :
  mq_rep m r (x :: queue) free -> n <= msg_size m -> mapped r (msg_payload x) n ->
  copied r r2 b (msg_payload x) n -> off_pool m b n ->
  mq_rep (mq_shrunk x (word_at r x) m) (store_word x (msg_queue_free m) r2) queue (x :: free).
Proof.
  intros Hr Hn Hb Hc Hoff. pose proof (mq_rep_nodup _ _ _ _ Hr) as Hnd.
  pose proof (mq_head_range _ _ _ _ Hr) as [_ Hfr].
  pose proof Hr as [Hp Hs Hmax Hl He Hh Ht Hf Hm]. destruct Hh as (_ & Hx0 & Hh).
  cbn [app] in Hnd, Hl. apply NoDup_cons in Hnd as [Hxn Hnd].
  assert (Hother : forall y, y ∈ queue ++ free -> apart x y /\ word_at r2 y = word_at r y).
  { intros y Hy. assert (y ∈ (x :: queue) ++ free) as Hy' by (by right). split.
    - eapply mq_rep_apart; [exact Hr|left|done|]. by intros ->.
    - eapply word_at_copied; [exact Hc|]. destruct (mq_rep_slot _ _ _ _ y Hr Hy') as (_ & _ & _ & ? & ?).
      unfold off_pool, mq_slot, MSG_HEADER in *. lia. }
  split; cbn [mq_shrunk mq_msg_pool msg_size max_msgs mq_entry msg_queue_head msg_queue_tail
    msg_queue_free]; try done.
  - rewrite <- Hl. by rewrite Permutation_middle.
  - cbn [length] in He. lia.
  - eapply chain_ext; [|exact Hh]. intros y Hy. destruct (Hother y) as [? <-]; [set_solver|].
    by apply word_at_store_ne.
  - rewrite Ht. destruct (last queue) as [y|] eqn:El; cbn.
    + apply last_Some in El as [q0 ->]. change (x :: q0 ++ [y]) with ((x :: q0) ++ [y]).
      rewrite last_snoc. cbn. rewrite (proj2 (Z.eqb_neq _ _)); [done|]. intros ->. set_solver.
    + apply last_None in El as ->. cbn. by rewrite Z.eqb_refl.
  - apply chain_push; try done.
    + eapply chain_ext; [|exact Hf]. intros y Hy. apply Hother. set_solver.
    + intros y Hy. apply Hother. set_solver.
  - apply mapped_store_word. by eapply copied_mapped.
Qed.

(** ** The operations *)
Lemma get_mq_run mq m s : mqueues s !! mq = Some m -> get_mq mq s = Ok (m, s).
Proof. intros H. unfold get_mq, bind, get. by rewrite H. Qed.
Lemma msg_next_run x s : mapped (ram (kheap s)) x 4 ->
  msg_next x s = Ok (word_at (ram (kheap s)) x, s).
Proof.
  intros H. unfold msg_next. erewrite on_heap_ram_run by (by apply ld32_run). by rewrite with_ram_id.
Qed.
Lemma set_msg_next_run x v s : mapped (ram (kheap s)) x 4 ->
  set_msg_next x v s = Ok (tt, with_ram (store_word x v (ram (kheap s))) s).
Proof. intros H. unfold set_msg_next. by erewrite on_heap_ram_run by (by apply st32_run). Qed.

(** a slot that is in use or free *)
Lemma slot_header m r r' queue free x :
  mq_rep m r queue free -> x ∈ queue ++ free -> (forall a k, mapped r a k -> mapped r' a k) ->
  mapped r' x 4.
Proof.
  intros Hr Hx Hm. destruct (mq_rep_slot _ _ _ _ x Hr Hx) as (_ & H & _). apply Hm.
  pose proof (qr_size _ _ _ _ Hr). eapply mapped_sub; [exact H|unfold mq_slot, MSG_HEADER; lia..].
Qed.
Lemma slot_payload m r r' queue free x n :
  mq_rep m r queue free -> x ∈ queue ++ free -> (forall a k, mapped r a k -> mapped r' a k) ->
  0 <= n <= msg_size m -> mapped r' (msg_payload x) n.
Proof.
  intros Hr Hx Hm Hn. destruct (mq_rep_slot _ _ _ _ x Hr Hx) as (_ & H & _). apply Hm.
  eapply mapped_sub; [exact H|unfold msg_payload, mq_slot, MSG_HEADER; lia..].
Qed.

Lemma mq_pop_free_run s mq m x :
  mqueues s !! mq = Some m -> mapped (ram (kheap s)) x 4 ->
  mq_pop_free mq x s =
    Ok (tt, set_mqueues (<[mq := mq_set_free (word_at (ram (kheap s)) x) m]>) s).
Proof.
  intros Hm Hx. unfold mq_pop_free. erewrite bind_run; [cbv beta|by apply get_mq_run].
  by erewrite bind_run; [|by apply msg_next_run].
Qed.
Lemma mq_copy_in_run s x buffer n :
  let r := ram (kheap s) in
  mapped r buffer n -> mapped r (msg_payload x) n -> byte_mem r -> 0 <= n ->
  msg_payload x <= buffer \/ buffer + n <= msg_payload x ->
  exists r', mq_copy_in x buffer n s = Ok (tt, with_ram r' s) /\
    copied r r' (msg_payload x) buffer n.
Proof.
  intros r Hb Hp Hbm Hn Hd.
  destruct (rt_memcpy_run r (msg_payload x) buffer n) as (r' & Hrun & Hc); [done..|].
  exists r'. split; [|done]. unfold mq_copy_in.
  by erewrite bind_run; [|apply on_heap_ram_run; exact Hrun].
Qed.

Lemma mq_announce_run s mq m :
  sched_ok s -> mqueues s !! mq = Some m -> 0 <= mq_entry m < RT_MQ_ENTRY_MAX ->
  waiters_wf s (QSuspend mq) ->
  exists s', mq_announce mq s = Ok (Done RT_EOK, s') /\
    mqueues s' !! mq = Some (mq_set_entry (mq_entry m + 1) m) /\ kheap s' = kheap s /\
    woken s s' (QSuspend mq).
Proof.
  intros Hok Hm He Hwf. unfold mq_announce. erewrite bind_run; [cbv beta|by apply get_mq_run].
  rewrite (proj2 (Z.ltb_lt _ _)) by lia. rewrite u16_small by (unfold RT_MQ_ENTRY_MAX in *; lia).
  erewrite bind_run; [cbv beta|reflexivity].
  set (s1 := set_mqueues _ s).
  destruct (wake_one_run s1 (QSuspend mq)) as (s' & Hrun & Hw & Hso);
    [done|by apply (waiters_wf_frame s)|done|].
  exists s'. erewrite bind_run; [|exact Hrun]. destruct Hso as (_&_&_&_& Em &_& Ek).
  rewrite Em, Ek. split_and!; [done|apply lookup_insert_eq|done|exact Hw].
Qed.

(** the buffer of a call, outside the pool of the queue *)
Record mq_buffer (r : mem) (m : rt_messagequeue) (buffer n : Z) : Prop := {
  qb_bytes : byte_mem r;
  qb_mapped : mapped r buffer n;
  qb_size : buffer <> RT_NULL /\ 0 < n;
  qb_off : off_pool m buffer n;
}.
Lemma mq_buffer_sep r m queue free buffer n k x :
  mq_rep m r queue free -> x ∈ queue ++ free -> mq_buffer r m buffer n -> k <= n -> k <= msg_size m ->
  (msg_payload x <= buffer \/ buffer + k <= msg_payload x) /\
  (buffer <= msg_payload x \/ msg_payload x + k <= buffer) /\
  (x + MSG_HEADER <= buffer \/ buffer + n <= x).
Proof.
  intros Hr Hx [_ _ _ Ho] Hk Hn. destruct (mq_rep_slot _ _ _ _ x Hr Hx) as (_ & _ & _ & ? & ?).
  pose proof (qr_size _ _ _ _ Hr).
  unfold off_pool, msg_payload, mq_slot, MSG_HEADER in *. lia.
Qed.

(** the messages after [n] bytes of the buffer were copied to the slot [x],
    whatever is written to the headers of slots before and after that *)
Lemma mq_msgs_filled m m' r r1 r2 queue x free l buffer n v :
  mq_rep m r queue (x :: free) -> msg_size m' = msg_size m -> Forall2 (msg_at m r) queue l ->
  mq_buffer r m buffer n -> n <= msg_size m ->
  r1 = r \/ r1 = store_word x v r -> copied r1 r2 (msg_payload x) buffer n ->
  let d := bytes_at r buffer (Z.to_nat n) in
  forall y w, y ∈ queue ++ x :: free ->
  let r3 := store_word y w r2 in
  Forall2 (msg_at m' r2) queue l /\ msg_at m' r2 x d /\ Forall2 (msg_at m' r3) queue l /\ msg_at m' r3 x d.
Proof.
  intros Hr Es Hl Hbuf Hn H1 Hc d y w Hy r3.
  assert (Hx : x ∈ queue ++ x :: free) by set_solver.
  pose proof (mq_rep_nodup _ _ _ _ Hr) as Hnd. rewrite <- Permutation_middle in Hnd.
  apply NoDup_cons in Hnd as [Hxn _].
  assert (Hq : forall z e, z ∈ queue -> msg_at m r z e -> msg_at m r2 z e).
  { intros z e Hz He. assert (z ∈ queue ++ x :: free) by set_solver.
    eapply (msg_at_copied m r r1); [exact Hr|exact Hx|done| |exact Hn|exact Hc|].
    - intros <-. apply Hxn. set_solver.
    - destruct H1 as [->| ->]; [done|]. by eapply msg_at_header. }
  assert (Hd : msg_at m r2 x d).
  { pose proof Hbuf as [_ _ [_ Hn0] _]. unfold d. split; rewrite length_bytes_at; [lia|].
    rewrite (bytes_at_copied _ _ _ _ _ _ Hc) by lia. destruct H1 as [->| ->]; [done|].
    apply bytes_at_ext. intros i Hi. rewrite lookup_store_word, decide_False; [done|].
    destruct (mq_buffer_sep _ _ _ _ _ _ n _ Hr Hx Hbuf) as (_ & _ & ?); [lia..|].
    unfold MSG_HEADER in *. lia. }
  assert (Hsz : forall r z e, msg_at m r z e -> msg_at m' r z e).
  { intros r' z e. by apply msg_at_ext. }
  assert (Hh : forall z e, z ∈ queue ++ x :: free -> msg_at m r2 z e -> msg_at m' r3 z e).
  { intros z e Hz He. by eapply Hsz, msg_at_header. }
  split_and!; auto; (eapply Forall2_mono; [exact Hl|]); intros z e Hz He; auto.
  apply Hh; [set_solver|auto].
Qed.

(** the queue grown by the slot [x], before its entry is counted *)
Lemma mq_grown_run s m mq head tail next queue free l :
  sched_ok s -> mqueues s !! mq = Some (mq_set_entry (mq_entry m) (mq_grown head tail next m)) ->
  mq_rep (mq_grown head tail next m) (ram (kheap s)) queue free -> queue <> [] ->
  Forall2 (msg_at (mq_grown head tail next m) (ram (kheap s))) queue l ->
  waiters_wf s (QSuspend mq) ->
  exists s', mq_announce mq s = Ok (Done RT_EOK, s') /\ mq_holds s' mq l /\ woken s s' (QSuspend mq).
Proof.
  intros Hok Hm Hr Hne Hl Hwf. pose proof (mq_rep_length _ _ _ _ Hr) as Hlen.
  pose proof (qr_max _ _ _ _ Hr) as Hmax. pose proof (qr_entry _ _ _ _ Hr) as He. cbn in *.
  assert (0 < length queue)%nat by (destruct queue; [done|cbn; lia]).
  destruct (mq_announce_run s mq _ Hok Hm) as (s' & Hrun & Hm' & Ek & Hw);
    [cbn; unfold RT_MQ_ENTRY_MAX; lia|done|].
  exists s'. split_and!; [done| |done]. exists (mq_grown head tail next m), queue, free.
  rewrite Ek. by rewrite Hm'.
Qed.

Lemma mq_append_run s mq m queue x free l buffer n :
  let r := ram (kheap s) in
  sched_ok s -> mqueues s !! mq = Some m -> mq_rep m r queue (x :: free) ->
  Forall2 (msg_at m r) queue l -> mq_buffer r m buffer n -> n <= msg_size m ->
  waiters_wf s (QSuspend mq) ->
  exists s', mq_append mq x buffer n s = Ok (Done RT_EOK, s') /\
    mq_holds s' mq (l ++ [bytes_at r buffer (Z.to_nat n)]) /\ woken s s' (QSuspend mq).
Proof.
  intros r Hok Hm Hr Hl Hbuf Hn Hwf. pose proof Hbuf as [Hbm Hbuf' [_ Hn0] _].
  assert (Hx : x ∈ queue ++ x :: free) by set_solver.
  destruct (mq_buffer_sep r m queue (x :: free) buffer n n x Hr Hx Hbuf) as (Hsep & _); [lia|done|].
  unfold mq_append. erewrite bind_run; [cbv beta|].
  2: { apply mq_pop_free_run; [exact Hm|]. by eapply slot_header. }
  erewrite bind_run; [cbv beta|apply set_msg_next_run; by eapply slot_header].
  set (s1 := with_ram _ _). pose proof (mapped_store_word x RT_NULL r) as Hst.
  destruct (mq_copy_in_run s1 x buffer n) as (r2 & Hrun & Hc);
    [by apply Hst|eapply slot_payload; [exact Hr|done|exact Hst|lia]|
     by apply byte_mem_store_word|lia|done|].
  change (ram (kheap s1)) with (store_word x RT_NULL r) in Hc.
  erewrite bind_run; [cbv beta|exact Hrun]. set (s2 := with_ram r2 s1).
  set (m1 := mq_set_free (word_at r x) m).
  erewrite bind_run; [cbv beta|apply get_mq_run; apply lookup_insert_eq]. fold r m1.
  cbn [msg_queue_head msg_queue_tail m1 mq_set_free mq_set_tail].
  pose proof (mq_rep_append m r r2 queue x free buffer n Hr Hn Hbuf' Hc) as Hr3.
  set (r3 := if msg_queue_tail m =? RT_NULL then r2 else _) in *.
  set (g := mq_grown _ _ _ m) in *.
  assert (Htail : msg_queue_tail m <> RT_NULL -> msg_queue_tail m ∈ queue ++ x :: free).
  { rewrite (qr_tail _ _ _ _ Hr). destruct (last queue) as [y|] eqn:El; [|done].
    apply last_Some in El as [q0 ->]. set_solver. }
  assert (Hm2 : forall a k, mapped r a k -> mapped r2 a k).
  { intros a k Ha. eapply copied_mapped; [exact Hc|by apply mapped_store_word..]. }
  erewrite bind_run with (a := tt) (s' := with_ram r3 s2); [cbv beta|].
  2: { unfold r3. destruct (Z.eqb_spec (msg_queue_tail m) RT_NULL) as [|Hne]; [done|].
    cbn [negb when]. apply set_msg_next_run. eapply slot_header; [exact Hr|auto|exact Hm2]. }
  erewrite bind_run; [cbv beta|reflexivity].
  set (m3 := if _ =? _ then _ else _). set (s3 := set_mqueues _ _).
  assert (E3 : m3 = mq_set_entry (mq_entry m) g).
  { unfold m3, g. by destruct (msg_queue_head m =? RT_NULL). }
  apply (mq_grown_run s3 m mq (if msg_queue_head m =? RT_NULL then x else msg_queue_head m) x
    (word_at r x) (queue ++ [x]) free); try done.
  - fold g. rewrite <- E3. apply lookup_insert_eq.
  - intros E%(f_equal length); rewrite length_app in E; cbn in E; lia.
  - change (ram (kheap s3)) with r3. fold g.
    pose proof (mq_msgs_filled m g r _ r2 queue x free l buffer n RT_NULL Hr eq_refl Hl Hbuf Hn
      (or_intror eq_refl) Hc) as Hfill.
    cbv zeta in Hfill. unfold r3. destruct (Z.eqb_spec (msg_queue_tail m) RT_NULL) as [|Hne].
    + destruct (Hfill x 0 Hx) as (H1 & H2 & _). apply Forall2_app; [done|]. by constructor.
    + destruct (Hfill _ x (Htail Hne)) as (_ & _ & H1 & H2). apply Forall2_app; [done|].
      by constructor.
  - by apply (waiters_wf_frame s).
Qed.

(** the end of rt_mq_urgent, with the free slot [x] *)
Lemma mq_push_run s mq m queue x free l buffer n :
  let r := ram (kheap s) in
  sched_ok s -> mqueues s !! mq = Some m -> mq_rep m r queue (x :: free) ->
  Forall2 (msg_at m r) queue l -> mq_buffer r m buffer n -> n <= msg_size m ->
  waiters_wf s (QSuspend mq) ->
  exists s', (mq_pop_free mq x;; mq_copy_in x buffer n;;
      let* m := get_mq mq in
      set_msg_next x (msg_queue_head m);;
      put_mq mq (if msg_queue_tail (mq_set_head x m) =? RT_NULL
                 then mq_set_tail x (mq_set_head x m) else mq_set_head x m);;
      mq_announce mq) s = Ok (Done RT_EOK, s') /\
    mq_holds s' mq (bytes_at r buffer (Z.to_nat n) :: l) /\ woken s s' (QSuspend mq).
Proof.
  intros r Hok Hm Hr Hl Hbuf Hn Hwf. pose proof Hbuf as [Hbm Hbuf' [_ Hn0] _].
  assert (Hx : x ∈ queue ++ x :: free) by set_solver.
  destruct (mq_buffer_sep r m queue (x :: free) buffer n n x Hr Hx Hbuf) as (Hsep & _); [lia|done|].
  erewrite bind_run; [cbv beta|].
  2: { apply mq_pop_free_run; [exact Hm|]. by eapply slot_header. }
  set (m1 := mq_set_free _ m). set (s1 := set_mqueues _ s).
  destruct (mq_copy_in_run s1 x buffer n) as (r2 & Hrun & Hc);
    [done|by eapply slot_payload; [exact Hr|done|done|lia]|done|lia|done|].
  change (ram (kheap s1)) with r in Hc.
  erewrite bind_run; [cbv beta|exact Hrun].
  erewrite bind_run; [cbv beta|apply get_mq_run; apply lookup_insert_eq].
  assert (Hm2 : forall a k, mapped r a k -> mapped r2 a k) by (intros; by eapply copied_mapped).
  erewrite bind_run; [cbv beta|apply set_msg_next_run; eapply slot_header; [exact Hr|exact Hx|exact Hm2]].
  erewrite bind_run; [cbv beta|reflexivity].
  change (ram (kheap (with_ram r2 s1))) with r2.
  cbn [msg_queue_head msg_queue_tail m1 mq_set_free mq_set_head].
  pose proof (mq_rep_push m r r2 queue x free buffer n Hr Hn Hbuf' Hc) as Hr3.
  set (r3 := store_word x _ r2) in *. set (g := mq_grown _ _ _ m) in *.
  set (m3 := if _ =? _ then _ else _). set (s3 := set_mqueues _ _).
  assert (E3 : m3 = mq_set_entry (mq_entry m) g).
  { unfold m3, g. by destruct (msg_queue_tail m =? RT_NULL). }
  apply (mq_grown_run s3 m mq x (if msg_queue_tail m =? RT_NULL then x else msg_queue_tail m)
    (word_at r x) (x :: queue) free); try done.
  - fold g. rewrite <- E3. apply lookup_insert_eq.
  - change (ram (kheap s3)) with r3. fold g.
    destruct (mq_msgs_filled m g r _ r2 queue x free l buffer n RT_NULL Hr eq_refl Hl Hbuf Hn
      (or_introl eq_refl) Hc x (msg_queue_head m) Hx) as (_ & _ & H1 & H2). by constructor.
  - by apply (waiters_wf_frame s).
Qed.

Lemma mq_fetch_run s mq m x queue free d l buffer n :
  let r := ram (kheap s) in
  let k := if msg_size m <? n then msg_size m else n in
  sched_ok s -> mqueues s !! mq = Some m -> mq_rep m r (x :: queue) free ->
  Forall2 (msg_at m r) (x :: queue) (d :: l) -> mq_buffer r m buffer n -> waiters_wf s (QSender mq) ->
  exists s', mq_fetch mq buffer n s = Ok (Done RT_EOK, s') /\ mq_holds s' mq l /\
    (forall j, Z.of_nat j <= n -> (j <= length d)%nat ->
      bytes_at (ram (kheap s')) buffer j = take j d) /\ woken s s' (QSender mq).
Proof.
  intros r k Hok Hm Hr Hl Hbuf Hwf. pose proof Hbuf as [Hbm Hbuf' [_ Hn0] Hoff].
  pose proof (qr_size _ _ _ _ Hr) as Hs.
  assert (Hk : 0 <= k <= n /\ k <= msg_size m) by (unfold k; destruct (Z.ltb_spec (msg_size m) n); lia).
  assert (Hx : x ∈ (x :: queue) ++ free) by left.
  destruct (mq_buffer_sep r m _ _ buffer n k x Hr Hx Hbuf) as (_ & Hsep & Hsx); [lia..|].
  pose proof (qr_head _ _ _ _ Hr) as Eh. cbn in Eh. destruct Eh as (Eh & _).
  pose proof (slot_payload m r r (x :: queue) free x k Hr Hx ltac:(done) ltac:(lia)) as Hpay.
  unfold mq_fetch, mq_unlink_head. rewrite bind_assoc.
  erewrite bind_run; [cbv beta|by apply get_mq_run]. rewrite Eh.
  rewrite bind_assoc. erewrite bind_run; [cbv beta|apply msg_next_run; by eapply slot_header].
  fold r. rewrite bind_assoc. erewrite bind_run; [cbv beta|reflexivity].
  erewrite bind_run; [cbv beta|reflexivity].
  set (m1 := if _ =? _ then _ else _).
  assert (E1 : m1 = mq_set_free (msg_queue_free m) (mq_set_entry (mq_entry m) (mq_shrunk x (word_at r x) m))).
  { unfold m1, mq_shrunk. cbn. by destruct (msg_queue_tail m =? x). }
  clearbody m1. subst m1. set (m1 := mq_set_free _ _).
  pose proof (qr_entry _ _ _ _ Hr) as He. cbn [length] in He.
  pose proof (mq_rep_length _ _ _ _ Hr) as Hlen. pose proof (qr_max _ _ _ _ Hr) as Hmax.
  cbn [length] in Hlen.
  set (s1 := set_mqueues _ s). set (m2 := mq_set_free (msg_queue_free m) (mq_shrunk x (word_at r x) m)).
  erewrite bind_run with (s' := set_mqueues (<[mq := m2]>) s); [cbv beta|].
  2: { erewrite bind_run; [cbv beta|apply get_mq_run, lookup_insert_eq].
    change (mq_entry m1) with (mq_entry m). rewrite (proj2 (Z.ltb_lt _ _)) by lia.
    cbn [when]. rewrite u16_small by lia. unfold put_mq, modify, s1. do 2 f_equal.
    apply kstate_ext; cbn; try reflexivity. by rewrite insert_insert_eq. }
  set (s2 := set_mqueues _ s).
  erewrite bind_run; [cbv beta|apply get_mq_run, lookup_insert_eq].
  change (msg_size m2) with (msg_size m). fold k.
  destruct (rt_memcpy_run r buffer (msg_payload x) k) as (r2 & Hrun & Hc);
    [done|by eapply mapped_sub; [exact Hbuf'|lia..]|done|lia|done|].
  erewrite bind_run; [cbv beta|apply on_heap_ram_run; exact Hrun]. set (s3 := with_ram r2 s2).
  assert (Hoff' : off_pool m buffer k) by (unfold off_pool in *; lia).
  pose proof (mq_rep_fetch m r r2 x queue free buffer k Hr ltac:(lia) Hpay Hc Hoff') as Hr3.
  assert (Hm3 : forall a j, mapped r a j -> mapped r2 a j) by (intros; by eapply copied_mapped).
  unfold mq_push_free. rewrite bind_assoc.
  erewrite bind_run; [cbv beta|apply get_mq_run; apply lookup_insert_eq].
  rewrite bind_assoc. erewrite bind_run; [cbv beta|apply set_msg_next_run; eapply slot_header; [exact Hr|exact Hx|exact Hm3]].
  erewrite bind_run; [cbv beta|reflexivity].
  change (ram (kheap s3)) with r2. change (msg_queue_free m2) with (msg_queue_free m).
  change (mq_set_free x m2) with (mq_shrunk x (word_at r x) m).
  set (r4 := store_word _ _ r2) in *. set (g := mq_shrunk _ _ m) in *. set (s4 := set_mqueues _ _).
  destruct (wake_one_run s4 (QSender mq)) as (s' & Hrun' & Hw & Hso);
    [done|by apply (waiters_wf_frame s)|done|].
  erewrite bind_run; [|exact Hrun']. exists s'. destruct Hso as (_&_&_&_& Em &_& Ek).
  assert (Er : ram (kheap s') = r4) by (by rewrite Ek).
  apply Forall2_cons in Hl as [Hd Hl'].
  split_and!; [done| | |exact Hw].
  - exists g, queue, (x :: free). rewrite Em, Er. split; [apply lookup_insert_eq|]. split; [done|].
    eapply Forall2_mono; [exact Hl'|]. intros y e Hy Hye. apply (msg_at_ext m _ r4); [done..|].
    eapply msg_at_header; [exact Hr|done|set_solver|].
    by eapply msg_at_copied_off; [exact Hr|set_solver|exact Hoff'|exact Hc|].
  - intros j Hj Hjd. destruct Hd as [Hdl Hd]. rewrite <- Hd, take_bytes_at, Nat.min_l by done.
    rewrite Er, <- (bytes_at_copied _ _ _ _ _ j Hc)
      by (unfold k; destruct (Z.ltb_spec (msg_size m) n); lia).
    apply bytes_at_ext. intros i Hi. unfold r4. rewrite lookup_store_word, decide_False; [done|].
    unfold MSG_HEADER in *. lia.
Qed.

(** the common start of the operations *)
Lemma mq_checks_run {A} s mq ob buffer n (k : K A) :
  mq <> RT_NULL -> objs s !! mq = Some ob -> has_type RT_Object_Class_MessageQueue ob ->
  buffer <> RT_NULL -> 0 < n ->
  (assert_object mq RT_Object_Class_MessageQueue;; rt_assert (negb (buffer =? RT_NULL));;
   rt_assert (negb (n =? 0));; k) s = k s.
Proof.
  intros Hnn Hob Hty Hb Hn. erewrite bind_run; [cbv beta|by eapply assert_object_run].
  erewrite bind_run; [cbv beta|by apply assert_nonnull_run].
  by erewrite bind_run; [cbv beta|apply (assert_nonnull_run n); unfold RT_NULL; lia].
Qed.
(** the free pointer is null exactly when the queue is full *)
Lemma mq_full m r queue free :
  mq_rep m r queue free ->
  (msg_queue_free m =? RT_NULL) = negb (Z.of_nat (length queue) <? max_msgs m).
Proof.
  intros Hr. pose proof (mq_rep_length _ _ _ _ Hr). pose proof (qr_free _ _ _ _ Hr) as Hf.
  destruct free as [|x free]; cbn in *.
  - rewrite Hf. by rewrite (proj2 (Z.ltb_ge _ _)) by lia.
  - destruct Hf as (-> & ? & _). rewrite (proj2 (Z.ltb_lt _ _)) by lia. by apply Z.eqb_neq.
Qed.

(** C9: rt_mq_send_wait refuses a message longer than the slots of the queue
    with -RT_ERROR.  If there is room it copies the message from the buffer to
    the end of the queue and wakes the first receiver; on a full queue it
    returns -RT_EFULL if asked not to wait and otherwise suspends the caller
    among the senders, the queue being unchanged. *)
Theorem rt_mq_send_wait_spec (b : Z) (s : kstate) (mq buffer size timeout : Z) (ob : rt_object)
    (m : rt_messagequeue) (th : rt_thread) (tob : rt_object) (l : list (list Z)) :
  sched_ok s -> mq <> RT_NULL -> objs s !! mq = Some ob ->
  has_type RT_Object_Class_MessageQueue ob ->
  o_flag ob = RT_IPC_FLAG_FIFO \/ o_flag ob = RT_IPC_FLAG_PRIO ->
  mqueues s !! mq = Some m -> mq_holds s mq l -> mq_buffer (ram (kheap s)) m buffer size ->
  waiters_wf s (QSuspend mq) ->
  (Z.of_nat (length l) = max_msgs m -> timeout <> 0 -> can_block b s timeout th tob) ->
  let self := rt_current_thread s in
  let th0 := th_set_error RT_EOK th in
  wp (rt_mq_send_wait mq buffer size timeout) (fun r s' =>
    if msg_size m <? size then r = Done (- RT_ERROR) /\ s' = s
    else if Z.of_nat (length l) <? max_msgs m then
      r = Done RT_EOK /\ woken s s' (QSuspend mq) /\
      mq_holds s' mq (l ++ [bytes_at (ram (kheap s)) buffer (Z.to_nat size)])
    else if timeout =? 0 then r = Done (- RT_EFULL) /\ s' = s
    else
      r = Pending {| w_thread := self; w_timeout := timeout;
                     w_tick_delta := if 0 <? timeout then rt_tick s else 0 |} /\
      mq_holds s' mq l /\
      blocked (set_threads (<[self := th0]>) s) s' (QSender mq) (o_flag ob) timeout th0) s.
Proof.
  intros Hok Hnn Hob Hty Hflag Hm (m0 & queue & free & Hm0 & Hr & Hl) Hbuf Hwf Hblock self th0.
  assert (m0 = m) as -> by congruence. pose proof (qb_size _ _ _ _ Hbuf) as [Hb Hn].
  assert (Elen : length queue = length l) by (by eapply Forall2_length).
  unfold wp, rt_mq_send_wait. rewrite (mq_checks_run s mq ob) by done.
  erewrite bind_run; [cbv beta|by apply get_mq_run].
  destruct (Z.ltb_spec (msg_size m) size) as [|Hsz]; [done|].
  erewrite bind_run; [cbv beta|reflexivity].
  rewrite (mq_full _ _ _ _ Hr), Elen. unfold mq_send_loop.
  destruct (Z.ltb_spec (Z.of_nat (length l)) (max_msgs m)) as [Hroom|Hroom]; cbn [negb andb].
  - erewrite bind_run; [cbv beta|by apply get_mq_run].
    rewrite (mq_full _ _ _ _ Hr), Elen, (proj2 (Z.ltb_lt _ _)) by done. cbn [negb].
    destruct free as [|x free].
    { pose proof (mq_rep_length _ _ _ _ Hr) as Hlen. cbn in Hlen. lia. }
    pose proof (qr_free _ _ _ _ Hr) as (-> & _).
    destruct (mq_append_run s mq m queue x free l buffer size) as (s' & -> & H1 & H2); done.
  - destruct (Z.eqb_spec timeout 0) as [|Htime]; [done|].
    erewrite bind_run; [cbv beta|by apply get_mq_run].
    rewrite (mq_full _ _ _ _ Hr), Elen, (proj2 (Z.ltb_ge _ _)) by done. cbn [negb].
    pose proof (mq_rep_length _ _ _ _ Hr) as Hlen. specialize (Hblock ltac:(lia) Htime).
    erewrite bind_run; [cbv beta|apply upd_thread_run, (tw_thread _ _ _ _ (cb_thread _ _ _ _ _ Hblock))].
    destruct (object_wait_run (R := Z) b s mq (QSender mq) timeout ob th tob) as (s' & Hrun & Hbl);
      [done..|]. rewrite Hrun. split_and!; [done| |done].
    destruct (bl_frame _ _ _ _ _ _ Hbl) as (_ & _ & _ & _ & Em & _ & Ek & _).
    exists m, queue, free. by rewrite Em, Ek.
Qed.

(** rt_mq_urgent puts the message at the front of the queue and never
    waits. *)
Theorem rt_mq_urgent_spec (s : kstate) (mq buffer size : Z) (ob : rt_object)
    (m : rt_messagequeue) (l : list (list Z)) :
  sched_ok s -> mq <> RT_NULL -> objs s !! mq = Some ob ->
  has_type RT_Object_Class_MessageQueue ob ->
  mqueues s !! mq = Some m -> mq_holds s mq l -> mq_buffer (ram (kheap s)) m buffer size ->
  waiters_wf s (QSuspend mq) ->
  wp (rt_mq_urgent mq buffer size) (fun r s' =>
    if msg_size m <? size then r = Done (- RT_ERROR) /\ s' = s
    else if Z.of_nat (length l) <? max_msgs m then
      r = Done RT_EOK /\ woken s s' (QSuspend mq) /\
      mq_holds s' mq (bytes_at (ram (kheap s)) buffer (Z.to_nat size) :: l)
    else r = Done (- RT_EFULL) /\ s' = s) s.
Proof.
  intros Hok Hnn Hob Hty Hm (m0 & queue & free & Hm0 & Hr & Hl) Hbuf Hwf.
  assert (m0 = m) as -> by congruence. pose proof (qb_size _ _ _ _ Hbuf) as [Hb Hn].
  assert (Elen : length queue = length l) by (by eapply Forall2_length).
  unfold wp, rt_mq_urgent. rewrite (mq_checks_run s mq ob) by done.
  erewrite bind_run; [cbv beta|by apply get_mq_run].
  destruct (Z.ltb_spec (msg_size m) size) as [|Hsz]; [done|].
  rewrite (mq_full _ _ _ _ Hr), Elen.
  destruct (Z.ltb_spec (Z.of_nat (length l)) (max_msgs m)) as [Hroom|Hroom]; cbn [negb]; [|done].
  destruct free as [|x free].
  { pose proof (mq_rep_length _ _ _ _ Hr) as Hlen. cbn in Hlen. lia. }
  pose proof (qr_free _ _ _ _ Hr) as (-> & _).
  destruct (mq_push_run s mq m queue x free l buffer size) as (s' & Hrun & H1 & H2);
    [done..|]. by rewrite Hrun.
Qed.

(** C10: rt_mq_recv takes the oldest message off the queue and copies it to
    the buffer, cut to the size of the buffer; the first waiting sender is
    woken.  On an empty queue it returns -RT_ETIMEOUT if asked not to wait and
    otherwise suspends the caller among the receivers. *)
Theorem rt_mq_recv_spec (b : Z) (s : kstate) (mq buffer size timeout : Z) (ob : rt_object)
    (m : rt_messagequeue) (th : rt_thread) (tob : rt_object) (l : list (list Z)) :
  sched_ok s -> mq <> RT_NULL -> objs s !! mq = Some ob ->
  has_type RT_Object_Class_MessageQueue ob ->
  o_flag ob = RT_IPC_FLAG_FIFO \/ o_flag ob = RT_IPC_FLAG_PRIO ->
  mqueues s !! mq = Some m -> mq_holds s mq l -> mq_buffer (ram (kheap s)) m buffer size ->
  waiters_wf s (QSender mq) ->
  (l = [] -> timeout <> 0 -> can_block b s timeout th tob) ->
  let self := rt_current_thread s in
  let th0 := th_set_error RT_EOK th in
  wp (rt_mq_recv mq buffer size timeout) (fun r s' =>
    match l with
    | d :: l' =>
        r = Done RT_EOK /\ mq_holds s' mq l' /\ woken s s' (QSender mq) /\
        (forall j, Z.of_nat j <= size -> (j <= length d)%nat ->
          bytes_at (ram (kheap s')) buffer j = take j d)
    | [] =>
        if timeout =? 0 then r = Done (- RT_ETIMEOUT) /\ s' = s
        else
          r = Pending {| w_thread := self; w_timeout := timeout;
                         w_tick_delta := if 0 <? timeout then rt_tick s else 0 |} /\
          mq_holds s' mq [] /\
          blocked (set_threads (<[self := th0]>) s) s' (QSuspend mq) (o_flag ob) timeout th0
    end) s.
Proof.
  intros Hok Hnn Hob Hty Hflag Hm (m0 & queue & free & Hm0 & Hr & Hl) Hbuf Hwf Hblock self th0.
  assert (m0 = m) as -> by congruence. pose proof (qb_size _ _ _ _ Hbuf) as [Hb Hn].
  pose proof (qr_entry _ _ _ _ Hr) as He.
  unfold wp, rt_mq_recv, mq_recv_loop. rewrite (mq_checks_run s mq ob) by done.
  erewrite bind_run; [cbv beta|reflexivity].
  erewrite bind_run; [cbv beta|by apply get_mq_run]. rewrite He.
  destruct l as [|d l].
  - apply Forall2_nil_inv_r in Hl as ->. cbn [length]. change (Z.of_nat 0) with 0.
    destruct (Z.eqb_spec timeout 0) as [|Htime]; [done|]. cbn [andb Z.eqb].
    specialize (Hblock eq_refl Htime).
    erewrite bind_run; [cbv beta|by apply get_mq_run]. rewrite He. cbn [length].
    change (Z.of_nat 0) with 0. cbn [Z.eqb].
    erewrite bind_run; [cbv beta|by eapply in_thread_context_run].
    erewrite bind_run; [cbv beta|apply upd_thread_run, (tw_thread _ _ _ _ (cb_thread _ _ _ _ _ Hblock))].
    destruct (object_wait_run (R := Z) b s mq (QSuspend mq) timeout ob th tob) as (s' & Hrun & Hbl);
      [done..|]. rewrite Hrun. split_and!; [done| |done].
    destruct (bl_frame _ _ _ _ _ _ Hbl) as (_ & _ & _ & _ & Em & _ & Ek & _).
    exists m, [], free. by rewrite Em, Ek.
  - destruct queue as [|x queue]; [by apply Forall2_nil_inv_l in Hl|].
    rewrite (proj2 (Z.eqb_neq _ _)) by (cbn [length]; lia). cbn [andb].
    erewrite bind_run; [cbv beta|by apply get_mq_run].
    rewrite He, (proj2 (Z.eqb_neq _ _)) by (cbn [length]; lia).
    destruct (mq_fetch_run s mq m x queue free d l buffer size) as (s' & -> & H1 & H2 & H3); done.
Qed.

(** ** A new queue *)
Lemma mq_link_slots_run pool slot n : forall temp free l s,
  MSG_HEADER <= slot -> 0 < pool -> 0 <= temp ->
  mapped (ram (kheap s)) pool ((temp + Z.of_nat n) * slot) ->
  chain (ram (kheap s)) free l -> 0 <= free < 4294967296 ->
  (forall x, x ∈ l -> x + MSG_HEADER <= pool + temp * slot) ->
  exists r p l', mq_link_slots pool slot n temp free s = Ok (p, with_ram r s) /\
    chain r p l' /\ l' ≡ₚ ((fun i => pool + i * slot) <$> seqZ temp (Z.of_nat n)) ++ l /\
    (forall a k, mapped (ram (kheap s)) a k -> mapped r a k).
Proof.
  induction n as [|n IH]; intros temp free l s Hs Hp Ht Hm Hc Hf Hl; cbn [mq_link_slots].
  { exists (ram (kheap s)), free, l. by rewrite with_ram_id. }
  assert (mapped (ram (kheap s)) (pool + temp * slot) 4) as Hx.
  { eapply mapped_sub; [exact Hm|unfold MSG_HEADER in *; nia..]. }
  erewrite bind_run; [cbv beta|by apply set_msg_next_run].
  set (r1 := store_word _ _ _). pose proof Hx as (? & ? & _).
  destruct (IH (temp + 1) (pool + temp * slot) (pool + temp * slot :: l) (with_ram r1 s))
    as (r & p & l' & Hrun & Hc' & Hl' & Hm'); try done; try lia.
  { apply mapped_store_word. by replace (temp + 1 + Z.of_nat n) with (temp + Z.of_nat (S n)) by lia. }
  { apply chain_push; try done; [unfold MSG_HEADER in *; nia|]. intros x Hxl. right. unfold MSG_HEADER in *. by apply Hl. }
  { intros x [->|Hxl]%elem_of_cons; unfold MSG_HEADER in *; [nia|]. specialize (Hl x Hxl). nia. }
  exists r, p, l'. split_and!; [done|done| |].
  - rewrite Hl', (seqZ_cons temp) by lia. cbn [fmap list_fmap app].
    rewrite <- Permutation_middle, Z.add_1_r. by replace (Z.pred (Z.of_nat (S n))) with (Z.of_nat n) by lia.
  - intros a k Ha. apply Hm'. by apply mapped_store_word.
Qed.

(** A new message queue is empty and all its slots are free. *)
Theorem mq_setup_empty (s : kstate) (mq pool size max : Z) :
  0 < pool -> 0 <= size < 65536 -> 0 <= max < 65536 ->
  mapped (ram (kheap s)) pool (max * (size + MSG_HEADER)) ->
  wp (mq_setup mq pool size max) (fun _ s' =>
    mq_holds s' mq [] /\ queue s' (QSender mq) = [] /\ threads s' = threads s) s.
Proof.
  intros Hp Hs Hmax Hm.
  destruct (mq_link_slots_run pool (size + MSG_HEADER) (Z.to_nat max) 0 RT_NULL [] s)
    as (r & p & l & Hrun & Hc & Hl & Hm'); try (unfold MSG_HEADER, RT_NULL; lia); try done.
  { by rewrite Z.add_0_l, Z2Nat.id by lia. }
  { intros x Hx. by apply elem_of_nil in Hx. }
  rewrite app_nil_r, Z2Nat.id in Hl by lia.
  unfold wp, mq_setup. erewrite bind_run; [cbv beta|exact Hrun].
  erewrite bind_run; [cbv beta|reflexivity].
  unfold queue_init, modify. cbn [queues set_queues threads set_mqueues with_ram set_kheap].
  split_and!; [|by unfold queue; cbn; rewrite lookup_insert_eq|done].
  eexists _, [], l. split; [cbn; apply lookup_insert_eq|]. split; [|constructor].
  split; cbn; try done. by apply Hm'.
Qed.
