(* ===== verification/MemPool.v ===== *)
(** Memory pools, rt-thread/kernel/src/mempool.c: blocks of one size, the free
    ones linked through their header words, and the threads that wait for a
    block. *)
From S2P Require Import Prelude KService Mem CpuPort Kernel Sched Object Timer Thread Ipc.

(** * Definitions *)
Definition get_mp (mp : Z) : K rt_mempool := let* s := get in the (mempools s !! mp).
Definition put_mp (mp : Z) (m : rt_mempool) : K unit := modify (set_mempools (<[mp := m]>)).
Definition mp_set_free v m := {| start_address := start_address m; mp_size := mp_size m;
  block_size := block_size m; block_list := block_list m;
  block_total_count := block_total_count m; block_free_count := v |}.
Definition mp_set_list v m := {| start_address := start_address m; mp_size := mp_size m;
  block_size := block_size m; block_list := v;
  block_total_count := block_total_count m; block_free_count := block_free_count m |}.

(** sizeof(rt_uint8_t * ) *)
Definition BLOCK_HEADER : Z := 4.
(** *(rt_uint8_t ** )block_ptr *)
Definition block_word (block_ptr : Z) : K Z := on_heap (on_ram (ld32 block_ptr)).
Definition set_block_word (block_ptr v : Z) : K unit := on_heap (on_ram (st32 block_ptr v)).

(** for (offset = 0; offset < mp->block_total_count; offset ++) *)
Fixpoint mp_link_blocks (block_ptr stride : Z) (n : nat) (offset : Z) : K unit :=
  match n with
  | O => ret tt
  | S n =>
      set_block_word (u32 (block_ptr + offset * stride)) (u32 (block_ptr + (offset + 1) * stride));;
      mp_link_blocks block_ptr stride n (offset + 1)
  end.

(** link all blocks; the last write goes to the block before [total], even if
    [total] is 0 *)
Definition mp_setup (mp start size bsize total : Z) : K unit :=
  let stride := bsize + BLOCK_HEADER in
  mp_link_blocks start stride (Z.to_nat total) 0;;
  set_block_word (u32 (start + u32 (u32 (total - 1) * stride))) RT_NULL;;
  put_mp mp {| start_address := start; mp_size := size; block_size := bsize;
    block_list := start; block_total_count := total; block_free_count := total |}.

Definition rt_mp_init (mp : Z) (name : option (list Z)) (start size bsize : Z) : K Z :=
  rt_assert (negb (mp =? RT_NULL));;
  match name with
  | None => raise AssertFailed
  | Some name =>
      rt_assert (negb (start =? RT_NULL));;
      rt_assert ((0 <? size) && (0 <? bsize))%bool;;
      rt_object_init mp RT_Object_Class_MemPool name;;
      let size := RT_ALIGN_DOWN size RT_ALIGN_SIZE in
      let bsize := RT_ALIGN bsize RT_ALIGN_SIZE in
      queue_init (QSuspend mp);;
      mp_setup mp start size bsize (size / (bsize + BLOCK_HEADER));;
      ret RT_EOK
  end.

Definition rt_mp_detach (mp : Z) : K Z :=
  assert_static mp RT_Object_Class_MemPool;;
  rt_ipc_list_resume_all (QSuspend mp);;
  rt_object_detach mp;;
  ret RT_EOK.

Definition rt_mp_create (name : option (list Z)) (block_count bsize : Z) : K Z :=
  RT_DEBUG_NOT_IN_INTERRUPT;;
  match name with
  | None => raise AssertFailed
  | Some name =>
      rt_assert ((0 <? block_count) && (0 <? bsize))%bool;;
      let* mp := rt_object_allocate RT_Object_Class_MemPool name in
      if mp =? RT_NULL then ret RT_NULL
      else
        let bsize := RT_ALIGN bsize RT_ALIGN_SIZE in
        let size := u32 (u32 (bsize + BLOCK_HEADER) * block_count) in
        let* start := on_heap (rt_malloc size) in
        if start =? RT_NULL then rt_object_delete mp;; ret RT_NULL
        else
          queue_init (QSuspend mp);;
          mp_setup mp start size bsize block_count;;
          ret mp
  end.

Definition rt_mp_delete (mp : Z) : K Z :=
  RT_DEBUG_NOT_IN_INTERRUPT;;
  assert_dynamic mp RT_Object_Class_MemPool;;
  rt_ipc_list_resume_all (QSuspend mp);;
  (let* m := get_mp mp in on_heap (rt_free (start_address m)));;
  rt_object_delete mp;;
  ret RT_EOK.

(** the end of rt_mp_alloc: a block is free *)
Definition mp_take (mp : Z) : K (outcome Z wait) :=
  let* m := get_mp mp in
  let m := mp_set_free (u32 (block_free_count m - 1)) m in
  put_mp mp m;;
  let block_ptr := block_list m in
  rt_assert (negb (block_ptr =? RT_NULL));;
  let* next := block_word block_ptr in
  put_mp mp (mp_set_list next m);;
  set_block_word block_ptr mp;;
  ret (Done (block_ptr + BLOCK_HEADER)).

(** while (mp->block_free_count == 0), and the end; the errno of the time-out
    return is not modelled *)
Definition mp_alloc_loop (mp thread time before_sleep : Z) : K (outcome Z wait) :=
  let* m := get_mp mp in
  if block_free_count m =? 0 then
    if time =? 0 then ret (Done RT_NULL)
    else
      RT_DEBUG_NOT_IN_INTERRUPT;;
      upd_thread thread (th_set_error RT_EOK);;
      rt_thread_suspend thread;;
      queue_insert_head (QSuspend mp) thread;;
      let* before_sleep :=
        (if 0 <? time then
           let* now := rt_tick_get in
           start_timeout thread time;; ret now
         else ret before_sleep) in
      rt_schedule;;
      ret (Pending {| w_thread := thread; w_timeout := time; w_tick_delta := before_sleep |})
  else mp_take mp.

Definition rt_mp_alloc (mp time : Z) : K (outcome Z wait) :=
  rt_assert (negb (mp =? RT_NULL));;
  let* thread := rt_thread_self in
  mp_alloc_loop mp thread time 0.

Definition rt_mp_alloc_resumed (mp : Z) (w : wait) : K (outcome Z wait) :=
  let* th := get_thread (w_thread w) in
  if negb (error th =? RT_EOK) then ret (Done RT_NULL)
  else
    let* time :=
      (if 0 <? w_timeout w then
         let* now := rt_tick_get in
         let time := s32 (w_timeout w - u32 (now - w_tick_delta w)) in
         ret (if time <? 0 then 0 else time)
       else ret (w_timeout w)) in
    mp_alloc_loop mp (w_thread w) time (w_tick_delta w).

Definition rt_mp_free (block : Z) : K unit :=
  if block =? RT_NULL then ret tt
  else
    let block_ptr := block - BLOCK_HEADER in
    let* mp := block_word block_ptr in
    let* m := get_mp mp in
    let m := mp_set_free (u32 (block_free_count m + 1)) m in
    put_mp mp m;;
    set_block_word block_ptr (block_list m);;
    put_mp mp (mp_set_list block_ptr m);;
    let* b := has_waiter (QSuspend mp) in
    when b
      (let* thread := first_thread (QSuspend mp) in
       upd_thread thread (th_set_error RT_EOK);;
       rt_thread_resume thread;;
       rt_schedule).

(** * Preservation of the scheduler invariant *)
#[export] Hint Unfold get_mp put_mp : minv.
Lemma get_mp_pres mp : preserves sched_ok (get_mp mp).
Proof. unfold get_mp. pres. Qed.
Lemma put_mp_pres mp m : preserves sched_ok (put_mp mp m).
Proof. unfold put_mp. pres. Qed.
Lemma block_word_pres b : preserves sched_ok (block_word b).
Proof. unfold block_word. pres. Qed.
Lemma set_block_word_pres b v : preserves sched_ok (set_block_word b v).
Proof. unfold set_block_word. pres. Qed.
#[export] Hint Resolve get_mp_pres put_mp_pres block_word_pres set_block_word_pres : pres.
Lemma mp_link_blocks_pres b stride n offset :
  preserves sched_ok (mp_link_blocks b stride n offset).
Proof. revert offset. induction n; intros offset; cbn; pres. Qed.
#[export] Hint Resolve mp_link_blocks_pres : pres.
Lemma mp_setup_pres mp start size bsize total :
  preserves sched_ok (mp_setup mp start size bsize total).
Proof. unfold mp_setup. pres. Qed.
Lemma mp_take_pres mp : preserves sched_ok (mp_take mp).
Proof. unfold mp_take. pres. Qed.
#[export] Hint Resolve mp_setup_pres mp_take_pres : pres.
Lemma rt_mp_init_pres mp name start size bsize :
  preserves sched_ok (rt_mp_init mp name start size bsize).
Proof.
  pose proof rt_ipc_object_init_pres as Hq. unfold rt_ipc_object_init in Hq.
  unfold rt_mp_init. pres.
Qed.
Lemma rt_mp_detach_pres mp : preserves sched_ok (rt_mp_detach mp).
Proof. unfold rt_mp_detach. pres. Qed.
Lemma rt_mp_create_pres name block_count bsize :
  preserves sched_ok (rt_mp_create name block_count bsize).
Proof.
  pose proof rt_ipc_object_init_pres as Hq. unfold rt_ipc_object_init in Hq.
  unfold rt_mp_create. pres.
Qed.
Lemma rt_mp_delete_pres mp : preserves sched_ok (rt_mp_delete mp).
Proof. unfold rt_mp_delete. pres. Qed.
Lemma mp_alloc_loop_ok mp t time d s r s' :
  sched_ok s -> can_wait t s -> mp_alloc_loop mp t time d s = Ok (r, s') -> sched_ok s'.
Proof.
  intros Hok Hw Hm. unfold mp_alloc_loop in Hm. minv Hm; [done|..|by eapply mp_take_pres].
  all: match goal with H : rt_thread_suspend _ _ = _ |- _ =>
    pose proof (rt_thread_suspend_effect _ _ _ _ H) as (th & Ht & Hst);
    apply rt_thread_suspend_pres in H; [|by eapply sched_inv_upd] end.
  all: assert (Hs : stat_of th = RT_THREAD_SUSPEND) by
    (destruct Hst as [[_ ?]|(_ & -> & Hne)]; [done|];
     by destruct (can_wait_error _ RT_EOK _ _ Hthe0 Hw th Ht)).
  all: eapply rt_schedule_pres; [|eassumption].
  - eapply start_timeout_pres; [|eassumption]. by eapply queue_insert_ok.
  - by eapply queue_insert_ok.
Qed.
Lemma rt_mp_alloc_pres mp time s r s' :
  sched_ok s -> running_ok s -> rt_mp_alloc mp time s = Ok (r, s') -> sched_ok s'.
Proof.
  intros Hok Hw Hm. unfold rt_mp_alloc in Hm. minv Hm. by eapply mp_alloc_loop_ok.
Qed.
Lemma rt_mp_alloc_resumed_pres mp w s r s' :
  sched_ok s -> can_wait (w_thread w) s ->
  rt_mp_alloc_resumed mp w s = Ok (r, s') -> sched_ok s'.
Proof.
  intros Hok Hw Hm. unfold rt_mp_alloc_resumed in Hm. minv Hm; [done|..];
    by eapply mp_alloc_loop_ok.
Qed.
Lemma rt_mp_free_pres block : preserves sched_ok (rt_mp_free block).
Proof. unfold rt_mp_free. pres. Qed.
#[export] Hint Resolve rt_mp_init_pres rt_mp_detach_pres rt_mp_create_pres rt_mp_delete_pres
  rt_mp_free_pres : pres.

(** * The free blocks and the allocated ones *)

(** the header of block [i] *)
Definition mp_block (m : rt_mempool) (i : Z) : Z := start_address m + i * (block_size m + BLOCK_HEADER).
Definition mp_blocks (m : rt_mempool) : list Z :=
  cells (start_address m) (block_size m + BLOCK_HEADER) (block_total_count m).

(** the pool [m], with control block [mp], has the free list [free] and the
    allocated blocks [used] (by their headers) *)
Record mp_rep (mp : Z) (m : rt_mempool) (r : mem) (free used : list Z) : Prop := {
  pr_start : 0 < start_address m;
  pr_size : 0 <= block_size m;
  pr_total : 0 <= block_total_count m < 4294967296;
  pr_blocks : free ++ used ≡ₚ mp_blocks m;
  pr_count : block_free_count m = Z.of_nat (length free);
  pr_free : chain r (block_list m) free;
  pr_used : forall x, x ∈ used -> word_at r x = mp;
  pr_pool : mapped r (start_address m) (block_total_count m * (block_size m + BLOCK_HEADER));
}.
Definition mp_holds (s : kstate) (mp : Z) (free used : list Z) : Prop :=
  exists m, mempools s !! mp = Some m /\ mp_rep mp m (ram (kheap s)) free used.

(** distinct blocks do not overlap, so neither do their headers *)
Lemma mp_block_apart m i j : 0 <= block_size m -> i <> j -> apart (mp_block m i) (mp_block m j).
Proof. unfold apart, mp_block, BLOCK_HEADER. intros. nia. Qed.
Lemma mp_blocks_apart m x y :
  0 <= block_size m -> x ∈ mp_blocks m -> y ∈ mp_blocks m -> x <> y -> apart x y.
Proof.
  intros Hs Hx Hy Hne. unfold apart.
  assert (0 < block_size m + BLOCK_HEADER) as Hpos by (unfold BLOCK_HEADER; lia).
  destruct (cells_sep _ _ _ _ _ Hpos Hx Hy Hne); unfold BLOCK_HEADER in *; lia.
Qed.
Lemma mp_rep_block mp m r free used x :
  mp_rep mp m r free used -> x ∈ free ++ used ->
  x ∈ mp_blocks m /\ 0 < x /\ mapped r x 4 /\ x + 4 <= 4294967296.
Proof.
  intros [Hs Hb Ht Hp _ _ _ Hm] Hx. rewrite Hp in Hx. split; [done|].
  assert (0 < block_size m + BLOCK_HEADER) as Hpos by (unfold BLOCK_HEADER; lia).
  destruct (cells_range _ _ _ _ Hpos Hx) as [H1 H2].
  unfold BLOCK_HEADER in *. assert (mapped r x 4) as Hm' by (eapply mapped_sub; [exact Hm|lia..]).
  pose proof Hm' as (_ & ? & _). split_and!; [lia|done|lia].
Qed.
Lemma mp_rep_apart mp m r free used x y :
  mp_rep mp m r free used -> x ∈ free ++ used -> y ∈ free ++ used -> x <> y -> apart x y.
Proof.
  intros Hr Hx Hy Hne. eapply mp_blocks_apart; [|by eapply mp_rep_block..|done]. apply Hr.
Qed.
Lemma mp_rep_nodup mp m r free used : mp_rep mp m r free used -> NoDup (free ++ used).
Proof. intros [_ Hb _ Hp _ _ _ _]. rewrite Hp. apply NoDup_cells. unfold BLOCK_HEADER. lia. Qed.

(** the first free block is taken: its header names the pool *)
Lemma mp_rep_take mp m r x free used :
  0 <= mp < 4294967296 -> mp_rep mp m r (x :: free) used ->
  mp_rep mp (mp_set_list (word_at r x) (mp_set_free (u32 (block_free_count m - 1)) m))
    (store_word x mp r) free (x :: used).
Proof.
  intros Hmp Hr. pose proof (mp_rep_nodup _ _ _ _ _ Hr) as Hnd. cbn in Hnd.
  apply NoDup_cons in Hnd as [Hx Hnd].
  pose proof Hr as [Hs Hb Ht Hp Hc Hf Hu Hm]. cbn in Hf. destruct Hf as (_ & _ & Hf).
  assert (Ha : forall y, y ∈ free ++ used -> apart x y).
  { intros y Hy. eapply mp_rep_apart; [exact Hr|left|by right|]. by intros ->. }
  pose proof (Permutation_length Hp) as Hlen. unfold mp_blocks in Hlen.
  rewrite length_cells, length_app in Hlen. cbn [length] in *.
  split; cbn; try done.
  - rewrite <- Permutation_middle. exact Hp.
  - rewrite Hc, u32_small by lia. lia.
  - apply chain_store; [|exact Hf]. intros y Hy. apply Ha. set_solver.
  - intros y [->|Hy]%elem_of_cons; [by rewrite word_at_store, u32_small|].
    rewrite word_at_store_ne by (apply Ha; set_solver). by apply Hu.
  - by apply mapped_store_word.
Qed.

(** an allocated block goes back to the front of the free list *)
Lemma mp_rep_give mp m r x free used :
  0 <= block_list m < 4294967296 -> x ∈ used -> mp_rep mp m r free used ->
  mp_rep mp (mp_set_list x (mp_set_free (u32 (block_free_count m + 1)) m))
    (store_word x (block_list m) r) (x :: free) (lremove x used).
Proof.
  intros Hl Hx Hr. pose proof (mp_rep_nodup _ _ _ _ _ Hr) as Hnd.
  pose proof Hr as [Hs Hb Ht Hp Hc Hf Hu Hm].
  apply NoDup_app in Hnd as (Hn1 & Hn2 & Hn3).
  apply list_elem_of_split in Hx as (u1 & u2 & ->).
  apply NoDup_app in Hn3 as (Hn3 & Hn4 & Hn5). apply NoDup_cons in Hn5 as [Hn5 Hn6].
  assert (Hx1 : x ∉ u1) by (intros H; apply (Hn4 _ H); left).
  assert (Hx2 : x ∉ free) by (intros H; apply (Hn2 _ H); set_solver).
  rewrite lremove_app, lremove_cons_eq, lremove_not_elem by done.
  assert (Ha : forall y, y ∈ free ++ u1 ++ u2 -> apart x y).
  { intros y Hy. eapply mp_rep_apart; [exact Hr|set_solver|set_solver|]. intros ->. set_solver. }
  pose proof (Permutation_length Hp) as Hlen. unfold mp_blocks in Hlen.
  rewrite length_cells, !length_app in Hlen. cbn [length] in *.
  destruct (mp_rep_block mp m r free (u1 ++ x :: u2) x Hr) as (_ & Hpos & _); [set_solver|].
  split; cbn [mp_set_list mp_set_free start_address block_size block_total_count block_free_count
    block_list length]; try done.
  - rewrite <- Hp. solve_Permutation.
  - rewrite Hc, u32_small by lia. lia.
  - apply chain_push; [done|lia|done|]. intros y Hy. apply Ha. set_solver.
  - intros y Hy. rewrite word_at_store_ne by (apply Ha; set_solver). apply Hu. set_solver.
  - by apply mapped_store_word.
Qed.

Lemma mp_list_range mp m r free used :
  mp_rep mp m r free used -> 0 <= block_list m < 4294967296.
Proof.
  intros Hr. destruct free as [|x free]; pose proof (pr_free _ _ _ _ _ Hr) as Hf; cbn in Hf.
  - rewrite Hf. lia.
  - destruct Hf as (-> & _). destruct (mp_rep_block _ _ _ _ _ x Hr) as (_ & ? & _ & ?); [left|lia].
Qed.

(** ** The operations *)
Lemma get_mp_run mp m s : mempools s !! mp = Some m -> get_mp mp s = Ok (m, s).
Proof. intros H. unfold get_mp, bind, get. by rewrite H. Qed.
Lemma block_word_run x s : mapped (ram (kheap s)) x 4 ->
  block_word x s = Ok (word_at (ram (kheap s)) x, s).
Proof.
  intros H. unfold block_word. erewrite on_heap_ram_run by (by apply ld32_run). by rewrite with_ram_id.
Qed.
Lemma set_block_word_run x v s : mapped (ram (kheap s)) x 4 ->
  set_block_word x v s = Ok (tt, with_ram (store_word x v (ram (kheap s))) s).
Proof. intros H. unfold set_block_word. by erewrite on_heap_ram_run by (by apply st32_run). Qed.

Lemma mp_take_run s mp x free used :
  0 <= mp < 4294967296 -> mp_holds s mp (x :: free) used ->
  exists s', mp_take mp s = Ok (Done (x + BLOCK_HEADER), s') /\ mp_holds s' mp free (x :: used) /\
    threads s' = threads s /\ queues s' = queues s /\
    ram (kheap s') = store_word x mp (ram (kheap s)).
Proof.
  intros Hmp (m & Hm & Hr). pose proof (mp_rep_take _ _ _ _ _ _ Hmp Hr) as Hr'.
  destruct (mp_rep_block _ _ _ _ _ x Hr) as (_ & Hpos & Hx & _); [left|].
  pose proof (pr_free _ _ _ _ _ Hr) as (El & _).
  unfold mp_take. erewrite bind_run; [cbv beta|by apply get_mp_run].
  erewrite bind_run; [cbv beta|reflexivity]. cbn [block_list mp_set_free]. rewrite El.
  rewrite (proj2 (Z.eqb_neq _ _)) by (unfold RT_NULL; lia).
  erewrite bind_run; [cbv beta|reflexivity].
  erewrite bind_run; [cbv beta|by apply block_word_run].
  erewrite bind_run; [cbv beta|reflexivity].
  erewrite bind_run; [cbv beta|by apply set_block_word_run].
  eexists. split; [reflexivity|]. split_and!; [|done..].
  eexists. split; [cbn; apply lookup_insert_eq|exact Hr'].
Qed.

(** suspending the caller at the head of the list of waiters *)
Lemma mp_wait_run b s mp time th tob free used :
  sched_ok s -> mp_holds s mp free used -> can_block b s time th tob ->
  let self := rt_current_thread s in
  let w := {| w_thread := self; w_timeout := time;
              w_tick_delta := if 0 <? time then rt_tick s else 0 |} in
  exists s', (rt_thread_suspend self;; queue_insert_head (QSuspend mp) self;;
      let* before_sleep :=
        (if 0 <? time then let* now := rt_tick_get in start_timeout self time;; ret now
         else ret 0) in
      rt_schedule;;
      ret (@Pending Z wait {| w_thread := self; w_timeout := time; w_tick_delta := before_sleep |})) s =
      Ok (Pending w, s') /\
    mp_holds s' mp free used /\ parked (fun pre _ => pre = []) s s' (QSuspend mp) time th.
Proof.
  intros Hok Hh Hb self w. pose proof Hb as [_ _ Hwf Hst _ _].
  destruct (park_run (ret (@Pending Z wait w)) (fun pre _ => pre = []) b s (QSuspend mp) time th tob
    [] (queue s (QSuspend mp))) as (s' & Hk & Hp); [done..|].
  exists s'. fold self in Hk. split_and!; [| |exact Hp].
  - erewrite bind_run; [cbv beta|by apply rt_thread_suspend_run].
    destruct (suspended_unlinked s (QSuspend mp) self th tob) as (_ & Hlk & Hq & _); [done..|].
    set (s1 := suspended self th tob s) in *.
    erewrite bind_run; [cbv beta|unfold queue_insert_head; erewrite bind_run; [|reflexivity]; cbv beta;
      rewrite Hlk, Hq; reflexivity].
    etransitivity; [|exact Hk]. unfold w. rewrite !app_nil_l. set (s2 := set_queues _ _).
    assert (Et : rt_tick s2 = rt_tick s) by (unfold s2; cbn; apply suspended_frame).
    destruct (0 <? time); cbn [when]; [|done].
    rewrite bind_assoc. erewrite bind_run; [cbv beta|reflexivity]. rewrite Et.
    by rewrite bind_assoc.
  - destruct (bl_frame _ _ _ _ _ _ Hp) as (_ & _ & _ & _ & _ & Em & Ek & _).
    destruct Hh as (m & Hm & Hr). exists m. by rewrite Em, Ek.
Qed.


(** C26: rt_mp_free puts the block in front of the free list of the pool named
    by its header and makes the first waiter READY with error RT_EOK. *)
Theorem rt_mp_free_spec (s : kstate) (mp block : Z) (free used : list Z) :
  sched_ok s -> mp_holds s mp free used -> block - BLOCK_HEADER ∈ used ->
  waiters_wf s (QSuspend mp) ->
  wp (rt_mp_free block) (fun _ s' =>
    mp_holds s' mp (block - BLOCK_HEADER :: free) (lremove (block - BLOCK_HEADER) used) /\
    match queue s (QSuspend mp) with
    | [] => threads s' = threads s /\ queues s' = queues s
    | t :: l => queue s' (QSuspend mp) = l /\ exists th, threads s !! t = Some th /\
        threads s' = <[t := ready_thread (th_set_error RT_EOK th)]> (threads s)
    end) s.
Proof.
  intros Hok (m & Hm & Hr) Hin Hwf. set (x := block - BLOCK_HEADER) in *.
  destruct (mp_rep_block _ _ _ _ _ x Hr) as (_ & Hpos & Hx & _); [set_solver|].
  pose proof (mp_list_range _ _ _ _ _ Hr) as Hl.
  pose proof (mp_rep_give _ _ _ _ _ _ Hl Hin Hr) as Hr'.
  unfold wp, rt_mp_free. rewrite (proj2 (Z.eqb_neq _ _)) by (unfold RT_NULL, x, BLOCK_HEADER in *; lia).
  fold x. erewrite bind_run; [cbv beta|by apply block_word_run].
  rewrite (pr_used _ _ _ _ _ Hr x Hin).
  erewrite bind_run; [cbv beta|by apply get_mp_run].
  erewrite bind_run; [cbv beta|reflexivity].
  erewrite bind_run; [cbv beta|by apply set_block_word_run].
  erewrite bind_run; [cbv beta|reflexivity].
  cbn [block_list mp_set_free].
  set (m' := mp_set_list _ _) in *. set (s1 := set_mempools (<[mp := m']>) _).
  assert (Hh : forall s', same_objects s1 s' -> mp_holds s' mp (x :: free) (lremove x used)).
  { intros s' (_&_&_&_&_& Em & Ek). exists m'. rewrite Em, Ek. split; [|exact Hr'].
    apply lookup_insert_eq. }
  assert (Hok1 : sched_ok s1) by exact Hok.
  assert (Hwf1 : waiters_wf s1 (QSuspend mp)) by (by apply (waiters_wf_frame s)).
  change (queue s (QSuspend mp)) with (queue s1 (QSuspend mp)).
  change (threads s) with (threads s1). change (queues s) with (queues s1). clearbody s1.
  erewrite bind_run; [cbv beta|apply has_waiter_run].
  destruct (queue s1 (QSuspend mp)) as [|t l] eqn:Hq.
  - rewrite bool_decide_eq_true_2 by done. cbn [negb when ret]. split; [by apply Hh; split_and!|done].
  - rewrite bool_decide_eq_false_2 by done. cbn [negb when].
    destruct (Hwf1 t) as (th & tob & Ht); [rewrite Hq; left|].
    pose proof (tw_thread _ _ _ _ Ht) as Hth.
    erewrite bind_run; [cbv beta|unfold first_thread; erewrite bind_run; [|reflexivity]; cbv beta;
      rewrite Hq; reflexivity].
    erewrite bind_run; [cbv beta|by apply upd_thread_run].
    set (s2 := set_threads (<[t := th_set_error RT_EOK th]>) s1).
    assert (Hok2 : sched_ok s2) by (by eapply sched_inv_upd).
    pose proof (waiters_wf_error _ (QSuspend mp) _ _ RT_EOK Hth Hwf1) as Hwf2. fold s2 in Hwf2.
    destruct (resume_first_unit s2 (QSuspend mp) t l Hok2 Hwf2 eq_refl Hq)
      as (s' & Hrun & [_ Hw] & Hso).
    destruct (rt_ipc_list_resume_run s2 (QSuspend mp) t l Hok2 Hwf2 eq_refl Hq)
      as (th1 & tob1 & _ & _ & Hres & Hres' & _).
    erewrite bind_run in Hrun; [cbv beta in Hrun|exact Hres].
    erewrite bind_run; [cbv beta|exact Hres'].
    rewrite Hrun. cbn [ret]. split; [apply Hh; exact Hso|].
    change (queue s2 (QSuspend mp)) with (queue s1 (QSuspend mp)) in Hw. rewrite Hq in Hw.
    destruct Hw as (Hq' & th2 & Ht2 & Et). split; [done|]. exists th. split; [done|].
    cbn in Ht2. rewrite lookup_insert_eq in Ht2. injection Ht2 as <-. rewrite Et. cbn.
    by rewrite insert_insert_eq.
Qed.

(** ** A new pool *)

(** consecutive blocks linked in order, the last one with a null pointer *)
Lemma chain_blocks m r n : forall i,
  0 < start_address m -> 0 <= block_size m -> 0 <= i ->
  (forall k, i <= k < i + Z.of_nat n -> word_at r (mp_block m k) = mp_block m (k + 1)) ->
  word_at r (mp_block m (i + Z.of_nat n)) = 0 ->
  chain r (mp_block m i) (mp_block m <$> seqZ i (Z.of_nat (S n))).
Proof.
  induction n as [|n IH]; intros i Hs Hb Hi Hl Hz;
    rewrite seqZ_cons by lia; cbn [fmap list_fmap chain].
  - rewrite Z.add_0_r in Hz. rewrite Hz. split_and!; [done|unfold mp_block, BLOCK_HEADER; nia|done].
  - split_and!; [done|unfold mp_block, BLOCK_HEADER; nia|].
    rewrite Hl by lia. rewrite <- Z.add_1_r.
    replace (Z.pred (Z.of_nat (S (S n)))) with (Z.of_nat (S n)) by lia.
    apply IH; try lia.
    + intros k Hk. apply Hl. lia.
    + rewrite <- Hz. do 2 f_equal. lia.
Qed.

(** what the loop writes: block k links to block k + 1, for k in [i, i + n) *)
Lemma mp_link_blocks_run m n : forall i s,
  0 < start_address m -> 0 <= block_size m -> 0 <= i ->
  mapped (ram (kheap s)) (start_address m) ((i + Z.of_nat n) * (block_size m + BLOCK_HEADER)) ->
  exists r, mp_link_blocks (start_address m) (block_size m + BLOCK_HEADER) n i s =
      Ok (tt, with_ram r s) /\
    (forall a k, mapped (ram (kheap s)) a k -> mapped r a k) /\
    (forall k, i <= k < i + Z.of_nat n -> word_at r (mp_block m k) = u32 (mp_block m (k + 1))) /\
    (forall a, (forall k, i <= k < i + Z.of_nat n -> apart (mp_block m k) a) ->
      word_at r a = word_at (ram (kheap s)) a).
Proof.
  induction n as [|n IH]; intros i s Hs Hb Hi Hm; cbn [mp_link_blocks].
  { exists (ram (kheap s)). rewrite with_ram_id. split_and!; [done|done|lia|done]. }
  change (start_address m + i * (block_size m + BLOCK_HEADER)) with (mp_block m i).
  change (start_address m + (i + 1) * (block_size m + BLOCK_HEADER)) with (mp_block m (i + 1)).
  assert (Hmi : mapped (ram (kheap s)) (mp_block m i) 4).
  { eapply mapped_sub; [exact Hm|unfold mp_block, BLOCK_HEADER; nia..]. }
  assert (Hu : u32 (mp_block m i) = mp_block m i).
  { destruct Hmi as (? & ? & _). apply u32_small. lia. }
  erewrite bind_run; [cbv beta|rewrite Hu; by apply set_block_word_run].
  set (r1 := store_word _ _ _).
  destruct (IH (i + 1) (with_ram r1 s)) as (r & Hrun & H1 & H2 & H3); [done|done|lia| |].
  { apply mapped_store_word. eapply mapped_sub; [exact Hm|unfold BLOCK_HEADER in *; nia..]. }
  exists r. split_and!; [by rewrite Hrun| | |].
  - intros a k Ha. by apply H1, mapped_store_word.
  - intros k Hk. destruct (decide (k = i)) as [->|]; [|apply H2; lia].
    rewrite H3 by (intros j Hj; apply mp_block_apart; [done|lia]).
    cbn [kheap with_ram set_kheap ram set_ram]. unfold r1. rewrite word_at_store.
    by rewrite (u32_small (u32 _)) by apply u32_range.
  - intros a Ha. rewrite H3 by (intros j Hj; apply Ha; lia).
    apply word_at_store_ne, (Ha i). lia.
Qed.

(** A pool of at least one block starts with all its blocks free, in
    the order of their addresses. *)
Theorem mp_setup_all_free (s : kstate) (mp start size bsize total : Z) :
  0 < start -> 0 <= bsize -> 0 < total < 4294967296 ->
  mapped (ram (kheap s)) start (total * (bsize + BLOCK_HEADER)) ->
  wp (mp_setup mp start size bsize total) (fun _ s' =>
    mp_holds s' mp (cells start (bsize + BLOCK_HEADER) total) [] /\
    queues s' = queues s /\ threads s' = threads s) s.
Proof.
  intros Hs Hb Ht Hm.
  set (m := {| start_address := start; mp_size := size; block_size := bsize; block_list := start;
               block_total_count := total; block_free_count := total |}).
  destruct (mp_link_blocks_run m (Z.to_nat total) 0 s) as (r & Hrun & H1 & H2 & _); [done..| |].
  { by rewrite Z.add_0_l, Z2Nat.id by lia. }
  rewrite Z.add_0_l, Z2Nat.id in H2 by lia.
  assert (Hin : forall k, 0 <= k < total -> mapped (ram (kheap s)) (mp_block m k) 4 /\
    u32 (mp_block m k) = mp_block m k).
  { intros k Hk. assert (mapped (ram (kheap s)) (mp_block m k) 4) as Hk'.
    { eapply mapped_sub; [exact Hm|unfold mp_block, BLOCK_HEADER in *; cbn; nia..]. }
    split; [done|]. destruct Hk' as (? & ? & _). apply u32_small. lia. }
  unfold wp, mp_setup. erewrite bind_run; [cbv beta|exact Hrun].
  destruct (Hin (total - 1) ltac:(lia)) as [Hl El].
  assert (Ea : u32 (start + u32 (u32 (total - 1) * (bsize + BLOCK_HEADER))) = mp_block m (total - 1)).
  { pose proof Hl as (? & ? & _). unfold mp_block in *. cbn [start_address block_size m] in *.
    assert (0 <= (total - 1) * (bsize + BLOCK_HEADER)) by (unfold BLOCK_HEADER; nia).
    rewrite (u32_small (total - 1)) by lia. by rewrite (u32_small (_ * _)), u32_small by lia. }
  rewrite Ea. erewrite bind_run; [cbv beta|apply set_block_word_run, H1, Hl].
  cbn [ram kheap with_ram set_kheap set_ram]. split; [|done].
  exists m. split; [cbn; apply lookup_insert_eq|].
  match goal with |- mp_rep _ _ ?r0 _ _ => change r0 with (store_word (mp_block m (total - 1)) RT_NULL r) end.
  split; try done; cbn [block_list block_free_count].
  - cbn; lia.
  - by rewrite app_nil_r.
  - rewrite length_cells. cbn. lia.
  - unfold cells. replace (seqZ 0 total) with (seqZ 0 (Z.of_nat (S (Z.to_nat (total - 1))))) by (f_equal; lia).
    replace (block_list m) with (mp_block m 0) by (unfold mp_block; cbn; lia).
    apply (chain_blocks m); [done|done|lia|..].
    + intros k Hk. rewrite word_at_store_ne by (apply mp_block_apart; [done|lia]).
      rewrite H2 by lia. apply Hin. lia.
    + replace (0 + Z.of_nat (Z.to_nat (total - 1))) with (total - 1) by lia.
      by rewrite word_at_store.
  - intros x Hx. by apply elem_of_nil in Hx.
  - cbn. apply mapped_store_word, H1, Hm.
Qed.
