(* ===== verification/Idle.v ===== *)
(** The idle thread, rt-thread/kernel/src/idle.c, the tick hook it runs in
    this BSP (bsp/mycpu/board.c), and the start of the system
    (rtthread_startup of components.c). *)
From S2P Require Import Prelude KService Mem CpuPort Kernel Sched Object Timer Thread.

(** * Idle hooks: idle_hook_list is a table of RT_IDLE_HOOK_LIST_SIZE = 4
    function pointers *)
Definition RT_IDLE_HOOK_LIST_SIZE : nat := 4.
Definition RT_ENOSYS : Z := 6.
Definition idle_hook_list0 : list Z := replicate RT_IDLE_HOOK_LIST_SIZE RT_NULL.

(** the two search loops: replace the first [old] by [new] *)
Fixpoint hook_replace (old new : Z) (l : list Z) : option (list Z) :=
  match l with
  | [] => None
  | h :: l => if h =? old then Some (new :: l) else cons h <$> hook_replace old new l
  end.
Definition rt_thread_idle_sethook (hook : Z) : M (list Z) Z := fun idle_hook_list =>
  match hook_replace RT_NULL hook idle_hook_list with
  | Some l => Ok (RT_EOK, l)
  | None => Ok (- RT_EFULL, idle_hook_list)
  end.
Definition rt_thread_idle_delhook (hook : Z) : M (list Z) Z := fun idle_hook_list =>
  match hook_replace hook RT_NULL idle_hook_list with
  | Some l => Ok (RT_EOK, l)
  | None => Ok (- RT_ENOSYS, idle_hook_list)
  end.

(** * The idle thread *)
Definition _has_defunct_thread (s : kstate) : bool := negb (bool_decide (queue s QDefunct = [])).

(** One iteration per defunct thread, and the last test *)
Fixpoint idle_loop (fuel : nat) : K unit :=
  match fuel with
  | O => raise OutOfFuel
  | S fuel =>
      let* s := get in
      if negb (_has_defunct_thread s) then ret tt
      else
        let* thread := the (head (queue s QDefunct)) in
        tlist_remove thread;;
        (let* th := get_thread thread in on_heap (rt_free (stack_addr th)));;
        rt_object_delete thread;;
        idle_loop fuel
  end.
Definition rt_thread_idle_excute : K unit :=
  RT_DEBUG_NOT_IN_INTERRUPT;;
  let* s := get in idle_loop (S (length (queue s QDefunct))).

Section boot.
Context {UC : UserCode}.

Definition IDLE_THREAD_STACK_SIZE : Z := 512.
Definition rt_thread_idle_init : K unit :=
  (let* _r := rt_thread_init addr_idle [116; 105; 100; 108; 101] addr_rt_thread_idle_entry
     RT_NULL addr_rt_thread_stack IDLE_THREAD_STACK_SIZE (RT_THREAD_PRIORITY_MAX - 1) 32 in
   ret tt);;
  let* _r := rt_thread_startup addr_idle in ret tt.
Definition rt_thread_idle_gethandler : Z := addr_idle.

(** board.c: the idle hook that makes up for the ticks since [last_ms];
    the value of the millisecond counter is [now] *)
Fixpoint tick_loop (n : nat) (fuel : nat) : K unit :=
  match n with
  | O => ret tt
  | S n => rt_tick_increase fuel;; tick_loop n fuel
  end.
Definition tick_hook (now last_ms : Z) (fuel : nat) : K Z :=
  let delta := u32 (now - last_ms) in
  if truthy delta then
    let delta := if 64 <? delta then 64 else delta in
    tick_loop (Z.to_nat delta) fuel;; ret now
  else ret last_ms.

(** components.c *)
Definition RT_MAIN_THREAD_STACK_SIZE : Z := 2048.
Definition RT_MAIN_THREAD_PRIORITY : Z := RT_THREAD_PRIORITY_MAX / 3.
Definition rt_application_init : K unit :=
  let* tid := rt_thread_create [109; 97; 105; 110] addr_main_thread_entry RT_NULL
    RT_MAIN_THREAD_STACK_SIZE RT_MAIN_THREAD_PRIORITY 20 in
  rt_assert (negb (tid =? RT_NULL));;
  let* _r := rt_thread_startup tid in ret tt.

(** The board initialisation sets up the heap between [bss_end] and
    [stack_top]; its device accesses and the version banner are not modelled. *)
Definition rtthread_startup (bss_end stack_top : Z) : K unit :=
  on_heap (rt_system_heap_init bss_end stack_top);;
  rt_system_timer_init;;
  rt_system_scheduler_init;;
  rt_application_init;;
  rt_thread_idle_init;;
  rt_system_scheduler_start.
End boot.

(** * Preservation of the scheduler invariant *)
Lemma idle_loop_pres fuel : preserves sched_ok (idle_loop fuel).
Proof.
  induction fuel as [|fuel IH]; intros s a s' Hok Hm; [done|]. cbn [idle_loop] in Hm.
  apply bind_ok in Hm as (? & ? & Hstep & Hm). injection Hstep as <- <-.
  destruct (negb _); [by minv Hm|].
  apply bind_ok in Hm as (t & ? & Hstep & Hm). minv Hstep.
  apply head_elem_of in Hthe. destruct (si_stat _ _ _ Hok _ _ Hthe) as (th & Ht & Hst).
  apply bind_ok in Hm as (? & ? & Hstep & Hm). injection Hstep as _ <-.
  match type of Hm with ?m _ = _ => assert (Hk : preserves sched_ok m) by pres end.
  eapply Hk; [|exact Hm]. eapply tlist_remove_ok; [done..|]. by rewrite Hst.
Qed.
Lemma rt_thread_idle_excute_pres : preserves sched_ok rt_thread_idle_excute.
Proof. pose proof idle_loop_pres. unfold rt_thread_idle_excute. pres. Qed.

Section boot_pres.
Context `{UCO : UserCodeOk}.
Lemma tick_loop_pres n fuel : preserves sched_ok (tick_loop n fuel).
Proof using UCO. induction n; cbn; pres. Qed.
Lemma tick_hook_pres now last_ms fuel : preserves sched_ok (tick_hook now last_ms fuel).
Proof using UCO. pose proof tick_loop_pres. unfold tick_hook. pres. Qed.
End boot_pres.
#[export] Hint Resolve rt_thread_idle_excute_pres tick_hook_pres : pres.
