(* ===== verification/Sleep.v ===== *)
(** Sleeping threads are woken: while the clock ticks, as the idle hook of
    board.c makes it tick (Idle.tick_loop), every timer that runs is fired when
    its time has come, no tick faults, and a thread in rt_thread_sleep is READY
    again after the number of ticks it asked for, and not before.  The state
    that makes this work, [ticking], is an invariant of the tick; its parts are
    established by rt_thread_sleep. *)
From stdpp Require Import sorting.
From S2P Require Import Prelude KService Mem CpuPort Kernel Sched Object Timer Thread Idle.

(** * The scheduler can run *)
Record runnable (s : kstate) : Prop := {
  rn_ok : sched_ok s;
  rn_unlocked : scheduler_lock_nest s = 0;
  rn_current : is_Some (threads s !! rt_current_thread s);
  rn_ready : exists t th, threads s !! t = Some th /\ stat_of th = RT_THREAD_READY;
}.
Lemma runnable_frame s s' :
  runnable s -> view s' = view s -> scheduler_lock_nest s' = scheduler_lock_nest s ->
  rt_current_thread s' = rt_current_thread s -> runnable s'.
Proof.
  intros [H1 H2 H3 H4] [= Et Eq Eg] El Ec. split; rewrite ?Et, ?El, ?Ec; try done.
  by eapply sched_ok_frame.
Qed.
Lemma rt_schedule_lock s a s' :
  rt_schedule s = Ok (a, s') -> scheduler_lock_nest s' = scheduler_lock_nest s.
Proof. intros Hm. unfold rt_schedule, rt_hw_context_switch_interrupt in Hm. by minv Hm. Qed.

Lemma rt_schedule_runnable s : runnable s ->
  exists s', rt_schedule s = Ok (tt, s') /\ runnable s' /\ threads s' = threads s /\ same_timers s s'.
Proof.
  intros [Hok Hl Hc (t & th & Ht & Hst)].
  destruct (wp_run _ _ _ (rt_schedule_selects s t th Hok Hl Ht Hst)) as ([] & s' & Hrun & (u & Hu & _) & Et & Eq & _).
  exists s'. split; [done|]. split; [|split; [done|by eapply rt_schedule_quiet]].
  split; [by eapply rt_schedule_pres|by rewrite (rt_schedule_lock _ _ _ Hrun)|by exists u|].
  exists t, th. by rewrite Et.
Qed.

Lemma tlinked_lremove t s f :
  tlinked t (set_threads f (set_queues (fun qs => lremove t <$> qs) s)) = false.
Proof.
  apply bool_decide_eq_false. intros (h & l & Hl & Hin). cbn in Hl. rewrite lookup_fmap in Hl.
  destruct (queues s !! h); [|done]. injection Hl as <-. apply elem_of_lremove in Hin. tauto.
Qed.

Lemma rt_thread_yield_runnable s : runnable s ->
  exists r s', rt_thread_yield s = Ok (r, s') /\ runnable s' /\ threads s' = threads s /\ same_timers s s'.
Proof.
  intros Hr. pose proof Hr as [Hok Hl [th Ht] Hrd]. unfold rt_thread_yield.
  erewrite bind_run; [cbv beta|reflexivity].
  erewrite bind_run; [cbv beta|by apply get_thread_run].
  erewrite bind_run; [cbv beta|reflexivity].
  destruct (_ && _)%bool eqn:E; [|by exists RT_EOK, s].
  apply andb_prop in E as [Hst%Z.eqb_eq _].
  destruct (si_range _ _ _ Hok _ _ Ht) as (_ & [_ Hp%Z.ltb_lt] & _).
  erewrite bind_run; [cbv beta|reflexivity].
  change RT_THREAD_PRIORITY_MAX with 32. rewrite Hp. unfold queue_insert_tail. rewrite bind_assoc.
  erewrite bind_run; [cbv beta|reflexivity].
  assert (tlinked (rt_current_thread s) (set_queues (fun qs => lremove (rt_current_thread s) <$> qs) s) = false) as ->
    by exact (tlinked_lremove _ s id).
  erewrite bind_run; [cbv beta|reflexivity].
  fold (rotated (rt_current_thread s) (current_priority th) s).
  destruct (rt_schedule_runnable (rotated (rt_current_thread s) (current_priority th) s)) as (s' & Hrun & Hr' & Et & Hq).
  { split; [by apply rotated_ok|done|by exists th|done]. }
  exists RT_EOK, s'. split; [|done]. by erewrite bind_run; [|exact Hrun].
Qed.

(** a thread whose time is over *)
Definition woken (th : rt_thread) : rt_thread := ready_thread (th_set_error (- RT_ETIMEOUT) th).

Lemma rt_thread_timeout_runnable p th ob s :
  runnable s -> threads s !! p = Some th -> stat_of th = RT_THREAD_SUSPEND ->
  objs s !! p = Some ob -> has_type RT_Object_Class_Thread ob ->
  exists s', rt_thread_timeout p s = Ok (tt, s') /\ runnable s' /\
    threads s' = <[p := woken th]> (threads s) /\ same_timers s s'.
Proof.
  intros Hr Ht Hst Hob Hty. pose proof Hr as [Hok Hl Hc _].
  pose proof (si_nonnull _ _ _ Hok _ _ Ht) as Hnn. unfold rt_thread_timeout.
  erewrite bind_run; [cbv beta|by apply assert_nonnull_run].
  rewrite bind_assoc. erewrite bind_run; [cbv beta|by apply get_thread_run].
  rewrite Hst. erewrite bind_run; [cbv beta|reflexivity].
  erewrite bind_run; [cbv beta|by eapply assert_type_run].
  erewrite bind_run; [cbv beta|by apply upd_thread_run].
  erewrite bind_run; [cbv beta|reflexivity].
  set (s1 := set_queues _ _). set (th1 := th_set_error (- RT_ETIMEOUT) th) in *.
  assert (Hok1 : sched_ok s1).
  { eapply (tlist_remove_ok _ th1); [by eapply sched_inv_upd; [apply Hok|exact Ht|]|apply lookup_insert_eq|].
    change (stat_of th1) with (stat_of th). by rewrite Hst. }
  assert (Ht1 : threads s1 !! p = Some th1) by apply lookup_insert_eq.
  assert (Hl1 : tlinked p s1 = false) by exact (tlinked_lremove p s _).
  erewrite bind_run; [cbv beta|apply rt_schedule_insert_thread_run; [exact Ht1|done|apply (si_range _ _ _ Hok _ _ Ht)|exact Hl1]].
  destruct (rt_schedule_runnable (do_insert p th1 s1)) as (s' & Hrun & Hr' & Et & Hq).
  { split; [|exact Hl| |exists p, (woken th); split; [apply lookup_insert_eq|apply ready_thread_stat]].
    - apply do_insert_ok; [done..| |done]. change (started th). by apply (sched_ok_started s p th Hok Ht); right.
    - cbn. rewrite !lookup_insert. destruct Hc as [c Hc]. case_decide; eauto. }
  exists s'. split; [done|]. split; [done|]. split; [|done].
  rewrite Et. cbn. by rewrite insert_insert_eq.
Qed.

(** * The clock can tick *)

(** the thread that waits for the timer [u], whose record is [tm] *)
Definition waits (s : kstate) (u : Z) (tm : rt_timer) : Prop :=
  thread_timer (parameter tm) = u /\
  (exists th, threads s !! parameter tm = Some th /\ stat_of th = RT_THREAD_SUSPEND) /\
  (exists ob, objs s !! parameter tm = Some ob /\ has_type RT_Object_Class_Thread ob) /\
  (exists ob, objs s !! u = Some ob /\ periodic ob = false).
(** The timers are in order from the tick [b] on; a running timer of the
    kernel belongs to a suspended thread. *)
Record ticking (b : Z) (s : kstate) : Prop := {
  tk_runnable : runnable s;
  tk_check : check_list s = [];
  tk_sorted : timer_sorted b s;
  tk_nodup : NoDup (rt_timer_list s);
  tk_armed : forall u, u ∈ rt_timer_list s -> armed b s u;
  tk_waits : forall u tm, u ∈ rt_timer_list s -> timers s !! u = Some tm ->
    timeout_func tm = Fn_rt_thread_timeout -> waits s u tm;
}.

(** application callbacks that return and leave timers and threads alone *)
Class PassiveCallbacks (UC : UserCode) :=
  user_timeout_passive : forall addr param s, exists s', user_timeout addr param s = Ok (tt, s') /\
    same_timers s s' /\ view s' = view s /\ scheduler_lock_nest s' = scheduler_lock_nest s /\
    rt_current_thread s' = rt_current_thread s.
#[export] Instance passive_quiet `{PC : PassiveCallbacks} : QuietCallbacks _.
Proof.
  intros addr param s a s' Hm. destruct (user_timeout_passive addr param s) as (s1 & E & H & _).
  rewrite E in Hm. by injection Hm as _ <-.
Qed.

(** what the callback of a timer does to the threads *)
Definition fired (tm : rt_timer) (ths : gmap Z rt_thread) : gmap Z rt_thread :=
  match timeout_func tm with
  | Fn_rt_thread_timeout => alter woken (parameter tm) ths
  | Fn_user _ => ths
  end.

Section ticking.
Context `{PC : PassiveCallbacks}.

Lemma call_timeout_runnable u tm s :
  runnable s -> (timeout_func tm = Fn_rt_thread_timeout -> waits s u tm) ->
  exists s', call_timeout (timeout_func tm) (parameter tm) s = Ok (tt, s') /\ runnable s' /\
    threads s' = fired tm (threads s) /\ same_timers s s'.
Proof using PC.
  intros Hr Hw. unfold call_timeout, fired. destruct (timeout_func tm) as [|addr].
  - destruct (Hw eq_refl) as (_ & (th & Ht & Hst) & (ob & Hob & Hty) & _).
    destruct (rt_thread_timeout_runnable _ _ _ _ Hr Ht Hst Hob Hty) as (s' & H1 & H2 & H3 & H4).
    exists s'. split_and!; [done|done| |done]. rewrite H3. apply map_eq. intros t.
    rewrite lookup_insert, lookup_alter. case_decide as E; [|done].
    subst. by rewrite Ht.
  - destruct (user_timeout_passive addr (parameter tm) s) as (s' & H1 & H2 & H3 & H4 & H5).
    exists s'. split_and!; [done|by eapply runnable_frame| |done]. by injection H3.
Qed.

(** a thread and a timer are different objects *)
Lemma types_differ s t u ob ob' :
  objs s !! t = Some ob -> has_type RT_Object_Class_Thread ob ->
  objs s !! u = Some ob' -> has_type RT_Object_Class_Timer ob' -> t <> u.
Proof using. unfold has_type. intros H1 H2 H3 H4 ->. simplify_eq. by rewrite H2 in H4. Qed.

(** the state in which a callback runs *)
Definition expiring (u : Z) (ob : rt_object) (s : kstate) : kstate :=
  let s1 := set_check_list (lremove u) (set_rt_timer_list (lremove u) s) in
  set_check_list (cons u)
    (if periodic ob then s1
     else set_objs (<[u := ob_set_flag (Z.land (o_flag ob) (Z.lnot RT_TIMER_FLAG_ACTIVATED)) ob]>) s1).
Lemma expiring_header u ob s :
  objs s !! u = Some ob -> exists ob1, objs (expiring u ob s) !! u = Some ob1 /\
    o_type ob1 = o_type ob /\ periodic ob1 = periodic ob /\
    forall v, v <> u -> objs (expiring u ob s) !! v = objs s !! v.
Proof using.
  intros Hob. unfold expiring. destruct (periodic ob) eqn:E; cbn.
  - exists ob. by rewrite E.
  - rewrite lookup_insert_eq. eexists. split; [done|]. split; [done|]. split; [by rewrite periodic_clear|].
    intros v Hv. by rewrite lookup_insert_ne.
Qed.
Lemma expiring_timers u ob s :
  threads (expiring u ob s) = threads s /\ timers (expiring u ob s) = timers s /\
  rt_timer_list (expiring u ob s) = lremove u (rt_timer_list s) /\ rt_tick (expiring u ob s) = rt_tick s /\
  check_list (expiring u ob s) = u :: lremove u (check_list s) /\
  view (expiring u ob s) = view s /\ scheduler_lock_nest (expiring u ob s) = scheduler_lock_nest s /\
  rt_current_thread (expiring u ob s) = rt_current_thread s.
Proof using. unfold expiring. by destruct (periodic ob). Qed.

(** up to the callback, and behind it *)
Lemma timer_expire_call u ob tm s s2 :
  timers s !! u = Some tm -> objs s !! u = Some ob -> check_list s = [] ->
  call_timeout (timeout_func tm) (parameter tm) (expiring u ob s) = Ok (tt, s2) ->
  check_list s2 = [u] ->
  timer_expire u s =
    (let* ob := get_obj u in
      when (periodic ob && truthy (Z.land (o_flag ob) RT_TIMER_FLAG_ACTIVATED))%bool
        (clear_flag RT_TIMER_FLAG_ACTIVATED u;;
         let* _e := rt_timer_start u in ret tt))
      (set_check_list (fun _ => []) (set_rt_timer_list (lremove u) s2)).
Proof using.
  intros Htm Hob Hc Hcall Hc2. unfold timer_expire.
  erewrite bind_run; [cbv beta|by apply get_timer_run].
  erewrite bind_run; [cbv beta|reflexivity].
  set (s1 := set_check_list (lremove u) (set_rt_timer_list (lremove u) s)).
  rewrite (bind_run _ _ s1 tt (if periodic ob then s1
    else set_objs (<[u := ob_set_flag (Z.land (o_flag ob) (Z.lnot RT_TIMER_FLAG_ACTIVATED)) ob]>) s1)).
  2: { erewrite bind_run; [cbv beta|by apply get_obj_run]. fold (periodic ob).
    destruct (periodic ob); [done|]. exact (upd_obj_run u _ ob s1 Hob). }
  unfold check_list_insert. rewrite bind_assoc. erewrite bind_run; [cbv beta|reflexivity].
  replace (timer_linked u _) with false.
  2: { symmetry. apply bool_decide_eq_false. destruct (periodic ob); cbn; rewrite ?Hc;
    (intros [[_ Hn]%elem_of_lremove|Hn]; [done|by apply elem_of_nil in Hn]). }
  erewrite bind_run; [cbv beta|reflexivity].
  erewrite bind_run; [cbv beta|].
  2: { etrans; [|exact Hcall]. reflexivity. }
  erewrite bind_run; [cbv beta|reflexivity]. rewrite Hc2.
  erewrite bind_run; [cbv beta|reflexivity].
  cbn [set_check_list check_list set_rt_timer_list].
  replace (set_check_list (lremove u) (set_rt_timer_list (lremove u) s2))
    with (set_check_list (fun _ => []) (set_rt_timer_list (lremove u) s2)); [done|].
  apply kstate_ext; try reflexivity. cbn -[lremove]. by rewrite Hc2, lremove_single.
Qed.

(** the expiry of one timer: no fault; the timer's thread wakes up; a timer of
    the kernel leaves the list *)
Lemma timer_expire_run b u tm s :
  ticking b s -> u ∈ rt_timer_list s -> timers s !! u = Some tm ->
  exists s', timer_expire u s = Ok (tt, s') /\ runnable s' /\ threads s' = fired tm (threads s) /\
    (timeout_func tm = Fn_rt_thread_timeout -> rt_timer_list s' = lremove u (rt_timer_list s)) /\
    exists tm', timers s' !! u = Some tm' /\ timeout_func tm' = timeout_func tm.
Proof using PC.
  intros [Hr Hc Hs Hnd Ha Hw] Hu Htm.
  destruct (Ha u Hu) as (Hnn & ob & tm0 & Hob & Hty & Htm0 & Hi & Hper & Hb). simplify_eq.
  destruct (expiring_header u ob s Hob) as (ob1 & Hob1 & Ety1 & Ep1 & Eo1).
  destruct (expiring_timers u ob s) as (Eth & Etm & El & Ek & Ec & Ev & Elk & Ecur).
  rewrite Hc in Ec. change (lremove u (@nil Z)) with (@nil Z) in Ec.
  destruct (call_timeout_runnable u tm (expiring u ob s)) as (s2 & Hcall & Hr2 & Hth2 & Hq2).
  { exact (runnable_frame s _ Hr Ev Elk Ecur). }
  { intros Hf. destruct (Hw u tm Hu Htm Hf) as (E1 & H2 & (o & Ho & Hto) & (o' & Ho' & Hp')).
    split; [done|]. rewrite Eth. split; [done|]. split; [|exists ob1; simplify_eq; by rewrite Ep1].
    exists o. rewrite Eo1; [done|]. exact (types_differ s _ u o ob Ho Hto Hob Hty). }
  destruct Hq2 as (Et2 & Eo2 & El2 & Ec2 & Ek2). rewrite Ec in Ec2.
  rewrite (timer_expire_call u ob tm s s2) by done. set (s3 := set_check_list _ _).
  assert (Hr3 : runnable s3) by (by eapply (runnable_frame s2)).
  erewrite bind_run; [cbv beta|apply get_obj_run; cbn; by rewrite Eo2].
  rewrite Ep1. destruct (periodic ob) eqn:Ep; cbn [andb when].
  - destruct (truthy _) eqn:Eact.
    2: { exists s3. split; [done|]. rewrite Eth in Hth2. split_and!; [done|done| |].
      - intros _. cbn. rewrite El2, El. apply lremove_idem.
      - exists tm. cbn. by rewrite Et2, Etm. }
    cbn [when]. unfold clear_flag. erewrite bind_run; [cbv beta|apply upd_obj_run; cbn; by rewrite Eo2].
    set (s4 := set_objs _ s3). set (ob4 := ob_set_flag (Z.land (o_flag ob1) (Z.lnot RT_TIMER_FLAG_ACTIVATED)) ob1).
    destruct (rt_timer_start_run b u tm ob4 s4) as (pre & suf & Hrun & _).
    + done.
    + apply lookup_insert_eq.
    + unfold has_type in *. cbn. by rewrite Ety1.
    + cbn. by rewrite Et2, Etm.
    + done.
    + eapply timer_sorted_frame; [exact Hs|cbn; rewrite El2, El; apply lremove_idem|].
      intros v _. cbn. by rewrite Et2, Etm.
    + cbn. rewrite Ek2, Ek. done.
    + exists (tm_started u pre suf tm ob4 s4). split; [by erewrite bind_run; [|exact Hrun]|].
      split; [by eapply runnable_frame; [exact Hr3|..]|]. rewrite Eth in Hth2. split; [done|]. split.
      * intros Hf. exfalso. destruct (Hw u tm Hu Htm Hf) as (_ & _ & _ & (o' & Ho' & Hp')). congruence.
      * cbn. rewrite lookup_insert_eq. by eexists.
  - exists s3. split; [done|]. rewrite Eth in Hth2. split_and!; [done|done| |].
    + intros _. cbn. rewrite El2, El. apply lremove_idem.
    + exists tm. cbn. by rewrite Et2, Etm.
Qed.

(** what an expiry does to the list, in the two cases *)
Lemma expire_list b u s s' v :
  expire_effect b u s s' -> NoDup (rt_timer_list s) -> v ∈ rt_timer_list s' ->
  NoDup (rt_timer_list s') /\
  ((v <> u /\ v ∈ rt_timer_list s) \/
   (v = u /\ armed b s' u /\ u32 (rt_tick s' - b) < rel b s' u)).
Proof using.
  intros [Et _ _ _ _ [El|(pre & suf & Esp & El & Ha & Hrel & _)]] Hnd Hv; rewrite El in *.
  - apply elem_of_lremove in Hv. split; [by apply NoDup_lremove|]. left. tauto.
  - assert (Hnd' : NoDup (pre ++ suf)) by (rewrite <- Esp; by apply NoDup_lremove).
    assert (Hnu : u ∉ pre ++ suf) by (rewrite <- Esp, elem_of_lremove; tauto).
    split; [rewrite <- Permutation_middle; by apply NoDup_cons|].
    rewrite <- Permutation_middle in Hv. apply elem_of_cons in Hv as [->|Hv]; [right; by rewrite Et|].
    left. rewrite <- Esp, elem_of_lremove in Hv. tauto.
Qed.
Lemma expire_length b u s s' :
  expire_effect b u s s' -> u ∈ rt_timer_list s -> NoDup (rt_timer_list s) ->
  (length (rt_timer_list s') <= length (rt_timer_list s))%nat.
Proof using.
  intros [_ _ _ _ _ [El|(pre & suf & Esp & El & _)]] Hu Hnd; rewrite El.
  - apply length_filter.
  - assert (rt_timer_list s ≡ₚ u :: lremove u (rt_timer_list s)) as E.
    { apply list_elem_of_split in Hu as (l & k & E). rewrite E in *.
      apply NoDup_app in Hnd as (_ & H1 & H2). apply NoDup_cons in H2 as [H2 _].
      rewrite lremove_app, lremove_cons_eq by done.
      rewrite (lremove_not_elem u l) by (intros Hx; by apply (H1 u Hx); left). by rewrite Permutation_middle. }
    apply Permutation_length in E. rewrite E, Esp. cbn. rewrite !length_app. cbn. lia.
Qed.

Lemma ticking_expire b u tm s s' a :
  ticking b s -> u ∈ rt_timer_list s -> timers s !! u = Some tm ->
  timer_expire u s = Ok (a, s') -> expire_effect b u s s' -> ticking b s'.
Proof using PC.
  intros Htk Hu Htm Hrun He. destruct (timer_expire_run b u tm s Htk Hu Htm) as (s1 & Hrun1 & Hr1 & Hth & Hoff & Hfn).
  rewrite Hrun1 in Hrun. injection Hrun as _ ->. destruct Htk as [Hr Hc Hs Hnd Ha Hw].
  pose proof (expire_list b u s s') as HL. split; [done|by apply He|by apply He| | |].
  - destruct (rt_timer_list s') as [|v l] eqn:E; [constructor|]. apply (HL v He Hnd). left.
  - intros v Hv. destruct (HL v He Hnd Hv) as [_ [[Hne Hin]|(-> & Hau & _)]]; [|done].
    apply (armed_frame b s); [by apply Ha|by apply He|by apply He|by apply He].
  - intros v tm' Hv Htm' Hf. destruct (HL v He Hnd Hv) as [_ [[Hne Hin]|(-> & _ & _)]].
    2: { exfalso. destruct Hfn as (tm1 & E1 & E2). simplify_eq.
      rewrite Hoff in Hv by congruence. apply elem_of_lremove in Hv. tauto. }
    rewrite (ee_timers _ _ _ _ He v Hne) in Htm'.
    destruct (Hw v tm' Hin Htm' Hf) as (E1 & (th & Ht & Hst) & (o & Ho & Hto) & (o' & Ho' & Hp')).
    split; [done|]. split; [|split].
    + exists th. split; [|done]. rewrite Hth. unfold fired. destruct (timeout_func tm) eqn:Ef; [|done].
      rewrite lookup_alter_ne; [done|]. intros E. destruct (Hw u tm Hu Htm Ef) as (E2 & _). congruence.
    + exists o. rewrite (ee_objs _ _ _ _ He); [done|].
      destruct (Ha u Hu) as (_ & ou & _ & Hou & Htu & _). by eapply types_differ.
    + exists o'. by rewrite (ee_objs _ _ _ _ He).
Qed.

(** ** One thread *)
(** [t] waits for its timer to fire at the tick [x] *)
Record asleep (t x : Z) (s : kstate) : Prop := {
  as_thread : exists th, threads s !! t = Some th /\ stat_of th = RT_THREAD_SUSPEND;
  as_list : thread_timer t ∈ rt_timer_list s;
  as_timer : exists tm, timers s !! thread_timer t = Some tm /\
    timeout_func tm = Fn_rt_thread_timeout /\ parameter tm = t /\ timeout_tick tm = x;
}.
(** [t] is READY and its error says that its time is over *)
Record awake (t : Z) (s : kstate) : Prop := {
  aw_thread : exists th, threads s !! t = Some th /\ stat_of th = RT_THREAD_READY /\ error th = - RT_ETIMEOUT;
  aw_list : thread_timer t ∉ rt_timer_list s;
}.
Lemma thread_timer_inj t t' : thread_timer t = thread_timer t' -> t = t'.
Proof using. unfold thread_timer. lia. Qed.

Lemma expire_wakes b t x s s' a :
  ticking b s -> asleep t x s -> timer_expire (thread_timer t) s = Ok (a, s') -> awake t s'.
Proof using PC.
  intros Htk [(th & Ht & Hst) Hin (tm & Htm & Hf & Hp & _)] Hrun.
  destruct (timer_expire_run b _ tm s Htk Hin Htm) as (s1 & Hrun1 & _ & Hth & Hoff & _).
  rewrite Hrun1 in Hrun. injection Hrun as _ ->. split.
  - exists (woken th). rewrite Hth. unfold fired. rewrite Hf, Hp, lookup_alter_eq, Ht.
    split; [done|]. split; [apply ready_thread_stat|done].
  - rewrite Hoff by done. rewrite elem_of_lremove. tauto.
Qed.
Lemma fired_other s b u tm t :
  ticking b s -> u ∈ rt_timer_list s -> timers s !! u = Some tm -> u <> thread_timer t ->
  fired tm (threads s) !! t = threads s !! t.
Proof using.
  intros Htk Hu Htm Hne. unfold fired. destruct (timeout_func tm) eqn:Ef; [|done].
  apply lookup_alter_ne. intros <-. apply Hne. by destruct (tk_waits _ _ Htk u tm Hu Htm Ef) as [<- _].
Qed.
Lemma expire_other b t x u s s' a :
  ticking b s -> u ∈ rt_timer_list s -> u <> thread_timer t ->
  timer_expire u s = Ok (a, s') -> expire_effect b u s s' ->
  (asleep t x s -> asleep t x s') /\ (awake t s -> awake t s').
Proof using PC.
  intros Htk Hu Hne Hrun He. destruct (tk_armed _ _ Htk u Hu) as (_ & _ & tm & _ & _ & Htm & _).
  destruct (timer_expire_run b u tm s Htk Hu Htm) as (s1 & Hrun1 & _ & Hth & _).
  rewrite Hrun1 in Hrun. injection Hrun as _ ->.
  assert (Et : threads s' !! t = threads s !! t) by (rewrite Hth; by eapply fired_other).
  assert (El : thread_timer t ∈ rt_timer_list s' <-> thread_timer t ∈ rt_timer_list s).
  { destruct He as [_ _ _ _ _ [El|(pre & suf & Esp & El & _)]]; rewrite El.
    - rewrite elem_of_lremove. naive_solver.
    - rewrite <- Permutation_middle, elem_of_cons, <- Esp, elem_of_lremove. naive_solver. }
  split.
  - intros [(th & H1 & H2) H3 (tm' & H4 & H5)]. split; [exists th; by rewrite Et|by apply El|].
    exists tm'. rewrite (ee_timers _ _ _ _ He) by done. done.
  - intros [(th & H1 & H2) H3]. split; [exists th; by rewrite Et|by rewrite El].
Qed.

(** all expired timers, one after the other *)
Lemma expire_all b us : forall s, ticking b s -> NoDup us -> (forall u, u ∈ us -> u ∈ rt_timer_list s) ->
  exists s', for_each timer_expire us s = Ok (tt, s') /\ ticking b s' /\ rt_tick s' = rt_tick s /\
    (length (rt_timer_list s') <= length (rt_timer_list s))%nat /\
    (forall v, v ∈ rt_timer_list s' ->
      ((v ∉ us) /\ (v ∈ rt_timer_list s) /\ rel b s' v = rel b s v) \/ u32 (rt_tick s' - b) < rel b s' v) /\
    forall t x, (asleep t x s -> thread_timer t ∈ us -> awake t s') /\
      (asleep t x s -> thread_timer t ∉ us -> asleep t x s') /\ (awake t s -> awake t s').
Proof using PC.
  induction us as [|u us IH]; intros s Htk Hnd Hin; cbn [for_each].
  { exists s. split_and!; [done..| |].
    - intros v Hv. left. split_and!; [apply not_elem_of_nil|done..].
    - intros t x. split_and!; [by intros _ ?%elem_of_nil|done..]. }
  apply NoDup_cons in Hnd as [Hnu Hnd]. assert (Hu : u ∈ rt_timer_list s) by (apply Hin; left).
  destruct (tk_armed _ _ Htk u Hu) as (_ & _ & tm & _ & _ & Htm & _).
  destruct (timer_expire_run b u tm s Htk Hu Htm) as (s1 & Hrun & _).
  assert (He : expire_effect b u s s1).
  { eapply timer_expire_effect; [apply Htk|by apply Htk|apply Htk|exact Hrun]. }
  assert (Htk1 : ticking b s1) by (by eapply ticking_expire).
  destruct (IH s1 Htk1 Hnd) as (s' & Hrun' & Htk' & Ek & Hlen & Hrel & Hth).
  { intros v Hv. assert (v <> u) by (intros ->; done). specialize (Hin v ltac:(by right)).
    destruct He as [_ _ _ _ _ [El|(pre & suf & Esp & El & _)]]; rewrite El.
    - by apply elem_of_lremove.
    - rewrite <- Permutation_middle. right. rewrite <- Esp. by apply elem_of_lremove. }
  exists s'. split; [by erewrite bind_run; [|exact Hrun]|]. split; [done|].
  rewrite Ek, (ee_tick _ _ _ _ He). split; [done|].
  split; [pose proof (expire_length b u s s1 He Hu (tk_nodup _ _ Htk)); lia|]. split.
  - intros v Hv. destruct (Hrel v Hv) as [(Hnv & Hv1 & Er)|Hr]; [|right; by rewrite Ek, (ee_tick _ _ _ _ He) in Hr].
    destruct (expire_list b u s s1 v He (tk_nodup _ _ Htk) Hv1) as [_ [[Hne Hv0]|(-> & _ & Hr)]].
    + left. split; [by intros [|]%elem_of_cons|]. split; [done|].
      rewrite Er. apply rel_frame. by apply He.
    + right. by rewrite Er, <- (ee_tick _ _ _ _ He).
  - intros t x. destruct (Hth t x) as (H1 & H2 & H3). destruct (decide (u = thread_timer t)) as [->|Hne].
    + split_and!.
      * intros Ha _. apply H3. exact (expire_wakes b t x s s1 tt Htk Ha Hrun).
      * intros _ Hni. exfalso. apply Hni. left.
      * intros [_ Hni]. done.
    + destruct (expire_other b t x u s s1 _ Htk Hu Hne Hrun He) as [H4 H5]. split_and!.
      * intros Ha [|]%elem_of_cons; [congruence|]. by apply H1; [apply H4|].
      * intros Ha Hni. apply H2; [by apply H4|]. set_solver.
      * intros Ha. by apply H3, H5.
Qed.

(** * One tick *)

(** between two ticks: no running timer lies in the past *)
Definition clock_ok (s : kstate) : Prop := exists b,
  ticking b s /\ u32 (rt_tick s - b) = 1 /\ forall u, u ∈ rt_timer_list s -> 1 <= rel b s u.

Lemma u32_next x : u32 (u32 (x + 1) - x) = 1.
Proof using.
  unfold u32. rewrite Zminus_mod_idemp_l. by replace (x + 1 - x) with 1 by lia.
Qed.
(** distances from the next reference tick *)
Lemma u32_shift b b' x : u32 (b' - b) = 1 -> 1 <= u32 (x - b) -> u32 (x - b') = u32 (x - b) - 1.
Proof using.
  intros Hb Hx. pose proof (u32_range (x - b)). unfold u32 in *.
  replace (x - b') with ((x - b) - (b' - b)) by lia. rewrite Zminus_mod, Hb. apply Z.mod_small. lia.
Qed.

(** the state in which rt_tick_increase checks the timers: nothing that the
    timers and the suspended threads depend on has changed but the tick *)
Record ticked (s s2 : kstate) : Prop := {
  td_runnable : runnable s2;
  td_tick : rt_tick s2 = u32 (rt_tick s + 1);
  td_timers : timers s2 = timers s /\ objs s2 = objs s /\ rt_timer_list s2 = rt_timer_list s /\
    check_list s2 = check_list s;
  td_threads : forall t th, threads s !! t = Some th ->
    exists th', threads s2 !! t = Some th' /\ stat_of th' = stat_of th /\ error th' = error th;
}.

Lemma tick_ticked s fuel : runnable s ->
  exists s2, rt_tick_increase fuel s = rt_timer_check fuel s2 /\ ticked s s2.
Proof using.
  intros Hr. pose proof Hr as [Hok Hl [th Ht] Hrd]. unfold rt_tick_increase, rt_thread_self.
  set (c := rt_current_thread s) in *. set (s0 := set_rt_tick (fun t => u32 (t + 1)) s).
  assert (Hrem : forall v h s1, threads s1 !! c = Some h -> stat_of h = stat_of th -> ticked s s1 ->
    rt_current_thread s1 = c -> error h = error th ->
    ticked s (set_threads (<[c := th_set_remaining v h]>) s1)).
  { intros v h s1 Hc Hs [[R1 R2 R3 R4] T2 T3 T4] Ecur Herr. split; [|done|done|].
    - split; [by eapply (sched_inv_upd _ _ _ R1)|done|cbn; rewrite Ecur, lookup_insert_eq; by eexists|].
      destruct R4 as (t & h' & Hh & Hst). destruct (decide (t = c)) as [->|Hne].
      + rewrite Hc in Hh. injection Hh as <-. exists c, (th_set_remaining v h). cbn. by rewrite lookup_insert_eq.
      + exists t, h'. cbn. by rewrite lookup_insert_ne.
    - intros t h' Hh. cbn. destruct (decide (t = c)) as [->|Hne].
      + rewrite Ht in Hh. injection Hh as <-. exists (th_set_remaining v h). by rewrite lookup_insert_eq.
      + rewrite lookup_insert_ne by done. by apply T4. }
  assert (H0 : ticked s s0).
  { split; [by eapply (runnable_frame s)|done|done|]. intros t h Hh. by exists h. }
  erewrite bind_run; [cbv beta|reflexivity]. erewrite bind_run; [cbv beta|reflexivity].
  erewrite bind_run; [cbv beta|apply upd_thread_run; exact Ht].
  cbv beta. set (h1 := th_set_remaining _ th). set (s1 := set_threads _ _).
  assert (H1 : ticked s s1) by (by apply Hrem).
  rewrite bind_assoc. erewrite bind_run; [cbv beta|apply get_thread_run; apply lookup_insert_eq].
  destruct (remaining_tick h1 =? 0); cbn [when].
  2: { exists s1. by erewrite bind_run; [|reflexivity]. }
  rewrite bind_assoc. erewrite bind_run; [cbv beta|apply upd_thread_run; apply lookup_insert_eq].
  cbv beta. set (s1' := set_threads _ s1).
  assert (H1' : ticked s s1') by (apply Hrem; [apply lookup_insert_eq|done..]).
  destruct (rt_thread_yield_runnable s1' (td_runnable _ _ H1')) as (r & s2 & Hrun & Hr2 & Et & (E1 & E2 & E3 & E4 & E5)).
  exists s2. split; [rewrite bind_assoc; erewrite bind_run; [cbv beta|exact Hrun]; by erewrite bind_run|].
  split; [done|by rewrite E5| |by rewrite Et; apply H1'].
  rewrite E1, E2, E3, E4. apply H1'.
Qed.

Lemma ticked_ticking b s s2 :
  ticking b s -> u32 (rt_tick s - b) = 1 -> (forall u, u ∈ rt_timer_list s -> 1 <= rel b s u) ->
  ticked s s2 ->
  ticking (rt_tick s) s2 /\ u32 (rt_tick s2 - rt_tick s) = 1 /\
  forall u, u ∈ rt_timer_list s -> rel (rt_tick s) s2 u = rel b s u - 1.
Proof using.
  intros [Hr Hc [Hs1 Hs2] Hnd Ha Hw] Hb Hrel [Hr2 Ek (Et & Eo & El & Ec) Hth].
  assert (Hrel2 : forall u, u ∈ rt_timer_list s -> rel (rt_tick s) s2 u = rel b s u - 1).
  { intros u Hu. rewrite (rel_frame _ s) by (by rewrite Et). apply u32_shift; [done|by apply Hrel]. }
  assert (Hone : u32 (rt_tick s2 - rt_tick s) = 1) by (rewrite Ek; apply u32_next).
  split; [|done]. split; [done|by rewrite Ec| |by rewrite El| |].
  - split; rewrite El.
    + intros u Hu. rewrite Et, Hrel2 by done. destruct (Hs1 u Hu). split; [done|lia].
    + eapply sorted_impl; [exact Hs2|]. intros u v Hu Hv. rewrite !Hrel2 by done. lia.
  - rewrite El. intros u Hu. destruct (Ha u Hu) as (Hnn & ob & tm & H1 & H2 & H3 & H4 & H5 & H6).
    split; [done|]. exists ob, tm. rewrite Et, Eo. rewrite Hb in H6. rewrite Hone. done.
  - rewrite El. intros u tm Hu Htm Hf. rewrite Et in Htm.
    destruct (Hw u tm Hu Htm Hf) as (H1 & (th & Ht & Hst) & H3 & H4). unfold waits. rewrite Eo.
    split_and!; [done| |done|done]. destruct (Hth _ _ Ht) as (th' & Ht' & E & _). exists th'. by rewrite E.
Qed.
Lemma ticked_thread s s2 t x : ticked s s2 -> (asleep t x s -> asleep t x s2) /\ (awake t s -> awake t s2).
Proof using.
  intros [_ _ (Et & _ & El & _) Hth]. split.
  - intros [(th & Ht & Hst) Hin Htm]. split; [|by rewrite El|by rewrite Et].
    destruct (Hth _ _ Ht) as (th' & Ht' & E & _). exists th'. by rewrite E.
  - intros [(th & Ht & Hst & He) Hin]. split; [|by rewrite El].
    destruct (Hth _ _ Ht) as (th' & Ht' & E1 & E2). exists th'. by rewrite E1, E2.
Qed.

(** one tick from a state with the clock in order: it succeeds, the clock is
    in order again, and exactly the threads whose tick it is wake up *)
Lemma tick_run s fuel : clock_ok s -> (length (rt_timer_list s) < fuel)%nat ->
  exists s', rt_tick_increase fuel s = Ok (tt, s') /\ clock_ok s' /\
    rt_tick s' = u32 (rt_tick s + 1) /\ (length (rt_timer_list s') <= length (rt_timer_list s))%nat /\
    forall t x, (asleep t x s -> u32 (x - rt_tick s) <= 1 -> awake t s') /\
      (asleep t x s -> 1 < u32 (x - rt_tick s) -> asleep t x s') /\ (awake t s -> awake t s').
Proof using PC.
  intros (b & Htk & Hb & Hrel) Hf. destruct (tick_ticked s fuel (tk_runnable _ _ Htk)) as (s2 & Hrun & Htd).
  destruct (ticked_ticking b s s2 Htk Hb Hrel Htd) as (Htk2 & Hone & Hrel2).
  pose proof Htd as [_ Ek (Et & _ & El & _) _]. set (c := rt_tick s) in *.
  assert (Hexp : forall u, u ∈ expired_timers s2 <-> u ∈ rt_timer_list s2 /\ rel c s2 u <= 1).
  { intros u. unfold expired_timers. rewrite list_elem_of_filter.
    assert (u ∈ rt_timer_list s2 -> expired s2 u <-> rel c s2 u <= 1).
    { intros Hu. rewrite (expired_rel c), Hone; [done|by apply (ts_rel _ _ (tk_sorted _ _ Htk2))|by rewrite Hone]. }
    tauto. }
  destruct (expire_all c (expired_timers s2) s2 Htk2) as (s' & Hall & Htk' & Ek' & Hlen & Hrem & Hth).
  { apply NoDup_filter, Htk2. }
  { intros u Hu. by apply Hexp. }
  exists s'. split.
  { rewrite Hrun, (rt_timer_check_run c) by (apply Htk2 || (by rewrite Hone) || by rewrite El).
    erewrite bind_run; [cbv beta|reflexivity]. etrans; [|exact Hall]. f_equal.
    apply kstate_ext; try reflexivity. cbn. by rewrite (tk_check _ _ Htk2). }
  rewrite Ek', Ek. split; [|split; [done|split; [by rewrite <- El|]]].
  - exists c. rewrite Ek'. split_and!; [done|done|]. intros v Hv.
    destruct (Hrem v Hv) as [(Hnv & Hv2 & ->)|Hr]; [|rewrite Ek', Hone in Hr; lia].
    rewrite Hexp in Hnv. destruct (decide (rel c s2 v <= 1)); [tauto|lia].
  - intros t x. destruct (ticked_thread s s2 t x Htd) as [H1 H2]. destruct (Hth t x) as (H3 & H4 & H5).
    assert (Hx : asleep t x s -> rel c s2 (thread_timer t) = u32 (x - c)).
    { intros [_ _ (tm & Htm & _ & _ & <-)]. unfold rel, tmo. by rewrite Et, Htm. }
    assert (Hin : asleep t x s -> thread_timer t ∈ rt_timer_list s2) by (intros []; by rewrite El).
    split_and!.
    + intros Ha Hle. apply H3; [by apply H1|]. rewrite Hexp, Hx by done. split; [by apply Hin|done].
    + intros Ha Hlt. apply H4; [by apply H1|]. rewrite Hexp, Hx by done. intros [_ ?]. lia.
    + intros Ha. by apply H5, H2.
Qed.

(** * Sleeping *)

(** a thread that may sleep: it runs, its timer is its own, and some other
    thread (idle) is READY *)
Record may_sleep (s : kstate) (t : Z) (th : rt_thread) (tob : rt_object) (tm : rt_timer) : Prop := {
  ms_current : rt_current_thread s = t;
  ms_thread : thread_wf s t th tob /\ stat_of th = RT_THREAD_READY;
  ms_timer : timers s !! thread_timer t = Some tm /\ timeout_func tm = Fn_rt_thread_timeout /\ parameter tm = t;
  ms_once : periodic tob = false;
  ms_other : exists t' th', t' <> t /\ threads s !! t' = Some th' /\ stat_of th' = RT_THREAD_READY;
}.

(** what stopping a timer leaves of the timers *)
Record halted (b u : Z) (s s' : kstate) : Prop := {
  ha_check : check_list s' = [];
  ha_tick : rt_tick s' = rt_tick s;
  ha_list : lremove u (rt_timer_list s') = lremove u (rt_timer_list s);
  ha_sorted : timer_sorted b s';
  ha_timers : timers s' = timers s;
  ha_objs : forall v, v <> u -> objs s' !! v = objs s !! v;
  ha_obj : forall ob, objs s !! u = Some ob -> exists ob', objs s' !! u = Some ob' /\
    o_type ob' = o_type ob /\ periodic ob' = periodic ob;
}.
Lemma stopped_halted b u ob s :
  check_list s = [] -> timer_sorted b s -> objs s !! u = Some ob -> halted b u s (stopped u ob s).
Proof using.
  intros Hc Hs Hob. unfold stopped. destruct (timer_active ob).
  - split; cbn -[lremove]; [by rewrite Hc|done|apply lremove_idem| |done| |].
    + by eapply timer_sorted_frame.
    + intros v Hv. by rewrite lookup_insert_ne.
    + intros ob' Hob'. assert (ob' = ob) as -> by congruence. rewrite lookup_insert_eq.
      eexists. split; [done|]. split; [done|]. apply periodic_clear.
  - split; try done. intros ob' Hob'. by exists ob'.
Qed.

(** rt_timer_control (SET_TIME) and rt_timer_start *)
Lemma set_and_start_run b u ob tm n s :
  u <> RT_NULL -> objs s !! u = Some ob -> has_type RT_Object_Class_Timer ob ->
  timers s !! u = Some tm -> timer_sorted b s -> 0 <= n -> u32 (rt_tick s - b) + n < HALF_TICK_MAX ->
  exists pre suf s1, s1 = tm_started u pre suf (tm_set_init n tm) ob (set_timers (<[u := tm_set_init n tm]>) s) /\
    (rt_timer_control u RT_TIMER_CTRL_SET_TIME n;; rt_timer_start u;; ret tt) s = Ok (tt, s1) /\
    lremove u (rt_timer_list s) = pre ++ suf /\ timer_sorted b s1 /\
    rel b s1 u = u32 (rt_tick s - b) + n.
Proof using.
  intros Hnn Hob Hty Htm Hs Hn Hb. set (tm1 := tm_set_init n tm). set (s0 := set_timers (<[u := tm1]>) s).
  assert (Hs0 : timer_sorted b s0).
  { destruct Hs as [H1 H2].
    assert (Hrel : forall v, rel b s0 v = rel b s v).
    { intros v. unfold rel, tmo, s0. cbn. rewrite lookup_insert. case_decide; [subst; by rewrite Htm|done]. }
    split.
    - intros v Hv. rewrite Hrel. destruct (H1 v Hv) as [Hx ?]. split; [|done]. unfold s0. cbn.
      rewrite lookup_insert. by case_decide.
    - eapply sorted_impl; [exact H2|]. intros. by rewrite !Hrel. }
  destruct (rt_timer_start_run b u tm1 ob s0) as (pre & suf & Hrun & Hsplit & Hpre & Hsuf);
    [done|done|done|apply lookup_insert_eq|done|done|exact Hb|].
  destruct (started_sorted b u pre suf tm1 ob s0) as [Hsort Hrel]; [done|done|apply lookup_insert_eq|done|exact Hb|done|done|].
  exists pre, suf, (tm_started u pre suf tm1 ob s0). split_and!; [done| |done|done|exact Hrel].
  unfold rt_timer_control. rewrite bind_assoc. erewrite bind_run; [cbv beta|by apply assert_nonnull_run].
  rewrite bind_assoc. erewrite bind_run; [cbv beta|by eapply assert_type_run].
  change (RT_TIMER_CTRL_SET_TIME =? RT_TIMER_CTRL_GET_TIME) with false. rewrite Z.eqb_refl. cbv iota.
  rewrite bind_assoc. erewrite bind_run; [cbv beta|by apply upd_timer_run].
  erewrite bind_run; [cbv beta|reflexivity]. by erewrite bind_run; [|exact Hrun].
Qed.

Lemma suspended_halted b s t th tob :
  check_list s = [] -> timer_sorted b s -> objs s !! thread_timer t = Some tob ->
  halted b (thread_timer t) s (suspended t th tob s).
Proof using.
  intros Hc Hs Hob. unfold suspended. set (s1 := set_threads _ _).
  assert (check_list s1 = [] /\ rt_tick s1 = rt_tick s /\ rt_timer_list s1 = rt_timer_list s /\
    timers s1 = timers s /\ objs s1 = objs s) as (E1 & E2 & E3 & E4 & E5)
    by (unfold s1, do_remove; cbv zeta; by case_bool_decide).
  assert (Hs1 : timer_sorted b s1).
  { destruct Hs as [X1 X2]. split; rewrite E3; unfold rel, tmo; by rewrite E4. }
  destruct (stopped_halted b (thread_timer t) tob s1 E1 Hs1 ltac:(by rewrite E5)) as [F1 F2 F3 F4 F5 F6 F7].
  rewrite E2 in F2. rewrite E3 in F3. rewrite E4 in F5. rewrite E5 in F6, F7. by split.
Qed.

Lemma suspended_sched t th tob s :
  scheduler_lock_nest (suspended t th tob s) = scheduler_lock_nest s /\
  rt_current_thread (suspended t th tob s) = rt_current_thread s.
Proof using.
  unfold suspended. destruct (stopped_frame (thread_timer t) tob
    (set_threads (<[t := th_set_stat (with_stat RT_THREAD_SUSPEND (stat th)) th]>) (do_remove t th s)))
    as (_ & _ & _ & -> & _ & ->). unfold do_remove. cbv zeta. by case_bool_decide.
Qed.

(** the thread is off the ready table and its timer runs *)
Record dozing (t n : Z) (th : rt_thread) (tm : rt_timer) (s s1 : kstate) : Prop := {
  dz_list : exists pre suf, lremove (thread_timer t) (rt_timer_list s) = pre ++ suf /\
    rt_timer_list s1 = pre ++ thread_timer t :: suf;
  dz_threads : threads s1 = <[t := suspend_stat th]> (threads s);
  dz_timers : forall v, v <> thread_timer t -> timers s1 !! v = timers s !! v;
  dz_timer : timers s1 !! thread_timer t = Some (tm_set_timeout (u32 (rt_tick s + n)) (tm_set_init n tm));
  dz_objs : forall v, v <> thread_timer t -> objs s1 !! v = objs s !! v;
  dz_obj : exists o, objs s1 !! thread_timer t = Some o /\ has_type RT_Object_Class_Timer o /\ periodic o = false;
  dz_check : check_list s1 = [];
  dz_tick : rt_tick s1 = rt_tick s;
  dz_lock : scheduler_lock_nest s1 = scheduler_lock_nest s;
  dz_current : rt_current_thread s1 = rt_current_thread s;
}.
Lemma suspend_for_dozing b s t th tob tm n :
  ticking b s -> may_sleep s t th tob tm -> 0 <= n -> u32 (rt_tick s - b) + n < HALF_TICK_MAX ->
  exists s1, suspend_for t n s = Ok (tt, s1) /\ dozing t n th tm s s1 /\ timer_sorted b s1 /\
    rel b s1 (thread_timer t) = u32 (rt_tick s - b) + n.
Proof using.
  intros Htk [Hcur [Hwf Hst] (Htm & Hf & Hp) Honce _] Hn Hb.
  pose proof Hwf as [Ht [Hnn Hnt] (ob & Hob & Hty) [Htob Htty]]. set (u := thread_timer t) in *.
  destruct (suspended_halted b s t th tob (tk_check _ _ Htk) (tk_sorted _ _ Htk) Htob) as [F1 F2 F3 F4 F5 F6 F7].
  fold u in F3, F6, F7. destruct (F7 _ Htob) as (tob1 & Htob1 & Ety1 & Eper1).
  destruct (suspended_facts s t th tob Hwf) as (Eth & _).
  pose proof (rt_thread_suspend_run t th tob s Hwf Hst) as Hsus.
  destruct (suspended_sched t th tob s) as (Elk & Ecur). set (sA := suspended t th tob s) in *.
  destruct (set_and_start_run b u tob1 tm n sA) as (pre & suf & s1 & -> & Hrun & Hsplit & Hsort & Hrel);
    [done|done|unfold has_type in *; by rewrite Ety1|by rewrite F5|done|done|by rewrite F2|].
  rewrite F3 in Hsplit. rewrite F2 in Hrel. eexists.
  split; [unfold suspend_for; by erewrite bind_run; [|exact Hsus]|]. split; [|done].
  split; fold u; cbn -[lremove]; try done.
  - by exists pre, suf.
  - intros v Hv. rewrite !lookup_insert_ne by done. by rewrite F5.
  - by rewrite lookup_insert_eq, F2.
  - intros v Hv. rewrite lookup_insert_ne by done. by apply F6.
  - rewrite lookup_insert_eq. eexists. split; [done|]. split; [unfold has_type in *; cbn; by rewrite Ety1|].
    rewrite <- Honce, <- Eper1. unfold periodic. cbn. f_equal.
    rewrite Z.land_lor_distr_l, <- Z.land_assoc. by rewrite Z.lor_0_r.
  - by rewrite F1.
Qed.

(** the running timers then are those of before and the thread's own *)
Lemma dozing_list t n th tm s s1 v :
  dozing t n th tm s s1 -> NoDup (rt_timer_list s) ->
  NoDup (rt_timer_list s1) /\ (length (rt_timer_list s1) <= S (length (rt_timer_list s)))%nat /\
  thread_timer t ∈ rt_timer_list s1 /\
  (v ∈ rt_timer_list s1 -> v = thread_timer t \/ v <> thread_timer t /\ v ∈ rt_timer_list s).
Proof using.
  intros [(pre & suf & Esp & El) _ _ _ _ _ _ _ _ _] Hnd. rewrite El.
  assert (Hmem : forall v, v ∈ pre ++ suf <-> v ∈ rt_timer_list s /\ v <> thread_timer t)
    by (intros x; rewrite <- Esp; apply elem_of_lremove).
  split; [|split; [|split]].
  - rewrite <- Permutation_middle. apply NoDup_cons. split; [rewrite Hmem; tauto|].
    rewrite <- Esp. by apply NoDup_lremove.
  - rewrite <- Permutation_middle. cbn. apply le_n_S. rewrite <- Esp. apply length_filter.
  - rewrite <- Permutation_middle. left.
  - rewrite <- Permutation_middle, elem_of_cons, Hmem. tauto.
Qed.

Lemma dozing_ticking b s t th tob tm n s1 :
  ticking b s -> may_sleep s t th tob tm -> 0 <= n -> u32 (rt_tick s - b) + n < HALF_TICK_MAX ->
  dozing t n th tm s s1 -> timer_sorted b s1 -> sched_ok s1 ->
  ticking b s1 /\ asleep t (u32 (rt_tick s + n)) s1.
Proof using.
  intros Htk [Hcur [Hwf Hst] (Htm & Hf & Hp) Honce (t' & th' & Hne' & Ht' & Hst')] Hn Hb Hd Hsort Hok.
  pose proof (fun v => dozing_list t n th tm s s1 v Hd (tk_nodup _ _ Htk)) as HL.
  destruct Hd as [_ Eth Etm Htu Eob Hou Ec Ek Elk Ecur]. pose proof Hwf as [Ht [Hnn Hnt] (ob & Hob & Hty) _].
  pose proof Htk as [Hr Hc Hs Hnd Ha Hw]. pose proof (thread_timer_ne t) as Hut.
  assert (Hstat : stat_of (suspend_stat th) = RT_THREAD_SUSPEND) by (by apply stat_of_with_stat).
  split; [split; [|done|done|by apply (HL t)| |]|].
  - split; [done|by rewrite Elk; apply Hr|rewrite Ecur, Eth, Hcur, lookup_insert_eq; by eexists|].
    exists t', th'. by rewrite Eth, lookup_insert_ne.
  - intros v Hv. destruct (HL v) as (_ & _ & _ & Hv'). destruct (Hv' Hv) as [->|[Hne Hin]].
    + destruct Hou as (o & Ho & Hot & Hop). split; [done|]. do 2 eexists. split; [exact Ho|]. split; [done|].
      split; [exact Htu|]. cbn. rewrite Ek, Hop. done.
    + destruct (Ha v Hin) as (H1 & H2). split; [done|]. by rewrite Eob, Etm, Ek.
  - intros v tm' Hv Htm' Hf'. destruct (HL v) as (_ & _ & _ & Hv'). destruct (Hv' Hv) as [->|[Hne Hin]].
    + rewrite Htu in Htm'. injection Htm' as <-. split; [cbn; by rewrite Hp|]. cbn. rewrite Hp, Eth, lookup_insert_eq.
      split; [by exists (suspend_stat th)|]. rewrite Eob by done. split; [by exists ob|].
      destruct Hou as (o & Ho & _ & Hop). by exists o.
    + rewrite Etm in Htm' by done. destruct (Hw v tm' Hin Htm' Hf') as (H1 & (h & Hh & Hhs) & (o & Ho & Hot) & H4).
      split; [done|]. assert (parameter tm' <> t) by (intros E; congruence).
      split; [exists h; by rewrite Eth, lookup_insert_ne|]. rewrite !Eob; [split; [by exists o|done]|done|].
      intros E. rewrite E in Ho. destruct Hwf as [_ _ _ [Htob Htty]]. simplify_eq.
      unfold has_type in *. by rewrite Hot in Htty.
  - split; [exists (suspend_stat th); by rewrite Eth, lookup_insert_eq|by apply (HL t)|].
    eexists. split; [exact Htu|]. done.
Qed.
(** * Many ticks *)
Lemma ticks_run fuel k : forall s, clock_ok s -> (length (rt_timer_list s) < fuel)%nat ->
  exists s', tick_loop k fuel s = Ok (tt, s') /\ clock_ok s' /\
    forall t x, (asleep t x s -> let n := Z.max 1 (u32 (x - rt_tick s)) in
        (Z.of_nat k < n -> asleep t x s') /\ (n <= Z.of_nat k -> awake t s')) /\
      (awake t s -> awake t s').
Proof using PC.
  induction k as [|k IH]; intros s Hs Hf; cbn [tick_loop].
  { exists s. split; [done|]. split; [done|]. intros t x. split; [|done]. intros Ha. split; [done|lia]. }
  destruct (tick_run s fuel Hs Hf) as (s1 & Hrun & Hs1 & Ek & Hlen & Hth1).
  destruct (IH s1 Hs1 ltac:(lia)) as (s' & Hrun' & Hs' & Hth).
  exists s'. split; [by erewrite bind_run; [|exact Hrun]|]. split; [done|]. intros t x.
  destruct (Hth1 t x) as (H1 & H2 & H3). destruct (Hth t x) as (H4 & H5). split; [|by auto].
  intros Ha. destruct (decide (u32 (x - rt_tick s) <= 1)) as [Hle|Hgt].
  - split; [lia|]. intros _. by apply H5, H1.
  - assert (Ha1 : asleep t x s1) by (apply H2; [done|lia]). specialize (H4 Ha1). cbv zeta in H4.
    rewrite (u32_shift (rt_tick s)) in H4 by (try (rewrite Ek; apply u32_next); lia).
    split; intros ?; apply H4; lia.
Qed.

Lemma ticking_schedule b s s' :
  ticking b s -> runnable s' -> threads s' = threads s -> same_timers s s' -> ticking b s'.
Proof using.
  intros [Hr Hc [Hs1 Hs2] Hnd Ha Hw] Hr' Eth (Et & Eo & El & Ec & Ek). split; rewrite ?Ec, ?El; try done.
  - split; rewrite El; unfold rel, tmo; by rewrite Et.
  - unfold armed. by rewrite Et, Eo, Ek.
  - unfold waits. by rewrite Et, Eo, Eth.
Qed.

(** rt_thread_sleep puts its caller to sleep *)
Lemma sleep_run s t th tob tm n :
  clock_ok s -> may_sleep s t th tob tm -> 0 <= n -> n + 1 < HALF_TICK_MAX ->
  exists s', rt_thread_sleep n s = Ok (tt, s') /\ clock_ok s' /\ rt_tick s' = rt_tick s /\
    (length (rt_timer_list s') <= S (length (rt_timer_list s)))%nat /\
    asleep t (u32 (rt_tick s + n)) s'.
Proof using.
  intros (b & Htk & Hb & Hrel) Hms Hn Hmax. pose proof Hms as [Hcur [Hwf Hst] _ _ _].
  pose proof Hwf as [Ht [Hnn Hnt] (ob & Hob & Hty) _].
  destruct (suspend_for_dozing b s t th tob tm n Htk Hms Hn) as (s1 & Hrun & Hd & Hsort & Hrelt); [lia|].
  assert (Hok1 : sched_ok s1) by (eapply suspend_for_pres; [apply (tk_runnable _ _ Htk)|exact Hrun]).
  destruct (dozing_ticking b s t th tob tm n s1 Htk Hms Hn ltac:(lia) Hd Hsort Hok1) as [Htk1 Has].
  destruct (rt_schedule_runnable s1 (tk_runnable _ _ Htk1)) as (s' & Hsch & Hr' & Eth & Hq).
  pose proof (ticking_schedule b s1 s' Htk1 Hr' Eth Hq) as Htk'. pose proof Hq as (Et & Eo & El & Ec & Ek).
  exists s'. split; [|split; [|split; [|split]]].
  - unfold rt_thread_sleep. erewrite bind_run; [cbv beta|reflexivity]. rewrite Hcur.
    erewrite bind_run; [cbv beta|by apply assert_nonnull_run].
    erewrite bind_run; [cbv beta|by eapply assert_type_run]. by erewrite bind_run; [|exact Hrun].
  - exists b. rewrite Ek, (dz_tick _ _ _ _ _ _ Hd), El. split_and!; [done|done|]. intros v Hv.
    rewrite (rel_frame b s1) by (by rewrite Et).
    destruct (dozing_list t n th tm s s1 v Hd (tk_nodup _ _ Htk)) as (_ & _ & _ & H).
    destruct (H Hv) as [->|[Hne Hin]]; [rewrite Hrelt; lia|].
    rewrite (rel_frame b s) by (by apply Hd). by apply Hrel.
  - by rewrite Ek, (dz_tick _ _ _ _ _ _ Hd).
  - rewrite El. by apply (dozing_list t n th tm s s1 0 Hd (tk_nodup _ _ Htk)).
  - destruct Has as [H1 H2 H3]. split; [by rewrite Eth|by rewrite El|by rewrite Et].
Qed.

(** C6: A sleeping thread wakes up.  When the clock is in order and the
    current thread calls rt_thread_sleep for [n] ticks while another thread is
    READY, nothing faults and, however many ticks follow, the thread is
    suspended up to the [n]th tick (the first one if [n] is 0) and READY from
    then on, and its call returns RT_EOK; the other timers keep firing
    meanwhile. *)
Theorem rt_thread_sleep_wakes (s : kstate) (t n : Z) (th : rt_thread) (tob : rt_object)
    (tm : rt_timer) (k fuel : nat) :
  clock_ok s -> may_sleep s t th tob tm -> 0 <= n -> n + 1 < HALF_TICK_MAX ->
  (S (length (rt_timer_list s)) < fuel)%nat ->
  wp (rt_thread_sleep n;; tick_loop k fuel) (fun _ s' => clock_ok s' /\
    if Z.of_nat k <? Z.max 1 n
    then exists th', threads s' !! t = Some th' /\ stat_of th' = RT_THREAD_SUSPEND
    else (exists th', threads s' !! t = Some th' /\ stat_of th' = RT_THREAD_READY) /\
      wp (rt_thread_sleep_resumed t) (fun r s'' => r = RT_EOK /\
        exists th', threads s'' !! t = Some th' /\ error th' = RT_EOK) s') s.
Proof using PC.
  intros Hs Hms Hn Hmax Hf. destruct (sleep_run s t th tob tm n Hs Hms Hn Hmax) as (s1 & Hrun & Hs1 & Ek & Hlen & Ha).
  destruct (ticks_run fuel k s1 Hs1 ltac:(lia)) as (s' & Hrun' & Hs' & Hth).
  apply wp_bind. eapply wp_intro; [exact Hrun|]. eapply wp_intro; [exact Hrun'|]. split; [done|].
  destruct (Hth t (u32 (rt_tick s + n))) as [H _]. specialize (H Ha). cbv zeta in H. rewrite Ek in H.
  assert (u32 (u32 (rt_tick s + n) - rt_tick s) = n) as E.
  { unfold u32. rewrite Zminus_mod_idemp_l. replace (rt_tick s + n - rt_tick s) with n by lia.
    apply Z.mod_small. unfold HALF_TICK_MAX, RT_TICK_MAX in Hmax. change (4294967295 / 2) with 2147483647 in Hmax. lia. }
  rewrite E in H. destruct (Z.ltb_spec (Z.of_nat k) (Z.max 1 n)) as [Hlt|Hge].
  - destruct H as [H _]. apply (H Hlt).
  - destruct H as [_ H]. destruct (H Hge) as [(th' & Ht' & Hst' & He') _]. split; [by exists th'|].
    unfold rt_thread_sleep_resumed, clear_timeout. apply wp_bind. unfold wp at 1.
    erewrite bind_run; [cbv beta|by apply get_thread_run]. rewrite He', Z.eqb_refl. cbn [when].
    erewrite upd_thread_run by done. cbn. split; [done|]. rewrite lookup_insert_eq. by eexists.
Qed.
End ticking.
