(* ===== verification/MemHeap.v ===== *)
(** The memheap allocator, rt-thread/kernel/src/memheap.c, with
    RT_USING_MEMHEAP_AS_HEAP: several heaps, each a kernel object with a pool of
    blocks, a circular list of all blocks in address order, a circular list of
    the free ones and a semaphore as its lock.  (This board uses Mem instead.)
    The item headers, in the pools and in the heaps themselves, are kept by
    address beside the byte memory, which is the [ram] of the kernel's state;
    a header that was merged into another block stays behind, as in memory.  A
    caller that would have to wait for the lock is outside of the model
    (WouldBlock).  The proofs are in MemHeapSpec. *)
From S2P Require Import Prelude KService Mem CpuPort Kernel Sched Object Timer Thread Ipc.

(** struct rt_memheap_item *)
Record rt_memheap_item := {
  item_magic : Z;
  pool_ptr : Z;
  item_next : Z;
  item_prev : Z;
  next_free : Z;
  prev_free : Z;
}.
(** struct rt_memheap, without its object header, the item [free_header] and
    the semaphore [lock], which are in the maps of their kinds *)
Record rt_memheap := {
  start_addr : Z;
  pool_size : Z;
  available_size : Z;
  max_used_size : Z;
  mh_block_list : Z;
  free_list : Z;
}.
Definition free_header (heap : Z) : Z := heap + 44.
Definition lock (heap : Z) : Z := heap + 68.

Record mstate := {
  ks : kstate;
  memheaps : gmap Z rt_memheap;
  items : gmap Z rt_memheap_item;
  __rt_errno : Z;
}.
Definition set_ks v (s : mstate) : mstate := {| ks := v; memheaps := memheaps s; items := items s; __rt_errno := __rt_errno s |}.
Definition set_memheaps v (s : mstate) : mstate := {| ks := ks s; memheaps := v; items := items s; __rt_errno := __rt_errno s |}.
Definition set_items v (s : mstate) : mstate := {| ks := ks s; memheaps := memheaps s; items := v; __rt_errno := __rt_errno s |}.
Definition set_errno v (s : mstate) : mstate := {| ks := ks s; memheaps := memheaps s; items := items s; __rt_errno := v |}.
Abbreviation MH := (M mstate).

(** the kernel's operations, and those of kservice.c on the memory *)
Definition on_kernel {A} (m : K A) : MH A := fun s =>
  match m (ks s) with
  | Ok (a, k) => Ok (a, set_ks k s)
  | Fault f => Fault f
  end.
Definition on_bytes {A} (m : M mem A) : MH A := on_kernel (on_heap (on_ram m)).

(** * errno (kservice.c) *)
Definition rt_set_errno (error : Z) : MH unit :=
  let* s := get in
  if negb (interrupt_nest (ks s) =? 0) then modify (set_errno error)
  else
    let* tid := on_kernel rt_thread_self in
    if tid =? RT_NULL then modify (set_errno error)
    else on_kernel (upd_thread tid (th_set_error error)).
Definition rt_get_errno : MH Z :=
  let* s := get in
  if negb (interrupt_nest (ks s) =? 0) then ret (__rt_errno s)
  else
    let* tid := on_kernel rt_thread_self in
    if tid =? RT_NULL then ret (__rt_errno s)
    else let* th := on_kernel (get_thread tid) in ret (error th).

(** * Items *)
Definition RT_MEMHEAP_MAGIC : Z := 513810080.   (* 0x1ea01ea0 *)
Definition RT_MEMHEAP_MASK : Z := 4294967294.
Definition RT_MEMHEAP_USED : Z := 1.
Definition RT_MEMHEAP_MINIALLOC : Z := 12.
Definition RT_MEMHEAP_SIZE : Z := RT_ALIGN 24 RT_ALIGN_SIZE.

Definition get_heap (heap : Z) : MH rt_memheap := let* s := get in the (memheaps s !! heap).
Definition put_heap (heap : Z) (h : rt_memheap) : MH unit :=
  modify (fun s => set_memheaps (<[heap := h]> (memheaps s)) s).
Definition get_item (a : Z) : MH rt_memheap_item := let* s := get in the (items s !! a).
Definition put_item (a : Z) (it : rt_memheap_item) : MH unit :=
  modify (fun s => set_items (<[a := it]> (items s)) s).
Definition upd_item (a : Z) (f : rt_memheap_item -> rt_memheap_item) : MH unit :=
  let* it := get_item a in put_item a (f it).
Definition with_item_magic v it := {| item_magic := v; pool_ptr := pool_ptr it; item_next := item_next it;
  item_prev := item_prev it; next_free := next_free it; prev_free := prev_free it |}.
Definition with_item_next v it := {| item_magic := item_magic it; pool_ptr := pool_ptr it; item_next := v;
  item_prev := item_prev it; next_free := next_free it; prev_free := prev_free it |}.
Definition with_item_prev v it := {| item_magic := item_magic it; pool_ptr := pool_ptr it; item_next := item_next it;
  item_prev := v; next_free := next_free it; prev_free := prev_free it |}.
Definition with_next_free v it := {| item_magic := item_magic it; pool_ptr := pool_ptr it; item_next := item_next it;
  item_prev := item_prev it; next_free := v; prev_free := prev_free it |}.
Definition with_prev_free v it := {| item_magic := item_magic it; pool_ptr := pool_ptr it; item_next := item_next it;
  item_prev := item_prev it; next_free := next_free it; prev_free := v |}.

Definition RT_MEMHEAP_IS_USED (it : rt_memheap_item) : bool :=
  truthy (Z.land (item_magic it) RT_MEMHEAP_USED).
Definition MEMITEM_SIZE (a : Z) (it : rt_memheap_item) : Z := u32 (item_next it - a - RT_MEMHEAP_SIZE).
(** an item with magic and pool set; its pointers are set next *)
Definition fresh_item (magic heap : Z) : rt_memheap_item := {| item_magic := magic; pool_ptr := heap;
  item_next := RT_NULL; item_prev := RT_NULL; next_free := RT_NULL; prev_free := RT_NULL |}.

(** a->next_free->prev_free = a->prev_free; a->prev_free->next_free = a->next_free *)
Definition free_list_remove (a : Z) : MH unit :=
  (let* it := get_item a in upd_item (next_free it) (with_prev_free (prev_free it)));;
  (let* it := get_item a in upd_item (prev_free it) (with_next_free (next_free it))).
(** insert [a] behind the head of the free list *)
Definition free_list_insert (heap a : Z) : MH unit :=
  let* h := get_heap heap in
  (let* fl := get_item (free_list h) in upd_item a (with_next_free (next_free fl)));;
  upd_item a (with_prev_free (free_list h));;
  (let* fl := get_item (free_list h) in upd_item (next_free fl) (with_prev_free a));;
  upd_item (free_list h) (with_next_free a).
(** a new free block between the block [a] and its successor *)
Definition insert_block (heap a new_ptr : Z) : MH unit :=
  put_item new_ptr (fresh_item RT_MEMHEAP_MAGIC heap);;
  upd_item new_ptr (with_item_prev a);;
  (let* it := get_item a in upd_item new_ptr (with_item_next (item_next it)));;
  (let* it := get_item a in upd_item (item_next it) (with_item_prev new_ptr));;
  upd_item a (with_item_next new_ptr).

(** available_size += d *)
Definition add_available (heap d : Z) : MH unit :=
  let* h := get_heap heap in
  put_heap heap {| start_addr := start_addr h; pool_size := pool_size h;
    available_size := u32 (available_size h + d); max_used_size := max_used_size h;
    mh_block_list := mh_block_list h; free_list := free_list h |}.
(** if (pool_size - available_size > max_used_size) max_used_size = ... *)
Definition update_max (heap : Z) : MH unit :=
  let* h := get_heap heap in
  let used := u32 (pool_size h - available_size h) in
  when (max_used_size h <? used)
    (put_heap heap {| start_addr := start_addr h; pool_size := pool_size h;
      available_size := available_size h; max_used_size := used;
      mh_block_list := mh_block_list h; free_list := free_list h |}).

Definition take_lock (heap : Z) : MH Z :=
  let* r := on_kernel (rt_sem_take (lock heap) RT_WAITING_FOREVER) in
  match r with Done result => ret result | Pending _ => raise WouldBlock end.
Definition release_lock (heap : Z) : MH unit :=
  let* _r := on_kernel (rt_sem_release (lock heap)) in ret tt.
Definition assert_memheap (heap : Z) : MH unit :=
  rt_assert (negb (heap =? RT_NULL));;
  on_kernel (assert_type heap RT_Object_Class_MemHeap).

(** * rt_memheap_init and rt_memheap_detach *)
Definition rt_memheap_init (memheap : Z) (name : list Z) (start size : Z) : MH Z :=
  rt_assert (negb (memheap =? RT_NULL));;
  on_kernel (rt_object_init memheap RT_Object_Class_MemHeap name);;
  let pool_size := RT_ALIGN_DOWN size RT_ALIGN_SIZE in
  let available := u32 (pool_size - 2 * RT_MEMHEAP_SIZE) in
  let header := free_header memheap in
  let tailer := u32 (start + available + RT_MEMHEAP_SIZE) in
  put_heap memheap {| start_addr := start; MemHeap.pool_size := pool_size; available_size := available;
    max_used_size := u32 (pool_size - available); mh_block_list := start; free_list := header |};;
  put_item header (with_next_free header (with_prev_free header (fresh_item RT_MEMHEAP_MAGIC memheap)));;
  put_item start (with_next_free start (with_prev_free start (fresh_item RT_MEMHEAP_MAGIC memheap)));;
  upd_item start (with_item_next tailer);;
  upd_item start (with_item_prev tailer);;
  free_list_insert memheap start;;
  put_item tailer (with_item_next start (with_item_prev start
    (fresh_item (Z.lor RT_MEMHEAP_MAGIC RT_MEMHEAP_USED) memheap)));;
  let* _r := on_kernel (rt_sem_init (lock memheap) name 1 RT_IPC_FLAG_FIFO) in
  ret RT_EOK.

Definition rt_memheap_detach (heap : Z) : MH Z :=
  assert_memheap heap;;
  (let* b := on_kernel (rt_object_is_systemobject heap) in rt_assert b);;
  (let* _r := on_kernel (rt_sem_detach (lock heap)) in ret tt);;
  on_kernel (rt_object_detach heap);;
  ret RT_EOK.

(** * rt_memheap_alloc *)
Definition request (size : Z) : Z :=
  let size := RT_ALIGN size RT_ALIGN_SIZE in
  if size <? RT_MEMHEAP_MINIALLOC then RT_MEMHEAP_MINIALLOC else size.

(** the search on the free list; the block where it ends and its size *)
Fixpoint search_loop (fuel : nat) (free_list size header_ptr free_size : Z) : MH (Z * Z) :=
  match fuel with
  | O => raise OutOfFuel
  | S fuel =>
      if (negb (header_ptr =? free_list) && (free_size <? size))%bool then
        let* it := get_item header_ptr in
        let free_size := MEMITEM_SIZE header_ptr it in
        search_loop fuel free_list size (if free_size <? size then next_free it else header_ptr) free_size
      else ret (header_ptr, free_size)
  end.

(** header_ptr->next_free = header_ptr->prev_free = RT_NULL *)
Definition clear_free (a : Z) : MH unit :=
  upd_item a (with_next_free RT_NULL);; upd_item a (with_prev_free RT_NULL).

(** a block of [free_size] bytes has been found: split it or take it whole *)
Definition take_block (heap header_ptr free_size size : Z) : MH unit :=
  (if u32 (size + RT_MEMHEAP_SIZE + RT_MEMHEAP_MINIALLOC) <=? free_size then
     let new_ptr := u32 (header_ptr + size + RT_MEMHEAP_SIZE) in
     insert_block heap header_ptr new_ptr;;
     free_list_remove header_ptr;;
     clear_free header_ptr;;
     free_list_insert heap new_ptr;;
     add_available heap (- size - RT_MEMHEAP_SIZE);;
     update_max heap
   else
     add_available heap (- free_size);;
     update_max heap;;
     free_list_remove header_ptr;;
     clear_free header_ptr);;
  upd_item header_ptr (fun it => with_item_magic (Z.lor (item_magic it) RT_MEMHEAP_USED) it).

Definition rt_memheap_alloc (heap size : Z) : MH Z :=
  assert_memheap heap;;
  let size := request size in
  let* h := get_heap heap in
  if size <? available_size h then
    let* result := take_lock heap in
    if negb (result =? RT_EOK) then rt_set_errno result;; ret RT_NULL
    else
      let* h := get_heap heap in
      let* fl := get_item (free_list h) in
      let* s := get in
      let* found := search_loop (S (base.size (items s))) (free_list h) size (next_free fl) 0 in
      if size <=? found.2 then
        take_block heap found.1 found.2 size;;
        release_lock heap;;
        ret (u32 (found.1 + RT_MEMHEAP_SIZE))
      else
        release_lock heap;; ret RT_NULL
  else ret RT_NULL.

(** * rt_memheap_free *)
(** merge with the previous block if it is free; the header of the result, and
    whether it has to be inserted into the free list *)
Definition merge_left (heap header_ptr : Z) : MH (Z * bool) :=
  let* it := get_item header_ptr in
  let* p := get_item (item_prev it) in
  if negb (RT_MEMHEAP_IS_USED p) then
    add_available heap RT_MEMHEAP_SIZE;;
    upd_item (item_prev it) (with_item_next (item_next it));;
    (let* it := get_item header_ptr in upd_item (item_next it) (with_item_prev (item_prev it)));;
    let* it := get_item header_ptr in ret (item_prev it, false)
  else ret (header_ptr, true).
(** merge with the next block if it is free, [amount] of it being available then *)
Definition merge_next (amount : Z -> rt_memheap_item -> Z) (heap header_ptr : Z) : MH unit :=
  let* it := get_item header_ptr in
  let new_ptr := item_next it in
  let* n := get_item new_ptr in
  when (negb (RT_MEMHEAP_IS_USED n))
    (add_available heap (amount new_ptr n);;
     upd_item (item_next n) (with_item_prev header_ptr);;
     (let* n := get_item new_ptr in upd_item header_ptr (with_item_next (item_next n)));;
     free_list_remove new_ptr).
Definition merge_right : Z -> Z -> MH unit := merge_next (fun _ _ => RT_MEMHEAP_SIZE).

Definition rt_memheap_free (ptr : Z) : MH unit :=
  if ptr =? RT_NULL then ret tt
  else
    let header_ptr := u32 (ptr - RT_MEMHEAP_SIZE) in
    let* it := get_item header_ptr in
    rt_assert (Z.land (item_magic it) RT_MEMHEAP_MASK =? RT_MEMHEAP_MAGIC);;
    rt_assert (RT_MEMHEAP_IS_USED it);;
    (let* n := get_item (item_next it) in
     rt_assert (Z.land (item_magic n) RT_MEMHEAP_MASK =? RT_MEMHEAP_MAGIC));;
    let heap := pool_ptr it in
    assert_memheap heap;;
    let* result := take_lock heap in
    if negb (result =? RT_EOK) then rt_set_errno result
    else
      upd_item header_ptr (fun it => with_item_magic (Z.land (item_magic it) (Z.lnot RT_MEMHEAP_USED)) it);;
      (let* it := get_item header_ptr in add_available heap (MEMITEM_SIZE header_ptr it));;
      let* h := merge_left heap header_ptr in
      merge_right heap h.1;;
      when h.2 (free_list_insert heap h.1);;
      release_lock heap.

(** * rt_memheap_realloc *)
(** a->next->prev = a->prev; a->prev->next = a->next *)
Definition block_remove (a : Z) : MH unit :=
  (let* it := get_item a in upd_item (item_next it) (with_item_prev (item_prev it)));;
  (let* it := get_item a in upd_item (item_prev it) (with_item_next (item_next it))).

(** the block grows into the free block [next_ptr] behind it *)
Definition grow_block (heap header_ptr next_ptr oldsize newsize : Z) : MH unit :=
  add_available heap (- (newsize - oldsize));;
  update_max heap;;
  free_list_remove next_ptr;;
  block_remove next_ptr;;
  let next_ptr := u32 (header_ptr + RT_MEMHEAP_SIZE + newsize) in
  insert_block heap header_ptr next_ptr;;
  free_list_insert heap next_ptr.

(** the end of the block, from [new_ptr] on, is given back *)
Definition shrink_block (heap header_ptr newsize : Z) : MH unit :=
  let new_ptr := u32 (header_ptr + newsize + RT_MEMHEAP_SIZE) in
  insert_block heap header_ptr new_ptr;;
  merge_next (fun free_ptr f => - MEMITEM_SIZE free_ptr f) heap new_ptr;;
  free_list_insert heap new_ptr;;
  let* n := get_item new_ptr in
  add_available heap (MEMITEM_SIZE new_ptr n).

Definition rt_memheap_realloc (heap ptr newsize : Z) : MH Z :=
  assert_memheap heap;;
  if newsize =? 0 then rt_memheap_free ptr;; ret RT_NULL
  else
    let newsize := request newsize in
    if ptr =? RT_NULL then rt_memheap_alloc heap newsize
    else
      let header_ptr := u32 (ptr - RT_MEMHEAP_SIZE) in
      let* it := get_item header_ptr in
      let oldsize := MEMITEM_SIZE header_ptr it in
      if oldsize <? newsize then
        let* result := take_lock heap in
        if negb (result =? RT_EOK) then rt_set_errno result;; ret RT_NULL
        else
          let* it := get_item header_ptr in
          let next_ptr := item_next it in
          rt_assert (header_ptr <? next_ptr);;
          let* n := get_item next_ptr in
          let nextsize := MEMITEM_SIZE next_ptr n in
          if (negb (RT_MEMHEAP_IS_USED n) &&
              (u32 (newsize + RT_MEMHEAP_MINIALLOC) <? u32 (nextsize + oldsize)))%bool then
            grow_block heap header_ptr next_ptr oldsize newsize;;
            release_lock heap;;
            ret ptr
          else
            release_lock heap;;
            let* new_ptr := rt_memheap_alloc heap newsize in
            when (negb (new_ptr =? RT_NULL))
              (on_bytes (rt_memcpy new_ptr ptr (if oldsize <? newsize then oldsize else newsize));;
               rt_memheap_free ptr);;
            ret new_ptr
      else if oldsize <=? u32 (newsize + RT_MEMHEAP_SIZE + RT_MEMHEAP_MINIALLOC) then ret ptr
      else
        let* result := take_lock heap in
        if negb (result =? RT_EOK) then rt_set_errno result;; ret RT_NULL
        else
          shrink_block heap header_ptr newsize;;
          release_lock heap;;
          ret ptr.

(** * RT_USING_MEMHEAP_AS_HEAP *)
Section as_heap.
(** the address of the static variable [_heap] *)
Context (_heap : Z).

Definition rt_system_heap_init (begin_addr end_addr : Z) : MH unit :=
  let* _r := rt_memheap_init _heap [104; 101; 97; 112] begin_addr (u32 (end_addr - begin_addr)) in ret tt.

(** the other heaps, in the order of their container *)
Fixpoint malloc_others (size : Z) (heaps : list Z) : MH Z :=
  match heaps with
  | [] => ret RT_NULL
  | heap :: heaps =>
      assert_memheap heap;;
      if heap =? _heap then malloc_others size heaps
      else
        let* ptr := rt_memheap_alloc heap size in
        if negb (ptr =? RT_NULL) then ret ptr else malloc_others size heaps
  end.
Definition rt_malloc (size : Z) : MH Z :=
  let* ptr := rt_memheap_alloc _heap size in
  if ptr =? RT_NULL then
    rt_assert (bool_decide (is_Some (rt_object_get_information RT_Object_Class_MemHeap)));;
    let* s := get in malloc_others size (object_list (ks s) RT_Object_Class_MemHeap)
  else ret ptr.
Definition rt_free (rmem : Z) : MH unit := rt_memheap_free rmem.

Definition rt_realloc (rmem newsize : Z) : MH Z :=
  if rmem =? RT_NULL then rt_malloc newsize
  else if newsize =? 0 then rt_free rmem;; ret RT_NULL
  else
    let header_ptr := u32 (rmem - RT_MEMHEAP_SIZE) in
    let* it := get_item header_ptr in
    let* new_ptr := rt_memheap_realloc (pool_ptr it) rmem newsize in
    if ((new_ptr =? RT_NULL) && negb (newsize =? 0))%bool then
      let* new_ptr := rt_malloc newsize in
      when (negb (new_ptr =? RT_NULL) && negb (rmem =? RT_NULL))%bool
        (let* it := get_item header_ptr in
         let oldsize := MEMITEM_SIZE header_ptr it in
         on_bytes (rt_memcpy new_ptr rmem (if oldsize <? newsize then oldsize else newsize));;
         rt_free rmem);;
      ret new_ptr
    else ret new_ptr.

Definition rt_calloc (count size : Z) : MH Z :=
  let total_size := u32 (count * size) in
  let* ptr := rt_malloc total_size in
  when (negb (ptr =? RT_NULL)) (let* _r := on_bytes (rt_memset ptr 0 total_size) in ret tt);;
  ret ptr.

(** total, used and max_used *)
Definition rt_memory_info : MH (Z * Z * Z) :=
  let* h := get_heap _heap in
  ret (pool_size h, u32 (pool_size h - available_size h), max_used_size h).
End as_heap.
