(* ===== verification/MemHeapRep.v ===== *)
(** The blocks of a memheap: a list of blocks in address order, the items that
    represent it in the pool, the ring of the free list (a ring of RtList over
    two fields of the items), and what the operations on items do to both. *)
From S2P Require Import Prelude RtList KService Mem CpuPort Kernel Sched Object Timer Thread Ipc MemHeap.

(** * Blocks *)
Record mblk := { mb_addr : Z; mb_size : Z; mb_used : bool }.
#[export] Instance mblk_eq_dec : EqDecision mblk.
Proof. solve_decision. Defined.
(** the address behind a block *)
Definition mb_end (b : mblk) : Z := mb_addr b + 32 + mb_size b.
Definition mb_magic (u : bool) : Z := if u then Z.lor RT_MEMHEAP_MAGIC RT_MEMHEAP_USED else RT_MEMHEAP_MAGIC.

(** an item of [heap] between the items at [prev] and [next] *)
Record item_is (heap : Z) (u : bool) (prev next : Z) (it : rt_memheap_item) : Prop := {
  ii_pool : pool_ptr it = heap;
  ii_magic : item_magic it = mb_magic u;
  ii_prev : item_prev it = prev;
  ii_next : item_next it = next;
}.
(** from [p] on, behind the item at [prev], the blocks [l] and the tailer at [fin] *)
Fixpoint seg (its : gmap Z rt_memheap_item) (heap start prev p : Z) (l : list mblk) (fin : Z) : Prop :=
  match l with
  | [] => p = fin /\ exists it, its !! fin = Some it /\ item_is heap true prev start it
  | b :: l => mb_addr b = p /\ 0 < mb_size b /\
      (exists it, its !! p = Some it /\ item_is heap (mb_used b) prev (mb_end b) it) /\
      seg its heap start p (mb_end b) l fin
  end.

(** the blocks [l] from [p], behind the item at [prev], up to [q], where the
    last item is [last] *)
Fixpoint part (its : gmap Z rt_memheap_item) (heap prev p : Z) (l : list mblk) (last q : Z) : Prop :=
  match l with
  | [] => p = q /\ prev = last
  | b :: l => mb_addr b = p /\ 0 < mb_size b /\
      (exists it, its !! p = Some it /\ item_is heap (mb_used b) prev (mb_end b) it) /\
      part its heap p (mb_end b) l last q
  end.

Section seg.
Context (heap start : Z).

Lemma mseg_app its prev p l k fin :
  seg its heap start prev p (l ++ k) fin <->
  exists last q, part its heap prev p l last q /\ seg its heap start last q k fin.
Proof.
  revert prev p. induction l as [|b l IH]; cbn; intros prev p.
  - split; [intros H; by exists prev, p|]. intros (last & q & [-> ->] & H). done.
  - split.
    + intros (E & Hs & Hi & H). apply IH in H as (last & q & H1 & H2). by exists last, q.
    + intros (last & q & (E & Hs & Hi & H1) & H2). split_and!; [done..|]. apply IH. by exists last, q.
Qed.
Lemma part_app its prev p l k last q :
  part its heap prev p (l ++ k) last q <->
  exists m r, part its heap prev p l m r /\ part its heap m r k last q.
Proof.
  revert prev p. induction l as [|b l IH]; cbn; intros prev p.
  - split; [intros H; by exists prev, p|]. intros (m & r & [-> ->] & H). done.
  - split.
    + intros (E & Hs & Hi & H). apply IH in H as (m & r & H1 & H2). by exists m, r.
    + intros (m & r & (E & Hs & Hi & H1) & H2). split_and!; [done..|]. apply IH. by exists m, r.
Qed.
Lemma part_le its prev p l last q : part its heap prev p l last q -> p <= q.
Proof.
  revert prev p. induction l as [|b l IH]; cbn; [intros ?? [-> _]; lia|].
  intros prev p (E & Hs & _ & H). apply IH in H. unfold mb_end in H. lia.
Qed.

Lemma seg_le its prev p l fin : seg its heap start prev p l fin -> p <= fin.
Proof.
  revert prev p. induction l as [|b l IH]; cbn; [intros ?? [-> _]; lia|].
  intros prev p (E & Hs & _ & H). apply IH in H. unfold mb_end in H. lia.
Qed.
Lemma mseg_bounds its prev p l fin b : seg its heap start prev p l fin -> b ∈ l ->
  p <= mb_addr b /\ 0 < mb_size b /\ mb_end b <= fin.
Proof.
  revert prev p. induction l as [|c l IH]; intros prev p Hs Hb; [by apply elem_of_nil in Hb|].
  destruct Hs as (E & Hc & _ & H). pose proof (seg_le _ _ _ _ _ H) as Hle.
  apply elem_of_cons in Hb as [->|Hb]; [lia|]. apply IH in H as H'; [|done]. unfold mb_end in *. lia.
Qed.
(** the item at the start of a segment *)
Lemma seg_first its prev p l fin : seg its heap start prev p l fin ->
  exists it, its !! p = Some it /\ pool_ptr it = heap /\ item_prev it = prev /\
    item_magic it = mb_magic (match l with [] => true | b :: _ => mb_used b end).
Proof. destruct l as [|b l]; [intros [-> (it & H & [])]|intros (_ & _ & (it & H & []) & _)]; by exists it. Qed.

(** the items between [p] and [fin] are those of [its], but for their links of
    the free list *)
Definition same_block (it it' : rt_memheap_item) : Prop :=
  pool_ptr it' = pool_ptr it /\ item_magic it' = item_magic it /\
  item_prev it' = item_prev it /\ item_next it' = item_next it.
Lemma same_block_is u prev nx it it' :
  same_block it it' -> item_is heap u prev nx it -> item_is heap u prev nx it'.
Proof. intros (E1 & E2 & E3 & E4) []. split; congruence. Qed.
Lemma mseg_frame its its' prev p l fin :
  seg its heap start prev p l fin ->
  (forall a it, p <= a <= fin -> its !! a = Some it -> exists it', its' !! a = Some it' /\ same_block it it') ->
  seg its' heap start prev p l fin.
Proof.
  revert prev p. induction l as [|b l IH]; cbn; intros prev p.
  - intros [-> (it & Hit & Hi)] Hf. split; [done|]. destruct (Hf fin it ltac:(lia) Hit) as (it' & H1 & H2).
    exists it'. split; [done|]. by eapply same_block_is.
  - intros (E & Hs & (it & Hit & Hi) & H) Hf. pose proof (seg_le _ _ _ _ _ H) as Hle.
    split; [done|]. split; [done|]. split.
    + destruct (Hf p it ltac:(unfold mb_end in *; lia) Hit) as (it' & H1 & H2).
      exists it'. split; [done|]. by eapply same_block_is.
    + apply IH; [done|]. intros a it' Ha. apply Hf. unfold mb_end in *. lia.
Qed.

Lemma part_frame its its' prev p l last q :
  part its heap prev p l last q ->
  (forall a it, p <= a < q -> its !! a = Some it -> exists it', its' !! a = Some it' /\ same_block it it') ->
  part its' heap prev p l last q.
Proof.
  revert prev p. induction l as [|b l IH]; cbn; intros prev p; [done|].
  intros (E & Hs & (it & Hit & Hi) & H) Hf. pose proof (part_le _ _ _ _ _ _ H) as Hle.
  split; [done|]. split; [done|]. split.
  - destruct (Hf p it ltac:(unfold mb_end in *; lia) Hit) as (it' & H1 & H2).
    exists it'. split; [done|]. by eapply same_block_is.
  - apply IH; [done|]. intros a it' Ha. apply Hf. unfold mb_end in *. lia.
Qed.

(** change the predecessor of the first item *)
Lemma seg_set_prev its prev p l fin v :
  seg its heap start prev p l fin -> seg (alter (with_item_prev v) p its) heap start v p l fin.
Proof.
  destruct l as [|b l]; cbn.
  - intros [-> (it & Hit & [])]. split; [done|]. rewrite lookup_alter_eq, Hit. by eexists.
  - intros (E & Hs & (it & Hit & []) & H). split; [done|]. split; [done|]. split.
    + rewrite lookup_alter_eq, Hit. by eexists.
    + eapply mseg_frame; [exact H|]. intros a it' Ha Hit'. exists it'.
      rewrite lookup_alter_ne by (unfold mb_end in *; lia). done.
Qed.

(** a block in the middle *)
Lemma seg_at its prev p pre b suf fin :
  seg its heap start prev p (pre ++ b :: suf) fin <->
  exists prev0, part its heap prev p pre prev0 (mb_addr b) /\ 0 < mb_size b /\
    (exists it, its !! mb_addr b = Some it /\ item_is heap (mb_used b) prev0 (mb_end b) it) /\
    seg its heap start (mb_addr b) (mb_end b) suf fin.
Proof.
  rewrite mseg_app. split.
  - intros (last & q & H1 & (<- & H2 & H3 & H4)). by exists last.
  - intros (prev0 & H1 & H2 & H3 & H4). by exists prev0, (mb_addr b).
Qed.
Lemma part_alter its prev p l last q f a :
  q <= a -> part its heap prev p l last q -> part (alter f a its) heap prev p l last q.
Proof.
  intros Ha H. eapply part_frame; [exact H|]. intros x it Hx Hit. exists it.
  by rewrite lookup_alter_ne by lia.
Qed.
Lemma seg_alter its prev p l fin f a :
  a < p -> seg its heap start prev p l fin -> seg (alter f a its) heap start prev p l fin.
Proof.
  intros Ha H. eapply mseg_frame; [exact H|]. intros x it Hx Hit. exists it.
  by rewrite lookup_alter_ne by lia.
Qed.

(** mark a block as used or free *)
Definition mark (u : bool) (b : mblk) : mblk := {| mb_addr := mb_addr b; mb_size := mb_size b; mb_used := u |}.
Lemma seg_mark its prev p pre b suf fin u f :
  (forall it, item_magic it = mb_magic (mb_used b) -> f it = with_item_magic (mb_magic u) it) ->
  seg its heap start prev p (pre ++ b :: suf) fin ->
  seg (alter f (mb_addr b) its) heap start prev p (pre ++ mark u b :: suf) fin.
Proof.
  intros Hf (prev0 & Hp & Hs & (it & Hit & [I1 I2 I3 I4]) & H)%seg_at. apply seg_at.
  exists prev0. cbn [mb_addr mark mb_size]. split_and!.
  - by apply part_alter.
  - done.
  - rewrite lookup_alter_eq, Hit. exists (f it). split; [done|]. rewrite Hf by done. by split.
  - apply seg_alter; [unfold mb_end; cbn; lia|done].
Qed.

(** cut the end off a block as a free block *)
Definition head_of (size : Z) (b : mblk) : mblk := {| mb_addr := mb_addr b; mb_size := size; mb_used := mb_used b |}.
Definition rest_of (size : Z) (b : mblk) : mblk :=
  {| mb_addr := mb_addr b + 32 + size; mb_size := mb_size b - size - 32; mb_used := false |}.
Definition with_block (a n q : Z) (its : gmap Z rt_memheap_item) : gmap Z rt_memheap_item :=
  alter (with_item_next n) a (alter (with_item_prev n) q
    (<[n := with_item_next q (with_item_prev a (fresh_item RT_MEMHEAP_MAGIC heap))]> its)).
Lemma seg_split its prev p pre b suf fin size :
  0 < size -> size + 32 < mb_size b ->
  seg its heap start prev p (pre ++ b :: suf) fin ->
  seg (with_block (mb_addr b) (mb_addr b + 32 + size) (mb_end b) its) heap start prev p
    (pre ++ head_of size b :: rest_of size b :: suf) fin.
Proof.
  intros Hsz Hlt (prev0 & Hp & Hs & (it & Hit & [I1 I2 I3 I4]) & H)%seg_at. apply seg_at.
  assert (Hend : mb_end (rest_of size b) = mb_end b) by (unfold mb_end; cbn; lia).
  exists prev0. cbn [mb_addr head_of mb_size mb_used]. unfold with_block. split_and!.
  - apply part_alter; [lia|]. apply part_alter; [unfold mb_end; lia|].
    eapply part_frame; [exact Hp|]. intros x it' Hx Hit'. exists it'. by rewrite lookup_insert_ne by lia.
  - done.
  - rewrite lookup_alter_eq, lookup_alter_ne, lookup_insert_ne, Hit by (unfold mb_end; lia).
    by eexists.
  - split; [done|]. split; [cbn; lia|]. change (mb_end (head_of size b)) with (mb_addr b + 32 + size).
    change (mb_addr (rest_of size b)) with (mb_addr b + 32 + size). split.
    + rewrite !lookup_alter_ne, lookup_insert_eq by (unfold mb_end; lia). eexists. split; [done|].
      rewrite Hend. by split.
    + rewrite Hend. apply seg_alter; [unfold mb_end; lia|]. eapply seg_set_prev, mseg_frame; [exact H|].
      intros x it' Hx Hit'. exists it'. unfold mb_end in Hx. by rewrite lookup_insert_ne by lia.
Qed.

(** join a block with the one behind it *)
Definition join (b c : mblk) : mblk :=
  {| mb_addr := mb_addr b; mb_size := mb_size b + 32 + mb_size c; mb_used := mb_used b |}.
Definition without_block (a q : Z) (its : gmap Z rt_memheap_item) : gmap Z rt_memheap_item :=
  alter (with_item_next q) a (alter (with_item_prev a) q its).
Lemma seg_join its prev p pre b c suf fin :
  seg its heap start prev p (pre ++ b :: c :: suf) fin ->
  seg (without_block (mb_addr b) (mb_end c) its) heap start prev p (pre ++ join b c :: suf) fin.
Proof.
  intros (prev0 & Hp & Hs & (it & Hit & [I1 I2 I3 I4]) & (Ec & Hc & _ & H))%seg_at. apply seg_at.
  assert (Hend : mb_end (join b c) = mb_end c) by (unfold mb_end in *; cbn; lia).
  exists prev0. cbn [mb_addr join mb_size mb_used]. unfold without_block. split_and!.
  - apply part_alter; [lia|]. apply part_alter; [unfold mb_end in *; lia|done].
  - lia.
  - rewrite lookup_alter_eq, lookup_alter_ne, Hit by (unfold mb_end in *; lia). eexists. split; [done|].
    rewrite Hend. by split.
  - rewrite Hend. apply seg_alter; [unfold mb_end in *; lia|]. eapply seg_set_prev. exact H.
Qed.
End seg.

(** * The free list *)
Definition fnode (it : rt_memheap_item) : rt_list_node := {| next := next_free it; prev := prev_free it |}.
Definition fnodes (its : gmap Z rt_memheap_item) : gmap Z rt_list_node := fnode <$> its.

Lemma fnodes_next a v its : fnodes (alter (with_next_free v) a its) = set_next a v (fnodes its).
Proof.
  apply map_eq. intros x. unfold fnodes, set_next. rewrite lookup_fmap, !lookup_alter, !lookup_fmap.
  case_decide; [|done]. subst. by destruct (its !! x).
Qed.
Lemma fnodes_prev a v its : fnodes (alter (with_prev_free v) a its) = set_prev a v (fnodes its).
Proof.
  apply map_eq. intros x. unfold fnodes, set_prev. rewrite lookup_fmap, !lookup_alter, !lookup_fmap.
  case_decide; [|done]. subst. by destruct (its !! x).
Qed.
(** the other fields are not part of it *)
Lemma fnodes_other a f its : (forall it, fnode (f it) = fnode it) -> fnodes (alter f a its) = fnodes its.
Proof.
  intros Hf. apply map_eq. intros x. unfold fnodes. rewrite !lookup_fmap, lookup_alter.
  case_decide; [|done]. subst. destruct (its !! x); cbn; [|done]. by rewrite Hf.
Qed.
Lemma fnodes_dom its : dom (fnodes its) = dom its.
Proof. apply dom_fmap_L. Qed.
Lemma fnodes_lookup its a : fnodes its !! a = fnode <$> its !! a.
Proof. apply lookup_fmap. Qed.

(** the neighbours of an element are other members of the ring *)
Lemma ring_neighbours h l ns n p q :
  ring h l ns -> n ∈ ns -> nxt h n = Some q -> prv h n = Some p ->
  q ∈ l :: ns /\ p ∈ l :: ns /\ q <> n.
Proof.
  intros Hr Hn Hq Hp. apply list_elem_of_split in Hn as (xs & ys & ->). pose proof (ring_rotate _ _ _ _ _ Hr) as Hr'.
  rewrite (ring_first _ _ _ Hr') in Hq. rewrite (ring_last _ _ _ Hr') in Hp. injection Hq as <-. injection Hp as <-.
  destruct Hr' as [Hnd _]. apply NoDup_cons in Hnd as [Hnin _].
  assert (H1 : default n (head (ys ++ l :: xs)) ∈ ys ++ l :: xs) by (destruct ys; cbn; set_solver).
  assert (H2 : default n (last (ys ++ l :: xs)) ∈ ys ++ l :: xs).
  { destruct (last _) as [z|] eqn:E; [by apply last_Some_elem_of in E|]. apply last_None in E. by destruct ys. }
  revert H1 H2. generalize (default n (head (ys ++ l :: xs))), (default n (last (ys ++ l :: xs))).
  intros p q H1 H2. clear -Hnin H1 H2. rewrite !elem_of_cons, !elem_of_app, !elem_of_cons in *.
  split_and!; [tauto|tauto|]. intros ->. tauto.
Qed.

(** taking a node out of a ring without linking it to itself *)
Lemma ring_unlink h l ns n p q :
  ring h l ns -> n ∈ ns -> nxt h n = Some q -> prv h n = Some p ->
  ring (RtList.set_next p q (RtList.set_prev q p h)) l (lremove n ns).
Proof.
  intros Hr Hn Hq Hp. pose proof Hr as [Hnd _].
  destruct (ring_neighbours _ _ _ _ _ _ Hr Hn Hq Hp) as (Hq' & Hp' & Hne).
  destruct (ring_remove h l ns n Hr Hn) as (h' & Hrun & Hr' & _ & _ & _).
  rewrite (rt_list_remove_run h n p q) in Hrun by (done || by eapply ring_dom). injection Hrun as <-.
  eapply ring_frame; [exact Hr'|]. intros x Hx.
  assert (x <> n).
  { intros ->. apply NoDup_cons in Hnd as [Hl _]. apply elem_of_cons in Hx as [->|Hx]; [done|].
    apply elem_of_lremove in Hx. tauto. }
  by rewrite (lookup_set_next_ne n), (lookup_set_prev_ne n).
Qed.
Lemma ring_link h l ns n q :
  ring h l ns -> n ∉ l :: ns -> n ∈ dom h -> nxt h l = Some q ->
  ring (RtList.set_next l n (RtList.set_prev q n (RtList.set_prev n l (RtList.set_next n q h)))) l (n :: ns).
Proof.
  intros Hr Hn Hd Hq. destruct (ring_insert_after h l ns n Hr Hn Hd) as (h' & Hrun & Hr' & _).
  assert (Hqr : q ∈ l :: ns).
  { rewrite (ring_first _ _ _ Hr) in Hq. injection Hq as <-. destruct ns; cbn; set_solver. }
  rewrite (rt_list_insert_after_run h l n q) in Hrun; [|done|by eapply ring_dom|done|set_solver].
  injection Hrun as <-. rewrite !RtList.set_next_prev in Hr' |- *.
  rewrite (RtList.set_prev_prev q) by set_solver. done.
Qed.

(** * Running the operations on items *)
Lemma get_item_run a it s : items s !! a = Some it -> get_item a s = Ok (it, s).
Proof. intros H. unfold get_item, bind, get. by rewrite H. Qed.
Lemma get_heap_run a h s : memheaps s !! a = Some h -> get_heap a s = Ok (h, s).
Proof. intros H. unfold get_heap, bind, get. by rewrite H. Qed.
Lemma upd_item_run a f s : is_Some (items s !! a) ->
  upd_item a f s = Ok (tt, set_items (alter f a (items s)) s).
Proof.
  intros [it Hit]. unfold upd_item. erewrite bind_run; [|by apply get_item_run].
  unfold put_item, modify. f_equal. f_equal. f_equal. apply map_eq. intros x.
  rewrite lookup_insert, lookup_alter. case_decide; [|done]. subst. by rewrite Hit.
Qed.
Lemma alter_some {A} (f : A -> A) a (m : gmap Z A) x : is_Some (m !! x) -> is_Some (alter f a m !! x).
Proof. rewrite lookup_alter. case_decide; [|done]. subst. intros [y ->]. by eexists. Qed.
Lemma ring_item its l ns a : ring (fnodes its) l ns -> a ∈ l :: ns -> is_Some (its !! a).
Proof. intros Hr Ha. rewrite <- elem_of_dom, <- fnodes_dom. by eapply ring_dom. Qed.
Lemma fnodes_nxt its a it : its !! a = Some it -> nxt (fnodes its) a = Some (next_free it) /\ prv (fnodes its) a = Some (prev_free it).
Proof. intros H. unfold nxt, prv. by rewrite fnodes_lookup, H. Qed.

(** only links of the free list have changed, and only at [xs] *)
Definition relinked (xs : list Z) (its its' : gmap Z rt_memheap_item) : Prop :=
  (forall x it, its !! x = Some it -> exists it', its' !! x = Some it' /\ same_block it it') /\
  (forall x, x ∉ xs -> its' !! x = its !! x).
Lemma relinked_refl xs its : relinked xs its its.
Proof. split; [|done]. intros x it H. by exists it. Qed.
Lemma relinked_alter xs its its' a f :
  a ∈ xs -> (forall it, same_block it (f it)) -> relinked xs its its' -> relinked xs its (alter f a its').
Proof.
  intros Ha Hf [H1 H2]. split.
  - intros x it Hx. destruct (H1 x it Hx) as (it' & E & S1). rewrite lookup_alter. case_decide; [|by exists it'].
    subst. rewrite E. exists (f it'). split; [done|]. destruct (Hf it') as (?&?&?&?), S1 as (?&?&?&?). unfold same_block. intuition congruence.
  - intros x Hx. rewrite lookup_alter_ne by (intros ->; done). by apply H2.
Qed.
Lemma same_block_links v it : same_block it (with_next_free v it) /\ same_block it (with_prev_free v it).
Proof. done. Qed.

Lemma free_list_remove_run its hd fs a :
  ring (fnodes its) hd fs -> a ∈ fs ->
  exists its', (forall s, items s = its -> free_list_remove a s = Ok (tt, set_items its' s)) /\
    ring (fnodes its') hd (lremove a fs) /\ relinked (hd :: fs) its its'.
Proof.
  intros Hr Ha. destruct (ring_item _ _ _ a Hr ltac:(by right)) as [it Hit].
  destruct (fnodes_nxt _ _ _ Hit) as [Hn Hp].
  pose proof (ring_unlink _ _ _ a _ _ Hr Ha Hn Hp) as Hr'.
  destruct (ring_neighbours _ _ _ _ _ _ Hr Ha Hn Hp) as (Hq & Hp' & Hne).
  pose (its1 := alter (with_prev_free (prev_free it)) (next_free it) its).
  exists (alter (with_next_free (next_free it)) (prev_free it) its1). split_and!.
  - intros s Es. unfold free_list_remove. subst its. rewrite bind_assoc. erewrite bind_run; [cbv beta|by apply get_item_run].
    erewrite bind_run; [cbv beta|apply upd_item_run; by eapply ring_item].
    erewrite bind_run; [cbv beta|apply get_item_run; cbn; rewrite lookup_alter_ne by congruence; exact Hit].
    rewrite upd_item_run by (apply alter_some; by eapply ring_item). done.
  - unfold its1. by rewrite fnodes_next, fnodes_prev.
  - unfold its1. apply relinked_alter; [done|done|]. apply relinked_alter; [done|done|apply relinked_refl].
Qed.

Lemma free_list_insert_run s heap h fs a :
  memheaps s !! heap = Some h -> ring (fnodes (items s)) (free_list h) fs ->
  a ∉ free_list h :: fs -> is_Some (items s !! a) ->
  exists its', free_list_insert heap a s = Ok (tt, set_items its' s) /\
    ring (fnodes its') (free_list h) (a :: fs) /\ relinked (free_list h :: a :: fs) (items s) its'.
Proof.
  intros Hh Hr Ha Hs. set (hd := free_list h) in *.
  destruct (ring_item _ _ _ hd Hr ltac:(left)) as [it Hit]. destruct (fnodes_nxt _ _ _ Hit) as [Hn _].
  assert (Hq : next_free it ∈ hd :: fs).
  { rewrite (ring_first _ _ _ Hr) in Hn. injection Hn as <-. destruct fs; cbn; set_solver. }
  assert (Hqa : next_free it <> a) by (intros E; by rewrite E in Hq). assert (Hha : hd <> a) by (intros ->; apply Ha; left).
  pose proof (ring_link _ _ _ a _ Hr Ha ltac:(by rewrite fnodes_dom, elem_of_dom) Hn) as Hr'.
  eexists. split; [|split].
  - unfold free_list_insert. erewrite bind_run; [cbv beta|by apply get_heap_run]. fold hd.
    rewrite bind_assoc. erewrite bind_run; [cbv beta|by apply get_item_run].
    erewrite bind_run; [cbv beta|by apply upd_item_run].
    erewrite bind_run; [cbv beta|apply upd_item_run; cbn; by apply alter_some].
    rewrite bind_assoc. erewrite bind_run; [cbv beta|apply get_item_run; cbn; rewrite !lookup_alter_ne by done; exact Hit].
    erewrite bind_run; [cbv beta|apply upd_item_run; cbn; repeat apply alter_some; by eapply ring_item].
    rewrite upd_item_run by (cbn; repeat apply alter_some; by eexists). reflexivity.
  - cbn. by rewrite fnodes_next, fnodes_prev, fnodes_prev, fnodes_next.
  - cbn. do 4 (apply relinked_alter; [set_solver|done|]). apply relinked_refl.
Qed.
