(* ===== verification/MemHeapSpec.v ===== *)
(** Correctness of the memheap allocator: the items of a heap form a list of
    blocks that fills its pool, the free list carries exactly the free ones,
    and allocation, release and reallocation are operations on these two lists.
    The lock is taken and given back, so the kernel's state is unchanged. *)
From S2P Require Import Prelude RtList KService Mem CpuPort Kernel Sched Object Timer Thread Ipc MemHeap MemHeapRep.

(** * The representation *)
Fixpoint free_bytes (l : list mblk) : Z :=
  match l with
  | [] => 0
  | b :: l => (if mb_used b then 0 else mb_size b) + free_bytes l
  end.
(** no two neighbours are free *)
Fixpoint normal (l : list mblk) : Prop :=
  match l with
  | b :: (c :: _) as r => (mb_used b = true \/ mb_used c = true) /\ normal r
  | _ => True
  end.
Definition free_blocks (l : list mblk) : list mblk := filter (fun b => mb_used b = false) l.
Definition tailer (h : rt_memheap) : Z := start_addr h + pool_size h - 32.

(** the memheap at [heap] has the record [h], the blocks [l] in its pool and
    the blocks [fs] on its free list *)
Record heap_at (s : mstate) (heap : Z) (h : rt_memheap) (l fs : list mblk) : Prop := {
  ha_heap : memheaps s !! heap = Some h;
  ha_head : free_list h = free_header heap;
  ha_seg : seg (items s) heap (start_addr h) (tailer h) (start_addr h) l (tailer h);
  ha_range : 0 < start_addr h /\ start_addr h + pool_size h <= 4294967296;
  ha_free : ring (fnodes (items s)) (free_header heap) (mb_addr <$> fs);
  ha_fs : fs ≡ₚ free_blocks l;
  ha_header : free_header heap < start_addr h \/ tailer h < free_header heap;
  ha_available : available_size h = free_bytes l;
  ha_normal : normal l;
}.

(** ** Lists of blocks *)
Lemma free_bytes_app l k : free_bytes (l ++ k) = free_bytes l + free_bytes k.
Proof. induction l as [|b l IH]; cbn; [done|]. rewrite IH. lia. Qed.
Lemma free_blocks_app l k : free_blocks (l ++ k) = free_blocks l ++ free_blocks k.
Proof. apply filter_app. Qed.
Lemma free_blocks_cons b l : free_blocks (b :: l) = if mb_used b then free_blocks l else b :: free_blocks l.
Proof.
  unfold free_blocks. rewrite filter_cons. destruct (mb_used b); [by rewrite decide_False|by rewrite decide_True].
Qed.
Lemma mnormal_app l k : normal (l ++ k) <->
  normal l /\ normal k /\ (forall b c, last l = Some b -> head k = Some c -> mb_used b = true \/ mb_used c = true).
Proof.
  induction l as [|b l IH]; [cbn; naive_solver|]. destruct l as [|c l].
  - destruct k as [|d k]; cbn; naive_solver.
  - change (normal ((b :: c :: l) ++ k)) with ((mb_used b = true \/ mb_used c = true) /\ normal ((c :: l) ++ k)).
    rewrite IH. cbn [normal]. change (last (b :: c :: l)) with (last (c :: l)). naive_solver.
Qed.
Lemma free_bytes_nonneg its heap start prev p l fin : seg its heap start prev p l fin ->
  0 <= free_bytes l /\ free_bytes l <= fin - p.
Proof.
  revert prev p. induction l as [|b l IH]; cbn; [intros ?? [-> _]; lia|].
  intros prev p (E & Hs & _ & H). apply IH in H. unfold mb_end in *. destruct (mb_used b); lia.
Qed.
Lemma part_free_bytes its heap prev p l lst q : part its heap prev p l lst q -> 0 <= free_bytes l.
Proof.
  revert prev p. induction l as [|b l IH]; cbn; [lia|]. intros prev p (_ & Hs & _ & H). apply IH in H.
  destruct (mb_used b); lia.
Qed.
(** the address ranges of different blocks *)
Lemma mseg_disjoint its heap start prev p l fin b c :
  seg its heap start prev p l fin -> b ∈ l -> c ∈ l -> b = c \/ mb_end b <= mb_addr c \/ mb_end c <= mb_addr b.
Proof.
  revert prev p. induction l as [|d l IH]; intros prev p Hs Hb Hc; [by apply elem_of_nil in Hb|].
  destruct Hs as (E & Hd & _ & H).
  apply elem_of_cons in Hb as [->|Hb]; apply elem_of_cons in Hc as [->|Hc]; [by left|..].
  - right; left. eapply mseg_bounds in H; [|exact Hc]. lia.
  - right; right. eapply mseg_bounds in H; [|exact Hb]. lia.
  - by eapply IH.
Qed.
Lemma seg_addr_inj its heap start prev p l fin b c :
  seg its heap start prev p l fin -> b ∈ l -> c ∈ l -> mb_addr b = mb_addr c -> b = c.
Proof.
  intros H Hb Hc E. pose proof (mseg_bounds _ _ _ _ _ _ _ _ H Hb). pose proof (mseg_bounds _ _ _ _ _ _ _ _ H Hc).
  destruct (mseg_disjoint _ _ _ _ _ _ _ _ _ H Hb Hc) as [|[|]]; [done|unfold mb_end in *; lia..].
Qed.

Section rep.
Context (s : mstate) (heap : Z) (h : rt_memheap) (l fs : list mblk).
Hypothesis H : heap_at s heap h l fs.
Lemma ha_in b : b ∈ fs <-> b ∈ l /\ mb_used b = false.
Proof. rewrite (ha_fs _ _ _ _ _ H). unfold free_blocks. rewrite list_elem_of_filter. tauto. Qed.
Lemma ha_bounds b : b ∈ l -> start_addr h <= mb_addr b /\ 0 < mb_size b /\ mb_end b <= tailer h.
Proof. apply mseg_bounds with (1 := ha_seg _ _ _ _ _ H). Qed.
Lemma ha_nodup : NoDup (free_header heap :: (mb_addr <$> fs)).
Proof. by destruct (ha_free _ _ _ _ _ H). Qed.
(** an address inside of a block is not one of the ring *)
Lemma ha_fresh b n : b ∈ l -> mb_addr b < n < mb_end b -> n ∉ free_header heap :: (mb_addr <$> fs).
Proof.
  intros Hb Hn [E|Hin]%elem_of_cons.
  - pose proof (ha_bounds b Hb). destruct (ha_header _ _ _ _ _ H); lia.
  - apply list_elem_of_fmap in Hin as (c & E & [Hc _]%ha_in). pose proof (ha_bounds c Hc).
    destruct (mseg_disjoint _ _ _ _ _ _ _ _ _ (ha_seg _ _ _ _ _ H) Hb Hc) as [->|[|]]; unfold mb_end in *; lia.
Qed.
(** taking a block out of the free list *)
Lemma ha_split b : b ∈ fs -> exists f1 f2, fs = f1 ++ b :: f2 /\
  lremove (mb_addr b) (mb_addr <$> fs) = mb_addr <$> (f1 ++ f2) /\ mb_addr b ∉ (mb_addr <$> (f1 ++ f2)).
Proof.
  intros Hb. pose proof ha_nodup as [_ Hnd]%NoDup_cons. apply list_elem_of_split in Hb as (f1 & f2 & E).
  exists f1, f2. split; [done|]. rewrite E in *. rewrite !fmap_app, fmap_cons in *.
  apply NoDup_app in Hnd as (_ & H1 & H2). apply NoDup_cons in H2 as [H2 _].
  assert (Hn1 : mb_addr b ∉ (mb_addr <$> f1)) by (intros Hx; apply (H1 _ Hx); left).
  split; [|by rewrite elem_of_app; intros [|]].
  rewrite lremove_app, lremove_cons_eq by done. by rewrite lremove_not_elem.
Qed.
End rep.

(** nothing but the heap's record, the items in its pool and the head of its
    free list has changed, and its pool is the same *)
Record confined (s s' : mstate) (heap : Z) (h h' : rt_memheap) : Prop := {
  cf_kernel : ks s' = ks s;
  cf_heaps : forall a, a <> heap -> memheaps s' !! a = memheaps s !! a;
  cf_items : forall a, a <> free_header heap -> ~ (start_addr h <= a <= tailer h) -> items s' !! a = items s !! a;
  cf_pool : start_addr h' = start_addr h /\ pool_size h' = pool_size h;
}.

(** ** Accounting *)
Definition with_available (v : Z) (h : rt_memheap) : rt_memheap := {| start_addr := start_addr h; pool_size := pool_size h;
  available_size := v; max_used_size := max_used_size h; mh_block_list := mh_block_list h; free_list := free_list h |}.
Lemma add_available_run heap h d s : memheaps s !! heap = Some h ->
  add_available heap d s = Ok (tt, set_memheaps (<[heap := with_available (u32 (available_size h + d)) h]> (memheaps s)) s).
Proof. intros Hh. unfold add_available. by erewrite bind_run; [|by apply get_heap_run]. Qed.
Lemma update_max_run heap h s : memheaps s !! heap = Some h ->
  exists h', update_max heap s = Ok (tt, set_memheaps (<[heap := h']> (memheaps s)) s) /\
    start_addr h' = start_addr h /\ pool_size h' = pool_size h /\ available_size h' = available_size h /\
    free_list h' = free_list h.
Proof.
  intros Hh. unfold update_max. erewrite bind_run; [cbv beta|by apply get_heap_run]. destruct (_ <? _); cbn [when].
  - eexists. split; [reflexivity|done].
  - exists h. split; [|done]. unfold ret. f_equal. f_equal. rewrite insert_id by done. by destruct s.
Qed.
(** both together *)
Lemma account_run heap h d s : memheaps s !! heap = Some h -> 0 <= available_size h + d < 4294967296 ->
  exists h', (add_available heap d;; update_max heap) s = Ok (tt, set_memheaps (<[heap := h']> (memheaps s)) s) /\
    start_addr h' = start_addr h /\ pool_size h' = pool_size h /\ available_size h' = available_size h + d /\
    free_list h' = free_list h.
Proof.
  intros Hh Hd. erewrite bind_run; [cbv beta|by apply add_available_run]. rewrite u32_small by done.
  destruct (update_max_run heap (with_available (available_size h + d) h)
    (set_memheaps (<[heap := with_available (available_size h + d) h]> (memheaps s)) s)) as (h' & Hrun & E1 & E2 & E3 & E4);
    [apply lookup_insert_eq|].
  exists h'. split; [|done]. rewrite Hrun. cbn. by rewrite insert_insert_eq.
Qed.

(** ** The lock *)
Record lock_free (k : kstate) (heap : Z) : Prop := {
  lf_heap : heap <> RT_NULL /\ exists ob, objs k !! heap = Some ob /\ has_type RT_Object_Class_MemHeap ob;
  lf_lock : lock heap <> RT_NULL /\ exists ob, objs k !! lock heap = Some ob /\ has_type RT_Object_Class_Semaphore ob;
  lf_value : sems k !! lock heap = Some {| sem_value := 1 |};
  lf_waiters : queue k (QSuspend (lock heap)) = [];
}.
Definition locked (heap : Z) (k : kstate) : kstate := set_sems (<[lock heap := {| sem_value := 0 |}]>) k.
Lemma on_kernel_run {A} (m : K A) s a k : m (ks s) = Ok (a, k) -> on_kernel m s = Ok (a, set_ks k s).
Proof. unfold on_kernel. by intros ->. Qed.
Lemma assert_memheap_run heap s : lock_free (ks s) heap -> assert_memheap heap s = Ok (tt, s).
Proof.
  intros [[Hnn (ob & Hob & Hty)] _ _ _]. unfold assert_memheap.
  erewrite bind_run; [cbv beta|by apply assert_nonnull_run].
  rewrite (on_kernel_run _ _ tt (ks s)) by (by eapply assert_type_run). by destruct s.
Qed.
Lemma take_lock_run heap s : lock_free (ks s) heap ->
  take_lock heap s = Ok (RT_EOK, set_ks (locked heap (ks s)) s).
Proof.
  intros [_ [Hnn (ob & Hob & Hty)] Hv _]. unfold take_lock.
  erewrite bind_run; [cbv beta|apply on_kernel_run]. 
  2: { unfold rt_sem_take. erewrite bind_run; [cbv beta|by eapply assert_object_run].
    erewrite bind_run; [cbv beta|by apply get_sem_run]. cbn [sem_value]. change (0 <? 1) with true. cbv iota.
    erewrite bind_run; [cbv beta|reflexivity]. reflexivity. }
  reflexivity.
Qed.
Lemma release_lock_run heap k s : lock_free k heap -> ks s = locked heap k ->
  release_lock heap s = Ok (tt, set_ks k s).
Proof.
  intros [_ [Hnn (ob & Hob & Hty)] Hv Hq] Ek. unfold release_lock.
  erewrite bind_run; [cbv beta; reflexivity|apply on_kernel_run]. rewrite Ek.
  unfold rt_sem_release. erewrite bind_run; [cbv beta|by eapply assert_object_run].
  erewrite bind_run; [cbv beta|apply has_waiter_run].
  change (queue (locked heap k) ?q) with (queue k q). rewrite Hq, bool_decide_eq_true_2 by done. cbn [negb].
  erewrite bind_run; [cbv beta|apply get_sem_run; apply lookup_insert_eq]. cbn [sem_value].
  change (0 <? RT_SEM_VALUE_MAX) with true. cbv iota. erewrite bind_run; [cbv beta|reflexivity].
  unfold ret. apply ok_ext. apply kstate_ext; try reflexivity. cbn. rewrite insert_insert_eq. by apply insert_id.
Qed.

(** ** Inserting and removing blocks *)
Lemma insert_block_run heap a n q it s :
  items s !! a = Some it -> item_next it = q -> is_Some (items s !! q) -> n <> a -> n <> q ->
  insert_block heap a n s = Ok (tt, set_items (with_block heap a n q (items s)) s).
Proof.
  intros Ha Hq Hs Hna Hnq. unfold insert_block. erewrite bind_run; [cbv beta|reflexivity].
  erewrite bind_run; [cbv beta|apply upd_item_run; cbn; rewrite lookup_insert_eq; by eexists].
  rewrite bind_assoc. erewrite bind_run; [cbv beta|apply get_item_run; cbn; rewrite lookup_alter_ne, lookup_insert_ne by done; exact Ha].
  erewrite bind_run; [cbv beta|apply upd_item_run; cbn; rewrite lookup_alter_eq, lookup_insert_eq; by eexists].
  rewrite bind_assoc. erewrite bind_run; [cbv beta|apply get_item_run; cbn; rewrite !lookup_alter_ne, lookup_insert_ne by done; exact Ha].
  rewrite Hq. erewrite bind_run; [cbv beta|apply upd_item_run; cbn; by rewrite !lookup_alter_ne, lookup_insert_ne].
  rewrite upd_item_run.
  2: { cbn. apply alter_some. rewrite !lookup_alter_ne, lookup_insert_ne by done. by eexists. }
  assert (E : alter (with_item_next q) n (alter (with_item_prev a) n (<[n := fresh_item RT_MEMHEAP_MAGIC heap]> (items s)))
    = <[n := with_item_next q (with_item_prev a (fresh_item RT_MEMHEAP_MAGIC heap))]> (items s)).
  { apply map_eq. intros x. rewrite !lookup_alter, !lookup_insert. repeat case_decide; by subst. }
  cbn. rewrite E. reflexivity.
Qed.
Lemma fnodes_with_block heap a n q its :
  fnodes (with_block heap a n q its) = <[n := {| next := RT_NULL; prev := RT_NULL |}]> (fnodes its).
Proof. unfold with_block. rewrite !fnodes_other by done. unfold fnodes. by rewrite fmap_insert. Qed.
Lemma with_block_other heap a n q its x : x <> a -> x <> n -> x <> q -> with_block heap a n q its !! x = its !! x.
Proof. intros. unfold with_block. by rewrite !lookup_alter_ne, lookup_insert_ne. Qed.
Lemma relinked_seg xs its its' heap start prev p l fin :
  relinked xs its its' -> seg its heap start prev p l fin -> seg its' heap start prev p l fin.
Proof. intros [Hr _] H. eapply mseg_frame; [exact H|]. intros a it _. apply Hr. Qed.
Lemma ring_insert_fresh its its' hd ns n nd :
  fnodes its' = <[n := nd]> (fnodes its) -> n ∉ hd :: ns -> ring (fnodes its) hd ns -> ring (fnodes its') hd ns.
Proof.
  intros E Hn Hr. eapply ring_frame; [exact Hr|]. intros x Hx. rewrite E, lookup_insert_ne; [done|]. by intros ->.
Qed.

(** marking a block that is not on the free list, as [clear_free] and the
    change of its magic do *)
Lemma clear_free_run a s : is_Some (items s !! a) ->
  clear_free a s = Ok (tt, set_items (alter (with_prev_free RT_NULL) a (alter (with_next_free RT_NULL) a (items s))) s).
Proof.
  intros Ha. unfold clear_free. erewrite bind_run; [cbv beta|by apply upd_item_run].
  by rewrite upd_item_run by (cbn; by apply alter_some).
Qed.
Lemma ring_alter_off f a its hd ns : a ∉ hd :: ns -> ring (fnodes its) hd ns -> ring (fnodes (alter f a its)) hd ns.
Proof.
  intros Ha Hr. eapply ring_frame; [exact Hr|]. intros x Hx. rewrite !fnodes_lookup.
  rewrite lookup_alter_ne; [done|]. by intros ->.
Qed.

(** a block leaves the free list *)
Lemma unlink_run a hd f f1 f2 b its :
  mb_addr b = a -> ring (fnodes its) hd (mb_addr <$> f) -> f = f1 ++ b :: f2 ->
  lremove a (mb_addr <$> f) = mb_addr <$> (f1 ++ f2) ->
  a ∉ hd :: (mb_addr <$> (f1 ++ f2)) ->
  exists its', (forall s, items s = its -> (free_list_remove a;; clear_free a) s = Ok (tt, set_items its' s)) /\
    ring (fnodes its') hd (mb_addr <$> (f1 ++ f2)) /\ relinked (hd :: (mb_addr <$> f)) its its'.
Proof.
  intros Ea Hr Ef El Hn. assert (Ha : a ∈ mb_addr <$> f).
  { rewrite Ef, fmap_app. apply elem_of_app. right. cbn. rewrite Ea. left. }
  destruct (free_list_remove_run its hd (mb_addr <$> f) a Hr Ha) as (its1 & Hrun & Hr1 & Hl1).
  rewrite El in Hr1. pose proof Hl1 as [Hsb _]. destruct (ring_item _ _ _ a Hr ltac:(by right)) as [it Hit].
  destruct (Hsb a it Hit) as (it1 & Hit1 & _).
  eexists. split; [|split].
  - intros s Es. erewrite bind_run; [cbv beta|by apply Hrun]. rewrite clear_free_run by (cbn; by eexists).
    cbn [items set_items]. reflexivity.
  - apply ring_alter_off; [done|]. by apply ring_alter_off.
  - cbn. apply relinked_alter; [by right|done|]. apply relinked_alter; [by right|done|done].
Qed.

(** * rt_memheap_alloc *)
Lemma relinked_outside heap h f its its' x :
  relinked (free_header heap :: (mb_addr <$> f)) its its' ->
  (forall b, b ∈ f -> start_addr h <= mb_addr b <= tailer h) ->
  x <> free_header heap -> ~ (start_addr h <= x <= tailer h) -> its' !! x = its !! x.
Proof.
  intros [_ Hl] Hf Hx Hr. apply Hl. intros [|Hin]%elem_of_cons; [done|].
  apply list_elem_of_fmap in Hin as (b & -> & Hb). by apply Hr, Hf.
Qed.

(** what is left of a free block when [size] bytes of it are taken *)
Definition taken (size : Z) (b : mblk) : list mblk :=
  if size + 44 <=? mb_size b then [mark true (head_of size b); rest_of size b] else [mark true b].
Definition left_over (size : Z) (b : mblk) : list mblk :=
  if size + 44 <=? mb_size b then [rest_of size b] else [].

Lemma free_bytes_at pre b suf : free_bytes (pre ++ b :: suf) =
  free_bytes pre + (if mb_used b then 0 else mb_size b) + free_bytes suf.
Proof. rewrite free_bytes_app. cbn. lia. Qed.
Lemma taken_lists size b pre suf f1 f2 :
  mb_used b = false -> normal (pre ++ b :: suf) -> f1 ++ b :: f2 ≡ₚ free_blocks (pre ++ b :: suf) ->
  normal (pre ++ taken size b ++ suf) /\
  left_over size b ++ f1 ++ f2 ≡ₚ free_blocks (pre ++ taken size b ++ suf) /\
  free_bytes (pre ++ taken size b ++ suf) =
    free_bytes (pre ++ b :: suf) - (if size + 44 <=? mb_size b then size + 32 else mb_size b).
Proof.
  intros Hu Hn Hp. apply mnormal_app in Hn as (N1 & N2 & N3).
  rewrite free_blocks_app, free_blocks_cons, Hu in Hp.
  assert (Hp' : f1 ++ f2 ≡ₚ free_blocks pre ++ free_blocks suf).
  { rewrite <- !Permutation_middle in Hp. by apply Permutation_cons_inv in Hp. }
  assert (Hsuf : normal suf /\ forall c, head suf = Some c -> mb_used c = true).
  { destruct suf as [|c suf]; [done|]. destruct N2 as [[Hx|Hx] N2]; [congruence|]. split; [done|]. by intros ? [= <-]. }
  destruct Hsuf as [Ns Hs]. unfold taken, left_over. destruct (_ <=? _).
  - split_and!.
    + apply mnormal_app. split; [done|]. split; [|intros c d _ [= <-]; by right].
      cbn [app normal mark mb_used]. split; [by left|]. destruct suf as [|c suf]; [done|]. split; [right; by apply Hs|done].
    + rewrite free_blocks_app. cbn [app]. rewrite !free_blocks_cons. cbn. rewrite Hp'. by rewrite Permutation_middle.
    + rewrite !free_bytes_app. cbn. rewrite Hu. lia.
  - split_and!.
    + apply mnormal_app. split; [done|]. split; [|intros c d _ [= <-]; by right].
      cbn [app]. destruct suf as [|c suf]; [done|]. split; [by left|done].
    + rewrite free_blocks_app. cbn [app]. rewrite free_blocks_cons. cbn. by rewrite Hp'.
    + rewrite !free_bytes_app. cbn. rewrite Hu. lia.
Qed.

Section take.
Context (s : mstate) (heap : Z) (h : rt_memheap) (pre suf fs : list mblk) (b : mblk).
Hypothesis Hrep : heap_at s heap h (pre ++ b :: suf) fs.
Hypothesis Hb : b ∈ fs.

Lemma take_bounds : mb_used b = false /\ start_addr h <= mb_addr b /\ 0 < mb_size b /\ mb_end b <= tailer h /\
  tailer h + 32 <= 4294967296.
Proof.
  apply (ha_in _ _ _ _ _ Hrep) in Hb as [Hin Hu]. pose proof (ha_bounds _ _ _ _ _ Hrep b Hin).
  destruct (ha_range _ _ _ _ _ Hrep). unfold tailer in *. split; [done|]. lia.
Qed.
Lemma take_item : exists it, items s !! mb_addr b = Some it /\ item_next it = mb_end b /\
  item_magic it = mb_magic false /\ is_Some (items s !! mb_end b).
Proof.
  destruct take_bounds as [Hu _]. pose proof (ha_seg _ _ _ _ _ Hrep) as Hseg.
  apply seg_at in Hseg as (prev0 & _ & _ & (it & Hit & [_ Hm _ Hn]) & Hs).
  apply seg_first in Hs as (it' & Hit' & _). exists it. rewrite Hm, Hu. split_and!; [done..|by exists it'].
Qed.
Lemma fs_region c : c ∈ fs -> start_addr h <= mb_addr c <= tailer h.
Proof.
  intros [Hc _]%(ha_in _ _ _ _ _ Hrep). pose proof (ha_bounds _ _ _ _ _ Hrep c Hc). unfold mb_end in *. lia.
Qed.

(** the representation after the block has been taken *)
Lemma taken_rep f1 f2 size its3 h' s' :
  let a := mb_addr b in
  fs = f1 ++ b :: f2 ->
  seg its3 heap (start_addr h) (tailer h) (start_addr h)
    (pre ++ (if size + 44 <=? mb_size b then [head_of size b; rest_of size b] else [b]) ++ suf) (tailer h) ->
  ring (fnodes its3) (free_header heap) (mb_addr <$> left_over size b ++ f1 ++ f2) ->
  memheaps s' !! heap = Some h' -> start_addr h' = start_addr h -> pool_size h' = pool_size h ->
  free_list h' = free_list h ->
  available_size h' = available_size h - (if size + 44 <=? mb_size b then size + 32 else mb_size b) ->
  items s' = alter (fun it => with_item_magic (Z.lor (item_magic it) RT_MEMHEAP_USED) it) a its3 ->
  heap_at s' heap h' (pre ++ taken size b ++ suf) (left_over size b ++ f1 ++ f2).
Proof using Hrep Hb.
  intros a Ef Hseg Hr Hh E1 E2 E3 Ea Ei. destruct take_bounds as (Hu & Hb1 & Hb2 & Hb3 & _).
  pose proof Hrep as [_ G2 _ G4 _ G6 G7 G8 G9]. rewrite Ef in G6.
  destruct (taken_lists size b pre suf f1 f2 Hu G9 G6) as (L1 & L2 & L3).
  assert (Et : tailer h' = tailer h) by (unfold tailer; congruence).
  split; rewrite ?Et, ?E1, ?E2, ?E3, ?Ei; try done.
  - unfold taken. set (t := tailer h) in *. destruct (_ <=? _); cbn [app] in *.
    + refine (seg_mark heap (start_addr h) its3 t (start_addr h) pre (head_of size b) _ t true _ _ Hseg).
      cbn. rewrite Hu. by intros it ->.
    + apply seg_mark; [|exact Hseg]. rewrite Hu. by intros it ->.
  - rewrite fnodes_other by done. exact Hr.
  - rewrite Ea, L3, G8. done.
Qed.

Lemma take_fits : mb_size b <= available_size h < 4294967296.
Proof.
  pose proof Hrep as [_ _ G3 [G4 _] _ _ _ G8 _]. destruct take_bounds as (Hu & ? & ? & ? & ?).
  pose proof (free_bytes_nonneg _ _ _ _ _ _ _ G3). rewrite G8, free_bytes_at, Hu in *.
  apply mseg_app in G3 as (lst & q & P1%part_free_bytes & (_ & _ & _ & P2%free_bytes_nonneg)). lia.
Qed.

(** the links of the blocks and of the free list *)
Lemma take_split_run size : 0 < size -> size + 44 <= mb_size b ->
  let a := mb_addr b in let n := mb_addr b + 32 + size in
  exists f1 f2 its3, fs = f1 ++ b :: f2 /\
    (forall k : MH unit, (insert_block heap a n;; free_list_remove a;; clear_free a;; free_list_insert heap n;; k) s =
      k (set_items its3 s)) /\
    seg its3 heap (start_addr h) (tailer h) (start_addr h) (pre ++ [head_of size b; rest_of size b] ++ suf) (tailer h) /\
    ring (fnodes its3) (free_header heap) (mb_addr <$> [rest_of size b] ++ f1 ++ f2) /\
    forall x, x <> free_header heap -> ~ (start_addr h <= x <= tailer h) -> its3 !! x = items s !! x.
Proof using Hrep Hb.
  intros Hsz Hle a n. destruct take_bounds as (Hu & Hb1 & Hb2 & Hb3 & Hb4). destruct take_item as (it & Hit & Hnx & _ & Hq).
  pose proof Hrep as [G1 G2 G3 _ G5 _ G7 _ _]. pose proof fs_region as Hreg.
  destruct (ha_split _ _ _ _ _ Hrep b Hb) as (f1 & f2 & Ef & El & Hoff).
  assert (Hn : n ∉ free_header heap :: (mb_addr <$> fs)).
  { apply (ha_fresh _ _ _ _ _ Hrep b); [apply elem_of_app; right; left|]. unfold n, mb_end. clear -Hsz Hle. lia. }
  assert (Hn' : n ∉ free_header heap :: (mb_addr <$> f1 ++ f2)).
  { rewrite Ef, fmap_app, fmap_cons in Hn. rewrite fmap_app. set_solver. }
  assert (Hoff' : a ∉ free_header heap :: (mb_addr <$> f1 ++ f2)).
  { intros [E|]%elem_of_cons; [|done]. unfold a, mb_end in *. lia. }
  exists f1, f2. set (its1 := with_block heap a n (mb_end b) (items s)).
  destruct (unlink_run a (free_header heap) fs f1 f2 b its1) as (its2 & Hrun2 & Hr2 & Hl2); [done| |done..|].
  { eapply ring_insert_fresh; [apply fnodes_with_block|done|done]. }
  assert (Hs2 : is_Some (its2 !! n)).
  { destruct Hl2 as [Hsb _]. cbn in Hsb. assert (is_Some (its1 !! n)) as [itn Hin].
    { unfold its1, with_block. repeat apply alter_some. rewrite lookup_insert_eq. by eexists. }
    destruct (Hsb n itn Hin) as (it' & -> & _). by eexists. }
  destruct (free_list_insert_run (set_items its2 s) heap h (mb_addr <$> f1 ++ f2) n) as (its3 & Hrun3 & Hr3 & Hl3); 
    [done|by rewrite G2|by rewrite G2|done|].
  exists its3. split; [done|]. rewrite G2 in *. split_and!.
  - intros k. erewrite bind_run; [cbv beta|].
    2: { eapply insert_block_run; [exact Hit|exact Hnx|exact Hq|unfold n; lia|unfold n, mb_end; lia]. }
    rewrite <- bind_assoc. erewrite bind_run; [cbv beta|by apply Hrun2]. by erewrite bind_run; [|exact Hrun3].
  - eapply relinked_seg; [exact Hl3|]. eapply relinked_seg; [exact Hl2|]. cbn. apply seg_split; [done|lia|done].
  - exact Hr3.
  - intros x Hx Hx'. rewrite (relinked_outside heap h (rest_of size b :: f1 ++ f2) _ _ _ Hl3); [|..|done|done].
    + cbn. rewrite (relinked_outside heap h fs _ _ _ Hl2); [|done..]. cbn. unfold its1.
      apply with_block_other; unfold n, mb_end, a in *; lia.
    + intros c [->|Hc]%elem_of_cons; [cbn; unfold mb_end in *; lia|]. apply Hreg. rewrite Ef. set_solver.
Qed.
Lemma take_whole_run : let a := mb_addr b in
  exists f1 f2 its3, fs = f1 ++ b :: f2 /\
    (forall s1, items s1 = items s -> (free_list_remove a;; clear_free a) s1 = Ok (tt, set_items its3 s1)) /\
    seg its3 heap (start_addr h) (tailer h) (start_addr h) (pre ++ [b] ++ suf) (tailer h) /\
    ring (fnodes its3) (free_header heap) (mb_addr <$> f1 ++ f2) /\
    forall x, x <> free_header heap -> ~ (start_addr h <= x <= tailer h) -> its3 !! x = items s !! x.
Proof using Hrep Hb.
  intros a. destruct take_bounds as (Hu & Hb1 & Hb2 & Hb3 & Hb4). pose proof Hrep as [G1 G2 G3 _ G5 _ G7 _ _].
  destruct (ha_split _ _ _ _ _ Hrep b Hb) as (f1 & f2 & Ef & El & Hoff).
  destruct (unlink_run a (free_header heap) fs f1 f2 b (items s)) as (its2 & Hrun2 & Hr2 & Hl2); [done..| |].
  { intros [E|]%elem_of_cons; [|done]. unfold a, mb_end in *. lia. }
  exists f1, f2, its2. split_and!; [done|done| |done|].
  - eapply relinked_seg; [exact Hl2|]. exact G3.
  - intros x Hx Hx'. by apply (relinked_outside heap h fs _ _ _ Hl2); [apply fs_region|..].
Qed.


Lemma take_block_run size : 0 < size -> size <= mb_size b ->
  exists s' h' f1 f2, take_block heap (mb_addr b) (mb_size b) size s = Ok (tt, s') /\ confined s s' heap h h' /\
    fs = f1 ++ b :: f2 /\ heap_at s' heap h' (pre ++ taken size b ++ suf) (left_over size b ++ f1 ++ f2).
Proof using Hrep Hb.
  intros Hsz Hle. destruct take_bounds as (Hu & Hb1 & Hb2 & Hb3 & Hb4). pose proof take_fits as Hav.
  pose proof Hrep as [G1 G2 _ [G4 _] _ _ _ _ _]. unfold take_block.
  change (size + RT_MEMHEAP_SIZE + RT_MEMHEAP_MINIALLOC) with (size + 32 + 12).
  change (mb_addr b + size + RT_MEMHEAP_SIZE) with (mb_addr b + size + 32).
  rewrite u32_small by (unfold mb_end in *; lia). replace (size + 32 + 12) with (size + 44) by lia.
  destruct (size + 44 <=? mb_size b) eqn:E.
  - apply Z.leb_le in E as E'. destruct (take_split_run size Hsz E') as (f1 & f2 & its3 & Ef & Hrun & Hseg & Hr & Hout).
    rewrite u32_small by (unfold mb_end in *; lia). replace (mb_addr b + size + 32) with (mb_addr b + 32 + size) by lia.
    destruct (account_run heap h (- size - 32) (set_items its3 s) G1 ltac:(lia)) as (h' & Hac & E1 & E2 & E3 & E4).
    eexists _, h', f1, f2. split; [|split; [|split; [exact Ef|]]].
    + erewrite bind_run; [cbv beta|rewrite Hrun; exact Hac]. apply upd_item_run. cbn.
      apply seg_at in Hseg as (? & _ & _ & (it & Hit & _) & _). by eexists.
    + split; cbn.
      * done.
      * intros x Hx. by apply lookup_insert_ne.
      * intros x Hx Hx'. rewrite lookup_alter_ne by (unfold mb_end in *; lia). by apply Hout.
      * done.
    + eapply taken_rep; rewrite ?E; [exact Ef|exact Hseg| |cbn; apply lookup_insert_eq|done..|cbn; lia|reflexivity].
      unfold left_over. by rewrite E.
  - destruct (account_run heap h (- mb_size b) s G1 ltac:(lia)) as (h' & Hac & E1 & E2 & E3 & E4).
    destruct take_whole_run as (f1 & f2 & its3 & Ef & Hrun & Hseg & Hr & Hout).
    eexists _, h', f1, f2. split; [|split; [|split; [exact Ef|]]].
    + erewrite bind_run; [cbv beta|].
      2: { rewrite <- bind_assoc. erewrite bind_run; [cbv beta|exact Hac]. by apply Hrun. }
      apply upd_item_run. cbn. apply seg_at in Hseg as (? & _ & _ & (it & Hit & _) & _). by eexists.
    + split; cbn.
      * done.
      * intros x Hx. by apply lookup_insert_ne.
      * intros x Hx Hx'. rewrite lookup_alter_ne by (unfold mb_end in *; lia). by apply Hout.
      * done.
    + eapply taken_rep; rewrite ?E; [exact Ef|exact Hseg| |cbn; apply lookup_insert_eq|done..|cbn; lia|reflexivity].
      unfold left_over. by rewrite E.
Qed.
End take.

(** ** The search *)
(** what an item of the representation says *)
Lemma ha_item s heap h l fs b : heap_at s heap h l fs -> b ∈ l ->
  exists it, items s !! mb_addr b = Some it /\ item_next it = mb_end b /\ item_magic it = mb_magic (mb_used b) /\
    pool_ptr it = heap /\ MEMITEM_SIZE (mb_addr b) it = mb_size b.
Proof.
  intros Hrep Hb. pose proof (ha_bounds _ _ _ _ _ Hrep b Hb) as Hbd. destruct (ha_range _ _ _ _ _ Hrep) as [R1 R2].
  apply list_elem_of_split in Hb as (pre & suf & ->). pose proof (ha_seg _ _ _ _ _ Hrep) as Hseg.
  apply seg_at in Hseg as (prev0 & _ & _ & (it & Hit & [I1 I2 _ I4]) & _). exists it. split_and!; [done..|].
  unfold MEMITEM_SIZE. rewrite I4. unfold tailer, mb_end, RT_MEMHEAP_SIZE in *. change (RT_ALIGN 24 RT_ALIGN_SIZE) with 32.
  rewrite u32_small; lia.
Qed.
Definition fits (size : Z) (b : mblk) : bool := size <=? mb_size b.
Lemma search_loop_run s heap h l fs size : heap_at s heap h l fs ->
  forall f2 f1 fsz fuel, fs = f1 ++ f2 -> fsz < size -> (length f2 < fuel)%nat ->
  exists r, search_loop (S fuel) (free_header heap) size (default (free_header heap) (head (mb_addr <$> f2))) fsz s = Ok (r, s) /\
    match List.find (fits size) f2 with
    | Some b => r = (mb_addr b, mb_size b)
    | None => r.2 < size
    end.
Proof.
  intros Hrep. induction f2 as [|b f2 IH]; intros f1 fsz fuel Ef Hf Hfuel.
  - cbn. rewrite Z.eqb_refl. cbn. by eexists.
  - assert (Hb : b ∈ fs) by (rewrite Ef; apply elem_of_app; right; left).
    pose proof Hb as [Hbl _]%(ha_in _ _ _ _ _ Hrep). destruct (ha_item _ _ _ _ _ _ Hrep Hbl) as (it & Hit & _ & _ & _ & Hsz).
    pose proof (ha_bounds _ _ _ _ _ Hrep b Hbl) as Hbd. pose proof (ha_header _ _ _ _ _ Hrep) as Hh.
    destruct fuel as [|fuel]; [cbn in Hfuel; lia|].
    cbn [head fmap list_fmap default from_option id]. remember (S fuel) as k eqn:Ek.
    cbn [search_loop].
    rewrite (proj2 (Z.eqb_neq _ _)) by (unfold mb_end in *; lia). rewrite (proj2 (Z.ltb_lt _ _)) by done. cbn [negb andb].
    erewrite bind_run; [cbv beta zeta|by apply get_item_run]. rewrite Hsz. cbn [List.find]. unfold fits at 1.
    destruct (size <=? mb_size b) eqn:E.
    + rewrite (proj2 (Z.ltb_ge _ _)) by lia. subst k. cbn [search_loop]. rewrite (proj2 (Z.ltb_ge (mb_size b) _)) by lia.
      rewrite andb_false_r. by eexists.
    + rewrite (proj2 (Z.ltb_lt _ _)) by lia.
      assert (Hnx : next_free it = default (free_header heap) (head (mb_addr <$> f2))).
      { pose proof (ha_free _ _ _ _ _ Hrep) as Hr. rewrite Ef, fmap_app, fmap_cons in Hr.
        apply ring_rotate, ring_first in Hr. destruct (fnodes_nxt _ _ _ Hit) as [Hn _]. rewrite Hr in Hn. injection Hn as <-.
        by destruct f2. }
      rewrite Hnx, Ek. apply (IH (f1 ++ [b])); [by rewrite <- app_assoc|lia|cbn in Hfuel; lia].
Qed.
Lemma ring_length its hd ns : ring (fnodes its) hd ns -> (length ns < base.size its)%nat.
Proof.
  intros Hr. pose proof Hr as [Hnd _]. rewrite <- size_dom, <- fnodes_dom.
  change (length ns) with (pred (length (hd :: ns))). rewrite <- (size_list_to_set (C := gset Z)) by done.
  assert (list_to_set (hd :: ns) ⊆@{gset Z} dom (fnodes its)) as Hs%subseteq_size.
  { intros x Hx%elem_of_list_to_set. by eapply ring_dom. }
  rewrite size_list_to_set in Hs |- * by done. cbn [length pred] in *. lia.
Qed.

(** ** The whole operation *)
Lemma heap_at_ks k s heap h l fs : heap_at s heap h l fs -> heap_at (set_ks k s) heap h l fs.
Proof. by intros []. Qed.
Lemma request_pos size : 0 < request size.
Proof. unfold request, RT_MEMHEAP_MINIALLOC. case_match eqn:E; lia. Qed.

(** C20: allocation from a memheap, as an operation on its list of blocks: when
    the aligned request is less than the free bytes and a block of the free
    list is large enough, the first such block is taken (its end beyond the
    request going back to the free list as a block of its own when there is
    room for an item and the least payload), and the address behind its header
    is returned; otherwise the result is null and no state has changed.  The
    representation holds again, and the kernel's state (the lock taken and
    released) and every other heap are as before. *)
Theorem rt_memheap_alloc_spec s heap h l fs size :
  heap_at s heap h l fs -> lock_free (ks s) heap ->
  match (if request size <? available_size h then List.find (fits (request size)) fs else None) with
  | None => rt_memheap_alloc heap size s = Ok (RT_NULL, s)
  | Some b => exists s' h' pre suf f1 f2,
      rt_memheap_alloc heap size s = Ok (mb_addr b + 32, s') /\ confined s s' heap h h' /\
      l = pre ++ b :: suf /\ fs = f1 ++ b :: f2 /\
      heap_at s' heap h' (pre ++ taken (request size) b ++ suf) (left_over (request size) b ++ f1 ++ f2)
  end.
Proof.
  intros Hrep Hlk. pose proof (request_pos size) as Hpos. unfold rt_memheap_alloc.
  erewrite bind_run; [cbv beta zeta|by apply assert_memheap_run].
  erewrite bind_run; [cbv beta|by apply get_heap_run, Hrep]. revert Hpos. generalize (request size). clear size. intros size Hpos.
  destruct (size <? available_size h) eqn:Eav; [|reflexivity].
  set (s1 := set_ks (locked heap (ks s)) s). assert (Hrep1 : heap_at s1 heap h l fs) by by apply heap_at_ks.
  pose proof Hrep1 as [G1 G2 _ _ G5 _ _ _ _].
  destruct (ring_item _ _ _ (free_header heap) G5 ltac:(left)) as [fl Hfl].
  assert (Hnx : next_free fl = default (free_header heap) (head (mb_addr <$> fs))).
  { destruct (fnodes_nxt _ _ _ Hfl) as [Hn _]. rewrite (ring_first _ _ _ G5) in Hn. by injection Hn as <-. }
  destruct (search_loop_run s1 heap h l fs size Hrep1 fs [] 0 (base.size (items s1)) eq_refl Hpos) as (r & Hrun & Hr).
  { pose proof (ring_length _ _ _ G5) as Hlen. by rewrite length_fmap in Hlen. }
  destruct (List.find (fits size) fs) as [b|] eqn:Efind.
  - apply List.find_some in Efind as [Hb%list_elem_of_In Hfit%Z.leb_le]. subst r.
    pose proof Hb as [Hbl _]%(ha_in _ _ _ _ _ Hrep). apply list_elem_of_split in Hbl as (pre & suf & ->).
    destruct (take_block_run s1 heap h pre suf fs b Hrep1 Hb size Hpos Hfit) as (s2 & h' & f1 & f2 & Hrun2 & Hcf & Ef & Hrep2).
    destruct (take_bounds s1 heap h pre suf fs b Hrep1 Hb) as (_ & Hb1 & Hb2 & Hb3 & Hb4).
    exists (set_ks (ks s) s2), h', pre, suf, f1, f2. split; [|split; [|split; [done|split; [done|by apply heap_at_ks]]]].
    + erewrite bind_run; [cbv beta|by apply take_lock_run]. change (negb (RT_EOK =? RT_EOK)) with false. cbv iota. fold s1.
      erewrite bind_run; [cbv beta|by apply get_heap_run]. rewrite G2. erewrite bind_run; [cbv beta|by apply get_item_run].
      erewrite bind_run; [cbv beta|reflexivity]. rewrite Hnx. erewrite bind_run; [cbv beta|exact Hrun]. cbn [fst snd].
      rewrite (proj2 (Z.leb_le _ _)) by done. erewrite bind_run; [cbv beta|exact Hrun2].
      erewrite bind_run; [cbv beta|apply (release_lock_run heap (ks s)); [done|by rewrite (cf_kernel _ _ _ _ _ Hcf)]].
      change RT_MEMHEAP_SIZE with 32. rewrite u32_small by (destruct (ha_range _ _ _ _ _ Hrep); unfold mb_end in *; lia). done.
    + by destruct Hcf.
  - erewrite bind_run; [cbv beta|by apply take_lock_run]. change (negb (RT_EOK =? RT_EOK)) with false. cbv iota. fold s1.
    erewrite bind_run; [cbv beta|by apply get_heap_run]. rewrite G2. erewrite bind_run; [cbv beta|by apply get_item_run].
    erewrite bind_run; [cbv beta|reflexivity]. rewrite Hnx. erewrite bind_run; [cbv beta|exact Hrun].
    rewrite (proj2 (Z.leb_gt _ _)) by done. erewrite bind_run; [cbv beta|by apply (release_lock_run heap (ks s))].
    unfold ret. do 2 f_equal. by destruct s.
Qed.
