(* ===== verification/MemHeapFree.v ===== *)
(** Releasing memheap blocks: the steps of which rt_memheap_free is made, each
    with what it does to the list of blocks and to the free list, and the
    correctness of the whole operation: the block becomes free and is joined
    with its free neighbours, which is the list with all free neighbours joined
    (coalesce), so that no two free blocks are ever next to each other. *)
From S2P Require Import Prelude RtList KService Mem CpuPort Kernel Sched Object Timer Thread Ipc MemHeap MemHeapRep MemHeapSpec.

(** * Steps *)
(** in the middle of an operation: blocks in the pool and addresses on the free
    list, which need not agree *)
Record blocks_at (s : mstate) (heap : Z) (h : rt_memheap) (l : list mblk) (xs : list Z) : Prop := {
  ba_heap : memheaps s !! heap = Some h;
  ba_head : free_list h = free_header heap;
  ba_seg : seg (items s) heap (start_addr h) (tailer h) (start_addr h) l (tailer h);
  ba_range : 0 < start_addr h /\ start_addr h + pool_size h <= 4294967296;
  ba_ring : ring (fnodes (items s)) (free_header heap) xs;
  ba_region : forall x, x ∈ xs -> start_addr h <= x <= tailer h;
  ba_header : free_header heap < start_addr h \/ tailer h < free_header heap;
}.
Lemma heap_blocks s heap h l fs : heap_at s heap h l fs -> blocks_at s heap h l (mb_addr <$> fs).
Proof.
  intros Hrep. pose proof Hrep as []. split; try done.
  intros x (b & -> & [Hb _]%(ha_in _ _ _ _ _ Hrep))%list_elem_of_fmap. pose proof (ha_bounds _ _ _ _ _ Hrep b Hb).
  unfold mb_end in *. lia.
Qed.
Lemma blocks_heap s heap h l xs : blocks_at s heap h l xs -> xs ≡ₚ mb_addr <$> free_blocks l ->
  available_size h = free_bytes l -> normal l -> exists fs, mb_addr <$> fs = xs /\ heap_at s heap h l fs.
Proof.
  intros [] Hp Ha Hn. apply Permutation_map_inv in Hp as (fs & -> & Hp). exists fs. split; [done|]. split; done.
Qed.

Lemma confined_refl s heap h : confined s s heap h h.
Proof. done. Qed.
Lemma confined_trans s s1 s2 heap h h1 h2 :
  confined s s1 heap h h1 -> confined s1 s2 heap h1 h2 -> confined s s2 heap h h2.
Proof.
  intros [K1 M1 I1 [P1 Q1]] [K2 M2 I2 [P2 Q2]]. split; [congruence|..].
  - intros a Ha. rewrite M2, M1; done.
  - intros a Ha Hr. rewrite I2, I1; [done|done|done|done|]. unfold tailer in *. congruence.
  - split; congruence.
Qed.

Section steps.
Context (heap : Z) (h : rt_memheap).

(** changing the items inside of the pool, and not the free list *)
Lemma blocks_items s l l' xs its' :
  blocks_at s heap h l xs -> ring (fnodes its') (free_header heap) xs ->
  seg its' heap (start_addr h) (tailer h) (start_addr h) l' (tailer h) ->
  (forall x, ~ (start_addr h <= x <= tailer h) -> its' !! x = items s !! x) ->
  blocks_at (set_items its' s) heap h l' xs /\ confined s (set_items its' s) heap h h.
Proof. intros [] Hr Hs Ho. split; split; try done. intros a _ Ha. by apply Ho. Qed.
(** a block in the middle lies in the pool *)
Lemma blocks_bounds s l xs b : blocks_at s heap h l xs -> b ∈ l ->
  start_addr h <= mb_addr b /\ 0 < mb_size b /\ mb_end b <= tailer h /\ tailer h + 32 <= 4294967296 /\ 0 < start_addr h.
Proof.
  intros [] Hb. pose proof (mseg_bounds _ _ _ _ _ _ _ _ ba_seg0 Hb). unfold tailer in *. lia.
Qed.
Lemma blocks_item s pre b suf xs : blocks_at s heap h (pre ++ b :: suf) xs ->
  exists it, items s !! mb_addr b = Some it /\
    item_is heap (mb_used b) (match last pre with Some p => mb_addr p | None => tailer h end) (mb_end b) it /\
    MEMITEM_SIZE (mb_addr b) it = mb_size b.
Proof.
  intros Hb. pose proof (blocks_bounds _ _ _ b Hb ltac:(apply elem_of_app; right; left)) as Hbd.
  destruct Hb as [_ _ Hs _ _ _ _]. apply seg_at in Hs as (prev0 & Hp & _ & (it & Hit & Hi) & _). exists it. split; [done|].
  assert (prev0 = match last pre with Some p => mb_addr p | None => tailer h end) as <-.
  { destruct pre as [|p pre _] using rev_ind; [by destruct Hp|]. rewrite last_snoc.
    apply part_app in Hp as (m & r & _ & (<- & _ & _ & (_ & ->))). done. }
  split; [done|]. destruct Hi as [_ _ _ I4]. unfold MEMITEM_SIZE. rewrite I4. unfold mb_end, RT_MEMHEAP_SIZE in *.
  change (RT_ALIGN 24 RT_ALIGN_SIZE) with 32. rewrite u32_small; lia.
Qed.
Lemma blocks_mem s l xs b : blocks_at s heap h l xs -> b ∈ l ->
  start_addr h <= mb_addr b <= tailer h /\ is_Some (items s !! mb_addr b).
Proof.
  intros Hb Hin. pose proof (blocks_bounds _ _ _ b Hb Hin). unfold mb_end in *. split; [lia|].
  apply list_elem_of_split in Hin as (pre & suf & ->). destruct (blocks_item _ _ _ _ _ Hb) as (it & -> & _). by eexists.
Qed.
(** the item behind a block *)
Lemma blocks_next s pre b suf xs : blocks_at s heap h (pre ++ b :: suf) xs ->
  exists it, items s !! mb_end b = Some it /\ pool_ptr it = heap /\ item_prev it = mb_addr b /\
    item_magic it = mb_magic (match suf with [] => true | c :: _ => mb_used c end).
Proof.
  intros [_ _ Hs _ _ _ _]. apply seg_at in Hs as (prev0 & _ & _ & _ & Hs). by apply seg_first in Hs.
Qed.

Lemma mark_free_run s pre b suf xs : blocks_at s heap h (pre ++ b :: suf) xs -> mb_used b = true ->
  exists s', upd_item (mb_addr b) (fun it => with_item_magic (Z.land (item_magic it) (Z.lnot RT_MEMHEAP_USED)) it) s = Ok (tt, s') /\
    blocks_at s' heap h (pre ++ mark false b :: suf) xs /\ confined s s' heap h h.
Proof.
  intros Hb Hu. pose proof (blocks_bounds _ _ _ b Hb ltac:(apply elem_of_app; right; left)) as Hbd.
  destruct (blocks_item _ _ _ _ _ Hb) as (it & Hit & _). eexists. split; [apply upd_item_run; by eexists|].
  eapply blocks_items; [exact Hb| | |].
  - rewrite fnodes_other by done. apply Hb.
  - apply seg_mark; [|apply Hb]. rewrite Hu. by intros ? ->.
  - intros x Hx. apply lookup_alter_ne. unfold mb_end in *. lia.
Qed.

Lemma mblocks_join s pre p c suf xs : blocks_at s heap h (pre ++ p :: c :: suf) xs ->
  let s' := set_items (without_block (mb_addr p) (mb_end c) (items s)) s in
  blocks_at s' heap h (pre ++ join p c :: suf) xs /\ confined s s' heap h h.
Proof.
  intros Hb s'. pose proof (blocks_bounds _ _ _ p Hb ltac:(apply elem_of_app; right; left)) as Hbd.
  pose proof (blocks_bounds _ _ _ c Hb ltac:(apply elem_of_app; right; right; left)) as Hbc.
  eapply blocks_items; [exact Hb| | |].
  - unfold without_block. rewrite !fnodes_other by done. apply Hb.
  - apply seg_join, Hb.
  - intros x Hx. unfold without_block. rewrite !lookup_alter_ne; unfold mb_end in *; (done || lia).
Qed.
Lemma mblocks_split s pre b suf xs size :
  0 < size -> size + 32 < mb_size b -> blocks_at s heap h (pre ++ b :: suf) xs ->
  mb_addr b + 32 + size ∉ free_header heap :: xs ->
  exists s', insert_block heap (mb_addr b) (mb_addr b + 32 + size) s = Ok (tt, s') /\
    blocks_at s' heap h (pre ++ head_of size b :: rest_of size b :: suf) xs /\ confined s s' heap h h.
Proof.
  intros Hsz Hlt Hb Hn. pose proof (blocks_bounds _ _ _ b Hb ltac:(apply elem_of_app; right; left)) as Hbd.
  destruct (blocks_item _ _ _ _ _ Hb) as (it & Hit & [_ _ _ I4] & _). destruct (blocks_next _ _ _ _ _ Hb) as (nx & Hnx & _).
  eexists. split.
  - eapply insert_block_run; [exact Hit|exact I4|by eexists|unfold mb_end in *; lia..].
  - eapply blocks_items; [exact Hb| | |].
    + eapply ring_insert_fresh; [apply fnodes_with_block|done|apply Hb].
    + apply seg_split; [done|done|apply Hb].
    + intros x Hx. apply with_block_other; unfold mb_end in *; lia.
Qed.

Lemma avail_run s l xs d : blocks_at s heap h l xs ->
  let h' := with_available (u32 (available_size h + d)) h in
  exists s', add_available heap d s = Ok (tt, s') /\ items s' = items s /\ blocks_at s' heap h' l xs /\ confined s s' heap h h'.
Proof.
  intros [] h'. eexists. split; [by apply add_available_run|]. split; [done|]. split; split; try done; cbn.
  - apply lookup_insert_eq.
  - intros a Ha. by apply lookup_insert_ne.
Qed.
Lemma remove_run s l xs x : blocks_at s heap h l xs -> x ∈ xs ->
  exists s', free_list_remove x s = Ok (tt, s') /\ blocks_at s' heap h l (lremove x xs) /\ confined s s' heap h h.
Proof.
  intros [G1 G2 G3 G4 G5 G6 G7] Hx. destruct (free_list_remove_run _ _ _ _ G5 Hx) as (its' & Hrun & Hr & Hl).
  eexists. split; [by apply Hrun|]. split; split; try done.
  - by eapply relinked_seg.
  - intros y [Hy _]%elem_of_lremove. by apply G6.
  - intros a Ha Ha'. destruct Hl as [_ Hl]. apply Hl. intros [->|Hin]%elem_of_cons; [done|]. by apply Ha', G6.
Qed.
Lemma insert_run s l xs x : blocks_at s heap h l xs -> x ∉ xs -> start_addr h <= x <= tailer h -> is_Some (items s !! x) ->
  exists s', free_list_insert heap x s = Ok (tt, s') /\ blocks_at s' heap h l (x :: xs) /\ confined s s' heap h h.
Proof.
  intros [G1 G2 G3 G4 G5 G6 G7] Hx Hrg Hs.
  destruct (free_list_insert_run s heap h xs x G1) as (its' & Hrun & Hr & Hl); [by rewrite G2| |done|].
  { rewrite G2. intros [E|]%elem_of_cons; [lia|done]. }
  rewrite G2 in *. eexists. split; [by apply Hrun|].
  assert (Hin : forall y, y ∈ x :: xs -> start_addr h <= y <= tailer h) by (intros y [->|]%elem_of_cons; [done|by apply G6]).
  split; split; try done.
  - by eapply relinked_seg.
  - intros a Ha Ha'. destruct Hl as [_ Hl]. apply Hl. intros [->|Hy]%elem_of_cons; [done|]. by apply Ha', Hin.
Qed.
End steps.

(** * Joining free neighbours *)
Definition cons_block (b : mblk) (l : list mblk) : list mblk :=
  match l with
  | c :: r => if (negb (mb_used b) && negb (mb_used c))%bool then join b c :: r else b :: l
  | [] => [b]
  end.
Definition coalesce (l : list mblk) : list mblk := foldr cons_block [] l.
(** the free block at the head of a list, and what is behind it *)
Definition free_head (l : list mblk) : option mblk :=
  match l with c :: _ => if mb_used c then None else Some c | [] => None end.

Lemma coalesce_app l k : coalesce (l ++ k) = foldr cons_block (coalesce k) l.
Proof. unfold coalesce. by rewrite foldr_app. Qed.
Lemma foldr_cons_block l k :
  normal l -> (forall b c, last l = Some b -> head k = Some c -> mb_used b = true \/ mb_used c = true) ->
  foldr cons_block k l = l ++ k.
Proof.
  induction l as [|b l IH]; intros Hn Hj; [done|]. cbn [foldr app]. rewrite IH.
  - assert (Hu : forall c, head (l ++ k) = Some c -> mb_used b = true \/ mb_used c = true).
    { destruct l as [|c l]; [by intros c; apply Hj|]. intros ? [= <-]. by destruct Hn. }
    unfold cons_block. destruct (l ++ k) as [|c r]; [done|]. by destruct (Hu c eq_refl) as [-> | ->]; rewrite ?andb_false_r.
  - destruct l; [done|by destruct Hn].
  - intros d c Hd. apply Hj. by destruct l.
Qed.
Lemma coalesce_normal l : normal l -> coalesce l = l.
Proof. intros Hn. unfold coalesce. rewrite foldr_cons_block, app_nil_r; done. Qed.

(** a free block behind [l], whose last block is used, and in front of [k] *)
Lemma cons_block_addr b k : exists b', head (cons_block b k) = Some b' /\ mb_addr b' = mb_addr b /\ mb_used b' = mb_used b.
Proof. unfold cons_block. destruct k as [|c r]; [by exists b|]. destruct (_ && _)%bool; [by exists (join b c)|by exists b]. Qed.
Lemma cons_block_normal l b k :
  normal l -> normal k -> (forall c, last l = Some c -> mb_used c = true) -> mb_used b = false ->
  normal (l ++ cons_block b k).
Proof.
  intros Hl Hk Hlast Hb. apply mnormal_app. split; [done|]. split; [|intros c d Hc _; left; by apply Hlast].
  unfold cons_block. rewrite Hb. destruct k as [|c k]; [done|]. destruct (mb_used c) eqn:Ec; cbn [negb andb].
  - split; [by right|done].
  - destruct k as [|d k]; [done|]. destruct Hk as [[|Hd] Hk]; [congruence|]. split; [by right|done].
Qed.
(** its free blocks and bytes *)
Lemma cons_block_free b k : mb_used b = false ->
  mb_addr <$> free_blocks (cons_block b k) = mb_addr b :: (mb_addr <$> free_blocks (match free_head k with Some _ => tail k | None => k end)) /\
  free_bytes (cons_block b k) = mb_size b + free_bytes k + (match free_head k with Some _ => 32 | None => 0 end).
Proof.
  intros Hb. unfold cons_block, free_head. rewrite Hb. destruct k as [|c k]; [rewrite free_blocks_cons, Hb; cbn; rewrite Hb; split; (done || lia)|].
  destruct (mb_used c) eqn:Ec; cbn [negb andb]; rewrite free_blocks_cons; cbn; rewrite Hb, ?Ec; cbn; split; (done || lia).
Qed.

Lemma lremove_perm (x : Z) (xs ys : list Z) : NoDup xs -> xs ≡ₚ x :: ys -> lremove x xs ≡ₚ ys.
Proof.
  intros Hnd Hp. rewrite Hp in Hnd. apply NoDup_cons in Hnd as [Hn _].
  assert (lremove x xs ≡ₚ lremove x (x :: ys)) as -> by (unfold lremove; by rewrite Hp). by rewrite lremove_cons_eq.
Qed.
Lemma is_used_magic it u : item_magic it = mb_magic u -> RT_MEMHEAP_IS_USED it = u.
Proof. unfold RT_MEMHEAP_IS_USED. intros ->. by destruct u. Qed.
Lemma u32_add x y : u32 (u32 x + y) = u32 (x + y).
Proof. unfold u32. by rewrite Zplus_mod_idemp_l. Qed.

(** * Merging *)
(** the block [b] behind [pre], joined with the last block if that is free *)
Definition joined_left (pre : list mblk) (b : mblk) (pre1 : list mblk) (b1 : mblk) (ins : bool) : Prop :=
  ins = true /\ (forall p, last pre = Some p -> mb_used p = true) /\ pre1 = pre /\ b1 = b \/
  ins = false /\ exists p, mb_used p = false /\ pre = pre1 ++ [p] /\ b1 = join p b.

Section merge.
Context (heap : Z).
Lemma blocks_prev h s pre b suf xs : blocks_at s heap h (pre ++ b :: suf) xs ->
  exists it, items s !! (match last pre with Some p => mb_addr p | None => tailer h end) = Some it /\
    item_magic it = mb_magic (match last pre with Some p => mb_used p | None => true end).
Proof.
  intros Hb. destruct pre as [|p pre _] using rev_ind.
  - destruct Hb as [_ _ Hs _ _ _ _]. clear -Hs. cbn. revert Hs. generalize (b :: suf). intros l Hs.
    rewrite <- (app_nil_r l) in Hs. apply (mseg_app _ _ _ _ _ l []) in Hs as (? & ? & _ & (_ & it & Hit & [])). by exists it.
  - rewrite last_snoc. rewrite <- app_assoc in Hb. destruct (blocks_item _ _ _ _ _ _ _ Hb) as (it & Hit & [] & _). by exists it.
Qed.

Lemma merge_left_run h s pre b suf xs : blocks_at s heap h (pre ++ b :: suf) xs -> mb_used b = false ->
  exists s' h' pre1 b1 ins, merge_left heap (mb_addr b) s = Ok ((mb_addr b1, ins), s') /\
    blocks_at s' heap h' (pre1 ++ b1 :: suf) xs /\ confined s s' heap h h' /\ mb_used b1 = false /\
    joined_left pre b pre1 b1 ins /\ h' = if ins then h else with_available (u32 (available_size h + 32)) h.
Proof.
  intros Hb Hu. destruct (blocks_item _ _ _ _ _ _ _ Hb) as (it & Hit & [_ _ I3 I4] & _).
  destruct (blocks_prev _ _ _ _ _ _ Hb) as (pit & Hpit & Hm).
  unfold merge_left. erewrite bind_run; [cbv beta|by apply get_item_run].
  rewrite I3. erewrite bind_run; [cbv beta|by apply get_item_run]. rewrite (is_used_magic _ _ Hm).
  destruct (last pre) as [p|] eqn:El; [destruct (mb_used p) eqn:Ep|]; cbn [negb].
  - exists s, h, pre, b, true. split_and!; [done..| |done]. left. split; [done|]. split; [|done]. intros q Hq. congruence.
  - apply last_Some in El as [pre1 ->]. rewrite <- app_assoc in Hb. cbn [app] in Hb.
    destruct (avail_run heap h s _ xs RT_MEMHEAP_SIZE Hb) as (s1 & Hrun & Ei & Hb1 & Hc1).
    destruct (mblocks_join _ _ _ _ _ _ _ _ Hb1) as [Hb2 Hc2].
    pose proof (blocks_bounds _ _ _ _ _ p Hb ltac:(apply elem_of_app; right; left)) as Hbp.
    pose proof (blocks_bounds _ _ _ _ _ b Hb ltac:(apply elem_of_app; right; right; left)) as Hbb.
    assert (Hlt : mb_addr p < mb_addr b).
    { destruct Hb as [_ _ Hs _ _ _ _]. apply seg_at in Hs as (? & _ & _ & _ & (E & _)). unfold mb_end in *. lia. }
    destruct (blocks_next _ _ s (pre1 ++ [p]) b suf xs ltac:(by rewrite <- app_assoc)) as (nx & Hnx & _).
    rewrite <- Ei in Hit, Hpit, Hnx.
    eexists _, _, pre1, (join p b), false. split; [|split; [exact Hb2|split; [by eapply confined_trans|split; [done|split; [right; split; [done|by exists p]|done]]]]].
    erewrite bind_run; [cbv beta|exact Hrun]. erewrite bind_run; [cbv beta|apply upd_item_run; by eexists].
    rewrite bind_assoc. erewrite bind_run; [cbv beta|apply get_item_run; cbn; rewrite lookup_alter_ne by lia; exact Hit].
    rewrite I3, I4. erewrite bind_run; [cbv beta|apply upd_item_run; cbn; apply alter_some; by eexists].
    erewrite bind_run; [cbv beta|apply get_item_run; cbn; rewrite !lookup_alter_ne by (unfold mb_end; lia); exact Hit].
    rewrite I3. unfold ret, without_block. do 2 f_equal. cbn.
    rewrite alter_alter_ne by (unfold mb_end; lia). done.
  - exists s, h, pre, b, true. split_and!; [done..| |done]. left. split; [done|]. split; [|done]. intros q Hq. congruence.
Qed.

Lemma merge_next_run amount (d : mblk -> Z) h s pre b suf xs : blocks_at s heap h (pre ++ b :: suf) xs -> mb_used b = false ->
  (forall c, free_head suf = Some c -> mb_addr c ∈ xs) ->
  (forall c it, free_head suf = Some c -> MEMITEM_SIZE (mb_addr c) it = mb_size c -> amount (mb_addr c) it = d c) ->
  exists s' h', merge_next amount heap (mb_addr b) s = Ok (tt, s') /\
    blocks_at s' heap h' (pre ++ cons_block b suf) (match free_head suf with Some c => lremove (mb_addr c) xs | None => xs end) /\
    confined s s' heap h h' /\
    h' = match free_head suf with Some c => with_available (u32 (available_size h + d c)) h | None => h end.
Proof.
  intros Hb Hu Hin Hd. destruct (blocks_item _ _ _ _ _ _ _ Hb) as (it & Hit & [_ _ I3 I4] & _).
  destruct (blocks_next _ _ _ _ _ _ _ Hb) as (nit & Hnit & _ & _ & Hm).
  unfold merge_next. erewrite bind_run; [cbv beta|by apply get_item_run]. cbv zeta.
  rewrite I4. erewrite bind_run; [cbv beta|by apply get_item_run]. rewrite (is_used_magic _ _ Hm).
  unfold cons_block. rewrite Hu. destruct suf as [|c suf]; [by exists s, h|].
  cbn [free_head] in *. destruct (mb_used c) eqn:Ec; cbn [negb andb when]; [by exists s, h|].
  destruct (avail_run heap h s _ xs (d c) Hb) as (s1 & Hrun & Ei & Hb1 & Hc1).
  destruct (mblocks_join _ _ _ _ _ _ _ _ Hb1) as [Hb2 Hc2].
  destruct (remove_run _ _ _ _ _ _ Hb2 (Hin c eq_refl)) as (s3 & Hrun3 & Hb3 & Hc3).
  assert (Hadj : mb_addr c = mb_end b).
  { destruct Hb as [_ _ Hs _ _ _ _]. by apply seg_at in Hs as (? & _ & _ & _ & (E & _)). }
  rewrite <- Hadj in *.
  destruct (blocks_item _ _ s (pre ++ [b]) c suf xs ltac:(by rewrite <- app_assoc)) as (cit & Hcit & [_ _ _ I4c] & Hszc).
  destruct (blocks_next _ _ s (pre ++ [b]) c suf xs ltac:(by rewrite <- app_assoc)) as (nx & Hnx & _).
  pose proof (blocks_bounds _ _ _ _ _ c Hb ltac:(apply elem_of_app; right; right; left)) as Hbc.
  pose proof (blocks_bounds _ _ _ _ _ b Hb ltac:(apply elem_of_app; right; left)) as Hbb.
  assert (nit = cit) as -> by congruence. rewrite <- Ei in Hit, Hcit, Hnx.
  eexists _, _. split; [|split; [exact Hb3|split; [eapply confined_trans; [exact Hc1|by eapply confined_trans]|done]]].
  rewrite (Hd c cit eq_refl Hszc). erewrite bind_run; [cbv beta|exact Hrun]. rewrite I4c.
  erewrite bind_run; [cbv beta|apply upd_item_run; by eexists].
  rewrite bind_assoc. erewrite bind_run; [cbv beta|apply get_item_run; cbn; rewrite lookup_alter_ne by (unfold mb_end; lia); exact Hcit].
  rewrite I4c. erewrite bind_run; [cbv beta|apply upd_item_run; cbn; apply alter_some; by eexists]. exact Hrun3.
Qed.
Lemma merge_right_run h s pre b suf xs : blocks_at s heap h (pre ++ b :: suf) xs -> mb_used b = false ->
  (forall c, free_head suf = Some c -> mb_addr c ∈ xs) ->
  exists s' h', merge_right heap (mb_addr b) s = Ok (tt, s') /\
    blocks_at s' heap h' (pre ++ cons_block b suf) (match free_head suf with Some c => lremove (mb_addr c) xs | None => xs end) /\
    confined s s' heap h h' /\
    h' = match free_head suf with Some _ => with_available (u32 (available_size h + 32)) h | None => h end.
Proof. intros Hb Hu Hin. by apply (merge_next_run (fun _ _ => RT_MEMHEAP_SIZE) (fun _ => 32)). Qed.
End merge.

(** the lists after a used block [u] has been released *)
Section lists.
Context (pre suf : list mblk) (u : mblk) (pre1 : list mblk) (b1 : mblk) (ins : bool).
Hypothesis Hn : normal (pre ++ u :: suf).
Hypothesis Hu : mb_used u = true.
Hypothesis Hj : joined_left pre (mark false u) pre1 b1 ins.

Lemma released_left : normal pre1 /\ normal suf /\ (forall c, last pre1 = Some c -> mb_used c = true) /\ mb_used b1 = false /\
  free_bytes pre1 + mb_size b1 = free_bytes pre + mb_size u + (if ins then 0 else 32) /\
  (mb_addr <$> free_blocks pre) = (mb_addr <$> free_blocks pre1) ++ (if ins then [] else [mb_addr b1]).
Proof using All.
  apply mnormal_app in Hn as (N1 & N2 & _). assert (Ns : normal suf) by (destruct suf; [done|by destruct N2]).
  destruct Hj as [(-> & Hl & -> & ->)|(-> & p & Hp & -> & ->)].
  - split_and!; [done..|cbn; lia|]. by rewrite app_nil_r.
  - apply mnormal_app in N1 as (N1 & _ & N3). split_and!; [done|done| |done| |].
    + intros c Hc. destruct (N3 c p Hc eq_refl); [done|congruence].
    + rewrite free_bytes_app. cbn. rewrite Hp. lia.
    + rewrite free_blocks_app, free_blocks_cons, Hp, fmap_app. done.
Qed.
Lemma released_coalesce : coalesce (pre ++ mark false u :: suf) = pre1 ++ cons_block b1 suf.
Proof using All.
  destruct released_left as (N1 & Ns & Hl & Hb1 & _). rewrite coalesce_app. cbn [coalesce foldr].
  change (foldr cons_block [] suf) with (coalesce suf). rewrite coalesce_normal by done.
  destruct Hj as [(_ & Hl' & -> & ->)|(_ & p & Hp & -> & ->)].
  - apply foldr_cons_block; [done|]. intros c d Hc _. left. by apply Hl.
  - rewrite foldr_app. cbn [foldr].
    assert (cons_block p (cons_block (mark false u) suf) = cons_block (join p (mark false u)) suf) as ->.
    { unfold cons_block. cbn. rewrite Hp. destruct suf as [|c r]; [done|]. destruct (mb_used c); cbn; [done|].
      unfold join. cbn. by rewrite !Z.add_assoc. }
    apply foldr_cons_block; [done|]. intros c d Hc _. left. by apply Hl.
Qed.
Lemma released_lists xs : NoDup xs -> xs ≡ₚ mb_addr <$> free_blocks (pre ++ u :: suf) ->
  let l := pre1 ++ cons_block b1 suf in
  let xs' := match free_head suf with Some c => lremove (mb_addr c) xs | None => xs end in
  normal l /\ (if ins then mb_addr b1 :: xs' else xs') ≡ₚ mb_addr <$> free_blocks l /\
  free_bytes l = free_bytes (pre ++ u :: suf) + mb_size u + (if ins then 0 else 32) +
    (match free_head suf with Some _ => 32 | None => 0 end).
Proof using All.
  intros Hnd Hp l xs'. destruct released_left as (N1 & Ns & Hl & Hb1 & Hf & Hfb).
  destruct (cons_block_free b1 suf Hb1) as [C1 C2]. rewrite free_blocks_app, free_blocks_cons, Hu, fmap_app, Hfb in Hp.
  split; [by apply cons_block_normal|]. split.
  - assert (Hxs : xs' ≡ₚ ((mb_addr <$> free_blocks pre1) ++ (if ins then [] else [mb_addr b1])) ++
      (mb_addr <$> free_blocks (match free_head suf with Some _ => tail suf | None => suf end))).
    { unfold xs', free_head in *. destruct suf as [|c r]; [done|]. destruct (mb_used c) eqn:Ec; [done|].
      apply lremove_perm; [done|]. rewrite free_blocks_cons, Ec, fmap_cons in Hp. by rewrite Hp, <- Permutation_middle. }
    unfold l. rewrite free_blocks_app, fmap_app, C1. destruct ins; rewrite Hxs.
    + rewrite app_nil_r. by rewrite Permutation_middle.
    + by rewrite <- app_assoc.
  - unfold l. rewrite !free_bytes_app, C2. cbn. rewrite Hu. lia.
Qed.
End lists.

Lemma cons_block_start s heap h pre b suf xs : blocks_at s heap h (pre ++ cons_block b suf) xs ->
  start_addr h <= mb_addr b <= tailer h /\ is_Some (items s !! mb_addr b).
Proof.
  destruct (cons_block_addr b suf) as (b' & Hh & <- & _). destruct (cons_block b suf) as [|c r]; [done|]. injection Hh as ->.
  intros Hb. apply (blocks_mem _ _ _ _ _ b' Hb), elem_of_app. right. left.
Qed.
Lemma seg_nodup its heap start prev p l fin : seg its heap start prev p l fin -> NoDup (mb_addr <$> free_blocks l).
Proof.
  revert prev p. induction l as [|b l IH]; intros prev p Hs; [apply NoDup_nil_2|]. destruct Hs as (E & Hb & _ & Hs).
  pose proof (IH _ _ Hs) as Hnd. rewrite free_blocks_cons. destruct (mb_used b); [done|]. apply NoDup_cons. split; [|done].
  intros (c & Ec & [_ Hc]%list_elem_of_filter)%list_elem_of_fmap. eapply mseg_bounds in Hs; [|exact Hc]. unfold mb_end in *. lia.
Qed.

(** the insertion of the joined block, if it is not on the free list yet *)
Lemma reinsert_run s heap h pre b suf xs (ins : bool) :
  blocks_at s heap h (pre ++ cons_block b suf) xs -> (ins = true -> mb_addr b ∉ xs) ->
  exists s', when ins (free_list_insert heap (mb_addr b)) s = Ok (tt, s') /\
    blocks_at s' heap h (pre ++ cons_block b suf) (if ins then mb_addr b :: xs else xs) /\ confined s s' heap h h.
Proof.
  intros Hb Hx. destruct (cons_block_start _ _ _ _ _ _ _ Hb) as [H1 H2].
  destruct ins; [|by exists s]. apply insert_run; [done|by apply Hx|done|done].
Qed.

Section release.
Context (s : mstate) (heap : Z) (h : rt_memheap) (pre suf fs : list mblk) (u : mblk).
Hypothesis Hrep : heap_at s heap h (pre ++ u :: suf) fs.
Hypothesis Hu : mb_used u = true.

Lemma release_free_perm : (mb_addr <$> fs) ≡ₚ mb_addr <$> free_blocks (pre ++ u :: suf) /\ NoDup (mb_addr <$> fs) /\
  forall c, free_head suf = Some c -> mb_addr c ∈ mb_addr <$> fs.
Proof using All.
  pose proof Hrep as [_ _ Hseg%seg_nodup _ _ Hfs _ _ _].
  assert (Hp : (mb_addr <$> fs) ≡ₚ mb_addr <$> free_blocks (pre ++ u :: suf)) by by rewrite Hfs.
  split; [done|]. rewrite Hp. split; [done|]. intros c Hc. rewrite Hp. apply list_elem_of_fmap_2, list_elem_of_filter.
  destruct suf as [|d r]; [done|]. cbn in Hc. destruct (mb_used d) eqn:Ed; [done|]. injection Hc as ->.
  split; [done|]. apply elem_of_app. right. right. left.
Qed.

(** what rt_memheap_free does while it holds the lock *)
Lemma release_run : exists s' h' fs',
  (forall k : MH unit,
    (upd_item (mb_addr u) (fun it => with_item_magic (Z.land (item_magic it) (Z.lnot RT_MEMHEAP_USED)) it);;
     (let* it := get_item (mb_addr u) in add_available heap (MEMITEM_SIZE (mb_addr u) it));;
     let* m := merge_left heap (mb_addr u) in
     merge_right heap m.1;;
     when m.2 (free_list_insert heap m.1);;
     k) s = k s') /\
  confined s s' heap h h' /\ heap_at s' heap h' (coalesce (pre ++ mark false u :: suf)) fs'.
Proof using All.
  pose proof (heap_blocks _ _ _ _ _ Hrep) as Hb. destruct release_free_perm as (Hp & Hnd & Hin).
  destruct (blocks_bounds _ _ _ _ _ u Hb ltac:(apply elem_of_app; right; left)) as (_ & B2 & _).
  destruct (mark_free_run _ _ _ _ _ _ _ Hb Hu) as (s2 & Hrun2 & Hb2 & Hc2).
  destruct (blocks_item _ _ _ _ _ _ _ Hb2) as (it2 & Hit2 & _ & Hsz2).
  destruct (avail_run _ _ _ _ _ (mb_size u) Hb2) as (s3 & Hrun3 & _ & Hb3 & Hc3).
  destruct (merge_left_run _ _ _ _ _ _ _ Hb3 eq_refl) as (s4 & h4 & pre1 & b1 & ins & Hrun4 & Hb4 & Hc4 & Hu1 & Hj & Eh4).
  pose proof Hrep as [_ _ Hseg _ _ _ _ Hav Hnorm].
  destruct (merge_right_run _ _ _ _ _ _ _ Hb4 Hu1 Hin) as (s5 & h5 & Hrun5 & Hb5 & Hc5 & Eh5).
  destruct (released_lists pre suf u pre1 b1 ins Hnorm Hu Hj _ Hnd Hp) as (L1 & L2 & L3).
  destruct (reinsert_run _ _ _ _ _ _ _ ins Hb5) as (s6 & Hrun6 & Hb6 & Hc6).
  { intros ->. pose proof Hb5 as [_ _ Hs5%seg_nodup _ _ _ _]. rewrite <- L2 in Hs5. by apply NoDup_cons in Hs5 as [? _]. }
  rewrite <- (released_coalesce pre suf u pre1 b1 ins Hnorm Hu Hj) in *.
  destruct (blocks_heap _ _ _ _ _ Hb6 L2) as (fs' & _ & Hrep6); [|done|].
  { pose proof Hb6 as [_ _ Hs6%free_bytes_nonneg R6 _ _ _]. unfold tailer in Hs6. rewrite L3 in Hs6 |- *. rewrite <- Hav in *.
    apply free_bytes_nonneg in Hseg as [Hpos _]. rewrite <- Hav in Hpos. subst h5 h4. clear -Hpos B2 Hs6 R6.
    destruct ins, (free_head suf); cbn in *; rewrite ?u32_add, <- ?Z.add_assoc, ?u32_add, u32_small; lia. }
  exists s6, h5, fs'. split; [|split; [|done]].
  - intros k. erewrite bind_run; [cbv beta|exact Hrun2]. rewrite bind_assoc. erewrite bind_run; [cbv beta|by apply get_item_run].
    cbn [mb_addr mb_size mark] in Hsz2. rewrite Hsz2. erewrite bind_run; [cbv beta|exact Hrun3].
    erewrite bind_run; [cbv beta|exact Hrun4]. cbn [fst snd]. erewrite bind_run; [cbv beta|exact Hrun5].
    by erewrite bind_run; [|exact Hrun6].
  - exact (confined_trans _ _ _ _ _ _ _ Hc2 (confined_trans _ _ _ _ _ _ _ Hc3 (confined_trans _ _ _ _ _ _ _ Hc4
      (confined_trans _ _ _ _ _ _ _ Hc5 Hc6)))).
Qed.
End release.

(** C21: releasing a used block of a memheap makes it free and joins it with the
    free blocks next to it: the new list of blocks is the old one with the
    block marked free and all free neighbours joined, no two neighbours are
    free again, the free list carries exactly the free blocks, the free bytes
    are accounted, and the kernel's state (the lock taken and released) and
    every other heap are as before. *)
Theorem rt_memheap_free_spec s heap h pre u suf fs :
  heap_at s heap h (pre ++ u :: suf) fs -> lock_free (ks s) heap -> mb_used u = true ->
  exists s' h' fs', rt_memheap_free (mb_addr u + 32) s = Ok (tt, s') /\ confined s s' heap h h' /\
    heap_at s' heap h' (coalesce (pre ++ mark false u :: suf)) fs'.
Proof.
  intros Hrep Hlk Hu. pose proof (heap_blocks _ _ _ _ _ Hrep) as Hb.
  destruct (blocks_bounds _ _ _ _ _ u Hb ltac:(apply elem_of_app; right; left)) as (B1 & B2 & B3 & B4 & B5).
  destruct (blocks_item _ _ _ _ _ _ _ Hb) as (it & Hit & [I1 I2 _ I4] & Hsz).
  destruct (blocks_next _ _ _ _ _ _ _ Hb) as (nit & Hnit & _ & _ & Hm).
  set (s1 := set_ks (locked heap (ks s)) s). assert (Hrep1 : heap_at s1 heap h (pre ++ u :: suf) fs) by by apply heap_at_ks.
  destruct (release_run _ _ _ _ _ _ _ Hrep1 Hu) as (s6 & h6 & fs' & Hrun & Hcf & Hrep6).
  exists (set_ks (ks s) s6), h6, fs'. split; [|split; [by destruct Hcf|by apply heap_at_ks]].
  unfold rt_memheap_free. rewrite (proj2 (Z.eqb_neq _ _)) by (unfold RT_NULL; lia). change RT_MEMHEAP_SIZE with 32. cbv zeta.
  replace (mb_addr u + 32 - 32) with (mb_addr u) by lia. rewrite u32_small by (unfold mb_end in *; lia).
  erewrite bind_run; [cbv beta|by apply get_item_run]. rewrite I2, (is_used_magic _ _ I2), Hu.
  do 2 (erewrite bind_run; [cbv beta|reflexivity]).
  rewrite I4, bind_assoc. erewrite bind_run; [cbv beta|by apply get_item_run].
  rewrite Hm. erewrite bind_run; [cbv beta|by destruct suf as [|c ?]; [|destruct (mb_used c)]].
  rewrite I1. erewrite bind_run; [cbv beta|by apply assert_memheap_run].
  erewrite bind_run; [cbv beta|by apply take_lock_run]. change (negb (RT_EOK =? RT_EOK)) with false. cbv iota. fold s1.
  rewrite Hrun. apply release_lock_run; [done|]. by destruct Hcf.
Qed.
