(* ===== verification/MemHeapResize.v ===== *)
(** Resizing memheap blocks: rt_memheap_realloc grows a block into the free one
    behind it, gives the end of a block back, leaves it as it is, or moves it. *)
From S2P Require Import Prelude RtList KService Mem CpuPort Kernel Sched Object Timer Thread Ipc MemHeap MemHeapRep MemHeapSpec MemHeapFree.

(** the blocks [u :: suf] after the first has been resized in place to [n] bytes *)
Definition resized (n : Z) (u : mblk) (suf : list mblk) : option (list mblk) :=
  if mb_size u <? n then
    match free_head suf with
    | Some c => if n + 12 <? mb_size c + mb_size u
                then Some (head_of n (join u c) :: rest_of n (join u c) :: tail suf) else None
    | None => None
    end
  else if mb_size u <=? n + 44 then Some (u :: suf)
  else Some (head_of n u :: cons_block (rest_of n u) suf).

Lemma request_small size : request size < 4294967281.
Proof.
  unfold request, RT_MEMHEAP_MINIALLOC. case_match; [lia|]. unfold RT_ALIGN. sizes. change (16 - 1) with 15.
  rewrite land_align by apply u32_range. pose proof (u32_range (size + 16 - 1)). revert H0. generalize (u32 (size + 16 - 1)).
  intros x Hx. pose proof (Z.mod_pos_bound x 16 ltac:(lia)). pose proof (Z.div_mod x 16 ltac:(lia)). lia.
Qed.

(** the counters, as one step *)
Lemma account_blocks s heap h l xs d : blocks_at s heap h l xs -> 0 <= available_size h + d < 4294967296 ->
  exists s' h', (add_available heap d;; update_max heap) s = Ok (tt, s') /\
    blocks_at s' heap h' l xs /\ confined s s' heap h h' /\ available_size h' = available_size h + d.
Proof.
  intros [G1 G2 G3 G4 G5 G6 G7] Hd. destruct (account_run heap h d s G1 Hd) as (h' & Hrun & E1 & E2 & E3 & E4).
  eexists _, h'. split; [exact Hrun|]. assert (Et : tailer h' = tailer h) by (unfold tailer; congruence).
  split; [|split; [|done]]; split; cbn; rewrite ?Et, ?E1, ?E2, ?E4; try done.
  - apply lookup_insert_eq.
  - intros a Ha. by apply lookup_insert_ne.
Qed.

Lemma seg_free_bytes its heap start prev p l fin b :
  seg its heap start prev p l fin -> b ∈ l -> mb_used b = false -> mb_size b <= free_bytes l.
Proof.
  revert prev p. induction l as [|c l IH]; intros prev p Hs Hb Hu; [by apply elem_of_nil in Hb|].
  destruct Hs as (_ & Hc & _ & Hs). cbn. apply elem_of_cons in Hb as [->|Hb].
  - rewrite Hu. apply free_bytes_nonneg in Hs. lia.
  - pose proof (IH _ _ Hs Hb Hu). destruct (mb_used c); lia.
Qed.

(** a used block, its end or the free block behind it given back *)
Lemma normal_used pre u suf v b : normal (pre ++ u :: suf) -> mb_used v = true -> mb_used b = false ->
  normal (pre ++ v :: cons_block b suf).
Proof.
  intros (N1 & N2 & _)%mnormal_app Hv Hb. assert (Ns : normal suf) by (destruct suf; [done|by destruct N2]).
  change (pre ++ v :: cons_block b suf) with (pre ++ [v] ++ cons_block b suf). rewrite app_assoc.
  apply cons_block_normal; [|done|intros c; rewrite last_snoc; by intros [= <-]|done].
  apply mnormal_app. split; [done|]. split; [done|]. intros c d _ [= <-]. by right.
Qed.
Lemma grown_lists pre u c r v b xs : normal (pre ++ u :: c :: r) -> mb_used u = true -> mb_used c = false ->
  mb_used v = true -> mb_used b = false -> NoDup xs -> xs ≡ₚ mb_addr <$> free_blocks (pre ++ u :: c :: r) ->
  normal (pre ++ v :: b :: r) /\ mb_addr b :: lremove (mb_addr c) xs ≡ₚ mb_addr <$> free_blocks (pre ++ v :: b :: r) /\
  free_bytes (pre ++ v :: b :: r) = free_bytes (pre ++ u :: c :: r) - mb_size c + mb_size b.
Proof.
  intros Hn Hu Hc Hv Hb Hnd Hp. split; [|split].
  - replace (b :: r) with (cons_block b r).
    + assert (Hr : normal (pre ++ u :: r)).
      { apply mnormal_app in Hn as (N1 & N2 & N3). apply mnormal_app. split; [done|]. split.
        - destruct r as [|d r]; [done|]. destruct N2 as [_ [_ N2]]. split; [by left|done].
        - intros x y Hx [= <-]. by right. }
      by eapply normal_used.
    + apply mnormal_app in Hn as (_ & (_ & N2) & _). unfold cons_block. destruct r as [|d r]; [done|].
      destruct N2 as [[E|E] _]; [congruence|]. by rewrite E, andb_false_r.
  - rewrite free_blocks_app, !free_blocks_cons, Hu, Hc, fmap_app, fmap_cons in Hp.
    rewrite (lremove_perm (mb_addr c) xs ((mb_addr <$> free_blocks pre) ++ (mb_addr <$> free_blocks r))); [|done|].
    + rewrite free_blocks_app, !free_blocks_cons, Hv, Hb, fmap_app, fmap_cons. by rewrite Permutation_middle.
    + by rewrite Hp, Permutation_middle.
  - rewrite !free_bytes_app. cbn. rewrite Hu, Hc, Hv, Hb. lia.
Qed.

Lemma cons_block_head b k : mb_used b = false ->
  exists r, cons_block b k = {| mb_addr := mb_addr b; mb_used := false;
    mb_size := mb_size b + match free_head k with Some c => 32 + mb_size c | None => 0 end |} :: r.
Proof.
  intros Hb. unfold cons_block, free_head. rewrite Hb. destruct k as [|c k]; [|destruct (mb_used c)]; cbn [negb andb];
    eexists; f_equal; destruct b; cbn in *; unfold join; cbn; f_equal; (done || lia).
Qed.
Lemma shrunk_lists pre u suf v b xs : normal (pre ++ u :: suf) -> mb_used u = true ->
  mb_used v = true -> mb_used b = false -> NoDup xs -> xs ≡ₚ mb_addr <$> free_blocks (pre ++ u :: suf) ->
  let l := pre ++ v :: cons_block b suf in
  normal l /\
  mb_addr b :: (match free_head suf with Some c => lremove (mb_addr c) xs | None => xs end) ≡ₚ mb_addr <$> free_blocks l /\
  free_bytes l = free_bytes (pre ++ u :: suf) + mb_size b + (match free_head suf with Some _ => 32 | None => 0 end).
Proof.
  intros Hn Hu Hv Hb Hnd Hp l. split; [by eapply normal_used|].
  destruct (cons_block_free b suf Hb) as [C1 C2]. rewrite free_blocks_app, free_blocks_cons, Hu, fmap_app in Hp.
  unfold l. rewrite free_blocks_app, free_blocks_cons, Hv, fmap_app, C1, !free_bytes_app. cbn [free_bytes]. rewrite Hu, Hv, C2.
  split; [|lia]. rewrite <- Permutation_middle. apply perm_skip. unfold free_head in *. destruct suf as [|c r]; [done|].
  destruct (mb_used c) eqn:Ec; [done|]. apply lremove_perm; [done|]. cbn [tail].
  rewrite free_blocks_cons, Ec, fmap_cons in Hp. by rewrite Hp, Permutation_middle.
Qed.

Section resize.
Context (s : mstate) (heap : Z) (h : rt_memheap) (pre suf fs : list mblk) (u : mblk) (n : Z).
Hypothesis Hrep : heap_at s heap h (pre ++ u :: suf) fs.
Hypothesis Hu : mb_used u = true.
Hypothesis Hn : 0 < n.

(** an address inside of [u], or of [u] and a free block behind it, is not on
    the free list, once that block has been taken off it *)
Lemma resize_fresh k : mb_addr u < k < mb_end u -> k ∉ free_header heap :: (mb_addr <$> fs).
Proof using Hrep. intros Hk. apply (ha_fresh _ _ _ _ _ Hrep u); [apply elem_of_app; right; left|done]. Qed.
Lemma resize_fresh_next c r k : suf = c :: r -> mb_used c = false -> mb_addr u < k < mb_end c ->
  k ∉ free_header heap :: lremove (mb_addr c) (mb_addr <$> fs).
Proof using Hrep Hu.
  intros -> Hc Hk. assert (Hadj : mb_addr c = mb_end u).
  { pose proof (ha_seg _ _ _ _ _ Hrep) as Hs. by apply seg_at in Hs as (? & _ & _ & _ & (E & _)). }
  assert (Hul : u ∈ pre ++ u :: c :: r) by (apply elem_of_app; right; left).
  assert (Hcl : c ∈ pre ++ u :: c :: r) by (apply elem_of_app; right; right; left).
  intros [E|[Hin Hne]%elem_of_lremove]%elem_of_cons.
  - pose proof (ha_bounds _ _ _ _ _ Hrep u Hul). pose proof (ha_bounds _ _ _ _ _ Hrep c Hcl).
    destruct (ha_header _ _ _ _ _ Hrep); lia.
  - apply list_elem_of_fmap in Hin as (d & -> & [Hd Hdf]%(ha_in _ _ _ _ _ Hrep)).
    pose proof (ha_bounds _ _ _ _ _ Hrep d Hd). unfold mb_end in *.
    destruct (mseg_disjoint _ _ _ _ _ _ _ _ _ (ha_seg _ _ _ _ _ Hrep) Hd Hul) as [->|[|]]; [congruence|unfold mb_end in *; lia|].
    destruct (mseg_disjoint _ _ _ _ _ _ _ _ _ (ha_seg _ _ _ _ _ Hrep) Hd Hcl) as [->|[|]]; [done|unfold mb_end in *; lia..].
Qed.

(** the block [next_ptr] between [header_ptr] and the block behind it goes away *)
Lemma block_remove_run s1 h1 l p c r xs : blocks_at s1 heap h1 (l ++ p :: c :: r) xs ->
  exists s', block_remove (mb_addr c) s1 = Ok (tt, s') /\ blocks_at s' heap h1 (l ++ join p c :: r) xs /\
    confined s1 s' heap h1 h1.
Proof.
  intros Hb. exists (set_items (without_block (mb_addr p) (mb_end c) (items s1)) s1). split; [|by apply mblocks_join].
  destruct (blocks_item _ _ s1 (l ++ [p]) c r xs ltac:(by rewrite <- app_assoc)) as (cit & Hcit & [_ _ I3 I4] & _).
  rewrite last_snoc in I3.
  destruct (blocks_next _ _ s1 (l ++ [p]) c r xs ltac:(by rewrite <- app_assoc)) as (nx & Hnx & _).
  destruct (blocks_item _ _ _ _ _ _ _ Hb) as (pit & Hpit & _).
  pose proof (blocks_bounds _ _ _ _ _ c Hb ltac:(apply elem_of_app; right; right; left)) as Hbc.
  unfold block_remove. rewrite bind_assoc. erewrite bind_run; [cbv beta|by apply get_item_run].
  rewrite I4. erewrite bind_run; [cbv beta|apply upd_item_run; by eexists].
  erewrite bind_run; [cbv beta|apply get_item_run; cbn; rewrite lookup_alter_ne by (unfold mb_end; lia); exact Hcit].
  rewrite I3, I4. rewrite upd_item_run by (cbn; apply alter_some; by eexists). done.
Qed.

Lemma grow_run c r : suf = c :: r -> mb_used c = false -> mb_size u < n -> n + 12 < mb_size c + mb_size u ->
  exists s' h' fs', (forall k : MH Z, (grow_block heap (mb_addr u) (mb_addr c) (mb_size u) n;; k) s = k s') /\
    confined s s' heap h h' /\ heap_at s' heap h' (pre ++ head_of n (join u c) :: rest_of n (join u c) :: r) fs'.
Proof using All.
  intros Es Hc Hlt Hle. pose proof (heap_blocks _ _ _ _ _ Hrep) as Hb. pose proof Hrep as [_ _ Hseg _ _ _ _ Hav Hnorm].
  destruct (release_free_perm _ _ _ _ _ _ _ Hrep Hu) as (Hp & Hnd & Hin). rewrite Es in Hb, Hseg, Hnorm, Hp, Hin, Hav.
  assert (Hcl : c ∈ pre ++ u :: c :: r) by (apply elem_of_app; right; right; left).
  assert (Hul : u ∈ pre ++ u :: c :: r) by (apply elem_of_app; right; left).
  pose proof (blocks_bounds _ _ _ _ _ c Hb Hcl) as Hbc. pose proof (blocks_bounds _ _ _ _ _ u Hb Hul) as Hbu.
  assert (Hadj : mb_addr c = mb_end u) by (by apply seg_at in Hseg as (? & _ & _ & _ & (E & _))).
  destruct (grown_lists pre u c r (head_of n (join u c)) (rest_of n (join u c)) _ Hnorm Hu Hc Hu eq_refl Hnd Hp) as (L1 & L2 & L3).
  assert (Hrange : 0 <= available_size h + - (n - mb_size u) < 4294967296).
  { rewrite Hav. apply free_bytes_nonneg in Hseg as Hf. unfold tailer, mb_end in *.
    pose proof (seg_free_bytes _ _ _ _ _ _ _ c Hseg Hcl Hc) as Hge. lia. }
  destruct (account_blocks s heap h _ _ _ Hb Hrange) as (s1 & h1 & Hrun1 & Hb1 & Hc1 & Ea).
  destruct (remove_run _ _ _ _ _ (mb_addr c) Hb1 (Hin c ltac:(by cbn; rewrite Hc))) as (s2 & Hrun2 & Hb2 & Hc2).
  destruct (block_remove_run _ _ _ _ _ _ _ Hb2) as (s3 & Hrun3 & Hb3 & Hc3).
  assert (Hfr : mb_addr u + 32 + n ∉ free_header heap :: lremove (mb_addr c) (mb_addr <$> fs)).
  { apply (resize_fresh_next c r); [done|done|]. unfold mb_end in *. lia. }
  destruct (mblocks_split _ _ _ _ (join u c) _ _ n Hn ltac:(cbn; lia) Hb3 Hfr) as (s4 & Hrun4 & Hb4 & Hc4).
  destruct (blocks_mem _ _ _ _ _ (rest_of n (join u c)) Hb4) as [Hreg Hs4]; [apply elem_of_app; right; right; left|].
  cbn [mb_addr join rest_of] in *. apply not_elem_of_cons in Hfr as [_ Hfr].
  destruct (insert_run heap h1 s4 _ _ _ Hb4 Hfr Hreg Hs4) as (s5 & Hrun5 & Hb5 & Hc5).
  destruct (blocks_heap _ _ _ _ _ Hb5 L2) as (fs' & _ & Hrep5); [rewrite Ea, L3, Hav; cbn; lia|done|].
  exists s5, h1, fs'. split; [|split; [|done]].
  - intros k. unfold grow_block. change RT_MEMHEAP_SIZE with 32.
    rewrite u32_small by (unfold mb_end in *; lia).
    erewrite bind_run; [reflexivity|]. rewrite <- bind_assoc. erewrite bind_run; [cbv beta|exact Hrun1].
    erewrite bind_run; [cbv beta|exact Hrun2]. erewrite bind_run; [cbv beta|exact Hrun3].
    cbv zeta. replace (mb_addr u + 32 + n) with (mb_addr u + 32 + n) by lia.
    erewrite bind_run; [cbv beta|exact Hrun4]. exact Hrun5.
  - exact (confined_trans _ _ _ _ _ _ _ Hc1 (confined_trans _ _ _ _ _ _ _ Hc2 (confined_trans _ _ _ _ _ _ _ Hc3
      (confined_trans _ _ _ _ _ _ _ Hc4 Hc5)))).
Qed.

Lemma shrink_run : n + 44 < mb_size u ->
  exists s' h' fs', (forall k : MH Z, (shrink_block heap (mb_addr u) n;; k) s = k s') /\
    confined s s' heap h h' /\ heap_at s' heap h' (pre ++ head_of n u :: cons_block (rest_of n u) suf) fs'.
Proof using All.
  intros Hlt. pose proof (heap_blocks _ _ _ _ _ Hrep) as Hb. pose proof Hrep as [_ _ Hseg _ _ _ _ Hav Hnorm].
  destruct (release_free_perm _ _ _ _ _ _ _ Hrep Hu) as (Hp & Hnd & Hin).
  pose proof (blocks_bounds _ _ _ _ _ u Hb ltac:(apply elem_of_app; right; left)) as Hbu.
  assert (Hfr : mb_addr u + 32 + n ∉ free_header heap :: (mb_addr <$> fs)) by (apply resize_fresh; unfold mb_end; lia).
  destruct (mblocks_split _ _ _ _ u _ _ n Hn ltac:(lia) Hb Hfr) as (s1 & Hrun1 & Hb1 & Hc1).
  apply not_elem_of_cons in Hfr as [_ Hfr].
  replace (pre ++ head_of n u :: rest_of n u :: suf) with ((pre ++ [head_of n u]) ++ rest_of n u :: suf) in Hb1 by (by rewrite <- app_assoc).
  destruct (merge_next_run heap (fun p f => - MEMITEM_SIZE p f) (fun c => - mb_size c) _ _ _ _ _ _ Hb1 eq_refl Hin) as (s2 & h2 & Hrun2 & Hb2 & Hc2 & Eh2).
  { by intros c it _ ->. }
  destruct (reinsert_run _ _ _ _ _ _ _ true Hb2) as (s3 & Hrun3 & Hb3 & Hc3).
  { intros _. destruct (free_head suf); [|done]. cbn. intros [? _]%elem_of_lremove. done. }
  set (b' := {| mb_addr := mb_addr u + 32 + n; mb_used := false;
    mb_size := mb_size u - n - 32 + match free_head suf with Some c => 32 + mb_size c | None => 0 end |}).
  destruct (cons_block_head (rest_of n u) suf eq_refl) as (r & Er). cbn in Er. fold b' in Er.
  assert (exists it, items s3 !! (mb_addr u + 32 + n) = Some it /\ MEMITEM_SIZE (mb_addr u + 32 + n) it = mb_size b') as (it & Hit & Hsz).
  { rewrite Er in Hb3. destruct (blocks_item _ _ _ _ b' _ _ Hb3) as (it & Hit & _ & Hsz). by exists it. }
  destruct (avail_run _ _ _ _ _ (mb_size b') Hb3) as (s4 & Hrun4 & _ & Hb4 & Hc4).
  destruct (shrunk_lists pre u suf (head_of n u) (rest_of n u) _ Hnorm Hu Hu eq_refl Hnd Hp) as (L1 & L2 & L3).
  rewrite <- app_assoc in Hb4. cbn [app] in Hb4.
  destruct (blocks_heap _ _ _ _ _ Hb4 L2) as (fs' & _ & Hrep4); [|done|].
  { pose proof Hb4 as [_ _ Hs4%free_bytes_nonneg R4 _ _ _]. unfold tailer in Hs4. rewrite L3, <- Hav in Hs4 |- *. subst h2 b'.
    destruct (free_head suf); cbn in *; rewrite ?u32_add, u32_small; lia. }
  eexists s4, _, fs'. split; [|split; [|exact Hrep4]].
  - intros k. unfold shrink_block. change RT_MEMHEAP_SIZE with 32.
    replace (mb_addr u + n + 32) with (mb_addr u + 32 + n) by lia. rewrite u32_small by (unfold mb_end in *; lia). cbv zeta.
    erewrite bind_run; [reflexivity|]. erewrite bind_run; [cbv beta|exact Hrun1]. erewrite bind_run; [cbv beta|exact Hrun2].
    erewrite bind_run; [cbv beta|exact Hrun3]. erewrite bind_run; [cbv beta|by apply get_item_run]. rewrite Hsz. exact Hrun4.
  - exact (confined_trans _ _ _ _ _ _ _ Hc1 (confined_trans _ _ _ _ _ _ _ Hc2 (confined_trans _ _ _ _ _ _ _ Hc3 Hc4))).
Qed.
End resize.

(** giving the lock back *)
Lemma relock_run {A} heap s (m : MH A) : lock_free (ks s) heap ->
  (release_lock heap;; m) (set_ks (locked heap (ks s)) s) = m s.
Proof. intros Hlk. erewrite bind_run; [|by apply release_lock_run]. cbn. by destruct s. Qed.
Lemma resize_done heap s s2 h h' l fs' ptr (m : MH Z) :
  let s1 := set_ks (locked heap (ks s)) s in
  lock_free (ks s) heap -> confined s1 s2 heap h h' -> m s1 = (release_lock heap;; ret ptr) s2 -> heap_at s2 heap h' l fs' ->
  exists s' h' fs', m s1 = Ok (ptr, s') /\ confined s s' heap h h' /\ heap_at s' heap h' l fs'.
Proof.
  intros s1 Hlk Hcf -> Hrep. exists (set_ks (ks s) s2), h', fs'. split; [|split; [by destruct Hcf|by apply heap_at_ks]].
  erewrite bind_run; [reflexivity|]. apply release_lock_run; [done|]. by destruct Hcf as [-> _ _ _].
Qed.

(** rt_memheap_realloc of a used block to a size other than 0.  When the
    block behind is free and leaves room, the block grows into it and the rest
    of both is one free block; when the block is longer than the request by
    more than a header and the least payload, its end becomes a free block,
    joined with a free block behind it; when it is only a little longer it
    stays as it is; in these three cases the pointer stays the same, the
    representation holds for the new list of blocks and nothing else has
    changed.  Otherwise the code goes on to allocate, copy and release, with
    the state (and the lock) as it was on entry. *)
Theorem rt_memheap_realloc_spec s heap h pre u suf fs newsize :
  heap_at s heap h (pre ++ u :: suf) fs -> lock_free (ks s) heap -> mb_used u = true -> newsize <> 0 ->
  let n := request newsize in
  let ptr := mb_addr u + 32 in
  match resized n u suf with
  | Some l => exists s' h' fs', rt_memheap_realloc heap ptr newsize s = Ok (ptr, s') /\
      confined s s' heap h h' /\ heap_at s' heap h' (pre ++ l) fs'
  | None => rt_memheap_realloc heap ptr newsize s =
      (let* new_ptr := rt_memheap_alloc heap n in
       when (negb (new_ptr =? RT_NULL)) (on_bytes (rt_memcpy new_ptr ptr (mb_size u));; rt_memheap_free ptr);;
       ret new_ptr) s
  end.
Proof.
  intros Hrep Hlk Hu Hnz n ptr. pose proof (heap_blocks _ _ _ _ _ Hrep) as Hb.
  pose proof (request_pos newsize) as Hpos. pose proof (request_small newsize) as Hsmall. fold n in Hpos, Hsmall.
  destruct (blocks_bounds _ _ _ _ _ u Hb ltac:(apply elem_of_app; right; left)) as (B1 & B2 & B3 & B4 & B5).
  destruct (blocks_item _ _ _ _ _ _ _ Hb) as (it & Hit & [_ _ _ I4] & Hsz).
  destruct (blocks_next _ _ _ _ _ _ _ Hb) as (nit & Hnit & _ & _ & Hm).
  set (s1 := set_ks (locked heap (ks s)) s). assert (Hrep1 : heap_at s1 heap h (pre ++ u :: suf) fs) by by apply heap_at_ks.
  unfold rt_memheap_realloc. erewrite bind_run; [cbv beta|by apply assert_memheap_run].
  rewrite (proj2 (Z.eqb_neq newsize _)) by done. cbv zeta. fold n.
  rewrite (proj2 (Z.eqb_neq ptr _)) by (unfold RT_NULL; lia). change RT_MEMHEAP_SIZE with 32. change RT_MEMHEAP_MINIALLOC with 12.
  replace (ptr - 32) with (mb_addr u) by (unfold ptr; lia). rewrite (u32_small (mb_addr u)) by (unfold mb_end in *; lia).
  erewrite (bind_run (get_item (mb_addr u))); [cbv beta|by apply get_item_run]. rewrite Hsz. unfold resized.
  destruct (mb_size u <? n) eqn:E1.
  - erewrite !(bind_run (take_lock heap)); [|by apply take_lock_run..]. change (negb (RT_EOK =? RT_EOK)) with false. cbv iota.
    fold s1.
    erewrite !(bind_run (get_item (mb_addr u))); [|by apply get_item_run..]. rewrite I4.
    erewrite !(bind_run (rt_assert _)); [|by rewrite (proj2 (Z.ltb_lt _ _)) by (unfold mb_end; lia)..].
    erewrite !(bind_run (get_item (mb_end u))); [|by apply get_item_run..]. rewrite (is_used_magic _ _ Hm).
    destruct suf as [|c r]; [cbn; by apply relock_run|]. cbn [free_head].
    destruct (mb_used c) eqn:Ec; cbn [negb andb]; [by apply relock_run|].
    assert (Hadj : mb_addr c = mb_end u) by (pose proof (ha_seg _ _ _ _ _ Hrep) as Hs; by apply seg_at in Hs as (? & _ & _ & _ & (E & _))).
    destruct (blocks_item _ _ s (pre ++ [u]) c r _ ltac:(by rewrite <- app_assoc)) as (cit & Hcit & _ & Hszc).
    pose proof (blocks_bounds _ _ _ _ _ c Hb ltac:(apply elem_of_app; right; right; left)) as Hbc.
    rewrite <- Hadj in *. assert (nit = cit) as -> by congruence. rewrite Hszc, !u32_small by (unfold mb_end in *; lia).
    destruct (n + 12 <? mb_size c + mb_size u) eqn:E2; [|by apply relock_run].
    destruct (grow_run _ _ _ _ _ _ _ n Hrep1 Hu Hpos c r eq_refl Ec ltac:(lia) ltac:(lia)) as (s2 & h' & fs' & Hrun & Hcf & Hrep2).
    exact (resize_done _ _ _ _ _ _ _ _ _ Hlk Hcf (Hrun _) Hrep2).
  - destruct (mb_size u <=? n + 44) eqn:E2.
    + exists s, h, fs. rewrite u32_small by (unfold mb_end in *; lia). replace (n + 32 + 12) with (n + 44) by lia. by rewrite E2.
    + rewrite u32_small by (unfold mb_end in *; lia). replace (n + 32 + 12) with (n + 44) by lia. rewrite E2.
      erewrite (bind_run (take_lock heap)); [cbv beta|by apply take_lock_run]. change (negb (RT_EOK =? RT_EOK)) with false. cbv iota.
      destruct (shrink_run _ _ _ _ _ _ _ n Hrep1 Hu Hpos ltac:(lia)) as (s2 & h' & fs' & Hrun & Hcf & Hrep2).
      exact (resize_done _ _ _ _ _ _ _ _ _ Hlk Hcf (Hrun _) Hrep2).
Qed.
