(* ===== verification/MemHeapInit.v ===== *)
(** The initialisation of a memheap before the scheduler has been started, as
    rt_system_heap_init does it when the board is set up: it leaves a pool with
    one free block and a lock that nobody holds, which is where the theorems of
    MemHeapSpec, MemHeapFree and MemHeapResize start from. *)
From S2P Require Import Prelude RtList KService Mem CpuPort Kernel Sched Object Timer Thread Ipc MemHeap MemHeapRep MemHeapSpec.

(** no thread runs yet: rt_exit_critical does not schedule *)
Definition booting (k : kstate) : Prop := rt_current_thread k = RT_NULL /\ scheduler_lock_nest k = 0.

(** the state after rt_object_init *)
Definition with_object (o type : Z) (name : list Z) (k : kstate) : kstate :=
  set_containers (<[type := o :: object_list k type]>) (set_objs (<[o := {| o_name := object_name name;
    o_type := Z.lor type RT_Object_Class_Static; o_flag := default 0 (o_flag <$> objs k !! o) |}]>) k).

Lemma olinked_not o type k : olinked o k = false -> o ∉ object_list k type.
Proof.
  unfold olinked, object_list. rewrite bool_decide_eq_false. intros Hn Hin. apply Hn.
  destruct (containers k !! type) as [l|] eqn:E; cbn in Hin; [|by apply elem_of_nil in Hin]. by exists type, l.
Qed.
Lemma olinked_with_object o o' type name k : o <> o' -> olinked o k = false ->
  olinked o (with_object o' type name k) = false.
Proof.
  unfold olinked. rewrite !bool_decide_eq_false. intros Hne Hn (t & l & Hl & Hin). apply Hn.
  cbn in Hl. rewrite lookup_insert in Hl. case_decide; [|by exists t, l]. injection Hl as <-.
  apply elem_of_cons in Hin as [|Hin]; [done|]. subst. unfold object_list in Hin.
  destruct (containers k !! t) as [l|] eqn:E; cbn in Hin; [|by apply elem_of_nil in Hin]. by exists t, l.
Qed.
Lemma rt_object_init_run o type name k :
  booting k -> is_Some (rt_object_get_information type) -> olinked o k = false ->
  rt_object_init o type name k = Ok (tt, with_object o type name k).
Proof.
  intros [Hc Hl] Hi Hn. unfold rt_object_init. erewrite bind_run; [cbv beta|by rewrite bool_decide_eq_true_2].
  erewrite bind_run; [cbv beta|reflexivity]. erewrite bind_run; [cbv beta|].
  2: { erewrite bind_run; [cbv beta|reflexivity]. by rewrite bool_decide_eq_true_2 by (by apply olinked_not). }
  erewrite bind_run; [cbv beta|].
  2: { unfold rt_exit_critical. erewrite bind_run; [cbv beta|reflexivity]. erewrite bind_run; [cbv beta|reflexivity].
    cbn. rewrite Hl. change (s16 (s16 (0 + 1) - 1) <=? 0) with true. cbv iota.
    erewrite bind_run; [cbv beta|reflexivity]. erewrite bind_run; [cbv beta|reflexivity]. cbn. rewrite Hc. reflexivity. }
  erewrite bind_run; [cbv beta|reflexivity]. unfold olist_insert_after. erewrite bind_run; [cbv beta|reflexivity].
  match goal with |- context [olinked o ?k1] => change (olinked o k1) with (olinked o k) end. rewrite Hn. unfold modify. apply ok_ext. by apply kstate_ext.
Qed.

(** and after rt_sem_init *)
Lemma rt_sem_init_run sem name value flag k :
  booting k -> sem <> RT_NULL -> value < 65536 -> olinked sem k = false ->
  exists k', rt_sem_init sem name value flag k = Ok (RT_EOK, k') /\
    sems k' !! sem = Some {| sem_value := u16 value |} /\ queue k' (QSuspend sem) = [] /\
    (exists ob, objs k' !! sem = Some ob /\ has_type RT_Object_Class_Semaphore ob) /\
    (forall o, o <> sem -> objs k' !! o = objs k !! o).
Proof.
  intros Hb Hs Hv Hn. unfold rt_sem_init. eexists. split.
  - erewrite bind_run; [cbv beta|by apply assert_nonnull_run].
    erewrite bind_run; [cbv beta|by rewrite (proj2 (Z.ltb_lt _ _))].
    erewrite bind_run; [cbv beta|by apply rt_object_init_run].
    erewrite bind_run; [cbv beta|reflexivity]. erewrite bind_run; [cbv beta|reflexivity].
    erewrite bind_run; [cbv beta; reflexivity|]. unfold set_object_flag, upd_obj.
    erewrite bind_run; [cbv beta; reflexivity|]. unfold get_obj. erewrite bind_run; [cbv beta|reflexivity].
    cbn. by rewrite lookup_insert_eq.
  - cbn. split_and!; [apply lookup_insert_eq|by rewrite queue_q; unfold q; cbn; rewrite lookup_insert_eq|..].
    + eexists. split; [apply lookup_insert_eq|]. done.
    + intros o Ho. by rewrite !lookup_insert_ne.
Qed.

(** the record and the single block of a heap of [size] bytes at [start] *)
Definition initial_heap (heap start size : Z) : rt_memheap :=
  let pool := RT_ALIGN_DOWN size RT_ALIGN_SIZE in
  {| start_addr := start; pool_size := pool; available_size := pool - 64; max_used_size := 64;
     mh_block_list := start; free_list := free_header heap |}.
Definition initial_block (start size : Z) : mblk :=
  {| mb_addr := start; mb_size := RT_ALIGN_DOWN size RT_ALIGN_SIZE - 64; mb_used := false |}.

(** the item part of rt_memheap_init, followed by [k] *)
Definition init_items {A} (heap start tailer : Z) (k : MH A) : MH A :=
  put_item (free_header heap) (with_next_free (free_header heap) (with_prev_free (free_header heap) (fresh_item RT_MEMHEAP_MAGIC heap)));;
  put_item start (with_next_free start (with_prev_free start (fresh_item RT_MEMHEAP_MAGIC heap)));;
  upd_item start (with_item_next tailer);;
  upd_item start (with_item_prev tailer);;
  free_list_insert heap start;;
  put_item tailer (with_item_next start (with_item_prev start
    (fresh_item (Z.lor RT_MEMHEAP_MAGIC RT_MEMHEAP_USED) heap)));;
  k.
Lemma init_items_run s heap h tl :
  memheaps s !! heap = Some h -> free_list h = free_header heap -> tl = tailer h ->
  free_header heap <> start_addr h -> free_header heap <> tl -> start_addr h + 32 < tl ->
  exists its, (forall A (k : MH A), init_items heap (start_addr h) tl k s = k (set_items its s)) /\
    seg its heap (start_addr h) tl (start_addr h)
      [{| mb_addr := start_addr h; mb_size := tl - start_addr h - 32; mb_used := false |}] tl /\
    ring (fnodes its) (free_header heap) [start_addr h].
Proof.
  intros Hh Hf Et N1 N2 Hlt. set (hd := free_header heap) in *. set (st := start_addr h) in *.
  set (its1 := alter (with_item_prev tl) st (alter (with_item_next tl) st
    (<[st := with_next_free st (with_prev_free st (fresh_item RT_MEMHEAP_MAGIC heap))]>
    (<[hd := with_next_free hd (with_prev_free hd (fresh_item RT_MEMHEAP_MAGIC heap))]> (items s))))).
  assert (Hhd : its1 !! hd = Some (with_next_free hd (with_prev_free hd (fresh_item RT_MEMHEAP_MAGIC heap)))).
  { unfold its1. rewrite !lookup_alter_ne, lookup_insert_ne by done. apply lookup_insert_eq. }
  assert (Hst : its1 !! st = Some (with_item_prev tl (with_item_next tl (with_next_free st (with_prev_free st (fresh_item RT_MEMHEAP_MAGIC heap)))))).
  { unfold its1. by rewrite !lookup_alter_eq, lookup_insert_eq. }
  destruct (free_list_insert_run (set_items its1 s) heap h [] st Hh) as (its2 & Hrun & Hr & Hl).
  { rewrite Hf. cbn. destruct (fnodes_nxt _ _ _ Hhd) as [E1 E2]. split; [apply NoDup_singleton|]. by split. }
  { rewrite Hf. by intros ->%list_elem_of_singleton. }
  { cbn. rewrite Hst. by eexists. }
  rewrite Hf in Hr, Hl. fold hd in Hr, Hl. cbn [items set_items] in Hl.
  exists (<[tl := with_item_next st (with_item_prev st (fresh_item (Z.lor RT_MEMHEAP_MAGIC RT_MEMHEAP_USED) heap))]> its2).
  split; [|split].
  - intros A k. unfold init_items. erewrite bind_run; [cbv beta|reflexivity]. erewrite bind_run; [cbv beta|reflexivity].
    erewrite bind_run; [cbv beta|apply upd_item_run; cbn; rewrite lookup_insert_eq; by eexists].
    erewrite bind_run; [cbv beta|apply upd_item_run; cbn; apply alter_some; rewrite lookup_insert_eq; by eexists].
    erewrite bind_run; [cbv beta|exact Hrun]. by erewrite bind_run; [|reflexivity].
  - destruct Hl as [Hl _]. destruct (Hl st _ Hst) as (it & Hit & (E1 & E2 & E3 & E4)). cbn in *.
    assert (Eend : mb_end {| mb_addr := st; mb_size := tl - st - 32; mb_used := false |} = tl) by (unfold mb_end; cbn; lia).
    rewrite Eend, lookup_insert_ne, lookup_insert_eq by lia. split; [done|]. split; [lia|]. split; [by exists it|].
    split; [done|]. by eexists.
  - eapply ring_frame; [exact Hr|]. intros x Hx. rewrite !fnodes_lookup, lookup_insert_ne; [done|].
    intros <-. apply elem_of_cons in Hx as [->|Hx%list_elem_of_singleton]; [done|]. unfold st in *. lia.
Qed.

(** rt_memheap_init, before the scheduler runs, of a pool of at least 80
    bytes in memory that does not hold the head of its free list: the result is
    RT_EOK, and the heap has one free block, 64 bytes shorter than the pool, on
    its free list, and a lock that is free. *)
Theorem rt_memheap_init_spec s heap name start size :
  booting (ks s) -> 0 < heap -> olinked heap (ks s) = false -> olinked (lock heap) (ks s) = false ->
  0 < start -> 80 <= size -> start + size <= 4294967296 ->
  free_header heap < start \/ start + size < free_header heap ->
  exists s', rt_memheap_init heap name start size s = Ok (RT_EOK, s') /\
    heap_at s' heap (initial_heap heap start size) [initial_block start size] [initial_block start size] /\
    lock_free (ks s') heap.
Proof.
  intros Hb Hh Ho Hol H1 H2 H3 Hout.
  assert (HP : 80 <= RT_ALIGN_DOWN size RT_ALIGN_SIZE <= size).
  { unfold RT_ALIGN_DOWN. sizes. change (16 - 1) with 15. rewrite land_align by lia.
    pose proof (Z.div_mod size 16 ltac:(lia)). pose proof (Z.mod_pos_bound size 16 ltac:(lia)). lia. }
  set (h := initial_heap heap start size). set (P := RT_ALIGN_DOWN size RT_ALIGN_SIZE) in *.
  assert (Et : tailer h = start + P - 32) by reflexivity.
  set (s1 := set_memheaps (<[heap := h]> (memheaps s)) (set_ks (with_object heap RT_Object_Class_MemHeap name (ks s)) s)).
  destruct (init_items_run s1 heap h (tailer h)) as (its & Hrun & Hseg & Hr); [apply lookup_insert_eq|done|done|..].
  { change (start_addr h) with start. lia. }
  { lia. }
  { rewrite Et. change (start_addr h) with start. lia. }
  destruct (rt_sem_init_run (lock heap) name 1 RT_IPC_FLAG_FIFO (with_object heap RT_Object_Class_MemHeap name (ks s)))
    as (k2 & Hk2 & V1 & V2 & V3 & V4); [done|unfold lock, RT_NULL; lia|done| |].
  { apply olinked_with_object; [unfold lock; lia|done]. }
  exists (set_ks k2 (set_items its s1)). split; [|split].
  - unfold rt_memheap_init. erewrite bind_run; [cbv beta|apply assert_nonnull_run; unfold RT_NULL; lia].
    erewrite bind_run; [cbv beta zeta|apply on_kernel_run; by apply rt_object_init_run].
    change RT_MEMHEAP_SIZE with 32. fold P. replace (P - 2 * 32) with (P - 64) by lia. rewrite (u32_small (P - 64)) by lia.
    replace (P - (P - 64)) with 64 by lia. replace (start + (P - 64) + 32) with (start + P - 32) by lia.
    rewrite (u32_small (start + P - 32)) by lia. erewrite bind_run; [cbv beta|reflexivity].
    etransitivity; [exact (Hrun Z (let* _r := on_kernel (rt_sem_init (lock heap) name 1 RT_IPC_FLAG_FIFO) in ret RT_EOK))|].
    erewrite bind_run; [cbv beta; reflexivity|]. by apply on_kernel_run.
  - split; cbn [memheaps items set_ks set_items s1 set_memheaps]; try done.
    + apply lookup_insert_eq.
    + change (start_addr h) with start in *. rewrite Et in *. by replace (start + P - 32 - start - 32) with (P - 64) in Hseg by lia.
    + cbn. lia.
    + rewrite Et. change (start_addr h) with start. lia.
    + cbn. lia.
  - destruct V3 as (ob & Hob & Hty). split; cbn; [|by split; [unfold lock, RT_NULL; lia|exists ob]|done|done].
    split; [unfold RT_NULL; lia|]. rewrite V4 by (unfold lock; lia). cbn. rewrite lookup_insert_eq. eexists. by split.
Qed.
