(* ===== verification/MemHeapExamples.v ===== *)
(** The theorems of the memheap allocator applied to a concrete heap of 512
    bytes, in states that the modelled code produces. *)
From S2P Require Import Prelude RtList KService Mem CpuPort Kernel Sched Object Timer Thread Ipc MemHeap MemHeapRep MemHeapSpec MemHeapFree MemHeapResize MemHeapInit.

(** the kernel before anything is initialised *)
Definition k0 : kstate := {|
  threads := ∅; timers := ∅; sems := ∅; mutexes := ∅; events := ∅; mailboxes := ∅;
  mqueues := ∅; mempools := ∅; objs := ∅; containers := ∅; queues := ∅;
  rt_timer_list := []; check_list := []; ready_priority_group := 0; rt_current_thread := 0;
  rt_current_priority := 0; scheduler_lock_nest := 0; interrupt_nest := 0;
  switch_req := {| rt_interrupt_from_thread := 0; rt_interrupt_to_thread := 0;
    rt_thread_switch_interrupt_flag := 0 |};
  rt_tick := 0; random_nr := 0;
  kheap := {| headers := ∅; heap_ptr := 0; heap_end := 0; lfree := 0; heap_sem := 0;
    mem_size_aligned := 0; used_mem := 0; max_mem := 0; ram := ∅ |} |}.
Definition m0 : mstate := {| ks := k0; memheaps := ∅; items := ∅; __rt_errno := 0 |}.
Definition m_after {A} (m : MH A) (s : mstate) : mstate :=
  match m s with Ok (_, s') => s' | Fault _ => m0 end.
Definition HEAP : Z := 1000.
(** one free block, and then two blocks in use and a free one *)
Definition m1 : mstate := m_after (rt_memheap_init HEAP [104] 8192 512) m0.
Definition m3 : mstate := m_after (rt_memheap_alloc HEAP 100;; rt_memheap_alloc HEAP 50) m1.

Definition mblock (a n : Z) (u : bool) : mblk := {| mb_addr := a; mb_size := n; mb_used := u |}.
Definition heap_record (s : mstate) : rt_memheap := default (initial_heap 0 0 0) (memheaps s !! HEAP).
Ltac mh_field :=
  lazymatch goal with
  | |- _ /\ _ => split; mh_field
  | |- exists it, ?o = Some it /\ _ =>
      let v := eval vm_compute in o in lazymatch v with Some ?it => exists it end; mh_field
  | |- item_is _ _ _ _ _ => split; mh_field
  | |- _ \/ _ => first [left; mh_field; fail | right; mh_field]
  | |- NoDup _ => apply (bool_decide_unpack _); vm_compute; exact I
  | |- _ <= _ => vm_compute; discriminate
  | |- _ ≡ₚ _ => vm_compute; reflexivity
  | |- links _ _ => vm_compute; repeat split
  | |- _ <> _ => vm_compute; discriminate
  | |- True => exact I
  | |- has_type _ _ => vm_compute; reflexivity
  | |- _ => vm_compute; reflexivity
  end.
Ltac concrete_memheap := split; [| |cbn [app seg mb_addr mb_size mb_used mblock]| |split|..|cbn [app normal mblock mb_used]]; mh_field.

Lemma m1_rep : heap_at m1 HEAP (heap_record m1) [mblock 8192 448 false] [mblock 8192 448 false].
Proof. concrete_memheap. Qed.
Lemma m3_rep : heap_at m3 HEAP (heap_record m3)
  ([mblock 8192 112 true] ++ mblock 8336 64 true :: [mblock 8432 208 false]) [mblock 8432 208 false].
Proof. concrete_memheap. Qed.
Lemma m1_lock : lock_free (ks m1) HEAP.
Proof. split; mh_field. Qed.
Lemma m3_lock : lock_free (ks m3) HEAP.
Proof. split; mh_field. Qed.

Lemma rt_memheap_init_spec_witness : exists s', rt_memheap_init HEAP [104] 8192 512 m0 = Ok (RT_EOK, s') /\
  heap_at s' HEAP (initial_heap HEAP 8192 512) [mblock 8192 448 false] [mblock 8192 448 false] /\
  lock_free (ks s') HEAP.
Proof.
  apply (rt_memheap_init_spec m0 HEAP [104] 8192 512); [by split|done|by vm_compute|by vm_compute|done|done|done|by left].
Defined.
(** 100 bytes are rounded up to 112, and the rest of the block stays free *)
Lemma rt_memheap_alloc_spec_witness : exists s' h' pre suf f1 f2,
  rt_memheap_alloc HEAP 100 m1 = Ok (8224, s') /\ confined m1 s' HEAP (heap_record m1) h' /\
  [mblock 8192 448 false] = pre ++ mblock 8192 448 false :: suf /\ [mblock 8192 448 false] = f1 ++ mblock 8192 448 false :: f2 /\
  heap_at s' HEAP h' (pre ++ [mblock 8192 112 true; mblock 8336 304 false] ++ suf) ([mblock 8336 304 false] ++ f1 ++ f2).
Proof. exact (rt_memheap_alloc_spec m1 HEAP _ _ _ 100 m1_rep m1_lock). Defined.
(** the second block is joined with the free one behind it *)
Lemma rt_memheap_free_spec_witness : exists s' h' fs', rt_memheap_free 8368 m3 = Ok (tt, s') /\
  confined m3 s' HEAP (heap_record m3) h' /\ heap_at s' HEAP h' [mblock 8192 112 true; mblock 8336 304 false] fs'.
Proof. exact (rt_memheap_free_spec m3 HEAP _ _ _ _ _ m3_rep m3_lock eq_refl). Defined.
(** the second block grows into the free one behind it *)
Lemma rt_memheap_realloc_spec_witness : exists s' h' fs', rt_memheap_realloc HEAP 8368 200 m3 = Ok (8368, s') /\
  confined m3 s' HEAP (heap_record m3) h' /\
  heap_at s' HEAP h' [mblock 8192 112 true; mblock 8336 208 true; mblock 8576 64 false] fs'.
Proof. exact (rt_memheap_realloc_spec m3 HEAP _ _ _ _ _ 200 m3_rep m3_lock eq_refl ltac:(done)). Defined.
