(* ===== verification/Slab.v ===== *)
(** The slab allocator, rt-thread/kernel/src/slab.c (RT_USING_SLAB; this board
    uses Mem instead): a page allocator with a list of free runs of pages in
    address order, zones of equally sized chunks on top of it, and a table that
    says what each page is used for.  The headers of free runs and of zones and
    the links of free chunks lie in the pages themselves; they are kept by
    address beside the bytes of the memory, and stay behind when their memory is
    handed out.  The heap semaphore is a counter, as in Mem.  The proofs are in
    SlabPages and SlabZones. *)
From S2P Require Import Prelude KService Mem CpuPort Kernel.

Definition RT_MM_PAGE_SIZE : Z := 4096.
Definition RT_MM_PAGE_MASK : Z := RT_MM_PAGE_SIZE - 1.
Definition RT_MM_PAGE_BITS : Z := 12.

(** * Data *)
(** struct rt_page_head, without the padding to a page *)
Record rt_page_head := { pg_next : Z; pg_page : Z }.
Record slab_zone := {
  z_magic : Z;
  z_nfree : Z;
  z_nmax : Z;
  z_next : Z;
  z_baseptr : Z;
  z_uindex : Z;
  z_chunksize : Z;
  z_zoneindex : Z;
  z_freechunk : Z;
}.
Definition SIZEOF_SLAB_ZONE : Z := 36.
Record memusage := { mu_type : Z; mu_size : Z }.

Definition ZALLOC_SLAB_MAGIC : Z := 1370182059.   (* 0x51ab51ab *)
Definition ZALLOC_ZONE_LIMIT : Z := 16 * 1024.
Definition ZALLOC_MIN_ZONE_SIZE : Z := 32 * 1024.
Definition ZALLOC_MAX_ZONE_SIZE : Z := 128 * 1024.
Definition NZONES : Z := 72.
Definition ZONE_RELEASE_THRESH : Z := 2.
Definition MIN_CHUNK_MASK : Z := 7.
Definition PAGE_TYPE_FREE : Z := 0.
Definition PAGE_TYPE_SMALL : Z := 1.
Definition PAGE_TYPE_LARGE : Z := 2.

(** the static variables (the table [memusage] is at [memusage_tbl], its
    elements by index in [usage]), the headers and links in the pages, and the bytes *)
Record slab := {
  page_heads : gmap Z rt_page_head;
  zones : gmap Z slab_zone;
  c_next : gmap Z Z;
  usage : gmap Z memusage;
  memusage_tbl : Z;
  rt_page_list : Z;
  zone_array : list Z;
  zone_free : Z;
  zone_free_cnt : Z;
  zone_size : Z;
  zone_limit : Z;
  zone_page_cnt : Z;
  slab_start : Z;
  slab_end : Z;
  slab_sem : Z;
  slab_used : Z;
  slab_max : Z;
  slab_ram : mem;
}.
Definition set_page_heads v s := {| page_heads := v; zones := zones s; c_next := c_next s; usage := usage s; memusage_tbl := memusage_tbl s;
  rt_page_list := rt_page_list s; zone_array := zone_array s; zone_free := zone_free s; zone_free_cnt := zone_free_cnt s;
  zone_size := zone_size s; zone_limit := zone_limit s; zone_page_cnt := zone_page_cnt s; slab_start := slab_start s;
  slab_end := slab_end s; slab_sem := slab_sem s; slab_used := slab_used s; slab_max := slab_max s; slab_ram := slab_ram s |}.
Definition set_zones v s := {| page_heads := page_heads s; zones := v; c_next := c_next s; usage := usage s; memusage_tbl := memusage_tbl s;
  rt_page_list := rt_page_list s; zone_array := zone_array s; zone_free := zone_free s; zone_free_cnt := zone_free_cnt s;
  zone_size := zone_size s; zone_limit := zone_limit s; zone_page_cnt := zone_page_cnt s; slab_start := slab_start s;
  slab_end := slab_end s; slab_sem := slab_sem s; slab_used := slab_used s; slab_max := slab_max s; slab_ram := slab_ram s |}.
Definition set_c_next v s := {| page_heads := page_heads s; zones := zones s; c_next := v; usage := usage s; memusage_tbl := memusage_tbl s;
  rt_page_list := rt_page_list s; zone_array := zone_array s; zone_free := zone_free s; zone_free_cnt := zone_free_cnt s;
  zone_size := zone_size s; zone_limit := zone_limit s; zone_page_cnt := zone_page_cnt s; slab_start := slab_start s;
  slab_end := slab_end s; slab_sem := slab_sem s; slab_used := slab_used s; slab_max := slab_max s; slab_ram := slab_ram s |}.
Definition set_usage v s := {| page_heads := page_heads s; zones := zones s; c_next := c_next s; usage := v; memusage_tbl := memusage_tbl s;
  rt_page_list := rt_page_list s; zone_array := zone_array s; zone_free := zone_free s; zone_free_cnt := zone_free_cnt s;
  zone_size := zone_size s; zone_limit := zone_limit s; zone_page_cnt := zone_page_cnt s; slab_start := slab_start s;
  slab_end := slab_end s; slab_sem := slab_sem s; slab_used := slab_used s; slab_max := slab_max s; slab_ram := slab_ram s |}.
Definition set_memusage_tbl v s := {| page_heads := page_heads s; zones := zones s; c_next := c_next s; usage := usage s; memusage_tbl := v;
  rt_page_list := rt_page_list s; zone_array := zone_array s; zone_free := zone_free s; zone_free_cnt := zone_free_cnt s;
  zone_size := zone_size s; zone_limit := zone_limit s; zone_page_cnt := zone_page_cnt s; slab_start := slab_start s;
  slab_end := slab_end s; slab_sem := slab_sem s; slab_used := slab_used s; slab_max := slab_max s; slab_ram := slab_ram s |}.
Definition set_rt_page_list v s := {| page_heads := page_heads s; zones := zones s; c_next := c_next s; usage := usage s; memusage_tbl := memusage_tbl s;
  rt_page_list := v; zone_array := zone_array s; zone_free := zone_free s; zone_free_cnt := zone_free_cnt s;
  zone_size := zone_size s; zone_limit := zone_limit s; zone_page_cnt := zone_page_cnt s; slab_start := slab_start s;
  slab_end := slab_end s; slab_sem := slab_sem s; slab_used := slab_used s; slab_max := slab_max s; slab_ram := slab_ram s |}.
Definition set_zone_array v s := {| page_heads := page_heads s; zones := zones s; c_next := c_next s; usage := usage s; memusage_tbl := memusage_tbl s;
  rt_page_list := rt_page_list s; zone_array := v; zone_free := zone_free s; zone_free_cnt := zone_free_cnt s;
  zone_size := zone_size s; zone_limit := zone_limit s; zone_page_cnt := zone_page_cnt s; slab_start := slab_start s;
  slab_end := slab_end s; slab_sem := slab_sem s; slab_used := slab_used s; slab_max := slab_max s; slab_ram := slab_ram s |}.
(** zone_free and zone_free_cnt *)
Definition set_zone_free v n s := {| page_heads := page_heads s; zones := zones s; c_next := c_next s; usage := usage s; memusage_tbl := memusage_tbl s;
  rt_page_list := rt_page_list s; zone_array := zone_array s; zone_free := v; zone_free_cnt := n;
  zone_size := zone_size s; zone_limit := zone_limit s; zone_page_cnt := zone_page_cnt s; slab_start := slab_start s;
  slab_end := slab_end s; slab_sem := slab_sem s; slab_used := slab_used s; slab_max := slab_max s; slab_ram := slab_ram s |}.
(** zone_size, zone_limit and zone_page_cnt *)
Definition set_zone_sizes z l c s := {| page_heads := page_heads s; zones := zones s; c_next := c_next s; usage := usage s; memusage_tbl := memusage_tbl s;
  rt_page_list := rt_page_list s; zone_array := zone_array s; zone_free := zone_free s; zone_free_cnt := zone_free_cnt s;
  zone_size := z; zone_limit := l; zone_page_cnt := c; slab_start := slab_start s;
  slab_end := slab_end s; slab_sem := slab_sem s; slab_used := slab_used s; slab_max := slab_max s; slab_ram := slab_ram s |}.
(** heap_start and heap_end *)
Definition set_bounds a b s := {| page_heads := page_heads s; zones := zones s; c_next := c_next s; usage := usage s; memusage_tbl := memusage_tbl s;
  rt_page_list := rt_page_list s; zone_array := zone_array s; zone_free := zone_free s; zone_free_cnt := zone_free_cnt s;
  zone_size := zone_size s; zone_limit := zone_limit s; zone_page_cnt := zone_page_cnt s; slab_start := a;
  slab_end := b; slab_sem := slab_sem s; slab_used := slab_used s; slab_max := slab_max s; slab_ram := slab_ram s |}.
Definition set_slab_sem v s := {| page_heads := page_heads s; zones := zones s; c_next := c_next s; usage := usage s; memusage_tbl := memusage_tbl s;
  rt_page_list := rt_page_list s; zone_array := zone_array s; zone_free := zone_free s; zone_free_cnt := zone_free_cnt s;
  zone_size := zone_size s; zone_limit := zone_limit s; zone_page_cnt := zone_page_cnt s; slab_start := slab_start s;
  slab_end := slab_end s; slab_sem := v; slab_used := slab_used s; slab_max := slab_max s; slab_ram := slab_ram s |}.
(** used_mem and max_mem *)
Definition set_slab_stats u m s := {| page_heads := page_heads s; zones := zones s; c_next := c_next s; usage := usage s; memusage_tbl := memusage_tbl s;
  rt_page_list := rt_page_list s; zone_array := zone_array s; zone_free := zone_free s; zone_free_cnt := zone_free_cnt s;
  zone_size := zone_size s; zone_limit := zone_limit s; zone_page_cnt := zone_page_cnt s; slab_start := slab_start s;
  slab_end := slab_end s; slab_sem := slab_sem s; slab_used := u; slab_max := m; slab_ram := slab_ram s |}.
Definition set_slab_ram v s := {| page_heads := page_heads s; zones := zones s; c_next := c_next s; usage := usage s; memusage_tbl := memusage_tbl s;
  rt_page_list := rt_page_list s; zone_array := zone_array s; zone_free := zone_free s; zone_free_cnt := zone_free_cnt s;
  zone_size := zone_size s; zone_limit := zone_limit s; zone_page_cnt := zone_page_cnt s; slab_start := slab_start s;
  slab_end := slab_end s; slab_sem := slab_sem s; slab_used := slab_used s; slab_max := slab_max s; slab_ram := v |}.
Abbreviation SL := (M slab).

Definition on_slab_ram {A} (m : M mem A) : SL A := fun s =>
  match m (slab_ram s) with
  | Ok (a, r) => Ok (a, set_slab_ram r s)
  | Fault f => Fault f
  end.
(** rt_sem_take / rt_sem_release of heap_sem *)
Definition slab_take : SL unit :=
  let* n := gets slab_sem in if 0 <? n then modify (set_slab_sem (n - 1)) else raise WouldBlock.
Definition slab_release : SL unit := let* n := gets slab_sem in modify (set_slab_sem (n + 1)).

Definition get_page (b : Z) : SL rt_page_head := let* s := get in the (page_heads s !! b).
Definition put_page (b : Z) (p : rt_page_head) : SL unit :=
  modify (fun s => set_page_heads (<[b := p]> (page_heads s)) s).
Definition get_zone (z : Z) : SL slab_zone := let* s := get in the (zones s !! z).
Definition put_zone (z : Z) (v : slab_zone) : SL unit :=
  modify (fun s => set_zones (<[z := v]> (zones s)) s).
Definition upd_zone (z : Z) (f : slab_zone -> slab_zone) : SL unit :=
  let* v := get_zone z in put_zone z (f v).
Definition zn_set_nfree v z := {| z_magic := z_magic z; z_nfree := v; z_nmax := z_nmax z; z_next := z_next z;
  z_baseptr := z_baseptr z; z_uindex := z_uindex z; z_chunksize := z_chunksize z; z_zoneindex := z_zoneindex z;
  z_freechunk := z_freechunk z |}.
Definition zn_set_next v z := {| z_magic := z_magic z; z_nfree := z_nfree z; z_nmax := z_nmax z; z_next := v;
  z_baseptr := z_baseptr z; z_uindex := z_uindex z; z_chunksize := z_chunksize z; z_zoneindex := z_zoneindex z;
  z_freechunk := z_freechunk z |}.
Definition zn_set_uindex v z := {| z_magic := z_magic z; z_nfree := z_nfree z; z_nmax := z_nmax z; z_next := z_next z;
  z_baseptr := z_baseptr z; z_uindex := v; z_chunksize := z_chunksize z; z_zoneindex := z_zoneindex z;
  z_freechunk := z_freechunk z |}.
Definition zn_set_freechunk v z := {| z_magic := z_magic z; z_nfree := z_nfree z; z_nmax := z_nmax z; z_next := z_next z;
  z_baseptr := z_baseptr z; z_uindex := z_uindex z; z_chunksize := z_chunksize z; z_zoneindex := z_zoneindex z;
  z_freechunk := v |}.
Definition zn_set_magic v z := {| z_magic := v; z_nfree := z_nfree z; z_nmax := z_nmax z; z_next := z_next z;
  z_baseptr := z_baseptr z; z_uindex := z_uindex z; z_chunksize := z_chunksize z; z_zoneindex := z_zoneindex z;
  z_freechunk := z_freechunk z |}.

(** * The page allocator *)
(** the address [n] pages behind [b] *)
Definition page_add (b n : Z) : Z := u32 (b + n * RT_MM_PAGE_SIZE).
(** *prev = v, where [prev] is &rt_page_list or &b->next *)
Definition store_prev (prev : option Z) (v : Z) : SL unit :=
  match prev with
  | None => modify (set_rt_page_list v)
  | Some b => let* p := get_page b in put_page b {| pg_next := v; pg_page := pg_page p |}
  end.

Fixpoint page_alloc_loop (fuel : nat) (npages : Z) (prev : option Z) (b : Z) : SL Z :=
  match fuel with
  | O => raise OutOfFuel
  | S fuel =>
      if b =? RT_NULL then ret b
      else
        let* p := get_page b in
        if npages <? pg_page p then
          let n := page_add b npages in
          put_page n {| pg_next := pg_next p; pg_page := pg_page p - npages |};;
          store_prev prev n;;
          ret b
        else if pg_page p =? npages then store_prev prev (pg_next p);; ret b
        else page_alloc_loop fuel npages (Some b) (pg_next p)
  end.
Definition rt_page_alloc (npages : Z) : SL Z :=
  if npages =? 0 then ret RT_NULL
  else
    slab_take;;
    let* s := get in
    let* b := page_alloc_loop (S (base.size (page_heads s))) npages None (rt_page_list s) in
    slab_release;;
    ret b.

Fixpoint page_free_loop (fuel : nat) (n npages : Z) (prev : option Z) (b : Z) : SL unit :=
  match fuel with
  | O => raise OutOfFuel
  | S fuel =>
      let insert := put_page n {| pg_next := b; pg_page := npages |};; store_prev prev n in
      if b =? RT_NULL then insert
      else
        let* p := get_page b in
        rt_assert (0 <? pg_page p);;
        rt_assert ((n <? b) || (page_add b (pg_page p) <=? n))%bool;;
        if page_add b (pg_page p) =? n then
          put_page b {| pg_next := pg_next p; pg_page := u32 (pg_page p + npages) |};;
          when (page_add b (u32 (pg_page p + npages)) =? pg_next p)
            (let* q := get_page (pg_next p) in
             put_page b {| pg_next := pg_next q; pg_page := u32 (pg_page p + npages + pg_page q) |})
        else if b =? page_add n npages then
          put_page n {| pg_next := pg_next p; pg_page := u32 (pg_page p + npages) |};;
          store_prev prev n
        else if page_add n npages <? b then insert
        else page_free_loop fuel n npages (Some b) (pg_next p)
  end.
Definition rt_page_free (addr npages : Z) : SL unit :=
  rt_assert (negb (addr =? RT_NULL));;
  rt_assert (addr mod RT_MM_PAGE_SIZE =? 0);;
  rt_assert (negb (npages =? 0));;
  slab_take;;
  (let* s := get in page_free_loop (S (base.size (page_heads s))) addr npages None (rt_page_list s));;
  slab_release.

Definition rt_page_init (addr npages : Z) : SL unit :=
  rt_assert (negb (addr =? RT_NULL));;
  rt_assert (negb (npages =? 0));;
  modify (set_rt_page_list RT_NULL);;
  rt_page_free addr npages.

(** * rt_system_heap_init *)
Fixpoint zone_size_loop (fuel : nat) (zone_size limsize : Z) : Z :=
  match fuel with
  | O => zone_size
  | S fuel =>
      if ((zone_size <? ZALLOC_MAX_ZONE_SIZE) && (2 * zone_size <? limsize / 1024))%bool
      then zone_size_loop fuel (2 * zone_size) limsize else zone_size
  end.
(** The message for a wrong address and the check RT_DEBUG_NOT_IN_INTERRUPT are
    left out.  Two rounds of the loop reach the largest zone size. *)
Definition rt_system_heap_init (begin_addr end_addr : Z) : SL unit :=
  let heap_start := RT_ALIGN begin_addr RT_MM_PAGE_SIZE in
  let heap_end := RT_ALIGN_DOWN end_addr RT_MM_PAGE_SIZE in
  modify (set_bounds heap_start heap_end);;
  if heap_end <=? heap_start then ret tt
  else
    let limsize := heap_end - heap_start in
    let npages := limsize / RT_MM_PAGE_SIZE in
    modify (set_slab_sem 1);;
    rt_page_init heap_start npages;;
    let zsize := zone_size_loop 3 ZALLOC_MIN_ZONE_SIZE limsize in
    let limit := if ZALLOC_ZONE_LIMIT <? zsize / 4 then ZALLOC_ZONE_LIMIT else zsize / 4 in
    modify (set_zone_sizes zsize limit (zsize / RT_MM_PAGE_SIZE));;
    let limsize := RT_ALIGN (u32 (npages * 4)) RT_MM_PAGE_SIZE in
    let* tbl := rt_page_alloc (limsize / RT_MM_PAGE_SIZE) in
    modify (set_memusage_tbl tbl).

(** * Size classes *)
(** zoneindex: the index of the zone and the size of its chunks; the message
    for a size that no zone has is left out *)
Definition zoneindex (n : Z) : Z * Z :=
  let up k := Z.land (u32 (n + k)) (Z.lnot k) in
  if n <? 128 then (up 7 / 8 - 1, up 7)
  else if n <? 256 then (up 15 / 16 + 7, up 15)
  else if n <? 8192 then
    if n <? 512 then (up 31 / 32 + 15, up 31)
    else if n <? 1024 then (up 63 / 64 + 23, up 63)
    else if n <? 2048 then (up 127 / 128 + 31, up 127)
    else if n <? 4096 then (up 255 / 256 + 39, up 255)
    else (up 511 / 512 + 47, up 511)
  else if n <? 16384 then (up 1023 / 1024 + 55, up 1023)
  else (0, n).

(** * rt_malloc *)
Definition slab_add_used (d : Z) : SL unit :=
  modify (fun s => let u := u32 (slab_used s + d) in
    set_slab_stats u (if slab_max s <? u then u else slab_max s) s).
Definition slab_sub_used (d : Z) : SL unit :=
  modify (fun s => set_slab_stats (u32 (slab_used s - d)) (slab_max s) s).

(** the index of the descriptor btokup (addr) *)
Definition btokup (s : slab) (addr : Z) : Z := Z.shiftr (u32 (addr - slab_start s)) RT_MM_PAGE_BITS.
Definition put_usage (k : Z) (u : memusage) : SL unit :=
  modify (fun s => set_usage (<[k := u]> (usage s)) s).
Definition get_usage (k : Z) : SL memusage := let* s := get in the (usage s !! k).
(** for (off = 0, kup = btokup (z); off < zone_page_cnt; off ++) *)
Fixpoint set_usage_loop (n : nat) (kup off : Z) (f : Z -> memusage) : SL unit :=
  match n with
  | O => ret tt
  | S n => put_usage kup (f off);; set_usage_loop n (kup + 1) (off + 1) f
  end.

Definition malloc_large (size : Z) : SL Z :=
  let size := RT_ALIGN size RT_MM_PAGE_SIZE in
  let* chunk := rt_page_alloc (Z.shiftr size RT_MM_PAGE_BITS) in
  if chunk =? RT_NULL then ret RT_NULL
  else
    (let* s := get in
     put_usage (btokup s chunk) {| mu_type := PAGE_TYPE_LARGE; mu_size := Z.shiftr size RT_MM_PAGE_BITS |});;
    slab_take;;
    slab_add_used size;;
    slab_release;;
    ret chunk.

Definition zone_head (zi : Z) : SL Z := let* s := get in the (zone_array s !! Z.to_nat zi).
Definition set_zone_head (zi z : Z) : SL unit :=
  modify (fun s => set_zone_array (<[Z.to_nat zi := z]> (zone_array s)) s).

(** a chunk of the zone [z], the first one with chunks of [size] bytes *)
Definition zone_take (zi z size : Z) : SL Z :=
  (let* v := get_zone z in rt_assert (0 <? z_nfree v));;
  upd_zone z (fun v => zn_set_nfree (z_nfree v - 1) v);;
  (let* v := get_zone z in
   when (z_nfree v =? 0) (set_zone_head zi (z_next v);; upd_zone z (zn_set_next RT_NULL)));;
  let* v := get_zone z in
  let* chunk :=
    (if negb (z_uindex v + 1 =? z_nmax v) then
       upd_zone z (zn_set_uindex (z_uindex v + 1));;
       ret (u32 (z_baseptr v + (z_uindex v + 1) * size))
     else
       let* n := (let* s := get in the (c_next s !! z_freechunk v)) in
       upd_zone z (zn_set_freechunk n);;
       ret (z_freechunk v)) in
  slab_add_used (z_chunksize v);;
  slab_release;;
  ret chunk.

(** the offset of the chunks in a zone for chunks of [size] bytes *)
Definition chunk_offset (size : Z) : Z :=
  if Z.lor size (size - 1) + 1 =? Z.shiftl size 1
  then Z.land (SIZEOF_SLAB_ZONE + size - 1) (Z.lnot (size - 1))
  else Z.land (SIZEOF_SLAB_ZONE + MIN_CHUNK_MASK) (Z.lnot MIN_CHUNK_MASK).

(** the memory of a new zone, from the free zones or the page allocator; NULL
    if there is none, and then the semaphore has been released *)
Definition zone_memory : SL Z :=
  let* s := get in
  let z := zone_free s in
  if negb (z =? RT_NULL) then
    let* v := get_zone z in
    modify (fun s => set_zone_free (z_next v) (zone_free_cnt s - 1) s);;
    ret z
  else
    slab_release;;
    let* s := get in
    let* z := rt_page_alloc (zone_size s / RT_MM_PAGE_SIZE) in
    if z =? RT_NULL then ret RT_NULL
    else
      slab_take;;
      let* s := get in
      set_usage_loop (Z.to_nat (zone_page_cnt s)) (btokup s z) 0
        (fun off => {| mu_type := PAGE_TYPE_SMALL; mu_size := off |});;
      ret z.

(** the zone header written over the cleared memory, and its first chunk *)
Definition zone_setup (zi z size : Z) : SL Z :=
  let off := chunk_offset size in
  let* s := get in
  let nmax := (zone_size s - off) / size in
  let* next := zone_head zi in
  put_zone z {| z_magic := ZALLOC_SLAB_MAGIC; z_nfree := nmax - 1; z_nmax := nmax; z_next := next;
    z_baseptr := u32 (z + off); z_uindex := 0; z_chunksize := size; z_zoneindex := zi; z_freechunk := RT_NULL |};;
  set_zone_head zi z;;
  slab_add_used size;;
  slab_release;;
  ret (u32 (z + off)).

Definition rt_malloc (size : Z) : SL Z :=
  if size =? 0 then ret RT_NULL
  else
    let* s := get in
    if zone_limit s <=? size then malloc_large size
    else
      slab_take;;
      let zi := (zoneindex size).1 in
      let size := (zoneindex size).2 in
      rt_assert (zi <? NZONES);;
      let* z := zone_head zi in
      if negb (z =? RT_NULL) then zone_take zi z size
      else
        let* z := zone_memory in
        if z =? RT_NULL then ret RT_NULL else zone_setup zi z size.

(** * rt_free *)
(** ptr & ~RT_MM_PAGE_MASK *)
Definition page_of (ptr : Z) : Z := Z.land ptr (Z.lnot RT_MM_PAGE_MASK).
Definition zone_of (ptr : Z) (kup : memusage) : Z := u32 (page_of ptr - mu_size kup * RT_MM_PAGE_SIZE).

Definition free_large (k ptr : Z) (kup : memusage) : SL unit :=
  slab_take;;
  let size := mu_size kup in
  put_usage k {| mu_type := mu_type kup; mu_size := 0 |};;
  slab_sub_used (size * RT_MM_PAGE_SIZE);;
  slab_release;;
  rt_page_free ptr size.

(** the chunk goes to the free list of its zone *)
Definition zone_put (z chunk : Z) : SL unit :=
  (let* v := get_zone z in modify (fun s => set_c_next (<[chunk := z_freechunk v]> (c_next s)) s));;
  upd_zone z (zn_set_freechunk chunk);;
  (let* v := get_zone z in slab_sub_used (z_chunksize v));;
  let* v := get_zone z in
  upd_zone z (zn_set_nfree (z_nfree v + 1));;
  when (z_nfree v =? 0)
    ((let* next := zone_head (z_zoneindex v) in upd_zone z (zn_set_next next));;
     set_zone_head (z_zoneindex v) z).

(** remove the zone [z] from the list that starts at zone_array[zi] *)
Fixpoint zone_unlink_loop (fuel : nat) (zi z : Z) (prev : option Z) (p : Z) : SL unit :=
  match fuel with
  | O => raise OutOfFuel
  | S fuel =>
      if p =? z then
        let* v := get_zone z in
        match prev with
        | None => set_zone_head zi (z_next v)
        | Some q => upd_zone q (zn_set_next (z_next v))
        end
      else let* v := get_zone p in zone_unlink_loop fuel zi z (Some p) (z_next v)
  end.

(** give the first free zone back to the page allocator *)
Definition zone_release : SL unit :=
  let* s := get in
  let z := zone_free s in
  let* v := get_zone z in
  modify (fun s => set_zone_free (z_next v) (zone_free_cnt s - 1) s);;
  set_usage_loop (Z.to_nat (zone_page_cnt s)) (btokup s z) 0
    (fun _ => {| mu_type := PAGE_TYPE_FREE; mu_size := 0 |});;
  slab_release;;
  rt_page_free z (zone_size s / RT_MM_PAGE_SIZE).

(** a zone that has become free leaves its list when there are others *)
Definition zone_retire (z : Z) : SL unit :=
  let* v := get_zone z in
  let* hd := zone_head (z_zoneindex v) in
  if ((z_nfree v =? z_nmax v) && (negb (z_next v =? RT_NULL) || negb (hd =? z)))%bool then
    (let* s := get in zone_unlink_loop (S (base.size (zones s))) (z_zoneindex v) z None hd);;
    upd_zone z (zn_set_magic (-1));;
    (let* s := get in upd_zone z (zn_set_next (zone_free s)));;
    modify (fun s => set_zone_free z (zone_free_cnt s + 1) s);;
    let* s := get in
    if ZONE_RELEASE_THRESH <? zone_free_cnt s then zone_release else slab_release
  else slab_release.

Definition rt_free (ptr : Z) : SL unit :=
  if ptr =? RT_NULL then ret tt
  else
    let* s := get in
    let k := btokup s (page_of ptr) in
    let* kup := get_usage k in
    if mu_type kup =? PAGE_TYPE_LARGE then free_large k ptr kup
    else
      slab_take;;
      let z := zone_of ptr kup in
      (let* v := get_zone z in rt_assert (z_magic v =? ZALLOC_SLAB_MAGIC));;
      zone_put z ptr;;
      zone_retire z.

(** * rt_realloc, rt_calloc, rt_memory_info *)
(** allocate, copy the first [n] bytes, release *)
Definition slab_move (ptr size n : Z) : SL Z :=
  let* nptr := rt_malloc size in
  if nptr =? RT_NULL then ret RT_NULL
  else on_slab_ram (rt_memcpy nptr ptr n);; rt_free ptr;; ret nptr.
Definition rt_realloc (ptr size : Z) : SL Z :=
  if ptr =? RT_NULL then rt_malloc size
  else if size =? 0 then rt_free ptr;; ret RT_NULL
  else
    let* s := get in
    let* kup := get_usage (btokup s (page_of ptr)) in
    if mu_type kup =? PAGE_TYPE_LARGE then
      let osize := u32 (Z.shiftl (mu_size kup) RT_MM_PAGE_BITS) in
      slab_move ptr size (if osize <? size then osize else size)
    else if mu_type kup =? PAGE_TYPE_SMALL then
      let* v := get_zone (zone_of ptr kup) in
      rt_assert (z_magic v =? ZALLOC_SLAB_MAGIC);;
      let size := (zoneindex size).2 in
      if z_chunksize v =? size then ret ptr
      else slab_move ptr size (if z_chunksize v <? size then z_chunksize v else size)
    else ret RT_NULL.

Definition rt_calloc (count size : Z) : SL Z :=
  let* p := rt_malloc (u32 (count * size)) in
  when (negb (p =? RT_NULL)) (on_slab_ram (rt_memset p 0 (u32 (count * size)));; ret tt);;
  ret p.

(** total, used and max_used *)
Definition rt_memory_info : SL (Z * Z * Z) :=
  gets (fun s => (u32 (slab_end s - slab_start s), slab_used s, slab_max s)).
