(* ===== verification/SlabPages.v ===== *)
(** Correctness of the page allocator of slab.c: its list is a list of runs of
    free pages in address order, no two of them adjacent; allocation is first
    fit, release inserts a run and joins it with its neighbours, and the set of
    free pages changes by exactly the pages in question. *)
From S2P Require Import Prelude KService Mem CpuPort Kernel Slab.

(** * Runs of pages *)
Definition run : Type := Z * Z.
Definition run_end (r : run) : Z := r.1 + r.2 * RT_MM_PAGE_SIZE.
(** sorted, separate runs between [lo] and [hi] *)
Fixpoint runs_ok (lo hi : Z) (l : list run) : Prop :=
  match l with
  | [] => True
  | r :: l => lo <= r.1 /\ 0 < r.2 /\ run_end r <= hi /\ r.1 mod RT_MM_PAGE_SIZE = 0 /\ runs_ok (run_end r + 1) hi l
  end.
Definition in_run (x : Z) (r : run) : Prop := r.1 <= x < run_end r.
(** the addresses in free pages *)
Definition free_at (l : list run) (x : Z) : Prop := Exists (in_run x) l.

(** first fit *)
Fixpoint run_alloc (n : Z) (l : list run) : option (Z * list run) :=
  match l with
  | [] => None
  | r :: l =>
      if n <? r.2 then Some (r.1, (r.1 + n * RT_MM_PAGE_SIZE, r.2 - n) :: l)
      else if r.2 =? n then Some (r.1, l)
      else prod_map id (cons r) <$> run_alloc n l
  end.
(** insert a run, and join it with its neighbours *)
Fixpoint run_free (a n : Z) (l : list run) : list run :=
  match l with
  | [] => [(a, n)]
  | r :: l =>
      if run_end r =? a then
        match l with
        | q :: l' => if a + n * RT_MM_PAGE_SIZE =? q.1 then (r.1, r.2 + n + q.2) :: l' else (r.1, r.2 + n) :: l
        | [] => [(r.1, r.2 + n)]
        end
      else if r.1 =? a + n * RT_MM_PAGE_SIZE then (a, r.2 + n) :: l
      else if a + n * RT_MM_PAGE_SIZE <? r.1 then (a, n) :: r :: l
      else r :: run_free a n l
  end.
(** the run [a, n] lies between [lo] and [hi] and none of its pages is free *)
Record outside (lo hi a n : Z) (l : list run) : Prop := {
  os_n : 0 < n;
  os_align : a mod RT_MM_PAGE_SIZE = 0;
  os_lo : lo <= a;
  os_hi : a + n * RT_MM_PAGE_SIZE <= hi;
  os_off : forall x, a <= x < a + n * RT_MM_PAGE_SIZE -> ~ free_at l x;
}.

Ltac pages := unfold in_run, run_end in *; cbn [fst snd] in *; unfold RT_MM_PAGE_SIZE in *.
Lemma runs_lo lo lo' hi l : lo' <= lo -> runs_ok lo hi l -> runs_ok lo' hi l.
Proof. destruct l as [|r l]; [done|]. intros Hle (H1 & H2). split; [lia|done]. Qed.
Lemma runs_free_above lo hi l x : runs_ok lo hi l -> free_at l x -> lo <= x < hi.
Proof.
  unfold free_at. revert lo. induction l as [|r l IH]; intros lo Hr Hx; [by inversion Hx|]. destruct Hr as (H1 & H2 & H3 & _ & Hr).
  apply Exists_cons in Hx as [Hx|Hx]; [pages; lia|]. apply (IH _ Hr) in Hx. pages. lia.
Qed.

Lemma run_alloc_spec lo hi n l : 0 < n -> runs_ok lo hi l ->
  match run_alloc n l with
  | Some (a, l') => runs_ok lo hi l' /\ lo <= a /\ a mod RT_MM_PAGE_SIZE = 0 /\
      (forall x, free_at l x <-> a <= x < a + n * RT_MM_PAGE_SIZE \/ free_at l' x) /\
      (forall x, a <= x < a + n * RT_MM_PAGE_SIZE -> ~ free_at l' x)
  | None => Forall (fun r => r.2 < n) l
  end.
Proof.
  intros Hn. unfold free_at. revert lo. induction l as [|r l IH]; intros lo Hr; cbn [run_alloc]; [by constructor|].
  destruct Hr as (H1 & H2 & H3 & H4 & Hr). destruct (Z.ltb_spec n r.2) as [Hlt|Hge]; [|destruct (Z.eqb_spec r.2 n) as [He|Hne]].
  - split_and!; [|done|done|..].
    + cbn [runs_ok fst snd]. split_and!; [pages; lia|lia|pages; lia| |eapply runs_lo; [|exact Hr]; pages; lia].
      pages. rewrite Z.mod_add by lia. done.
    + intros x. rewrite !Exists_cons. pages. intuition lia.
    + intros x Hx. rewrite Exists_cons. intros [Hx'|Hx']; [pages; lia|]. apply (runs_free_above _ _ _ _ Hr) in Hx'. pages. lia.
  - split_and!; [|done|done|..].
    + eapply runs_lo; [|exact Hr]. pages. lia.
    + intros x. rewrite !Exists_cons. subst n. pages. intuition lia.
    + intros x Hx Hx'. apply (runs_free_above _ _ _ _ Hr) in Hx'. subst n. pages. lia.
  - specialize (IH _ Hr). destruct (run_alloc n l) as [[a l']|]; cbn [fmap option_fmap option_map prod_map id].
    + destruct IH as (G1 & G2 & G3 & G4 & G5). split_and!; [by split_and!|pages; lia|done|..].
      * intros x. rewrite !Exists_cons, G4. tauto.
      * intros x Hx. rewrite Exists_cons. intros [Hx'|Hx']; [pages; lia|by eapply G5].
    + constructor; [lia|done].
Qed.
Lemma outside_disjoint lo hi a n r l : outside lo hi a n (r :: l) -> 0 < r.2 ->
  a + n * RT_MM_PAGE_SIZE <= r.1 \/ run_end r <= a.
Proof.
  intros [H1 H2 H3 H4 H5] Hr. destruct (Z.le_gt_cases (a + n * RT_MM_PAGE_SIZE) r.1) as [|Hlt]; [by left|right].
  destruct (Z.le_gt_cases (run_end r) a) as [|Hgt]; [done|]. exfalso. apply (H5 (Z.max a r.1)); [pages; lia|].
  apply Exists_cons. left. pages. lia.
Qed.
Lemma outside_cons lo lo' hi a n r l : outside lo hi a n (r :: l) -> lo' <= a -> outside lo' hi a n l.
Proof.
  intros [H1 H2 H3 H4 H5] Ha. split; [done..|]. intros x Hx Hf. apply (H5 x Hx). apply Exists_cons. by right.
Qed.
Lemma run_free_spec lo hi a n l : runs_ok lo hi l -> outside lo hi a n l ->
  runs_ok lo hi (run_free a n l) /\
  forall x, free_at (run_free a n l) x <-> a <= x < a + n * RT_MM_PAGE_SIZE \/ free_at l x.
Proof.
  unfold free_at. revert lo. induction l as [|r l IH]; intros lo Hr Ho; pose proof Ho as [O1 O2 O3 O4 O5]; cbn [run_free].
  - split; [cbn; pages; split_and!; (done || lia)|]. intros x. rewrite Exists_cons, !Exists_nil. pages. tauto.
  - destruct Hr as (H1 & H2 & H3 & H4 & Hr). pose proof (outside_disjoint _ _ _ _ _ _ Ho H2) as Hd.
    destruct (Z.eqb_spec (run_end r) a) as [He|Hne].
    + destruct l as [|q l].
      * split; [cbn; pages; split_and!; (done || lia)|]. intros x. rewrite !Exists_cons, !Exists_nil. pages. intuition lia.
      * destruct Hr as (Q1 & Q2 & Q3 & Q4 & Hr).
        pose proof (outside_disjoint _ _ _ _ _ _ (outside_cons _ a _ _ _ _ _ Ho ltac:(lia)) Q2) as Hq.
        destruct (Z.eqb_spec (a + n * RT_MM_PAGE_SIZE) q.1) as [Hqe|Hqne].
        -- split; [cbn [runs_ok fst snd]; pages; split_and!; try (done || lia); eapply runs_lo; [|exact Hr]; pages; lia|].
           intros x. rewrite !Exists_cons. pages. intuition lia.
        -- split; [cbn [runs_ok fst snd]; pages; split_and!; try (done || lia)|].
           intros x. rewrite !Exists_cons. pages. intuition lia.
    + destruct (Z.eqb_spec r.1 (a + n * RT_MM_PAGE_SIZE)) as [Hre|Hrne].
      { split; [cbn [runs_ok fst snd]; pages; split_and!; try (done || lia); eapply runs_lo; [|exact Hr]; pages; lia|].
        intros x. rewrite !Exists_cons. pages. intuition lia. }
      destruct (Z.ltb_spec (a + n * RT_MM_PAGE_SIZE) r.1) as [Hlt|Hge].
      { split; [cbn [runs_ok fst snd]; pages; split_and!; try (done || lia)|].
        intros x. rewrite !Exists_cons. pages. intuition lia. }
      destruct (IH (run_end r + 1)) as [I1 I2]; [done|eapply outside_cons; [exact Ho|lia]|].
      split; [by split_and!|]. intros x. rewrite !Exists_cons, I2. tauto.
Qed.

(** * The list in memory *)
(** from [p] to [q], through the heads in [ph] *)
Fixpoint pchain (ph : gmap Z rt_page_head) (p : Z) (l : list run) (q : Z) : Prop :=
  match l with
  | [] => p = q
  | r :: l => p = r.1 /\ exists h, ph !! p = Some h /\ pg_page h = r.2 /\ pchain ph (pg_next h) l q
  end.
Lemma pchain_app ph p l k q : pchain ph p (l ++ k) q <-> exists m, pchain ph p l m /\ pchain ph m k q.
Proof.
  revert p. induction l as [|r l IH]; intros p; cbn.
  - split; [intros H; by exists p|]. by intros (m & -> & H).
  - split.
    + intros (E & h & H1 & H2 & H3). apply IH in H3 as (m & H4 & H5). exists m. split; [|done]. split; [done|by exists h].
    + intros (m & (E & h & H1 & H2 & H3) & H4). split; [done|]. exists h. split; [done|]. split; [done|]. apply IH. by exists m.
Qed.
Lemma pchain_frame ph ph' p l q : pchain ph p l q -> (forall x, x ∈ l.*1 -> ph' !! x = ph !! x) -> pchain ph' p l q.
Proof.
  revert p. induction l as [|r l IH]; intros p; cbn; [done|]. intros (-> & h & H1 & H2 & H3) Hf. split; [done|].
  exists h. rewrite Hf by set_solver. split; [done|]. split; [done|]. apply IH; [done|]. set_solver.
Qed.
Lemma pchain_insert ph k h p l q : pchain ph p l q -> k ∉ l.*1 -> pchain (<[k := h]> ph) p l q.
Proof. intros Hc Hk. eapply pchain_frame; [exact Hc|]. intros x Hx. apply lookup_insert_ne. by intros ->. Qed.
Record pages_at (s : slab) (lo hi : Z) (l : list run) : Prop := {
  pa_chain : pchain (page_heads s) (rt_page_list s) l RT_NULL;
  pa_runs : runs_ok lo hi l;
  pa_lo : 0 < lo;
  pa_hi : hi < 4294967296;
}.
Lemma get_page_run b h s : page_heads s !! b = Some h -> get_page b s = Ok (h, s).
Proof. intros H. unfold get_page, bind, get. by rewrite H. Qed.
(** nothing but the list of free pages has changed *)
Definition pages_only (s s' : slab) : Prop := exists ph hd, s' = set_rt_page_list hd (set_page_heads ph s).
Lemma pages_only_heads ph s : pages_only s (set_page_heads ph s).
Proof. exists ph, (rt_page_list s). by destruct s. Qed.
Lemma pages_only_refl s : pages_only s s.
Proof. exists (page_heads s), (rt_page_list s). by destruct s. Qed.
Lemma pages_only_trans s s1 s2 : pages_only s s1 -> pages_only s1 s2 -> pages_only s s2.
Proof. intros (ph & hd & ->) (ph' & hd' & ->). by exists ph', hd'. Qed.

(** the heads of the runs are distinct *)
Lemma runs_heads lo hi l x : runs_ok lo hi l -> x ∈ l.*1 -> lo <= x /\ free_at l x.
Proof.
  unfold free_at. revert lo. induction l as [|r l IH]; intros lo Hr Hx; cbn in Hx; [by apply not_elem_of_nil in Hx|].
  destruct Hr as (H1 & H2 & H3 & _ & Hr). rewrite Exists_cons. apply elem_of_cons in Hx as [->|Hx]; [split; [done|left]; pages; lia|].
  apply (IH _ Hr) in Hx as [Hx Hf]. split; [pages; lia|by right].
Qed.
Lemma runs_NoDup lo hi l : runs_ok lo hi l -> NoDup l.*1.
Proof.
  revert lo. induction l as [|r l IH]; intros lo Hr; [constructor|]. destruct Hr as (H1 & H2 & H3 & _ & Hr). cbn.
  constructor; [|by eapply IH]. intros Hx. apply (runs_heads _ _ _ _ Hr) in Hx as [Hx _]. pages. lia.
Qed.
Lemma runs_split lo hi pre suf : runs_ok lo hi (pre ++ suf) -> NoDup pre.*1 /\ (forall x, x ∈ pre.*1 -> x ∉ suf.*1) /\ NoDup suf.*1.
Proof. intros Hr. apply runs_NoDup in Hr. rewrite fmap_app in Hr. by apply NoDup_app in Hr. Qed.
Lemma runs_suffix lo hi pre suf : runs_ok lo hi (pre ++ suf) -> exists lo', lo <= lo' /\ runs_ok lo' hi suf.
Proof.
  revert lo. induction pre as [|r pre IH]; intros lo Hr; [by exists lo|]. destruct Hr as (H1 & H2 & H3 & _ & Hr).
  apply IH in Hr as (lo' & Hle & Hr). exists lo'. split; [pages; lia|done].
Qed.
(** nothing inside or right after a run is a head *)
Lemma runs_gap lo hi pre r suf k : runs_ok lo hi (pre ++ r :: suf) -> r.1 < k <= run_end r -> k ∉ (pre ++ r :: suf).*1.
Proof.
  revert lo. induction pre as [|q pre IH]; intros lo (H1 & H2 & H3 & _ & Hr) Hk; cbn.
  - apply not_elem_of_cons. split; [lia|]. intros Hx. apply (runs_heads _ _ _ _ Hr) in Hx as [Hx _]. lia.
  - apply not_elem_of_cons. split; [|by eapply IH]. intros ->. apply runs_suffix in Hr as (lo' & Hle & (R1 & R2 & R3 & _)). pages. lia.
Qed.
Lemma pchain_dom ph p l q : pchain ph p l q -> (list_to_set l.*1 : gset Z) ⊆ dom ph.
Proof.
  revert p. induction l as [|r l IH]; intros p; cbn; [set_solver|]. intros (-> & h & H1 & _ & H2). apply IH in H2.
  apply elem_of_dom_2 in H1. set_solver.
Qed.
(** so the length of the list bounds the loops *)
Lemma pages_length s lo hi l : pages_at s lo hi l -> (length l <= base.size (page_heads s))%nat.
Proof.
  intros [Hc Hr _ _]. apply runs_NoDup in Hr. apply pchain_dom, subseteq_size in Hc.
  rewrite size_list_to_set, size_dom, length_fmap in Hc by done. done.
Qed.

Lemma store_prev_run pre b v s : pchain (page_heads s) (rt_page_list s) pre b -> NoDup pre.*1 ->
  exists s', store_prev (fst <$> last pre) v s = Ok (tt, s') /\ pages_only s s' /\
    pchain (page_heads s') (rt_page_list s') pre v /\ forall x, x ∉ pre.*1 -> page_heads s' !! x = page_heads s !! x.
Proof.
  intros Hc Hn. destruct pre as [|r pre _] using rev_ind.
  - exists (set_rt_page_list v s). split; [done|]. split; [by exists (page_heads s), v; destruct s|]. done.
  - rewrite last_snoc. cbn [fmap option_fmap option_map]. apply pchain_app in Hc as (m & H1 & (-> & h & H2 & H3 & H4)).
    rewrite fmap_app in *. cbn [fmap list_fmap] in *. apply NoDup_app in Hn as (_ & Hn & _).
    eexists. split; [unfold store_prev; erewrite bind_run; [reflexivity|by apply get_page_run]|]. split; [|split].
    + apply pages_only_heads.
    + cbn. apply pchain_app. exists r.1. split.
      * apply pchain_insert; [done|]. intros Hx. apply (Hn _ Hx). set_solver.
      * cbn. split; [done|]. eexists. split; [apply lookup_insert_eq|]. done.
    + intros x Hx. cbn. apply lookup_insert_ne. set_solver.
Qed.
(** the run of [n] pages at [k], linked behind [pre] and before [suf] *)
Lemma page_link_run pre b k n nx suf s : pchain (page_heads s) (rt_page_list s) pre b -> pchain (page_heads s) nx suf RT_NULL ->
  NoDup (pre ++ suf).*1 -> k ∉ (pre ++ suf).*1 ->
  exists s', (put_page k {| pg_next := nx; pg_page := n |};; store_prev (fst <$> last pre) k) s = Ok (tt, s') /\
    pages_only s s' /\ pchain (page_heads s') (rt_page_list s') (pre ++ (k, n) :: suf) RT_NULL.
Proof.
  rewrite fmap_app, NoDup_app, not_elem_of_app. intros Hp Hs (N1 & N2 & _) [K1 K2].
  set (s1 := set_page_heads (<[k := {| pg_next := nx; pg_page := n |}]> (page_heads s)) s).
  destruct (store_prev_run pre b k s1) as (s' & Hrun & Hpo & Hc & Hfr); [by apply pchain_insert|done|].
  exists s'. split; [by erewrite bind_run; [|reflexivity]|]. split; [eapply pages_only_trans; [apply pages_only_heads|done]|].
  apply pchain_app. exists k. split; [done|]. cbn. split; [done|]. rewrite Hfr by done. eexists.
  split; [apply lookup_insert_eq|]. split; [done|]. eapply pchain_frame; [exact Hs|]. intros x Hx.
  rewrite Hfr by (intros Hx'; by apply (N2 _ Hx')). apply lookup_insert_ne. by intros <-.
Qed.
(** [pre] followed by [suf] *)
Lemma page_unlink_run pre b nx suf s : pchain (page_heads s) (rt_page_list s) pre b -> pchain (page_heads s) nx suf RT_NULL ->
  NoDup (pre ++ suf).*1 -> exists s', store_prev (fst <$> last pre) nx s = Ok (tt, s') /\
    pages_only s s' /\ pchain (page_heads s') (rt_page_list s') (pre ++ suf) RT_NULL.
Proof.
  rewrite fmap_app, NoDup_app. intros Hp Hs (N1 & N2 & _).
  destruct (store_prev_run pre b nx s Hp N1) as (s' & Hrun & Hpo & Hc & Hfr). exists s'. split; [done|]. split; [done|].
  apply pchain_app. exists nx. split; [done|]. eapply pchain_frame; [exact Hs|]. intros x Hx. apply Hfr.
  intros Hx'. by apply (N2 _ Hx').
Qed.
Lemma NoDup_drop (pre suf : list run) r : NoDup (pre ++ r :: suf).*1 -> NoDup (pre ++ suf).*1.
Proof. rewrite !fmap_app. cbn. rewrite !NoDup_app, NoDup_cons. intros (? & H & ? & ?). split_and!; [done| |done]. set_solver. Qed.
Lemma notin_drop (pre suf : list run) r k : k ∉ (pre ++ r :: suf).*1 -> k ∉ (pre ++ suf).*1.
Proof. rewrite !fmap_app. cbn. set_solver. Qed.

(** * Allocation *)
Lemma page_alloc_loop_run n lo hi : 0 < n -> 0 < lo -> hi < 4294967296 -> forall suf pre b s fuel,
  pchain (page_heads s) (rt_page_list s) pre b -> pchain (page_heads s) b suf RT_NULL ->
  runs_ok lo hi (pre ++ suf) -> (length suf < fuel)%nat ->
  match run_alloc n suf with
  | Some (a, suf') => exists s', page_alloc_loop fuel n (fst <$> last pre) b s = Ok (a, s') /\ pages_only s s' /\
      pchain (page_heads s') (rt_page_list s') (pre ++ suf') RT_NULL
  | None => page_alloc_loop fuel n (fst <$> last pre) b s = Ok (RT_NULL, s)
  end.
Proof.
  intros Hn Hlo Hhi. induction suf as [|r suf IH]; intros pre b s fuel Hp Hs Hr Hf; (destruct fuel as [|fuel]; [cbn in Hf; lia|]).
  { cbn in Hs. by subst. }
  destruct Hs as (-> & h & Hh & Epg & Hs). destruct (runs_suffix _ _ _ _ Hr) as (lo' & Hlo' & (R1 & R2 & R3 & R4 & R5)).
  pose proof (NoDup_drop _ _ _ (runs_NoDup _ _ _ Hr)) as Hnd.
  cbn [run_alloc page_alloc_loop]. rewrite (proj2 (Z.eqb_neq r.1 RT_NULL)) by (unfold RT_NULL; lia).
  rewrite (bind_run _ _ _ _ _ (get_page_run _ _ _ Hh)). cbv zeta. rewrite Epg.
  destruct (Z.ltb_spec n r.2) as [Hlt|Hge]; [|destruct (Z.eqb_spec r.2 n) as [He|Hne]].
  - assert (Ek : page_add r.1 n = r.1 + n * RT_MM_PAGE_SIZE) by (unfold page_add; apply u32_small; pages; lia).
    assert (Hk : r.1 + n * RT_MM_PAGE_SIZE ∉ (pre ++ r :: suf).*1) by (eapply runs_gap; [exact Hr|]; pages; lia).
    destruct (page_link_run pre r.1 _ (r.2 - n) _ suf s Hp Hs Hnd (notin_drop _ _ _ _ Hk)) as (s' & Hrun & Hpo & Hc).
    exists s'. split; [|done]. rewrite Ek, <- (bind_assoc (put_page _ _) (fun _ => store_prev (fst <$> last pre) _)). by erewrite bind_run; [|exact Hrun].
  - destruct (page_unlink_run pre r.1 _ suf s Hp Hs Hnd) as (s' & Hrun & Hpo & Hc).
    exists s'. split; [|done]. by erewrite bind_run; [|exact Hrun].
  - assert (Hp' : pchain (page_heads s) (rt_page_list s) (pre ++ [r]) (pg_next h)).
    { apply pchain_app. exists r.1. split; [done|]. cbn. split; [done|]. by exists h. }
    specialize (IH (pre ++ [r]) (pg_next h) s fuel Hp' Hs). rewrite last_snoc, <- app_assoc in IH.
    specialize (IH Hr ltac:(cbn in Hf; lia)). cbn [fmap option_fmap option_map] in *.
    destruct (run_alloc n suf) as [[a l']|]; cbn [prod_map id]; [|done].
    destruct IH as (s' & Hrun & Hpo & Hc). exists s'. by rewrite <- app_assoc in Hc.
Qed.
(** an operation on the list, between taking and releasing the semaphore *)
Lemma pages_only_locked s s' : pages_only (set_slab_sem (slab_sem s - 1) s) s' ->
  slab_sem s' = slab_sem s - 1 /\ pages_only s (set_slab_sem (slab_sem s' + 1) s').
Proof.
  intros (ph & hd & ->). split; [done|]. exists ph, hd. destruct s. cbn. rewrite Z.sub_add. done.
Qed.
Lemma slab_take_run s : 0 < slab_sem s -> slab_take s = Ok (tt, set_slab_sem (slab_sem s - 1) s).
Proof. intros H. unfold slab_take, gets. erewrite bind_run; [cbv beta|reflexivity]. by rewrite (proj2 (Z.ltb_lt _ _) H). Qed.

Lemma rt_page_alloc_run s lo hi l n : pages_at s lo hi l -> 0 < slab_sem s -> 0 < n ->
  match run_alloc n l with
  | Some (a, l') => exists s', rt_page_alloc n s = Ok (a, s') /\ pages_only s s' /\ pages_at s' lo hi l'
  | None => rt_page_alloc n s = Ok (RT_NULL, s)
  end.
Proof.
  intros Hl Hsem Hn. pose proof (pages_length _ _ _ _ Hl) as Hlen. destruct Hl as [Hc Hr Hlo Hhi].
  pose proof (page_alloc_loop_run n lo hi Hn Hlo Hhi l [] (rt_page_list s) (set_slab_sem (slab_sem s - 1) s)
    (S (base.size (page_heads s))) eq_refl Hc Hr ltac:(lia)) as Hrun.
  pose proof (run_alloc_spec lo hi n l Hn Hr) as Hspec. unfold rt_page_alloc. rewrite (proj2 (Z.eqb_neq n 0)) by lia.
  erewrite bind_run; [cbv beta|by apply slab_take_run]. erewrite bind_run; [cbv beta|reflexivity].
  destruct (run_alloc n l) as [[a l']|].
  - destruct Hrun as (s' & Hrun & Hpo & Hc'). destruct (pages_only_locked _ _ Hpo) as [Hs' Hpo'].
    eexists. split; [|split; [exact Hpo'|]].
    + by erewrite bind_run; [|exact Hrun].
    + destruct Hspec as (Hr' & _). by split.
  - erewrite bind_run; [|exact Hrun]. cbv beta. erewrite bind_run; [|reflexivity]. cbn. destruct s. cbn. by rewrite Z.sub_add.
Qed.

(** * Release *)
Lemma outside_head lo hi a n l : runs_ok lo hi l -> outside lo hi a n l -> a ∉ l.*1.
Proof. intros Hr [O1 O2 O3 O4 O5] Hx. apply (runs_heads _ _ _ _ Hr) in Hx as [_ Hf]. apply (O5 a); [pages; lia|done]. Qed.
Lemma outside_suffix lo lo' hi a n pre suf : outside lo hi a n (pre ++ suf) -> lo' <= a -> outside lo' hi a n suf.
Proof. intros [O1 O2 O3 O4 O5] Ha. split; [done..|]. intros x Hx Hf. apply (O5 x Hx), Exists_app. by right. Qed.

(** the run in front of the released pages takes them in, and the next run if they touch it *)
Lemma page_join_run r h a n lo hi pre suf s : 0 < lo -> hi < 4294967296 ->
  pchain (page_heads s) (rt_page_list s) pre r.1 -> page_heads s !! r.1 = Some h -> pg_page h = r.2 ->
  pchain (page_heads s) (pg_next h) suf RT_NULL -> runs_ok lo hi (pre ++ r :: suf) -> run_end r = a ->
  0 < n -> a + n * RT_MM_PAGE_SIZE <= hi ->
  exists s', (put_page r.1 {| pg_next := pg_next h; pg_page := u32 (r.2 + n) |};;
      when (page_add r.1 (u32 (r.2 + n)) =? pg_next h)
        (let* q := get_page (pg_next h) in
         put_page r.1 {| pg_next := pg_next q; pg_page := u32 (r.2 + n + pg_page q) |})) s = Ok (tt, s') /\
    pages_only s s' /\ pchain (page_heads s') (rt_page_list s') (pre ++ run_free a n (r :: suf)) RT_NULL.
Proof.
  intros Hlo Hhi Hp Hh Epg Hs Hr Ha Hn Hend. destruct (runs_suffix _ _ _ _ Hr) as (lo' & Hlo' & (R1 & R2 & R3 & R4 & R5)).
  pose proof (runs_NoDup _ _ _ Hr) as Hnd. rewrite fmap_app, NoDup_app in Hnd. cbn in Hnd. destruct Hnd as (_ & Npre & Nsuf).
  assert (Hr1 : r.1 ∉ pre.*1) by (intros Hx; apply (Npre _ Hx); set_solver). apply NoDup_cons in Nsuf as [Hr2 _].
  assert (Eu : u32 (r.2 + n) = r.2 + n) by (apply u32_small; pages; lia).
  assert (Ee : page_add r.1 (r.2 + n) = a + n * RT_MM_PAGE_SIZE) by (unfold page_add; rewrite u32_small; pages; lia).
  rewrite Eu, Ee. erewrite bind_run; [cbv beta|reflexivity]. cbn [run_free]. rewrite (proj2 (Z.eqb_eq _ _) Ha).
  assert (Hfin : forall m nx suf', pchain (page_heads s) nx suf' RT_NULL -> r.1 ∉ suf'.*1 -> forall ph,
      (forall x, x <> r.1 -> ph !! x = page_heads s !! x) -> ph !! r.1 = Some {| pg_next := nx; pg_page := m |} ->
      pchain ph (rt_page_list s) (pre ++ (r.1, m) :: suf') RT_NULL).
  { intros m nx suf' Hc Hx ph Hph Hph'. apply pchain_app. exists r.1. split.
    - eapply pchain_frame; [exact Hp|]. intros x Hx'. apply Hph. by intros ->.
    - cbn. split; [done|]. eexists. split; [exact Hph'|]. split; [done|]. eapply pchain_frame; [exact Hc|].
      intros x Hx'. apply Hph. by intros ->. }
  destruct suf as [|q suf].
  - cbn in Hs. rewrite Hs, (proj2 (Z.eqb_neq _ RT_NULL)) by (unfold RT_NULL; pages; lia).
    eexists. split; [reflexivity|]. split; [apply pages_only_heads|]. cbn. eapply Hfin; [..|apply lookup_insert_eq]; [done|done|].
    intros x Hx. by apply lookup_insert_ne.
  - destruct Hs as (Eq & hq & Hq & Eqp & Hs). rewrite Eq. cbn in Hr2. apply not_elem_of_cons in Hr2 as [Hrq Hr2].
    destruct R5 as (Q1 & Q2 & Q3 & _). destruct (Z.eqb_spec (a + n * RT_MM_PAGE_SIZE) q.1) as [He|Hne]; cbn [when].
    + erewrite bind_run; [cbv beta|apply get_page_run; cbn; rewrite lookup_insert_ne by done; by rewrite <- Eq].
      rewrite Eqp, u32_small by (pages; lia). eexists. split; [reflexivity|].
      split; [eapply pages_only_trans; apply pages_only_heads|]. cbn. eapply Hfin; [exact Hs|done| |apply lookup_insert_eq].
      intros x Hx. by rewrite !lookup_insert_ne by done.
    + eexists. split; [reflexivity|]. split; [apply pages_only_heads|]. cbn.
      eapply (Hfin _ _ (q :: suf)); [| | |apply lookup_insert_eq]; [|by apply not_elem_of_cons|intros x Hx; by apply lookup_insert_ne].
      cbn. split; [done|]. exists hq. by rewrite <- Eq.
Qed.

Lemma page_free_loop_run a n lo hi : 0 < lo -> hi < 4294967296 -> forall suf pre b s fuel,
  pchain (page_heads s) (rt_page_list s) pre b -> pchain (page_heads s) b suf RT_NULL ->
  runs_ok lo hi (pre ++ suf) -> outside lo hi a n (pre ++ suf) -> (length suf < fuel)%nat ->
  exists s', page_free_loop fuel a n (fst <$> last pre) b s = Ok (tt, s') /\ pages_only s s' /\
    pchain (page_heads s') (rt_page_list s') (pre ++ run_free a n suf) RT_NULL.
Proof.
  intros Hlo Hhi. induction suf as [|r suf IH]; intros pre b s fuel Hp Hs Hr Ho Hf; (destruct fuel as [|fuel]; [cbn in Hf; lia|]);
    pose proof (outside_head _ _ _ _ _ Hr Ho) as Ha; pose proof (runs_NoDup _ _ _ Hr) as Hnd; cbn [page_free_loop]; cbv zeta.
  { cbn in Hs. subst. apply (page_link_run pre RT_NULL a n RT_NULL [] s Hp); done. }
  destruct Hs as (-> & h & Hh & Epg & Hs). destruct (runs_suffix _ _ _ _ Hr) as (lo' & Hlo' & Hrs). pose proof Hrs as (R1 & R2 & R3 & R4 & R5).
  pose proof Ho as [O1 O2 O3 O4 _].
  assert (Hd : a + n * RT_MM_PAGE_SIZE <= r.1 \/ run_end r <= a).
  { eapply (outside_disjoint lo hi a n r suf); [|done]. eapply outside_suffix; [exact Ho|lia]. }
  assert (Ee : page_add r.1 r.2 = run_end r) by (unfold page_add; rewrite u32_small; pages; lia).
  assert (Ea : page_add a n = a + n * RT_MM_PAGE_SIZE) by (unfold page_add; rewrite u32_small; pages; lia).
  rewrite (proj2 (Z.eqb_neq r.1 RT_NULL)) by (unfold RT_NULL; lia).
  rewrite (bind_run _ _ _ _ _ (get_page_run _ _ _ Hh)). rewrite Epg, Ee, Ea.
  rewrite (proj2 (Z.ltb_lt 0 r.2) R2). erewrite bind_run; [cbv beta|reflexivity].
  replace ((a <? r.1) || (run_end r <=? a))%bool with true by (symmetry; apply orb_true_iff; rewrite Z.ltb_lt, Z.leb_le; pages; lia).
  erewrite bind_run; [cbv beta|reflexivity].
  destruct (Z.eqb_spec (run_end r) a) as [He|Hne].
  { by apply (page_join_run r h a n lo hi). }
  cbn [run_free]. rewrite (proj2 (Z.eqb_neq _ _) Hne). destruct (Z.eqb_spec r.1 (a + n * RT_MM_PAGE_SIZE)) as [Hre|Hrne].
  { rewrite u32_small by (pages; lia). apply (page_link_run pre r.1 a); [done|done|by eapply NoDup_drop|by eapply notin_drop]. }
  destruct (Z.ltb_spec (a + n * RT_MM_PAGE_SIZE) r.1) as [Hlt|Hge].
  { apply (page_link_run pre r.1 a n r.1 (r :: suf) s Hp); [|done|done]. cbn. split; [done|]. by exists h. }
  assert (Hp' : pchain (page_heads s) (rt_page_list s) (pre ++ [r]) (pg_next h)).
  { apply pchain_app. exists r.1. split; [done|]. cbn. split; [done|]. by exists h. }
  specialize (IH (pre ++ [r]) (pg_next h) s fuel Hp' Hs). rewrite last_snoc, <- !app_assoc in IH. by apply IH; [..|cbn in Hf; lia].
Qed.
Lemma rt_page_free_run s lo hi l a n : pages_at s lo hi l -> 0 < slab_sem s -> outside lo hi a n l ->
  exists s', rt_page_free a n s = Ok (tt, s') /\ pages_only s s' /\ pages_at s' lo hi (run_free a n l).
Proof.
  intros Hl Hsem Ho. pose proof (pages_length _ _ _ _ Hl) as Hlen. destruct Hl as [Hc Hr Hlo Hhi]. pose proof Ho as [O1 O2 O3 O4 _].
  destruct (page_free_loop_run a n lo hi Hlo Hhi l [] (rt_page_list s) (set_slab_sem (slab_sem s - 1) s)
    (S (base.size (page_heads s))) eq_refl Hc Hr Ho ltac:(lia)) as (s' & Hrun & Hpo & Hc').
  destruct (pages_only_locked _ _ Hpo) as [Hs' Hpo']. eexists. split; [|split; [exact Hpo'|]].
  - unfold rt_page_free. rewrite (proj2 (Z.eqb_neq a RT_NULL)), (proj2 (Z.eqb_neq n 0)), (proj2 (Z.eqb_eq _ _) O2) by (unfold RT_NULL; lia).
    do 3 (erewrite bind_run; [cbv beta|reflexivity]). erewrite bind_run; [cbv beta|by apply slab_take_run].
    erewrite bind_run; [cbv beta|]; [reflexivity|]. erewrite bind_run; [cbv beta|reflexivity]. exact Hrun.
  - destruct (run_free_spec lo hi a n l Hr Ho) as [Hr' _]. by split.
Qed.

(** * The pages that are handed out *)
(** [E]: the extents (first page and number of pages) that are allocated.  They
    are disjoint, and every page of the heap is free or in one of them. *)
Record pages_inv (s : slab) (lo hi : Z) (E : gmap Z Z) : Prop := {
  pi_list : exists l, pages_at s lo hi l /\
    (forall a n, E !! a = Some n -> outside lo hi a n l) /\
    (forall x, lo <= x < hi -> free_at l x \/ exists a n, E !! a = Some n /\ a <= x < a + n * RT_MM_PAGE_SIZE);
  pi_disjoint : forall a n b m, E !! a = Some n -> E !! b = Some m -> a <> b ->
    a + n * RT_MM_PAGE_SIZE <= b \/ b + m * RT_MM_PAGE_SIZE <= a;
}.
(** among any [n] pages in a row there is one in an extent *)
Definition no_room (lo hi : Z) (E : gmap Z Z) (n : Z) : Prop := forall x, lo <= x -> x + n * RT_MM_PAGE_SIZE <= hi ->
  exists y a m, x <= y < x + n * RT_MM_PAGE_SIZE /\ E !! a = Some m /\ a <= y < a + m * RT_MM_PAGE_SIZE.

(** free addresses in a row are in one run *)
Lemma runs_interval lo hi l x y : runs_ok lo hi l -> x < y -> (forall k, x <= k < y -> free_at l k) -> exists r, r ∈ l /\ r.1 <= x /\ y <= run_end r.
Proof.
  unfold free_at. revert lo. induction l as [|r l IH]; intros lo Hr Hxy Hf; [by specialize (Hf x ltac:(lia)); inversion Hf|].
  destruct Hr as (H1 & H2 & H3 & _ & Hr). destruct (decide (x < run_end r)) as [Hx|Hx].
  - exists r. split; [by left|]. pose proof (Hf x ltac:(lia)) as Hfx. apply Exists_cons in Hfx as [Hfx|Hfx].
    2: { apply (runs_free_above _ _ _ _ Hr) in Hfx. lia. }
    pages. split; [lia|]. apply Z.nlt_ge. intros Hlt. specialize (Hf (r.1 + r.2 * 4096) ltac:(lia)).
    apply Exists_cons in Hf as [Hf|Hf]; [lia|]. apply (runs_free_above _ _ _ _ Hr) in Hf. pages. lia.
  - destruct (IH _ Hr Hxy) as (q & Hq & Hq'); [|exists q; split; [by right|done]].
    intros k Hk. specialize (Hf k Hk). apply Exists_cons in Hf as [Hf|Hf]; [pages; lia|done].
Qed.
Lemma outside_weaken lo hi a n l l' : outside lo hi a n l -> (forall x, free_at l' x -> free_at l x \/ ~ a <= x < a + n * RT_MM_PAGE_SIZE) ->
  outside lo hi a n l'.
Proof. intros [O1 O2 O3 O4 O5] Hl. split; [done..|]. intros x Hx Hf. destruct (Hl x Hf) as [Hf'|Hf']; [by apply (O5 x)|done]. Qed.

(** every run of free pages is shorter than [n] *)
Definition page_full (s : slab) (lo hi n : Z) : Prop := exists l, pages_at s lo hi l /\ Forall (fun r => r.2 < n) l.
Lemma rt_page_alloc_inv s lo hi E n : pages_inv s lo hi E -> 0 < slab_sem s -> 0 < n ->
  (rt_page_alloc n s = Ok (RT_NULL, s) /\ no_room lo hi E n /\ page_full s lo hi n) \/
  exists a s', rt_page_alloc n s = Ok (a, s') /\ pages_only s s' /\ lo <= a /\ E !! a = None /\ a mod RT_MM_PAGE_SIZE = 0 /\
    pages_inv s' lo hi (<[a := n]> E).
Proof.
  intros [(l & Hl & Ho & Hcov) Hd] Hsem Hn. pose proof Hl as [_ Hr Hlo Hhi]. pose proof (rt_page_alloc_run s lo hi l n Hl Hsem Hn) as Hrun.
  pose proof (run_alloc_spec lo hi n l Hn Hr) as Hspec. destruct (run_alloc n l) as [[a l']|].
  - right. destruct Hrun as (s' & Hrun & Hpo & Hl'), Hspec as (Hr' & Ha & Hal & Hfr & Hnf).
    assert (Hout : forall b m, E !! b = Some m -> a + n * RT_MM_PAGE_SIZE <= b \/ b + m * RT_MM_PAGE_SIZE <= a).
    { intros b m Hb. destruct (Ho _ _ Hb) as [O1 O2 O3 O4 O5]. destruct (Z.le_gt_cases (a + n * RT_MM_PAGE_SIZE) b) as [|Hlt]; [by left|right].
      apply Z.nlt_ge. intros Hlt'. apply (O5 (Z.max a b)); [pages; lia|]. apply Hfr. left. pages. lia. }
    assert (HaE : E !! a = None).
    { destruct (E !! a) as [m|] eqn:Em; [|done]. exfalso. destruct (Ho _ _ Em) as [O1 _ _ _ _]. destruct (Hout _ _ Em); pages; lia. }
    exists a, s'. split_and!; [done..|]. split.
    + exists l'. split; [done|]. split.
      * intros b m. rewrite lookup_insert_Some. intros [[<- <-]|[Hne Hb]].
        -- split; [done..| |done]. apply Z.nlt_ge. intros Hlt. assert (Hx : free_at l (Z.max a hi)) by (apply Hfr; left; pages; lia).
           apply (runs_free_above _ _ _ _ Hr) in Hx. lia.
        -- eapply outside_weaken; [by apply Ho|]. intros x Hx. left. apply Hfr. by right.
      * intros x Hx. destruct (Hcov x Hx) as [Hf|(b & m & Hb & Hbx)].
        -- apply Hfr in Hf as [Hf|Hf]; [|by left]. right. exists a, n. by rewrite lookup_insert_eq.
        -- right. exists b, m. rewrite lookup_insert_ne by (intros ->; congruence). done.
    + intros b m c k. rewrite !lookup_insert_Some. intros [[<- <-]|[Hb Hbm]] [[<- <-]|[Hc Hck]] Hne; [done|by apply Hout| |by eapply Hd].
      destruct (Hout _ _ Hbm); [by right|by left].
  - left. split; [done|]. split; [|by exists l]. intros x Hx Hxn. assert (Hdec : forall y, Decision (free_at l y)) by (intros y; unfold free_at, in_run; solve_decision).
    destruct (decide (Forall (free_at l) (seqZ x (n * RT_MM_PAGE_SIZE)))) as [Hall|Hsome].
    + exfalso. destruct (runs_interval lo hi l x (x + n * RT_MM_PAGE_SIZE) Hr) as (r & Hin & H1 & H2); [pages; lia| |].
      { intros k Hk. rewrite Forall_forall in Hall. apply Hall, elem_of_seqZ. lia. }
      rewrite Forall_forall in Hspec. specialize (Hspec r Hin). pages. lia.
    + apply not_Forall_Exists in Hsome; [|done]. apply Exists_exists in Hsome as (y & Hy & Hyf). apply elem_of_seqZ in Hy.
      destruct (Hcov y) as [Hf|(a & m & Ha & Hay)]; [lia|done|]. exists y, a, m. split; [lia|done].
Qed.
Lemma rt_page_free_inv s lo hi E a n : pages_inv s lo hi E -> 0 < slab_sem s -> E !! a = Some n ->
  exists s', rt_page_free a n s = Ok (tt, s') /\ pages_only s s' /\ pages_inv s' lo hi (delete a E).
Proof.
  intros [(l & Hl & Ho & Hcov) Hd] Hsem Ha. destruct (rt_page_free_run s lo hi l a n Hl Hsem (Ho _ _ Ha)) as (s' & Hrun & Hpo & Hl').
  pose proof Hl as [_ Hr _ _]. destruct (run_free_spec lo hi a n l Hr (Ho _ _ Ha)) as [_ Hfr]. exists s'. split_and!; [done..|]. split.
  - exists (run_free a n l). split; [done|]. split.
    + intros b m. rewrite lookup_delete_Some. intros [Hne Hb]. eapply outside_weaken; [by apply Ho|]. intros x Hx.
      apply Hfr in Hx as [Hx|Hx]; [right|by left]. destruct (Hd _ _ _ _ Ha Hb Hne); lia.
    + intros x Hx. destruct (Hcov x Hx) as [Hf|(b & m & Hb & Hbx)]; [left; apply Hfr; by right|].
      destruct (decide (a = b)) as [<-|Hne]; [left; apply Hfr; left; congruence|]. right. exists b, m.
      by rewrite lookup_delete_ne.
  - intros b m c k. rewrite !lookup_delete_Some. intros [_ Hb] [_ Hc]. by eapply Hd.
Qed.

(** rt_page_alloc finds the first run of free pages that is long enough and
    hands out its first pages, an extent that is aligned to pages and disjoint
    from all others; it returns NULL only when among any [n] pages in a row
    there is one that is not free, and then nothing has changed.  Every page of
    the heap is free or in an extent, before and after. *)
Theorem page_alloc_spec s lo hi E n : pages_inv s lo hi E -> 0 < slab_sem s -> 0 < n ->
  (rt_page_alloc n s = Ok (RT_NULL, s) /\ no_room lo hi E n /\ page_full s lo hi n) \/
  exists a s', rt_page_alloc n s = Ok (a, s') /\ pages_only s s' /\ lo <= a /\ E !! a = None /\ a mod RT_MM_PAGE_SIZE = 0 /\
    pages_inv s' lo hi (<[a := n]> E).
Proof. apply rt_page_alloc_inv. Qed.
(** rt_page_free of an extent makes its pages free, joined with the free runs
    on both sides. *)
Theorem page_free_spec s lo hi E a n : pages_inv s lo hi E -> 0 < slab_sem s -> E !! a = Some n ->
  exists s', rt_page_free a n s = Ok (tt, s') /\ pages_only s s' /\ pages_inv s' lo hi (delete a E).
Proof. apply rt_page_free_inv. Qed.
