(* ===== verification/SlabZones.v ===== *)
(** The zones of slab.c: the size classes, the chunks of a zone, and the lists
    that the zones are on. *)
From S2P Require Import Prelude KService Mem CpuPort Kernel Slab SlabPages.

(** * Size classes *)
(** the size of the chunks in the zones with index [zi] *)
Definition class_size (zi : Z) : Z :=
  if zi <? 16 then 8 * (zi + 1)
  else if zi <? 24 then 16 * (zi - 7)
  else if zi <? 32 then 32 * (zi - 15)
  else if zi <? 40 then 64 * (zi - 23)
  else if zi <? 48 then 128 * (zi - 31)
  else if zi <? 56 then 256 * (zi - 39)
  else if zi <? 64 then 512 * (zi - 47)
  else 1024 * (zi - 55).
Lemma forall_below (P : Z -> bool) lo n : forallb P (seqZ lo n) = true -> forall x, lo <= x < lo + n -> P x = true.
Proof. intros H x Hx. eapply forallb_forall; [exact H|]. apply list_elem_of_In, elem_of_seqZ. lia. Qed.

(** what a request of [n] bytes gets: the smallest class that is large enough *)
Definition zoneindex_good (n : Z) : bool :=
  let '(zi, b) := zoneindex n in
  ((0 <=? zi) && (zi <? NZONES) && (b =? class_size zi) && (n <=? b) && (b mod 8 =? 0) && (b <=? 16384) &&
   ((zi =? 0) || (class_size (zi - 1) <? n)))%bool.
Lemma zoneindex_all n : 0 < n < 16384 -> zoneindex_good n = true.
Proof. intros Hn. apply (forall_below _ 1 16383); [by vm_compute|lia]. Qed.
Lemma zoneindex_class n zi b : 0 < n < 16384 -> zoneindex n = (zi, b) ->
  0 <= zi < NZONES /\ b = class_size zi /\ n <= b /\ b mod 8 = 0 /\ b <= 16384 /\ (zi = 0 \/ class_size (zi - 1) < n).
Proof.
  intros Hn E. pose proof (zoneindex_all n Hn) as H. unfold zoneindex_good in H. rewrite E in H.
  repeat (apply andb_prop in H as [H ?]). apply orb_prop in H0. rewrite Z.eqb_eq, Z.ltb_lt in H0.
  rewrite !Z.eqb_eq in *. split_and!; lia || done.
Qed.

(** * The chunks of a zone *)
(** the sizes a zone can have, and the requests that are served by zones *)
Definition zone_sizes_ok (s : slab) : Prop :=
  zone_size s ∈ [ZALLOC_MIN_ZONE_SIZE; 2 * ZALLOC_MIN_ZONE_SIZE; ZALLOC_MAX_ZONE_SIZE] /\
  zone_limit s = Z.min ZALLOC_ZONE_LIMIT (zone_size s / 4) /\ zone_page_cnt s = zone_size s / RT_MM_PAGE_SIZE.
Definition zone_nmax (zsz b : Z) : Z := (zsz - chunk_offset b) / b.
Definition zone_good (zsz zi : Z) : bool :=
  ((Z.min ZALLOC_ZONE_LIMIT (zsz / 4) <? class_size zi) ||
   ((0 <? class_size zi) && (class_size zi mod 8 =? 0) && (SIZEOF_SLAB_ZONE <=? chunk_offset (class_size zi)) &&
    (chunk_offset (class_size zi) mod 8 =? 0) && (2 <=? zone_nmax zsz (class_size zi)) &&
    (chunk_offset (class_size zi) + zone_nmax zsz (class_size zi) * class_size zi <=? zsz)))%bool.
Lemma zone_geometry s zi : zone_sizes_ok s -> 0 <= zi < NZONES -> class_size zi <= zone_limit s ->
  0 < class_size zi /\ class_size zi mod 8 = 0 /\ SIZEOF_SLAB_ZONE <= chunk_offset (class_size zi) /\ chunk_offset (class_size zi) mod 8 = 0 /\
  2 <= zone_nmax (zone_size s) (class_size zi) /\
  chunk_offset (class_size zi) + zone_nmax (zone_size s) (class_size zi) * class_size zi <= zone_size s.
Proof.
  intros (Hz & Hl & _) Hzi Hc. assert (H : zone_good (zone_size s) zi = true).
  { apply (forall_below (zone_good (zone_size s)) 0 NZONES); [|done]. rewrite !elem_of_cons in Hz.
    destruct Hz as [->|[->|[->|Hz]]]; [by vm_compute..|by apply not_elem_of_nil in Hz]. }
  unfold zone_good in H. rewrite <- Hl in H. apply orb_prop in H as [H|H]; [rewrite Z.ltb_lt in H; lia|].
  repeat (apply andb_prop in H as [H ?]). rewrite !Z.eqb_eq, !Z.leb_le, !Z.ltb_lt in *. by split_and!.
Qed.
Lemma zone_pages s : zone_sizes_ok s -> zone_size s = zone_page_cnt s * RT_MM_PAGE_SIZE /\ 8 <= zone_page_cnt s.
Proof.
  intros (Hz & _ & ->). rewrite !elem_of_cons in Hz. destruct Hz as [->|[->|[->|Hz]]]; [by vm_compute..|by apply not_elem_of_nil in Hz].
Qed.

Definition chunk_addr (v : slab_zone) (i : Z) : Z := z_baseptr v + i * z_chunksize v.
(** the links of free chunks, from [p] through [F] to [q] *)
Fixpoint cchain (cn : gmap Z Z) (p : Z) (l : list Z) : Prop :=
  match l with
  | [] => True
  | c :: l => p = c /\ exists q, cn !! c = Some q /\ cchain cn q l
  end.
Lemma cchain_frame cn cn' p l : cchain cn p l -> (forall c, c ∈ l -> cn' !! c = cn !! c) -> cchain cn' p l.
Proof.
  revert p. induction l as [|c l IH]; intros p; cbn; [done|]. intros (-> & q & H1 & H2) Hf. split; [done|].
  exists q. rewrite Hf by (by left). split; [done|]. apply IH; [done|]. intros k Hk. apply Hf. by right.
Qed.
(** the zone at [z], with the header [v]; [F]: the chunks that were released, by
    number; those from [z_uindex v + 1] on were never used *)
Record zone_at (s : slab) (z : Z) (v : slab_zone) (F : list Z) : Prop := {
  za_magic : z_magic v = ZALLOC_SLAB_MAGIC;
  za_index : 0 <= z_zoneindex v < NZONES;
  za_limit : class_size (z_zoneindex v) <= zone_limit s;
  za_size : z_chunksize v = class_size (z_zoneindex v);
  za_base : z_baseptr v = z + chunk_offset (z_chunksize v);
  za_nmax : z_nmax v = zone_nmax (zone_size s) (z_chunksize v);
  za_uindex : 0 <= z_uindex v < z_nmax v;
  za_chain : cchain (c_next s) (z_freechunk v) (chunk_addr v <$> F);
  za_NoDup : NoDup F;
  za_bound : Forall (fun i => 0 <= i <= z_uindex v) F;
  za_nfree : z_nfree v = Z.of_nat (length F) + (z_nmax v - 1 - z_uindex v);
}.
(** the chunk [i] is handed out *)
Definition chunk_live (v : slab_zone) (F : list Z) (i : Z) : Prop := 0 <= i <= z_uindex v /\ i ∉ F.
Lemma chunk_inside s z v F i : zone_sizes_ok s -> zone_at s z v F -> 0 <= i < z_nmax v ->
  0 < z_chunksize v /\ z < chunk_addr v i /\ chunk_addr v i + z_chunksize v <= z + zone_size s.
Proof.
  intros Hs [_ Hi Hl Hb Hba Hn _ _ _ _ _] Hin. unfold chunk_addr. rewrite Hba, Hn, Hb in *.
  destruct (zone_geometry s _ Hs Hi Hl) as (G1 & G2 & G3 & G4 & G5 & G6). unfold SIZEOF_SLAB_ZONE in *. split_and!; nia.
Qed.
Lemma chunk_inj v i j : 0 < z_chunksize v -> chunk_addr v i = chunk_addr v j -> i = j.
Proof. unfold chunk_addr. nia. Qed.
(** a zone whose chunks are all free has none handed out *)
Lemma zone_empty s z v F i : zone_at s z v F -> z_nfree v = z_nmax v -> ~ chunk_live v F i.
Proof.
  intros [_ _ _ _ _ _ Hu _ Hd Hb Hn] Hf [Hi Hi']. assert (Hlen : Z.of_nat (length F) = z_uindex v + 1) by lia.
  assert (Hsub : NoDup (i :: F)) by by constructor.
  assert (Hin : forall k, k ∈ i :: F -> k ∈ seqZ 0 (z_uindex v + 1)).
  { intros k Hk. apply elem_of_seqZ. apply elem_of_cons in Hk as [->|Hk]; [lia|]. rewrite Forall_forall in Hb. specialize (Hb _ Hk). lia. }
  apply NoDup_submseteq, submseteq_length in Hin; [|done]. rewrite length_seqZ in Hin. cbn in Hin. lia.
Qed.
(** a zone depends on the links of its free chunks and on the sizes only *)
Lemma zone_at_frame s s' z v F : zone_at s z v F -> zone_limit s' = zone_limit s -> zone_size s' = zone_size s ->
  (forall i, i ∈ F -> c_next s' !! chunk_addr v i = c_next s !! chunk_addr v i) -> zone_at s' z v F.
Proof.
  intros [] El Es Hc. split; try done; rewrite ?El, ?Es; try done. eapply cchain_frame; [done|].
  intros c Hin. apply list_elem_of_fmap in Hin as (i & -> & Hi). by apply Hc.
Qed.

(** a state whose zones, links, usage table, lists and counters are replaced *)
Definition zupd zs cn us arr zf zc sem u m s : slab := {| page_heads := page_heads s; zones := zs; c_next := cn; usage := us;
  memusage_tbl := memusage_tbl s; rt_page_list := rt_page_list s; zone_array := arr; zone_free := zf; zone_free_cnt := zc;
  zone_size := zone_size s; zone_limit := zone_limit s; zone_page_cnt := zone_page_cnt s; slab_start := slab_start s;
  slab_end := slab_end s; slab_sem := sem; slab_used := u; slab_max := m; slab_ram := slab_ram s |}.
Lemma get_zone_run z v s : zones s !! z = Some v -> get_zone z s = Ok (v, s).
Proof. intros H. unfold get_zone, bind, get. by rewrite H. Qed.
Lemma upd_zone_run z f v s : zones s !! z = Some v -> upd_zone z f s = Ok (tt, set_zones (<[z := f v]> (zones s)) s).
Proof. intros H. unfold upd_zone. by rewrite (bind_run _ _ _ _ _ (get_zone_run _ _ _ H)). Qed.
Lemma zone_head_run zi h s : zone_array s !! Z.to_nat zi = Some h -> zone_head zi s = Ok (h, s).
Proof. intros H. unfold zone_head, bind, get. by rewrite H. Qed.

(** ** Taking a chunk *)
Definition next_of (v : slab_zone) : Z := if z_nfree v =? 1 then RT_NULL else z_next v.
Definition took_uindex (v : slab_zone) : slab_zone :=
  zn_set_uindex (z_uindex v + 1) (zn_set_next (next_of v) (zn_set_nfree (z_nfree v - 1) v)).
Definition took_freed (n : Z) (v : slab_zone) : slab_zone :=
  zn_set_freechunk n (zn_set_next (next_of v) (zn_set_nfree (z_nfree v - 1) v)).
Lemma zn_next_id (v : slab_zone) : zn_set_next (z_next v) v = v.
Proof. by destruct v. Qed.
(** the header and the list at the index [zi] when a chunk is taken *)
Lemma zone_take_run s zi z v c v' : zones s !! z = Some v -> 0 < z_nfree v -> (Z.to_nat zi < length (zone_array s))%nat ->
  (z_uindex v + 1 <> z_nmax v /\ v' = took_uindex v /\ c = u32 (z_baseptr v + (z_uindex v + 1) * z_chunksize v) \/
   z_uindex v + 1 = z_nmax v /\ exists n, c_next s !! z_freechunk v = Some n /\ v' = took_freed n v /\ c = z_freechunk v) ->
  exists u m, zone_take zi z (z_chunksize v) s = Ok (c, zupd (<[z := v']> (zones s)) (c_next s) (usage s)
    (if z_nfree v =? 1 then <[Z.to_nat zi := z_next v]> (zone_array s) else zone_array s)
    (zone_free s) (zone_free_cnt s) (slab_sem s + 1) u m s).
Proof.
  intros Hz Hn Harr Hc. set (v1 := zn_set_next (next_of v) (zn_set_nfree (z_nfree v - 1) v)).
  set (s1 := zupd (<[z := v1]> (zones s)) (c_next s) (usage s) (if z_nfree v =? 1 then <[Z.to_nat zi := z_next v]> (zone_array s) else zone_array s)
    (zone_free s) (zone_free_cnt s) (slab_sem s) (slab_used s) (slab_max s) s).
  assert (H1 : exists k, zone_take zi z (z_chunksize v) s = k s1 /\ k = (let* v := get_zone z in
    let* chunk := (if negb (z_uindex v + 1 =? z_nmax v) then
       upd_zone z (zn_set_uindex (z_uindex v + 1));; ret (u32 (z_baseptr v + (z_uindex v + 1) * z_chunksize v1))
     else let* n := (let* s := get in the (c_next s !! z_freechunk v)) in upd_zone z (zn_set_freechunk n);; ret (z_freechunk v)) in
    slab_add_used (z_chunksize v);; slab_release;; ret chunk)).
  { eexists. split; [|reflexivity]. unfold zone_take. rewrite bind_assoc, (bind_run _ _ _ _ _ (get_zone_run _ _ _ Hz)), (proj2 (Z.ltb_lt _ _) Hn).
    erewrite bind_run; [cbv beta|reflexivity]. erewrite bind_run; [cbv beta|by apply upd_zone_run].
    rewrite bind_assoc. erewrite bind_run; [cbv beta|apply get_zone_run; apply lookup_insert_eq]. cbn [zn_set_nfree z_nfree].
    unfold s1, v1, next_of. destruct (Z.eqb_spec (z_nfree v) 1) as [E|E].
    - rewrite E. change (1 - 1 =? 0) with true. cbn [when]. rewrite bind_assoc. erewrite bind_run; [cbv beta|reflexivity].
      erewrite bind_run; [cbv beta|apply upd_zone_run; cbn; apply lookup_insert_eq]. cbn. rewrite insert_insert_eq. by destruct s.
    - rewrite (proj2 (Z.eqb_neq (z_nfree v - 1) 0)) by lia. erewrite bind_run; [cbv beta|reflexivity].
      assert (E1 : zn_set_next (z_next v) (zn_set_nfree (z_nfree v - 1) v) = zn_set_nfree (z_nfree v - 1) v) by (by destruct v).
      rewrite E1. by destruct s. }
  destruct H1 as (k & -> & ->). erewrite bind_run; [cbv beta|apply get_zone_run; apply lookup_insert_eq]. cbn [v1 zn_set_next zn_set_nfree z_uindex z_nmax z_baseptr z_chunksize z_freechunk].
  destruct Hc as [(Hne & -> & ->)|(He & n & Hcn & -> & ->)].
  - rewrite (proj2 (Z.eqb_neq _ _) Hne). cbn [negb]. rewrite bind_assoc. erewrite bind_run; [cbv beta|apply upd_zone_run; cbn; apply lookup_insert_eq].
    erewrite bind_run; [cbv beta|reflexivity]. eexists _, _. cbn. rewrite insert_insert_eq. reflexivity.
  - rewrite (proj2 (Z.eqb_eq _ _) He). cbn [negb]. rewrite bind_assoc. erewrite bind_run; [cbv beta|]; cycle 1.
    { erewrite bind_run; [cbv beta|reflexivity]. cbn. rewrite Hcn. reflexivity. }
    rewrite bind_assoc. erewrite bind_run; [cbv beta|apply upd_zone_run; cbn; apply lookup_insert_eq].
    erewrite bind_run; [cbv beta|reflexivity]. eexists _, _. cbn. rewrite insert_insert_eq. reflexivity.
Qed.
(** the parts of a header that stay while the zone is in use *)
Definition same_zone (v v' : slab_zone) : Prop :=
  z_zoneindex v' = z_zoneindex v /\ z_chunksize v' = z_chunksize v /\ z_baseptr v' = z_baseptr v /\ z_nmax v' = z_nmax v.
Lemma same_chunk v v' i : same_zone v v' -> chunk_addr v' i = chunk_addr v i.
Proof. intros (_ & H1 & H2 & _). unfold chunk_addr. by rewrite H1, H2. Qed.
Lemma zone_take_at s z v F : zone_sizes_ok s -> zone_at s z v F -> 0 < z_nfree v -> 0 <= z -> z + zone_size s < 4294967296 ->
  exists i F' v',
    (z_uindex v + 1 <> z_nmax v /\ v' = took_uindex v /\ chunk_addr v i = u32 (z_baseptr v + (z_uindex v + 1) * z_chunksize v) \/
     z_uindex v + 1 = z_nmax v /\ exists n, c_next s !! z_freechunk v = Some n /\ v' = took_freed n v /\ chunk_addr v i = z_freechunk v) /\
    0 <= i < z_nmax v /\ ~ chunk_live v F i /\ zone_at s z v' F' /\ same_zone v v' /\ z_nfree v' = z_nfree v - 1 /\ z_next v' = next_of v /\
    forall j, chunk_live v' F' j <-> j = i \/ chunk_live v F j.
Proof.
  intros Hs Hat Hn Hz Hend. pose proof Hat as [A1 A2 A3 A4 A5 A6 A7 A8 A9 A10 A11].
  destruct (decide (z_uindex v + 1 = z_nmax v)) as [He|Hne].
  - destruct F as [|i F]; [cbn in A11; lia|]. destruct A8 as (Efc & n & Hcn & Hc). apply NoDup_cons in A9 as [Hi Hd].
    apply Forall_cons in A10 as [Hib Hb]. exists i, F, (took_freed n v). split; [right; split; [done|]; exists n; by rewrite Efc|].
    split; [lia|]. split; [intros [_ Hni]; apply Hni; by left|]. split_and!; [|done..|]; [split; try done; cbn in *; lia|].
    intros j. unfold chunk_live. cbn. rewrite not_elem_of_cons. destruct (decide (j = i)) as [->|]; [|naive_solver]. intuition lia.
  - exists (z_uindex v + 1), F, (took_uindex v). destruct (chunk_inside s z v F (z_uindex v + 1) Hs Hat ltac:(lia)) as (C1 & C2 & C3).
    split; [left; split; [done|]; split; [done|]; unfold chunk_addr; rewrite u32_small; unfold chunk_addr in *; lia|].
    split; [lia|]. split; [intros [? _]; lia|]. split_and!; [|done..|].
    + split; try done; cbn in *; [lia| |lia]. eapply Forall_impl; [exact A10|]. cbn. lia.
    + intros j. unfold chunk_live. cbn. split.
      * intros [H1 H2]. destruct (decide (j = z_uindex v + 1)); [by left|right; split; [lia|done]].
      * intros [->|[H1 H2]]; [|split; [lia|done]]. split; [lia|]. intros Hin. rewrite Forall_forall in A10. apply A10 in Hin. lia.
Qed.

(** ** Releasing a chunk *)
Definition put_header (hd c : Z) (v : slab_zone) : slab_zone :=
  zn_set_next (if z_nfree v =? 0 then hd else z_next v) (zn_set_nfree (z_nfree v + 1) (zn_set_freechunk c v)).
Lemma zone_put_run s z v c hd : zones s !! z = Some v -> zone_array s !! Z.to_nat (z_zoneindex v) = Some hd ->
  exists u m, zone_put z c s = Ok (tt, zupd (<[z := put_header hd c v]> (zones s)) (<[c := z_freechunk v]> (c_next s)) (usage s)
    (if z_nfree v =? 0 then <[Z.to_nat (z_zoneindex v) := z]> (zone_array s) else zone_array s)
    (zone_free s) (zone_free_cnt s) (slab_sem s) u m s).
Proof.
  intros Hz Hhd. unfold zone_put. rewrite bind_assoc, (bind_run _ _ _ _ _ (get_zone_run _ _ _ Hz)).
  erewrite bind_run; [cbv beta|reflexivity]. erewrite bind_run; [cbv beta|by apply upd_zone_run].
  rewrite bind_assoc. erewrite bind_run; [cbv beta|apply get_zone_run; apply lookup_insert_eq]. cbn [zn_set_freechunk z_chunksize].
  erewrite bind_run; [cbv beta|reflexivity]. erewrite bind_run; [cbv beta|apply get_zone_run; cbn; apply lookup_insert_eq].
  erewrite bind_run; [cbv beta|apply upd_zone_run; cbn; apply lookup_insert_eq]. cbn [zn_set_freechunk z_nfree z_zoneindex].
  unfold put_header. destruct (z_nfree v =? 0) eqn:E; cbn [when].
  - rewrite bind_assoc. erewrite bind_run; [cbv beta|apply zone_head_run; exact Hhd].
    erewrite bind_run; [cbv beta|apply upd_zone_run; cbn; apply lookup_insert_eq]. eexists _, _. cbn. rewrite !insert_insert_eq. by destruct v.
  - eexists _, _. cbn. rewrite !insert_insert_eq. by destruct s, v.
Qed.
Lemma zone_put_at s z v F i hd s' : zone_sizes_ok s -> zone_at s z v F -> chunk_live v F i ->
  zone_limit s' = zone_limit s -> zone_size s' = zone_size s -> c_next s' = <[chunk_addr v i := z_freechunk v]> (c_next s) ->
  let v' := put_header hd (chunk_addr v i) v in
  zone_at s' z v' (i :: F) /\ same_zone v v' /\ z_nfree v' = z_nfree v + 1 /\ (forall j, chunk_live v' (i :: F) j <-> chunk_live v F j /\ j <> i).
Proof.
  intros Hs Hat [Hi Hni] El Es Ec. pose proof Hat as [A1 A2 A3 A4 A5 A6 A7 A8 A9 A10 A11]. cbv zeta.
  destruct (chunk_inside s z v F i Hs Hat ltac:(lia)) as (C1 & C2 & C3). split_and!; [|done|done|].
  - split; try done; cbn; rewrite ?El, ?Es; try done; [|by constructor|by constructor|lia].
    split; [done|]. exists (z_freechunk v). rewrite Ec. split; [apply lookup_insert_eq|]. eapply cchain_frame; [exact A8|].
    intros c Hc. apply lookup_insert_ne. intros <-. apply list_elem_of_fmap in Hc as (j & Hj & Hin). apply Hni. by rewrite (chunk_inj _ _ _ C1 Hj).
  - intros j. unfold chunk_live. cbn. rewrite not_elem_of_cons. tauto.
Qed.

(** * Lists of zones *)
Fixpoint zchain (zs : gmap Z slab_zone) (p : Z) (l : list Z) : Prop :=
  match l with
  | [] => p = RT_NULL
  | z :: l => p = z /\ exists v, zs !! z = Some v /\ zchain zs (z_next v) l
  end.
Lemma zchain_frame zs zs' p l : zchain zs p l -> (forall z v, z ∈ l -> zs !! z = Some v -> exists v', zs' !! z = Some v' /\ z_next v' = z_next v) ->
  zchain zs' p l.
Proof.
  revert p. induction l as [|z l IH]; intros p; cbn; [done|]. intros (-> & v & H1 & H2) Hf. split; [done|].
  destruct (Hf z v) as (v' & Hv' & En); [by left|done|]. exists v'. rewrite En. split; [done|]. apply IH; [done|]. intros x u Hx. apply Hf. by right.
Qed.
Lemma zchain_insert zs p l z v : zchain zs p l -> z ∉ l -> zchain (<[z := v]> zs) p l.
Proof. intros Hc Hz. eapply zchain_frame; [exact Hc|]. intros x u Hx Hu. exists u. by rewrite lookup_insert_ne by (by intros ->). Qed.
Lemma zchain_dom zs p l : zchain zs p l -> (list_to_set l : gset Z) ⊆ dom zs.
Proof.
  revert p. induction l as [|z l IH]; intros p; cbn; [set_solver|]. intros (-> & v & H1 & H2). apply IH in H2.
  apply elem_of_dom_2 in H1. set_solver.
Qed.
Lemma zchain_length zs p l : zchain zs p l -> NoDup l -> (length l <= base.size zs)%nat.
Proof. intros Hc Hn. apply zchain_dom, subseteq_size in Hc. by rewrite size_list_to_set, size_dom in Hc. Qed.
Lemma zchain_app zs p l k : zchain zs p (l ++ k) -> exists q, zchain zs q k /\ match last l with
  | None => q = p | Some z => exists v, zs !! z = Some v /\ q = z_next v end.
Proof.
  revert p. induction l as [|z l IH]; intros p; [by exists p|]. cbn [app]. intros (-> & v & H1 & H2). apply IH in H2 as (q & Hq & Hl).
  exists q. split; [done|]. rewrite last_cons. destruct (last l); [done|]. exists v. by subst.
Qed.
(** the chain without [z], when the link before it skips it *)
Lemma zchain_skip zs p pre q vq nx z vz post : zchain zs p (pre ++ q :: z :: post) -> NoDup (pre ++ q :: z :: post) ->
  zs !! q = Some vq -> zs !! z = Some vz -> nx = z_next vz -> zchain (<[q := zn_set_next nx vq]> zs) p (pre ++ q :: post).
Proof.
  intros Hc Hn Hq Hz ->. revert p Hc. induction pre as [|x pre IH]; intros p; cbn in *.
  - intros (-> & v & H1 & (_ & v' & H2 & H3)). split; [done|]. eexists. split; [apply lookup_insert_eq|]. cbn. apply zchain_insert; [congruence|].
    apply NoDup_cons in Hn as [Hn _]. set_solver.
  - intros (-> & v & H1 & H2). apply NoDup_cons in Hn as [Hx Hn]. split; [done|]. exists v.
    rewrite lookup_insert_ne by (intros <-; apply Hx; set_solver). split; [done|]. by apply IH.
Qed.

(** the removal of a zone from the list at the index [zi] *)
Record unlinked (s s' : slab) (zi : Z) (pre post : list Z) : Prop := {
  ul_rest : s' = zupd (zones s') (c_next s) (usage s) (zone_array s') (zone_free s) (zone_free_cnt s) (slab_sem s) (slab_used s) (slab_max s) s;
  ul_len : length (zone_array s') = length (zone_array s);
  ul_other : forall k, k <> Z.to_nat zi -> zone_array s' !! k = zone_array s !! k;
  ul_chain : exists hd, zone_array s' !! Z.to_nat zi = Some hd /\ zchain (zones s') hd (pre ++ post);
  ul_zones : forall x, x ∉ pre -> zones s' !! x = zones s !! x;
  ul_fields : forall x v, zones s !! x = Some v -> exists nx, zones s' !! x = Some (zn_set_next nx v);
}.
Lemma zone_unlink_run zi z hd post mid : forall pre p s fuel, zchain (zones s) hd (pre ++ mid ++ z :: post) -> NoDup (pre ++ mid ++ z :: post) ->
  zone_array s !! Z.to_nat zi = Some hd -> head (mid ++ z :: post) = Some p -> (length mid < fuel)%nat ->
  exists s', zone_unlink_loop fuel zi z (last pre) p s = Ok (tt, s') /\ unlinked s s' zi (pre ++ mid) post.
Proof.
  induction mid as [|x mid IH]; intros pre p s fuel Hc Hn Hhd Hp Hf; (destruct fuel as [|fuel]; [cbn in Hf; lia|]); cbn in Hp; injection Hp as <-; cbn [zone_unlink_loop].
  - rewrite Z.eqb_refl, app_nil_r. cbn [app] in *. destruct (zchain_app _ _ _ _ Hc) as (q & (-> & v & Hz & Hpost) & Hlast).
    rewrite (bind_run _ _ _ _ _ (get_zone_run _ _ _ Hz)). destruct pre as [|y pre _] using rev_ind.
    + cbn in Hlast. subst hd. cbn [last]. eexists. split; [reflexivity|]. apply lookup_lt_Some in Hhd. split; cbn; [by destruct s|by rewrite length_insert| | |done|].
      * intros k Hk. by apply list_lookup_insert_ne.
      * exists (z_next v). split; [by apply list_lookup_insert_eq|done].
      * intros x u Hu. exists (z_next u). by rewrite zn_next_id.
    + rewrite last_snoc in *. destruct Hlast as (vy & Hy & _). eexists. split; [by apply upd_zone_run|]. split; cbn; [by destruct s|done|done| | |].
      * exists hd. split; [done|]. rewrite <- app_assoc in Hc, Hn. cbn in Hc, Hn. rewrite <- app_assoc. by eapply zchain_skip.
      * intros x Hx. apply lookup_insert_ne. set_solver.
      * intros x u Hu. destruct (decide (y = x)) as [->|Hne].
        -- exists (z_next v). rewrite lookup_insert_eq. congruence.
        -- exists (z_next u). by rewrite lookup_insert_ne, zn_next_id.
  - assert (Hxz : x <> z).
    { intros ->. apply NoDup_app in Hn as (_ & _ & Hn). cbn in Hn. apply NoDup_cons in Hn as [Hn _]. set_solver. }
    rewrite (proj2 (Z.eqb_neq _ _) Hxz). destruct (zchain_app _ _ _ _ Hc) as (q & (-> & v & Hx & Hrest) & _).
    rewrite (bind_run _ _ _ _ _ (get_zone_run _ _ _ Hx)). specialize (IH (pre ++ [x]) (z_next v) s fuel).
    rewrite last_snoc, <- !app_assoc in IH. apply IH; [done..| |cbn in Hf; lia].
    destruct mid as [|y mid]; cbn in *; by destruct Hrest as [-> _].
Qed.
