(* ===== verification/SlabSpec.v ===== *)
(** Correctness of rt_malloc and rt_free of slab.c: an invariant of the pages,
    the zones and the table of page usage, from which the live blocks are read
    off; rt_malloc adds a block that is disjoint from all others, rt_free
    removes one. *)
From S2P Require Import Prelude KService Mem CpuPort Kernel Slab SlabPages SlabZones.

(** * The invariant *)
(** the list of the zones with index [zi] that have a free chunk *)
Record class_list (zs : gmap Z slab_zone) (G : gmap Z (list Z)) (zi hd : Z) (l : list Z) : Prop := {
  cl_chain : zchain zs hd l;
  cl_NoDup : NoDup l;
  cl_in : forall z, z ∈ l <-> exists F v, G !! z = Some F /\ zs !! z = Some v /\ z_zoneindex v = zi /\ 0 < z_nfree v;
}.
Definition small_pages (s : slab) (z : Z) : Prop := forall off, 0 <= off < zone_page_cnt s ->
  usage s !! (btokup s z + off) = Some {| mu_type := PAGE_TYPE_SMALL; mu_size := off |}.
(** [E]: the extents of the page allocator; [G]: the zones in use with their
    released chunks; [X]: zones on no list, between two steps; [fz]: the free
    zones; [B]: the large blocks with their numbers of pages *)
Record slab_inv (s : slab) (lo hi : Z) (E : gmap Z Z) (G : gmap Z (list Z)) (X fz : list Z) (B : gmap Z Z) : Prop := {
  si_sizes : zone_sizes_ok s;
  si_start : slab_start s = lo;
  si_lo : lo mod RT_MM_PAGE_SIZE = 0;
  si_pages : pages_inv s lo hi E;
  si_len : length (zone_array s) = Z.to_nat NZONES;
  si_zone : forall z F, G !! z = Some F -> exists v, zones s !! z = Some v /\ zone_at s z v F;
  si_class : forall zi, 0 <= zi < NZONES -> exists hd l, zone_array s !! Z.to_nat zi = Some hd /\ class_list (zones s) G zi hd l;
  si_free : zchain (zones s) (zone_free s) fz /\ zone_free_cnt s = Z.of_nat (length fz);
  si_NoDup : NoDup (X ++ fz);
  si_extent : forall z, is_Some (G !! z) \/ z ∈ X ++ fz -> E !! z = Some (zone_page_cnt s) /\ small_pages s z /\ z <> memusage_tbl s;
  si_sep : forall z, is_Some (G !! z) -> z ∉ X ++ fz;
  si_large : forall p n, B !! p = Some n -> E !! p = Some n /\ G !! p = None /\ p ∉ (X ++ fz) /\ p <> memusage_tbl s /\
    usage s !! btokup s p = Some {| mu_type := PAGE_TYPE_LARGE; mu_size := n |};
  si_tbl : is_Some (E !! memusage_tbl s);
  si_all : forall a n, E !! a = Some n -> is_Some (G !! a) \/ a ∈ X ++ fz \/ B !! a = Some n \/ a = memusage_tbl s;
}.
(** the blocks in the hands of the program *)
Definition live (s : slab) (G : gmap Z (list Z)) (B : gmap Z Z) (p n : Z) : Prop :=
  (exists k, B !! p = Some k /\ n = k * RT_MM_PAGE_SIZE) \/
  exists z F v i, G !! z = Some F /\ zones s !! z = Some v /\ chunk_live v F i /\ p = chunk_addr v i /\ n = z_chunksize v.
Definition slab_ok (s : slab) (lo hi : Z) (L : gmap Z Z) : Prop := slab_sem s = 1 /\
  exists E G fz B, slab_inv s lo hi E G [] fz B /\ forall p n, L !! p = Some n <-> live s G B p n.

(** * Pages and keys of the usage table *)
Lemma extent_range s lo hi E a n : pages_inv s lo hi E -> E !! a = Some n ->
  0 < lo <= a /\ a + n * RT_MM_PAGE_SIZE <= hi /\ hi < 4294967296 /\ a mod RT_MM_PAGE_SIZE = 0 /\ 0 < n.
Proof. intros [(l & [_ _ Hlo Hhi] & Ho & _) _] Ha. by destruct (Ho _ _ Ha) as [O1 O2 O3 O4 _]. Qed.
Lemma extent_unique s lo hi E a n b m x : pages_inv s lo hi E -> E !! a = Some n -> E !! b = Some m ->
  a <= x < a + n * RT_MM_PAGE_SIZE -> b <= x < b + m * RT_MM_PAGE_SIZE -> a = b.
Proof. intros [_ Hd] Ha Hb H1 H2. destruct (decide (a = b)) as [|Hne]; [done|]. destruct (Hd _ _ _ _ Ha Hb Hne); lia. Qed.
Lemma btokup_page s k : 0 <= k -> k * RT_MM_PAGE_SIZE < 4294967296 -> btokup s (slab_start s + k * RT_MM_PAGE_SIZE) = k.
Proof.
  intros H0 H1. unfold btokup, RT_MM_PAGE_BITS, RT_MM_PAGE_SIZE in *. replace (slab_start s + k * 4096 - slab_start s) with (k * 4096) by lia. rewrite u32_small by lia.
  rewrite Z.shiftr_div_pow2 by lia. by apply Z.div_mul.
Qed.
(** the pages of an extent by number *)
Lemma extent_keys s0 s lo hi E a n : pages_inv s0 lo hi E -> slab_start s = lo -> lo mod RT_MM_PAGE_SIZE = 0 -> E !! a = Some n ->
  a = lo + btokup s a * RT_MM_PAGE_SIZE /\ 0 <= btokup s a /\
  forall i, 0 <= i < n -> btokup s (a + i * RT_MM_PAGE_SIZE) = btokup s a + i.
Proof.
  intros Hp <- Hlo Ha. destruct (extent_range _ _ _ _ _ _ Hp Ha) as (R1 & R2 & R3 & R4 & R5).
  apply Z.mod_divide in Hlo as [c Hc]; [|done]. apply Z.mod_divide in R4 as [d Hd]; [|done]. unfold RT_MM_PAGE_SIZE in *.
  assert (Hk : btokup s a = d - c).
  { replace a with (slab_start s + (d - c) * RT_MM_PAGE_SIZE) at 1 by (unfold RT_MM_PAGE_SIZE; lia). apply btokup_page; unfold RT_MM_PAGE_SIZE; lia. }
  rewrite Hk. split; [lia|]. split; [lia|]. intros i Hi.
  replace (a + i * 4096) with (slab_start s + (d - c + i) * RT_MM_PAGE_SIZE) by (unfold RT_MM_PAGE_SIZE; lia). apply btokup_page; unfold RT_MM_PAGE_SIZE; lia.
Qed.
Lemma keys_distinct s0 s lo hi E a n b m i j : pages_inv s0 lo hi E -> slab_start s = lo -> lo mod RT_MM_PAGE_SIZE = 0 ->
  E !! a = Some n -> E !! b = Some m -> a <> b -> 0 <= i < n -> 0 <= j < m -> btokup s a + i <> btokup s b + j.
Proof.
  intros Hp Hst Hlo Ha Hb Hne Hi Hj Hk. destruct (extent_keys _ _ _ _ _ _ _ Hp Hst Hlo Ha) as (A1 & _ & _).
  destruct (extent_keys _ _ _ _ _ _ _ Hp Hst Hlo Hb) as (B1 & _ & _). apply Hne. unfold RT_MM_PAGE_SIZE in *.
  eapply (extent_unique _ _ _ _ _ _ _ _ (a + i * 4096) Hp Ha Hb); unfold RT_MM_PAGE_SIZE; lia.
Qed.
(** the page of an address in an extent *)
Lemma page_of_extent a p n : a mod RT_MM_PAGE_SIZE = 0 -> a <= p < a + n * RT_MM_PAGE_SIZE ->
  exists off, 0 <= off < n /\ page_of p = a + off * RT_MM_PAGE_SIZE.
Proof.
  intros Ha Hp. exists ((p - a) / RT_MM_PAGE_SIZE). unfold page_of, RT_MM_PAGE_MASK.
  apply Z.mod_divide in Ha as [k ->]; [|done]. unfold RT_MM_PAGE_SIZE in *. change (4096 - 1) with (Z.ones 12).
  rewrite <- Z.ldiff_land, Z.ldiff_ones_r, Z.shiftl_mul_pow2, Z.shiftr_div_pow2 by lia. change (2 ^ 12) with 4096.
  replace (p / 4096) with ((p - k * 4096) / 4096 + k); [|rewrite <- Z.div_add by lia; f_equal; lia].
  pose proof (Z.div_mod (p - k * 4096) 4096 ltac:(lia)). pose proof (Z.mod_pos_bound (p - k * 4096) 4096 ltac:(lia)). split; lia.
Qed.

Lemma set_usage_run n f : forall kup off s, exists us, set_usage_loop n kup off f s = Ok (tt, set_usage us s) /\
  forall k, us !! k = if decide (kup <= k < kup + Z.of_nat n) then Some (f (off + (k - kup))) else usage s !! k.
Proof.
  induction n as [|n IH]; intros kup off s; cbn [set_usage_loop].
  - exists (usage s). split; [by destruct s|]. intros k. rewrite decide_False by lia. done.
  - erewrite bind_run; [cbv beta|reflexivity]. destruct (IH (kup + 1) (off + 1) (set_usage (<[kup := f off]> (usage s)) s)) as (us & Hrun & Hus).
    exists us. split; [by rewrite Hrun; destruct s|]. intros k. rewrite Hus. cbn. destruct (decide (kup = k)) as [->|Hne].
    + rewrite decide_False, lookup_insert_eq, decide_True by lia. do 2 f_equal. lia.
    + rewrite lookup_insert_ne by done. destruct (decide (kup + 1 <= k < kup + 1 + Z.of_nat n)).
      * rewrite decide_True by lia. do 2 f_equal. lia.
      * rewrite decide_False by lia. done.
Qed.

(** * Steps of the zones *)
Lemma pages_inv_ext s s' lo hi E : pages_inv s lo hi E -> page_heads s' = page_heads s -> rt_page_list s' = rt_page_list s -> pages_inv s' lo hi E.
Proof.
  intros [(l & [Hc Hr Hlo Hhi] & Ho & Hcov) Hd] E1 E2. split; [|done]. exists l. split; [|done]. split; [by rewrite E1, E2|done..].
Qed.
(** the zone at [z] gets a header and a list of released chunks, and comes from
    [X] if it was not in use *)
Lemma inv_set s lo hi E G X X' fz B z v' F' cn arr sem u m :
  let s' := zupd (<[z := v']> (zones s)) cn (usage s) arr (zone_free s) (zone_free_cnt s) sem u m s in
  slab_inv s lo hi E G X fz B -> (is_Some (G !! z) /\ X' = X \/ G !! z = None /\ X = z :: X') ->
  (forall F v, G !! z = Some F -> zones s !! z = Some v -> z_zoneindex v = z_zoneindex v') ->
  zone_at s' z v' F' ->
  (forall y F v i, y <> z -> G !! y = Some F -> zones s !! y = Some v -> zone_at s y v F -> i ∈ F -> cn !! chunk_addr v i = c_next s !! chunk_addr v i) ->
  length arr = length (zone_array s) -> (forall k, k <> Z.to_nat (z_zoneindex v') -> arr !! k = zone_array s !! k) ->
  (exists hd l, arr !! Z.to_nat (z_zoneindex v') = Some hd /\ class_list (<[z := v']> (zones s)) (<[z := F']> G) (z_zoneindex v') hd l) ->
  slab_inv s' lo hi E (<[z := F']> G) X' fz B.
Proof.
  intros s' [I1 I2 I3 I4 I5 I6 I7 [I8 I8'] I9 I10 I11 I12 Itbl I13] Hz Hidx Hat Hcn Hlen Harr Hcl.
  assert (HX : forall x, x ∈ X' ++ fz -> x ∈ X ++ fz) by (destruct Hz as [[_ ->]|[_ ->]]; set_solver).
  assert (Hzin : is_Some (G !! z) \/ z ∈ X ++ fz) by (destruct Hz as [[? _]|[_ ->]]; [by left|right; set_solver]).
  assert (HzX : z ∉ X' ++ fz).
  { destruct Hz as [[Hz ->]|[_ ->]]; [by apply I11|]. cbn in I9. by apply NoDup_cons in I9 as [? _]. }
  assert (Hin : forall x, is_Some (<[z := F']> G !! x) -> x = z \/ is_Some (G !! x)).
  { intros x. destruct (decide (z = x)) as [->|Hne]; [by left|rewrite lookup_insert_ne by done; by right]. }
  split; cbn; try done.
  - eapply pages_inv_ext; [exact I4|done..].
  - by rewrite Hlen.
  - intros x F. rewrite lookup_insert_Some. intros [[<- <-]|[Hne Hx]]; [exists v'; by rewrite lookup_insert_eq|].
    destruct (I6 _ _ Hx) as (v & Hv & Hva). exists v. rewrite lookup_insert_ne by done. split; [done|].
    eapply zone_at_frame; [exact Hva|done..|]. intros i Hi. by apply (Hcn x F v i).
  - intros zi Hzi. destruct (decide (zi = z_zoneindex v')) as [->|Hne]; [done|].
    destruct (I7 zi Hzi) as (hd & l & Hhd & [C1 C2 C3]). exists hd, l. rewrite Harr by (pose proof (za_index _ _ _ _ Hat); lia). split; [done|].
    assert (Hzl : z ∉ l). { intros Hin'. apply C3 in Hin' as (F & v & HG & Hv & Hi & _). by rewrite (Hidx _ _ HG Hv) in Hi. }
    split; [by apply zchain_insert|done|]. intros x. rewrite C3. destruct (decide (z = x)) as [<-|Hnx].
    + rewrite <- C3. rewrite !lookup_insert_eq. split; [done|]. intros (F & v & HF & Hv & Hi & _). exfalso. apply Hne. congruence.
    + by rewrite !lookup_insert_ne by done.
  - split; [|done]. apply zchain_insert; [done|]. set_solver.
  - destruct Hz as [[_ ->]|[_ ->]]; [done|]. cbn in I9. by apply NoDup_cons in I9 as [_ ?].
  - intros x Hx. apply I10. destruct Hx as [Hx|Hx]; [|right; by apply HX]. apply Hin in Hx as [->|Hx]; [done|by left].
  - intros x Hx. apply Hin in Hx as [->|Hx]; [done|]. intros Hx'. by apply (I11 _ Hx), HX.
  - intros p n Hp. destruct (I12 _ _ Hp) as (L1 & L2 & L3 & L4 & L5). split_and!; [done| |by intros ?%HX|done..].
    rewrite lookup_insert_ne; [done|]. intros <-. destruct Hzin as [[? ?]|]; congruence.
  - intros a n Ha. destruct (decide (z = a)) as [<-|Hne]; [left; by rewrite lookup_insert_eq|]. rewrite lookup_insert_ne by done.
    destruct (I13 _ _ Ha) as [?|[H|?]]; [by left| |by right; right]. right. left. destruct Hz as [[_ ->]|[_ ->]]; [done|]. set_solver.
Qed.

(** * The live blocks *)
(** every block lies in an extent: it is the extent, or a chunk of that zone *)
Definition at_home (s : slab) (G : gmap Z (list Z)) (B : gmap Z Z) (a k p n : Z) : Prop :=
  (a = p /\ n = k * RT_MM_PAGE_SIZE /\ B !! a = Some k /\ G !! a = None) \/
  (a < p /\ exists F v i, G !! a = Some F /\ zones s !! a = Some v /\ chunk_live v F i /\ p = chunk_addr v i /\ n = z_chunksize v).
Lemma live_home s lo hi E G X fz B p n : slab_inv s lo hi E G X fz B -> live s G B p n ->
  exists a k, E !! a = Some k /\ a <= p /\ 0 < n /\ p + n <= a + k * RT_MM_PAGE_SIZE /\ at_home s G B a k p n.
Proof.
  intros I [(k & Hk & ->)|(z & F & v & i & HG & Hv & Hl & -> & ->)].
  - destruct (si_large _ _ _ _ _ _ _ _ I _ _ Hk) as (L1 & L2 & _). pose proof (extent_range _ _ _ _ _ _ (si_pages _ _ _ _ _ _ _ _ I) L1) as (R1 & R2 & R3 & R4 & R5).
    exists p, k. split_and!; [done|lia|pages; lia|lia|by left].
  - destruct (si_zone _ _ _ _ _ _ _ _ I _ _ HG) as (v0 & Hv0 & Hat). replace v0 with v in * by congruence. pose proof Hl as [Hi _].
    destruct (chunk_inside s z v F i (si_sizes _ _ _ _ _ _ _ _ I) Hat ltac:(pose proof (za_uindex _ _ _ _ Hat); lia)) as (C1 & C2 & C3).
    destruct (si_extent _ _ _ _ _ _ _ _ I z (or_introl (mk_is_Some _ _ HG))) as [HE _].
    destruct (zone_pages s (si_sizes _ _ _ _ _ _ _ _ I)) as [Hzs _]. exists z, (zone_page_cnt s).
    split_and!; [done|lia|done|lia|right; split; [done|by exists F, v, i]].
Qed.
(** a chunk is in one zone, and not a large block *)
Lemma chunk_home s lo hi E G X fz B z F v i : slab_inv s lo hi E G X fz B -> G !! z = Some F -> zones s !! z = Some v -> 0 <= i < z_nmax v ->
  0 < z_chunksize v /\ z < chunk_addr v i /\ chunk_addr v i + z_chunksize v <= z + zone_page_cnt s * RT_MM_PAGE_SIZE /\ E !! z = Some (zone_page_cnt s).
Proof.
  intros I HG Hv Hi. pose proof (si_sizes _ _ _ _ _ _ _ _ I) as Hs. destruct (zone_pages s Hs) as [Hzs _].
  destruct (si_zone _ _ _ _ _ _ _ _ I _ _ HG) as (v0 & Hv0 & Hat). assert (v0 = v) as -> by congruence.
  destruct (chunk_inside s z v F i Hs Hat Hi) as (C1 & C2 & C3). destruct (si_extent _ _ _ _ _ _ _ _ I z (or_introl (mk_is_Some _ _ HG))) as [HE _].
  split_and!; [done|done|lia|done].
Qed.
Lemma chunk_unique s lo hi E G X fz B z F v i y Fy w j : slab_inv s lo hi E G X fz B -> G !! z = Some F -> zones s !! z = Some v -> 0 <= i < z_nmax v ->
  G !! y = Some Fy -> zones s !! y = Some w -> 0 <= j < z_nmax w -> chunk_addr v i = chunk_addr w j -> z = y /\ i = j.
Proof.
  intros I HG Hv Hi HGy Hw Hj Heq. destruct (chunk_home _ _ _ _ _ _ _ _ _ _ _ _ I HG Hv Hi) as (C1 & C2 & C3 & HE).
  destruct (chunk_home _ _ _ _ _ _ _ _ _ _ _ _ I HGy Hw Hj) as (D1 & D2 & D3 & HE').
  assert (z = y) as <- by (eapply (extent_unique _ _ _ _ _ _ _ _ (chunk_addr w j) (si_pages _ _ _ _ _ _ _ _ I) HE HE'); lia).
  split; [done|]. assert (w = v) as -> by congruence. by eapply chunk_inj.
Qed.
Lemma chunk_not_large s lo hi E G X fz B z F v i k : slab_inv s lo hi E G X fz B -> G !! z = Some F -> zones s !! z = Some v -> 0 <= i < z_nmax v ->
  B !! chunk_addr v i <> Some k.
Proof.
  intros I HG Hv Hi HB. destruct (chunk_home _ _ _ _ _ _ _ _ _ _ _ _ I HG Hv Hi) as (C1 & C2 & C3 & HE).
  destruct (si_large _ _ _ _ _ _ _ _ I _ _ HB) as (HE' & _). pose proof (si_pages _ _ _ _ _ _ _ _ I) as Hp.
  destruct (extent_range _ _ _ _ _ _ Hp HE') as (_ & _ & _ & _ & Hk).
  assert (z = chunk_addr v i); [|lia]. eapply (extent_unique _ _ _ _ _ _ _ _ (chunk_addr v i) Hp HE HE'); [lia|pages; lia].
Qed.
(** two blocks that meet are the same *)
Lemma live_overlap s lo hi E G X fz B p n q m : slab_inv s lo hi E G X fz B -> live s G B p n -> live s G B q m -> p <= q < p + n -> p = q /\ n = m.
Proof.
  intros I Hp Hq Hov. destruct (live_home _ _ _ _ _ _ _ _ _ _ I Hp) as (a & k & HE & A1 & A2 & A3 & A4).
  destruct (live_home _ _ _ _ _ _ _ _ _ _ I Hq) as (b & l & HE' & B1 & B2 & B3 & B4).
  assert (a = b) as <- by (eapply (extent_unique _ _ _ _ _ _ _ _ q (si_pages _ _ _ _ _ _ _ _ I) HE HE'); lia).
  destruct A4 as [(-> & -> & HB & HG)|(Ha & F & v & i & HG & Hv & _ & -> & ->)],
    B4 as [(-> & -> & HB' & HG')|(Hb & F' & w & j & HG' & Hw & _ & -> & ->)]; try congruence.
  - split; [done|congruence].
  - replace w with v in * by congruence. split; [|done]. unfold chunk_addr in *. assert (i = j) by nia. by subst.
Qed.
Lemma live_disjoint s lo hi E G X fz B p n q m : slab_inv s lo hi E G X fz B -> live s G B p n -> live s G B q m -> p <> q -> p + n <= q \/ q + m <= p.
Proof.
  intros I Hp Hq Hne. destruct (Z.le_gt_cases (p + n) q) as [|H1]; [by left|]. destruct (Z.le_gt_cases (q + m) p) as [|H2]; [by right|].
  destruct (Z.le_gt_cases p q) as [H3|H3].
  - destruct (live_overlap _ _ _ _ _ _ _ _ _ _ _ _ I Hp Hq ltac:(lia)). congruence.
  - destruct (live_overlap _ _ _ _ _ _ _ _ _ _ _ _ I Hq Hp ltac:(lia)). congruence.
Qed.

(** the live blocks when one zone has changed *)
Lemma live_zone s s' G B z F v F' v' p n : G !! z = Some F -> zones s !! z = Some v -> zones s' = <[z := v']> (zones s) -> same_zone v v' ->
  live s' (<[z := F']> G) B p n <->
    (exists k, B !! p = Some k /\ n = k * RT_MM_PAGE_SIZE) \/
    (exists i, chunk_live v' F' i /\ p = chunk_addr v i /\ n = z_chunksize v) \/
    (exists y Fy w i, y <> z /\ G !! y = Some Fy /\ zones s !! y = Some w /\ chunk_live w Fy i /\ p = chunk_addr w i /\ n = z_chunksize w).
Proof.
  intros HG Hv Ez Hsame. pose proof Hsame as (_ & Ec & _). unfold live. rewrite Ez. split; (intros [H|H]; [by left|right]).
  - destruct H as (y & Fy & w & i & HGy & Hw & H1 & -> & ->). destruct (decide (z = y)) as [<-|Hne].
    + left. rewrite lookup_insert_eq in HGy; rewrite lookup_insert_eq in Hw. simplify_eq. exists i. by rewrite (same_chunk _ _ _ Hsame), Ec.
    + right. rewrite lookup_insert_ne in HGy by done; rewrite lookup_insert_ne in Hw by done. by exists y, Fy, w, i.
  - destruct H as [(i & H1 & -> & ->)|(y & Fy & w & i & Hne & HGy & Hw & H1 & -> & ->)].
    + exists z, F', v', i. by rewrite !lookup_insert_eq, (same_chunk _ _ _ Hsame), Ec.
    + exists y, Fy, w, i. by rewrite !lookup_insert_ne by done.
Qed.
(** the list of a class when the header of its first zone changes *)
Lemma class_head zs G zi z l v v' F' : class_list zs G zi z (z :: l) -> zs !! z = Some v -> z_zoneindex v' = zi -> 0 < z_nfree v' ->
  z_next v' = z_next v -> class_list (<[z := v']> zs) (<[z := F']> G) zi z (z :: l).
Proof.
  intros [(_ & u & Hu & Hc) Hn Hin] Hv Hi Hf Hx. assert (u = v) as -> by congruence. pose proof Hn as [Hz _]%NoDup_cons. split; [|done|].
  - cbn. split; [done|]. exists v'. rewrite lookup_insert_eq, Hx. split; [done|]. by apply zchain_insert.
  - intros x. destruct (decide (z = x)) as [<-|Hne]; [|by rewrite !lookup_insert_ne by done; apply Hin].
    rewrite !lookup_insert_eq. split; [|by left]. intros _. by exists F', v'.
Qed.
Lemma class_drop zs G zi z l v v' F' : class_list zs G zi z (z :: l) -> zs !! z = Some v -> z_nfree v' = 0 ->
  class_list (<[z := v']> zs) (<[z := F']> G) zi (z_next v) l.
Proof.
  intros [(_ & u & Hu & Hc) Hn Hin] Hv Hf. assert (u = v) as -> by congruence. apply NoDup_cons in Hn as [Hz Hn]. split; [by apply zchain_insert|done|].
  intros x. destruct (decide (z = x)) as [<-|Hne].
  - rewrite !lookup_insert_eq. split; [done|]. intros (F & w & _ & Hw & _ & Hpos). assert (w = v') as -> by congruence. lia.
  - rewrite !lookup_insert_ne by done. rewrite <- Hin. rewrite elem_of_cons. naive_solver.
Qed.
Lemma class_push zs G zi z hd l v' F' : class_list zs G zi hd l -> z ∉ l -> z_zoneindex v' = zi -> 0 < z_nfree v' ->
  z_next v' = hd -> class_list (<[z := v']> zs) (<[z := F']> G) zi z (z :: l).
Proof.
  intros [Hc Hn Hin] Hz Hi Hf Hx. split; [|by apply NoDup_cons|].
  - cbn. split; [done|]. exists v'. rewrite lookup_insert_eq, Hx. split; [done|]. by apply zchain_insert.
  - intros x. destruct (decide (z = x)) as [<-|Hne].
    + rewrite !lookup_insert_eq. split; [|by left]. intros _. by exists F', v'.
    + rewrite !lookup_insert_ne by done. rewrite <- Hin, elem_of_cons. naive_solver.
Qed.

(** a chunk from the first zone of a class *)
Lemma zone_take_inv s lo hi E G fz B zi z : slab_inv s lo hi E G [] fz B -> 0 <= zi < NZONES ->
  zone_array s !! Z.to_nat zi = Some z -> z <> RT_NULL ->
  exists p s' G', zone_take zi z (class_size zi) s = Ok (p, s') /\ slab_sem s' = slab_sem s + 1 /\ p mod 8 = 0 /\
    slab_inv s' lo hi E G' [] fz B /\ (forall n, ~ live s G B p n) /\
    (forall q n, live s' G' B q n <-> (q = p /\ n = class_size zi) \/ live s G B q n).
Proof.
  intros I Hzi Harr Hnull. pose proof (si_sizes _ _ _ _ _ _ _ _ I) as Hsz. destruct (si_class _ _ _ _ _ _ _ _ I zi Hzi) as (hd & l & Hhd & Hcl).
  assert (hd = z) as -> by congruence. destruct l as [|y l]; [by destruct (cl_chain _ _ _ _ _ Hcl)|].
  assert (y = z) as -> by (by destruct (cl_chain _ _ _ _ _ Hcl) as [-> _]).
  destruct (proj1 (cl_in _ _ _ _ _ Hcl z) ltac:(by left)) as (F & v & HG & Hv & Hvi & Hvf).
  destruct (si_zone _ _ _ _ _ _ _ _ I _ _ HG) as (v0 & Hv0 & Hat). assert (v0 = v) as -> by congruence.
  destruct (si_extent _ _ _ _ _ _ _ _ I z (or_introl (mk_is_Some _ _ HG))) as [HE _].
  destruct (extent_range _ _ _ _ _ _ (si_pages _ _ _ _ _ _ _ _ I) HE) as (R1 & R2 & R3 & R4 & _).
  destruct (zone_pages s Hsz) as [Hzs _].
  destruct (zone_take_at s z v F Hsz Hat Hvf ltac:(lia) ltac:(lia)) as (i & F' & v' & Hstep & Hi & Hnl & Hat' & Hsame & Hnf & Hnx & Hlive).
  destruct (zone_take_run s zi z v (chunk_addr v i) v' Hv Hvf) as (u & m & Hrun); [apply lookup_lt_Some in Harr; lia| |].
  { destruct Hstep as [(H1 & H2 & H3)|(H1 & n & H2 & H3 & H4)]; [left|right; split; [done|]; exists n]; by rewrite ?H3, ?H4. }
  pose proof Hsame as (S1 & S2 & S3 & S4). pose proof (za_size _ _ _ _ Hat) as Hcs. rewrite Hvi in Hcs.
  assert (Hdis : forall j, chunk_live v F j -> chunk_addr v j <> chunk_addr v i).
  { intros j Hj Heq. apply chunk_inj in Heq as ->; [done|]. by destruct (chunk_inside s z v F i Hsz Hat Hi). }
  eexists (chunk_addr v i), _, (<[z := F']> G). split; [rewrite <- Hcs; exact Hrun|]. split; [done|]. split; [|split; [|split]].
  - rewrite <- Hvi in Hzi. destruct (zone_geometry s (z_zoneindex v) Hsz Hzi (za_limit _ _ _ _ Hat)) as (_ & G2 & _ & G4 & _).
    unfold chunk_addr. rewrite (za_base _ _ _ _ Hat), Hcs, <- Hvi. apply Z.mod_divide in R4 as [a ->]; [|done].
    apply Z.mod_divide in G2 as [b Hb]; [|done]. apply Z.mod_divide in G4 as [c Hc]; [|done]. rewrite Hc, Hb.
    unfold RT_MM_PAGE_SIZE. apply Z.mod_divide; [done|]. exists (a * 512 + c + i * b). lia.
  - apply (inv_set s lo hi E G [] [] fz B z v' F'); try done.
    + left. split; [by exists F|done].
    + intros F1 v1 _ Hv1. congruence.
    + eapply zone_at_frame; [exact Hat'|done..].
    + destruct (z_nfree v =? 1); [by rewrite length_insert|done].
    + intros k Hk. destruct (z_nfree v =? 1); [|done]. apply list_lookup_insert_ne. congruence.
    + rewrite S1, Hvi. unfold next_of in Hnx. destruct (Z.eqb_spec (z_nfree v) 1) as [E1|E1].
      * eexists _, l. split; [apply list_lookup_insert_eq; by apply lookup_lt_Some in Harr|]. eapply class_drop; [done|done|lia].
      * eexists z, (z :: l). split; [done|]. eapply class_head; [done|done|congruence|lia|done].
  - intros n Hl. destruct (live_home _ _ _ _ _ _ _ _ _ _ I Hl) as (a & k & HE' & A1 & A2 & A3 & A4).
    destruct (chunk_inside s z v F i Hsz Hat Hi) as (C1 & C2 & C3).
    assert (a = z) as -> by (eapply (extent_unique _ _ _ _ _ _ _ _ (chunk_addr v i) (si_pages _ _ _ _ _ _ _ _ I) HE' HE); lia).
    destruct A4 as [(? & _ & _ & ?)|(_ & F1 & v1 & j & HG1 & Hv1 & Hj & Heq & _)]; [congruence|].
    assert (v1 = v) as -> by congruence. assert (F1 = F) as -> by congruence. by apply (Hdis j Hj).
  - intros q n. rewrite (live_zone s _ G B z F v F' v') by done. unfold live. rewrite Hcs. split.
    + intros [H|[(j & Hj & -> & ->)|(y & Fy & w & j & Hne & H)]]; [by right; left| |right; right; by exists y, Fy, w, j].
      apply Hlive in Hj as [->|Hj]; [by left|]. right. right. exists z, F, v, j. by rewrite Hcs.
    + intros [[-> ->]|[H|(y & Fy & w & j & HGy & Hw & Hj & -> & ->)]]; [right; left; exists i; split; [apply Hlive; by left|done]|by left|right].
      destruct (decide (y = z)) as [->|Hne]; [left|right; by exists y, Fy, w, j].
      assert (w = v) as -> by congruence. assert (Fy = F) as -> by congruence. exists j. rewrite Hcs. split; [apply Hlive; by right|done].
Qed.

(** * Steps of the pages *)
(** the zones, their lists and the constants are the same *)
Record same_zones (s s' : slab) : Prop := {
  sz_zones : zones s' = zones s; sz_c_next : c_next s' = c_next s; sz_array : zone_array s' = zone_array s;
  sz_free : zone_free s' = zone_free s; sz_cnt : zone_free_cnt s' = zone_free_cnt s; sz_size : zone_size s' = zone_size s;
  sz_limit : zone_limit s' = zone_limit s; sz_pages : zone_page_cnt s' = zone_page_cnt s; sz_start : slab_start s' = slab_start s;
  sz_tbl : memusage_tbl s' = memusage_tbl s;
}.
Lemma pages_only_same s s' : pages_only s s' -> same_zones s s' /\ usage s' = usage s /\ slab_sem s' = slab_sem s.
Proof. by intros (ph & hd & ->). Qed.
Lemma same_zones_trans s s1 s2 : same_zones s s1 -> same_zones s1 s2 -> same_zones s s2.
Proof. intros [] []. split; congruence. Qed.
Lemma same_btokup s s' a : same_zones s s' -> btokup s' a = btokup s a.
Proof. intros H. unfold btokup. by rewrite (sz_start _ _ H). Qed.
(** the entries of the pages of the extents in [E] *)
Definition usage_kept (s s' : slab) (E : gmap Z Z) : Prop := forall b m i, E !! b = Some m -> 0 <= i < m ->
  usage s' !! (btokup s b + i) = usage s !! (btokup s b + i).
Lemma small_kept s s' E z : same_zones s s' -> usage_kept s s' E -> E !! z = Some (zone_page_cnt s) -> small_pages s z -> small_pages s' z.
Proof. intros Hs Hk Hz H off Hoff. rewrite (sz_pages _ _ Hs) in Hoff. rewrite (same_btokup _ _ _ Hs), (Hk _ _ _ Hz Hoff). by apply H. Qed.
Lemma large_kept s s' lo hi E p n u : pages_inv s lo hi E -> same_zones s s' -> usage_kept s s' E -> E !! p = Some n ->
  usage s !! btokup s p = Some u -> usage s' !! btokup s' p = Some u.
Proof.
  intros Hp Hs Hk Hpn Hu. rewrite (same_btokup _ _ _ Hs). destruct (extent_range _ _ _ _ _ _ Hp Hpn) as (_ & _ & _ & _ & Hn).
  specialize (Hk _ _ 0 Hpn ltac:(lia)). rewrite Z.add_0_r in Hk. by rewrite Hk.
Qed.
(** what the zones need when only pages and the usage table change *)
Lemma inv_pages s s' lo hi E E0 E' G X X' fz B B' : slab_inv s lo hi E G X fz B -> same_zones s s' -> pages_inv s' lo hi E' -> usage_kept s s' E0 ->
  (forall z, is_Some (G !! z) \/ z ∈ fz \/ z = memusage_tbl s -> E' !! z = E !! z /\ E0 !! z = E !! z) ->
  NoDup (X' ++ fz) ->
  (forall z, z ∈ X' -> E' !! z = Some (zone_page_cnt s) /\ small_pages s' z /\ z <> memusage_tbl s /\ G !! z = None) ->
  (forall p n, B' !! p = Some n -> E' !! p = Some n /\ G !! p = None /\ p ∉ (X' ++ fz) /\ p <> memusage_tbl s /\
    usage s' !! btokup s' p = Some {| mu_type := PAGE_TYPE_LARGE; mu_size := n |}) ->
  (forall a n, E' !! a = Some n -> is_Some (G !! a) \/ a ∈ X' ++ fz \/ B' !! a = Some n \/ a = memusage_tbl s) ->
  slab_inv s' lo hi E' G X' fz B'.
Proof.
  intros [I1 I2 I3 I4 I5 I6 I7 I8 I9 I10 I11 I12 Itbl I13] Hs Hp Hu HE Hn HX HB Hall. pose proof Hs as [Z1 Z2 Z3 Z4 Z5 Z6 Z7 Z8 Z9 Z10].
  split; rewrite ?Z1, ?Z2, ?Z3, ?Z4, ?Z5, ?Z6, ?Z7, ?Z8, ?Z9, ?Z10; try done.
  - unfold zone_sizes_ok. by rewrite Z6, Z7, Z8.
  - intros z F HG. destruct (I6 _ _ HG) as (v & Hv & Hat). exists v. split; [done|]. eapply zone_at_frame; [done..|]. intros. by rewrite Z2.
  - intros z [Hz|Hz].
    + destruct (I10 z (or_introl Hz)) as (E1 & E2 & E3). destruct (HE z) as [-> E4]; [by auto|]. split; [done|].
      split; [|done]. eapply small_kept; [done..| |done]. by rewrite E4.
    + apply elem_of_app in Hz as [Hz|Hz]; [destruct (HX _ Hz) as (? & ? & ? & _); by split_and!|].
      destruct (I10 z ltac:(set_solver)) as (E1 & E2 & E3). destruct (HE z) as [-> E4]; [by auto|].
      split; [done|]. split; [|done]. eapply small_kept; [done..| |done]. by rewrite E4.
  - intros z Hz Hin. apply elem_of_app in Hin as [Hin|Hin]; [destruct (HX _ Hin) as (_ & _ & _ & HG); rewrite HG in Hz; by destruct Hz|].
    apply (I11 _ Hz). set_solver.
  - destruct (HE (memusage_tbl s)) as [-> _]; [by auto|done].
Qed.

Lemma inv_ext s s' lo hi E G X fz B : slab_inv s lo hi E G X fz B -> same_zones s s' -> usage s' = usage s ->
  page_heads s' = page_heads s -> rt_page_list s' = rt_page_list s -> slab_inv s' lo hi E G X fz B.
Proof.
  intros I Hs Hu H1 H2. pose proof I as [_ _ _ I4 _ _ _ _ I9 I10 I11 I12 _ I13].
  eapply (inv_pages s s' lo hi E E E); [done..|by eapply pages_inv_ext|by intros b m i _ _; rewrite Hu|done|done| | |done].
  - intros z Hz. destruct (I10 z) as (E1 & E2 & E3); [right; set_solver|]. split_and!; [done| |done|].
    + intros off Hoff. rewrite (sz_pages _ _ Hs) in Hoff. rewrite Hu, (same_btokup _ _ _ Hs). by apply E2.
    + destruct (G !! z) eqn:HGz; [|done]. exfalso. apply (I11 z); [by rewrite HGz|set_solver].
  - intros p n HB. rewrite Hu, (same_btokup _ _ _ Hs). by apply I12.
Qed.
(** the first free zone leaves the list *)
Lemma inv_pop s lo hi E G z v fz B n : slab_inv s lo hi E G [] (z :: fz) B -> zones s !! z = Some v -> n = z_next v ->
  slab_inv (set_zone_free n (zone_free_cnt s - 1) s) lo hi E G [z] fz B.
Proof.
  intros [] Hv ->. destruct si_free0 as [(_ & u & Hu & Hc) Hcnt]. assert (u = v) as -> by congruence.
  split; try done.
  - by eapply pages_inv_ext.
  - intros y F HG. destruct (si_zone0 _ _ HG) as (w & Hw & Hat). exists w. split; [done|]. by eapply zone_at_frame.
  - cbn. split; [done|]. rewrite Hcnt. cbn. lia.
Qed.
(** the key of a page that is kept is not one of the extent at [a] *)
Lemma usage_kept_except s0 s s' lo hi E a n : pages_inv s0 lo hi E -> slab_start s = lo -> lo mod RT_MM_PAGE_SIZE = 0 -> E !! a = Some n ->
  (forall k, ~ btokup s a <= k < btokup s a + n -> usage s' !! k = usage s !! k) -> usage_kept s s' (delete a E).
Proof.
  intros Hp Hst Hlo Ha Hus b m i. rewrite lookup_delete_Some. intros [Hne Hb] Hi. apply Hus. intros Hk.
  apply (keys_distinct _ _ _ _ _ _ _ _ _ (btokup s b + i - btokup s a) i Hp Hst Hlo Ha Hb Hne); lia.
Qed.
Lemma inv_add_zone s s' lo hi E G X fz B a : slab_inv s lo hi E G X fz B -> same_zones s s' -> E !! a = None ->
  pages_inv s' lo hi (<[a := zone_page_cnt s]> E) -> usage_kept s s' E -> small_pages s' a ->
  slab_inv s' lo hi (<[a := zone_page_cnt s]> E) G (a :: X) fz B.
Proof.
  intros I Hs Ha Hp Hk Hsm. pose proof I as [_ _ _ I4 _ _ _ _ I9 I10 I11 I12 Itbl I13].
  assert (HG : G !! a = None).
  { destruct (G !! a) eqn:HG; [|done]. destruct (I10 a) as [HE _]; [rewrite HG; left; by eexists|congruence]. }
  assert (HX : a ∉ X ++ fz) by (intros Hin; destruct (I10 a) as [HE _]; [by right|congruence]).
  assert (Ht : a <> memusage_tbl s) by (intros ->; destruct Itbl; congruence).
  eapply (inv_pages s s' lo hi E E); [done..| | | | |].
  - intros z Hz. split; [|done]. apply lookup_insert_ne. intros <-. destruct Hz as [[? ?]|[Hz|Hz]]; [congruence| |done]. set_solver.
  - cbn. by apply NoDup_cons.
  - intros z Hz. apply elem_of_cons in Hz as [->|Hz]; [by rewrite lookup_insert_eq|].
    destruct (I10 z) as (E1 & E2 & E3); [right; set_solver|]. rewrite lookup_insert_ne by (intros ->; congruence).
    split_and!; [done|by eapply small_kept|done|]. destruct (G !! z) eqn:HGz; [|done]. exfalso. apply (I11 z); [by rewrite HGz|set_solver].
  - intros p n HB. destruct (I12 _ _ HB) as (L1 & L2 & L3 & L4 & L5). assert (a <> p) by (intros ->; congruence).
    rewrite lookup_insert_ne by done. split_and!; [done|done| |done|by eapply large_kept]. cbn. by apply not_elem_of_cons.
  - intros b n. rewrite lookup_insert_Some. cbn. rewrite elem_of_cons. intros [[<- <-]|[Hne Hb]]; [by right; left; left|].
    destruct (I13 _ _ Hb) as [?|[?|?]]; auto.
Qed.
Lemma inv_add_large s s' lo hi E G X fz B a n : slab_inv s lo hi E G X fz B -> same_zones s s' -> E !! a = None ->
  pages_inv s' lo hi (<[a := n]> E) -> usage_kept s s' E -> usage s' !! btokup s' a = Some {| mu_type := PAGE_TYPE_LARGE; mu_size := n |} ->
  slab_inv s' lo hi (<[a := n]> E) G X fz (<[a := n]> B).
Proof.
  intros I Hs Ha Hp Hk Hu. pose proof I as [_ _ _ I4 _ _ _ _ I9 I10 I11 I12 Itbl I13].
  assert (HG : G !! a = None).
  { destruct (G !! a) eqn:HG; [|done]. destruct (I10 a) as [HE _]; [rewrite HG; left; by eexists|congruence]. }
  assert (HX : a ∉ X ++ fz) by (intros Hin; destruct (I10 a) as [HE _]; [by right|congruence]).
  assert (Ht : a <> memusage_tbl s) by (intros ->; destruct Itbl; congruence).
  eapply (inv_pages s s' lo hi E E); [done..| |done| | |].
  - intros z Hz. split; [|done]. apply lookup_insert_ne. intros <-. destruct Hz as [[? ?]|[Hz|Hz]]; [congruence| |done]. set_solver.
  - intros z Hz. destruct (I10 z) as (E1 & E2 & E3); [right; set_solver|]. rewrite lookup_insert_ne by (intros ->; congruence).
    split_and!; [done|by eapply small_kept|done|]. destruct (G !! z) eqn:HGz; [|done]. exfalso. apply (I11 z); [by rewrite HGz|set_solver].
  - intros p k. rewrite lookup_insert_Some. intros [[<- <-]|[Hne HB]]; [by rewrite lookup_insert_eq|].
    destruct (I12 _ _ HB) as (L1 & L2 & L3 & L4 & L5). rewrite lookup_insert_ne by done. split_and!; [done..|by eapply large_kept].
  - intros b k. rewrite !lookup_insert_Some. intros [[<- <-]|[Hne Hb]]; [by right; right; left; left|].
    destruct (I13 _ _ Hb) as [?|[?|[?|?]]]; auto 6.
Qed.
Lemma inv_del_zone s s' lo hi E G X fz B a : slab_inv s lo hi E G (a :: X) fz B -> same_zones s s' ->
  pages_inv s' lo hi (delete a E) -> usage_kept s s' (delete a E) -> slab_inv s' lo hi (delete a E) G X fz B.
Proof.
  intros I Hs Hp Hk. pose proof I as [_ _ _ I4 _ _ _ _ I9 I10 I11 I12 Itbl I13]. cbn in I9. apply NoDup_cons in I9 as [HX I9].
  destruct (I10 a) as (_ & _ & Ht); [right; by left|].
  assert (HG : G !! a = None) by (destruct (G !! a) eqn:HG; [|done]; exfalso; apply (I11 a); [by rewrite HG|by left]).
  eapply (inv_pages s s' lo hi E (delete a E)); [done..| |done| | |].
  - intros z Hz. rewrite lookup_delete_ne; [done|]. intros <-. destruct Hz as [[? ?]|[Hz|Hz]]; [congruence| |done]. set_solver.
  - intros z Hz. destruct (I10 z) as (E1 & E2 & E3); [right; cbn; set_solver|]. assert (a <> z) by set_solver.
    assert (Hz' : delete a E !! z = Some (zone_page_cnt s)) by (by rewrite lookup_delete_ne). split_and!; [done|by eapply small_kept|done|].
    destruct (G !! z) eqn:HGz; [|done]. exfalso. apply (I11 z); [by rewrite HGz|cbn; set_solver].
  - intros p n HB. destruct (I12 _ _ HB) as (L1 & L2 & L3 & L4 & L5). cbn in L3. apply not_elem_of_cons in L3 as [Hne L3].
    assert (Hp' : delete a E !! p = Some n) by (by rewrite lookup_delete_ne). split_and!; [done..|].
    rewrite (same_btokup _ _ _ Hs), <- L5. pose proof (Hk p n 0 Hp') as Hk0. rewrite !Z.add_0_r in Hk0. apply Hk0.
    destruct (extent_range _ _ _ _ _ _ I4 L1) as (_ & _ & _ & _ & ?). lia.
  - intros b n. rewrite lookup_delete_Some. intros [Hne Hb]. destruct (I13 _ _ Hb) as [?|[Hin|?]]; [by auto| |by auto].
    cbn in Hin. apply elem_of_cons in Hin as [->|?]; [done|auto].
Qed.
Lemma inv_del_large s s' lo hi E G X fz B a n : slab_inv s lo hi E G X fz B -> B !! a = Some n -> same_zones s s' ->
  pages_inv s' lo hi (delete a E) -> usage_kept s s' (delete a E) -> slab_inv s' lo hi (delete a E) G X fz (delete a B).
Proof.
  intros I Ha Hs Hp Hk. pose proof I as [_ _ _ I4 _ _ _ _ I9 I10 I11 I12 Itbl I13]. destruct (I12 _ _ Ha) as (_ & HG & HX & Ht & _).
  eapply (inv_pages s s' lo hi E (delete a E)); [done..| |done| | |].
  - intros z Hz. rewrite lookup_delete_ne; [done|]. intros <-. destruct Hz as [[? ?]|[Hz|Hz]]; [congruence| |done]. set_solver.
  - intros z Hz. destruct (I10 z) as (E1 & E2 & E3); [right; set_solver|]. assert (a <> z) by set_solver.
    assert (Hz' : delete a E !! z = Some (zone_page_cnt s)) by (by rewrite lookup_delete_ne). split_and!; [done|by eapply small_kept|done|].
    destruct (G !! z) eqn:HGz; [|done]. exfalso. apply (I11 z); [by rewrite HGz|set_solver].
  - intros p k. rewrite lookup_delete_Some. intros [Hne HB]. destruct (I12 _ _ HB) as (L1 & L2 & L3 & L4 & L5).
    assert (Hp' : delete a E !! p = Some k) by (by rewrite lookup_delete_ne). split_and!; [done..|].
    rewrite (same_btokup _ _ _ Hs), <- L5. pose proof (Hk p k 0 Hp') as Hk0. rewrite !Z.add_0_r in Hk0. apply Hk0.
    destruct (extent_range _ _ _ _ _ _ I4 L1) as (_ & _ & _ & _ & ?). lia.
  - intros b k. rewrite !lookup_delete_Some. intros [Hne Hb]. destruct (I13 _ _ Hb) as [?|[?|[?|?]]]; auto 6.
Qed.

(** * A new zone *)
Lemma live_same s s' G B p n : zones s' = zones s -> live s' G B p n <-> live s G B p n.
Proof. intros E. unfold live. by rewrite E. Qed.
(** the memory of a new zone is a free zone or comes from the page allocator *)
Lemma zone_memory_inv s lo hi E G fz B : slab_inv s lo hi E G [] fz B -> slab_sem s = 0 ->
  (exists s', zone_memory s = Ok (RT_NULL, s') /\ slab_sem s' = 1 /\ slab_inv s' lo hi E G [] fz B /\ zones s' = zones s /\
     fz = [] /\ page_full s lo hi (zone_page_cnt s)) \/
  exists z s' E' fz', zone_memory s = Ok (z, s') /\ slab_sem s' = 0 /\ slab_inv s' lo hi E' G [z] fz' B /\ z <> RT_NULL /\
    zones s' = zones s /\ zone_array s' = zone_array s /\ zone_limit s' = zone_limit s.
Proof.
  intros I Hsem. pose proof (si_sizes _ _ _ _ _ _ _ _ I) as Hsz. destruct (si_free _ _ _ _ _ _ _ _ I) as [Hc Hcnt].
  pose proof (si_pages _ _ _ _ _ _ _ _ I) as Hp. unfold zone_memory. erewrite bind_run; [cbv beta zeta|reflexivity].
  destruct (Z.eqb_spec (zone_free s) RT_NULL) as [He|Hne]; cbn [negb].
  - assert (fz = []) as ->.
    { destruct fz as [|z fz]; [done|]. destruct Hc as [Hz _]. destruct (si_extent _ _ _ _ _ _ _ _ I z) as [HE _]; [right; by left|].
      destruct (extent_range _ _ _ _ _ _ Hp HE) as (R1 & _). unfold RT_NULL in He. lia. }
    erewrite bind_run; [cbv beta|reflexivity]. erewrite bind_run; [cbv beta|reflexivity].
    set (s1 := set_slab_sem (slab_sem s + 1) s). assert (Hp1 : pages_inv s1 lo hi E) by by eapply pages_inv_ext.
    assert (Hpc : zone_size s1 / RT_MM_PAGE_SIZE = zone_page_cnt s) by (by destruct Hsz as (_ & _ & ->)).
    rewrite Hpc. destruct (zone_pages s Hsz) as [_ H8]. destruct (rt_page_alloc_inv s1 lo hi E (zone_page_cnt s) Hp1) as [(Hrun & _ & Hno)|(a & s2 & Hrun & Hpo & Ha & HE & Hal & Hp2)]; [cbn; lia..| |].
    + left. exists s1. split; [by erewrite bind_run; [|exact Hrun]|]. split; [cbn; lia|]. split; [by eapply inv_ext|]. split_and!; [done..|].
      destruct Hno as (l & [] & Hl). by exists l.
    + right. destruct (pages_only_same _ _ Hpo) as (Hs2 & Hu2 & Hsem2). assert (Ha0 : a <> RT_NULL).
      { destruct (extent_range _ _ _ _ _ _ Hp2 (lookup_insert_eq E a (zone_page_cnt s))) as (R1 & _). unfold RT_NULL. lia. }
      rewrite (bind_run _ _ _ _ _ Hrun). rewrite (proj2 (Z.eqb_neq _ _) Ha0).
      erewrite bind_run; [cbv beta|apply slab_take_run; rewrite Hsem2; cbn; lia]. erewrite bind_run; [cbv beta|reflexivity]. cbn [set_slab_sem zone_page_cnt].
      set (s3 := set_slab_sem (slab_sem s2 - 1) s2).
      destruct (set_usage_run (Z.to_nat (zone_page_cnt s2)) (fun off => {| mu_type := PAGE_TYPE_SMALL; mu_size := off |}) (btokup s3 a) 0 s3) as (us & Hus & Hlk).
      assert (Hz : same_zones s (set_usage us s3)) by (destruct Hs2; split; done).
      assert (Epc : zone_page_cnt s2 = zone_page_cnt s) by apply Hs2. assert (Ebt : btokup s3 a = btokup s a) by exact (same_btokup s1 s2 a Hs2).
      rewrite Epc, Ebt in Hlk. assert (Hp3 : pages_inv (set_usage us s3) lo hi (<[a := zone_page_cnt s]> E)) by by eapply pages_inv_ext.
      exists a, (set_usage us s3), (<[a := zone_page_cnt s]> E), []. split; [by erewrite bind_run; [|exact Hus]|]. split; [cbn; rewrite Hsem2; cbn; lia|].
      split; [|split; [done|split_and!; apply Hz]]. apply (inv_add_zone s); try done.
      * rewrite <- (delete_insert_id E a (zone_page_cnt s) HE).
        eapply usage_kept_except; [exact Hp2|apply I|apply I|apply lookup_insert_eq|]. intros k Hk. cbn. rewrite Hlk, decide_False by lia.
        change (usage s2 !! k = usage s1 !! k). by rewrite Hu2.
      * intros off Hoff. rewrite (same_btokup _ _ _ Hz). cbn in Hoff |- *. rewrite Epc in Hoff. rewrite Hlk, decide_True by lia. do 2 f_equal. lia.
  - destruct fz as [|z fz]; [by destruct Hc|]. destruct Hc as (Hz & v & Hv & Hc). rewrite Hz in *.
    rewrite (bind_run _ _ _ _ _ (get_zone_run _ _ _ Hv)). right. eexists z, _, E, fz. split; [reflexivity|]. split_and!; try done.
    by eapply inv_pop.
Qed.
(** a header is written over the zone, and the first chunk is handed out *)
Lemma zone_setup_inv s lo hi E G z fz B zi : slab_inv s lo hi E G [z] fz B -> 0 <= zi < NZONES -> class_size zi <= zone_limit s ->
  exists p s' G', zone_setup zi z (class_size zi) s = Ok (p, s') /\ slab_sem s' = slab_sem s + 1 /\ p mod 8 = 0 /\
    slab_inv s' lo hi E G' [] fz B /\ (forall n, ~ live s G B p n) /\
    (forall q n, live s' G' B q n <-> (q = p /\ n = class_size zi) \/ live s G B q n).
Proof.
  intros I Hzi Hlim. pose proof (si_sizes _ _ _ _ _ _ _ _ I) as Hsz. pose proof (si_pages _ _ _ _ _ _ _ _ I) as Hp.
  destruct (si_class _ _ _ _ _ _ _ _ I zi Hzi) as (hd & l & Hhd & Hcl).
  destruct (si_extent _ _ _ _ _ _ _ _ I z) as [HE _]; [right; by left|].
  destruct (extent_range _ _ _ _ _ _ Hp HE) as (R1 & R2 & R3 & R4 & _). destruct (zone_pages s Hsz) as [Hzs _].
  destruct (zone_geometry s zi Hsz Hzi Hlim) as (G1 & G2 & G3 & G4 & G5 & G6). unfold SIZEOF_SLAB_ZONE in G3.
  assert (HG : G !! z = None).
  { destruct (G !! z) eqn:HG; [|done]. exfalso. apply (si_sep _ _ _ _ _ _ _ _ I z); [by rewrite HG|by left]. }
  set (off := chunk_offset (class_size zi)) in *. set (nmax := zone_nmax (zone_size s) (class_size zi)) in *.
  set (v' := {| z_magic := ZALLOC_SLAB_MAGIC; z_nfree := nmax - 1; z_nmax := nmax; z_next := hd; z_baseptr := z + off; z_uindex := 0;
    z_chunksize := class_size zi; z_zoneindex := zi; z_freechunk := RT_NULL |}).
  assert (Hrun : exists u m, zone_setup zi z (class_size zi) s = Ok (z + off, zupd (<[z := v']> (zones s)) (c_next s) (usage s)
    (<[Z.to_nat zi := z]> (zone_array s)) (zone_free s) (zone_free_cnt s) (slab_sem s + 1) u m s)).
  { unfold zone_setup. fold off. erewrite bind_run; [cbv beta zeta|reflexivity]. erewrite bind_run; [cbv beta|by apply zone_head_run].
    rewrite (u32_small (z + off)) by nia. change ((zone_size s - off) / class_size zi) with nmax.
    do 4 (erewrite bind_run; [cbv beta|reflexivity]). eexists _, _. reflexivity. }
  destruct Hrun as (u & m & Hrun). exists (z + off). eexists _, (<[z := []]> G). split; [exact Hrun|]. split; [done|]. split; [|split; [|split]].
  - apply Z.mod_divide in R4 as [a ->]; [|done]. apply Z.mod_divide in G4 as [c ->]; [|done].
    unfold RT_MM_PAGE_SIZE. apply Z.mod_divide; [done|]. exists (a * 512 + c). lia.
  - apply (inv_set s lo hi E G [z] [] fz B z v' []); try done.
    + by right.
    + intros F v HGz. congruence.
    + split; cbn; try done; lia || constructor.
    + by rewrite length_insert.
    + intros k Hk. by apply list_lookup_insert_ne.
    + exists z, (z :: l). split; [apply list_lookup_insert_eq; by eapply lookup_lt_Some|]. eapply class_push; [exact Hcl| |done|cbn; lia|done].
      intros Hin. apply (cl_in _ _ _ _ _ Hcl) in Hin as (F & v & ? & _). congruence.
  - intros n Hl. destruct (live_home _ _ _ _ _ _ _ _ _ _ I Hl) as (a & k & HE' & A1 & A2 & A3 & A4).
    assert (a = z) as -> by (eapply (extent_unique _ _ _ _ _ _ _ _ (z + off) Hp HE' HE); nia).
    destruct A4 as [(? & _)|(_ & F & v & j & HG1 & _)]; [lia|congruence].
  - intros q n. unfold live. cbn [zones zupd]. split.
    + intros [H|(y & Fy & w & j & HGy & Hw & Hj & -> & ->)]; [by right; left|]. destruct (decide (z = y)) as [<-|Hne].
      * rewrite lookup_insert_eq in HGy; rewrite lookup_insert_eq in Hw. simplify_eq. left. unfold chunk_addr. cbn.
        destruct Hj as [Hj _]. cbn in Hj. split; [|done]. assert (j = 0) as -> by lia. lia.
      * rewrite lookup_insert_ne in HGy by done; rewrite lookup_insert_ne in Hw by done. right. right. by exists y, Fy, w, j.
    + intros [[-> ->]|[H|(y & Fy & w & j & HGy & Hw & Hj)]]; [right|by left|right].
      * exists z, [], v', 0. rewrite !lookup_insert_eq. split_and!; [done..| |unfold chunk_addr; cbn; lia|done]. split; [cbn; lia|by apply not_elem_of_nil].
      * exists y, Fy, w, j. by rewrite !lookup_insert_ne by (intros ->; congruence).
Qed.

(** * rt_malloc *)
Lemma land_page x : 0 <= x -> Z.land x (Z.lnot RT_MM_PAGE_MASK) = x / RT_MM_PAGE_SIZE * RT_MM_PAGE_SIZE.
Proof.
  intros Hx. change RT_MM_PAGE_MASK with (Z.ones 12). change RT_MM_PAGE_SIZE with (2 ^ 12).
  by rewrite <- Z.ldiff_land, Z.ldiff_ones_r, Z.shiftl_mul_pow2, Z.shiftr_div_pow2 by lia.
Qed.
(** the number of pages for [size] bytes, which is 0 when the sum wraps around *)
Definition large_pages (size : Z) : Z := Z.shiftr (RT_ALIGN size RT_MM_PAGE_SIZE) RT_MM_PAGE_BITS.
Lemma large_pages_spec size : 0 < size < 4294967296 ->
  RT_ALIGN size RT_MM_PAGE_SIZE = large_pages size * RT_MM_PAGE_SIZE /\
  (4294967296 - RT_MM_PAGE_SIZE < size /\ large_pages size = 0 \/ 0 < large_pages size /\ size <= large_pages size * RT_MM_PAGE_SIZE < size + RT_MM_PAGE_SIZE).
Proof.
  intros Hs. unfold large_pages, RT_ALIGN. pose proof (u32_range (size + RT_MM_PAGE_SIZE - 1)) as Hu. rewrite land_page by lia. set (x := u32 _) in *.
  unfold RT_MM_PAGE_BITS. rewrite Z.shiftr_div_pow2 by lia. change (2 ^ 12) with RT_MM_PAGE_SIZE. rewrite Z.div_mul by done. split; [done|].
  unfold RT_MM_PAGE_SIZE in *. pose proof (Z.div_mod x 4096 ltac:(lia)). pose proof (Z.mod_pos_bound x 4096 ltac:(lia)).
  destruct (Z.le_gt_cases size (4294967296 - 4096)).
  - right. assert (x = size + 4096 - 1) by (unfold x; apply u32_small; lia). lia.
  - left. split; [lia|]. assert (Ex : x = size + 4096 - 1 - 4294967296); [|lia]. unfold x.
    replace (size + 4096 - 1) with (size + 4096 - 1 - 4294967296 + 1 * 4294967296) at 1 by lia. unfold u32. rewrite Z.mod_add by lia. apply Z.mod_small. lia.
Qed.
Definition slab_block (s : slab) (size : Z) : Z :=
  if zone_limit s <=? size then RT_ALIGN size RT_MM_PAGE_SIZE else (zoneindex size).2.
(** the number of pages that a request may take from the page allocator *)
Definition slab_pages (s : slab) (size : Z) : Z := if zone_limit s <=? size then large_pages size else zone_page_cnt s.

Lemma malloc_large_inv s lo hi E G fz B size : slab_inv s lo hi E G [] fz B -> slab_sem s = 1 -> 0 < size < 4294967296 ->
  (malloc_large size s = Ok (RT_NULL, s) /\ (large_pages size = 0 \/ page_full s lo hi (large_pages size))) \/
  exists p s', malloc_large size s = Ok (p, s') /\ slab_sem s' = 1 /\ B !! p = None /\ G !! p = None /\ zones s' = zones s /\ E !! p = None /\
    size <= large_pages size * RT_MM_PAGE_SIZE /\ p mod RT_MM_PAGE_SIZE = 0 /\ slab_inv s' lo hi (<[p := large_pages size]> E) G [] fz (<[p := large_pages size]> B).
Proof.
  intros I Hsem Hsize. pose proof (si_pages _ _ _ _ _ _ _ _ I) as Hp. destruct (large_pages_spec size Hsize) as [_ Hl].
  unfold malloc_large. fold (large_pages size). destruct Hl as [[_ Hl]|[Hl Hle]].
  { left. split; [|by left]. rewrite Hl. by erewrite bind_run; [|reflexivity]. }
  destruct (rt_page_alloc_inv s lo hi E (large_pages size) Hp ltac:(lia) Hl) as [(Hrun & _ & Hfull)|(a & s1 & Hrun & Hpo & Ha & HE & Hal & Hp1)].
  { left. split; [|by right]. by rewrite (bind_run _ _ _ _ _ Hrun). }
  right. destruct (pages_only_same _ _ Hpo) as (Hs1 & Hu1 & Hsem1). rewrite (bind_run _ _ _ _ _ Hrun).
  destruct (extent_range _ _ _ _ _ _ Hp1 (lookup_insert_eq E a (large_pages size))) as (R1 & R2 & R3 & R4 & R5).
  rewrite (proj2 (Z.eqb_neq a RT_NULL)) by (unfold RT_NULL; lia). rewrite bind_assoc. erewrite bind_run; [cbv beta|reflexivity].
  erewrite bind_run; [cbv beta|reflexivity]. erewrite bind_run; [cbv beta|apply slab_take_run; cbn; lia].
  do 2 (erewrite bind_run; [cbv beta|reflexivity]). eexists a, _. split; [reflexivity|].
  split; [cbn; lia|]. assert (HaB : B !! a = None).
  { destruct (B !! a) eqn:HB; [|done]. exfalso. apply (si_large _ _ _ _ _ _ _ _ I) in HB as [? _]. congruence. }
  assert (HaG : G !! a = None).
  { destruct (G !! a) eqn:HG; [|done]. exfalso. destruct (si_extent _ _ _ _ _ _ _ _ I a) as [? _]; [left; by eexists|congruence]. }
  split_and!; [done|done|apply Hs1|done|lia|done|]. eapply inv_add_large; [exact I|destruct Hs1; by split|done|by eapply pages_inv_ext| |].
  - rewrite <- (delete_insert_id E a (large_pages size) HE). eapply usage_kept_except; [exact Hp1|apply I|apply I|apply lookup_insert_eq|].
    intros k Hk. cbn. rewrite lookup_insert_ne; [by rewrite Hu1|]. rewrite (same_btokup _ _ _ Hs1). lia.
  - exact (lookup_insert_eq (usage s1) (btokup s1 a) _).
Qed.

(** the class of a request below the limit does not exceed it *)
Definition limit_good (n : Z) : bool := ((n <? 8192) && ((zoneindex n).2 <=? 8192) || (8192 <=? n) && ((zoneindex n).2 <=? 16384))%bool.
Lemma class_below_limit s size : zone_sizes_ok s -> 0 < size < zone_limit s -> (zoneindex size).2 <= zone_limit s.
Proof.
  intros (Hz & Hl & _) Hs. assert (H : limit_good size = true).
  { apply (forall_below limit_good 1 16383); [by vm_compute|]. rewrite Hl in Hs. unfold ZALLOC_ZONE_LIMIT in Hs. lia. }
  unfold limit_good in H. apply orb_prop in H. rewrite !andb_true_iff, !Z.ltb_lt, !Z.leb_le in H. rewrite !elem_of_cons in Hz.
  destruct Hz as [Hz|[Hz|[Hz|Hz]]]; [..|by apply not_elem_of_nil in Hz]; rewrite Hl, Hz in *;
    match goal with |- context [Z.min ?a ?b] => change (Z.min a b) with 8192 in * || change (Z.min a b) with 16384 in * end; lia.
Qed.
(** the blocks [L] of the program, one more *)
Lemma ok_insert s s' lo hi L E G fz B E' G' fz' B' p n : slab_inv s lo hi E G [] fz B -> (forall q m, L !! q = Some m <-> live s G B q m) ->
  slab_sem s' = 1 -> slab_inv s' lo hi E' G' [] fz' B' -> (forall m, ~ live s G B p m) ->
  (forall q m, live s' G' B' q m <-> (q = p /\ m = n) \/ live s G B q m) ->
  p <> RT_NULL /\ lo <= p /\ p + n <= hi /\ L !! p = None /\ (forall q m, L !! q = Some m -> p + n <= q \/ q + m <= p) /\ slab_ok s' lo hi (<[p := n]> L).
Proof.
  intros I HL Hsem I' Hnew Hlive. assert (Hp : live s' G' B' p n) by (apply Hlive; by left).
  destruct (live_home _ _ _ _ _ _ _ _ _ _ I' Hp) as (a & k & HE & A1 & A2 & A3 & _).
  destruct (extent_range _ _ _ _ _ _ (si_pages _ _ _ _ _ _ _ _ I') HE) as (R1 & R2 & R3 & _).
  assert (HLp : L !! p = None). { destruct (L !! p) as [m|] eqn:Em; [|done]. exfalso. apply (Hnew m). by apply HL. }
  split_and!; [unfold RT_NULL; lia|lia|lia|done| |].
  - intros q m Hq. eapply live_disjoint; [exact I'|exact Hp|apply Hlive; right; by apply HL|]. intros ->. congruence.
  - split; [done|]. exists E', G', fz', B'. split; [done|]. intros q m. rewrite lookup_insert_Some, Hlive, HL. split.
    + intros [[<- <-]|[_ H]]; [by left|by right].
    + intros [[-> ->]|H]; [by left|]. right. split; [|done]. intros <-. by apply (Hnew m).
Qed.
Lemma live_insert_large s s' G B p k q n : zones s' = zones s -> B !! p = None ->
  live s' G (<[p := k]> B) q n <-> (q = p /\ n = k * RT_MM_PAGE_SIZE) \/ live s G B q n.
Proof.
  intros Ez Hp. unfold live. rewrite Ez. setoid_rewrite lookup_insert_Some. split.
  - intros [(m & [[<- <-]|[Hne HB]] & ->)|H]; [by left|right; left; by exists m|by right; right].
  - intros [[-> ->]|[(m & HB & ->)|H]]; [left; exists k; auto|left; exists m; split; [right; split; [congruence|done]|done]|by right].
Qed.
Lemma slab_malloc_run s lo hi L size : slab_ok s lo hi L -> 0 < size < 4294967296 ->
  (exists s', rt_malloc size s = Ok (RT_NULL, s') /\ slab_ok s' lo hi L /\ (slab_pages s size = 0 \/ page_full s lo hi (slab_pages s size))) \/
  exists p s', rt_malloc size s = Ok (p, s') /\ size <= slab_block s size /\ p mod 8 = 0 /\
    p <> RT_NULL /\ lo <= p /\ p + slab_block s size <= hi /\ L !! p = None /\
    (forall q m, L !! q = Some m -> p + slab_block s size <= q \/ q + m <= p) /\ slab_ok s' lo hi (<[p := slab_block s size]> L).
Proof.
  intros [Hsem (E & G & fz & B & I & HL)] Hsize. pose proof (si_sizes _ _ _ _ _ _ _ _ I) as Hsz.
  unfold rt_malloc, slab_block, slab_pages. rewrite (proj2 (Z.eqb_neq size 0)) by lia. erewrite bind_run; [cbv beta|reflexivity].
  destruct (Z.leb_spec (zone_limit s) size) as [Hlarge|Hsmall].
  { destruct (large_pages_spec size Hsize) as [Eal _]. rewrite Eal.
    destruct (malloc_large_inv s lo hi E G fz B size I Hsem Hsize) as [[Hrun Hno]|(p & s' & Hrun & Hsem' & HpB & HpG & Hz & HpE & Hle & Hal & I')].
    - left. exists s. split; [done|]. split; [|done]. split; [done|]. by exists E, G, fz, B.
    - right. exists p, s'. split; [done|]. split; [done|]. split.
      { apply Z.mod_divide in Hal as [k ->]; [|done]. unfold RT_MM_PAGE_SIZE. apply Z.mod_divide; [done|]. exists (k * 512). lia. }
      eapply (ok_insert s s' lo hi L E G fz B); [done..| |intros q m; by apply live_insert_large].
      intros m Hl. destruct (live_home _ _ _ _ _ _ _ _ _ _ I Hl) as (a & k & HE & A1 & A2 & A3 & A4).
      pose proof (si_pages _ _ _ _ _ _ _ _ I') as Hp'. assert (a = p) as ->; [|congruence].
      eapply (extent_unique _ _ _ _ a k _ _ p Hp'); [|apply lookup_insert_eq|lia|].
      + rewrite lookup_insert_ne by (intros ->; congruence). exact HE.
      + destruct (extent_range _ _ _ _ _ _ Hp' (lookup_insert_eq E p (large_pages size))) as (_ & _ & _ & _ & ?). unfold RT_MM_PAGE_SIZE. lia. }
  assert (Hlim : zone_limit s <= 16384) by (destruct Hsz as (_ & -> & _); unfold ZALLOC_ZONE_LIMIT; lia).
  destruct (zoneindex size) as [zi b] eqn:Ezi. destruct (zoneindex_class size zi b ltac:(lia) Ezi) as (Hzi & -> & Hb & Hb8 & _ & Hmin). cbn [fst snd].
  erewrite bind_run; [cbv beta|apply slab_take_run; lia]. cbv zeta. rewrite (proj2 (Z.ltb_lt zi NZONES)) by lia. erewrite bind_run; [cbv beta|reflexivity].
  set (s0 := set_slab_sem (slab_sem s - 1) s). assert (I0 : slab_inv s0 lo hi E G [] fz B) by by eapply inv_ext.
  destruct (si_class _ _ _ _ _ _ _ _ I0 zi Hzi) as (hd & l & Hhd & Hcl). erewrite bind_run; [cbv beta|by apply zone_head_run].
  destruct (Z.eqb_spec hd RT_NULL) as [->|Hne]; cbn [negb].
  - destruct (zone_memory_inv s0 lo hi E G fz B I0 ltac:(cbn; lia)) as [(s1 & Hrun & Hsem1 & I1 & Hz1 & Hfz & Hfull)|(z & s1 & E1 & fz1 & Hrun & Hsem1 & I1 & Hz & Hz1 & Harr & Hl1)].
    + left. exists s1. split; [by rewrite (bind_run _ _ _ _ _ Hrun)|]. split; [|right; destruct Hfull as (l' & [] & Hf); by exists l'].
      split; [done|]. exists E, G, fz, B. split; [done|]. intros p n. by rewrite (live_same s s1) by exact Hz1.
    + right. rewrite (bind_run _ _ _ _ _ Hrun), (proj2 (Z.eqb_neq _ _) Hz).
      destruct (zone_setup_inv s1 lo hi E1 G z fz1 B zi I1 Hzi) as (p & s' & G' & Hrun' & Hsem' & Hal & I' & Hnew & Hlive).
      { rewrite Hl1. pose proof (class_below_limit s size Hsz ltac:(lia)) as Hc. by rewrite Ezi in Hc. }
      exists p, s'. split; [done|]. split; [done|]. split; [done|]. eapply (ok_insert s s' lo hi L E G fz B); [done..|lia|exact I'| |].
      * intros m. rewrite <- (live_same s s1 G B p m Hz1). apply Hnew.
      * intros q m. by rewrite Hlive, (live_same s s1 G B q m Hz1).
  - right. destruct (zone_take_inv s0 lo hi E G fz B zi hd I0 Hzi Hhd Hne) as (p & s' & G' & Hrun & Hsem' & Hal & I' & Hnew & Hlive).
    exists p, s'. split; [done|]. split; [done|]. split; [done|]. eapply (ok_insert s s' lo hi L E G fz B); [done..|cbn in Hsem'; lia|exact I'|exact Hnew|exact Hlive].
Qed.

(** C22: rt_malloc for a size that is not 0 either returns NULL, and then the blocks
    are the same, no run of free pages is long enough for what the request
    needs from the page allocator, or the size wraps around when it is rounded
    to pages; or it returns a block of at least the size that is aligned to 8
    bytes, lies in the heap, and overlaps none of the live blocks. *)
Theorem slab_malloc_spec s lo hi L size : slab_ok s lo hi L -> 0 < size < 4294967296 ->
  (exists s', rt_malloc size s = Ok (RT_NULL, s') /\ slab_ok s' lo hi L /\ (slab_pages s size = 0 \/ page_full s lo hi (slab_pages s size))) \/
  exists p s', rt_malloc size s = Ok (p, s') /\ size <= slab_block s size /\ p mod 8 = 0 /\
    p <> RT_NULL /\ lo <= p /\ p + slab_block s size <= hi /\ L !! p = None /\
    (forall q m, L !! q = Some m -> p + slab_block s size <= q \/ q + m <= p) /\ slab_ok s' lo hi (<[p := slab_block s size]> L).
Proof. apply slab_malloc_run. Qed.
