(* ===== verification/SlabFree.v ===== *)
(** Correctness of rt_free of slab.c. *)
From S2P Require Import Prelude KService Mem CpuPort Kernel Slab SlabPages SlabZones SlabSpec.

(** * A chunk goes back to its zone *)
Lemma class_keep zs G zi hd l z v v' F' : class_list zs G zi hd l -> z ∈ l -> zs !! z = Some v -> z_zoneindex v' = zi -> 0 < z_nfree v' ->
  z_next v' = z_next v -> class_list (<[z := v']> zs) (<[z := F']> G) zi hd l.
Proof.
  intros [Hc Hn Hin] Hz Hv Hi Hf Hx. split; [|done|].
  - eapply zchain_frame; [exact Hc|]. intros x u _ Hu. destruct (decide (z = x)) as [<-|Hne].
    + exists v'. rewrite lookup_insert_eq. split; [done|congruence].
    + exists u. by rewrite lookup_insert_ne.
  - intros x. destruct (decide (z = x)) as [<-|Hne]; [|by rewrite !lookup_insert_ne by done; apply Hin].
    rewrite !lookup_insert_eq. split; [|done]. intros _. by exists F', v'.
Qed.
(** the zone of a live chunk, and its page in the table *)
Lemma chunk_page s lo hi E G X fz B z F v i : slab_inv s lo hi E G X fz B -> G !! z = Some F -> zones s !! z = Some v -> chunk_live v F i ->
  exists off, usage s !! btokup s (page_of (chunk_addr v i)) = Some {| mu_type := PAGE_TYPE_SMALL; mu_size := off |} /\
    zone_of (chunk_addr v i) {| mu_type := PAGE_TYPE_SMALL; mu_size := off |} = z.
Proof.
  intros I HG Hv [Hi _]. pose proof (si_sizes _ _ _ _ _ _ _ _ I) as Hsz. pose proof (si_pages _ _ _ _ _ _ _ _ I) as Hp.
  destruct (si_zone _ _ _ _ _ _ _ _ I _ _ HG) as (v0 & Hv0 & Hat). assert (v0 = v) as -> by congruence.
  destruct (chunk_inside s z v F i Hsz Hat ltac:(pose proof (za_uindex _ _ _ _ Hat); lia)) as (C1 & C2 & C3).
  destruct (si_extent _ _ _ _ _ _ _ _ I z (or_introl (mk_is_Some _ _ HG))) as (HE & Hsm & _). destruct (zone_pages s Hsz) as [Hzs _].
  destruct (extent_range _ _ _ _ _ _ Hp HE) as (R1 & R2 & R3 & R4 & R5).
  destruct (page_of_extent z (chunk_addr v i) (zone_page_cnt s) R4 ltac:(lia)) as (off & Hoff & Epo). exists off.
  destruct (extent_keys _ s _ _ _ _ _ Hp (si_start _ _ _ _ _ _ _ _ I) (si_lo _ _ _ _ _ _ _ _ I) HE) as (_ & _ & K3).
  rewrite Epo, K3 by done. split; [by apply Hsm|]. unfold zone_of. rewrite Epo. cbn [mu_size]. rewrite u32_small; lia.
Qed.
Lemma zone_put_inv s lo hi E G fz B z F v i : slab_inv s lo hi E G [] fz B -> G !! z = Some F -> zones s !! z = Some v -> chunk_live v F i ->
  exists s' v', zone_put z (chunk_addr v i) s = Ok (tt, s') /\ slab_sem s' = slab_sem s /\ slab_inv s' lo hi E (<[z := i :: F]> G) [] fz B /\
    zones s' !! z = Some v' /\ same_zone v v' /\ 0 < z_nfree v' /\
    forall q n, live s' (<[z := i :: F]> G) B q n <-> live s G B q n /\ q <> chunk_addr v i.
Proof.
  intros I HG Hv Hl. pose proof (si_sizes _ _ _ _ _ _ _ _ I) as Hsz.
  destruct (si_zone _ _ _ _ _ _ _ _ I _ _ HG) as (v0 & Hv0 & Hat). assert (v0 = v) as -> by congruence.
  pose proof (za_index _ _ _ _ Hat) as Hzi. destruct (si_class _ _ _ _ _ _ _ _ I _ Hzi) as (hd & l & Hhd & Hcl).
  destruct (zone_put_run s z v (chunk_addr v i) hd Hv Hhd) as (u & m & Hrun). set (v' := put_header hd (chunk_addr v i) v) in *.
  eexists _, v'. split; [exact Hrun|]. set (s' := zupd _ _ _ _ _ _ _ _ _ _).
  destruct (zone_put_at s z v F i hd s' Hsz Hat Hl eq_refl eq_refl eq_refl) as (Hat' & Hsame & Hnf & Hlive). fold v' in Hat', Hsame, Hnf, Hlive.
  pose proof Hl as [Hi Hni]. pose proof (za_uindex _ _ _ _ Hat) as Hui. pose proof Hsame as (S1 & S2 & S3 & S4).
  assert (Hnf0 : 0 <= z_nfree v) by (rewrite (za_nfree _ _ _ _ Hat); lia). split; [done|]. split; [|split; [apply lookup_insert_eq|split; [done|split; [lia|]]]].
  - apply (inv_set s lo hi E G [] [] fz B z v' (i :: F)); try done.
    + left. split; [by eexists|done].
    + intros F1 v1 _ Hv1. congruence.
    + intros y Fy w j Hne HGy Hw Haty Hj. apply lookup_insert_ne. intros Heq.
      assert (Hjb : 0 <= j < z_nmax w). { pose proof (za_bound _ _ _ _ Haty) as Hb. rewrite Forall_forall in Hb. specialize (Hb _ Hj). pose proof (za_uindex _ _ _ _ Haty). lia. }
      destruct (chunk_unique s lo hi E G [] fz B z F v i y Fy w j I HG Hv ltac:(lia) HGy Hw Hjb Heq). congruence.
    + destruct (z_nfree v =? 0); [by rewrite length_insert|done].
    + intros k Hk. destruct (z_nfree v =? 0); [|done]. apply list_lookup_insert_ne. congruence.
    + rewrite S1. unfold v', put_header. destruct (Z.eqb_spec (z_nfree v) 0) as [E0|E0].
      * exists z, (z :: l). split; [apply list_lookup_insert_eq; by eapply lookup_lt_Some|]. eapply class_push; [exact Hcl| |done|cbn; lia|done].
        intros Hin. apply (cl_in _ _ _ _ _ Hcl) in Hin as (F1 & v1 & _ & Hv1 & _ & Hpos). assert (v1 = v) as -> by congruence. lia.
      * exists hd, l. split; [done|]. eapply class_keep; [exact Hcl| |exact Hv|done|cbn; lia|done]. apply (cl_in _ _ _ _ _ Hcl). exists F, v. split_and!; [done..|lia].
  - intros q n. rewrite (live_zone s s' G B z F v (i :: F) v') by done. split.
    + intros [(k & HB & ->)|[(j & Hj & -> & ->)|(y & Fy & w & j & Hne & HGy & Hw & Hj & -> & ->)]].
      * split; [by left; exists k|]. intros ->. apply (chunk_not_large s lo hi E G [] fz B z F v i k I HG Hv); [lia|done].
      * apply Hlive in Hj as [Hj Hne]. split; [right; by exists z, F, v, j|]. intros Heq. apply chunk_inj in Heq; [done|].
        by destruct (chunk_inside s z v F i Hsz Hat ltac:(lia)).
      * split; [right; by exists y, Fy, w, j|]. intros Heq. destruct (si_zone _ _ _ _ _ _ _ _ I _ _ HGy) as (w0 & Hw0 & Haty). assert (w0 = w) as -> by congruence.
        pose proof (za_uindex _ _ _ _ Haty). destruct Hj as [Hj _].
        destruct (chunk_unique s lo hi E G [] fz B z F v i y Fy w j I HG Hv ltac:(lia) HGy Hw ltac:(lia) ltac:(done)). congruence.
    + intros [[(k & HB & ->)|(y & Fy & w & j & HGy & Hw & Hj & -> & ->)] Hne]; [by left; exists k|right].
      destruct (decide (y = z)) as [->|Hyz]; [left|right; by exists y, Fy, w, j].
      assert (w = v) as -> by congruence. assert (Fy = F) as -> by congruence. exists j. split; [|done]. apply Hlive. split; [done|]. by intros ->.
Qed.

(** * A zone without live chunks *)
Lemma zone_at_next s z v F n : zone_at s z v F -> zone_at s z (zn_set_next n v) F.
Proof. intros []. by split. Qed.
(** the zone [z] leaves the list of its class and becomes the first free zone;
    [s1] is the state after the removal from the list *)
Definition retired (z : Z) (v : slab_zone) (s s1 : slab) : slab :=
  zupd (<[z := zn_set_next (zone_free s) (zn_set_magic (-1) v)]> (zones s1)) (c_next s1) (usage s1) (zone_array s1) z (zone_free_cnt s + 1)
    (slab_sem s1) (slab_used s1) (slab_max s1) s.
Lemma inv_retire s s1 lo hi E G fz B z F v pre post : slab_inv s lo hi E G [] fz B -> G !! z = Some F -> zones s !! z = Some v -> z_nfree v = z_nmax v ->
  (exists hd, zone_array s !! Z.to_nat (z_zoneindex v) = Some hd /\ class_list (zones s) G (z_zoneindex v) hd (pre ++ z :: post)) ->
  unlinked s s1 (z_zoneindex v) pre post ->
  slab_inv (retired z v s s1) lo hi E (delete z G) [] (z :: fz) B /\
  forall q n, live (retired z v s s1) (delete z G) B q n <-> live s G B q n.
Proof.
  intros I HG Hv Hfull (hd & Hhd & Hcl) Hul. pose proof I as [I1 I2 I3 I4 I5 I6 I7 [I8 I8'] I9 I10 I11 I12 Itbl I13].
  pose proof Hul as [U1 U2 U3 (hd' & Uhd & Uc) U5 U6]. pose proof (cl_NoDup _ _ _ _ _ Hcl) as Hnd.
  destruct (I6 _ _ HG) as (v0 & Hv0 & Hat). assert (v0 = v) as -> by congruence. pose proof (za_index _ _ _ _ Hat) as Hzi.
  assert (Ecn : c_next s1 = c_next s) by (by rewrite U1). assert (Eus : usage s1 = usage s) by (by rewrite U1).
  assert (Hzfz : z ∉ fz) by (apply (I11 z); by eexists).
  assert (Hzl : z ∉ pre ++ post). { apply NoDup_app in Hnd as (_ & Hd & Hn). apply NoDup_cons in Hn as [Hn _]. rewrite elem_of_app. intros [Hp|Hp]; [|done]. apply (Hd z Hp). by left. }
  assert (Hpre : forall x, x ∈ pre -> exists Fx w, G !! x = Some Fx /\ zones s !! x = Some w /\ z_zoneindex w = z_zoneindex v /\ 0 < z_nfree w).
  { intros x Hx. apply (cl_in _ _ _ _ _ Hcl). apply elem_of_app. by left. }
  assert (Hfields : forall x w, x <> z -> zones s !! x = Some w -> exists n, zones (retired z v s s1) !! x = Some (zn_set_next n w)).
  { intros x w Hne Hw. cbn. rewrite lookup_insert_ne by done. by apply U6. }
  split.
  - split; cbn; try done.
    + by eapply pages_inv_ext.
    + by rewrite U2.
    + intros y Fy. rewrite lookup_delete_Some. intros [Hne HGy]. destruct (I6 _ _ HGy) as (w & Hw & Haty). destruct (Hfields y w ltac:(done) Hw) as (n & Hn).
      exists (zn_set_next n w). split; [exact Hn|]. apply zone_at_next. eapply zone_at_frame; [exact Haty|done..|]. intros. cbn. by rewrite Ecn.
    + intros zi Hzi'. assert (Hup : forall x, (exists Fx w, delete z G !! x = Some Fx /\ <[z := zn_set_next (zone_free s) (zn_set_magic (-1) v)]> (zones s1) !! x = Some w /\
          z_zoneindex w = zi /\ 0 < z_nfree w) <-> x <> z /\ exists Fx w, G !! x = Some Fx /\ zones s !! x = Some w /\ z_zoneindex w = zi /\ 0 < z_nfree w).
      { intros x. setoid_rewrite lookup_delete_Some. split.
        - intros (Fx & w & [Hne HGx] & Hw & H1 & H2). split; [done|]. rewrite lookup_insert_ne in Hw by done. destruct (I6 _ _ HGx) as (w' & Hw' & _).
          destruct (U6 _ _ Hw') as (n & Hn). assert (w = zn_set_next n w') as -> by congruence. by exists Fx, w'.
        - intros (Hne & Fx & w & HGx & Hw & H1 & H2). destruct (U6 _ _ Hw) as (n & Hn). exists Fx, (zn_set_next n w).
          rewrite lookup_insert_ne by done. by split_and!. }
      destruct (decide (zi = z_zoneindex v)) as [->|Hne].
      * exists hd', (pre ++ post). split; [done|]. split; [by apply zchain_insert| |].
        -- apply NoDup_app in Hnd as (N1 & N2 & N3). apply NoDup_cons in N3 as [_ N3]. apply NoDup_app. split_and!; [done| |done]. set_solver.
        -- intros x. rewrite Hup, <- (cl_in _ _ _ _ _ Hcl), !elem_of_app, elem_of_cons. split; [|naive_solver]. intros Hx. split; [|tauto].
           intros ->. apply Hzl, elem_of_app. done.
      * destruct (I7 zi Hzi') as (hd1 & l1 & Hhd1 & [C1 C2 C3]). exists hd1, l1. rewrite U3 by lia. split; [done|].
        assert (Hl1 : forall x, x ∈ l1 -> x <> z /\ x ∉ pre).
        { intros x Hx. apply C3 in Hx as (Fx & w & HGx & Hw & Hi & _). split; [intros ->; congruence|]. intros Hp. destruct (Hpre x Hp) as (? & ? & _ & ? & ? & _). congruence. }
        split; [|done|].
        -- apply zchain_insert; [|by intros Hx; apply Hl1 in Hx as [? _]]. eapply zchain_frame; [exact C1|]. intros x w Hx Hw. exists w. by rewrite U5 by (by apply Hl1).
        -- intros x. rewrite Hup, <- C3. split; [|by intros [_ ?]]. intros Hx. split; [by apply Hl1|done].
    + split; [|rewrite I8'; cbn; lia]. split; [done|]. eexists. rewrite lookup_insert_eq. split; [done|]. cbn. apply zchain_insert; [|done].
      eapply zchain_frame; [exact I8|]. intros x w Hx Hw. exists w. rewrite U5; [done|]. intros Hp. destruct (Hpre x Hp) as (? & ? & ? & _). apply (I11 x); [by eexists|done].
    + by apply NoDup_cons.
    + intros x Hx. unfold small_pages. cbn. rewrite Eus. apply I10. destruct (decide (x = z)) as [->|Hne]; [left; by eexists|].
      rewrite lookup_delete_ne in Hx by done. destruct Hx as [Hx|Hx]; [by left|right]. apply elem_of_cons in Hx as [|]; done.
    + intros x Hx. apply not_elem_of_cons. destruct (decide (x = z)) as [->|Hne]; [rewrite lookup_delete_eq in Hx; by destruct Hx|].
      split; [done|]. apply I11. by rewrite lookup_delete_ne in Hx.
    + intros p n HB. destruct (I12 _ _ HB) as (L1 & L2 & L3 & L4 & L5). assert (p <> z) by (intros ->; congruence).
      rewrite lookup_delete_ne by done. split_and!; [done|done|by apply not_elem_of_cons|done|]. rewrite Eus. exact L5.
    + intros a n Ha. destruct (decide (a = z)) as [->|Hne]; [right; left; by left|]. rewrite lookup_delete_ne by done.
      destruct (I13 _ _ Ha) as [?|[?|?]]; [by left| |by right; right]. right. left. by right.
  - intros q n. unfold live. split; (intros [H|H]; [by left|right]).
    + destruct H as (y & Fy & w & j & HGy & Hw & Hj & -> & ->). apply lookup_delete_Some in HGy as [Hne HGy]. destruct (I6 _ _ HGy) as (w' & Hw' & _).
      destruct (Hfields y w' ltac:(done) Hw') as (nx & Hn). assert (w = zn_set_next nx w') as -> by congruence. by exists y, Fy, w', j.
    + destruct H as (y & Fy & w & j & HGy & Hw & Hj & -> & ->). assert (Hne : y <> z).
      { intros ->. assert (w = v) as -> by congruence. assert (Fy = F) as -> by congruence. by apply (zone_empty _ _ _ _ _ Hat Hfull Hj). }
      destruct (Hfields y w Hne Hw) as (nx & Hn). exists y, Fy, (zn_set_next nx w), j. rewrite lookup_delete_ne by done. by split_and!.
Qed.

(** the first free zone goes back to the page allocator *)
Lemma zone_release_inv s lo hi E G z fz B : slab_inv s lo hi E G [] (z :: fz) B -> slab_sem s = 0 ->
  exists s', zone_release s = Ok (tt, s') /\ slab_sem s' = 1 /\ zones s' = zones s /\ slab_inv s' lo hi (delete z E) G [] fz B.
Proof.
  intros I Hsem. pose proof (si_sizes _ _ _ _ _ _ _ _ I) as Hsz. pose proof (si_pages _ _ _ _ _ _ _ _ I) as Hp.
  destruct (si_free _ _ _ _ _ _ _ _ I) as [(Hz & v & Hv & _) _]. destruct (si_extent _ _ _ _ _ _ _ _ I z) as [HE _]; [right; by left|].
  unfold zone_release. erewrite bind_run; [cbv beta zeta|reflexivity]. rewrite Hz. rewrite (bind_run _ _ _ _ _ (get_zone_run _ _ _ Hv)).
  erewrite bind_run; [cbv beta|reflexivity]. pose proof (inv_pop s lo hi E G z v fz B _ I Hv eq_refl) as I1.
  set (s1 := set_zone_free (z_next v) (zone_free_cnt s - 1) s) in *.
  destruct (set_usage_run (Z.to_nat (zone_page_cnt s)) (fun _ => {| mu_type := PAGE_TYPE_FREE; mu_size := 0 |}) (btokup s z) 0 s1) as (us & Hus & Hlk).
  rewrite (bind_run _ _ _ _ _ Hus). erewrite bind_run; [cbv beta|reflexivity].
  set (s2 := set_slab_sem (slab_sem (set_usage us s1) + 1) (set_usage us s1)).
  assert (Hp2 : pages_inv s2 lo hi E) by by eapply pages_inv_ext.
  assert (Epc : zone_size s / RT_MM_PAGE_SIZE = zone_page_cnt s) by (by destruct Hsz as (_ & _ & ->)). rewrite Epc.
  destruct (rt_page_free_inv s2 lo hi E z (zone_page_cnt s) Hp2) as (s3 & Hrun & Hpo & Hp3); [cbn; lia|done|].
  destruct (pages_only_same _ _ Hpo) as (Hs3 & Hu3 & Hsem3). exists s3. split; [exact Hrun|]. split; [rewrite Hsem3; cbn; lia|].
  split; [apply Hs3|]. eapply (inv_del_zone s1); [exact I1|destruct Hs3; by split|exact Hp3|].
  eapply usage_kept_except; [exact Hp2|apply I1|apply I1|exact HE|]. intros k Hk. rewrite Hu3. cbn. rewrite Hlk, decide_False; [done|].
  destruct (zone_pages s Hsz). change (btokup s1 z) with (btokup s z) in Hk. lia.
Qed.
(** a zone of which the last live chunk was released *)
Lemma zone_retire_inv s lo hi E G fz B z F v : slab_inv s lo hi E G [] fz B -> slab_sem s = 0 -> G !! z = Some F -> zones s !! z = Some v -> 0 < z_nfree v ->
  exists s' E' G' fz', zone_retire z s = Ok (tt, s') /\ slab_sem s' = 1 /\ slab_inv s' lo hi E' G' [] fz' B /\
    forall q n, live s' G' B q n <-> live s G B q n.
Proof.
  intros I Hsem HG Hv Hpos. destruct (si_zone _ _ _ _ _ _ _ _ I _ _ HG) as (v0 & Hv0 & Hat). assert (v0 = v) as -> by congruence.
  pose proof (za_index _ _ _ _ Hat) as Hzi. destruct (si_class _ _ _ _ _ _ _ _ I _ Hzi) as (hd & l & Hhd & Hcl).
  assert (Hin : z ∈ l) by (apply (cl_in _ _ _ _ _ Hcl); by exists F, v).
  unfold zone_retire. rewrite (bind_run _ _ _ _ _ (get_zone_run _ _ _ Hv)), (bind_run _ _ _ _ _ (zone_head_run _ _ _ Hhd)).
  assert (Hdone : exists s' E' G' fz', slab_release s = Ok (tt, s') /\ slab_sem s' = 1 /\ slab_inv s' lo hi E' G' [] fz' B /\
    forall q n, live s' G' B q n <-> live s G B q n).
  { eexists _, E, G, fz. split; [reflexivity|]. split; [cbn; lia|]. split; [by eapply inv_ext|done]. }
  destruct (_ && _)%bool eqn:Hc; [|exact Hdone]. clear Hdone. apply andb_true_iff in Hc as [Hfull _]. apply Z.eqb_eq in Hfull.
  apply list_elem_of_split in Hin as (pre & post & ->). pose proof (zchain_length _ _ _ (cl_chain _ _ _ _ _ Hcl) (cl_NoDup _ _ _ _ _ Hcl)) as Hlen.
  rewrite length_app in Hlen. cbn in Hlen.
  assert (Hhead : head (pre ++ z :: post) = Some hd) by (pose proof (cl_chain _ _ _ _ _ Hcl) as Hch; destruct pre; cbn in Hch |- *; by destruct Hch as [-> _]).
  destruct (zone_unlink_run (z_zoneindex v) z hd post pre [] hd s (S (base.size (zones s))) (cl_chain _ _ _ _ _ Hcl) (cl_NoDup _ _ _ _ _ Hcl) Hhd Hhead ltac:(lia))
    as (s1 & Hrun & Hul). cbn [app last] in *.
  destruct (inv_retire s s1 lo hi E G fz B z F v pre post I HG Hv Hfull ltac:(by exists hd) Hul) as [I2 Hlive].
  assert (Hz1 : zones s1 !! z = Some v). { rewrite (ul_zones _ _ _ _ _ Hul); [done|]. pose proof (cl_NoDup _ _ _ _ _ Hcl) as Hnd. apply NoDup_app in Hnd as (_ & Hd & _). intros Hx. apply (Hd z Hx). by left. }
  assert (E1 : zone_free s1 = zone_free s) by (by rewrite (ul_rest _ _ _ _ _ Hul)).
  assert (E2 : zone_free_cnt s1 = zone_free_cnt s) by (by rewrite (ul_rest _ _ _ _ _ Hul)).
  assert (E3 : slab_sem s1 = slab_sem s) by (by rewrite (ul_rest _ _ _ _ _ Hul)).
  rewrite bind_assoc. erewrite bind_run; [cbv beta|reflexivity]. rewrite (bind_run _ _ _ _ _ Hrun).
  erewrite bind_run; [cbv beta|by apply upd_zone_run]. rewrite bind_assoc. erewrite bind_run; [cbv beta|reflexivity].
  erewrite bind_run; [cbv beta|apply upd_zone_run; cbn; apply lookup_insert_eq].
  assert (Est : set_zone_free z (zone_free_cnt (set_zones (<[z := zn_set_magic (-1) v]> (zones s1)) s1) + 1)
    (set_zones (<[z := zn_set_next (zone_free s1) (zn_set_magic (-1) v)]> (<[z := zn_set_magic (-1) v]> (zones s1))) (set_zones (<[z := zn_set_magic (-1) v]> (zones s1)) s1))
    = retired z v s s1).
  { unfold retired. rewrite insert_insert_eq, E1. cbn. rewrite E2. rewrite (ul_rest _ _ _ _ _ Hul). reflexivity. }
  erewrite (bind_run _ _ _ tt (retired z v s s1)); [cbv beta|rewrite <- Est; reflexivity].
  erewrite bind_run; [cbv beta|reflexivity].
  destruct (ZONE_RELEASE_THRESH <? _).
  - destruct (zone_release_inv _ lo hi E _ z fz B I2) as (s' & Hrel & Hsem' & Hz' & I'); [cbn; lia|].
    exists s', (delete z E), (delete z G), fz. split; [exact Hrel|]. split; [done|]. split; [exact I'|]. intros q n. by rewrite (live_same _ _ _ _ _ _ Hz').
  - eexists _, E, (delete z G), (z :: fz). split; [reflexivity|]. split; [cbn; lia|]. split; [by eapply inv_ext|exact Hlive].
Qed.

(** * rt_free *)
Lemma free_large_inv s lo hi E G fz B p k u : slab_inv s lo hi E G [] fz B -> slab_sem s = 1 -> B !! p = Some k -> mu_size u = k ->
  exists s', free_large (btokup s p) p u s = Ok (tt, s') /\ slab_sem s' = 1 /\ zones s' = zones s /\ slab_inv s' lo hi (delete p E) G [] fz (delete p B).
Proof.
  intros I Hsem HB <-. pose proof (si_pages _ _ _ _ _ _ _ _ I) as Hp. destruct (si_large _ _ _ _ _ _ _ _ I _ _ HB) as (HE & _).
  destruct (extent_range _ _ _ _ _ _ Hp HE) as (_ & _ & _ & _ & Hk).
  unfold free_large. erewrite bind_run; [cbv beta zeta|apply slab_take_run; lia]. do 3 (erewrite bind_run; [cbv beta|reflexivity]).
  match goal with |- context [rt_page_free p _ ?t] => set (s1 := t) end. assert (Hp1 : pages_inv s1 lo hi E) by by eapply pages_inv_ext.
  destruct (rt_page_free_inv s1 lo hi E p (mu_size u) Hp1) as (s2 & Hrun & Hpo & Hp2); [cbn; lia|done|].
  destruct (pages_only_same _ _ Hpo) as (Hs2 & Hu2 & Hsem2). exists s2. split; [exact Hrun|]. split; [rewrite Hsem2; cbn; lia|]. split; [apply Hs2|].
  eapply (inv_del_large s); [exact I|exact HB|destruct Hs2; by split|exact Hp2|].
  eapply usage_kept_except; [exact Hp|apply I|apply I|exact HE|]. intros j Hj. rewrite Hu2. cbn. apply lookup_insert_ne. lia.
Qed.
Lemma live_delete_large s s' lo hi E G X fz B p k q n : slab_inv s lo hi E G X fz B -> B !! p = Some k -> zones s' = zones s ->
  live s' G (delete p B) q n <-> live s G B q n /\ q <> p.
Proof.
  intros I HB Ez. unfold live. rewrite Ez. setoid_rewrite lookup_delete_Some. split.
  - intros [(m & [Hne Hq] & ->)|(y & Fy & w & j & HGy & Hw & Hj & -> & ->)].
    + split; [left; by exists m|congruence].
    + split; [right; by exists y, Fy, w, j|]. destruct (si_zone _ _ _ _ _ _ _ _ I _ _ HGy) as (w0 & Hw0 & Hat). assert (w0 = w) as -> by congruence.
      pose proof (za_uindex _ _ _ _ Hat). destruct Hj as [Hj _]. intros <-. apply (chunk_not_large _ _ _ _ _ _ _ _ _ _ _ j k I HGy Hw); [lia|done].
  - intros [[(m & Hq & ->)|H] Hne]; [left; exists m; split; [split; [congruence|done]|done]|by right].
Qed.
Lemma page_of_aligned p : 0 <= p -> p mod RT_MM_PAGE_SIZE = 0 -> page_of p = p.
Proof.
  intros H0 Hp. unfold page_of. rewrite land_page by done. apply Z.mod_divide in Hp as [k ->]; [|done]. by rewrite Z.div_mul.
Qed.
(** the blocks [L] of the program, one less *)
Lemma ok_delete s s' lo hi L G B E' G' fz' B' p : (forall q m, L !! q = Some m <-> live s G B q m) ->
  slab_sem s' = 1 -> slab_inv s' lo hi E' G' [] fz' B' -> (forall q m, live s' G' B' q m <-> live s G B q m /\ q <> p) -> slab_ok s' lo hi (delete p L).
Proof.
  intros HL Hsem I' Hlive. split; [done|]. exists E', G', fz', B'. split; [done|]. intros q m. rewrite lookup_delete_Some, Hlive, HL. naive_solver.
Qed.
Lemma slab_free_run s lo hi L p n : slab_ok s lo hi L -> L !! p = Some n -> exists s', rt_free p s = Ok (tt, s') /\ slab_ok s' lo hi (delete p L).
Proof.
  intros [Hsem (E & G & fz & B & I & HL)] Hp. apply HL in Hp as Hlive. pose proof (si_pages _ _ _ _ _ _ _ _ I) as Hpi.
  destruct (live_home _ _ _ _ _ _ _ _ _ _ I Hlive) as (a & k & HE & A1 & A2 & A3 & A4). destruct (extent_range _ _ _ _ _ _ Hpi HE) as (R1 & R2 & R3 & R4 & R5).
  unfold rt_free. rewrite (proj2 (Z.eqb_neq p RT_NULL)) by (unfold RT_NULL; lia). erewrite bind_run; [cbv beta zeta|reflexivity].
  destruct A4 as [(<- & -> & HB & HGa)|(Hap & F & v & i & HG & Hv & Hl & -> & ->)].
  - rewrite page_of_aligned by (done || lia). destruct (si_large _ _ _ _ _ _ _ _ I _ _ HB) as (_ & _ & _ & _ & Hu).
    erewrite bind_run; [cbv beta|unfold get_usage, bind, get; by rewrite Hu].
    change (mu_type _ =? PAGE_TYPE_LARGE) with true. cbv iota.
    destruct (free_large_inv s lo hi E G fz B a k {| mu_type := PAGE_TYPE_LARGE; mu_size := k |} I Hsem HB eq_refl) as (s' & Hrun & Hsem' & Hz & I').
    exists s'. split; [exact Hrun|]. eapply ok_delete; [exact HL|done|exact I'|]. intros q m. by eapply live_delete_large.
  - destruct (chunk_page _ _ _ _ _ _ _ _ _ _ _ _ I HG Hv Hl) as (off & Hu & Hzof).
    erewrite bind_run; [cbv beta|unfold get_usage, bind, get; by rewrite Hu]. change (mu_type _ =? PAGE_TYPE_LARGE) with false. cbv iota.
    erewrite bind_run; [cbv beta|apply slab_take_run; lia]. cbv zeta. rewrite Hzof. set (s0 := set_slab_sem (slab_sem s - 1) s).
    assert (I0 : slab_inv s0 lo hi E G [] fz B) by by eapply inv_ext.
    destruct (si_zone _ _ _ _ _ _ _ _ I _ _ HG) as (v0 & Hv0 & Hat). assert (v0 = v) as -> by congruence.
    rewrite bind_assoc. erewrite bind_run; [cbv beta|by apply get_zone_run]. rewrite (proj2 (Z.eqb_eq _ _) (za_magic _ _ _ _ Hat)).
    erewrite bind_run; [cbv beta|reflexivity].
    destruct (zone_put_inv s0 lo hi E G fz B a F v i I0 HG Hv Hl) as (s1 & v' & Hrun & Hsem1 & I1 & Hv' & Hsame & Hpos & Hlive1).
    rewrite (bind_run _ _ _ _ _ Hrun).
    destruct (zone_retire_inv s1 lo hi E _ fz B a (i :: F) v' I1 ltac:(rewrite Hsem1; cbn; lia) (lookup_insert_eq _ _ _) Hv' Hpos) as (s' & E' & G' & fz' & Hrun' & Hsem' & I' & Hlive').
    exists s'. split; [exact Hrun'|]. eapply ok_delete; [exact HL|done|exact I'|]. intros q m. rewrite Hlive', Hlive1. by rewrite (live_same s s0).
Qed.

(** C23: rt_free of a live block takes exactly this block from the live ones, and
    keeps the invariant of pages, zones and page table; a zone without live
    chunks leaves the list of its class when there is another zone, and goes
    back to the page allocator when more than two zones are free. *)
Theorem slab_free_spec s lo hi L p n : slab_ok s lo hi L -> L !! p = Some n -> exists s', rt_free p s = Ok (tt, s') /\ slab_ok s' lo hi (delete p L).
Proof. apply slab_free_run. Qed.
