(* ===== verification/SlabRealloc.v ===== *)
(** rt_realloc and rt_calloc of slab.c: the contents of the blocks. *)
From S2P Require Import Prelude KService Mem CpuPort Kernel Slab SlabPages SlabZones SlabSpec SlabFree.

(** * The allocator does not touch the bytes *)
Definition keeps_ram {A} (m : SL A) : Prop := forall s a s', m s = Ok (a, s') -> slab_ram s' = slab_ram s.
Lemma keeps_bind {A C} (m : SL A) (k : A -> SL C) : keeps_ram m -> (forall a, keeps_ram (k a)) -> keeps_ram (bind m k).
Proof.
  intros Hm Hk s c s'. unfold bind. destruct (m s) as [[a s1]|f] eqn:E; [|done]. intros H. rewrite <- (Hm _ _ _ E). exact (Hk a _ _ _ H).
Qed.
Lemma keeps_ret {A} (a : A) : keeps_ram (ret a).
Proof. by intros s b s' [= _ <-]. Qed.
Lemma keeps_get : keeps_ram get.
Proof. by intros s b s' [= _ <-]. Qed.
Lemma keeps_gets {A} (f : slab -> A) : keeps_ram (gets f).
Proof. by intros s b s' [= _ <-]. Qed.
Lemma keeps_raise {A} f : keeps_ram (raise f : SL A).
Proof. by intros s b s'. Qed.
Lemma keeps_the {A} (o : option A) : keeps_ram (the o).
Proof. destruct o; [apply keeps_ret|apply keeps_raise]. Qed.
Lemma keeps_modify f : (forall s, slab_ram (f s) = slab_ram s) -> keeps_ram (modify f).
Proof. intros Hf s b s' [= _ <-]. apply Hf. Qed.
Lemma keeps_assert b : keeps_ram (rt_assert b).
Proof. destruct b; [apply keeps_ret|apply keeps_raise]. Qed.
Lemma keeps_when b (m : SL unit) : keeps_ram m -> keeps_ram (when b m).
Proof. destruct b; [done|intros _; apply keeps_ret]. Qed.
Create HintDb keeps.
#[export] Hint Resolve keeps_ret keeps_get keeps_gets keeps_raise keeps_the keeps_assert : keeps.
Ltac keeps := repeat first
  [ progress intros | solve [auto with keeps] | apply keeps_bind | apply keeps_when | apply keeps_modify; reflexivity
  | match goal with |- keeps_ram (if ?b then _ else _) => destruct b | |- keeps_ram (match ?o with None => _ | Some _ => _ end) => destruct o end ].
Lemma keeps_take : keeps_ram slab_take.
Proof. unfold slab_take. keeps. Qed.
Lemma keeps_release : keeps_ram slab_release.
Proof. unfold slab_release. keeps. Qed.
Lemma keeps_get_page b : keeps_ram (get_page b).
Proof. unfold get_page. keeps. Qed.
Lemma keeps_put_page b p : keeps_ram (put_page b p).
Proof. unfold put_page. keeps. Qed.
Lemma keeps_get_zone z : keeps_ram (get_zone z).
Proof. unfold get_zone. keeps. Qed.
Lemma keeps_upd_zone z f : keeps_ram (upd_zone z f).
Proof. unfold upd_zone, put_zone. apply keeps_bind; [apply keeps_get_zone|]. keeps. Qed.
Lemma keeps_zone_head zi : keeps_ram (zone_head zi).
Proof. unfold zone_head. keeps. Qed.
#[export] Hint Resolve keeps_take keeps_release keeps_get_page keeps_put_page keeps_get_zone keeps_upd_zone keeps_zone_head : keeps.
Lemma keeps_store_prev p v : keeps_ram (store_prev p v).
Proof. unfold store_prev. keeps. Qed.
#[export] Hint Resolve keeps_store_prev : keeps.
Lemma keeps_alloc_loop fuel : forall n p b, keeps_ram (page_alloc_loop fuel n p b).
Proof. induction fuel as [|fuel IH]; intros; cbn [page_alloc_loop]; cbv zeta; keeps; apply IH. Qed.
Lemma keeps_free_loop fuel : forall a n p b, keeps_ram (page_free_loop fuel a n p b).
Proof. induction fuel as [|fuel IH]; intros; cbn [page_free_loop]; cbv zeta; keeps; apply IH. Qed.
Lemma keeps_usage_loop n f : forall k off, keeps_ram (set_usage_loop n k off f).
Proof. induction n as [|n IH]; intros; cbn [set_usage_loop]; unfold put_usage; keeps; apply IH. Qed.
Lemma keeps_unlink_loop fuel : forall zi z p q, keeps_ram (zone_unlink_loop fuel zi z p q).
Proof. induction fuel as [|fuel IH]; intros; cbn [zone_unlink_loop]; unfold set_zone_head; keeps; apply IH. Qed.
#[export] Hint Resolve keeps_alloc_loop keeps_free_loop keeps_usage_loop keeps_unlink_loop : keeps.
Lemma keeps_page_alloc n : keeps_ram (rt_page_alloc n).
Proof. unfold rt_page_alloc. keeps. Qed.
Lemma keeps_page_free a n : keeps_ram (rt_page_free a n).
Proof. unfold rt_page_free. keeps. Qed.
#[export] Hint Resolve keeps_page_alloc keeps_page_free : keeps.
Lemma keeps_malloc size : keeps_ram (rt_malloc size).
Proof. unfold rt_malloc, malloc_large, zone_take, zone_memory, zone_setup, set_zone_head, put_zone, put_usage, slab_add_used. cbv zeta. keeps. Qed.
Lemma keeps_free p : keeps_ram (rt_free p).
Proof. unfold rt_free, free_large, get_usage, zone_put, zone_retire, zone_release, set_zone_head, put_usage, slab_sub_used. cbv zeta. keeps. Qed.

(** * Moving a block *)
(** the bytes of the heap are mapped *)
Definition slab_bytes (s : slab) (lo hi : Z) : Prop := mapped (slab_ram s) lo (hi - lo) /\ byte_mem (slab_ram s).
Lemma slab_ok_ram s lo hi L r : slab_ok s lo hi L -> slab_ok (set_slab_ram r s) lo hi L.
Proof.
  intros [H1 (E & G & fz & B & I & HL)]. split; [done|]. exists E, G, fz, B. split; [by eapply inv_ext|done].
Qed.
Lemma slab_ok_range s lo hi L p n : slab_ok s lo hi L -> L !! p = Some n -> 0 < lo <= p /\ 0 < n /\ p + n <= hi /\ hi < 4294967296.
Proof.
  intros [_ (E & G & fz & B & I & HL)] Hp. apply HL in Hp. destruct (live_home _ _ _ _ _ _ _ _ _ _ I Hp) as (a & k & HE & A1 & A2 & A3 & _).
  destruct (extent_range _ _ _ _ _ _ (si_pages _ _ _ _ _ _ _ _ I) HE) as (R1 & R2 & R3 & _). lia.
Qed.
(** the blocks [L] keep their contents *)
Definition contents_kept (s s' : slab) (L : gmap Z Z) : Prop := forall q k x, L !! q = Some k -> q <= x < q + k -> slab_ram s' !! x = slab_ram s !! x.
(** what becomes of the block of [n] bytes at [p] when [size] bytes are asked
    for: nothing, if there is no memory; or there is a block of [m] bytes at
    [r] in its place, with the contents up to the smaller size *)
Definition slab_resized (s s' : slab) (lo hi : Z) (L : gmap Z Z) (p n size r : Z) : Prop :=
  (r = RT_NULL /\ slab_ok s' lo hi L /\ contents_kept s s' L) \/
  (r <> RT_NULL /\ exists m, size <= m /\ slab_ok s' lo hi (<[r := m]> (delete p L)) /\
    (forall i, 0 <= i < Z.min n size -> slab_ram s' !! (r + i) = slab_ram s !! (p + i)) /\ contents_kept s s' (delete p L)).
Lemma slab_move_run s lo hi L p n size : slab_ok s lo hi L -> L !! p = Some n -> slab_bytes s lo hi -> 0 < size < 4294967296 ->
  exists r s', slab_move p size (Z.min n size) s = Ok (r, s') /\ slab_resized s s' lo hi L p n size r.
Proof.
  intros Hok Hp [Hmap Hby] Hsize. destruct (slab_ok_range _ _ _ _ _ _ Hok Hp) as (P1 & P2 & P3 & P4). unfold slab_move.
  destruct (slab_malloc_run s lo hi L size Hok Hsize) as [(s1 & Hrun & Hok1 & _)|(r & s1 & Hrun & Hle & _ & R1 & R2 & R3 & R4 & R5 & Hok1)];
    pose proof (keeps_malloc _ _ _ _ Hrun) as Hram1; rewrite (bind_run _ _ _ _ _ Hrun).
  { exists RT_NULL, s1. split; [done|]. left. split_and!; [done..|]. intros q k x _ _. by rewrite Hram1. }
  rewrite (proj2 (Z.eqb_neq r RT_NULL)) by done. set (m := slab_block s size) in *. pose proof (R5 _ _ Hp) as Hdis.
  destruct (rt_memcpy_run (slab_ram s1) r p (Z.min n size)) as (ram & Hcp & Hcopy); rewrite ?Hram1; [eapply mapped_sub; [exact Hmap|lia|lia]..|done|lia|lia|].
  erewrite bind_run; [cbv beta|unfold on_slab_ram; rewrite Hcp; reflexivity].
  destruct (slab_free_run (set_slab_ram ram s1) lo hi (<[r := m]> L) p n) as (s2 & Hrun2 & Hok2); [by apply slab_ok_ram|rewrite lookup_insert_ne by (intros ->; congruence); done|].
  pose proof (keeps_free _ _ _ _ Hrun2) as Hram2. cbn in Hram2. rewrite (bind_run _ _ _ _ _ Hrun2). exists r, s2. split; [done|]. right.
  split; [done|]. exists m. split; [done|]. rewrite delete_insert_ne in Hok2 by (intros ->; congruence). split; [done|]. split.
  - intros i Hi. rewrite Hram2, Hcopy, decide_True by lia. rewrite Hram1. f_equal. lia.
  - intros q k x Hq Hx. apply lookup_delete_Some in Hq as [_ Hq]. pose proof (R5 _ _ Hq). rewrite Hram2, Hcopy, decide_False by lia. by rewrite Hram1.
Qed.
Lemma round_up_size size : 0 < size < 4294967296 -> size <= (zoneindex size).2 < 4294967296.
Proof.
  intros Hs. destruct (Z.lt_ge_cases size 16384) as [Hlt|Hge].
  - destruct (zoneindex size) as [zi b] eqn:E. destruct (zoneindex_class size zi b ltac:(lia) E) as (_ & _ & H1 & _ & H2 & _). cbn. lia.
  - unfold zoneindex. repeat rewrite (proj2 (Z.ltb_ge size _)) by lia. cbn. lia.
Qed.
Lemma resized_weaken s s' lo hi L p n size size' r : slab_resized s s' lo hi L p n size' r -> size <= size' -> slab_resized s s' lo hi L p n size r.
Proof.
  intros [H|(Hr & m & H1 & H2 & H3 & H4)] Hle; [by left|right]. split; [done|]. exists m. split_and!; [lia|done| |done]. intros i Hi. apply H3. lia.
Qed.
Lemma slab_realloc_run s lo hi L p n size : slab_ok s lo hi L -> L !! p = Some n -> slab_bytes s lo hi -> 0 < size < 4294967296 ->
  exists r s', rt_realloc p size s = Ok (r, s') /\ slab_resized s s' lo hi L p n size r.
Proof.
  intros Hok Hp Hb Hsize. destruct (slab_ok_range _ _ _ _ _ _ Hok Hp) as (P1 & P2 & P3 & P4).
  pose proof Hok as [Hsem (E & G & fz & B & I & HL)]. apply HL in Hp as Hlive.
  destruct (live_home _ _ _ _ _ _ _ _ _ _ I Hlive) as (a & k & HE & A1 & A2 & A3 & A4). pose proof (si_pages _ _ _ _ _ _ _ _ I) as Hpi.
  destruct (extent_range _ _ _ _ _ _ Hpi HE) as (R1 & R2 & R3 & R4 & R5).
  unfold rt_realloc. rewrite (proj2 (Z.eqb_neq p RT_NULL)), (proj2 (Z.eqb_neq size 0)) by (unfold RT_NULL; lia).
  erewrite bind_run; [cbv beta|reflexivity]. destruct A4 as [(<- & -> & HB & HGa)|(Hap & F & v & i & HG & Hv & Hl & -> & ->)].
  - rewrite page_of_aligned by (done || lia). destruct (si_large _ _ _ _ _ _ _ _ I _ _ HB) as (_ & _ & _ & _ & Hu).
    erewrite bind_run; [cbv beta|unfold get_usage, bind, get; by rewrite Hu]. cbn [mu_type mu_size]. change (PAGE_TYPE_LARGE =? PAGE_TYPE_LARGE) with true. cbv iota zeta.
    replace (u32 (Z.shiftl k RT_MM_PAGE_BITS)) with (k * RT_MM_PAGE_SIZE) by (rewrite Z.shiftl_mul_pow2 by done; symmetry; apply u32_small; lia).
    replace (if k * RT_MM_PAGE_SIZE <? size then k * RT_MM_PAGE_SIZE else size) with (Z.min (k * RT_MM_PAGE_SIZE) size)
      by (destruct (Z.ltb_spec (k * RT_MM_PAGE_SIZE) size); lia). by apply slab_move_run.
  - destruct (chunk_page _ _ _ _ _ _ _ _ _ _ _ _ I HG Hv Hl) as (off & Hu & Hzof).
    erewrite bind_run; [cbv beta|unfold get_usage, bind, get; by rewrite Hu]. rewrite Hzof. cbn [mu_type]. change (PAGE_TYPE_SMALL =? PAGE_TYPE_LARGE) with false.
    change (PAGE_TYPE_SMALL =? PAGE_TYPE_SMALL) with true. cbv iota.
    destruct (si_zone _ _ _ _ _ _ _ _ I _ _ HG) as (v0 & Hv0 & Hat). assert (v0 = v) as -> by congruence.
    rewrite (bind_run _ _ _ _ _ (get_zone_run _ _ _ Hv)), (proj2 (Z.eqb_eq _ _) (za_magic _ _ _ _ Hat)).
    erewrite bind_run; [cbv beta zeta|reflexivity]. pose proof (round_up_size size Hsize) as Hup. set (size' := (zoneindex size).2) in *.
    destruct (Z.eqb_spec (z_chunksize v) size') as [Heq|Hne].
    + eexists _, s. split; [reflexivity|]. right. split; [unfold RT_NULL; lia|]. exists (z_chunksize v). split; [lia|]. split; [|done].
      by rewrite insert_delete_id.
    + replace (if z_chunksize v <? size' then z_chunksize v else size') with (Z.min (z_chunksize v) size')
        by (destruct (Z.ltb_spec (z_chunksize v) size'); lia).
      destruct (slab_move_run s lo hi L (chunk_addr v i) (z_chunksize v) size' Hok Hp Hb ltac:(lia)) as (r & s' & Hrun & Hres).
      exists r, s'. split; [done|]. eapply resized_weaken; [exact Hres|lia].
Qed.
Lemma slab_calloc_run s lo hi L count size : slab_ok s lo hi L -> slab_bytes s lo hi -> u32 (count * size) <> 0 ->
  exists r s', rt_calloc count size s = Ok (r, s') /\ contents_kept s s' L /\
    (r = RT_NULL /\ slab_ok s' lo hi L \/
     r <> RT_NULL /\ exists m, u32 (count * size) <= m /\ L !! r = None /\ slab_ok s' lo hi (<[r := m]> L) /\
       forall x, r <= x < r + u32 (count * size) -> slab_ram s' !! x = Some 0).
Proof.
  intros Hok [Hmap Hby] Hnz. pose proof (u32_range (count * size)) as Hr. set (n := u32 (count * size)) in *. unfold rt_calloc. fold n.
  destruct (slab_malloc_run s lo hi L n Hok ltac:(lia)) as [(s1 & Hrun & Hok1 & _)|(r & s1 & Hrun & Hle & _ & R1 & R2 & R3 & R4 & R5 & Hok1)];
    pose proof (keeps_malloc _ _ _ _ Hrun) as Hram1; rewrite (bind_run _ _ _ _ _ Hrun).
  { exists RT_NULL, s1. split; [done|]. split; [|by left]. intros q k x _ _. by rewrite Hram1. }
  rewrite (proj2 (Z.eqb_neq r RT_NULL)) by done. cbn [negb when]. rewrite bind_assoc.
  erewrite bind_run; [cbv beta|unfold on_slab_ram; rewrite rt_memset_run; [reflexivity|rewrite Hram1; eapply mapped_sub; [exact Hmap|lia|lia]|lia]].
  erewrite bind_run; [cbv beta|reflexivity]. eexists r, _. split; [reflexivity|]. cbn. rewrite Hram1. split.
  - intros q k x Hq Hx. pose proof (R5 _ _ Hq). cbn. rewrite lookup_fill, decide_False by lia. done.
  - right. split; [done|]. exists (slab_block s n). split_and!; [done|done|by apply slab_ok_ram|]. intros x Hx. by rewrite lookup_fill, decide_True by lia.
Qed.

(** rt_calloc gives a cleared block of the product, as 32 bits have it, and
    keeps the contents of all other blocks, or returns NULL. *)
Theorem slab_calloc_spec s lo hi L count size : slab_ok s lo hi L -> slab_bytes s lo hi -> u32 (count * size) <> 0 ->
  exists r s', rt_calloc count size s = Ok (r, s') /\ contents_kept s s' L /\
    (r = RT_NULL /\ slab_ok s' lo hi L \/
     r <> RT_NULL /\ exists m, u32 (count * size) <= m /\ L !! r = None /\ slab_ok s' lo hi (<[r := m]> L) /\
       forall x, r <= x < r + u32 (count * size) -> slab_ram s' !! x = Some 0).
Proof. apply slab_calloc_run. Qed.
