(* ===== verification/SlabInit.v ===== *)
(** rt_system_heap_init of slab.c gives an empty heap. *)
From S2P Require Import Prelude KService Mem CpuPort Kernel Slab SlabPages SlabZones SlabSpec.

Lemma zone_size_loop_cases lim : zone_size_loop 3 ZALLOC_MIN_ZONE_SIZE lim ∈ [ZALLOC_MIN_ZONE_SIZE; 2 * ZALLOC_MIN_ZONE_SIZE; ZALLOC_MAX_ZONE_SIZE].
Proof.
  rewrite !elem_of_cons. unfold ZALLOC_MIN_ZONE_SIZE, ZALLOC_MAX_ZONE_SIZE. cbn [zone_size_loop]. unfold ZALLOC_MAX_ZONE_SIZE.
  change (32 * 1024 <? 128 * 1024) with true. change (2 * (32 * 1024) <? 128 * 1024) with true.
  change (2 * (2 * (32 * 1024)) <? 128 * 1024) with false. cbn [andb].
  destruct (2 * (32 * 1024) <? lim / 1024); [|by left]. destruct (2 * (2 * (32 * 1024)) <? lim / 1024); auto.
Qed.
(** the variables of slab.c before the first call *)
Definition slab_fresh (s : slab) : Prop := zone_array s = replicate (Z.to_nat NZONES) RT_NULL /\ zone_free s = RT_NULL /\ zone_free_cnt s = 0.
Lemma page_init_inv s lo n : 0 < lo -> lo mod RT_MM_PAGE_SIZE = 0 -> 0 < n -> lo + n * RT_MM_PAGE_SIZE < 4294967296 -> 0 < slab_sem s ->
  exists s', rt_page_init lo n s = Ok (tt, s') /\ pages_only s s' /\ pages_inv s' lo (lo + n * RT_MM_PAGE_SIZE) ∅.
Proof.
  intros Hlo Hal Hn Hhi Hsem. set (hi := lo + n * RT_MM_PAGE_SIZE) in *. set (s1 := set_rt_page_list RT_NULL s).
  assert (Hl : pages_at s1 lo hi []) by done.
  assert (Ho : outside lo hi lo n []) by (split; [done|done|lia|unfold hi; lia|intros x _ H; by inversion H]).
  destruct (rt_page_free_run s1 lo hi [] lo n Hl Hsem Ho) as (s' & Hrun & Hpo & Hl'). exists s'. split; [|split].
  - unfold rt_page_init. rewrite (proj2 (Z.eqb_neq lo RT_NULL)), (proj2 (Z.eqb_neq n 0)) by (unfold RT_NULL; lia).
    do 3 (erewrite bind_run; [cbv beta|reflexivity]). exact Hrun.
  - eapply pages_only_trans; [|exact Hpo]. exists (page_heads s), RT_NULL. by destruct s.
  - split; [|intros a k b m Ha; by rewrite lookup_empty in Ha]. exists [(lo, n)]. split; [done|]. split; [intros a k Ha; by rewrite lookup_empty in Ha|].
    intros x Hx. left. apply Exists_cons. left. unfold in_run, run_end. cbn [fst snd]. fold hi. lia.
Qed.
Lemma table_pages n : 0 < n -> n * RT_MM_PAGE_SIZE < 4294967296 ->
  let t := RT_ALIGN (u32 (n * 4)) RT_MM_PAGE_SIZE / RT_MM_PAGE_SIZE in 0 < t <= n.
Proof.
  intros Hn Hb. unfold RT_ALIGN, RT_MM_PAGE_SIZE in *. rewrite (u32_small (n * 4)), (u32_small (n * 4 + 4096 - 1)) by lia.
  pose proof (land_page (n * 4 + 4096 - 1) ltac:(lia)) as Hl. unfold RT_MM_PAGE_MASK, RT_MM_PAGE_SIZE in Hl. rewrite Hl, Z.div_mul by lia.
  pose proof (Z.div_mod (n * 4 + 4096 - 1) 4096 ltac:(lia)). pose proof (Z.mod_pos_bound (n * 4 + 4096 - 1) 4096 ltac:(lia)). cbv zeta. lia.
Qed.
Lemma slab_init_run s b e lo hi : slab_fresh s -> lo = RT_ALIGN b RT_MM_PAGE_SIZE -> hi = RT_ALIGN_DOWN e RT_MM_PAGE_SIZE ->
  0 <= b -> 0 < lo -> lo < hi -> e < 4294967296 -> exists s', rt_system_heap_init b e s = Ok (tt, s') /\ slab_ok s' lo hi ∅.
Proof.
  intros (F1 & F2 & F3) Elo Ehi Hb Hlo Hlt He.
  assert (Hlal : lo mod RT_MM_PAGE_SIZE = 0). { subst lo. unfold RT_ALIGN. pose proof (u32_range (b + RT_MM_PAGE_SIZE - 1)). rewrite land_page by lia. by apply Z.mod_mul. }
  assert (He0 : 0 <= e). { apply Z.nlt_ge. intros Hneg. subst hi. unfold RT_ALIGN_DOWN in Hlt. assert (Z.land e (Z.lnot (RT_MM_PAGE_SIZE - 1)) < 0); [|lia]. apply Z.land_neg. split; [done|by vm_compute]. }
  assert (Hhal : exists k, hi = k * RT_MM_PAGE_SIZE /\ hi <= e).
  { subst hi. exists (e / RT_MM_PAGE_SIZE). unfold RT_ALIGN_DOWN. rewrite land_page by done. split; [done|]. pose proof (Z.mul_div_le e RT_MM_PAGE_SIZE ltac:(done)). lia. }
  destruct Hhal as (kh & Ekh & Hhe). apply Z.mod_divide in Hlal as [kl Ekl]; [|done]. set (n := kh - kl).
  assert (En : hi - lo = n * RT_MM_PAGE_SIZE) by (unfold n; lia). assert (Hn : 0 < n) by (unfold RT_MM_PAGE_SIZE in *; lia).
  unfold rt_system_heap_init. rewrite <- Elo, <- Ehi. cbv zeta. erewrite bind_run; [cbv beta|reflexivity].
  rewrite (proj2 (Z.leb_gt hi lo)) by done. erewrite bind_run; [cbv beta|reflexivity]. rewrite En, Z.div_mul by done.
  set (s1 := set_slab_sem 1 (set_bounds lo hi s)).
  destruct (page_init_inv s1 lo n Hlo ltac:(rewrite Ekl; by apply Z.mod_mul) Hn ltac:(lia) ltac:(done)) as (s2 & Hrun2 & Hpo2 & Hp2).
  replace (lo + n * RT_MM_PAGE_SIZE) with hi in Hp2 by lia. rewrite (bind_run _ _ _ _ _ Hrun2). erewrite bind_run; [cbv beta|reflexivity].
  set (zsz := zone_size_loop 3 _ _). set (t := RT_ALIGN (u32 (n * 4)) RT_MM_PAGE_SIZE / RT_MM_PAGE_SIZE).
  assert (Ht : 0 < t <= n) by (apply table_pages; lia).
  match goal with |- context [set_zone_sizes zsz ?l ?c s2] => set (s3 := set_zone_sizes zsz l c s2) end.
  assert (Hp3 : pages_inv s3 lo hi ∅) by by eapply pages_inv_ext. destruct (pages_only_same _ _ Hpo2) as (Hs2 & Hu2 & Hsem2).
  assert (Hsem3 : slab_sem s3 = 1) by exact Hsem2.
  destruct (rt_page_alloc_inv s3 lo hi ∅ t Hp3 ltac:(lia) ltac:(lia)) as [(_ & Hno & _)|(a & s4 & Hrun4 & Hpo4 & Ha & _ & Hal & Hp4)].
  { exfalso. destruct (Hno lo) as (y & q & m & _ & Hq & _); [lia|unfold RT_MM_PAGE_SIZE in *; lia|]. by rewrite lookup_empty in Hq. }
  rewrite (bind_run _ _ _ _ _ Hrun4). destruct (pages_only_same _ _ Hpo4) as (Hs4 & Hu4 & Hsem4).
  eexists. split; [reflexivity|]. split; [by rewrite <- Hsem3, <- Hsem4|]. exists (<[a := t]> ∅), ∅, [], ∅.
  split; [|intros p k; rewrite lookup_empty; split; [done|]; intros [(m & H & _)|(z & F & v & i & H & _)]; by rewrite lookup_empty in H].
  assert (Harr : zone_array s4 = replicate (Z.to_nat NZONES) RT_NULL) by (rewrite (sz_array _ _ Hs4), <- F1; apply Hs2).
  split; cbn.
  - unfold zone_sizes_ok. cbn [set_memusage_tbl zone_size zone_limit zone_page_cnt].
    rewrite (sz_size _ _ Hs4), (sz_limit _ _ Hs4), (sz_pages _ _ Hs4). unfold s3. cbn [set_zone_sizes zone_size zone_limit zone_page_cnt]. split; [apply zone_size_loop_cases|]. split; [|done].
    destruct (Z.ltb_spec ZALLOC_ZONE_LIMIT (zsz / 4)); lia.
  - rewrite (sz_start _ _ Hs4). apply Hs2.
  - rewrite Ekl. by apply Z.mod_mul.
  - eapply pages_inv_ext; [exact Hp4|done..].
  - by rewrite Harr.
  - intros z F. by rewrite lookup_empty.
  - intros zi Hzi. exists RT_NULL, []. rewrite Harr. split; [apply lookup_replicate; lia|]. split; [done|constructor|].
    intros z. split; [intros H; by apply not_elem_of_nil in H|]. intros (F & v & H & _). by rewrite lookup_empty in H.
  - split; [rewrite (sz_free _ _ Hs4), <- F2; apply Hs2|]. rewrite (sz_cnt _ _ Hs4). transitivity (zone_free_cnt s); [apply Hs2|done].
  - constructor.
  - intros z [[? H]|H]; [by rewrite lookup_empty in H|by apply not_elem_of_nil in H].
  - intros z [? H]. by rewrite lookup_empty in H.
  - intros p k. by rewrite lookup_empty.
  - rewrite lookup_insert_eq. by eexists.
  - intros p k. rewrite lookup_insert_Some, lookup_empty. intros [[<- _]|[_ ?]]; [by right; right; right|done].
Qed.

(** rt_system_heap_init on the variables at their first values gives a heap
    between the rounded addresses without live blocks, when there is a page
    between them. *)
Theorem slab_init_spec s b e lo hi : slab_fresh s -> lo = RT_ALIGN b RT_MM_PAGE_SIZE -> hi = RT_ALIGN_DOWN e RT_MM_PAGE_SIZE ->
  0 <= b -> 0 < lo -> lo < hi -> e < 4294967296 -> exists s', rt_system_heap_init b e s = Ok (tt, s') /\ slab_ok s' lo hi ∅.
Proof. apply slab_init_run. Qed.
