(* ===== verification/SlabExamples.v ===== *)
(** The theorems of the slab allocator applied to a heap of 16 pages. *)
From S2P Require Import Prelude KService Mem CpuPort Kernel Slab SlabPages SlabZones SlabSpec SlabFree SlabRealloc SlabInit.

Definition slab0 : slab := {| page_heads := ∅; zones := ∅; c_next := ∅; usage := ∅; memusage_tbl := 0; rt_page_list := 0;
  zone_array := replicate (Z.to_nat NZONES) RT_NULL; zone_free := 0; zone_free_cnt := 0; zone_size := 0; zone_limit := 0; zone_page_cnt := 0;
  slab_start := 0; slab_end := 0; slab_sem := 0; slab_used := 0; slab_max := 0; slab_ram := ∅ |}.
Definition sl_after {A} (m : SL A) (s : slab) : slab := match m s with Ok (_, s') => s' | Fault _ => slab0 end.
Definition sl_value (m : SL Z) (s : slab) : Z := match m s with Ok (p, _) => p | Fault _ => -1 end.
(** begin_addr = 4000 is rounded up, end_addr = 70000 down *)
Definition slab1 : slab := sl_after (rt_system_heap_init 4000 70000) slab0.
Definition slab2 : slab := sl_after (rt_malloc 100) slab1.
(** the first chunk of the first zone, 40 bytes behind its header *)
Example slab_first_chunk : sl_value (rt_malloc 100) slab1 = 8192 + 40.
Proof. vm_compute. reflexivity. Qed.
Example slab_large_block : sl_value (rt_malloc 100;; rt_malloc 9000) slab1 = 8192 + 32768.
Proof. vm_compute. reflexivity. Qed.
(** chunks of a power of two are aligned to it, within the zone *)
Example slab_power_of_two : sl_value (rt_malloc 256) slab1 = 8192 + 256.
Proof. vm_compute. reflexivity. Qed.
(** there is no room for a second zone *)
Example slab_full : sl_value (rt_malloc 100;; rt_malloc 200) slab1 = 0.
Proof. vm_compute. reflexivity. Qed.
(** the last chunk that is released comes first when all were used *)
Example slab_reuse : sl_value (let* p := rt_malloc 8000 in let* q := rt_malloc 8000 in let* r := rt_malloc 8000 in rt_free q;; rt_malloc 8000) slab1
  = sl_value (rt_malloc 8000;; rt_malloc 8000) slab1.
Proof. vm_compute. reflexivity. Qed.

Lemma slab1_ok : slab_ok slab1 4096 69632 ∅.
Proof.
  destruct (slab_init_run slab0 4000 70000 4096 69632) as (s' & Hrun & Hok); [by split_and!|by vm_compute|by vm_compute|lia..|].
  unfold slab1, sl_after. by rewrite Hrun.
Qed.
Lemma slab2_ok : slab_ok slab2 4096 69632 (<[8232 := 104]> ∅).
Proof.
  destruct (slab_malloc_run slab1 4096 69632 ∅ 100 slab1_ok ltac:(lia)) as [(s' & Hrun & _)|(p & s' & Hrun & _ & _ & _ & _ & _ & _ & _ & Hok)].
  - exfalso. assert (H : sl_value (rt_malloc 100) slab1 = RT_NULL) by (unfold sl_value; by rewrite Hrun). by vm_compute in H.
  - assert (H : sl_value (rt_malloc 100) slab1 = p) by (unfold sl_value; by rewrite Hrun). vm_compute in H. subst p.
    unfold slab2, sl_after. rewrite Hrun. replace (slab_block slab1 100) with 104 in Hok by (by vm_compute). done.
Qed.
(** with bytes *)
Definition slab3 : slab := set_slab_ram (fill (Z.to_nat 65536) 4096 7 ∅) slab2.
Lemma slab3_bytes : slab_bytes slab3 4096 69632.
Proof.
  split.
  - split; [lia|]. split; [lia|]. intros x Hx. change (slab_ram slab3) with (fill (Z.to_nat 65536) 4096 7 ∅). rewrite lookup_fill, decide_True by lia. by eexists.
  - intros x b. change (slab_ram slab3) with (fill (Z.to_nat 65536) 4096 7 ∅). rewrite lookup_fill. destruct (decide _); [intros [= <-]; lia|by rewrite lookup_empty].
Qed.
Lemma slab_init_spec_witness : exists s', rt_system_heap_init 4000 70000 slab0 = Ok (tt, s') /\ slab_ok s' 4096 69632 ∅.
Proof. apply (slab_init_spec slab0 4000 70000 4096 69632); [by split_and!|by vm_compute|by vm_compute|lia..]. Defined.
Lemma slab_malloc_spec_witness : 100 <= slab_block slab1 100 /\ exists p s', rt_malloc 100 slab1 = Ok (p, s').
Proof.
  destruct (slab_malloc_spec slab1 4096 69632 ∅ 100 slab1_ok ltac:(lia)) as [(s' & Hrun & _)|(p & s' & Hrun & Hle & _)]; (split; [by vm_compute|]); by eexists _, _.
Defined.
Lemma slab_free_spec_witness : exists s', rt_free 8232 slab2 = Ok (tt, s') /\ slab_ok s' 4096 69632 ∅.
Proof.
  destruct (slab_free_spec slab2 4096 69632 (<[8232 := 104]> ∅) 8232 104 slab2_ok) as (s' & Hrun & Hok); [apply lookup_insert_eq|].
  exists s'. split; [exact Hrun|]. by rewrite delete_insert_id in Hok.
Defined.
Lemma slab_calloc_spec_witness : exists r s', rt_calloc 5 20 slab3 = Ok (r, s') /\ contents_kept slab3 s' (<[8232 := 104]> ∅).
Proof.
  destruct (slab_calloc_spec slab3 4096 69632 (<[8232 := 104]> ∅) 5 20) as (r & s' & Hrun & Hk & _);
    [apply slab_ok_ram, slab2_ok|exact slab3_bytes|by vm_compute|]. exists r, s'. split; [exact Hrun|exact Hk].
Defined.
(** a chunk of 8192 bytes is aligned to the page only: the zone is not aligned to more *)
Example slab_power_unaligned : sl_value (rt_malloc 8000) (sl_after (rt_system_heap_init 8000 90000) slab0) mod 8192 = 4096.
Proof. vm_compute. reflexivity. Qed.
