(* ===== verification/ListCmd.v ===== *)
(** The list commands of the shell, rt-thread/components/finsh/cmd.c, and
    rt_show_version of kservice.c (FINSH_USING_MSH_LIST; this board's
    rtconfig.h leaves them out, but their objects are those of the kernel).
    cmd_ps and cmd_free of msh.c and list_mem of mem.c belong to them.
    The output is the text that the calls of rt_kprintf give to the console, as
    KPrintfSpec has it.  No other thread runs during a command: the board has no
    interrupts, and rt_kprintf polls. *)
From Stdlib Require Import String Ascii.
From S2P Require Import Prelude RtList KService Mem Heap KString KPrintf KPrintfSpec CpuPort Kernel Sched Object Timer Thread Ipc Mutex Event Mailbox MsgQueue MemPool MemHeap.

(** * Output *)
Record lstate := { lk : mstate; out : list Z }.
Abbreviation L := (M lstate).
Definition on_system {A} (m : MH A) : L A := fun s =>
  match m (lk s) with
  | Ok (a, k) => Ok (a, {| lk := k; out := out s |})
  | Fault f => Fault f
  end.
Definition on_k {A} (m : K A) : L A := on_system (on_kernel m).

Definition text_of (s : string) : list Z := (fun c => Z.of_N (N_of_ascii c)) <$> list_ascii_of_string s.
(** the text of a format, by [spec_directive] *)
Fixpoint render (fuel : nat) (l : list Z) (args : list arg) : option (list Z) :=
  match fuel, l with
  | _, [] => Some []
  | S fuel, c :: l =>
      if c =? 37 then
        match spec_directive l args with
        | Some (t, l', args') => app t <$> render fuel l' args'
        | None => None
        end
      else cons c <$> render fuel l args
  | O, _ => None
  end.
(** rt_kprintf: at most RT_CONSOLEBUF_SIZE - 2 characters *)
Definition put_text (t : list Z) : L unit := modify (fun s => {| lk := lk s; out := out s ++ take 254 t |}).
Definition kprintf (fmt : list Z) (args : list arg) : L unit :=
  let* t := the (render (S (length fmt)) fmt args) in put_text t.
(** a format with a line feed at the end *)
Definition line (s : string) : list Z := text_of s ++ [10].

(** the string in an array *)
Fixpoint until_nul (l : list Z) : list Z :=
  match l with
  | c :: l => if c =? 0 then [] else c :: until_nul l
  | [] => []
  end.
(** object->name for a directive that reads at most RT_NAME_MAX characters *)
Definition obj_name (o : Z) : L arg := let* ob := on_k (get_obj o) in ret (AStr o (until_nul (o_name ob))).
(** object->name for %s, which reads up to a zero byte *)
Definition obj_string (o : Z) : L arg :=
  let* ob := on_k (get_obj o) in
  if existsb (Z.eqb 0) (o_name ob) then ret (AStr o (until_nul (o_name ob))) else raise BadPointer.
Definition title (s : string) : arg := AStr 1 (text_of s).

Definition hello : L Z := kprintf (line "Hello RT-Thread!") [];; ret 0.
Definition RT_VERSION : Z := 3.
Definition RT_SUBVERSION : Z := 1.
Definition RT_REVISION : Z := 5.
(** [date]: __DATE__ of the compiler *)
Definition rt_show_version (date : string) : L unit :=
  kprintf ([10] ++ line " \ | /") [];;
  kprintf (line "- RT -     Thread Operating System") [];;
  kprintf (line " / | \     %d.%d.%d build %s") [AWord RT_VERSION; AWord RT_SUBVERSION; AWord RT_REVISION; title date];;
  kprintf (line " 2006 - 2020 Copyright by rt-thread team") [].
Definition version (date : string) : L Z := rt_show_version date;; ret 0.
Fixpoint object_split (len : nat) : L unit :=
  match len with
  | O => ret tt
  | S len => kprintf (text_of "-") [];; object_split len
  end.

(** * Walking through the objects of a class *)
Definition LIST_FIND_OBJ_NR : Z := 8.
(** list_get_next_t, without the array, which list_get_next returns *)
Record list_get_next_t := { find_list : Z; find_type : Z; find_nr : Z }.
(** the list head is that of information->object_list *)
Definition list_find_init (type nr : Z) : L list_get_next_t :=
  let* info := the (rt_object_get_information type) in
  ret {| find_list := info.1; find_type := type; find_nr := nr |}.
(** obj->type & ~RT_Object_Class_Static *)
Definition obj_class (o : Z) : L Z :=
  let* ob := on_k (get_obj o) in ret (u8 (Z.land (o_type ob) (Z.lnot RT_Object_Class_Static))).

(** node = node->next, up to [nr] nodes: the last node, or NULL at the end of
    the list, and the nodes *)
Fixpoint get_next_loop (rest : list Z) (nr k : Z) (array : list Z) : Z * list Z :=
  match rest with
  | [] => (RT_NULL, array)
  | node :: rest => if k + 1 =? nr then (node, array ++ [node]) else get_next_loop rest nr (k + 1) (array ++ [node])
  end.
(** the nodes behind [node] *)
Fixpoint after (node : Z) (l : list Z) : option (list Z) :=
  match l with
  | [] => None
  | x :: l => if x =? node then Some l else after node l
  end.
Definition list_get_next (current : Z) (arg : list_get_next_t) : L (Z * list Z) :=
  if ((find_nr arg =? 0) || (find_type arg =? 0))%bool then ret (RT_NULL, [])
  else if current =? RT_NULL then
    let* s := get in ret (get_next_loop (object_list (ks (lk s)) (find_list arg)) (find_nr arg) 0 [])
  else
    let* c := obj_class current in
    if negb (c =? find_type arg) then ret (RT_NULL, [])
    else
      let* s := get in
      let* rest := the (after current (object_list (ks (lk s)) (find_list arg))) in
      ret (get_next_loop rest (find_nr arg) 0 []).

(** an object that is still of the class *)
Definition show_object (type : Z) (show : Z -> L unit) (obj : Z) : L unit :=
  let* c := obj_class obj in when (c =? type) (show obj).
(** do ... while (next != RT_NULL) *)
Fixpoint list_loop (fuel : nat) (arg : list_get_next_t) (show : Z -> L unit) (next : Z) : L unit :=
  match fuel with
  | O => raise OutOfFuel
  | S fuel =>
      let* r := list_get_next next arg in
      for_each (show_object (find_type arg) show) r.2;;
      when (negb (r.1 =? RT_NULL)) (list_loop fuel arg show r.1)
  end.
(** list_find_init, the two lines above the table, and the loop *)
Definition list_objects (type : Z) (head : L unit) (show : Z -> L unit) : L unit :=
  let* arg := list_find_init type LIST_FIND_OBJ_NR in
  head;;
  let* s := get in
  list_loop (S (length (object_list (ks (lk s)) type))) arg show RT_NULL.
Definition table_head (fmt item_title rule : string) : L unit :=
  kprintf (line fmt) [AWord RT_NAME_MAX; title item_title];; object_split (Z.to_nat RT_NAME_MAX);; kprintf (line rule) [].

(** * The commands *)
Definition maxlen : arg := AWord RT_NAME_MAX.
Definition suspended (h : qhead) : L (list Z) := let* s := get in ret (queue (ks (lk s)) h).
(** show_wait_queue *)
Fixpoint show_wait_queue (l : list Z) : L unit :=
  match l with
  | [] => ret tt
  | thread :: l =>
      let* n := obj_string thread in
      kprintf (text_of "%s") [n];;
      when (negb (bool_decide (l = []))) (kprintf (text_of "/") []);;
      show_wait_queue l
  end.
(** the lines of an object with waiting threads, which ends in their names, and
    without *)
Definition show_waiters (h : qhead) (busy free : list Z) (args : list Z -> list arg) : L unit :=
  let* l := suspended h in
  if negb (bool_decide (l = [])) then kprintf busy (args l);; show_wait_queue l;; kprintf [10] []
  else kprintf free (args l).

(** while ( *ptr == '#') ptr ++ *)
Fixpoint stack_scan (fuel : nat) (ptr : Z) : M mem Z :=
  match fuel with
  | O => raise OutOfFuel
  | S fuel => let* c := ld8 ptr in if c =? 35 then stack_scan fuel (u32 (ptr + 1)) else ret ptr
  end.
Definition RT_THREAD_RUNNING : Z := 3.
Definition stat_text (stat : Z) : L unit :=
  if stat =? RT_THREAD_READY then kprintf (text_of " ready  ") []
  else if stat =? RT_THREAD_SUSPEND then kprintf (text_of " suspend") []
  else if stat =? RT_THREAD_INIT then kprintf (text_of " init   ") []
  else if stat =? RT_THREAD_CLOSE then kprintf (text_of " close  ") []
  else if stat =? RT_THREAD_RUNNING then kprintf (text_of " running") []
  else ret tt.
(** The copy of the struct that the code makes is not read. *)
Definition show_thread (thread : Z) : L unit :=
  let* th := on_k (get_thread thread) in
  let* n := obj_name thread in
  kprintf (text_of "%-*.*s %3d ") [maxlen; AWord RT_NAME_MAX; n; AWord (current_priority th)];;
  stat_text (Z.land (stat th) RT_THREAD_STAT_MASK);;
  let* k := gets (fun s => base.size (ram (kheap (ks (lk s))))) in
  let* ptr := on_system (on_bytes (stack_scan (S k) (stack_addr th))) in
  if stack_size th =? 0 then raise Undefined
  else
    kprintf (line " 0x%08x 0x%08x    %02d%%   0x%08x %03d")
      [AWord (u32 (stack_size th + (stack_addr th - sp th))); AWord (stack_size th);
       AWord (u32 (u32 (stack_size th - (ptr - stack_addr th)) * 100) / stack_size th);
       AWord (remaining_tick th); AWord (error th)].
Definition list_thread : L Z :=
  list_objects RT_Object_Class_Thread
    (table_head "%-*.s pri  status      sp     stack size max used left tick  error" "thread"
       " ---  ------- ---------- ----------  ------  ---------- ---")
    show_thread;;
  ret 0.

Definition show_sem (sem : Z) : L unit :=
  let* v := on_k (get_sem sem) in
  let* n := obj_name sem in
  show_waiters (QSuspend sem) (text_of "%-*.*s %03d %d:") (line "%-*.*s %03d %d")
    (fun l => [maxlen; AWord RT_NAME_MAX; n; AWord (sem_value v); AWord (Z.of_nat (length l))]).
Definition list_sem : L Z :=
  list_objects RT_Object_Class_Semaphore (table_head "%-*.s v   suspend thread" "semaphore" " --- --------------") show_sem;; ret 0.

(** the number of waiting threads is an argument only if there are some *)
Definition show_event (event : Z) : L unit :=
  let* set := on_k (get_event event) in
  let* n := obj_name event in
  show_waiters (QSuspend event) (text_of "%-*.*s  0x%08x %03d:") (line "%-*.*s  0x%08x 0")
    (fun l => [maxlen; AWord RT_NAME_MAX; n; AWord set] ++ (if bool_decide (l = []) then [] else [AWord (Z.of_nat (length l))])).
Definition list_event : L Z :=
  list_objects RT_Object_Class_Event (table_head "%-*.s      set    suspend thread" "event" "  ---------- --------------") show_event;; ret 0.

Definition show_mutex (mutex : Z) : L unit :=
  let* m := on_k (get_mutex mutex) in
  let* n := obj_name mutex in
  let* owner_name := obj_name (owner m) in
  let* l := suspended (QSuspend mutex) in
  kprintf (line "%-*.*s %-8.*s %04d %d")
    [maxlen; AWord RT_NAME_MAX; n; AWord RT_NAME_MAX; owner_name; AWord (hold m); AWord (Z.of_nat (length l))].
Definition list_mutex : L Z :=
  list_objects RT_Object_Class_Mutex (table_head "%-*.s   owner  hold suspend thread" "mutex" " -------- ---- --------------") show_mutex;; ret 0.

Definition show_mailbox (mb : Z) : L unit :=
  let* m := on_k (get_mb mb) in
  let* n := obj_name mb in
  show_waiters (QSuspend mb) (text_of "%-*.*s %04d  %04d %d:") (line "%-*.*s %04d  %04d %d")
    (fun l => [maxlen; AWord RT_NAME_MAX; n; AWord (mb_entry m); AWord (mb_size m); AWord (Z.of_nat (length l))]).
Definition list_mailbox : L Z :=
  list_objects RT_Object_Class_MailBox (table_head "%-*.s entry size suspend thread" "mailbox" " ----  ---- --------------") show_mailbox;; ret 0.

Definition show_msgqueue (mq : Z) : L unit :=
  let* m := on_k (get_mq mq) in
  let* n := obj_name mq in
  show_waiters (QSuspend mq) (text_of "%-*.*s %04d  %d:") (line "%-*.*s %04d  %d")
    (fun l => [maxlen; AWord RT_NAME_MAX; n; AWord (mq_entry m); AWord (Z.of_nat (length l))]).
Definition list_msgqueue : L Z :=
  list_objects RT_Object_Class_MessageQueue (table_head "%-*.s entry suspend thread" "msgqueue" " ----  --------------") show_msgqueue;; ret 0.

Definition show_memheap (heap : Z) : L unit :=
  let* mh := on_system (get_heap heap) in
  let* n := obj_name heap in
  kprintf (line "%-*.*s %-010d %-013d %-05d")
    [maxlen; AWord RT_NAME_MAX; n; AWord (pool_size mh); AWord (max_used_size mh); AWord (available_size mh)].
Definition list_memheap : L Z :=
  list_objects RT_Object_Class_MemHeap (table_head "%-*.s  pool size  max used size available size" "memheap"
    " ---------- ------------- --------------") show_memheap;; ret 0.

Definition show_mempool (mp : Z) : L unit :=
  let* m := on_k (get_mp mp) in
  let* n := obj_name mp in
  show_waiters (QSuspend mp) (text_of "%-*.*s %04d  %04d  %04d %d:") (line "%-*.*s %04d  %04d  %04d %d")
    (fun l => [maxlen; AWord RT_NAME_MAX; n; AWord (block_size m); AWord (block_total_count m); AWord (block_free_count m);
       AWord (Z.of_nat (length l))]).
Definition list_mempool : L Z :=
  list_objects RT_Object_Class_MemPool (table_head "%-*.s block total free suspend thread" "mempool" " ----  ----  ---- --------------") show_mempool;; ret 0.

Definition show_timer (timer : Z) : L unit :=
  let* t := on_k (get_timer timer) in
  let* n := obj_name timer in
  kprintf (text_of "%-*.*s 0x%08x 0x%08x ") [maxlen; AWord RT_NAME_MAX; n; AWord (tm_init_tick t); AWord (timeout_tick t)];;
  let* ob := on_k (get_obj timer) in
  if truthy (Z.land (o_flag ob) RT_TIMER_FLAG_ACTIVATED) then kprintf (line "activated") [] else kprintf (line "deactivated") [].
Definition list_timer : L Z :=
  list_objects RT_Object_Class_Timer (table_head "%-*.s  periodic   timeout       flag" "timer" " ---------- ---------- -----------") show_timer;;
  let* t := on_k rt_tick_get in
  kprintf (line "current tick:0x%08x") [AWord t];;
  ret 0.

(** ** ps and free of msh.c, and list_mem of mem.c *)
Definition cmd_ps : L Z := let* _n := list_thread in ret 0.
Definition list_mem : L unit :=
  let* h := gets (fun s => kheap (ks (lk s))) in
  kprintf (line "total memory: %d") [AWord (mem_size_aligned h)];;
  kprintf (line "used memory : %d") [AWord (used_mem h)];;
  kprintf (line "maximum allocated memory: %d") [AWord (max_mem h)].
Definition cmd_free : L Z := list_mem;; ret 0.
