(* ===== verification/App.v ===== *)
(** The application, bsp/mycpu/main.c: the thread that samples the sensor
    periodically (bme280_entry), the shell command that controls it
    (bme_command), and the start-up of this board.  On this board a thread is
    switched away only where it blocks, so the transition system has a step
    for each stretch between two blocking points; a call of the driver blocks
    in its delays, so it begins and ends in different steps, with any result.
    The semaphore is its value: the theorems of Ipc say what its operations
    do. *)
From S2P Require Import Prelude Timer.

(** what rt_kprintf prints *)
Inductive message :=
  | NotFound (err : Z)
  | Detected (address : Z)
  | Sample (negative : bool) (t_int t_frac p h_int h_frac : Z)
  | ReadFailed (err : Z)
  | AlreadyRunning | Started | AlreadyStopped | Stopped | Busy
  | Status (running init : bool) (last_error : Z) (address : option Z)
  | Usage.

(** the static variables of main.c; the semaphore's value *)
Record app := {
  bme_control_sem : Z;
  bme_periodic_enabled : bool;
  bme_initialized : bool;
  bme_last_error : Z;
  console : list message;
}.
Definition say (m : message) (s : app) : app := {| bme_control_sem := bme_control_sem s;
  bme_periodic_enabled := bme_periodic_enabled s; bme_initialized := bme_initialized s;
  bme_last_error := bme_last_error s; console := console s ++ [m] |}.
Definition set_sem v (s : app) : app := {| bme_control_sem := v;
  bme_periodic_enabled := bme_periodic_enabled s; bme_initialized := bme_initialized s;
  bme_last_error := bme_last_error s; console := console s |}.
Definition set_enabled v (s : app) : app := {| bme_control_sem := bme_control_sem s;
  bme_periodic_enabled := v; bme_initialized := bme_initialized s;
  bme_last_error := bme_last_error s; console := console s |}.
Definition set_init v (s : app) : app := {| bme_control_sem := bme_control_sem s;
  bme_periodic_enabled := bme_periodic_enabled s; bme_initialized := v;
  bme_last_error := bme_last_error s; console := console s |}.
Definition set_error v (s : app) : app := {| bme_control_sem := bme_control_sem s;
  bme_periodic_enabled := bme_periodic_enabled s; bme_initialized := bme_initialized s;
  bme_last_error := v; console := console s |}.

(** * bme280_ensure_initialized and bme280_print_sample *)
(** after bme280_init has returned [result], and the address then *)
Definition ensure_initialized (result address : Z) (s : app) : app :=
  let s := set_error result s in
  if negb (result =? 0) then say (NotFound result) s
  else say (Detected address) (set_init true s).
(** the sample as it is printed: T=-d.dd, P, H=d.dd *)
Definition sample_message (temperature_centi_c pressure_pa humidity_centi_pct : Z) : message :=
  let temperature_abs := if temperature_centi_c <? 0 then - temperature_centi_c else temperature_centi_c in
  Sample (temperature_centi_c <? 0) (Z.quot temperature_abs 100) (Z.rem temperature_abs 100)
    pressure_pa (humidity_centi_pct / 100) (humidity_centi_pct mod 100).
(** after bme280_read has returned [result] and, if it is 0, the sample *)
Definition print_sample (result : Z) (sample : Z * Z * Z) (s : app) : app :=
  let s := set_error result s in
  if result =? 0 then say (sample_message sample.1.1 sample.1.2 sample.2) s
  else
    let s := if ((result =? -2) || (result =? -3) || (result =? -4))%bool then set_init false s else s in
    say (ReadFailed result) s.

(** * Threads *)
(** where bme280_entry is blocked: in rt_sem_take, or inside of the driver *)
Inductive bme_pc :=
  | TakeForever
  | TakeTicks (ticks : Z)
  | InInit
  | InRead.
Definition BME280_SAMPLE_TICKS : Z := RT_TICK_PER_SECOND.
Definition BME280_RETRY_TICKS : Z := 2 * RT_TICK_PER_SECOND.

(** from the head of the loop while (bme_periodic_enabled) *)
Definition bme_loop (s : app) : bme_pc :=
  if negb (bme_periodic_enabled s) then TakeForever
  else if bme_initialized s then InRead
  else InInit.
(** after bme280_ensure_initialized, which returned 0 or not *)
Definition bme_after_init (result : Z) (s : app) : bme_pc :=
  if negb (result =? 0) then
    if bme_periodic_enabled s then TakeTicks BME280_RETRY_TICKS else bme_loop s
  else if negb (bme_periodic_enabled s) then TakeForever
  else InRead.
(** after bme280_print_sample *)
Definition bme_after_read (s : app) : bme_pc :=
  if bme_periodic_enabled s then TakeTicks BME280_SAMPLE_TICKS else bme_loop s.

(** where the shell thread is: at its prompt, or inside of the driver for the
    command once *)
Inductive shell_pc := Prompt | OnceInit | OnceRead.

(** the words of the command *)
Definition word_start : list Z := [115; 116; 97; 114; 116].
Definition word_stop : list Z := [115; 116; 111; 112].
Definition word_once : list Z := [111; 110; 99; 101].
Definition word_status : list Z := [115; 116; 97; 116; 117; 115].
(** bme_command up to its end or to the driver; the result when it ends *)
Definition bme_command (argv : list (list Z)) (address : Z) (s : app) : app * shell_pc * option Z :=
  match argv with
  | [_name; arg] =>
      if decide (arg = word_start) then
        if bme_periodic_enabled s then (say AlreadyRunning s, Prompt, Some 0)
        else
          let s := say Started (set_enabled true s) in
          (set_sem (bme_control_sem s + 1) s, Prompt, Some 0)
      else if decide (arg = word_stop) then
        if negb (bme_periodic_enabled s) then (say AlreadyStopped s, Prompt, Some 0)
        else
          let s := set_enabled false s in
          (say Stopped (set_sem (bme_control_sem s + 1) s), Prompt, Some 0)
      else if decide (arg = word_once) then
        if bme_periodic_enabled s then (say Busy s, Prompt, Some (-1))
        else if bme_initialized s then (s, OnceRead, None) else (s, OnceInit, None)
      else if decide (arg = word_status) then
        (say (Status (bme_periodic_enabled s) (bme_initialized s) (bme_last_error s)
           (if bme_initialized s then Some address else None)) s, Prompt, Some 0)
      else (say Usage s, Prompt, Some (-1))
  | _ => (say Usage s, Prompt, Some (-1))
  end.

(** * The transition system *)
Record system := { vars : app; bme : bme_pc; shell : shell_pc }.
Inductive step : system -> system -> Prop :=
  (** rt_sem_take finds the semaphore available *)
  | step_taken s pc sh : 0 < bme_control_sem s -> pc = TakeForever \/ (exists n, pc = TakeTicks n) ->
      let s' := set_sem (bme_control_sem s - 1) s in
      step {| vars := s; bme := pc; shell := sh |} {| vars := s'; bme := bme_loop s'; shell := sh |}
  (** the time is over *)
  | step_timeout s n sh : bme_control_sem s = 0 ->
      step {| vars := s; bme := TakeTicks n; shell := sh |} {| vars := s; bme := bme_loop s; shell := sh |}
  | step_init s result address sh :
      let s' := ensure_initialized result address s in
      step {| vars := s; bme := InInit; shell := sh |} {| vars := s'; bme := bme_after_init result s'; shell := sh |}
  | step_read s result sample sh :
      let s' := print_sample result sample s in
      step {| vars := s; bme := InRead; shell := sh |} {| vars := s'; bme := bme_after_read s'; shell := sh |}
  | step_command s pc argv address :
      let r := bme_command argv address s in
      step {| vars := s; bme := pc; shell := Prompt |} {| vars := r.1.1; bme := pc; shell := r.1.2 |}
  | step_once_init s pc result address :
      let s' := ensure_initialized result address s in
      step {| vars := s; bme := pc; shell := OnceInit |}
        {| vars := s'; bme := pc; shell := if result =? 0 then OnceRead else Prompt |}
  | step_once_read s pc result sample :
      step {| vars := s; bme := pc; shell := OnceRead |}
        {| vars := print_sample result sample s; bme := pc; shell := Prompt |}.
(** after rt_sem_init and the creation of the threads *)
Definition start : system := {|
  vars := {| bme_control_sem := 0; bme_periodic_enabled := false; bme_initialized := false; bme_last_error := 0; console := [] |};
  bme := TakeForever; shell := Prompt |}.
Inductive reachable : system -> Prop :=
  | reach_start : reachable start
  | reach_step x y : reachable x -> step x y -> reachable y.

(** * Properties *)

(** the printed numbers give back the sample *)
Lemma sample_message_value t p h : 0 <= h ->
  exists ti tf hi hf, sample_message t p h = Sample (t <? 0) ti tf p hi hf /\ 0 <= tf < 100 /\ 0 <= hf < 100 /\
    t = (if t <? 0 then -1 else 1) * (100 * ti + tf) /\ h = 100 * hi + hf.
Proof.
  intros Hh. unfold sample_message. cbv zeta. set (a := if t <? 0 then - t else t).
  assert (Ha : 0 <= a /\ t = (if t <? 0 then -1 else 1) * a) by (subst a; destruct (Z.ltb_spec t 0); lia).
  pose proof (Z.quot_rem' a 100) as E1. pose proof (Z.rem_bound_pos a 100 ltac:(lia) ltac:(lia)) as B1.
  pose proof (Z.div_mod h 100 ltac:(lia)) as E2. pose proof (Z.mod_pos_bound h 100 ltac:(lia)) as B2.
  exists (Z.quot a 100), (Z.rem a 100), (h / 100), (h mod 100). split; [reflexivity|]. rewrite <- E1.
  split; [exact B1|]. split; [exact B2|]. split; [apply Ha|exact E2].
Qed.

(** the value of the semaphore, and a start is not lost: when the thread
    waits for the semaphore and sampling is enabled, it finds it available *)
Record app_ok (x : system) : Prop := {
  ok_sem : 0 <= bme_control_sem (vars x);
  ok_start : bme x = TakeForever -> bme_periodic_enabled (vars x) = true -> 0 < bme_control_sem (vars x);
}.
Lemma bme_loop_waits s : bme_loop s = TakeForever -> bme_periodic_enabled s = false.
Proof. unfold bme_loop. destruct (bme_periodic_enabled s), (bme_initialized s); done. Qed.
Lemma after_init_waits r s : bme_after_init r s = TakeForever -> bme_periodic_enabled s = false.
Proof. unfold bme_after_init, bme_loop. destruct (r =? 0), (bme_periodic_enabled s); done. Qed.
Lemma after_read_waits s : bme_after_read s = TakeForever -> bme_periodic_enabled s = false.
Proof. unfold bme_after_read, bme_loop. by destruct (bme_periodic_enabled s). Qed.
Lemma ensure_keeps r a s : bme_control_sem (ensure_initialized r a s) = bme_control_sem s /\
  bme_periodic_enabled (ensure_initialized r a s) = bme_periodic_enabled s.
Proof. unfold ensure_initialized. by destruct (r =? 0). Qed.
Lemma print_keeps r v s : bme_control_sem (print_sample r v s) = bme_control_sem s /\
  bme_periodic_enabled (print_sample r v s) = bme_periodic_enabled s.
Proof. unfold print_sample. by destruct (r =? 0), (r =? -2), (r =? -3), (r =? -4). Qed.
(** what a command may do to the semaphore and the switch *)
Lemma command_effect argv a s : let s' := (bme_command argv a s).1.1 in
  bme_control_sem s <= bme_control_sem s' /\
  (bme_periodic_enabled s' = true -> bme_periodic_enabled s = true \/ bme_control_sem s < bme_control_sem s').
Proof.
  unfold bme_command. destruct argv as [|n [|arg [|]]]; try (cbn; split; [lia|tauto]).
  repeat case_decide; destruct (bme_periodic_enabled s) eqn:E, (bme_initialized s); cbn [fst negb]; cbn; rewrite ?E; split;
    (lia || tauto || (intros; right; lia) || done).
Qed.
Lemma app_step_ok x y : app_ok x -> step x y -> app_ok y.
Proof.
  intros [H1 H2] Hs. destruct Hs; cbn [vars bme shell] in *.
  - split; cbn [vars bme]; [cbn; lia|]. intros E%bme_loop_waits E'. congruence.
  - split; cbn [vars bme]; [done|]. intros E%bme_loop_waits E'. congruence.
  - destruct (ensure_keeps result address s) as [E1 E2]. split; cbn [vars bme]; [subst s'; lia|].
    intros E%after_init_waits E'. congruence.
  - destruct (print_keeps result sample s) as [E1 E2]. split; cbn [vars bme]; [subst s'; lia|].
    intros E%after_read_waits E'. congruence.
  - destruct (command_effect argv address s) as [E1 E2]. split; cbn [vars bme]; [subst r; lia|].
    intros E E'. destruct (E2 E') as [E3|E3]; [specialize (H2 E E3)|]; subst r; lia.
  - destruct (ensure_keeps result address s) as [E1 E2]. split; cbn [vars bme]; [subst s'; lia|].
    intros E E'. subst s'. rewrite E1. apply H2; [done|congruence].
  - destruct (print_keeps result sample s) as [E1 E2]. split; cbn [vars bme]; [lia|].
    intros E E'. rewrite E1. apply H2; [done|congruence].
Qed.
Lemma reachable_ok x : reachable x -> app_ok x.
Proof. induction 1; [by split|by eapply app_step_ok]. Qed.


(** The driver is not exclusive: stop does not wait for the measurement in
    progress, so a following once enters the driver while the sampling thread
    is inside of it. *)
Theorem bme_driver_shared : exists x, reachable x /\ bme x = InRead /\ shell x = OnceRead.
Proof.
  set (v0 := vars start).
  set (c1 := bme_command [[98]; word_start] 118 v0). set (v2 := set_sem 0 c1.1.1).
  set (v3 := ensure_initialized 0 118 v2).
  set (c4 := bme_command [[98]; word_stop] 118 v3). set (c5 := bme_command [[98]; word_once] 118 c4.1.1).
  exists {| vars := c5.1.1; bme := InRead; shell := c5.1.2 |}. split_and!; [|done|done].
  apply (reach_step {| vars := c4.1.1; bme := InRead; shell := c4.1.2 |}); [|exact (step_command c4.1.1 InRead _ 118)].
  apply (reach_step {| vars := v3; bme := InRead; shell := Prompt |}); [|exact (step_command v3 InRead _ 118)].
  apply (reach_step {| vars := v2; bme := InInit; shell := Prompt |}); [|exact (step_init v2 0 118 Prompt)].
  apply (reach_step {| vars := c1.1.1; bme := TakeForever; shell := c1.1.2 |}).
  - apply (reach_step start); [constructor|exact (step_command v0 TakeForever _ 118)].
  - apply (step_taken c1.1.1 TakeForever Prompt); [vm_compute; reflexivity|by left].
Qed.
