(* ===== verification/System.v ===== *)
(** The kernel as a transition system: threads call the kernel, blocked calls
    resume when their thread is current again, and interrupts call the kernel
    and advance the clock.  Every state reachable from a well-formed one is
    well formed ([sched_ok]). *)
From S2P Require Import Prelude KService Mem CpuPort Kernel Sched Object Timer Thread.
From S2P Require Import Ipc Mutex Event Mailbox MsgQueue MemPool Idle.

(** * Calls *)

(** the rest of a blocked call, by the thread that made it *)
Inductive cont :=
  | KSleep (thread : Z)
  | KDelayUntil (thread : Z)
  | KSemTake (thread : Z)
  | KMutexTake (thread : Z)
  | KEventRecv (thread : Z)
  | KMbSend (mb value : Z) (w : wait)
  | KMbRecv (mb : Z) (w : wait)
  | KMqSend (mq buffer size : Z) (w : wait)
  | KMqRecv (mq buffer size : Z) (w : wait)
  | KMpAlloc (mp : Z) (w : wait).
Definition cont_thread (c : cont) : Z :=
  match c with
  | KSleep t | KDelayUntil t | KSemTake t | KMutexTake t | KEventRecv t => t
  | KMbSend _ _ w | KMbRecv _ w | KMqSend _ _ _ w | KMqRecv _ _ _ w | KMpAlloc _ w => w_thread w
  end.

(** calls that never suspend their caller *)
Inductive call :=
  | RtSchedule | RtEnterCritical | RtExitCritical
  | RtThreadInit (thread : Z) (name : list Z) (entry param stack_start stack_size : Z)
      (priority : nat) (tick : Z)
  | RtThreadCreate (name : list Z) (entry param stack_size : Z) (priority : nat) (tick : Z)
  | RtThreadStartup (thread : Z) | RtThreadDetach (thread : Z) | RtThreadDelete (thread : Z)
  | RtThreadExit | RtThreadYield
  | RtThreadControl (thread cmd arg : Z)
  | RtThreadSuspend (thread : Z) | RtThreadResume (thread : Z)
  | RtThreadFind (name : option (list Z))
  | RtTimerInit (timer : Z) (name : list Z) (timeout : timeout_fn) (param time flag : Z)
  | RtTimerCreate (name : list Z) (timeout : timeout_fn) (param time flag : Z)
  | RtTimerDetach (timer : Z) | RtTimerDelete (timer : Z)
  | RtTimerStart (timer : Z) | RtTimerStop (timer : Z) | RtTimerControl (timer cmd arg : Z)
  | RtSemInit (sem : Z) (name : list Z) (value flag : Z)
  | RtSemCreate (name : list Z) (value flag : Z)
  | RtSemDetach (sem : Z) | RtSemDelete (sem : Z) | RtSemRelease (sem : Z)
  | RtSemControl (sem cmd arg : Z)
  | RtMutexInit (mutex : Z) (name : list Z) (flag : Z) | RtMutexCreate (name : list Z) (flag : Z)
  | RtMutexDetach (mutex : Z) | RtMutexDelete (mutex : Z) | RtMutexRelease (mutex : Z)
  | RtMutexControl (mutex cmd arg : Z)
  | RtEventInit (event : Z) (name : list Z) (flag : Z) | RtEventCreate (name : list Z) (flag : Z)
  | RtEventDetach (event : Z) | RtEventDelete (event : Z) | RtEventSend (event set : Z)
  | RtEventControl (event cmd arg : Z)
  | RtMbInit (mb : Z) (name : list Z) (msgpool size flag : Z)
  | RtMbCreate (name : list Z) (size flag : Z)
  | RtMbDetach (mb : Z) | RtMbDelete (mb : Z) | RtMbControl (mb cmd arg : Z)
  | RtMqInit (mq : Z) (name : list Z) (msgpool msg_size pool_size flag : Z)
  | RtMqCreate (name : list Z) (msg_size max_msgs flag : Z)
  | RtMqDetach (mq : Z) | RtMqDelete (mq : Z) | RtMqUrgent (mq buffer size : Z)
  | RtMqControl (mq cmd arg : Z)
  | RtMpInit (mp : Z) (name : option (list Z)) (start size block_size : Z)
  | RtMpCreate (name : option (list Z)) (block_count block_size : Z)
  | RtMpDetach (mp : Z) | RtMpDelete (mp : Z) | RtMpFree (block : Z)
  | RtMalloc (size : Z) | RtRealloc (rmem newsize : Z) | RtCalloc (count size : Z)
  | RtFree (rmem : Z)
  | RtIdleExcute.

(** calls that may suspend their caller *)
Inductive blocking_call :=
  | RtThreadSleep (tick : Z) | RtThreadDelayUntil (tick inc_tick : Z) | RtThreadMdelay (ms : Z)
  | RtSemTake (sem time : Z) | RtMutexTake (mutex time : Z)
  | RtEventRecv (event set option timeout : Z)
  | RtMbSendWait (mb value timeout : Z) | RtMbRecv (mb timeout : Z)
  | RtMqSendWait (mq buffer size timeout : Z) | RtMqRecv (mq buffer size timeout : Z)
  | RtMpAlloc (mp time : Z).

(** forget the result of a call *)
Definition run {A} (m : K A) : K unit := let* _r := m in ret tt.
(** the continuation of a call that blocked *)
Definition pend {R W} (f : W -> cont) (m : K (outcome R W)) : K (option cont) :=
  let* o := m in ret (match o with Done _ => None | Pending w => Some (f w) end).

Section calls.
Context {UC : UserCode}.

Definition call_run (c : call) : K unit :=
  match c with
  | RtSchedule => rt_schedule
  | RtEnterCritical => rt_enter_critical
  | RtExitCritical => rt_exit_critical
  | RtThreadInit t n e p a z prio k => run (rt_thread_init t n e p a z (Z.of_nat prio) k)
  | RtThreadCreate n e p z prio k => run (rt_thread_create n e p z (Z.of_nat prio) k)
  | RtThreadStartup t => run (rt_thread_startup t)
  | RtThreadDetach t => run (rt_thread_detach t)
  | RtThreadDelete t => run (rt_thread_delete t)
  | RtThreadExit => rt_thread_exit
  | RtThreadYield => run rt_thread_yield
  | RtThreadControl t c a => run (rt_thread_control t c a)
  | RtThreadSuspend t => run (rt_thread_suspend t)
  | RtThreadResume t => run (rt_thread_resume t)
  | RtThreadFind n => run (rt_thread_find n)
  | RtTimerInit t n f p k fl => rt_timer_init t n f p k fl
  | RtTimerCreate n f p k fl => run (rt_timer_create n f p k fl)
  | RtTimerDetach t => run (rt_timer_detach t)
  | RtTimerDelete t => run (rt_timer_delete t)
  | RtTimerStart t => run (rt_timer_start t)
  | RtTimerStop t => run (rt_timer_stop t)
  | RtTimerControl t c a => run (rt_timer_control t c a)
  | RtSemInit s n v f => run (rt_sem_init s n v f)
  | RtSemCreate n v f => run (rt_sem_create n v f)
  | RtSemDetach s => run (rt_sem_detach s)
  | RtSemDelete s => run (rt_sem_delete s)
  | RtSemRelease s => run (rt_sem_release s)
  | RtSemControl s c a => run (rt_sem_control s c a)
  | RtMutexInit m n f => run (rt_mutex_init m n f)
  | RtMutexCreate n f => run (rt_mutex_create n f)
  | RtMutexDetach m => run (rt_mutex_detach m)
  | RtMutexDelete m => run (rt_mutex_delete m)
  | RtMutexRelease m => run (rt_mutex_release m)
  | RtMutexControl m c a => run (rt_mutex_control m c a)
  | RtEventInit e n f => run (rt_event_init e n f)
  | RtEventCreate n f => run (rt_event_create n f)
  | RtEventDetach e => run (rt_event_detach e)
  | RtEventDelete e => run (rt_event_delete e)
  | RtEventSend e v => run (rt_event_send e v)
  | RtEventControl e c a => run (rt_event_control e c a)
  | RtMbInit m n p z f => run (rt_mb_init m n p z f)
  | RtMbCreate n z f => run (rt_mb_create n z f)
  | RtMbDetach m => run (rt_mb_detach m)
  | RtMbDelete m => run (rt_mb_delete m)
  | RtMbControl m c a => run (rt_mb_control m c a)
  | RtMqInit m n p z ps f => run (rt_mq_init m n p z ps f)
  | RtMqCreate n z mx f => run (rt_mq_create n z mx f)
  | RtMqDetach m => run (rt_mq_detach m)
  | RtMqDelete m => run (rt_mq_delete m)
  | RtMqUrgent m b z => run (rt_mq_urgent m b z)
  | RtMqControl m c a => run (rt_mq_control m c a)
  | RtMpInit m n st z bz => run (rt_mp_init m n st z bz)
  | RtMpCreate n ct bz => run (rt_mp_create n ct bz)
  | RtMpDetach m => run (rt_mp_detach m)
  | RtMpDelete m => run (rt_mp_delete m)
  | RtMpFree b => rt_mp_free b
  | RtMalloc z => run (on_heap (rt_malloc z))
  | RtRealloc p z => run (on_heap (rt_realloc p z))
  | RtCalloc n z => run (on_heap (rt_calloc n z))
  | RtFree p => on_heap (rt_free p)
  | RtIdleExcute => rt_thread_idle_excute
  end.

Definition blocking_run (c : blocking_call) : K (option cont) :=
  match c with
  | RtThreadSleep k => let* t := rt_thread_self in rt_thread_sleep k;; ret (Some (KSleep t))
  | RtThreadMdelay ms => let* t := rt_thread_self in rt_thread_mdelay ms;; ret (Some (KSleep t))
  | RtThreadDelayUntil k i =>
      let* t := rt_thread_self in pend (fun _ => KDelayUntil t) (rt_thread_delay_until k i)
  | RtSemTake s k => pend KSemTake (rt_sem_take s k)
  | RtMutexTake m k => pend KMutexTake (rt_mutex_take m k)
  | RtEventRecv e v o k => pend KEventRecv (rt_event_recv e v o k)
  | RtMbSendWait m v k => pend (KMbSend m v) (rt_mb_send_wait m v k)
  | RtMbRecv m k => pend (KMbRecv m) (rt_mb_recv m k)
  | RtMqSendWait m b z k => pend (KMqSend m b z) (rt_mq_send_wait m b z k)
  | RtMqRecv m b z k => pend (KMqRecv m b z) (rt_mq_recv m b z k)
  | RtMpAlloc m k => pend (KMpAlloc m) (rt_mp_alloc m k)
  end.

Definition cont_run (c : cont) : K (option cont) :=
  match c with
  | KSleep t => rt_thread_sleep_resumed t;; ret None
  | KDelayUntil t => rt_thread_delay_until_resumed t;; ret None
  | KSemTake t => rt_sem_take_resumed t;; ret None
  | KMutexTake t => rt_mutex_take_resumed t;; ret None
  | KEventRecv t => rt_event_recv_resumed t;; ret None
  | KMbSend m v w => pend (KMbSend m v) (rt_mb_send_wait_resumed m v w)
  | KMbRecv m w => pend (KMbRecv m) (rt_mb_recv_resumed m w)
  | KMqSend m b z w => pend (KMqSend m b z) (rt_mq_send_wait_resumed m b z w)
  | KMqRecv m b z w => pend (KMqRecv m b z) (rt_mq_recv_resumed m b z w)
  | KMpAlloc m w => pend (KMpAlloc m) (rt_mp_alloc_resumed m w)
  end.

(** * The transition relation *)

(** the kernel's state and the blocked calls by thread *)
Record system := { ks : kstate; conts : gmap Z cont }.

Definition set_cont (t : Z) (c : option cont) (cs : gmap Z cont) : gmap Z cont :=
  match c with
  | None => delete t cs
  | Some c => <[cont_thread c := c]> (delete t cs)
  end.

(** what an interrupt handler does between rt_interrupt_enter and
    rt_interrupt_leave *)
Definition in_interrupt (m : K unit) : K unit :=
  rt_interrupt_enter;; m;; rt_interrupt_leave.

Inductive step : system -> system -> Prop :=
  | step_call c s s' cs :
      cs !! rt_current_thread s = None ->
      call_run c s = Ok (tt, s') ->
      step {| ks := s; conts := cs |} {| ks := s'; conts := cs |}
  | step_blocking_call c k s s' cs :
      cs !! rt_current_thread s = None -> running_ok s ->
      blocking_run c s = Ok (k, s') ->
      step {| ks := s; conts := cs |}
           {| ks := s'; conts := set_cont (rt_current_thread s) k cs |}
  | step_resume c k s s' cs :
      cs !! rt_current_thread s = Some c -> running_ok s ->
      cont_run c s = Ok (k, s') ->
      step {| ks := s; conts := cs |}
           {| ks := s'; conts := set_cont (rt_current_thread s) k cs |}
  | step_interrupt c s s' cs :
      in_interrupt (call_run c) s = Ok (tt, s') ->
      step {| ks := s; conts := cs |} {| ks := s'; conts := cs |}
  | step_interrupt_nowait c s s' cs :
      running_ok s ->
      in_interrupt (let* k := blocking_run c in
        match k with None => ret tt | Some _ => raise WouldBlock end) s = Ok (tt, s') ->
      step {| ks := s; conts := cs |} {| ks := s'; conts := cs |}
  | step_tick_interrupt fuel s s' cs :
      in_interrupt (rt_tick_increase fuel) s = Ok (tt, s') ->
      step {| ks := s; conts := cs |} {| ks := s'; conts := cs |}
  | step_tick_hook now last fuel v s s' cs :
      tick_hook now last fuel s = Ok (v, s') ->
      step {| ks := s; conts := cs |} {| ks := s'; conts := cs |}.

Inductive reachable (s0 : kstate) : system -> Prop :=
  | reach_init : reachable s0 {| ks := s0; conts := ∅ |}
  | reach_step m m' : reachable s0 m -> step m m' -> reachable s0 m'.
End calls.

(** * Reachable states are well formed *)
Lemma run_pres {A} (m : K A) : preserves sched_ok m -> preserves sched_ok (run m).
Proof. intros. unfold run. pres. Qed.
#[export] Hint Resolve run_pres rt_thread_init_pres rt_thread_create_pres Nat2Z.is_nonneg : pres.

Lemma pend_inv {R W} (f : W -> cont) (m : K (outcome R W)) s k s' :
  pend f m s = Ok (k, s') -> exists o, m s = Ok (o, s').
Proof. intros Hm. unfold pend in Hm. minv Hm; eauto. Qed.

Section reachable.
Context `{UCO : UserCodeOk}.

Lemma call_run_pres c : preserves sched_ok (call_run c).
Proof using UCO. destruct c; cbn [call_run]; auto with pres. Qed.

Lemma blocking_run_pres c s k s' :
  sched_ok s -> running_ok s -> blocking_run c s = Ok (k, s') -> sched_ok s'.
Proof using UCO.
  intros Hok Hw. destruct c; cbn [blocking_run].
  1-3: match goal with |- ?m _ = _ -> _ =>
    intros Hm; assert (Hp : preserves sched_ok m) by
      (unfold pend, rt_thread_mdelay; pres); by eapply Hp end.
  all: intros [o Hm]%pend_inv.
  - by eapply rt_sem_take_pres.
  - by eapply rt_mutex_take_pres.
  - by eapply rt_event_recv_pres.
  - by eapply rt_mb_send_wait_pres.
  - by eapply rt_mb_recv_pres.
  - by eapply rt_mq_send_wait_pres.
  - by eapply rt_mq_recv_pres.
  - by eapply rt_mp_alloc_pres.
Qed.

Lemma cont_run_pres c s k s' :
  sched_ok s -> can_wait (cont_thread c) s -> cont_run c s = Ok (k, s') -> sched_ok s'.
Proof using UCO.
  intros Hok Hw. destruct c; cbn [cont_run cont_thread] in *.
  1-5: match goal with |- ?m _ = _ -> _ =>
    intros Hm; assert (Hp : preserves sched_ok m) by pres; by eapply Hp end.
  all: intros [o Hm]%pend_inv.
  - by eapply rt_mb_send_wait_resumed_pres.
  - by eapply rt_mb_recv_resumed_pres.
  - by eapply rt_mq_send_wait_resumed_pres.
  - by eapply rt_mq_recv_resumed_pres.
  - by eapply rt_mp_alloc_resumed_pres.
Qed.

Lemma in_interrupt_pres m : preserves sched_ok m -> preserves sched_ok (in_interrupt m).
Proof using. intros. unfold in_interrupt, rt_interrupt_enter, rt_interrupt_leave. pres. Qed.

Definition conts_ok (cs : gmap Z cont) : Prop :=
  forall t c, cs !! t = Some c -> cont_thread c = t.
Lemma set_cont_ok t k cs : conts_ok cs -> conts_ok (set_cont t k cs).
Proof using.
  intros Hcs u c. destruct k as [c'|]; cbn.
  - rewrite lookup_insert. case_decide; [by intros [= <-]|].
    intros [_ ?]%lookup_delete_Some. eauto.
  - intros [_ ?]%lookup_delete_Some. eauto.
Qed.

(** an interrupt that makes a call which must not block *)
Lemma interrupt_nowait_pres c s s' :
  sched_ok s -> running_ok s ->
  in_interrupt (let* k := blocking_run c in
    match k with None => ret tt | Some _ => raise WouldBlock end) s = Ok (tt, s') ->
  sched_ok s'.
Proof using UCO.
  intros Hok Hw Hm. unfold in_interrupt in Hm.
  apply bind_ok in Hm as (? & s1 & H1 & Hm). injection H1 as _ <-.
  apply bind_ok in Hm as (? & s2 & H2 & Hm). injection Hm as <-.
  apply bind_ok in H2 as ([k|] & s3 & H3 & H2); [done|]. injection H2 as _ <-.
  apply (blocking_run_pres c) in H3; [by eapply sched_ok_frame; [..|exact H3]| |done].
  by eapply sched_ok_frame; [..|exact Hok].
Qed.

Lemma step_ok m m' :
  step m m' -> sched_ok (ks m) /\ conts_ok (conts m) -> sched_ok (ks m') /\ conts_ok (conts m').
Proof using UCO.
  intros Hstep [Hok Hcs]. destruct Hstep; cbn [ks conts] in *.
  - split; [by eapply call_run_pres|done].
  - split; [by eapply blocking_run_pres|by apply set_cont_ok].
  - split; [|by apply set_cont_ok]. eapply cont_run_pres; [done| |done].
    by rewrite (Hcs _ _ H).
  - split; [|done]. eapply in_interrupt_pres; [apply call_run_pres|done..].
  - split; [by eapply interrupt_nowait_pres|done].
  - split; [|done]. eapply in_interrupt_pres; [apply rt_tick_increase_pres|done..].
  - split; [by eapply tick_hook_pres|done].
Qed.
End reachable.

