(* ===== verification/Typing.v ===== *)
(** The object store is well typed: the class in an object's header says which
    struct is behind it, the containers list exactly objects of their class, and
    no object is listed twice.  So a check of the class (assert_type), with
    which the operations on a handle begin, cannot let an access through that
    does not find its struct.  Every operation of the kernel preserves this, and
    so it holds in every reachable state of System. *)
From S2P Require Import Prelude RtList KService Mem CpuPort Kernel Sched Object Timer Thread.
From S2P Require Import Ipc Mutex Event Mailbox MsgQueue MemPool Idle System.

(** * The invariant *)
Definition class_of (ob : rt_object) : Z := u8 (Z.land (o_type ob) (Z.lnot RT_Object_Class_Static)).
(** the struct of class [c] at [o]; class 0 is a detached object *)
Definition has_struct (s : kstate) (c o : Z) : bool :=
  if c =? RT_Object_Class_Thread then bool_decide (is_Some (threads s !! o))
  else if c =? RT_Object_Class_Timer then bool_decide (is_Some (timers s !! o))
  else if c =? RT_Object_Class_Semaphore then bool_decide (is_Some (sems s !! o))
  else if c =? RT_Object_Class_Mutex then bool_decide (is_Some (mutexes s !! o))
  else if c =? RT_Object_Class_Event then bool_decide (is_Some (events s !! o))
  else if c =? RT_Object_Class_MailBox then bool_decide (is_Some (mailboxes s !! o))
  else if c =? RT_Object_Class_MessageQueue then bool_decide (is_Some (mqueues s !! o))
  else if c =? RT_Object_Class_MemPool then bool_decide (is_Some (mempools s !! o))
  else true.

(** [E] is an object that is being set up: its class is known, but its struct
    need not be there yet *)
Definition header_ok (E : option (Z * Z)) (s : kstate) (o : Z) (ob : rt_object) : Prop :=
  match E with
  | Some (x, c) => if decide (o = x) then class_of ob = c else has_struct s (class_of ob) o = true
  | None => has_struct s (class_of ob) o = true
  end.
Record typed_but (E : option (Z * Z)) (s : kstate) : Prop := {
  ty_header : forall o ob, objs s !! o = Some ob -> header_ok E s o ob;
  ty_listed : forall c o, o ∈ object_list s c -> exists ob, objs s !! o = Some ob /\ class_of ob = c;
  ty_once : forall c, NoDup (object_list s c);
}.
Abbreviation typed := (typed_but None).

(** * Frame lemmas *)
(** no struct goes away *)
Definition keeps (s s' : kstate) : Prop := forall c o, has_struct s c o = true -> has_struct s' c o = true.
Lemma header_keeps E s s' o ob : keeps s s' -> header_ok E s o ob -> header_ok E s' o ob.
Proof. intros Hk. unfold header_ok. destruct E as [[x c]|]; [case_decide; [done|]|]; apply Hk. Qed.
Lemma typed_frame E s s' : keeps s s' -> objs s' = objs s -> containers s' = containers s ->
  typed_but E s -> typed_but E s'.
Proof.
  intros Hk Eo Ec [H1 H2 H3]. unfold object_list in *. split; rewrite ?Eo; unfold object_list; rewrite ?Ec; [|done|done].
  intros o ob Hob. by eapply header_keeps; [|apply H1].
Qed.
(** a struct is written *)
Lemma keeps_insert {A} (f : gmap Z A) (o x : Z) (v : A) :
  bool_decide (is_Some (f !! o)) = true -> bool_decide (is_Some (<[x := v]> f !! o)) = true.
Proof. rewrite !bool_decide_eq_true, lookup_insert. by case_decide. Qed.
Ltac keeps := let c := fresh in let o := fresh in let H := fresh in
  intros c o H; unfold has_struct in *; cbn in *; repeat case_match; first [done | exact H | by apply keeps_insert].
Ltac typed_frame := lazymatch goal with
  |- typed_but _ ?s' => lazymatch goal with
    H : typed_but _ ?s |- _ => apply (typed_frame _ s s'); [keeps|reflexivity|reflexivity|exact H] end end.

Create HintDb typed discriminated.
#[export] Hint Resolve pres_ret pres_raise pres_get pres_gets pres_the pres_assert : typed.
#[export] Hint Extern 5 (preserves _ (modify _)) => apply pres_modify : typed.
#[export] Hint Extern 9 (forall s, typed_but _ s -> typed_but _ _) => intros ? ?; typed_frame : typed.
(** [typed] works on the goals [preserves (typed_but E) m]; where no lemma of
    the database fits it unfolds the operation *)
Ltac unfold_head :=
  lazymatch goal with |- preserves _ ?m =>
    let rec go t := lazymatch t with ?f _ => go f | _ => unfold t end in go m end.
Ltac typed := repeat (solve [auto with typed nocore] || pres1 || unfold_head); auto with typed.

(** a header changes, but not the class in it *)
Lemma upd_obj_typed E o f : (forall ob, class_of (f ob) = class_of ob) -> preserves (typed_but E) (upd_obj o f).
Proof.
  intros Hf s a s' [H1 H2 H3] Hm. minv Hm. split; cbn.
  - intros x ob'. rewrite lookup_insert. case_decide as Hx; [|intros Hob'].
    + intros [= <-]. subst. specialize (H1 _ _ Hthe). unfold header_ok in *. rewrite Hf. destruct E as [[y c]|]; [|done].
      by case_decide.
    + specialize (H1 _ _ Hob'). done.
  - intros c x Hx. destruct (H2 c x Hx) as (ob & Hob & Hc). rewrite lookup_insert. case_decide; [|by exists ob].
    subst. eexists. split; [done|]. rewrite Hf. congruence.
  - done.
Qed.
Lemma set_flag_class v ob : class_of (ob_set_flag v ob) = class_of ob.
Proof. done. Qed.
#[export] Hint Resolve upd_obj_typed set_flag_class : typed.
#[export] Hint Extern 1 (forall ob, class_of _ = class_of ob) => intros; apply set_flag_class : typed.

Lemma on_heap_typed {A} E (m : M heap A) : preserves (typed_but E) (on_heap m).
Proof. intros s a s' H. unfold on_heap. destruct (m (kheap s)) as [[b h]|]; intros [= <- <-]. typed_frame. Qed.
#[export] Hint Resolve @on_heap_typed : typed.

(** * The primitive operations *)
Lemma get_obj_typed E o : preserves (typed_but E) (get_obj o).
Proof. unfold get_obj. typed. Qed.
Lemma get_thread_typed E t : preserves (typed_but E) (get_thread t).
Proof. unfold get_thread. typed. Qed.
Lemma get_timer_typed E t : preserves (typed_but E) (get_timer t).
Proof. unfold get_timer. typed. Qed.
#[export] Hint Resolve get_obj_typed get_thread_typed get_timer_typed : typed.
Lemma upd_thread_typed E t f : preserves (typed_but E) (upd_thread t f).
Proof. unfold upd_thread. typed. Qed.
Lemma upd_timer_typed E t f : preserves (typed_but E) (upd_timer t f).
Proof. unfold upd_timer. typed. Qed.
Lemma queue_init_typed E h : preserves (typed_but E) (queue_init h).
Proof. unfold queue_init. typed. Qed.
Lemma queue_insert_tail_typed E h t : preserves (typed_but E) (queue_insert_tail h t).
Proof. unfold queue_insert_tail. typed. Qed.
Lemma queue_insert_head_typed E h t : preserves (typed_but E) (queue_insert_head h t).
Proof. unfold queue_insert_head. typed. Qed.
Lemma queue_insert_before_typed E h y t : preserves (typed_but E) (queue_insert_before h y t).
Proof. unfold queue_insert_before. typed. Qed.
Lemma tlist_remove_typed E t : preserves (typed_but E) (tlist_remove t).
Proof. unfold tlist_remove. typed. Qed.
Lemma tlist_init_typed E t : preserves (typed_but E) (tlist_init t).
Proof. unfold tlist_init. typed. Qed.
#[export] Hint Resolve upd_thread_typed upd_timer_typed queue_init_typed queue_insert_tail_typed
  queue_insert_head_typed queue_insert_before_typed tlist_remove_typed tlist_init_typed : typed.
Lemma interrupts_typed E : preserves (typed_but E) rt_interrupt_enter /\ preserves (typed_but E) rt_interrupt_leave /\
  preserves (typed_but E) RT_DEBUG_NOT_IN_INTERRUPT /\ preserves (typed_but E) RT_DEBUG_IN_THREAD_CONTEXT.
Proof.
  unfold RT_DEBUG_IN_THREAD_CONTEXT, RT_DEBUG_NOT_IN_INTERRUPT, rt_interrupt_get_nest, rt_interrupt_enter, rt_interrupt_leave.
  split_and!; typed.
Qed.
#[export] Hint Extern 1 (preserves _ rt_interrupt_enter) => apply interrupts_typed : typed.
#[export] Hint Extern 1 (preserves _ rt_interrupt_leave) => apply interrupts_typed : typed.
#[export] Hint Extern 1 (preserves _ RT_DEBUG_NOT_IN_INTERRUPT) => apply interrupts_typed : typed.
#[export] Hint Extern 1 (preserves _ RT_DEBUG_IN_THREAD_CONTEXT) => apply interrupts_typed : typed.

(** * Scheduler *)
Lemma rt_schedule_typed E : preserves (typed_but E) rt_schedule.
Proof. unfold rt_schedule, rt_interrupt_get_nest, rt_hw_context_switch_interrupt. typed. Qed.
#[export] Hint Resolve rt_schedule_typed : typed.
Lemma rt_schedule_insert_thread_typed E t : preserves (typed_but E) (rt_schedule_insert_thread t).
Proof. unfold rt_schedule_insert_thread. typed. Qed.
Lemma rt_schedule_remove_thread_typed E t : preserves (typed_but E) (rt_schedule_remove_thread t).
Proof. unfold rt_schedule_remove_thread. typed. Qed.
Lemma rt_enter_critical_typed E : preserves (typed_but E) rt_enter_critical.
Proof. unfold rt_enter_critical. typed. Qed.
Lemma rt_exit_critical_typed E : preserves (typed_but E) rt_exit_critical.
Proof. unfold rt_exit_critical. typed. Qed.
#[export] Hint Resolve rt_schedule_insert_thread_typed rt_schedule_remove_thread_typed rt_enter_critical_typed
  rt_exit_critical_typed : typed.

(** * Objects *)
(** from one invariant to another *)
Definition leads {S A} (I : S -> Prop) (m : M S A) (J : A -> S -> Prop) : Prop :=
  forall s a s', I s -> m s = Ok (a, s') -> J a s'.
Lemma leads_bind {S A B} (I : S -> Prop) (m : M S A) J (k : A -> M S B) L :
  leads I m J -> (forall a, leads (J a) (k a) L) -> leads I (bind m k) L.
Proof. intros Hm Hk s b s' HI Hb. apply bind_ok in Hb as (a & s1 & H1 & H2). eapply Hk; [|exact H2]. by eapply Hm. Qed.
Lemma leads_step {S A B} (I : S -> Prop) (m : M S A) (k : A -> M S B) L :
  preserves I m -> (forall a, leads I (k a) L) -> leads I (bind m k) L.
Proof. intros Hm. by apply leads_bind. Qed.
Lemma leads_pres {S A} (I : S -> Prop) (m : M S A) : preserves I m -> leads I m (fun _ => I).
Proof. done. Qed.
Lemma pres_leads {S A} (I : S -> Prop) (m : M S A) : leads I m (fun _ => I) -> preserves I m.
Proof. done. Qed.

Lemma olinked_listed o s c : o ∈ object_list s c -> olinked o s = true.
Proof.
  unfold olinked, object_list. intros Hin. apply bool_decide_eq_true. destruct (containers s !! c) as [l|] eqn:E; cbn in Hin.
  - by exists c, l.
  - by apply elem_of_nil in Hin.
Qed.
Lemma object_list_insert c x s o : object_list (set_containers (<[c := x :: object_list s c]>) s) o =
  if decide (o = c) then x :: object_list s c else object_list s o.
Proof. unfold object_list. cbn. rewrite lookup_insert. case_decide; case_decide; subst; done. Qed.

(** an object enters a container with its header *)
Lemma typed_enter E o c ob s :
  typed s -> olinked o s = false -> class_of ob = c -> E = Some (o, c) ->
  typed_but E (set_containers (<[c := o :: object_list s c]>) (set_objs (<[o := ob]>) s)).
Proof.
  intros [H1 H2 H3] Hl Hc ->. split.
  - intros x ob'. cbn. rewrite lookup_insert. unfold header_ok. case_decide as Hx.
    + subst x. intros [= <-]. by rewrite decide_True.
    + intros Hob. rewrite decide_False by done. exact (H1 _ _ Hob).
  - intros c' x. rewrite (object_list_insert c o (set_objs _ s)). change (object_list (set_objs _ s) ?d) with (object_list s d).
    cbn. rewrite lookup_insert. case_decide as Hd.
    + subst c'. intros [->|Hx]%elem_of_cons; [rewrite decide_True by done; by exists ob|].
      destruct (H2 _ _ Hx) as (ob' & Hob' & Hc'). case_decide; [subst; by apply olinked_listed in Hx; rewrite Hx in Hl|by exists ob'].
    + intros Hx. destruct (H2 _ _ Hx) as (ob' & Hob' & Hc'). case_decide; [subst; by apply olinked_listed in Hx; rewrite Hx in Hl|by exists ob'].
  - intros c'. rewrite (object_list_insert c o (set_objs _ s)). change (object_list (set_objs _ s) ?d) with (object_list s d).
    case_decide; [|done]. apply NoDup_cons. split; [|done]. intros Hx. apply olinked_listed in Hx. by rewrite Hx in Hl.
Qed.

Lemma rt_object_init_typed o type name : u8 (Z.land (Z.lor type RT_Object_Class_Static) (Z.lnot RT_Object_Class_Static)) = type ->
  leads typed (rt_object_init o type name) (fun _ => typed_but (Some (o, type))).
Proof.
  intros Hty. unfold rt_object_init. do 4 (apply leads_step; [typed|intros _]).
  intros s a s' H Hm. apply bind_ok in Hm as (? & s1 & [= _ <-] & Hm). unfold olist_insert_after in Hm.
  apply bind_ok in Hm as (? & ? & [= <- <-] & Hm). destruct (olinked _ _) eqn:El; [done|]. injection Hm as _ <-.
  by apply (typed_enter (Some (o, type)) o type _ s).
Qed.
Lemma rt_object_allocate_typed type name : u8 (Z.land type (Z.lnot RT_Object_Class_Static)) = type ->
  leads typed (rt_object_allocate type name)
    (fun o s => (o = RT_NULL -> typed s) /\ (o <> RT_NULL -> typed_but (Some (o, type)) s)).
Proof.
  intros Hty. unfold rt_object_allocate. apply leads_step; [typed|intros _].
  destruct (rt_object_get_information type) as [info|]; [|intros s a s' _; done].
  apply leads_step; [typed|intros o]. destruct (Z.eqb_spec o RT_NULL) as [->|Hne].
  { intros s a s' H [= <- <-]. done. }
  apply leads_step; [typed|intros _].
  intros s a s' H Hm. apply bind_ok in Hm as (? & s1 & [= _ <-] & Hm). apply bind_ok in Hm as (? & s2 & Hm & [= <- <-]).
  unfold olist_insert_after in Hm. apply bind_ok in Hm as (? & ? & [= <- <-] & Hm).
  destruct (olinked _ _) eqn:El; [done|]. injection Hm as _ <-. split; [done|]. intros _. by apply (typed_enter (Some (o, type)) o type _ s).
Qed.

(** an object leaves its container *)
Definition gone (o : Z) (s : kstate) : Prop := typed s /\ forall c, o ∉ object_list s c.
Lemma object_list_remove s o c : object_list (set_containers (fun cs => lremove o <$> cs) s) c = lremove o (object_list s c).
Proof. unfold object_list. cbn. rewrite lookup_fmap. by destruct (containers s !! c). Qed.
Lemma typed_leave E o ob s : (E = None \/ exists c, E = Some (o, c)) -> typed_but E s ->
  gone o (set_containers (fun cs => lremove o <$> cs) (set_objs (<[o := ob_set_type 0 ob]>) s)).
Proof.
  intros HE [H1 H2 H3]. split; [split|].
  - intros x ob'. cbn. rewrite lookup_insert. case_decide as Hx; [by intros [= <-]|]. intros Hob.
    specialize (H1 _ _ Hob). destruct HE as [->|[c ->]]; cbn in *; [exact H1|]. rewrite decide_False in H1 by done. exact H1.
  - intros c x. rewrite (object_list_remove (set_objs _ s)). intros [Hx Hne]%elem_of_lremove. cbn.
    rewrite lookup_insert_ne by done. by apply H2.
  - intros c. rewrite (object_list_remove (set_objs _ s)). apply NoDup_lremove, H3.
  - intros c. rewrite (object_list_remove (set_objs _ s)). intros [_ ?]%elem_of_lremove. done.
Qed.
Lemma rt_object_detach_typed o : preserves typed (rt_object_detach o).
Proof.
  unfold rt_object_detach. apply pres_bind; [typed|intros _]. intros s a s' H Hm.
  apply bind_ok in Hm as (? & s1 & H1 & [= _ <-]). minv H1. apply (typed_leave None); [by left|done].
Qed.
Lemma has_struct_forget o c x s s' : x <> o -> forget o s = Ok (tt, s') -> has_struct s' c x = has_struct s c x.
Proof.
  intros Hne. unfold forget. intros Hm. apply bind_ok in Hm as (? & ? & [= <- <-] & Hm). destruct (tlinked o s); [done|].
  injection Hm as <-. unfold has_struct. cbn. by rewrite !lookup_delete_ne by done.
Qed.
Lemma forget_typed o : leads (gone o) (forget o) (fun _ => typed).
Proof.
  intros s [] s' [[H1 H2 H3] Hg] Hm. pose proof (fun c x Hx => has_struct_forget o c x s s' Hx Hm) as Hs.
  unfold forget in Hm. apply bind_ok in Hm as (? & ? & [= <- <-] & Hm). destruct (tlinked o s); [done|].
  injection Hm as <-. split.
  - intros x ob Hob. cbn in Hob. apply lookup_delete_Some in Hob as [Hne Hob]. unfold header_ok. rewrite Hs by done.
    exact (H1 _ _ Hob).
  - intros c x Hx. assert (x <> o) by (intros ->; by eapply Hg). cbn. rewrite lookup_delete_ne by done. by apply H2.
  - exact H3.
Qed.
Lemma rt_object_delete_typed E o : (E = None \/ exists c, E = Some (o, c)) ->
  leads (typed_but E) (rt_object_delete o) (fun _ => typed).
Proof.
  intros HE. unfold rt_object_delete. do 2 (apply leads_step; [typed|intros _]).
  intros s a s' H Hm. apply bind_ok in Hm as (? & s1 & H1 & Hm).
  apply bind_ok in H1 as (ob & s0 & H1 & [= _ <-]). apply bind_ok in H1 as (? & ? & [= <- <-] & H1).
  assert (s0 = s) as -> by (destruct (objs s !! o); [by injection H1|done]).
  apply bind_ok in Hm as (? & s2 & [= _ <-] & Hm). apply bind_ok in Hm as (? & s3 & Hfree & Hm).
  eapply (forget_typed o); [|by destruct a].
  pose proof (typed_leave E o ob s HE H) as Hg. split; [by eapply on_heap_typed; [apply Hg|exact Hfree]|].
  unfold on_heap in Hfree. destruct (rt_free _ _) as [[? ?]|]; [|done]. injection Hfree as _ <-. apply Hg.
Qed.
Lemma rt_object_delete_pres_typed o : preserves typed (rt_object_delete o).
Proof. apply (rt_object_delete_typed None). by left. Qed.
#[export] Hint Resolve rt_object_detach_typed rt_object_delete_pres_typed : typed.
(** an object is set up: its struct is written *)
Definition fills {A} (o c : Z) (m : K A) : Prop := leads (typed_but (Some (o, c))) m (fun _ => typed).
Lemma typed_fill o c s s' : typed_but (Some (o, c)) s -> keeps s s' -> objs s' = objs s -> containers s' = containers s ->
  has_struct s' c o = true -> typed s'.
Proof.
  intros H Hk Eo Ec Hs. destruct (typed_frame _ _ _ Hk Eo Ec H) as [H1 H2 H3]. split; [|done|done].
  intros x ob Hob. specialize (H1 x ob Hob). unfold header_ok in *. case_decide as Hx; [|done]. subst. congruence.
Qed.
Ltac fill := intros s a s' H Hm; minv Hm; eapply typed_fill; [exact H|keeps|reflexivity|reflexivity|];
  unfold has_struct; cbn; apply bool_decide_eq_true; rewrite lookup_insert_eq; by eexists.
Lemma set_sem_fills o v : fills o RT_Object_Class_Semaphore (set_sem o v).
Proof. unfold fills, set_sem. fill. Qed.
Lemma put_mutex_fills o v : fills o RT_Object_Class_Mutex (put_mutex o v).
Proof. unfold fills, put_mutex. fill. Qed.
Lemma put_event_fills o v : fills o RT_Object_Class_Event (put_event o v).
Proof. unfold fills, put_event. fill. Qed.
Lemma put_mb_fills o v : fills o RT_Object_Class_MailBox (put_mb o v).
Proof. unfold fills, put_mb. fill. Qed.
Lemma put_mq_fills o v : fills o RT_Object_Class_MessageQueue (put_mq o v).
Proof. unfold fills, put_mq. fill. Qed.
Lemma put_mp_fills o v : fills o RT_Object_Class_MemPool (put_mp o v).
Proof. unfold fills, put_mp. fill. Qed.

Lemma leads_weaken {S A} (I I' : S -> Prop) (m : M S A) J : (forall s, I s -> I' s) -> leads I' m J -> leads I m J.
Proof. intros Hi Hl s a s' H. apply Hl. by apply Hi. Qed.
(** rt_object_init and rt_object_allocate, with what follows *)
Lemma init_typed {A} o type name (k : K A) :
  u8 (Z.land (Z.lor type RT_Object_Class_Static) (Z.lnot RT_Object_Class_Static)) = type ->
  leads (typed_but (Some (o, type))) k (fun _ => typed) -> preserves typed (rt_object_init o type name;; k).
Proof. intros Hty Hk. apply pres_leads. eapply leads_bind; [by apply rt_object_init_typed|]. by intros []. Qed.
Lemma create_typed {A} type name (r : Z -> A) (k : Z -> K A) :
  u8 (Z.land type (Z.lnot RT_Object_Class_Static)) = type ->
  (forall o, leads (typed_but (Some (o, type))) (k o) (fun _ => typed)) ->
  preserves typed (let* o := rt_object_allocate type name in if o =? RT_NULL then ret (r o) else k o).
Proof.
  intros Hty Hk. apply pres_leads. eapply leads_bind; [by apply rt_object_allocate_typed|]. intros o. cbv beta.
  destruct (Z.eqb_spec o RT_NULL) as [->|Hne].
  - intros s a s' [H _] [= <- <-]. by apply H.
  - eapply leads_weaken; [|apply Hk]. intros s [_ H]. by apply H.
Qed.
(** the steps up to the one that writes the struct, and after it *)
Ltac leads f :=
  cbv zeta; lazymatch goal with
  | |- leads typed _ _ => apply leads_pres; typed
  | |- leads _ (bind _ _) _ =>
      first [eapply leads_bind; [apply f|intros ?; cbv beta; leads f] | apply leads_step; [solve [typed]|intros ?; leads f]]
  | |- leads _ (if ?b then _ else _) _ => destruct b; [eapply leads_bind; [apply rt_object_delete_typed; right; by eexists|intros ?; cbv beta; leads f]|leads f]
  | |- leads _ _ _ => apply f
  end.

(** * Timers *)
Lemma find_loop_typed E name l : preserves (typed_but E) (find_loop name l).
Proof. induction l; cbn [find_loop]; typed. Qed.
Lemma timer_position_typed E timeout l : preserves (typed_but E) (timer_position timeout l).
Proof. induction l; cbn [timer_position]; typed. Qed.
#[export] Hint Resolve find_loop_typed timer_position_typed : typed.
Lemma assert_type_typed E o c : preserves (typed_but E) (assert_type o c).
Proof. typed. Qed.
#[export] Hint Resolve assert_type_typed : typed.
Lemma rt_timer_init_fills timer timeout param time flag :
  fills timer RT_Object_Class_Timer (_rt_timer_init timer timeout param time flag).
Proof.
  unfold fills, _rt_timer_init. do 2 (apply leads_step; [typed|intros _]).
  eapply (leads_bind _ _ (fun _ => typed)); [fill|intros _]. apply leads_pres. typed.
Qed.
Lemma rt_timer_init_typed timer name timeout param time flag : preserves typed (rt_timer_init timer name timeout param time flag).
Proof. unfold rt_timer_init. apply pres_bind; [typed|intros _]. apply init_typed; [done|]. apply rt_timer_init_fills. Qed.
Lemma rt_timer_create_typed name timeout param time flag : preserves typed (rt_timer_create name timeout param time flag).
Proof. unfold rt_timer_create. apply create_typed; [done|]. intros o. leads rt_timer_init_fills. Qed.
Lemma rt_timer_detach_typed timer : preserves typed (rt_timer_detach timer).
Proof. typed. Qed.
Lemma rt_timer_start_typed timer : preserves typed (rt_timer_start timer).
Proof. typed. Qed.
Lemma rt_timer_stop_typed timer : preserves typed (rt_timer_stop timer).
Proof. typed. Qed.
#[export] Hint Resolve rt_timer_init_typed rt_timer_create_typed rt_timer_detach_typed rt_timer_start_typed
  rt_timer_stop_typed : typed.

(** application code keeps the object store well typed *)
Class UserCodeTyped (UC : UserCode) : Prop := {
  user_timeout_typed : forall addr param, preserves typed (user_timeout addr param);
  user_cleanup_typed : forall addr thread, preserves typed (user_cleanup addr thread);
}.
#[export] Hint Resolve user_timeout_typed user_cleanup_typed : typed.

(** * Threads *)
Lemma rt_thread_suspend_typed thread : preserves typed (rt_thread_suspend thread).
Proof. typed. Qed.
Lemma rt_thread_resume_typed thread : preserves typed (rt_thread_resume thread).
Proof. typed. Qed.
#[export] Hint Resolve rt_thread_suspend_typed rt_thread_resume_typed : typed.
Lemma rt_timer_control_typed timer cmd arg : preserves typed (rt_timer_control timer cmd arg).
Proof. typed. Qed.
#[export] Hint Resolve rt_timer_control_typed : typed.

Section threads.
Context `{UCT : UserCodeTyped}.
Lemma rt_thread_control_typed thread cmd arg : preserves typed (rt_thread_control thread cmd arg).
Proof using UCT. typed. Qed.
#[local] Hint Resolve rt_thread_control_typed : typed.
Lemma timer_check_loop_typed fuel tick : preserves typed (timer_check_loop fuel tick).
Proof using UCT. revert tick. induction fuel; intros; cbn [timer_check_loop]; typed. Qed.
#[local] Hint Resolve timer_check_loop_typed : typed.
Lemma rt_tick_increase_typed fuel : preserves typed (rt_tick_increase fuel).
Proof using UCT. typed. Qed.
Lemma thread_fill thread (f : kstate -> rt_thread) :
  fills thread RT_Object_Class_Thread (modify (fun s => set_threads (<[thread := f s]>) s)).
Proof using UCT. unfold fills. fill. Qed.
Lemma rt_thread_init_fills thread entry param st sz priority tick :
  fills thread RT_Object_Class_Thread (_rt_thread_init thread entry param st sz priority tick).
Proof using UCT.
  unfold fills, _rt_thread_init. do 4 (apply leads_step; [typed|intros ?]).
  eapply leads_bind; [exact (thread_fill thread _)|intros ?]. apply leads_pres. typed.
Qed.
Lemma rt_thread_init_typed thread name entry param st sz priority tick :
  preserves typed (rt_thread_init thread name entry param st sz priority tick).
Proof using UCT.
  unfold rt_thread_init. do 2 (apply pres_bind; [typed|intros _]). apply init_typed; [done|]. apply rt_thread_init_fills.
Qed.
Lemma rt_thread_create_typed name entry param sz priority tick :
  preserves typed (rt_thread_create name entry param sz priority tick).
Proof using UCT. unfold rt_thread_create. apply create_typed; [done|]. intros o. leads rt_thread_init_fills. Qed.
End threads.

(** * IPC *)
Lemma prio_position_typed prio l : preserves typed (prio_position prio l).
Proof. induction l; cbn [prio_position]; typed. Qed.
#[export] Hint Resolve prio_position_typed : typed.
Lemma rt_ipc_list_suspend_typed list thread flag : preserves typed (rt_ipc_list_suspend list thread flag).
Proof. typed. Qed.
Lemma rt_ipc_list_resume_typed list : preserves typed (rt_ipc_list_resume list).
Proof. typed. Qed.
#[export] Hint Resolve rt_ipc_list_suspend_typed rt_ipc_list_resume_typed : typed.
Lemma resume_all_loop_typed fuel list : preserves typed (resume_all_loop fuel list).
Proof. induction fuel; cbn [resume_all_loop]; typed. Qed.
#[export] Hint Resolve resume_all_loop_typed : typed.
Lemma rt_ipc_list_resume_all_typed list : preserves typed (rt_ipc_list_resume_all list).
Proof. typed. Qed.
#[export] Hint Resolve rt_ipc_list_resume_all_typed : typed.
Lemma block_on_typed list thread flag timeout d : preserves typed (block_on list thread flag timeout d).
Proof. typed. Qed.
Lemma wake_up_typed w : preserves typed (wake_up w).
Proof. typed. Qed.
#[export] Hint Resolve block_on_typed wake_up_typed : typed.

Lemma rt_sem_init_typed sem name value flag : preserves typed (rt_sem_init sem name value flag).
Proof. unfold rt_sem_init. do 2 (apply pres_bind; [typed|intros _]). apply init_typed; [done|]. leads set_sem_fills. Qed.
Lemma rt_sem_create_typed name value flag : preserves typed (rt_sem_create name value flag).
Proof. unfold rt_sem_create. do 2 (apply pres_bind; [typed|intros _]). apply create_typed; [done|]. intros o. leads set_sem_fills. Qed.
Lemma rt_mutex_init_typed mutex name flag : preserves typed (rt_mutex_init mutex name flag).
Proof. unfold rt_mutex_init. apply pres_bind; [typed|intros _]. apply init_typed; [done|]. leads put_mutex_fills. Qed.
Lemma rt_mutex_create_typed name flag : preserves typed (rt_mutex_create name flag).
Proof. unfold rt_mutex_create. apply pres_bind; [typed|intros _]. apply create_typed; [done|]. intros o. leads put_mutex_fills. Qed.
Lemma rt_event_init_typed event name flag : preserves typed (rt_event_init event name flag).
Proof. unfold rt_event_init. apply pres_bind; [typed|intros _]. apply init_typed; [done|]. leads put_event_fills. Qed.
Lemma rt_event_create_typed name flag : preserves typed (rt_event_create name flag).
Proof. unfold rt_event_create. apply pres_bind; [typed|intros _]. apply create_typed; [done|]. intros o. leads put_event_fills. Qed.
Lemma rt_mb_init_typed mb name pool size flag : preserves typed (rt_mb_init mb name pool size flag).
Proof. unfold rt_mb_init. apply pres_bind; [typed|intros _]. apply init_typed; [done|]. leads put_mb_fills. Qed.
Lemma rt_mb_create_typed name size flag : preserves typed (rt_mb_create name size flag).
Proof. unfold rt_mb_create. apply pres_bind; [typed|intros _]. apply create_typed; [done|]. intros o. leads put_mb_fills. Qed.

Lemma mq_link_slots_typed E pool slot n temp free : preserves (typed_but E) (mq_link_slots pool slot n temp free).
Proof. revert temp free. induction n; intros; cbn [mq_link_slots]; typed. Qed.
Lemma mp_link_blocks_typed E p stride n offset : preserves (typed_but E) (mp_link_blocks p stride n offset).
Proof. revert offset. induction n; intros; cbn [mp_link_blocks]; typed. Qed.
#[export] Hint Resolve mq_link_slots_typed mp_link_blocks_typed : typed.
Lemma mq_setup_fills mq pool size max : fills mq RT_Object_Class_MessageQueue (mq_setup mq pool size max).
Proof. unfold fills, mq_setup. leads put_mq_fills. Qed.
Lemma rt_mq_init_typed mq name pool size psize flag : preserves typed (rt_mq_init mq name pool size psize flag).
Proof. unfold rt_mq_init. apply pres_bind; [typed|intros _]. apply init_typed; [done|]. leads mq_setup_fills. Qed.
Lemma rt_mq_create_typed name size max flag : preserves typed (rt_mq_create name size max flag).
Proof. unfold rt_mq_create. apply pres_bind; [typed|intros _]. apply create_typed; [done|]. intros o. leads mq_setup_fills. Qed.
Lemma mp_setup_fills mp start size bsize total : fills mp RT_Object_Class_MemPool (mp_setup mp start size bsize total).
Proof. unfold fills, mp_setup. leads put_mp_fills. Qed.
Lemma rt_mp_init_typed mp name start size bsize : preserves typed (rt_mp_init mp name start size bsize).
Proof.
  unfold rt_mp_init. apply pres_bind; [typed|intros _]. destruct name as [name|]; [|typed].
  do 2 (apply pres_bind; [typed|intros _]). apply init_typed; [done|]. leads mp_setup_fills.
Qed.
Lemma rt_mp_create_typed name count bsize : preserves typed (rt_mp_create name count bsize).
Proof.
  unfold rt_mp_create. apply pres_bind; [typed|intros _]. destruct name as [name|]; [|typed].
  apply pres_bind; [typed|intros _]. apply create_typed; [done|]. intros o. leads mp_setup_fills.
Qed.
#[export] Hint Resolve rt_sem_init_typed rt_sem_create_typed rt_mutex_init_typed rt_mutex_create_typed
  rt_event_init_typed rt_event_create_typed rt_mb_init_typed rt_mb_create_typed rt_mq_init_typed rt_mq_create_typed
  rt_mp_init_typed rt_mp_create_typed : typed.
Lemma event_send_loop_typed event waiters need : preserves typed (event_send_loop event waiters need).
Proof. revert need. induction waiters; intros; cbn [event_send_loop]; typed. Qed.
Lemma mq_release_all_typed fuel mq : preserves typed (mq_release_all fuel mq).
Proof. induction fuel; cbn [mq_release_all]; typed. Qed.
Lemma idle_loop_typed fuel : preserves typed (idle_loop fuel).
Proof. induction fuel; cbn [idle_loop]; typed. Qed.
#[export] Hint Resolve event_send_loop_typed mq_release_all_typed idle_loop_typed : typed.

(** * The whole kernel *)
Section system.
Context `{UCT : UserCodeTyped}.
#[local] Hint Resolve rt_thread_control_typed rt_tick_increase_typed rt_thread_init_typed rt_thread_create_typed : typed.
Lemma call_run_typed c : preserves typed (call_run c).
Proof using UCT. destruct c; cbn [call_run]; typed. Qed.
Lemma blocking_run_typed c : preserves typed (blocking_run c).
Proof using UCT. destruct c; cbn [blocking_run]; typed. Qed.
Lemma cont_run_typed c : preserves typed (cont_run c).
Proof using UCT. destruct c; cbn [cont_run]; typed. Qed.
#[local] Hint Resolve call_run_typed blocking_run_typed cont_run_typed : typed.
Lemma tick_hook_typed now last fuel : preserves typed (tick_hook now last fuel).
Proof using UCT.
  assert (Hl : forall n, preserves typed (tick_loop n fuel)) by (induction n; cbn [tick_loop]; typed).
  unfold tick_hook. pose proof (Hl (Z.to_nat 0)). typed.
Qed.
Lemma step_typed m m' : step m m' -> typed (ks m) -> typed (ks m').
Proof using UCT.
  intros Hs H. destruct Hs; cbn [ks] in *.
  - by eapply call_run_typed.
  - by eapply blocking_run_typed.
  - by eapply cont_run_typed.
  - match goal with Hm : ?m _ = _ |- _ => assert (Hp : preserves typed m) by typed; by eapply Hp end.
  - match goal with Hm : ?m _ = _ |- _ => assert (Hp : preserves typed m) by typed; by eapply Hp end.
  - match goal with Hm : ?m _ = _ |- _ => assert (Hp : preserves typed m) by typed; by eapply Hp end.
  - by eapply tick_hook_typed.
Qed.

(** the check at the beginning of an operation *)
Lemma assert_type_sound s o c s' : typed s -> assert_type o c s = Ok (tt, s') -> s' = s /\ has_struct s c o = true.
Proof using.
  intros [H _ _] Hm. minv Hm. match goal with E : (_ =? c) = true |- _ => apply Z.eqb_eq in E as <- end. split; [done|]. by apply (H _ _ Hthe).
Qed.

End system.
