(* ===== verification/ListCmdSpec.v ===== *)
(** What the list commands print: a table with one row for each object of the
    class, in the order of its container. *)
From Stdlib Require Import String Ascii.
From S2P Require Import Prelude RtList KService Mem Heap KString KPrintf KPrintfSpec CpuPort Kernel Sched Object Timer Thread Ipc Mutex Event Mailbox MsgQueue MemPool Idle System Typing MemHeap ListCmd.

(** * Texts of formats *)
(** [render] is the relation that KPrintfSpec proves of rt_vsnprintf *)
Lemma render_formats fuel : forall l args out, render fuel l args = Some out -> formats l args out.
Proof.
  induction fuel as [|fuel IH]; intros l args out Hr; (destruct l as [|c l]; [injection Hr as <-; constructor|]); [done|]. cbn [render] in Hr.
  destruct (Z.eqb_spec c 37) as [->|Hc].
  - destruct (spec_directive l args) as [[[t l'] args']|] eqn:E; [|done]. apply fmap_Some in Hr as (r & Hr & ->).
    econstructor; [exact E|by apply IH].
  - apply fmap_Some in Hr as (r & Hr & ->). constructor; [done|by apply IH].
Qed.
Lemma render_directive fuel l args t l' args' r : spec_directive l args = Some (t, l', args') -> render fuel l' args' = Some r ->
  render (S fuel) (37 :: l) args = Some (t ++ r).
Proof. intros H1 H2. cbn [render]. change (37 =? 37) with true. by rewrite H1, H2. Qed.
Lemma render_char fuel c l args r : (c =? 37) = false -> render fuel l args = Some r -> render (S fuel) (c :: l) args = Some (c :: r).
Proof. intros H1 H2. cbn [render]. by rewrite H1, H2. Qed.
(** the fields that are printed stay as they are *)
Ltac directive := cbv -[string_text number_text get_number char_text queue length Z.of_nat until_nul o_name sem_value ev_set mb_entry mb_size
  mq_entry block_size block_total_count block_free_count tm_init_tick timeout_tick rt_tick
  current_priority stack_size stack_addr sp remaining_tick error hold pool_size max_used_size available_size owner mem_size_aligned used_mem max_mem]; reflexivity.
Ltac render_steps := lazymatch goal with
  | |- render ?f [] _ = _ => destruct f; reflexivity
  | |- render _ (37 :: _) _ = _ => eapply render_directive; [directive|render_steps]
  | |- render _ (_ :: _) _ = _ => eapply render_char; [reflexivity|render_steps]
  end.
(** [render] evaluates the text of a constant format *)
Ltac render := lazymatch goal with |- render (S ?n) ?f ?a = ?t =>
  let f' := eval vm_compute in f in let n' := eval vm_compute in n in change (render (S n') f' a = t); render_steps end.

(** [m] prints [t] *)
Definition says {A} (m : L A) (k : mstate) (a : A) (t : list Z) : Prop :=
  forall o, m {| lk := k; out := o |} = Ok (a, {| lk := k; out := o ++ t |}).
Lemma says_ret {A} (a : A) k : says (ret a) k a [].
Proof. intros o. unfold ret. by rewrite app_nil_r. Qed.
Lemma says_bind {A C} (m : L A) (f : A -> L C) k a c t u : says m k a t -> says (f a) k c u -> says (bind m f) k c (t ++ u).
Proof. intros H1 H2 o. rewrite (bind_run _ _ _ _ _ (H1 o)), app_assoc. apply H2. Qed.
Lemma says_end {A C} (m : L A) (c : C) k a t : says m k a t -> says (bind m (fun _ => ret c)) k c t.
Proof. intros H o. by rewrite (bind_run _ _ _ _ _ (H o)). Qed.
(** a part that reads the state *)
Lemma says_read {A C} (m : L A) (f : A -> L C) k a c u : says m k a [] -> says (f a) k c u -> says (bind m f) k c u.
Proof. intros H1 H2. by apply (says_bind _ _ _ _ _ [] u H1). Qed.
Lemma says_get {C} (f : lstate -> L C) k c u : (forall o, says (f {| lk := k; out := o |}) k c u) -> says (bind get f) k c u.
Proof. intros H o. exact (H o o). Qed.
Lemma says_kprintf fmt args k t : render (S (length fmt)) fmt args = Some t -> says (kprintf fmt args) k tt (take 254 t).
Proof. intros H o. unfold kprintf. by rewrite H. Qed.
Lemma says_on_k {A} (m : K A) k a : m (ks k) = Ok (a, ks k) -> says (on_k m) k a [].
Proof. intros H o. unfold on_k, on_system, on_kernel. cbn [lk out]. rewrite H, app_nil_r. by destruct k. Qed.

(** * The walk *)
Lemma get_next_loop_short rest nr : forall k a, k + Z.of_nat (length rest) < nr -> get_next_loop rest nr k a = (RT_NULL, a ++ rest).
Proof.
  induction rest as [|x rest IH]; intros k a H; cbn [get_next_loop length] in *; [by rewrite app_nil_r|].
  rewrite (proj2 (Z.eqb_neq _ _)), IH by lia. by rewrite <- app_assoc.
Qed.
Lemma get_next_loop_full now x rest nr : forall k a, k + Z.of_nat (length now) + 1 = nr ->
  get_next_loop (now ++ x :: rest) nr k a = (x, a ++ now ++ [x]).
Proof.
  induction now as [|y now IH]; intros k a H; cbn [get_next_loop length app] in *.
  - by rewrite (proj2 (Z.eqb_eq _ _)) by lia.
  - rewrite (proj2 (Z.eqb_neq _ _)), IH by lia. by rewrite <- app_assoc.
Qed.
Lemma after_app pre x l : x ∉ pre -> after x (pre ++ x :: l) = Some l.
Proof.
  induction pre as [|y pre IH]; intros H; cbn [after app]; [by rewrite Z.eqb_refl|]. apply not_elem_of_cons in H as [H1 H2].
  destruct (Z.eqb_spec y x) as [->|]; [done|by apply IH].
Qed.
(** the objects of class [type] that are listed now *)
Definition listed (k : mstate) (type : Z) : list Z := object_list (ks k) type.
(** the container holds objects of the class, each of them once *)
Record class_ok (k : mstate) (type : Z) : Prop := {
  co_type : type <> 0;
  co_once : NoDup (listed k type);
  co_class : forall p, p ∈ listed k type -> p <> RT_NULL /\ exists ob, objs (ks k) !! p = Some ob /\ class_of ob = type;
}.
Definition find_arg (type : Z) : list_get_next_t := {| find_list := type; find_type := type; find_nr := LIST_FIND_OBJ_NR |}.
(** the next eight objects, or fewer at the end *)
Lemma list_get_next_says k type pre rest next : class_ok k type -> listed k type = pre ++ rest ->
  next = default RT_NULL (last pre) ->
  says (list_get_next next (find_arg type)) k (get_next_loop rest LIST_FIND_OBJ_NR 0 []) [].
Proof.
  intros [C1 C2 C3] Hl -> o. unfold list_get_next. cbn [find_nr find_type find_list find_arg]. change (LIST_FIND_OBJ_NR =? 0) with false.
  rewrite (proj2 (Z.eqb_neq _ _) C1). cbn [orb]. rewrite app_nil_r. destruct pre as [|x pre _] using rev_ind.
  - change (default RT_NULL (last []) =? RT_NULL) with true. cbv iota. unfold bind, get, ret. cbn [lk]. unfold listed in Hl. by rewrite Hl.
  - rewrite last_snoc. change (default RT_NULL (Some x)) with x. destruct (C3 x) as (Hx & ob & Hob & Hc); [rewrite Hl; set_solver|].
    assert (Hpre : x ∉ pre). { rewrite Hl, <- app_assoc in C2. apply NoDup_app in C2 as (_ & C2 & _). intros Hin. apply (C2 x Hin). by left. }
    rewrite (proj2 (Z.eqb_neq _ _) Hx). unfold obj_class, bind, get, on_k, on_system, on_kernel, get_obj, the, ret. cbn [lk out]. unfold bind, get, the, ret. rewrite Hob. cbn [set_ks ks].
    unfold class_of in Hc. rewrite Hc, Z.eqb_refl. cbn [negb lk ks set_ks]. unfold listed in Hl. rewrite Hl, <- app_assoc. cbn [app].
    rewrite after_app by done. by destruct k.
Qed.
Lemma for_each_says {A} (f : A -> L unit) k t l : (forall x, x ∈ l -> says (f x) k tt (t x)) -> says (for_each f l) k tt (concat (t <$> l)).
Proof.
  induction l as [|x l IH]; intros H; cbn [for_each fmap list_fmap concat]; [apply says_ret|].
  eapply says_bind; [apply H; by left|]. apply IH. intros y Hy. apply H. by right.
Qed.
Lemma show_object_says k type show p t : class_ok k type -> p ∈ listed k type -> says (show p) k tt t -> says (show_object type show p) k tt t.
Proof.
  intros [_ _ C] Hp Hs. destruct (C p Hp) as (_ & ob & Hob & Hc). eapply says_read.
  - eapply says_read; [apply says_on_k; unfold get_obj, bind, get, the, ret; by rewrite Hob|]. unfold class_of in Hc. rewrite Hc. apply says_ret.
  - by rewrite Z.eqb_refl.
Qed.
Lemma list_loop_says k type show t : class_ok k type -> (forall p, p ∈ listed k type -> says (show p) k tt (t p)) ->
  forall fuel pre rest next, listed k type = pre ++ rest -> next = default RT_NULL (last pre) -> (length rest < fuel)%nat ->
  says (list_loop fuel (find_arg type) show next) k tt (concat (t <$> rest)).
Proof.
  intros Hc Hshow. induction fuel as [|fuel IH]; intros pre rest next Hl Hnext Hf; [lia|]. cbn [list_loop].
  eapply says_read; [by eapply list_get_next_says|]. destruct (decide (Z.of_nat (length rest) < LIST_FIND_OBJ_NR)) as [Hshort|Hlong].
  - rewrite get_next_loop_short by lia. cbn [fst snd app negb Z.eqb RT_NULL when]. rewrite <- (app_nil_r (concat _)).
    eapply says_bind; [|apply says_ret]. apply for_each_says. intros p Hp. assert (p ∈ listed k type) by (rewrite Hl; set_solver). apply show_object_says; auto.
  - destruct (nth_lookup_or_length rest 7 0) as [Hx|]; [|unfold LIST_FIND_OBJ_NR in Hlong; lia]. set (x := nth 7 rest 0) in *.
    pose proof (take_drop_middle _ _ _ Hx) as Hsplit. unfold LIST_FIND_OBJ_NR in Hlong. assert (H7 : length (take 7 rest) = 7%nat) by (rewrite length_take; lia).
    set (now := take 7 rest) in *. set (later := drop 8 rest) in *. rewrite <- Hsplit in Hl, Hf |- *.
    rewrite get_next_loop_full by (unfold LIST_FIND_OBJ_NR; lia). cbn [fst snd app].
    assert (Hx0 : x <> RT_NULL) by (apply (co_class _ _ Hc); rewrite Hl; set_solver). rewrite (proj2 (Z.eqb_neq _ _) Hx0). cbn [negb when].
    replace (now ++ x :: later) with ((now ++ [x]) ++ later) by (by rewrite <- app_assoc). rewrite (fmap_app t (now ++ [x])), concat_app. eapply says_bind.
    + apply for_each_says. intros p Hp. assert (p ∈ listed k type) by (rewrite Hl; set_solver). apply show_object_says; auto.
    + eapply (IH (pre ++ now ++ [x])); [by rewrite Hl, <- !app_assoc|by rewrite app_assoc, last_snoc|]. rewrite length_app in Hf. cbn in Hf. lia.
Qed.
Lemma list_objects_says k type head show h t : class_ok k type -> is_Some (rt_object_get_information type) -> says head k tt h ->
  (forall p, p ∈ listed k type -> says (show p) k tt (t p)) ->
  says (list_objects type head show) k tt (h ++ concat (t <$> listed k type)).
Proof.
  intros Hc [[c z] Hi] Hh Hs. unfold list_objects, list_find_init. rewrite Hi.
  assert (c = type) as -> by (apply List.find_some in Hi as [_ Hi]; apply Z.eqb_eq in Hi; exact Hi).
  eapply says_read; [eapply says_read; [apply says_ret|apply says_ret]|]. eapply says_bind; [exact Hh|].
  apply says_get. intros o. eapply (list_loop_says k type show t Hc Hs _ []); [done|done|]. cbn [lk]. unfold listed. lia.
Qed.
Lemma object_split_says n k : says (object_split n) k tt (replicate n 45).
Proof.
  induction n as [|n IH]; cbn [object_split replicate]; [apply says_ret|]. apply (says_bind _ _ _ tt _ [45]); [|exact IH].
  apply (says_kprintf (text_of "-") [] k [45]). reflexivity.
Qed.

(** * Tables *)
(** a name in eight columns; a number with leading zeros; hexadecimal *)
Definition name_column (ob : rt_object) : list Z := string_text RT_NAME_MAX RT_NAME_MAX LEFT (until_nul (o_name ob)).
Definition dec (v : Z) : list Z := number_text (get_number 0 SIGN v) 10 (-1) (-1) SIGN.
Definition dec0 (w v : Z) : list Z := number_text (get_number 0 (Z.lor ZEROPAD SIGN) v) 10 w (-1) (Z.lor ZEROPAD SIGN).
(** with leading blanks, and on the left *)
Definition decs (w v : Z) : list Z := number_text (get_number 0 SIGN v) 10 w (-1) SIGN.
Definition decl (w v : Z) : list Z := number_text (get_number 0 (Z.lor (Z.lor LEFT ZEROPAD) SIGN) v) 10 w (-1) (Z.lor (Z.lor LEFT ZEROPAD) SIGN).
Definition hex8 (v : Z) : list Z := number_text (get_number 0 ZEROPAD v) 16 8 (-1) ZEROPAD.
Definition blank : list Z := [32].
(** names joined by '/' *)
Fixpoint waiters (k : mstate) (l : list Z) : list Z :=
  match l with
  | [] => []
  | t :: l =>
      (match objs (ks k) !! t with Some ob => take 254 (until_nul (o_name ob)) | None => [] end) ++
      (if bool_decide (l = []) then [] else [47]) ++ waiters k l
  end.
(** the name of each waiting thread ends within its array *)
Definition named (k : mstate) (l : list Z) : Prop := forall t, t ∈ l -> exists ob, objs (ks k) !! t = Some ob /\ existsb (Z.eqb 0) (o_name ob) = true.
(** one row: with the names of the waiting threads, if there are any *)
Definition row (k : mstate) (h : qhead) (busy free : list Z) : list Z :=
  if bool_decide (queue (ks k) h = []) then take 254 free else take 254 busy ++ waiters k (queue (ks k) h) ++ [10].

Lemma obj_name_says p ob k : objs (ks k) !! p = Some ob -> says (obj_name p) k (AStr p (until_nul (o_name ob))) [].
Proof.
  intros H. eapply says_read; [apply says_on_k; unfold get_obj, bind, get, the, ret; by rewrite H|]. apply says_ret.
Qed.
Lemma string_text_plain text : string_text (-1) (-1) 0 text = text.
Proof.
  unfold string_text, cut. change (-1 <? 0) with true. change (0 <? -1) with false. change (has 0 LEFT) with false. cbv iota zeta.
  unfold spaces. by replace (Z.to_nat (-1 - Z.of_nat (length text))) with 0%nat by lia.
Qed.
Lemma show_wait_queue_says k l : named k l -> says (show_wait_queue l) k tt (waiters k l).
Proof.
  induction l as [|t l IH]; intros Hn; cbn [show_wait_queue waiters]; [apply says_ret|]. destruct (Hn t) as (ob & Hob & Hz); [by left|]. rewrite Hob.
  eapply says_read.
  { eapply says_read; [apply says_on_k; unfold get_obj, bind, get, the, ret; by rewrite Hob|]. rewrite Hz. apply says_ret. }
  eapply says_bind; [|eapply says_bind; [|apply IH; intros x Hx; apply Hn; by right]].
  - apply says_kprintf. etransitivity; [render|]. by rewrite string_text_plain, app_nil_r.
  - case_bool_decide as H; cbn [negb when]; [apply says_ret|]. apply (says_kprintf (text_of "/") [] k [47]). reflexivity.
Qed.
Lemma show_waiters_says k h busy free args tb tf : named k (queue (ks k) h) ->
  (queue (ks k) h <> [] -> render (S (length busy)) busy (args (queue (ks k) h)) = Some tb) ->
  (queue (ks k) h = [] -> render (S (length free)) free (args (queue (ks k) h)) = Some tf) ->
  says (show_waiters h busy free args) k tt (row k h tb tf).
Proof.
  intros Hn Hb Hf. unfold show_waiters, suspended, row.
  eapply (says_read _ _ _ (queue (ks k) h)); [apply says_get; intros o; apply says_ret|].
  case_bool_decide as H; cbn [negb]; [by apply says_kprintf, Hf|]. eapply says_bind; [by apply says_kprintf, Hb|].
  eapply says_bind; [by apply show_wait_queue_says|]. apply (says_kprintf [10] [] k [10]). reflexivity.
Qed.

Definition waiting (k : mstate) (p : Z) : list Z := dec (Z.of_nat (length (queue (ks k) (QSuspend p)))).
Definition sem_row (k : mstate) (p : Z) : list Z :=
  match sems (ks k) !! p, objs (ks k) !! p with
  | Some v, Some ob =>
      let pre := name_column ob ++ blank ++ dec0 3 (sem_value v) ++ blank ++ waiting k p in
      row k (QSuspend p) (pre ++ [58]) (pre ++ [10])
  | _, _ => []
  end.
Definition event_row (k : mstate) (p : Z) : list Z :=
  match events (ks k) !! p, objs (ks k) !! p with
  | Some e, Some ob =>
      let pre := name_column ob ++ blank ++ blank ++ text_of "0x" ++ hex8 (ev_set e) ++ blank in
      row k (QSuspend p) (pre ++ dec0 3 (Z.of_nat (length (queue (ks k) (QSuspend p)))) ++ [58]) (pre ++ text_of "0" ++ [10])
  | _, _ => []
  end.
Definition mailbox_row (k : mstate) (p : Z) : list Z :=
  match mailboxes (ks k) !! p, objs (ks k) !! p with
  | Some m, Some ob =>
      let pre := name_column ob ++ blank ++ dec0 4 (mb_entry m) ++ blank ++ blank ++ dec0 4 (mb_size m) ++ blank ++ waiting k p in
      row k (QSuspend p) (pre ++ [58]) (pre ++ [10])
  | _, _ => []
  end.
Definition msgqueue_row (k : mstate) (p : Z) : list Z :=
  match mqueues (ks k) !! p, objs (ks k) !! p with
  | Some m, Some ob =>
      let pre := name_column ob ++ blank ++ dec0 4 (mq_entry m) ++ blank ++ blank ++ waiting k p in
      row k (QSuspend p) (pre ++ [58]) (pre ++ [10])
  | _, _ => []
  end.
Definition mempool_row (k : mstate) (p : Z) : list Z :=
  match mempools (ks k) !! p, objs (ks k) !! p with
  | Some m, Some ob =>
      let pre := name_column ob ++ blank ++ dec0 4 (block_size m) ++ blank ++ blank ++ dec0 4 (block_total_count m) ++
        blank ++ blank ++ dec0 4 (block_free_count m) ++ blank ++ waiting k p in
      row k (QSuspend p) (pre ++ [58]) (pre ++ [10])
  | _, _ => []
  end.
Definition timer_row (k : mstate) (p : Z) : list Z :=
  match timers (ks k) !! p, objs (ks k) !! p with
  | Some t, Some ob =>
      take 254 (name_column ob ++ blank ++ text_of "0x" ++ hex8 (tm_init_tick t) ++ blank ++ text_of "0x" ++ hex8 (timeout_tick t) ++ blank) ++
      (if truthy (Z.land (o_flag ob) RT_TIMER_FLAG_ACTIVATED) then line "activated" else line "deactivated")
  | _, _ => []
  end.
(** a store without an object at NULL, in which waiting threads have names that end *)
Record listable (k : mstate) : Prop := {
  li_typed : typed (ks k);
  li_null : objs (ks k) !! RT_NULL = None;
  li_named : forall p, named k (queue (ks k) (QSuspend p));
}.
Lemma listable_class k type : listable k -> type <> 0 -> class_ok k type.
Proof.
  intros [[H1 H2 H3] Hnull _] Ht. split; [done|apply H3|]. intros p Hp. destruct (H2 _ _ Hp) as (ob & Hob & Hc). split; [|by exists ob].
  intros ->. congruence.
Qed.
Lemma listable_struct k type p : listable k -> p ∈ listed k type -> has_struct (ks k) type p = true /\ exists ob, objs (ks k) !! p = Some ob.
Proof.
  intros [[H1 H2 H3] _ _] Hp. destruct (H2 _ _ Hp) as (ob & Hob & Hc). split; [|by exists ob]. specialize (H1 _ _ Hob). cbn in H1. by rewrite Hc in H1.
Qed.
Ltac find_struct Hl Hp :=
  let Hs := fresh in let ob := fresh "ob" in let Hob := fresh "Hob" in
  destruct (listable_struct _ _ _ Hl Hp) as (Hs & ob & Hob); unfold has_struct in Hs; cbn in Hs; apply bool_decide_eq_true in Hs;
  let v := fresh "v" in let Hv := fresh "Hv" in destruct Hs as [v Hv]; rewrite ?Hv, ?Hob;
  eapply says_read; [apply says_on_k; unfold bind, get, the, ret; rewrite Hv; reflexivity|];
  eapply says_read; [by apply obj_name_says|].
Lemma show_sem_says k p : listable k -> p ∈ listed k RT_Object_Class_Semaphore -> says (show_sem p) k tt (sem_row k p).
Proof.
  intros Hl Hp. unfold show_sem, sem_row, get_sem. find_struct Hl Hp.
  apply show_waiters_says; [by apply Hl|intros H..]; (etransitivity; [render|by rewrite <- !app_assoc]).
Qed.
Lemma show_event_says k p : listable k -> p ∈ listed k RT_Object_Class_Event -> says (show_event p) k tt (event_row k p).
Proof.
  intros Hl Hp. unfold show_event, event_row, get_event. find_struct Hl Hp.
  apply show_waiters_says; [by apply Hl|intros Hq; rewrite bool_decide_eq_false_2 by done|intros Hq; rewrite bool_decide_eq_true_2 by done];
    (etransitivity; [render|by rewrite <- !app_assoc]).
Qed.
Lemma show_mailbox_says k p : listable k -> p ∈ listed k RT_Object_Class_MailBox -> says (show_mailbox p) k tt (mailbox_row k p).
Proof.
  intros Hl Hp. unfold show_mailbox, mailbox_row, get_mb. find_struct Hl Hp.
  apply show_waiters_says; [by apply Hl|intros H..]; (etransitivity; [render|by rewrite <- !app_assoc]).
Qed.
Lemma show_msgqueue_says k p : listable k -> p ∈ listed k RT_Object_Class_MessageQueue -> says (show_msgqueue p) k tt (msgqueue_row k p).
Proof.
  intros Hl Hp. unfold show_msgqueue, msgqueue_row, get_mq. find_struct Hl Hp.
  apply show_waiters_says; [by apply Hl|intros H..]; (etransitivity; [render|by rewrite <- !app_assoc]).
Qed.
Lemma show_mempool_says k p : listable k -> p ∈ listed k RT_Object_Class_MemPool -> says (show_mempool p) k tt (mempool_row k p).
Proof.
  intros Hl Hp. unfold show_mempool, mempool_row, get_mp. find_struct Hl Hp.
  apply show_waiters_says; [by apply Hl|intros H..]; (etransitivity; [render|by rewrite <- !app_assoc]).
Qed.
Lemma show_timer_says k p : listable k -> p ∈ listed k RT_Object_Class_Timer -> says (show_timer p) k tt (timer_row k p).
Proof.
  intros Hl Hp. unfold show_timer, timer_row, get_timer. find_struct Hl Hp.
  eapply says_bind; [apply says_kprintf; etransitivity; [render|reflexivity]|].
  eapply says_read; [apply says_on_k; unfold get_obj, bind, get, the, ret; rewrite Hob; reflexivity|].
  destruct (truthy _);
    [apply (says_kprintf (line "activated") [] k (line "activated"))|apply (says_kprintf (line "deactivated") [] k (line "deactivated"))]; reflexivity.
Qed.

(** ** list_thread and list_memheap *)
Lemma says_on_system {A} (m : MH A) k a : m k = Ok (a, k) -> says (on_system m) k a [].
Proof. intros H o. unfold on_system. cbn [lk out]. by rewrite H, app_nil_r. Qed.
(** [n] bytes at [a] hold the fill character '#' of rt_thread_init, and the
    byte behind them something else *)
Definition untouched (m : mem) (a : Z) (n : nat) : Prop :=
  (forall i, (i < n)%nat -> m !! (a + Z.of_nat i) = Some 35) /\ exists b, m !! (a + Z.of_nat n) = Some b /\ b <> 35.
Lemma untouched_tail m a n : untouched m a (S n) -> untouched m (a + 1) n.
Proof.
  intros [H1 (b & H2 & H3)]. split; [|exists b; split; [|done]].
  - intros i Hi. rewrite <- (H1 (S i)) by lia. f_equal. lia.
  - rewrite <- H2. f_equal. lia.
Qed.
Lemma stack_scan_run m n : forall fuel a, untouched m a n -> 0 <= a -> a + Z.of_nat n < 4294967296 -> (n < fuel)%nat ->
  stack_scan fuel a m = Ok (a + Z.of_nat n, m).
Proof.
  induction n as [|n IH]; intros [|fuel] a Hu Ha Hn Hf; [lia| |lia|]; cbn [stack_scan].
  - destruct Hu as [_ (b & Hb & H35)]. change (Z.of_nat 0) with 0 in *. rewrite Z.add_0_r in *.
    erewrite bind_run; [cbv beta|apply ld8_run; [lia|exact Hb]]. by rewrite (proj2 (Z.eqb_neq _ _) H35).
  - pose proof (proj1 Hu 0%nat ltac:(lia)) as H0. rewrite Z.add_0_r in H0.
    erewrite bind_run; [cbv beta|apply ld8_run; [lia|exact H0]]. change (35 =? 35) with true. cbv iota.
    rewrite u32_small, (IH fuel (a + 1)) by (try apply untouched_tail; auto; lia). f_equal. f_equal. lia.
Qed.
(** no more bytes than the memory has *)
Lemma untouched_size m a n : untouched m a n -> (n <= base.size m)%nat.
Proof.
  intros [H _]. set (l := (fun i => a + Z.of_nat i) <$> seq 0 n).
  assert (Hs : list_to_set l ⊆ dom m).
  { intros x Hx. apply elem_of_list_to_set, list_elem_of_fmap in Hx as (i & -> & Hi). apply elem_of_seq in Hi. apply elem_of_dom. rewrite H by lia. eauto. }
  apply subseteq_size in Hs. rewrite size_dom, size_list_to_set in Hs.
  - unfold l in Hs. by rewrite length_fmap, length_seq in Hs.
  - apply NoDup_fmap_2; [intros i j; lia|apply NoDup_seq].
Qed.
Definition stat_column (stat : Z) : list Z :=
  text_of (if stat =? RT_THREAD_READY then " ready  " else if stat =? RT_THREAD_SUSPEND then " suspend" else if stat =? RT_THREAD_INIT then " init   "
    else if stat =? RT_THREAD_CLOSE then " close  " else if stat =? RT_THREAD_RUNNING then " running" else "").
Lemma stat_text_says k stat : says (stat_text stat) k tt (stat_column stat).
Proof.
  unfold stat_text, stat_column. repeat (case_match; [lazymatch goal with |- says (kprintf ?f _) _ _ ?t => apply (says_kprintf f [] k t); reflexivity end|]).
  apply says_ret.
Qed.
(** the stack of a thread, which holds something behind [n] unused bytes *)
Definition stack_ok (k : mstate) (th : rt_thread) (n : nat) : Prop :=
  untouched (ram (kheap (ks k))) (stack_addr th) n /\ 0 <= stack_addr th /\ 0 < stack_size th /\ Z.of_nat n <= stack_size th /\
  stack_addr th + stack_size th < 4294967296 /\ stack_size th * 100 < 4294967296.
Definition thread_row (unused : Z -> nat) (k : mstate) (p : Z) : list Z :=
  match threads (ks k) !! p, objs (ks k) !! p with
  | Some th, Some ob =>
      take 254 (name_column ob ++ blank ++ decs 3 (current_priority th) ++ blank) ++
      stat_column (stat_of th) ++
      take 254 (text_of " 0x" ++ hex8 (u32 (stack_size th + (stack_addr th - sp th))) ++ text_of " 0x" ++ hex8 (stack_size th) ++ text_of "    " ++
        dec0 2 ((stack_size th - Z.of_nat (unused p)) * 100 / stack_size th) ++ text_of "%   0x" ++ hex8 (remaining_tick th) ++ blank ++
        dec0 3 (error th) ++ [10])
  | _, _ => []
  end.
Lemma show_thread_says unused k p th : listable k -> p ∈ listed k RT_Object_Class_Thread -> threads (ks k) !! p = Some th -> stack_ok k th (unused p) ->
  says (show_thread p) k tt (thread_row unused k p).
Proof.
  intros Hl Hp Hth (Hu & Ha & Hs & Hn & Hb & Hc). unfold show_thread, thread_row, get_thread. destruct (listable_struct _ _ _ Hl Hp) as (_ & ob & Hob). rewrite Hth, Hob.
  eapply says_read; [apply says_on_k; unfold bind, get, the, ret; rewrite Hth; reflexivity|]. eapply says_read; [by apply obj_name_says|].
  eapply says_bind; [apply says_kprintf; etransitivity; [render|reflexivity]|]. eapply says_bind; [apply stat_text_says|].
  eapply (says_read _ _ _ (base.size (ram (kheap (ks k))))); [intros o; unfold gets, bind, get, ret; by rewrite app_nil_r|].
  eapply (says_read _ _ _ (stack_addr th + Z.of_nat (unused p))).
  { apply says_on_system. unfold on_bytes, on_kernel, on_heap, on_ram. pose proof (untouched_size _ _ _ Hu).
    rewrite (stack_scan_run _ (unused p)) by (auto; lia). destruct k as [kk]; destruct kk as []; destruct kheap; reflexivity. }
  rewrite (proj2 (Z.eqb_neq _ _)) by lia.
  replace (u32 (stack_size th - (stack_addr th + Z.of_nat (unused p) - stack_addr th))) with (stack_size th - Z.of_nat (unused p)) by (rewrite u32_small; lia).
  rewrite (u32_small ((_ - _) * 100)) by lia. apply says_kprintf. generalize (u32 (stack_size th + (stack_addr th - sp th))).
  generalize ((stack_size th - Z.of_nat (unused p)) * 100 / stack_size th). intros used depth. etransitivity; [render|]. by rewrite <- ?app_assoc.
Qed.
Definition memheap_row (k : mstate) (p : Z) : list Z :=
  match memheaps k !! p, objs (ks k) !! p with
  | Some h, Some ob =>
      take 254 (name_column ob ++ blank ++ decl 10 (pool_size h) ++ blank ++ decl 13 (max_used_size h) ++ blank ++ decl 5 (available_size h) ++ [10])
  | _, _ => []
  end.
Lemma show_memheap_says k p h : listable k -> p ∈ listed k RT_Object_Class_MemHeap -> memheaps k !! p = Some h ->
  says (show_memheap p) k tt (memheap_row k p).
Proof.
  intros Hl Hp Hh. unfold show_memheap, memheap_row, get_heap. destruct (listable_struct _ _ _ Hl Hp) as (_ & ob & Hob). rewrite Hh, Hob.
  eapply says_read; [apply says_on_system; unfold bind, get, the, ret; rewrite Hh; reflexivity|]. eapply says_read; [by apply obj_name_says|].
  apply says_kprintf. etransitivity; [render|]. by rewrite <- ?app_assoc.
Qed.

(** ** The heads *)
Definition head_text (title_line rule : string) : list Z := line title_line ++ replicate (Z.to_nat RT_NAME_MAX) 45 ++ line rule.
Lemma table_head_says k fmt item rule t r : render (S (length (line fmt))) (line fmt) [AWord RT_NAME_MAX; title item] = Some (line t) ->
  take 254 (line t) = line t -> render (S (length (line rule))) (line rule) [] = Some (line r) -> take 254 (line r) = line r ->
  says (table_head fmt item rule) k tt (head_text t r).
Proof.
  intros H1 H2 H3 H4. unfold table_head, head_text. eapply says_bind; [rewrite <- H2; by apply says_kprintf|].
  eapply says_bind; [apply object_split_says|]. rewrite <- H4. by apply says_kprintf.
Qed.
Definition table (k : mstate) (type : Z) (title_line rule : string) (row : mstate -> Z -> list Z) : list Z :=
  head_text title_line rule ++ concat (row k <$> listed k type).
Ltac command_with tac := apply list_objects_says;
  [by apply listable_class|eexists; reflexivity|apply table_head_says; vm_compute; reflexivity|
   let p := fresh "p" in let Hp := fresh "Hp" in intros p Hp; tac p Hp].
Ltac command show_says := command_with ltac:(fun p Hp => by apply show_says).

(** C29: the commands list_sem, list_event, list_mailbox, list_msgqueue, list_mempool,
    list_timer, list_memheap and list_thread terminate without a fault and print a
    table: two lines of head and one row for each object of the class, each once
    and in the order of the container, however many batches of eight the walk
    takes.  The row has the name in eight columns, the fields of the object, and
    the names of the threads that wait, with '/' between them.  For a thread it
    has the share of the stack in per cent that was ever written, which the walk
    over the fill characters finds.  The kernel's state stays as it is. *)
Theorem list_commands_spec k (unused : Z -> nat) : listable k ->
  (forall p, p ∈ listed k RT_Object_Class_Thread -> exists th, threads (ks k) !! p = Some th /\ stack_ok k th (unused p)) ->
  (forall p, p ∈ listed k RT_Object_Class_MemHeap -> is_Some (memheaps k !! p)) ->
  says list_sem k 0 (table k RT_Object_Class_Semaphore "semaphor v   suspend thread" " --- --------------" sem_row) /\
  says list_event k 0 (table k RT_Object_Class_Event "event         set    suspend thread" "  ---------- --------------" event_row) /\
  says list_mailbox k 0 (table k RT_Object_Class_MailBox "mailbox  entry size suspend thread" " ----  ---- --------------" mailbox_row) /\
  says list_msgqueue k 0 (table k RT_Object_Class_MessageQueue "msgqueue entry suspend thread" " ----  --------------" msgqueue_row) /\
  says list_mempool k 0 (table k RT_Object_Class_MemPool "mempool  block total free suspend thread" " ----  ----  ---- --------------" mempool_row) /\
  says list_timer k 0 (table k RT_Object_Class_Timer "timer     periodic   timeout       flag" " ---------- ---------- -----------" timer_row ++
    take 254 (text_of "current tick:0x" ++ hex8 (rt_tick (ks k)) ++ [10])) /\
  says list_memheap k 0 (table k RT_Object_Class_MemHeap "memheap   pool size  max used size available size"
    " ---------- ------------- --------------" memheap_row) /\
  says list_thread k 0 (table k RT_Object_Class_Thread "thread   pri  status      sp     stack size max used left tick  error"
    " ---  ------- ---------- ----------  ------  ---------- ---" (thread_row unused)).
Proof.
  intros Hl Hthreads Hheaps. split_and!; [eapply says_end; command show_sem_says|eapply says_end; command show_event_says|
    eapply says_end; command show_mailbox_says|eapply says_end; command show_msgqueue_says|eapply says_end; command show_mempool_says| | |].
  - eapply says_bind; [command show_timer_says|]. eapply says_read; [by apply says_on_k|]. eapply says_end, says_kprintf. render.
  - eapply says_end. command_with ltac:(fun p Hp => destruct (Hheaps p Hp) as [h Hh]; by eapply show_memheap_says).
  - eapply says_end. command_with ltac:(fun p Hp => destruct (Hthreads p Hp) as (th & Hth & Hs); by eapply show_thread_says).
Qed.

Lemma list_mem_says k : says list_mem k tt
  (take 254 (text_of "total memory: " ++ dec (mem_size_aligned (kheap (ks k))) ++ [10]) ++
   take 254 (text_of "used memory : " ++ dec (used_mem (kheap (ks k))) ++ [10]) ++
   take 254 (text_of "maximum allocated memory: " ++ dec (max_mem (kheap (ks k))) ++ [10])).
Proof.
  unfold list_mem. eapply (says_read _ _ _ (kheap (ks k))); [intros o; unfold gets; by rewrite app_nil_r|].
  generalize (kheap (ks k)). intros h. repeat (eapply says_bind; [apply says_kprintf; render|]). apply says_kprintf. render.
Qed.

(** * A mutex without an owner *)
Definition stops {A} (m : L A) (k : mstate) (e : fault) : Prop := forall o, m {| lk := k; out := o |} = Fault e.
Definition says_or_stops (m : L unit) (k : mstate) (e : fault) : Prop := (exists t, says m k tt t) \/ stops m k e.
Lemma stops_first {A C} (m : L A) (f : A -> L C) k e o : stops m k e -> bind m f {| lk := k; out := o |} = Fault e.
Proof. intros H. unfold bind. by rewrite H. Qed.
Lemma stops_bind {A C} (m : L A) (f : A -> L C) k a t e : says m k a t -> stops (f a) k e -> stops (bind m f) k e.
Proof. intros H1 H2 o. rewrite (bind_run _ _ _ _ _ (H1 o)). apply H2. Qed.
(** the walk stops when a row does *)
Lemma for_each_stops (f : Z -> L unit) k e l : (forall x, x ∈ l -> says_or_stops (f x) k e) ->
  (stops (for_each f l) k e /\ exists x, x ∈ l /\ stops (f x) k e) \/ exists t, forall x, x ∈ l -> says (f x) k tt (t x).
Proof.
  induction l as [|x l IH]; intros H; [right; exists (fun _ => []); intros y Hy; by apply not_elem_of_nil in Hy|].
  destruct (H x) as [[t Ht]|Hs]; [by left| |left; split; [intros o; by apply stops_first|exists x; split; [by left|done]]].
  destruct IH as [[Hs (y & Hy & Hs')]|[u Hu]]; [intros y Hy; apply H; by right| |].
  - left. split; [by eapply stops_bind|]. exists y. split; [by right|done].
  - right. exists (fun y => if decide (y = x) then t else u y). intros y Hy. destruct (decide (y = x)) as [->|Hne]; [done|].
    apply Hu. by apply elem_of_cons in Hy as [|].
Qed.
Lemma show_object_stops k type show p e : class_ok k type -> p ∈ listed k type -> stops (show p) k e -> stops (show_object type show p) k e.
Proof.
  intros [_ _ C] Hp Hs o. destruct (C p Hp) as (_ & ob & Hob & Hc). unfold show_object.
  assert (Hr : says (obj_class p) k type []).
  { eapply says_read; [apply says_on_k; unfold get_obj, bind, get, the, ret; by rewrite Hob|]. unfold class_of in Hc. rewrite Hc. apply says_ret. }
  rewrite (bind_run _ _ _ _ _ (Hr o)), app_nil_r, Z.eqb_refl. apply Hs.
Qed.
Lemma list_loop_stops k type show e : class_ok k type -> (forall p, p ∈ listed k type -> says_or_stops (show p) k e) ->
  forall fuel pre rest next, listed k type = pre ++ rest -> next = default RT_NULL (last pre) -> (length rest < fuel)%nat ->
  (exists p, p ∈ rest /\ stops (show p) k e) -> stops (list_loop fuel (find_arg type) show next) k e.
Proof.
  intros Hc Hshow. induction fuel as [|fuel IH]; intros pre rest next Hl Hnext Hf (p & Hp & Hst) o; [lia|]. cbn [list_loop].
  rewrite (bind_run _ _ _ _ _ (list_get_next_says k type pre rest next Hc Hl Hnext o)), app_nil_r.
  assert (Hrows : forall l, (forall x, x ∈ l -> x ∈ listed k type) -> p ∈ l -> stops (for_each (show_object type show) l) k e).
  { intros l Hsub Hpl. destruct (for_each_stops (show_object type show) k e l) as [[H _]|[t Ht]]; [|done|].
    - intros x Hx. destruct (Hshow x (Hsub x Hx)) as [[t Ht]|H]; [left; exists t; by apply show_object_says; auto|right; by apply show_object_stops; auto].
    - exfalso. pose proof (Ht p Hpl []) as H. by rewrite (show_object_stops k type show p e Hc (Hsub p Hpl) Hst) in H. }
  destruct (decide (Z.of_nat (length rest) < LIST_FIND_OBJ_NR)) as [Hshort|Hlong].
  - rewrite get_next_loop_short by lia. cbn [fst snd app]. apply stops_first, Hrows; [|done]. intros x Hx. rewrite Hl. set_solver.
  - destruct (nth_lookup_or_length rest 7 0) as [Hx|]; [|unfold LIST_FIND_OBJ_NR in Hlong; lia]. set (x := nth 7 rest 0) in *.
    pose proof (take_drop_middle _ _ _ Hx) as Hsplit. unfold LIST_FIND_OBJ_NR in Hlong. assert (H7 : length (take 7 rest) = 7%nat) by (rewrite length_take; lia).
    set (now := take 7 rest) in *. set (later := drop 8 rest) in *. rewrite <- Hsplit in Hl, Hf, Hp |- *.
    rewrite get_next_loop_full by (unfold LIST_FIND_OBJ_NR; lia). cbn [fst snd app].
    assert (Hx0 : x <> RT_NULL) by (apply (co_class _ _ Hc); rewrite Hl; set_solver). rewrite (proj2 (Z.eqb_neq _ _) Hx0). cbn [negb when].
    assert (Hsub : forall y, y ∈ now ++ [x] -> y ∈ listed k type) by (intros y Hy; rewrite Hl; set_solver).
    destruct (for_each_stops (show_object type show) k e (now ++ [x])) as [[H _]|[t Ht]].
    + intros y Hy. destruct (Hshow y (Hsub y Hy)) as [[t Ht]|H]; [left; exists t; by apply show_object_says; auto|right; by apply show_object_stops; auto].
    + by apply stops_first.
    + rewrite (bind_run _ _ _ _ _ (for_each_says _ _ _ _ Ht o)). apply (IH (pre ++ now ++ [x]) later); [by rewrite Hl, <- !app_assoc|by rewrite app_assoc, last_snoc| |].
      * rewrite length_app in Hf. cbn in Hf. lia.
      * exists p. split; [|done]. assert (p ∉ now ++ [x]); [|set_solver]. intros Hin. pose proof (Ht p Hin []) as H.
        by rewrite (show_object_stops k type show p e Hc (Hsub p Hin) Hst) in H.
Qed.
Lemma obj_name_stops p k o : objs (ks k) !! p = None -> obj_name p {| lk := k; out := o |} = Fault BadPointer.
Proof. intros H. unfold obj_name, on_k, on_system, on_kernel, get_obj, bind, get, the. cbn [lk]. by rewrite H. Qed.
(** what a row says when the mutex has an owner *)
Definition mutex_row (k : mstate) (p : Z) : list Z :=
  match mutexes (ks k) !! p, objs (ks k) !! p with
  | Some m, Some ob =>
      match objs (ks k) !! owner m with
      | Some ow => take 254 (name_column ob ++ blank ++ name_column ow ++ blank ++ dec0 4 (hold m) ++ blank ++ waiting k p ++ [10])
      | None => []
      end
  | _, _ => []
  end.
Lemma show_mutex_says k p m ow : listable k -> p ∈ listed k RT_Object_Class_Mutex -> mutexes (ks k) !! p = Some m ->
  objs (ks k) !! owner m = Some ow -> says (show_mutex p) k tt (mutex_row k p).
Proof.
  intros Hl Hp Hm How. unfold show_mutex, mutex_row, get_mutex. destruct (listable_struct _ _ _ Hl Hp) as (_ & ob & Hob). rewrite Hm, Hob, How.
  eapply says_read; [apply says_on_k; unfold bind, get, the, ret; rewrite Hm; reflexivity|]. eapply says_read; [by apply obj_name_says|].
  eapply says_read; [by apply obj_name_says|]. eapply (says_read _ _ _ (queue (ks k) (QSuspend p))); [apply says_get; intros o; apply says_ret|].
  apply says_kprintf. etransitivity; [render|]. by rewrite <- ?app_assoc.
Qed.
Lemma show_mutex_stops k p m : listable k -> p ∈ listed k RT_Object_Class_Mutex -> mutexes (ks k) !! p = Some m ->
  objs (ks k) !! owner m = None -> stops (show_mutex p) k BadPointer.
Proof.
  intros Hl Hp Hm How. destruct (listable_struct _ _ _ Hl Hp) as (_ & ob & Hob). unfold show_mutex.
  eapply stops_bind; [apply (says_on_k _ _ m); unfold get_mutex, bind, get, the, ret; by rewrite Hm|].
  eapply stops_bind; [by apply obj_name_says|]. intros o. unfold bind at 1. by rewrite obj_name_stops.
Qed.
Lemma show_mutex_runs k p : listable k -> p ∈ listed k RT_Object_Class_Mutex -> says_or_stops (show_mutex p) k BadPointer.
Proof.
  intros Hl Hp. destruct (listable_struct _ _ _ Hl Hp) as (Hs & _). unfold has_struct in Hs. cbn in Hs. apply bool_decide_eq_true in Hs as [m Hm].
  destruct (objs (ks k) !! owner m) as [ow|] eqn:How; [left; eexists; by eapply show_mutex_says|right; by eapply show_mutex_stops].
Qed.
(** C33: list_mutex prints a row for each mutex when each of them has an owner;
    it reads the name of the owner without a test, so that one listed mutex
    without an owner, as rt_mutex_init leaves it and each release that no thread
    waits for, makes the command read through a null pointer. *)
Theorem list_mutex_spec k : listable k ->
  ((forall p m, p ∈ listed k RT_Object_Class_Mutex -> mutexes (ks k) !! p = Some m -> is_Some (objs (ks k) !! owner m)) ->
    says list_mutex k 0 (table k RT_Object_Class_Mutex "mutex      owner  hold suspend thread" " -------- ---- --------------" mutex_row)) /\
  ((exists p m, p ∈ listed k RT_Object_Class_Mutex /\ mutexes (ks k) !! p = Some m /\ owner m = RT_NULL) ->
    forall o, list_mutex {| lk := k; out := o |} = Fault BadPointer).
Proof.
  intros Hl. assert (Hc : class_ok k RT_Object_Class_Mutex) by by apply listable_class. split.
  - intros Hown. unfold list_mutex. eapply says_end. apply list_objects_says; [done|eexists; reflexivity|apply table_head_says; vm_compute; reflexivity|].
    intros p Hp. destruct (listable_struct _ _ _ Hl Hp) as (Hs & _). unfold has_struct in Hs. cbn in Hs. apply bool_decide_eq_true in Hs as [m Hm].
    destruct (Hown p m Hp Hm) as [ow How]. by eapply show_mutex_says.
  - intros (p & m & Hp & Hm & Hnull) o. unfold list_mutex. apply stops_first.
    cut (stops (list_objects RT_Object_Class_Mutex (table_head "%-*.s   owner  hold suspend thread" "mutex" " -------- ---- --------------") show_mutex) k BadPointer);
      [intros H; apply H|]. unfold list_objects, list_find_init.
    eapply stops_bind; [eapply says_read; [apply says_ret|apply says_ret]|]. eapply stops_bind; [apply (table_head_says k _ _ _ "mutex      owner  hold suspend thread" " -------- ---- --------------"); vm_compute; reflexivity|].
    intros o'. unfold bind at 1, get. cbn [lk]. refine (list_loop_stops k _ _ BadPointer Hc _ _ [] _ _ eq_refl eq_refl _ _ _); [|cbn; unfold listed; lia|].
    + intros q Hq. by apply show_mutex_runs.
    + exists p. split; [done|]. eapply show_mutex_stops; [done..|]. rewrite Hnull. apply Hl.
Qed.
