(* ===== verification/Scenario.v ===== *)
(** A concrete system, built by running the modelled kernel itself from an
    empty memory: three application threads, the idle thread, a timer and the
    IPC objects.  The component theorems are applied to its states here, so
    their hypotheses are seen to hold of states the kernel produces. *)
From S2P Require Import Prelude RtList KService Mem CpuPort Kernel Sched Object Timer Thread.
From S2P Require Import Ipc Mutex Event Mailbox MsgQueue MemPool Idle System.

(** * A decision procedure for the scheduler invariant *)
Definition fits (s : kstate) (h : qhead) (t : Z) : bool :=
  match threads s !! t with
  | None => false
  | Some th => (stat_of th =? head_stat h) &&
      match h with QReady p => current_priority th =? p | _ => true end
  end.
Definition sched_ok_check (s : kstate) : bool :=
  let ths := threads s in let qs := queues s in let g := ready_priority_group s in
  bool_decide (map_Forall (fun h l => NoDup l /\
    Forall (fun t => map_Forall (fun h' l' => t ∈ l' -> h = h') qs) l /\
    Forall (fun t => fits s h t = true) l) qs) &&
  bool_decide (map_Forall (fun t th => t <> RT_NULL /\
    (0 <= current_priority th < 32 /\ 0 <= init_priority th < 32) /\
    (number_mask th = Z.shiftl 1 (current_priority th) \/
     (stat_of th <> RT_THREAD_READY /\ stat_of th <> RT_THREAD_SUSPEND /\ number_mask th = 0)) /\
    (stat_of th <> RT_THREAD_READY \/ t ∈ queue s (QReady (current_priority th)))) ths) &&
  bool_decide (0 <= g < 4294967296) &&
  forallb (fun p => Bool.eqb (Z.testbit g (Z.of_nat p))
    (negb (bool_decide (queue s (QReady (Z.of_nat p)) = [])))) (seq 0 32).

Lemma sched_ok_check_sound s : sched_ok_check s = true -> sched_ok s.
Proof.
  unfold sched_ok_check. rewrite !andb_true_iff, !bool_decide_eq_true, forallb_forall.
  intros [[[Hq Ht] Hg] Hb].
  assert (Hin : forall h t, t ∈ q (queues s) h -> exists l, queues s !! h = Some l /\ t ∈ l).
  { intros h t. unfold q. destruct (queues s !! h) as [l|]; cbn; [by exists l|set_solver]. }
  split.
  - intros h. unfold q. destruct (queues s !! h) as [l|] eqn:E; cbn; [|constructor].
    by destruct (Hq _ _ E).
  - intros h1 h2 t (l1 & E1 & H1)%Hin (l2 & E2 & H2)%Hin.
    destruct (Hq _ _ E1) as (_ & Hu & _). rewrite Forall_forall in Hu.
    by apply (Hu t H1 h2 l2).
  - intros h t (l & E & Hl)%Hin. destruct (Hq _ _ E) as (_ & _ & Hs).
    rewrite Forall_forall in Hs. specialize (Hs t Hl).
    unfold fits in Hs. destruct (threads s !! t) as [th|]; [|done].
    apply andb_prop in Hs as [Hs%Z.eqb_eq _]. by exists th.
  - intros p t (l & E & Hl)%Hin. destruct (Hq _ _ E) as (_ & _ & Hs).
    rewrite Forall_forall in Hs. specialize (Hs t Hl).
    unfold fits in Hs. destruct (threads s !! t) as [th|]; [|done].
    apply andb_prop in Hs as [_ Hs%Z.eqb_eq]. by exists th.
  - intros t th E Hst. destruct (Ht _ _ E) as (_ & _ & _ & [?|H]); done.
  - intros t th E. destruct (Ht _ _ E) as (? & ? & _). done.
  - intros t th E. destruct (Ht _ _ E) as (_ & _ & Hm & _). exact Hm.
  - split; [done|]. intros p Hp. specialize (Hb (Z.to_nat p)).
    rewrite Z2Nat.id in Hb by lia. specialize (Hb ltac:(apply list_elem_of_In, elem_of_seq; lia)).
    apply Bool.eqb_prop in Hb. rewrite Hb, negb_true_iff, bool_decide_eq_false.
    by rewrite queue_q.
Qed.

(** * The system *)

(** application code without effect on the kernel *)
#[export] Instance app : UserCode := {|
  addr_rt_thread_exit := 256; addr_main_thread_entry := 260;
  addr_rt_thread_idle_entry := 264; addr_idle := 4096; addr_rt_thread_stack := 8192;
  user_timeout := fun _ _ => ret tt; user_cleanup := fun _ _ => ret tt |}.
#[export] Instance app_ok : UserCodeOk app.
Proof. split; intros; apply pres_ret. Qed.

(** the state at reset, with zeroed RAM from 8192 on *)
Definition reset : kstate := {|
  threads := ∅; timers := ∅; sems := ∅; mutexes := ∅; events := ∅; mailboxes := ∅;
  mqueues := ∅; mempools := ∅; objs := ∅; containers := ∅; queues := ∅;
  rt_timer_list := []; check_list := []; ready_priority_group := 0; rt_current_thread := 0;
  rt_current_priority := 0; scheduler_lock_nest := 0; interrupt_nest := 0;
  switch_req := {| rt_interrupt_from_thread := 0; rt_interrupt_to_thread := 0;
    rt_thread_switch_interrupt_flag := 0 |};
  rt_tick := 0; random_nr := 0;
  kheap := {| headers := ∅; heap_ptr := 0; heap_end := 0; lfree := 0; heap_sem := 0;
    mem_size_aligned := 0; used_mem := 0; max_mem := 0;
    ram := fill 4096 8192 0 ∅ |} |}.

(** the state after a run that succeeds *)
Definition after {A} (m : K A) (s : kstate) : kstate :=
  match m s with Ok (_, s') => s' | Fault _ => reset end.

Definition runs {A} (m : K A) (s : kstate) : bool :=
  match m s with Ok _ => true | Fault _ => false end.
Lemma after_run (m : K unit) s : runs m s = true -> m s = Ok (tt, after m s).
Proof. unfold runs, after. by destruct (m s) as [[[] s']|]. Qed.

(** three threads with 160 bytes of stack each, at priorities 5, 5 and 8 *)
Definition T1 : Z := 1024.
Definition T2 : Z := 1280.
Definition T3 : Z := 1536.
Definition app_thread (t stack prio : Z) : K unit :=
  run (rt_thread_init t [116] 512 0 stack 160 prio 10);; run (rt_thread_startup t).

(** the IPC objects *)
Definition SEM : Z := 2048.
Definition MTX : Z := 2112.
Definition EVT : Z := 2176.
Definition MB : Z := 2240.
Definition MQ : Z := 2304.
Definition MP : Z := 2368.
Definition TMR : Z := 2432.

Definition start : K unit :=
  rt_system_timer_init;; rt_system_scheduler_init;;
  app_thread T1 8192 5;; app_thread T2 8352 5;; app_thread T3 8512 8;;
  rt_system_scheduler_start;;
  run (rt_sem_init SEM [115] 1 RT_IPC_FLAG_PRIO);;
  run (rt_mutex_init MTX [109] RT_IPC_FLAG_PRIO);;
  run (rt_event_init EVT [101] RT_IPC_FLAG_FIFO);;
  run (rt_mb_init MB [98] 9216 2 RT_IPC_FLAG_FIFO);;
  run (rt_mq_init MQ [113] 9472 16 64 RT_IPC_FLAG_FIFO);;
  run (rt_mp_init MP (Some [112]) 9728 64 16);;
  rt_timer_init TMR [116] (Fn_user 512) 0 7 RT_TIMER_FLAG_PERIODIC.

(** the three threads run; the first one is current *)
Definition s0 : kstate := after start reset.

Lemma s0_ok : sched_ok s0.
Proof. apply sched_ok_check_sound. vm_compute. reflexivity. Qed.
#[local] Opaque s0.

(** * Facts about concrete states *)
Definition dummy_thread : rt_thread := {| sp := 0; Kernel.entry := 0; t_parameter := 0;
  stack_addr := 0; Kernel.stack_size := 0; error := 0; stat := 0; current_priority := 0;
  init_priority := 0; number_mask := 0; event_set := 0; event_info := 0; t_init_tick := 0;
  remaining_tick := 0; cleanup := 0; user_data := 0 |}.
Definition th_at (s : kstate) (t : Z) : rt_thread := default dummy_thread (threads s !! t).
Definition ob_at (s : kstate) (o : Z) : rt_object :=
  default {| o_name := []; o_type := 0; o_flag := 0 |} (objs s !! o).
Definition tm_at (s : kstate) (t : Z) : rt_timer :=
  default {| timeout_func := Fn_user 0; parameter := 0; tm_init_tick := 0; timeout_tick := 0 |}
    (timers s !! t).

(** evaluate a decidable fact about a concrete state *)
Ltac concrete :=
  lazymatch goal with
  | |- _ /\ _ => split; concrete
  | _ => first [ vm_compute; reflexivity
               | vm_compute; congruence
               | apply bool_decide_unpack; vm_compute; exact I ]
  end.
Ltac concrete_ok := apply sched_ok_check_sound; vm_compute; reflexivity.
Ltac concrete_wf :=
  split; [concrete|split; concrete|eexists; split; [vm_compute; reflexivity|reflexivity]|split; concrete].


Lemma rt_schedule_highest_witness :
  wp rt_schedule (fun _ s' => rt_current_thread s' = rt_current_thread s0 \/
    is_highest s' (rt_current_thread s')) s0.
Proof.
  eapply wp_mono; [apply (rt_schedule_highest s0 T1 (th_at s0 T1)); [exact s0_ok|concrete..]|].
  intros _ s' (H & _). right. exact H.
Defined.

Lemma rt_thread_suspend_resume_witness :
  wp (rt_thread_suspend T1;; rt_thread_resume T1) (fun r s' =>
    r = RT_EOK /\ threads s' = threads s0) s0.
Proof.
  eapply wp_mono; [apply (rt_thread_suspend_resume s0 T1 (th_at s0 T1) (ob_at s0 (thread_timer T1)))|].
  - exact s0_ok.
  - concrete_wf.
  - concrete.
  - intros r s' (H1 & H2 & _). exact (conj H1 H2).
Defined.

Lemma rt_thread_yield_rotates_witness :
  wp rt_thread_yield (fun r s' => r = RT_EOK /\ rt_current_thread s' = T2) s0.
Proof.
  eapply wp_mono; [apply (rt_thread_yield_rotates s0 (th_at s0 T1) T2 [])|].
  - exact s0_ok.
  - concrete.
  - concrete.
  - concrete.
  - concrete.
  - intros p Hp. replace (current_priority (th_at s0 T1)) with 5 in Hp by concrete.
    assert (p = 0 \/ p = 1 \/ p = 2 \/ p = 3 \/ p = 4) as Hc by lia.
    repeat (destruct Hc as [->|Hc]; [concrete|]). subst p. concrete.
  - intros r s' (H1 & H2 & _). exact (conj H1 H2).
Defined.

Lemma rt_tick_from_millisecond_exact_witness :
  rt_tick_from_millisecond 1500 = 1500 /\ rt_tick_from_millisecond 2147483647 = 2147483647.
Proof.
  split.
  - rewrite (rt_tick_from_millisecond_exact 1500) by lia. reflexivity.
  - rewrite (rt_tick_from_millisecond_exact 2147483647) by lia. reflexivity.
Defined.

Lemma rt_ffs_correct_witness : 1 <= __rt_ffs 40 <= 32.
Proof.
  destruct (rt_ffs_correct 40 ltac:(lia)) as [[H _]|(_ & H & _)]; [discriminate H|exact H].
Defined.

(** ** Timers *)
Definition s_timer : kstate := after (run (rt_timer_start TMR);; modify (set_rt_tick (fun _ => 7))) s0.

Lemma rt_timer_start_sorted_witness :
  wp (rt_timer_start TMR) (fun r s' => r = RT_EOK /\ timer_sorted 0 s' /\ tmo s' TMR = 7) s0.
Proof.
  eapply wp_mono; [apply (rt_timer_start_sorted 0 TMR (tm_at s0 TMR) (ob_at s0 TMR) s0)|].
  - concrete.
  - concrete.
  - concrete.
  - concrete.
  - concrete.
  - split; [intros t Ht; exfalso; revert Ht; replace (rt_timer_list s0) with (@nil Z) by concrete; apply not_elem_of_nil|replace (rt_timer_list s0) with (@nil Z) by concrete; constructor].
  - concrete.
  - intros r s' (H1 & H2 & E & _). split; [exact H1|]. split; [exact H2|]. rewrite E. concrete.
Defined.

#[export] Instance app_quiet : QuietCallbacks app.
Proof. intros addr param s a s' [= _ <-]. split_and!; reflexivity. Qed.

#[local] Opaque s_timer.
Lemma rt_timer_check_fires_witness :
  rt_timer_check 2 s_timer =
    (modify (set_check_list (fun _ => []));; for_each timer_expire (expired_timers s_timer)) s_timer
  /\ expired_timers s_timer = [TMR].
Proof.
  assert (El : rt_timer_list s_timer = [TMR]) by concrete.
  split; [|concrete]. apply (rt_timer_check_fires 0).
  - split; rewrite El.
    + intros t Ht. apply list_elem_of_singleton in Ht as ->.
      split; [eexists; vm_compute; reflexivity|concrete].
    + repeat constructor.
  - rewrite El. apply NoDup_singleton.
  - rewrite El. intros t Ht. apply list_elem_of_singleton in Ht as ->. split; [concrete|].
    exists (ob_at s_timer TMR), (tm_at s_timer TMR).
    repeat (split; [first [concrete|intros _; concrete]|]). concrete.
  - concrete.
  - rewrite El. cbn. lia.
Defined.

(** ** Lists *)
Lemma rt_list_refines_witness :
  exists h', run_op (InsertBefore 100 108)
      {[ 100 := {| next := 100; prev := 100 |}; 108 := {| next := 108; prev := 108 |} ]} = Ok (tt, h')
    /\ reps h' {[ 100 := [108] ]}.
Proof.
  assert (Hr : forall a h, h !! a = Some {| next := a; prev := a |} -> ring h a []).
  { intros a h Ha. split; [apply NoDup_singleton|]. cbn. unfold nxt, prv. by rewrite Ha. }
  destruct (rt_list_refines
    {[ 100 := {| next := 100; prev := 100 |}; 108 := {| next := 108; prev := 108 |} ]}
    {[ 100 := [] ]} (InsertBefore 100 108)) as (h' & H1 & H2 & _).
  - split.
    + intros l ns Hl. apply lookup_singleton_Some in Hl as [<- <-]. by apply Hr.
    + intros l1 ns1 l2 ns2 Hne H1 H2. apply lookup_singleton_Some in H1 as [<- <-].
      apply lookup_singleton_Some in H2 as [<- <-]. done.
  - split; [left; set_solver|split; [set_solver|]].
    intros l ns Hl. apply lookup_singleton_Some in Hl as [<- <-]. set_solver.
  - exists h'. split; [exact H1|exact H2].
Defined.

(** ** Waiting *)
Lemma rt_ipc_list_suspend_order_witness :
  wp (rt_ipc_list_suspend (QSuspend SEM) T1 RT_IPC_FLAG_PRIO) (fun _ s' =>
    sched_ok s' /\ threads s' = <[T1 := suspend_stat (th_at s0 T1)]> (threads s0)) s0.
Proof.
  eapply wp_mono; [apply (rt_ipc_list_suspend_order s0 (QSuspend SEM) T1 RT_IPC_FLAG_PRIO
    (th_at s0 T1) (ob_at s0 (thread_timer T1)))|].
  - exact s0_ok.
  - reflexivity.
  - concrete_wf.
  - concrete.
  - right. reflexivity.
  - intros r s' (H1 & H2 & _). exact (conj H1 H2).
Defined.

(** the semaphore is taken, and the next take waits *)
Definition s_sem : kstate :=
  after (run (rt_sem_take SEM RT_WAITING_FOREVER);; run (rt_sem_take SEM RT_WAITING_FOREVER)) s0.
Lemma s_sem_ok : sched_ok s_sem.
Proof. concrete_ok. Qed.
#[local] Opaque s_sem.
Lemma s_sem_queue : queue s_sem (QSuspend SEM) = [T1].
Proof. concrete. Qed.
Lemma s_sem_waiters : waiters_wf s_sem (QSuspend SEM).
Proof.
  intros t Ht. rewrite s_sem_queue in Ht. apply list_elem_of_singleton in Ht as ->.
  exists (th_at s_sem T1), (ob_at s_sem (thread_timer T1)). concrete_wf.
Qed.

Lemma rt_ipc_list_resume_all_empties_witness :
  wp (rt_ipc_list_resume_all (QSuspend SEM)) (fun r s' =>
    r = RT_EOK /\ sched_ok s' /\ queue s' (QSuspend SEM) = []) s_sem.
Proof.
  eapply wp_mono; [apply (rt_ipc_list_resume_all_empties s_sem (QSuspend SEM))|].
  - exact s_sem_ok.
  - reflexivity.
  - exact s_sem_waiters.
  - intros r s' (H1 & H2 & H3 & _). exact (conj H1 (conj H2 H3)).
Defined.

Lemma rt_sem_release_spec_witness :
  wp (rt_sem_release SEM) (fun r s' =>
    r = RT_EOK /\ sched_ok s' /\ queue s' (QSuspend SEM) = []) s_sem.
Proof.
  eapply wp_mono; [apply (rt_sem_release_spec s_sem SEM (ob_at s_sem SEM) {| sem_value := 0 |})|].
  - exact s_sem_ok.
  - concrete.
  - concrete.
  - concrete.
  - concrete.
  - cbn. lia.
  - exact s_sem_waiters.
  - intros r s' H. rewrite s_sem_queue in H. destruct H as (H1 & H2 & _ & H4 & _).
    exact (conj H1 (conj H2 H4)).
Defined.
