(* ===== verification/Examples.v ===== *)
(** The theorems on waiting, the IPC objects, thread control and the memory
    functions, applied to states of the concrete system. *)
From S2P Require Import Prelude KService Mem CpuPort Kernel Sched Object Timer Thread.
From S2P Require Import Ipc Mutex Event Mailbox MsgQueue MemPool Idle Sleep System Typing Scenario.

#[local] Opaque s0 s_sem.

(** * Facts about concrete memories *)
Definition mapped_check (m : mem) (a n : Z) : bool :=
  (0 <=? a) && (a + n <=? 4294967296) &&
  forallb (fun x => bool_decide (is_Some (m !! x))) (seqZ a n).
Lemma mapped_check_sound m a n : mapped_check m a n = true -> mapped m a n.
Proof.
  unfold mapped_check. rewrite !andb_true_iff, Z.leb_le, Z.leb_le, forallb_forall.
  intros [[H1 H2] H3]. split_and!; [done..|]. intros x Hx. eapply bool_decide_eq_true_1, H3.
  apply list_elem_of_In, elem_of_seqZ. lia.
Qed.
Lemma byte_mem_check m :
  bool_decide (map_Forall (fun _ b => 0 <= b < 256) m) = true -> byte_mem m.
Proof. intros H%bool_decide_eq_true x b. apply H. Qed.
Ltac concrete_mapped := apply mapped_check_sound; vm_compute; reflexivity.
Ltac concrete_bytes := apply byte_mem_check; vm_compute; reflexivity.

(** the current thread of a concrete state may wait for ever; [u] is READY *)
Ltac concrete_block s u :=
  split; [concrete|concrete|concrete_wf|concrete
    |exists u, (th_at s u); split_and!; concrete|left; reflexivity].

(** nobody waits in a state where the list is empty *)
Lemma no_waiters s list : queue s list = [] -> waiters_wf s list.
Proof. intros H t Ht. rewrite H in Ht. by apply elem_of_nil in Ht. Qed.
Lemma one_waiter s list t th tob :
  queue s list = [t] -> thread_wf s t th tob -> waiters_wf s list.
Proof. intros H Hwf u Hu. rewrite H in Hu. apply list_elem_of_singleton in Hu as ->. eauto. Qed.

(** as a rewrite rule: conversion would unfold the concrete state *)
Lemma current_set_threads f s : rt_current_thread (set_threads f s) = rt_current_thread s.
Proof. reflexivity. Qed.

(** * Memory functions *)
Definition ram0 : mem := fill 64 256 7 ∅.

Lemma rt_memset_correct_witness :
  rt_memset 260 65 21 ram0 = Ok (260, fill 21 260 65 ram0).
Proof. apply (rt_memset_correct ram0 260 65 21); [concrete_mapped|lia]. Defined.

Lemma rt_memcpy_correct_witness :
  exists m', rt_memcpy 260 288 21 ram0 = Ok (260, m') /\ copied ram0 m' 260 288 21.
Proof.
  apply (rt_memcpy_correct ram0 260 288 21);
    [concrete_mapped|concrete_mapped|concrete_bytes|lia|lia].
Defined.

Lemma rt_memmove_correct_witness :
  exists m', rt_memmove 262 260 21 ram0 = Ok (262, m') /\ copied ram0 m' 262 260 21.
Proof.
  apply (rt_memmove_correct ram0 262 260 21);
    [concrete_mapped|concrete_mapped|concrete_bytes|lia|lia].
Defined.

(** * Threads *)
Lemma rt_thread_control_priority_witness :
  wp (rt_thread_control T3 RT_THREAD_CTRL_CHANGE_PRIORITY 3) (fun r s' =>
    r = RT_EOK /\ sched_ok s' /\ queue s' (QReady 3) = [T3]) s0.
Proof.
  eapply wp_mono; [apply (rt_thread_control_priority s0 T3 3 (th_at s0 T3) (ob_at s0 T3))|].
  - exact s0_ok.
  - concrete.
  - concrete.
  - concrete.
  - unfold RT_THREAD_PRIORITY_MAX. lia.
  - intros r s' (H1 & H2 & _ & H4). split; [exact H1|]. split; [exact H2|].
    rewrite (H4 (QReady 3)). concrete.
Defined.

(** * Semaphores *)
(** the semaphore is taken by the first thread *)
Definition s_taken : kstate := after (run (rt_sem_take SEM RT_WAITING_FOREVER)) s0.
Lemma s_taken_ok : sched_ok s_taken.
Proof. concrete_ok. Qed.
#[local] Opaque s_taken.

Lemma rt_sem_take_spec_witness :
  wp (rt_sem_take SEM RT_WAITING_FOREVER) (fun r s' =>
    r = Pending (rt_current_thread s_taken) /\ is_highest s' (rt_current_thread s') /\
    rt_current_thread s' <> rt_current_thread s_taken) s_taken.
Proof.
  eapply wp_mono; [apply (rt_sem_take_spec 0 s_taken SEM RT_WAITING_FOREVER (ob_at s_taken SEM)
    {| sem_value := 0 |} (th_at s_taken T1) (ob_at s_taken (thread_timer T1)))|].
  - exact s_taken_ok.
  - concrete.
  - concrete.
  - concrete.
  - concrete.
  - cbn. lia.
  - right. concrete.
  - intros _ _. concrete_block s_taken T2.
  - intros r s' (H1 & [_ _ _ _ [H2 H3] _ _]). rewrite current_set_threads in H3.
    exact (conj H1 (conj H2 H3)).
Defined.

(** * Mutexes *)
(** the thread of the lowest priority holds the mutex and the first one runs *)
Definition s_low : kstate :=
  after (run (rt_thread_suspend T1);; rt_schedule;; run (rt_thread_suspend T2);; rt_schedule;;
    run (rt_mutex_take MTX RT_WAITING_FOREVER);; run (rt_thread_resume T1);; rt_schedule) s0.
Lemma s_low_ok : sched_ok s_low.
Proof. concrete_ok. Qed.
#[local] Opaque s_low.

Lemma rt_mutex_take_spec_witness :
  wp (rt_mutex_take MTX RT_WAITING_FOREVER) (fun r s' =>
    r = Pending (rt_current_thread s_low) /\ mutexes s' = mutexes s_low /\
    exists oth', threads s' !! T3 = Some oth' /\ current_priority oth' = 5) s_low.
Proof.
  set (m := {| mtx_value := 0; original_priority := 8; hold := 1; owner := T3 |}).
  eapply wp_mono; [apply (rt_mutex_take_spec 0 s_low MTX RT_WAITING_FOREVER (ob_at s_low MTX) m
    (th_at s_low T1) (ob_at s_low (thread_timer T1)) (th_at s_low T3) (ob_at s_low T3))|].
  - exact s_low_ok.
  - concrete.
  - concrete.
  - concrete.
  - concrete.
  - right. cbn. unfold RT_MUTEX_HOLD_MAX. split; [discriminate|lia].
  - right. concrete.
  - concrete.
  - concrete_wf.
  - intros _ _ _. split; [concrete_block s_low T3|]. split_and!; concrete.
  - intros r s'. replace (owner m =? rt_current_thread s_low) with false by concrete.
    intros (H1 & _ & H2 & oth & H3 & H4). split; [exact H1|]. split; [exact H2|].
    exists oth. split; [exact H3|]. rewrite H4. concrete.
Defined.

(** the first thread holds the mutex, the second one waits for it *)
Definition s_held : kstate :=
  after (run (rt_mutex_take MTX RT_WAITING_FOREVER);; run rt_thread_yield;;
    run (rt_mutex_take MTX RT_WAITING_FOREVER)) s0.
Lemma s_held_ok : sched_ok s_held.
Proof. concrete_ok. Qed.
#[local] Opaque s_held.

Lemma rt_mutex_release_spec_witness :
  wp (rt_mutex_release MTX) (fun r s' =>
    r = RT_EOK /\ sched_ok s' /\ queue s' (QSuspend MTX) = []) s_held.
Proof.
  set (m := {| mtx_value := 0; original_priority := 5; hold := 1; owner := T1 |}).
  eapply wp_mono; [apply (rt_mutex_release_spec s_held MTX (ob_at s_held MTX) m
    (th_at s_held T1) (ob_at s_held (thread_timer T1)))|].
  - exact s_held_ok.
  - concrete.
  - concrete.
  - concrete.
  - concrete.
  - right. cbn. unfold RT_MUTEX_HOLD_MAX. split; [discriminate|lia].
  - concrete.
  - concrete_wf.
  - concrete.
  - apply (one_waiter _ _ T2 (th_at s_held T2) (ob_at s_held (thread_timer T2)));
      [concrete|concrete_wf].
  - cbn. lia.
  - intros r s'. replace (rt_current_thread s_held =? owner m) with true by concrete.
    replace (queue s_held (QSuspend MTX)) with [T2] by concrete.
    intros (H1 & h & _ & H2 & H3 & _). exact (conj H1 (conj H2 H3)).
Defined.

(** * Events *)
(** the first thread waits for one of the flags 3 *)
Definition s_evt : kstate :=
  after (run (rt_event_recv EVT 3 (Z.lor RT_EVENT_FLAG_OR RT_EVENT_FLAG_CLEAR)
    RT_WAITING_FOREVER)) s0.
Lemma s_evt_ok : sched_ok s_evt.
Proof. concrete_ok. Qed.
#[local] Opaque s_evt.
Lemma s_evt_queue : queue s_evt (QSuspend EVT) = [T1].
Proof. concrete. Qed.

Lemma rt_event_send_spec_witness :
  wp (rt_event_send EVT 5) (fun r s' =>
    r = RT_EOK /\ sched_ok s' /\ events s' = <[EVT := {| ev_set := 4 |}]> (events s_evt)) s_evt.
Proof.
  eapply wp_mono; [apply (rt_event_send_spec s_evt EVT 5 0 (ob_at s_evt EVT))|].
  - exact s_evt_ok.
  - concrete.
  - concrete.
  - concrete.
  - concrete.
  - apply (one_waiter _ _ T1 (th_at s_evt T1) (ob_at s_evt (thread_timer T1)));
      [exact s_evt_queue|concrete_wf].
  - intros t th Ht Hth. rewrite s_evt_queue in Ht. apply list_elem_of_singleton in Ht as ->.
    replace (threads s_evt !! T1) with (Some (th_at s_evt T1)) in Hth by concrete.
    apply (inj Some) in Hth; subst th. right. concrete.
  - intros r s'. rewrite s_evt_queue.
    replace (event_serve (threads s_evt) (Z.lor 0 5) [T1]) with (4, [(T1, 1)], @nil Z) by concrete.
    intros (H1 & H2 & H3 & _). exact (conj H1 (conj H2 H3)).
Defined.

Lemma rt_event_recv_spec_witness :
  wp (rt_event_recv EVT 3 RT_EVENT_FLAG_AND RT_WAITING_FOREVER) (fun r s' =>
    r = Pending (rt_current_thread s0) /\ is_highest s' (rt_current_thread s')) s0.
Proof.
  eapply wp_mono; [apply (rt_event_recv_spec 0 s0 EVT 3 RT_EVENT_FLAG_AND RT_WAITING_FOREVER 0
    (ob_at s0 EVT) (th_at s0 T1) (ob_at s0 (thread_timer T1)))|].
  - exact s0_ok.
  - concrete.
  - concrete.
  - concrete.
  - concrete.
  - left. concrete.
  - concrete.
  - concrete_wf.
  - discriminate.
  - left. concrete.
  - intros _. concrete_block s0 T2.
  - intros r s'. set (want := th_set_event _ _ _).
    replace (received want 0) with (@None Z) by concrete.
    intros (H1 & [_ _ _ _ [H2 _] _ _]). exact (conj H1 H2).
Defined.

(** * Mailboxes *)
Lemma s0_mb : mb_holds s0 MB [].
Proof.
  eexists. split; [vm_compute; reflexivity|].
  split; cbn; try lia; [reflexivity|concrete_mapped|intros i v Hi; discriminate Hi].
Qed.

Lemma rt_mb_send_wait_spec_witness :
  wp (rt_mb_send_wait MB 77 0) (fun r s' => r = Done RT_EOK /\ mb_holds s' MB [77]) s0.
Proof.
  eapply wp_mono; [apply (rt_mb_send_wait_spec 0 s0 MB 77 0 (ob_at s0 MB) (th_at s0 T1)
    (ob_at s0 (thread_timer T1)) [])|].
  - exact s0_ok.
  - concrete.
  - concrete.
  - concrete.
  - left. concrete.
  - exact s0_mb.
  - lia.
  - apply no_waiters. concrete.
  - intros _ []. reflexivity.
  - intros r s'. replace (Z.of_nat (length []) <? mb_capacity s0 MB) with true by concrete.
    intros (H1 & H2 & _). exact (conj H1 H2).
Defined.

Definition s_mail : kstate := after (run (rt_mb_send MB 77);; run (rt_mb_send MB 78)) s0.
Lemma s_mail_ok : sched_ok s_mail.
Proof. concrete_ok. Qed.
#[local] Opaque s_mail.
Lemma s_mail_mb : mb_holds s_mail MB [77; 78].
Proof.
  eexists. split; [vm_compute; reflexivity|].
  split; cbn; try lia; [reflexivity|concrete_mapped|].
  intros [|[|i]] v Hi; cbn in Hi; [| |discriminate Hi]; injection Hi as <-; concrete.
Qed.

Lemma rt_mb_recv_spec_witness :
  wp (rt_mb_recv MB RT_WAITING_FOREVER) (fun r s' =>
    r = Done (RT_EOK, Some 77) /\ mb_holds s' MB [78]) s_mail.
Proof.
  eapply wp_mono; [apply (rt_mb_recv_spec 0 s_mail MB RT_WAITING_FOREVER (ob_at s_mail MB)
    (th_at s_mail T1) (ob_at s_mail (thread_timer T1)) [77; 78])|].
  - exact s_mail_ok.
  - concrete.
  - concrete.
  - concrete.
  - left. concrete.
  - exact s_mail_mb.
  - apply no_waiters. concrete.
  - intros H. discriminate H.
  - intros r s' (H1 & H2 & _). exact (conj H1 H2).
Defined.

(** * Message queues *)
Definition mq_at (s : kstate) (mq : Z) : rt_messagequeue :=
  default {| mq_msg_pool := 0; msg_size := 0; max_msgs := 0; mq_entry := 0; msg_queue_head := 0;
    msg_queue_tail := 0; msg_queue_free := 0 |} (mqueues s !! mq).
(** a buffer of bytes 65 outside the pools *)
Definition BUF : Z := 12000.
Definition s_buf : kstate :=
  after (let* _r := on_heap (on_ram (rt_memset BUF 65 16)) in ret tt) s0.
Lemma s_buf_ok : sched_ok s_buf.
Proof. concrete_ok. Qed.
#[local] Opaque s_buf.
Ltac concrete_mq := repeat match goal with |- _ /\ _ => split end; try concrete.
Lemma s_buf_mq : mq_holds s_buf MQ [].
Proof.
  exists (mq_at s_buf MQ), [], [9512; 9492; 9472]. split; [concrete|]. split; [|constructor].
  split.
  - concrete.
  - concrete.
  - concrete.
  - replace (mq_slots (mq_at s_buf MQ)) with [9472; 9492; 9512] by concrete.
    apply (reverse_Permutation [9472; 9492; 9512]).
  - concrete.
  - concrete.
  - concrete.
  - cbn [chain]. concrete_mq.
  - concrete_mapped.
Qed.
Lemma s_buf_buffer : mq_buffer (ram (kheap s_buf)) (mq_at s_buf MQ) BUF 5.
Proof.
  split; [concrete_bytes|concrete_mapped|split; [concrete|lia]|].
  right. apply Z.leb_le. concrete.
Qed.

Lemma rt_mq_send_wait_spec_witness :
  wp (rt_mq_send_wait MQ BUF 5 0) (fun r s' =>
    r = Done RT_EOK /\ mq_holds s' MQ [[65; 65; 65; 65; 65]]) s_buf.
Proof.
  eapply wp_mono; [apply (rt_mq_send_wait_spec 0 s_buf MQ BUF 5 0 (ob_at s_buf MQ)
    (mq_at s_buf MQ) (th_at s_buf T1) (ob_at s_buf (thread_timer T1)) [])|].
  - exact s_buf_ok.
  - concrete.
  - concrete.
  - concrete.
  - left. concrete.
  - concrete.
  - exact s_buf_mq.
  - exact s_buf_buffer.
  - apply no_waiters. concrete.
  - intros _ []. reflexivity.
  - intros r s'. replace (msg_size (mq_at s_buf MQ) <? 5) with false by concrete.
    replace (Z.of_nat (length []) <? max_msgs (mq_at s_buf MQ)) with true by concrete.
    replace (bytes_at (ram (kheap s_buf)) BUF (Z.to_nat 5)) with [65; 65; 65; 65; 65] by concrete.
    intros (H1 & _ & H2). exact (conj H1 H2).
Defined.

Lemma rt_mq_urgent_spec_witness :
  wp (rt_mq_urgent MQ BUF 5) (fun r s' =>
    r = Done RT_EOK /\ mq_holds s' MQ [[65; 65; 65; 65; 65]]) s_buf.
Proof.
  eapply wp_mono; [apply (rt_mq_urgent_spec s_buf MQ BUF 5 (ob_at s_buf MQ) (mq_at s_buf MQ) [])|].
  - exact s_buf_ok.
  - concrete.
  - concrete.
  - concrete.
  - concrete.
  - exact s_buf_mq.
  - exact s_buf_buffer.
  - apply no_waiters. concrete.
  - intros r s'. replace (msg_size (mq_at s_buf MQ) <? 5) with false by concrete.
    replace (Z.of_nat (length []) <? max_msgs (mq_at s_buf MQ)) with true by concrete.
    replace (bytes_at (ram (kheap s_buf)) BUF (Z.to_nat 5)) with [65; 65; 65; 65; 65] by concrete.
    intros (H1 & _ & H2). exact (conj H1 H2).
Defined.

(** two messages of different length are queued *)
Definition s_msgs : kstate :=
  after (run (rt_mq_send MQ BUF 5);; run (rt_mq_send MQ BUF 2)) s_buf.
#[local] Opaque s_buf.
Lemma s_msgs_ok : sched_ok s_msgs.
Proof. concrete_ok. Qed.
#[local] Opaque s_msgs.
Lemma s_msgs_mq : mq_holds s_msgs MQ [[65; 65; 65; 65; 65]; [65; 65]].
Proof.
  exists (mq_at s_msgs MQ), [9512; 9492], [9472]. split; [concrete|]. split.
  - split.
    + concrete.
    + concrete.
    + concrete.
    + replace (mq_slots (mq_at s_msgs MQ)) with [9472; 9492; 9512] by concrete.
      apply (reverse_Permutation [9472; 9492; 9512]).
    + concrete.
    + cbn [chain]. concrete.
    + concrete.
    + cbn [chain]. concrete.
    + concrete_mapped.
  - repeat constructor; concrete.
Qed.

Lemma rt_mq_recv_spec_witness :
  wp (rt_mq_recv MQ BUF 3 0) (fun r s' =>
    r = Done RT_EOK /\ mq_holds s' MQ [[65; 65]] /\
    bytes_at (ram (kheap s')) BUF 3 = [65; 65; 65]) s_msgs.
Proof.
  eapply wp_mono; [apply (rt_mq_recv_spec 0 s_msgs MQ BUF 3 0 (ob_at s_msgs MQ) (mq_at s_msgs MQ)
    (th_at s_msgs T1) (ob_at s_msgs (thread_timer T1)) [[65; 65; 65; 65; 65]; [65; 65]])|].
  - exact s_msgs_ok.
  - concrete.
  - concrete.
  - concrete.
  - left. concrete.
  - concrete.
  - exact s_msgs_mq.
  - split; [concrete_bytes|concrete_mapped|split; [concrete|lia]|]. right. apply Z.leb_le. concrete.
  - apply no_waiters. concrete.
  - intros H. discriminate H.
  - intros r s' (H1 & H2 & _ & H3). split; [exact H1|]. split; [exact H2|].
    apply (H3 3%nat); cbn; lia.
Defined.

Lemma mq_setup_empty_witness :
  wp (mq_setup MQ 9472 16 3) (fun _ s' => mq_holds s' MQ [] /\ threads s' = threads s0) s0.
Proof.
  eapply wp_mono; [apply (mq_setup_empty s0 MQ 9472 16 3)|]; try lia.
  - concrete_mapped.
  - intros r s' (H1 & _ & H2). exact (conj H1 H2).
Defined.

(** * Memory pools *)
Definition mp_at (s : kstate) (mp : Z) : rt_mempool :=
  default {| start_address := 0; mp_size := 0; block_size := 0; block_list := 0;
    block_total_count := 0; block_free_count := 0 |} (mempools s !! mp).
Lemma s0_mp : mp_holds s0 MP [9728; 9748; 9768] [].
Proof.
  exists (mp_at s0 MP). split; [concrete|]. split.
  - concrete.
  - concrete.
  - concrete.
  - replace (mp_blocks (mp_at s0 MP)) with [9728; 9748; 9768] by concrete. by rewrite app_nil_r.
  - concrete.
  - cbn [chain]. concrete.
  - intros x Hx. by apply elem_of_nil in Hx.
  - concrete_mapped.
Qed.

Lemma mp_setup_all_free_witness :
  wp (mp_setup MP 9728 64 16 3) (fun _ s' => mp_holds s' MP [9728; 9748; 9768] []) s0.
Proof.
  eapply wp_mono; [apply (mp_setup_all_free s0 MP 9728 64 16 3)|]; try lia.
  - concrete_mapped.
  - intros r s' (H & _). exact H.
Defined.


(** all blocks are allocated, and the first thread waits for one *)
Definition s_pool : kstate :=
  after (run (rt_mp_alloc MP 0);; run (rt_mp_alloc MP 0);; run (rt_mp_alloc MP 0);;
    run (rt_mp_alloc MP RT_WAITING_FOREVER)) s0.
Lemma s_pool_ok : sched_ok s_pool.
Proof. concrete_ok. Qed.
#[local] Opaque s_pool.
Lemma s_pool_mp : mp_holds s_pool MP [] [9768; 9748; 9728].
Proof.
  exists (mp_at s_pool MP). split; [concrete|]. split.
  - concrete.
  - concrete.
  - concrete.
  - replace (mp_blocks (mp_at s_pool MP)) with [9728; 9748; 9768] by concrete.
    apply (reverse_Permutation [9728; 9748; 9768]).
  - concrete.
  - cbn [chain]. concrete.
  - intros x Hx. rewrite !elem_of_cons in Hx. destruct Hx as [->|[->|[->|Hx]]]; [concrete..|].
    by apply elem_of_nil in Hx.
  - concrete_mapped.
Qed.

Lemma rt_mp_free_spec_witness :
  wp (rt_mp_free 9752) (fun _ s' =>
    mp_holds s' MP [9748] [9768; 9728] /\ queue s' (QSuspend MP) = []) s_pool.
Proof.
  eapply wp_mono; [apply (rt_mp_free_spec s_pool MP 9752 [] [9768; 9748; 9728])|].
  - exact s_pool_ok.
  - exact s_pool_mp.
  - apply elem_of_cons. right. apply elem_of_cons. left. reflexivity.
  - apply (one_waiter _ _ T1 (th_at s_pool T1) (ob_at s_pool (thread_timer T1)));
      [concrete|concrete_wf].
  - intros r s'. replace (queue s_pool (QSuspend MP)) with [T1] by concrete.
    intros (H1 & H2 & _). exact (conj H1 H2).
Defined.

(** ** Sleeping *)
#[export] Instance app_passive : PassiveCallbacks app.
Proof. intros addr param s. exists s. split; [reflexivity|]. split; [by repeat split|]. by repeat split. Qed.
Lemma s0_timers : rt_timer_list s0 = [].
Proof. concrete. Qed.
Lemma s0_runnable : runnable s0.
Proof.
  split; [exact s0_ok|concrete|exists (th_at s0 T1); concrete|].
  exists T1, (th_at s0 T1). concrete.
Qed.
Lemma s0_clock_ok : clock_ok s0.
Proof.
  assert (Hno : forall u, u ∉ rt_timer_list s0) by (rewrite s0_timers; exact not_elem_of_nil).
  exists (-1). split; [|split; [concrete|intros u Hu; by destruct (Hno u Hu)]].
  split; [exact s0_runnable|concrete| | | |].
  - split; [intros u Hu; by destruct (Hno u Hu)|rewrite s0_timers; constructor].
  - rewrite s0_timers. constructor.
  - intros u Hu. by destruct (Hno u Hu).
  - intros u tm Hu. by destruct (Hno u Hu).
Qed.

Lemma rt_thread_sleep_wakes_witness :
  wp (rt_thread_sleep 3;; tick_loop 3 2) (fun _ s' =>
    exists th', threads s' !! T1 = Some th' /\ stat_of th' = RT_THREAD_READY) s0.
Proof.
  eapply wp_mono; [apply (rt_thread_sleep_wakes s0 T1 3 (th_at s0 T1) (ob_at s0 (thread_timer T1))
    (tm_at s0 (thread_timer T1)) 3 2)|].
  - exact s0_clock_ok.
  - split; [concrete|split; [concrete_wf|concrete]|concrete|concrete|].
    exists T2, (th_at s0 T2). concrete.
  - lia.
  - reflexivity.
  - replace (rt_timer_list s0) with (@nil Z) by concrete. cbn. lia.
  - intros r s' [_ [H _]]. exact H.
Defined.

(** * Typing *)
Definition typed_check (s : kstate) : bool :=
  bool_decide (map_Forall (fun o ob => has_struct s (class_of ob) o = true) (objs s)) &&
  bool_decide (map_Forall (fun c l => NoDup l /\ Forall (fun o => class_of <$> objs s !! o = Some c) l) (containers s)).
Lemma typed_check_sound s : typed_check s = true -> typed s.
Proof.
  unfold typed_check. rewrite andb_true_iff, !bool_decide_eq_true. intros [H1 H2]. split.
  - exact H1.
  - intros c o Hin. unfold object_list in Hin. destruct (containers s !! c) as [l|] eqn:E; cbn in Hin; [|by apply elem_of_nil in Hin].
    destruct (H2 _ _ E) as [_ Hl]. rewrite Forall_forall in Hl. specialize (Hl _ Hin).
    destruct (objs s !! o) as [ob|]; [|done]. injection Hl as Hl. by exists ob.
  - intros c. unfold object_list. destruct (containers s !! c) as [l|] eqn:E; cbn; [by destruct (H2 _ _ E)|constructor].
Qed.
#[export] Instance app_typed : UserCodeTyped app.
Proof. split; intros; apply pres_ret. Qed.
