(* ===== verification/ListCmdExamples.v ===== *)
(** The list commands on the concrete system: their output, and the theorems at
    states where a thread waits and where a mutex is free. *)
From Stdlib Require Import String Ascii.
From S2P Require Import Prelude RtList KService Mem Heap KString KPrintf KPrintfSpec CpuPort Kernel Sched Object Timer Thread Ipc Mutex Event Mailbox MsgQueue MemPool Idle System Typing Scenario Examples MemHeap ListCmd ListCmdSpec.

(** three threads, of which one waits for the semaphore; a free mutex *)
Definition k_wait : mstate := {| ks := s_sem; memheaps := ∅; items := ∅; __rt_errno := 0 |}.
(** the mutex is held *)
Definition k_held : mstate := {| ks := Scenario.after (run (rt_mutex_take MTX RT_WAITING_FOREVER)) s0; memheaps := ∅; items := ∅; __rt_errno := 0 |}.

(** * Output *)
(** the lines that a command prints *)
Fixpoint lines (l : list Z) (cur : string) : list string :=
  match l with
  | [] => []
  | c :: l => if c =? 10 then cur :: lines l EmptyString else lines l (cur ++ String (ascii_of_N (Z.to_N c)) EmptyString)%string
  end.
Definition printed {A} (m : L A) (k : mstate) : list string :=
  match m {| lk := k; out := [] |} with
  | Ok (_, s) => lines (out s) EmptyString
  | Fault _ => []
  end.
Lemma list_sem_prints :
  printed list_sem k_wait = ["semaphor v   suspend thread"; "-------- --- --------------"; "s        000 1:t"]%string.
Proof. vm_compute. reflexivity. Qed.
Lemma list_thread_prints : printed list_thread k_wait =
  ["thread   pri  status      sp     stack size max used left tick  error"; "-------- ---  ------- ---------- ----------  ------  ---------- ---";
   "t          8  ready   0x00000080 0x000000a0    80%   0x0000000a 000"; "t          5  ready   0x00000080 0x000000a0    80%   0x0000000a 000";
   "t          5  suspend 0x00000080 0x000000a0    80%   0x0000000a 000"]%string.
Proof. vm_compute. reflexivity. Qed.
Lemma list_mutex_prints :
  printed list_mutex k_held = ["mutex      owner  hold suspend thread"; "-------- -------- ---- --------------"; "m        t        0001 0"]%string.
Proof. vm_compute. reflexivity. Qed.
Lemma version_prints : printed (version "Nov 18 2024") k_wait =
  [""; " \ | /"; "- RT -     Thread Operating System"; " / | \     3.1.5 build Nov 18 2024"; " 2006 - 2020 Copyright by rt-thread team"]%string.
Proof. vm_compute. reflexivity. Qed.

(** * The theorems *)
Definition named_check (s : kstate) : bool :=
  bool_decide (map_Forall (fun _ l => Forall (fun t => existsb (Z.eqb 0) <$> (o_name <$> objs s !! t) = Some true) l) (queues s)).
Definition listable_check (k : mstate) : bool := typed_check (ks k) && bool_decide (objs (ks k) !! RT_NULL = None) && named_check (ks k).
Lemma listable_check_sound k : listable_check k = true -> listable k.
Proof.
  unfold listable_check, named_check. rewrite !andb_true_iff, !bool_decide_eq_true. intros [[H1 H2] H3]. split; [by apply typed_check_sound|done|].
  intros p t Ht. unfold queue in Ht. destruct (queues (ks k) !! QSuspend p) as [l|] eqn:E; cbn in Ht; [|by apply elem_of_nil in Ht].
  specialize (H3 _ _ E). cbn in H3. rewrite Forall_forall in H3. specialize (H3 _ Ht). destruct (objs (ks k) !! t) as [ob|]; [|done]. exists ob. split; [done|].
  by injection H3.
Qed.
Definition stack_check (k : mstate) (n : nat) (p : Z) : bool :=
  match threads (ks k) !! p with
  | Some th =>
      let m := ram (kheap (ks k)) in
      forallb (fun i => bool_decide (m !! (stack_addr th + Z.of_nat i) = Some 35)) (seq 0 n) &&
      match m !! (stack_addr th + Z.of_nat n) with Some b => negb (b =? 35) | None => false end &&
      bool_decide (0 <= stack_addr th /\ 0 < stack_size th /\ Z.of_nat n <= stack_size th /\
        stack_addr th + stack_size th < 4294967296 /\ stack_size th * 100 < 4294967296)
  | None => false
  end.
Lemma stack_check_sound k n p : stack_check k n p = true -> exists th, threads (ks k) !! p = Some th /\ stack_ok k th n.
Proof.
  unfold stack_check. destruct (threads (ks k) !! p) as [th|]; [|done]. rewrite !andb_true_iff, forallb_forall, bool_decide_eq_true.
  intros [[H1 H2] H3]. exists th. split; [done|]. split; [|exact H3]. split.
  - intros i Hi. eapply bool_decide_eq_true_1, H1, list_elem_of_In, elem_of_seq. lia.
  - destruct (_ !! _) as [b|]; [|done]. exists b. split; [done|]. by apply negb_true_iff, Z.eqb_neq in H2.
Qed.
Lemma k_wait_listable : listable k_wait.
Proof. apply listable_check_sound. vm_compute. reflexivity. Qed.
Lemma k_held_listable : listable k_held.
Proof. apply listable_check_sound. vm_compute. reflexivity. Qed.
(** no thread has used the lowest 32 bytes of its stack *)
Lemma k_wait_stacks : Forall (fun p => stack_check k_wait 32 p = true) (listed k_wait RT_Object_Class_Thread).
Proof. eapply bool_decide_eq_true_1. vm_compute. reflexivity. Qed.
Lemma k_held_owned p m : p ∈ listed k_held RT_Object_Class_Mutex -> mutexes (ks k_held) !! p = Some m -> is_Some (objs (ks k_held) !! owner m).
Proof.
  assert (H : bool_decide (map_Forall (fun _ m => is_Some (objs (ks k_held) !! owner m)) (mutexes (ks k_held))) = true) by (vm_compute; reflexivity).
  apply bool_decide_eq_true in H. intros _ Hm. exact (H _ _ Hm).
Qed.
Lemma k_wait_free : exists m, MTX ∈ listed k_wait RT_Object_Class_Mutex /\ mutexes (ks k_wait) !! MTX = Some m /\ owner m = RT_NULL.
Proof.
  destruct (mutexes (ks k_wait) !! MTX) as [m|] eqn:E; [|vm_compute in E; discriminate]. exists m. split; [|split; [done|]].
  - eapply bool_decide_eq_true_1. vm_compute. reflexivity.
  - vm_compute in E. by injection E as <-.
Qed.
Lemma k_wait_heaps : listed k_wait RT_Object_Class_MemHeap = [].
Proof. vm_compute. reflexivity. Qed.
#[local] Opaque s_sem.
Lemma list_commands_spec_witness :
  says list_sem k_wait 0 (table k_wait RT_Object_Class_Semaphore "semaphor v   suspend thread" " --- --------------" sem_row) /\
  says list_thread k_wait 0 (table k_wait RT_Object_Class_Thread "thread   pri  status      sp     stack size max used left tick  error"
    " ---  ------- ---------- ----------  ------  ---------- ---" (thread_row (fun _ => 32%nat))).
Proof.
  pose proof (list_commands_spec k_wait (fun _ => 32%nat) k_wait_listable) as H.
  destruct H as (H1 & _ & _ & _ & _ & _ & _ & H8); [| |exact (conj H1 H8)].
  - intros p Hp. apply stack_check_sound. exact (proj1 (Forall_forall _ _) k_wait_stacks p Hp).
  - intros p Hp. rewrite k_wait_heaps in Hp. by apply elem_of_nil in Hp.
Defined.
Lemma list_mutex_spec_witness :
  says list_mutex k_held 0 (table k_held RT_Object_Class_Mutex "mutex      owner  hold suspend thread" " -------- ---- --------------" mutex_row) /\
  forall o, list_mutex {| lk := k_wait; out := o |} = Fault BadPointer.
Proof.
  split.
  - apply (list_mutex_spec k_held k_held_listable). intros p m Hp Hm. eapply k_held_owned; [exact Hp|exact Hm].
  - apply (list_mutex_spec k_wait k_wait_listable). exists MTX. exact k_wait_free.
Defined.
